(* ===== verification/_CoqProject ===== *)
-Q . S2P
Prelude.v
GoText.v
GoBytes.v
GoTime.v
GoJson.v
GoUtf8.v
GoJsonText.v
GoJsonValue.v
GoJsonDecode.v
GoJsonStruct.v
GoJsonPrint.v
EgoFraming.v
EgoProtocol.v
EgoProtocolFacts.v
EgoRelay.v
EgoBroker.v
EgoBrokerInv.v
EgoBrokerSteps.v
EgoBrokerHistory.v
EgoDemo.v
EgoForward.v
EgoIPC.v
EgoLease.v
Manifest.v
ManifestFacts.v
ManifestCodec.v
SkillContent.v
SkillUpload.v
TaskLease.v
PortForward.v
PortForwardFacts.v
StartResult.v
Ledger.v
TaskStore.v
LedgerFacts.v
StartJournal.v
StartJournalFacts.v
Worker.v
WorkerFacts.v
DevicePayload.v
DeviceStore.v
DeviceCodec.v
DeviceFacts.v
DeviceContext.v
DeviceRelay.v
DeviceDemo.v
Deployment.v
DeploymentCodec.v
DeploymentPlan.v
DeploymentPlanFacts.v
DeploymentJournal.v
DeploymentJournalFacts.v
Programs.v
DeploymentRun.v
DeploymentRunFacts.v
Finalization.v
FinalizationJournal.v
FinalizationCodec.v
FinalizationJournalFacts.v
FinalizationWire.v
FinalizationTransfer.v
FinalizationTransferFacts.v
NodeExport.v
ExportStream.v
ExportStreamFacts.v
ExportRoundTrip.v
ExportAuthorization.v
ExportAuthorizationFacts.v
RecoveryStream.v
RecoveryFacts.v
RecoveryRoundTrip.v
ExportSession.v
ExportServe.v
ExportServeFacts.v
ExportDemo.v
SshKeys.v
SshKeysFacts.v
Attachments.v
AttachmentsFacts.v
AttachmentsRoundTrip.v
