(* ===== verification/Prelude.v ===== *)
(** * A verification of agent-remote-node

    agent-remote-node is the agent that runs on a node of a remote-work
    service: it executes tasks that a control plane leases to it, brokers
    browser requests of local tool sessions to a relay, serves SSH port
    forwards into sessions, and keeps private, versioned skill trees.  This
    library models the decision-making parts of the program as Rocq functions
    over explicit state and proves what makes them correct.

    ** How code is modelled

    - A Go function is a Rocq function of the same name; a method takes its
      receiver as an argument and returns the new value.  A function that
      returns an error returns [result E A] (this file), with one constructor
      of [E] for each error a caller can tell apart.
    - A critical section ("...Locked" functions and bodies between Lock and
      Unlock) is one state-passing function; goroutines are program counters
      and interleavings are step relations over these functions.
    - Integers are [Z] with their width written out where it can matter
      ([wrap_int64], [is_uint64], ...); strings and byte slices are byte
      sequences; maps are [gmap]; pointers that are compared or shared
      (binding states) are addresses in an explicit heap.
    - Time is in nanoseconds and is an input.  Random values, the answers of
      the control plane, of connections and of files are inputs too.
    - Code outside the repository is a parameter: AES-GCM, X25519 and SHA-256
      ([seal], [agree], [sha256], [hex_sha256]) and Unicode normalisation
      ([IsNormalString]).  A property states what it needs of them.

    ** Files

    Foundations: [Prelude] (results, guards, machine integers, tactics),
    [GoText] (strings, path/filepath), [GoBytes] (big-endian integers,
    base64url), [GoTime] (RFC 3339), [GoJson] (encoding/json: parser, struct
    decoding, printing), [GoUtf8] (unicode/utf8), [GoJsonText],
    [GoJsonValue], [GoJsonDecode] ([map[string]any] values: texts, numbers,
    printing and reading back in any white space), [GoJsonStruct] (structs by
    their fields: encoding, lax and strict decoding, round trips up to member
    order), [GoJsonPrint] (what every printed text has in common, the texts
    of array elements), [Programs] (runs that call the outside world over a
    store that other goroutines may share, with the discipline their calls
    obey).

    Ego-browser broker (src/internal/egobrowser):
    - [EgoFraming]: framing.go, length-prefixed frames over partial writes.
    - [EgoProtocol], [EgoProtocolFacts]: envelopes, permits, bindings and
      their validators, key wrapping, cancellation frames, sequence state
      (broker.go, json.go, task.go, and the wire types of api/client.go).
    - [EgoRelay]: relay sessions (register, abandon, deliver, closeWithError)
      and their result channels.
    - [EgoBroker]: the [Broker] record and every operation of broker.go that
      changes it; [EgoBrokerInv] the invariant and the "only removes" order on
      brokers; [EgoBrokerSteps] that every region preserves it;
      [EgoBrokerHistory] the step relation with restarts and the histories of
      issued and consumed permits; [EgoDemo] a concrete run used by witnesses.
    - [EgoForward]: the forwarding goroutine and the wait for a response.
    - [EgoIPC]: the first frame of a connection, its authorization, answers.
    - [EgoLease]: renewal, grace periods, the replay table.

    Skill manager (src/internal/skillmanager): [Manifest], [ManifestFacts]
    (validate.go, manifest.go: validation, links, digest), [ManifestCodec]
    (json.go, manifest.go: reading and printing), [SkillContent]
    (content_verifier.go: streaming verification) and [SkillUpload] (the
    verifying reader of api/skill_transfer.go).

    Task ledger (src/internal/ledger): [Ledger] the ledger in memory and on
    disk; [TaskStore] the interface its clients are proved against, a class of
    operations and a class of laws; [LedgerFacts] the ledger's theorems and the
    instance.

    Worker (src/internal/worker):
    - [TaskLease]: task_lease.go.
    - [StartResult]: identities and start results
      (skillmanager/preparation.go, api/skill_start_result.go,
      api/skill_start_inspection.go).
    - [StartJournal], [StartJournalFacts]: the journal of
      managed starts over [TaskStore] (start_journal.go, start_retirement.go,
      start_confirmation.go).
    - [Worker], [WorkerFacts]: the worker's loops, admission,
      helper calls and the execution of tasks over [TaskStore] (worker.go and
      the helpers of session_lifecycle.go, config_import.go,
      account_runtime.go, managed_stop.go).

    Device control (src/internal/devicecontrol, the device-control part of
    src/internal/runtimehelper/engine.go and of worker.go): [DevicePayload]
    payloads and their validation; [DeviceStore] activation files, session
    contexts, bridges and the task handlers; [DeviceCodec] files read back;
    [DeviceFacts] histories of the three stores; [DeviceContext] what tasks
    leave behind; [DeviceRelay] the bridge protocol; [DeviceDemo] concrete
    runs.

    Skill deployments (deployment*.go of src/internal/skillmanager and
    src/internal/worker, skill_deployment*.go of src/internal/api):
    - [Deployment], [DeploymentCodec]: identities, receipts, drains,
      termination requests, intents and results, their validators and strict
      JSON codecs with round trips; [DeploymentPlan], [DeploymentPlanFacts]:
      plans, their canonical digest and the validation of a deployment input.
    - [DeploymentJournal], [DeploymentJournalFacts]: the two kinds of journal
      entry of a deployment task over [TaskStore] and their histories.
    - [DeploymentRun], [DeploymentRunFacts]: executing a task and the recovery
      rounds, in a state and error monad whose state has the store and the
      trace of calls to the server and the helper.  The poll, the recovery and
      the other loops are goroutines over one ledger: before every call and
      every access to the ledger the others may change it ([shared]).

    Finalizations (journal.go, finalization_*.go and reclamation.go of
    src/internal/skillmanager, finalization_*.go of src/internal/worker,
    skill_finalization*.go, skill_reclamation.go, skill_termination.go and
    skill_capture_pending.go of src/internal/api):
    - [Finalization], [FinalizationCodec]: captures, receipts, publications
      and acknowledgements, their validators, order and codecs.
    - [FinalizationJournal], [FinalizationJournalFacts]: the transfer journal
      over [TaskStore] and its histories.
    - [FinalizationWire]: the inventory, reclamation authorizations and
      capture failures, and the checks of the server's answers.
    - [FinalizationTransfer], [FinalizationTransferFacts]: the transfer of a
      capture and the recovery loop as [Programs].

    Skill export (src/internal/skillexport, node_export*.go and recovery*.go of
    src/internal/skillmanager, skill_node_export*.go of src/internal/api):
    - [NodeExport]: permissions, their continuation and the client's checks.
    - [ExportStream]: frames, headers, the writer and the relay of a snapshot
      over a wire that may stop at any byte; [ExportStreamFacts] what the
      receiver sees; [ExportRoundTrip] writer and relay together.
    - [RecoveryStream], [RecoveryFacts], [RecoveryRoundTrip]: the same for the
      recovery format, whose writer is driven by its source.
    - [ExportAuthorization], [ExportAuthorizationFacts]: the authorization of a
      connection, its checks, renewals and watchers interleaved with a clock.
    - [ExportSession]: checks made one after the other under such an
      authorization; [ExportServe], [ExportServeFacts] a served connection
      from its request to its last byte (with stopped_export.go of
      src/internal/runtimehelper); [ExportDemo] runs.

    Port forwarding (src/internal/portforward/tunnel.go): [PortForward],
    [PortForwardFacts].

    Managed SSH keys (src/internal/sshkeys/sshkeys.go): [SshKeys] the text of
    the authorized_keys file before and after a synchronisation; [SshKeysFacts].

    Attachment transfers (src/internal/claudeattachments/transfer.go):
    [Attachments] the gateway of a lease on the streams of [ExportStream], with
    the files of the account, the receipts and the control plane as its state;
    [AttachmentsFacts] isolation, cleanup, limits and termination;
    [AttachmentsRoundTrip] a client that keeps to the rules.

    ** What the theorems show

    - Broker safety: permits are single use across interleavings and restarts
      ([permit_single_use], [persisted_before_issued]); permits and requests
      never outlive the binding and session that back them
      ([permits_backed], [requests_backed], [revoke_clears]); the parallel
      limit ([parallel_limit]); stale snapshots never move a binding back
      ([snapshot_monotone]); no frame is sent twice and the requests of
      a binding that are still registered go on the wire in permit order
      ([send_order]; an unregistered one goes out of turn,
      [unregistered_request_forwarded]); peers are authorized for exactly their capability
      ([peer_authorization_exact], [dispatch_authorized]); expiry and grace
      deadlines ([permit_expiry_bounds], [grace_deadline],
      [ensureLease_admits], [pruneConsumed_spec]).
    - Relay sessions: at most one result per request, exact delivery, complete
      failure on close, late responses dropped once.
    - Protocol: frames, the sequence file and base64url round trip; wrapped
      requests and cancellation frames pass their own validation; key-wrap
      transcripts are injective.
    - Skill trees: [Validate] decides a declarative well-formedness
      ([Validate_spec]); links cannot leave the tree ([links_stay_inside]);
      the digest determines the tree up to hash collisions
      ([Digest_identifies]); checking a stream equals checking the file
      ([verify_stream_equiv]).
    - Task leases: budgets end before the server's lease and a successful run
      is covered by leases ([renewTaskBudget_bounds], [success_under_lease],
      [lost_lease_reported]).
    - Tunnels: authorization of the handshake, pinned leases, stream limit,
      distinct request identifiers.
    - Ledger: a restart reads the very same ledger ([ledger_restart_exact]),
      every outcome of a save ([save_outcomes]), exact compare-and-swap
      ([cas_exact]) and listing ([list_exact]).
    - Managed starts: outcomes are never taken back ([start_outcome_kept]),
      are durable before the server hears of them ([confirm_write_ahead]), and
      recovery settles them as the server answered ([inspection_exact]).
    - Deployments: confirmed preparations and recorded terminations stay
      ([deployment_outcome_kept]); every call to the server or the helper that
      depends on an outcome is made with its justification in the ledger,
      whatever the other goroutines write meanwhile: some ledger the run met
      on its way held it, and the ledger at the call still does where it is an
      intent or a drain, or where nobody touched the entry
      ([deployment_write_ahead]); a task
      is done only when its outcome is settled ([deployment_done_settled]);
      plan digests identify plans ([plan_digest_identifies]) and inputs have
      exactly the enabled skills ([deployment_members]).
    - Finalizations: records keep their captures, receipts and decisions
      ([transfer_record_kept]); the server and the helper are told only what
      the ledger holds and content is released only on a recorded decision, or
      for a reclamation that the helper itself reports as begun
      ([transfer_write_ahead]); a transfer that succeeds is settled
      ([transfer_done_settled]); manifests round trip
      ([manifest_codec_roundtrip]) and an upload is confirmed only for exactly
      the file's bytes ([upload_exact]).
    - Export: the relays show a footer only behind verified contents and a
      fresh authorization ([relay_gated], [recovery_relay_gated]), and what is
      written is relayed byte for byte ([snapshot_relayed],
      [recovery_relayed]); a check that passes is covered by an answer of the
      server ([export_check_backed]) and authority never widens
      ([export_authority_kept]), so a served connection sends only what the server
      authorized ([serve_authorized]).
    - Managed keys: the file is its owner's text and a map of devices that
      synchronisations update one at a time, as long as the lines the accepted
      requests write are single lines ([sync_history_exact]; without that,
      [newline_key_reaches_device]).
    - Attachment transfers: whatever a client sends, a transfer stays inside
      its lease's directory and, once the whole offer is out, is cleaned up
      ([attachments_cleaned]), what is
      acknowledged is what arrived ([attachments_accepted]), the loop ends
      ([attachments_end]), and a transfer by the rules goes through
      ([attachments_complete]).
    - Worker: all reports about a task agree and a reported task is not run
      again, except that a reported stop or cleanup is executed once more
      behind its report ([reports_agree], for tasks without a journal of their
      own); loops keep turning ([loop_keeps_turning]); the
      browser context of a session is the node's ([context_owned_by_node]) and
      registrations need admission ([registration_needs_admission]).
    - Device control: well-typed files and bridges ([device_state_typed]);
      bridges are backed by activation files ([bridges_backed]); generations
      move forward ([generation_forward]); tasks do what they report
      ([activation_complete], [deactivation_complete]); contexts are not
      rewound ([context_sequence_kept]); relays are opened for the activated
      peer only ([relay_opened_exact]) and the wait for them ends
      ([relay_wait_ends]).

    Eight theorems record behaviour that looks unintended:
    [EgoIPC.dispatch_alias_confusion],
    [EgoLease.unregistered_request_forwarded],
    [EgoLease.expired_request_waiter_not_woken],
    [PortForwardFacts.grace_overflow_closes_early],
    [DeviceDemo.oversized_activation_sticks],
    [SshKeysFacts.install_ssh_unprepared],
    [SshKeysFacts.newline_key_reaches_device] and
    [AttachmentsFacts.AttachmentsDemo.quota_not_enforced].

    ** Bounds and fuel

    The JSON parser takes three units of fuel per input byte, which its
    recursion cannot exceed (every call consumes a byte or descends from a
    value to its first member); decimal printing takes twenty digits, enough
    for 64 bits.  Link resolution needs no fuel: it recurses on the forty hops
    that the code allows and then on the pending components.  Event loops
    (renewal ticks, response waits) are functions of the finite list of events
    they handled.  The loop over the frames of an
    attachment transfer has the length of its input as fuel, as every turn
    reads a line ([attachments_end]).  The wait for relay material takes fuel; [relay_wait_ends]
    says how much is enough for every behaviour of the server.  Nesting of
    JSON is bounded by the 10000 levels encoding/json allows.

    ** Not modelled

    System calls and processes (the runtime helper apart from device-control
    contexts, containers, tmux, wireguard, browser, the Linux filesystem code
    of the skill manager), the HTTP and websocket transports, metrics,
    configuration and command lines.  Of the modelled packages: the IPC
    listener and its peer-credential call, the
    bandwidth limiter of tunnels (floating point), the copying of stream and
    relay bytes, and the accept loop of a bridge.  A ledger entry's time is an
    instant, without its zone.  Whether an empty list of capabilities is nil
    is not kept: the two decode alike.  In the execution of deployments the
    answers of the server, of the helper and of the lease keeper are an
    oracle ([Outside]) that the model queries in the order of the code, and
    what other goroutines write is another ([Interference]); the messages of a
    reclamation between helper and worker are one call.  The runs of a
    finalization and the confirmations of managed starts are modelled with the
    ledger to themselves, which for finalizations the gate of the coordinator
    gives.  A time
    is an instant, and expiries lie in the years JSON can hold.  Of the export,
    the idle deadlines of a connection are not modelled and its closing on
    cancellation is an output that stops; one clock stands for wall and
    monotonic time, and a recovery source writes only between a [Begin] and its
    [End].  Of the attachments, the legacy receiver of an account and the
    checks of single directories on the way to a file are left out; a file is
    seen when it is closed, not while it is written. *)

From Stdlib Require Export ZArith Lia.
From Stdlib.Strings Require Export Byte.
From stdpp Require Export base list gmap strings sorting numbers.
From coqutil Require Export Datatypes.RecordSettersUsingExistingGetters.

#[global] Set Default Goal Selector "!".
Open Scope Z_scope.

(** ** Record update

    Field update keeps the projections of the untouched fields folded, so
    [cbn] turns a projection of an updated record into the projection of the
    original one. *)
#[global] Arguments set {R E} getter {Setter} fieldUpdater r /.
#[global] Arguments const {E} newValue _ /.

(** ** Results of fallible Go functions

    A Go function that returns [(T, error)] is a function into [result E T];
    the error type is the sentinel the callers can distinguish with
    [errors.Is]. *)
Inductive result (E A : Type) : Type :=
  | Ok (a : A)
  | Err (e : E).
Arguments Ok {E A} a.
Arguments Err {E A} e.

Declare Scope go_scope.
Delimit Scope go_scope with go.

#[global] Instance result_ret E : MRet (result E) := λ A a, Ok a.
#[global] Instance result_bind E : MBind (result E) := λ A B f r,
  match r with Ok a => f a | Err e => Err e end.

(** [require b orelse e ;; k] is the Go guard [if !b { return e }; k]. *)
Notation "'require' b 'orelse' e ';;' k" :=
  (if b then k else Err e)
  (at level 100, b at level 90, e at level 90, k at level 200,
   right associativity) : go_scope.
#[global] Open Scope go_scope.

Definition is_ok {E A} (r : result E A) : bool :=
  match r with Ok _ => true | Err _ => false end.

Definition is_some {A} (o : option A) : bool := match o with Some _ => true | None => false end.

#[global] Instance result_eq_dec `{EqDecision E, EqDecision A} :
  EqDecision (result E A).
Proof. solve_decision. Defined.

Lemma bind_Ok_inv {E A B} (r : result E A) (f : A → result E B) b :
  (r ≫= f) = Ok b → ∃ a, r = Ok a ∧ f a = Ok b.
Proof. destruct r; cbn; [eauto | discriminate]. Qed.

Lemma Ok_inj {E A} (a b : A) : @Ok E A a = Ok b → a = b.
Proof. by injection 1. Qed.

Lemma require_Ok_inv {E A} (b : bool) (e : E) (k : result E A) a :
  (require b orelse e ;; k) = Ok a → b = true ∧ k = Ok a.
Proof. by destruct b. Qed.

(** ** Machine integers

    Go's [int] is 64 bits wide on every platform the node is built for. *)
Definition max_int64 : Z := 2 ^ 63 - 1.
Definition max_uint64 : Z := 2 ^ 64 - 1.
Definition max_uint32 : Z := 2 ^ 32 - 1.
Definition is_int64 (z : Z) : Prop := - 2 ^ 63 ≤ z ≤ max_int64.
Definition is_uint64 (z : Z) : Prop := 0 ≤ z ≤ max_uint64.

(** Two's-complement wrap-around of a 64-bit addition. *)
Definition wrap_int64 (z : Z) : Z := (z + 2 ^ 63) mod 2 ^ 64 - 2 ^ 63.
Definition wrap_uint64 (z : Z) : Z := z mod 2 ^ 64.

Lemma wrap_int64_id z : is_int64 z → wrap_int64 z = z.
Proof. unfold is_int64, wrap_int64, max_int64. intros. rewrite Z.mod_small; lia. Qed.

(** ** Booleans and propositions

    [reflect_bools] turns every boolean test of the hypotheses and the goal
    into the proposition it decides. *)
Create Rewrite HintDb go_bool.
#[export] Hint Rewrite
  andb_true_iff andb_false_iff orb_true_iff orb_false_iff negb_true_iff negb_false_iff
  Z.eqb_eq Z.eqb_neq Z.leb_le Z.leb_gt Z.ltb_lt Z.ltb_ge
  Nat.eqb_eq Nat.eqb_neq Nat.leb_le Nat.leb_gt Nat.ltb_lt Nat.ltb_ge
  bool_decide_eq_true bool_decide_eq_false
  : go_bool.

Ltac reflect_bools :=
  repeat match goal with
  | H : context [Z.gtb _ _] |- _ => rewrite Z.gtb_ltb in H
  | H : context [Z.geb _ _] |- _ => rewrite Z.geb_leb in H
  | |- context [Z.gtb _ _] => rewrite Z.gtb_ltb
  | |- context [Z.geb _ _] => rewrite Z.geb_leb
  end;
  autorewrite with go_bool in *; destruct_and?.

(** [go_inv H] peels the guards and the binds off a successful run. *)
Ltac go_inv H :=
  repeat match type of H with
  | (if _ then _ else Err _) = Ok _ =>
      let Hb := fresh "Hguard" in apply require_Ok_inv in H as [Hb H]
  | (_ ≫= _) = Ok _ =>
      let a := fresh "a" in let Ha := fresh "Hrun" in
      apply bind_Ok_inv in H as (a & Ha & H)
  end.

(** [case_run] splits the innermost [if]/[match] of a hypothesis or goal. *)
Ltac case_run :=
  match goal with
  | H : context [match ?x with _ => _ end] |- _ =>
      lazymatch x with context [match _ with _ => _ end] => fail | _ => idtac end;
      let E := fresh "E" in destruct x eqn:E
  | |- context [match ?x with _ => _ end] =>
      lazymatch x with context [match _ with _ => _ end] => fail | _ => idtac end;
      let E := fresh "E" in destruct x eqn:E
  end.
