(* ===== verification/GoText.v ===== *)
(** * Go strings: the byte-string operations the node's validators use

    A Go string is a byte sequence, so [string] (a list of 8-bit [ascii]
    values) represents it exactly; [len] counts bytes.  Loops of the source
    that range over the runes of a string and admit only ASCII characters are
    written as byte loops: every byte of a multi-byte or malformed sequence is
    at least 0x80 and the rune it decodes to is never one of the admitted
    ASCII characters, so both loops accept the same strings. *)

From S2P Require Import Prelude.
From Stdlib Require Import Ascii.

Open Scope Z_scope.

(** ** Characters *)

Definition code (c : ascii) : Z := Z.of_N (N_of_ascii c).

Definition in_range (lo hi : ascii) (c : ascii) : bool :=
  (code lo <=? code c) && (code c <=? code hi).

Definition is_lower : ascii → bool := in_range "a" "z".
Definition is_upper : ascii → bool := in_range "A" "Z".
Definition is_digit : ascii → bool := in_range "0" "9".
Definition is_hex (c : ascii) : bool := is_digit c || in_range "a" "f" c.
Definition is_alnum (c : ascii) : bool := is_lower c || is_upper c || is_digit c.

Fixpoint has_char (set : string) (c : ascii) : bool :=
  match set with
  | EmptyString => false
  | String d rest => Ascii.eqb c d || has_char rest c
  end.

(** ** Loops over the bytes of a string *)

Fixpoint all_chars (p : ascii → bool) (s : string) : bool :=
  match s with
  | EmptyString => true
  | String c rest => p c && all_chars p rest
  end.

Definition len (s : string) : Z := Z.of_nat (String.length s).

(** [strings.ContainsAny s set] for an ASCII [set]. *)
Definition contains_any (set s : string) : bool :=
  negb (all_chars (λ c, negb (has_char set c)) s).

Definition non_empty (s : string) : bool := negb (String.eqb s "").

(** [strings.HasPrefix] and [strings.TrimPrefix]. *)
Fixpoint strip_prefix (p s : string) : option string :=
  match p, s with
  | EmptyString, _ => Some s
  | String a p', String b s' => if Ascii.eqb a b then strip_prefix p' s' else None
  | _, _ => None
  end.

Definition has_prefix (p s : string) : bool :=
  match strip_prefix p s with Some _ => true | None => false end.

Definition trim_prefix (p s : string) : string :=
  match strip_prefix p s with Some r => r | None => s end.

(** [strings.Contains]. *)
Fixpoint contains (sub s : string) : bool :=
  has_prefix sub s ||
  match s with
  | EmptyString => false
  | String _ rest => contains sub rest
  end.

(** [strings.Split s sep] for a one-byte separator: never the empty list. *)
Fixpoint split_on (sep : ascii) (s : string) : list string :=
  match s with
  | EmptyString => [""]
  | String c rest =>
      if Ascii.eqb c sep then "" :: split_on sep rest
      else match split_on sep rest with
           | [] => [String c ""]
           | w :: ws => String c w :: ws
           end
  end.

(** [strings.Join]. *)
Fixpoint join (sep : string) (parts : list string) : string :=
  match parts with
  | [] => ""
  | [p] => p
  | p :: rest => (p +:+ sep +:+ join sep rest)
  end.

(** ** [strings.TrimSpace]

    The white space of [unicode.IsSpace]: six ASCII characters, and the
    UTF-8 encodings of U+0085, U+00A0, U+1680, U+2000..U+200A, U+2028, U+2029,
    U+202F, U+205F and U+3000. *)
Definition is_space1 (c : ascii) : bool := (code c =? 32) || ((9 <=? code c) && (code c <=? 13)).
Definition is_space2 (a b : ascii) : bool :=
  (code a =? 0xC2) && ((code b =? 0x85) || (code b =? 0xA0)).
Definition is_space3 (a b c : ascii) : bool :=
  (code a =? 0xE1) && (code b =? 0x9A) && (code c =? 0x80) ||
  (code a =? 0xE2) && (code b =? 0x80) &&
    ((0x80 <=? code c) && (code c <=? 0x8A) || (code c =? 0xA8) || (code c =? 0xA9) ||
     (code c =? 0xAF)) ||
  (code a =? 0xE2) && (code b =? 0x81) && (code c =? 0x9F) ||
  (code a =? 0xE3) && (code b =? 0x80) && (code c =? 0x80).

Fixpoint trim_left (s : string) : string :=
  match s with
  | EmptyString => ""
  | String a r1 =>
      if is_space1 a then trim_left r1
      else match r1 with
           | EmptyString => s
           | String b r2 =>
               if is_space2 a b then trim_left r2
               else match r2 with
                    | EmptyString => s
                    | String c r3 => if is_space3 a b c then trim_left r3 else s
                    end
           end
  end.

(** The same loop from the right, on the reversed string. *)
Fixpoint trim_left_rev (s : string) : string :=
  match s with
  | EmptyString => ""
  | String a r1 =>
      if is_space1 a then trim_left_rev r1
      else match r1 with
           | EmptyString => s
           | String b r2 =>
               if is_space2 b a then trim_left_rev r2
               else match r2 with
                    | EmptyString => s
                    | String c r3 => if is_space3 c b a then trim_left_rev r3 else s
                    end
           end
  end.

Definition trim_space (s : string) : string :=
  String.rev (trim_left_rev (String.rev (trim_left s))).

(** ** Fixed-shape regular expressions

    The anchored patterns of the node that are concatenations of character
    classes: one predicate per position. *)
Fixpoint match_classes (ps : list (ascii → bool)) (s : string) : bool :=
  match ps, s with
  | [], EmptyString => true
  | p :: ps', String c s' => p c && match_classes ps' s'
  | _, _ => false
  end.

Definition is_dash (c : ascii) : bool := Ascii.eqb c "-".

(** [^[a-f0-9]{64}$]: the content and relay digest pattern. *)
Definition hex64 (s : string) : bool := match_classes (replicate 64 is_hex) s.

(** ** Facts *)

Lemma all_chars_app p s t : all_chars p (s +:+ t) = all_chars p s && all_chars p t.
Proof.
  induction s as [|c s IH]; [done|].
  change (String c s +:+ t) with (String c (s +:+ t)). cbn. rewrite IH. apply andb_assoc.
Qed.

Lemma all_chars_impl (p q : ascii → bool) s :
  (∀ c, p c = true → q c = true) → all_chars p s = true → all_chars q s = true.
Proof.
  intros Hpq. induction s as [|c s IH]; [done|]. cbn.
  rewrite !andb_true_iff. naive_solver.
Qed.

Lemma string_length_app s t :
  String.length (s +:+ t) = (String.length s + String.length t)%nat.
Proof.
  induction s as [|c s IH]; [done|].
  change (String c s +:+ t) with (String c (s +:+ t)). cbn. by rewrite IH.
Qed.

Lemma len_app s t : len (s +:+ t) = len s + len t.
Proof. unfold len. rewrite string_length_app. lia. Qed.

Lemma len_nonneg s : 0 ≤ len s.
Proof. unfold len. lia. Qed.

Lemma match_classes_length ps s :
  match_classes ps s = true → String.length s = length ps.
Proof.
  revert s. induction ps as [|p ps IH]; intros [|c s]; cbn; try done.
  rewrite andb_true_iff. intros [_ H]. by rewrite (IH s).
Qed.

Lemma strip_prefix_Some p s r : strip_prefix p s = Some r ↔ s = (p +:+ r).
Proof.
  revert s. induction p as [|a p IH]; intros s.
  - change ("" +:+ r) with r. cbn. naive_solver.
  - change (String a p +:+ r) with (String a (p +:+ r)).
    destruct s as [|b s]; cbn; [naive_solver|].
    destruct (Ascii.eqb_spec a b) as [->|Hne].
    + rewrite IH. naive_solver.
    + naive_solver.
Qed.

Lemma split_on_nonempty sep s : split_on sep s ≠ [].
Proof. destruct s as [|c s]; cbn; [done|]. repeat case_match; done. Qed.

(** Joining the parts of a split gives the string back. *)
Lemma join_split_on sep s : join (String sep "") (split_on sep s) = s.
Proof.
  induction s as [|c s IH]; [done|]. cbn.
  pose proof (split_on_nonempty sep s) as Hne.
  destruct (split_on sep s) as [|w ws] eqn:E; [done|].
  destruct (Ascii.eqb_spec c sep) as [->|_].
  - change (join (String sep "") ("" :: w :: ws))
      with (String sep (join (String sep "") (w :: ws))). by rewrite IH.
  - destruct ws as [|w' ws]; cbn in *.
    + by rewrite IH.
    + change (String c w +:+ ?x) with (String c (w +:+ x)). by rewrite IH.
Qed.

Lemma string_app_assoc s t u : (s +:+ t) +:+ u = s +:+ (t +:+ u).
Proof. induction s as [|c s IH]; [done|]. exact (f_equal (String c) IH). Qed.

(** ** Byte-wise string order: Go's [<] on strings *)
Fixpoint str_ltb (s t : string) : bool :=
  match s, t with
  | _, "" => false
  | "", String _ _ => true
  | String a s', String b t' =>
      (code a <? code b) || ((code a =? code b) && str_ltb s' t')
  end.

Definition str_lt (s t : string) : Prop := str_ltb s t = true.

#[global] Instance str_lt_irrefl : Irreflexive str_lt.
Proof.
  intros s. unfold complement, str_lt. induction s as [|c s IH]; [done|].
  cbn. rewrite Z.ltb_irrefl, Z.eqb_refl. done.
Qed.

#[global] Instance str_lt_trans : Transitive str_lt.
Proof.
  unfold str_lt. intros s. induction s as [|a s IH]; intros [|b t] [|c u]; cbn; try done.
  intros H1 H2. reflect_bools. destruct H1 as [H1|[H1 H1']], H2 as [H2|[H2 H2']].
  - left; lia.
  - left; lia.
  - left; lia.
  - right. split; [lia|]. eauto.
Qed.

Lemma str_lt_extend s c t : str_lt s (s +:+ String c t).
Proof.
  unfold str_lt. induction s as [|a s IH]; [done|].
  change (String a s +:+ ?x) with (String a (s +:+ x)). cbn.
  rewrite Z.eqb_refl, IH. apply orb_true_r.
Qed.

Lemma empty_lt s : s ≠ "" → str_lt "" s.
Proof. by destruct s. Qed.

Lemma str_lt_cases s t : str_lt s t ∨ s = t ∨ str_lt t s.
Proof.
  unfold str_lt. revert t. induction s as [|a s IH]; intros [|b t]; cbn; auto.
  destruct (Z.lt_trichotomy (code a) (code b)) as [H|[H|H]].
  - left. by rewrite (proj2 (Z.ltb_lt _ _) H).
  - assert (a = b) as ->.
    { unfold code in H. rewrite <- (ascii_N_embedding a), <- (ascii_N_embedding b). f_equal. lia. }
    rewrite Z.ltb_irrefl, Z.eqb_refl. cbn. destruct (IH t) as [?|[->|?]]; auto.
  - right. right. by rewrite (proj2 (Z.ltb_lt _ _) H).
Qed.

(** ** path/filepath on slash-separated paths *)

Definition IsAbs (path : string) : bool := has_prefix "/" path.

(** The elements of a cleaned path, last one first.  [..] removes the element
    before it; it is dropped at the root of an absolute path and kept at the
    start of a relative one. *)
Definition clean_step (rooted : bool) (stack : list string) (part : string) : list string :=
  if String.eqb part "" || String.eqb part "." then stack
  else if String.eqb part ".." then
    match stack with
    | top :: rest => if String.eqb top ".." then part :: stack else rest
    | [] => if rooted then [] else [part]
    end
  else part :: stack.

Definition clean_parts (rooted : bool) (parts : list string) : list string :=
  rev (foldl (clean_step rooted) [] parts).

Definition Clean (path : string) : string :=
  let rooted := IsAbs path in
  let text := join "/" (clean_parts rooted (split_on "/" path)) in
  if rooted then String "/" text else if String.eqb text "" then "." else text.

Definition Join2 (a b : string) : string :=
  if String.eqb a "" then (if String.eqb b "" then "" else Clean b)
  else if String.eqb b "" then Clean a
  else Clean (a +:+ String "/" b).

(** The last element, without trailing slashes. *)
Definition Base (path : string) : string :=
  if String.eqb path "" then "."
  else match List.filter non_empty (rev (split_on "/" path)) with
       | part :: _ => part
       | [] => "/"
       end.

(** Everything but the last element, cleaned. *)
Definition Dir (path : string) : string :=
  match rev (split_on "/" path) with
  | _ :: rest => Clean (join "/" (rev rest) +:+ match rest with [] => "" | _ => "/" end)
  | [] => "."
  end.

Example clean_examples :
  map Clean ["/a//b/./c/.."; "/../x"; "a/../../b"; ""; "/"] = ["/a/b"; "/x"; "../b"; "."; "/"] ∧
  map Base ["/a/b/"; "x"; "/"; ""] = ["b"; "x"; "/"; "."] ∧
  map Dir ["/a/b"; "/a"; "a"; "a/b/"; ""] = ["/a"; "/"; "."; "a/b"; "."].
Proof. by vm_compute. Qed.
