(* ===== verification/GoBytes.v ===== *)
(** * Go byte slices: big-endian integers, length-prefixed frames, base64url

    [[]byte] is [list byte].  The file models what the node uses of
    [encoding/binary] (big-endian 32- and 64-bit integers) and of
    [encoding/base64] ([RawURLEncoding]). *)

From S2P Require Import Prelude GoText.
From Stdlib Require Import Ascii.

Open Scope Z_scope.

Abbreviation bytes := (list byte).

#[global] Instance byte_eq_dec : EqDecision byte := Byte.byte_eq_dec.

Definition bval (b : byte) : Z := Z.of_N (Byte.to_N b).

Definition byte_of_Z (z : Z) : byte :=
  match Byte.of_N (Z.to_N (z mod 256)) with Some b => b | None => x00 end.

Definition bytes_of_string (s : string) : bytes := String.list_byte_of_string s.

Lemma bval_range b : 0 ≤ bval b < 256.
Proof. unfold bval. pose proof (Byte.to_N_bounded b). lia. Qed.

Lemma byte_of_bval b : byte_of_Z (bval b) = b.
Proof.
  unfold byte_of_Z. pose proof (bval_range b). rewrite Z.mod_small by done.
  unfold bval. rewrite N2Z.id, Byte.of_to_N. done.
Qed.

Lemma bval_byte_of_Z z : bval (byte_of_Z z) = z mod 256.
Proof.
  unfold byte_of_Z. pose proof (Z.mod_pos_bound z 256 ltac:(lia)) as Hb.
  destruct (Byte.of_N _) as [b|] eqn:E.
  - apply Byte.to_of_N in E. unfold bval. rewrite E. lia.
  - apply Byte.of_N_None_iff in E. lia.
Qed.

(** ** Big-endian integers *)

Fixpoint be_decode_from (acc : Z) (bs : bytes) : Z :=
  match bs with
  | [] => acc
  | b :: rest => be_decode_from (acc * 256 + bval b) rest
  end.
Definition be_decode : bytes → Z := be_decode_from 0.

Fixpoint be_encode (n : nat) (z : Z) : bytes :=
  match n with
  | O => []
  | S n' => byte_of_Z (z / 256 ^ Z.of_nat n') :: be_encode n' z
  end.

(** [binary.BigEndian.PutUint32] / [Uint32]: the conversion [uint32(n)] wraps. *)
Definition put_uint32 (n : Z) : bytes := be_encode 4 (n mod 2 ^ 32).
Definition uint32_of (bs : bytes) : Z := be_decode bs.

Lemma be_decode_from_nonneg bs acc : 0 ≤ acc → 0 ≤ be_decode_from acc bs.
Proof.
  revert acc. induction bs as [|b bs IH]; intros acc Hacc; cbn [be_decode_from]; [done|].
  apply IH. pose proof (bval_range b). lia.
Qed.

Lemma uint32_of_nonneg bs : 0 ≤ uint32_of bs.
Proof. by apply be_decode_from_nonneg. Qed.

Lemma be_encode_length n z : length (be_encode n z) = n.
Proof. induction n; cbn; auto. Qed.

Lemma be_decode_from_encode n acc z :
  0 ≤ z →
  be_decode_from acc (be_encode n z) = acc * 256 ^ Z.of_nat n + z mod 256 ^ Z.of_nat n.
Proof.
  intros Hz. revert acc. induction n as [|n IH]; intros acc.
  - cbn. rewrite Z.mod_1_r. lia.
  - cbn [be_encode be_decode_from]. rewrite IH, bval_byte_of_Z.
    rewrite Nat2Z.inj_succ, Z.pow_succ_r by lia.
    pose proof (Z.pow_pos_nonneg 256 (Z.of_nat n) ltac:(lia) ltac:(lia)) as Hp.
    rewrite (Z.mul_comm 256 (256 ^ _)), Z.rem_mul_r by lia. lia.
Qed.

Lemma be_roundtrip n z :
  0 ≤ z < 256 ^ Z.of_nat n → be_decode (be_encode n z) = z.
Proof.
  intros Hz. unfold be_decode. rewrite be_decode_from_encode by lia.
  rewrite Z.mod_small by done. lia.
Qed.

Lemma uint32_roundtrip n : 0 ≤ n ≤ max_uint32 → uint32_of (put_uint32 n) = n.
Proof.
  unfold max_uint32. intros Hn. unfold uint32_of, put_uint32.
  rewrite Z.mod_small by lia. apply be_roundtrip. cbn. lia.
Qed.

(** ** [base64.RawURLEncoding]

    The alphabet is [A-Za-z0-9-_], without padding.  The decoder skips CR and
    LF anywhere, rejects every other character outside the alphabet and a
    final quantum of one character, and ignores the unused low bits of the
    last character (the encoding is not [Strict]). *)

Definition b64_char (n : Z) : ascii :=
  ascii_of_N (Z.to_N (
    if n <? 26 then 65 + n
    else if n <? 52 then 71 + n
    else if n <? 62 then n - 4
    else if n =? 62 then 45 else 95)).

Definition b64_value (c : ascii) : option Z :=
  let n := code c in
  if (65 <=? n) && (n <=? 90) then Some (n - 65)
  else if (97 <=? n) && (n <=? 122) then Some (n - 71)
  else if (48 <=? n) && (n <=? 57) then Some (n + 4)
  else if n =? 45 then Some 62
  else if n =? 95 then Some 63
  else None.

Fixpoint b64_encode (bs : bytes) : string :=
  match bs with
  | [] => ""
  | [a] => String (b64_char (bval a / 4)) (String (b64_char (bval a mod 4 * 16)) "")
  | [a; b] =>
      String (b64_char (bval a / 4))
        (String (b64_char (bval a mod 4 * 16 + bval b / 16))
           (String (b64_char (bval b mod 16 * 4)) ""))
  | a :: b :: c :: rest =>
      String (b64_char (bval a / 4))
        (String (b64_char (bval a mod 4 * 16 + bval b / 16))
           (String (b64_char (bval b mod 16 * 4 + bval c / 64))
              (String (b64_char (bval c mod 64)) (b64_encode rest))))
  end.

(** The six-bit values of the characters that are not line breaks. *)
Fixpoint b64_values (s : string) : option (list Z) :=
  match s with
  | EmptyString => Some []
  | String c rest =>
      if (code c =? 10) || (code c =? 13) then b64_values rest
      else match b64_value c, b64_values rest with
           | Some v, Some vs => Some (v :: vs)
           | _, _ => None
           end
  end.

Fixpoint b64_join (vs : list Z) : option bytes :=
  match vs with
  | [] => Some []
  | [_] => None
  | [v1; v2] => Some [byte_of_Z (v1 * 4 + v2 / 16)]
  | [v1; v2; v3] => Some [byte_of_Z (v1 * 4 + v2 / 16); byte_of_Z (v2 mod 16 * 16 + v3 / 4)]
  | v1 :: v2 :: v3 :: v4 :: rest =>
      match b64_join rest with
      | Some bs => Some (byte_of_Z (v1 * 4 + v2 / 16) :: byte_of_Z (v2 mod 16 * 16 + v3 / 4)
                           :: byte_of_Z (v3 mod 4 * 64 + v4) :: bs)
      | None => None
      end
  end.

Definition b64_decode (s : string) : option bytes :=
  match b64_values s with Some vs => b64_join vs | None => None end.

Lemma b64_char_spec n :
  0 ≤ n < 64 →
  b64_value (b64_char n) = Some n ∧
  (code (b64_char n) =? 10) || (code (b64_char n) =? 13) = false.
Proof.
  intros Hn.
  assert (Hall : forallb (λ k, bool_decide (b64_value (b64_char (Z.of_nat k)) = Some (Z.of_nat k)) &&
       negb ((code (b64_char (Z.of_nat k)) =? 10) || (code (b64_char (Z.of_nat k)) =? 13)))
       (List.seq 0 64) = true) by (vm_compute; reflexivity).
  rewrite forallb_forall in Hall.
  specialize (Hall (Z.to_nat n)). rewrite Z2Nat.id in Hall by lia.
  apply andb_true_iff in Hall as [H1 H2].
  - split; [by apply bool_decide_eq_true in H1 | by apply negb_true_iff in H2].
  - apply in_seq. lia.
Qed.

Lemma b64_values_cons n s vs :
  0 ≤ n < 64 → b64_values s = Some vs →
  b64_values (String (b64_char n) s) = Some (n :: vs).
Proof. intros Hn Hs. destruct (b64_char_spec n Hn) as [Hv Hc]. cbn. by rewrite Hc, Hv, Hs. Qed.

(** The six-bit groups of a byte string, as the encoder emits them. *)
Fixpoint b64_groups (bs : bytes) : list Z :=
  match bs with
  | [] => []
  | [a] => [bval a / 4; bval a mod 4 * 16]
  | [a; b] => [bval a / 4; bval a mod 4 * 16 + bval b / 16; bval b mod 16 * 4]
  | a :: b :: c :: rest =>
      bval a / 4 :: bval a mod 4 * 16 + bval b / 16 :: bval b mod 16 * 4 + bval c / 64
        :: bval c mod 64 :: b64_groups rest
  end.

Lemma bytes_ind3 (P : bytes → Prop) :
  P [] → (∀ a, P [a]) → (∀ a b, P [a; b]) →
  (∀ a b c rest, P rest → P (a :: b :: c :: rest)) → ∀ bs, P bs.
Proof.
  intros H0 H1 H2 H3 bs.
  assert (Hn : ∀ n bs, (length bs ≤ n)%nat → P bs); [|by apply (Hn (length bs))].
  clear bs. intros n. induction n as [|n IH]; intros [|a [|b [|c rest]]] Hl; auto; cbn in Hl; try lia.
  apply H3, IH. lia.
Qed.

Ltac byte_ranges :=
  repeat match goal with
  | b : byte |- _ =>
      lazymatch goal with
      | _ : 0 ≤ bval b < 256 |- _ => fail
      | _ => pose proof (bval_range b)
      end
  end.

Lemma b64_values_encode bs : b64_values (b64_encode bs) = Some (b64_groups bs).
Proof.
  induction bs as [|a|a b|a b c rest IH] using bytes_ind3; cbn [b64_encode b64_groups];
    byte_ranges; repeat (apply b64_values_cons; [Z.to_euclidean_division_equations; lia|]); done.
Qed.

Lemma byte_of_Z_eq z b : z = bval b → byte_of_Z z = b.
Proof. intros ->. apply byte_of_bval. Qed.

Lemma b64_join_groups bs : b64_join (b64_groups bs) = Some bs.
Proof.
  induction bs as [|a|a b|a b c rest IH] using bytes_ind3; cbn [b64_groups b64_join]; [done| | |];
    byte_ranges; rewrite ?IH; repeat f_equal;
    apply byte_of_Z_eq; Z.to_euclidean_division_equations; lia.
Qed.

(** Decoding inverts encoding. *)
Lemma b64_decode_encode bs : b64_decode (b64_encode bs) = Some bs.
Proof. unfold b64_decode. by rewrite b64_values_encode, b64_join_groups. Qed.

Lemma b64_encode_inj bs bs' : b64_encode bs = b64_encode bs' → bs = bs'.
Proof.
  intros H. apply (f_equal b64_decode) in H. rewrite !b64_decode_encode in H. by simplify_eq.
Qed.
