(* ===== verification/GoTime.v ===== *)
(** * Go times: instants, durations and the RFC 3339 text form

    A [time.Time] is the number of nanoseconds since the Unix epoch; a
    [time.Duration] is a number of nanoseconds.  [time.Parse] and
    [Time.Format] are modelled for [time.RFC3339Nano], the only layout the
    modelled components use.  The parser has the leniency of the Go one: a
    one-digit hour, a comma for the decimal point, any number of fractional
    digits (those past the ninth are dropped), and zone offsets of up to 24
    hours and 60 minutes. *)

From S2P Require Import Prelude GoText.
From Stdlib Require Import Ascii.

Open Scope Z_scope.

Abbreviation time := Z (only parsing).
Abbreviation duration := Z (only parsing).

Definition nanosecond : duration := 1.
Definition millisecond : duration := 1000000.
Definition second : duration := 1000000000.
Definition minute : duration := 60 * second.

(** [t.After u], [t.Before u]. *)
Definition after (t u : time) : bool := u <? t.
Definition before (t u : time) : bool := t <? u.

(** [t.Sub u] saturates at the bounds of an [int64]. *)
Definition time_sub (t u : time) : duration :=
  Z.max (- 2 ^ 63) (Z.min max_int64 (t - u)).

(** ** The proleptic Gregorian calendar *)

Definition is_leap (y : Z) : bool :=
  (y mod 4 =? 0) && (negb (y mod 100 =? 0) || (y mod 400 =? 0)).

Definition days_in (m y : Z) : Z :=
  if m =? 2 then (if is_leap y then 29 else 28)
  else if (m =? 4) || (m =? 6) || (m =? 9) || (m =? 11) then 30 else 31.

(** Days from 1970-01-01 to the given date, years counted from March. *)
Definition days_from_civil (y m d : Z) : Z :=
  let y' := if m <=? 2 then y - 1 else y in
  let era := y' / 400 in
  let yoe := y' mod 400 in
  let mp := if m <=? 2 then m + 9 else m - 3 in
  let doy := (153 * mp + 2) / 5 + d - 1 in
  era * 146097 + (yoe * 365 + yoe / 4 - yoe / 100 + doy) - 719468.

Definition civil_from_days (days : Z) : Z * Z * Z :=
  let z := days + 719468 in
  let era := z / 146097 in
  let doe := z mod 146097 in
  let yoe := (doe - doe / 1460 + doe / 36524 - doe / 146096) / 365 in
  let doy := doe - (365 * yoe + yoe / 4 - yoe / 100) in
  let mp := (5 * doy + 2) / 153 in
  let d := doy - (153 * mp + 2) / 5 + 1 in
  let m := if mp <? 10 then mp + 3 else mp - 9 in
  (yoe + era * 400 + (if m <=? 2 then 1 else 0), m, d).

(** ** Decimal digits *)

Definition digit_char (d : Z) : ascii := ascii_of_N (Z.to_N (48 + d)).
Definition digit_value (c : ascii) : option Z :=
  if is_digit c then Some (code c - 48) else None.

(** The last [n] decimal digits of [z], most significant first. *)
Fixpoint digits (n : nat) (z : Z) : list Z :=
  match n with
  | O => []
  | S n' => (z / 10 ^ Z.of_nat n') mod 10 :: digits n' z
  end.

Fixpoint print_digits (ds : list Z) (rest : string) : string :=
  match ds with
  | [] => rest
  | d :: ds' => String (digit_char d) (print_digits ds' rest)
  end.

(** [getnum s true] and its four-digit form: exactly [n] digits. *)
Fixpoint read_digits (n : nat) (acc : Z) (s : string) : option (Z * string) :=
  match n with
  | O => Some (acc, s)
  | S n' =>
      match s with
      | EmptyString => None
      | String c rest =>
          match digit_value c with
          | Some d => read_digits n' (acc * 10 + d) rest
          | None => None
          end
      end
  end.

(** [getnum s false]: one or two digits. *)
Definition read_one_or_two (s : string) : option (Z * string) :=
  match read_digits 2 0 s with
  | Some r => Some r
  | None => read_digits 1 0 s
  end.

(** All the leading digits of a string. *)
Fixpoint read_all_digits (s : string) : list Z * string :=
  match s with
  | EmptyString => ([], "")
  | String c rest =>
      match digit_value c with
      | Some d => let '(ds, r) := read_all_digits rest in (d :: ds, r)
      | None => ([], s)
      end
  end.

(** The value of fractional digits, the first worth [10^(k-1)]. *)
Fixpoint frac_value (k : nat) (ds : list Z) : Z :=
  match k, ds with
  | S k', d :: ds' => d * 10 ^ Z.of_nat k' + frac_value k' ds'
  | _, _ => 0
  end.

Fixpoint strip_zeros (ds : list Z) : list Z :=
  match ds with
  | [] => []
  | d :: ds' =>
      match strip_zeros ds' with
      | [] => if d =? 0 then [] else [d]
      | r => d :: r
      end
  end.

(** ** [time.Parse(time.RFC3339Nano, s)] *)

Definition expect (c : ascii) (s : string) : option string :=
  strip_prefix (String c "") s.

(** The optional fraction: a period or comma followed by a digit. *)
Definition read_frac (s : string) : Z * string :=
  match s with
  | String p rest =>
      if (Ascii.eqb p "." || Ascii.eqb p ",") then
        match read_all_digits rest with
        | ([], _) => (0, s)
        | (ds, r) => (frac_value 9 ds, r)
        end
      else (0, s)
  | EmptyString => (0, s)
  end.

(** The zone: [Z] or a signed [hh:mm]; the result is the offset in seconds. *)
Definition read_zone (s : string) : option (Z * string) :=
  match s with
  | String c rest =>
      if Ascii.eqb c "Z" then Some (0, rest)
      else
        '(hh, s1) ← read_digits 2 0 rest;
        s2 ← expect ":" s1;
        '(mm, s3) ← read_digits 2 0 s2;
        if (24 <? hh) || (60 <? mm) then None
        else if Ascii.eqb c "+" then Some ((hh * 60 + mm) * 60, s3)
        else if Ascii.eqb c "-" then Some (- ((hh * 60 + mm) * 60), s3)
        else None
  | EmptyString => None
  end.

Definition unix_nano (y m d hh mm ss ns offset : Z) : time :=
  (days_from_civil y m d * 86400 + hh * 3600 + mm * 60 + ss - offset) * second + ns.

Definition parse_rfc3339 (s : string) : option time :=
  '(y, s) ← read_digits 4 0 s;
  s ← expect "-" s;
  '(m, s) ← read_digits 2 0 s;
  s ← expect "-" s;
  '(d, s) ← read_digits 2 0 s;
  s ← expect "T" s;
  '(hh, s) ← read_one_or_two s;
  s ← expect ":" s;
  '(mm, s) ← read_digits 2 0 s;
  s ← expect ":" s;
  '(ss, s) ← read_digits 2 0 s;
  let '(ns, s) := read_frac s in
  '(offset, s) ← read_zone s;
  if (1 <=? m) && (m <=? 12) && (1 <=? d) && (d <=? days_in m y) && (hh <? 24) && (mm <? 60)
     && (ss <? 60) && String.eqb s ""
  then Some (unix_nano y m d hh mm ss ns offset) else None.

(** ** [t.UTC().Format(time.RFC3339Nano)]

    Four digits of the year; the node formats only instants of the years
    0 to 9999. *)
Definition print_frac (ns : Z) (rest : string) : string :=
  match strip_zeros (digits 9 ns) with
  | [] => rest
  | ds => String "." (print_digits ds rest)
  end.

Definition format_rfc3339 (t : time) : string :=
  let secs := t / second in
  let ns := t mod second in
  let '(y, m, d) := civil_from_days (secs / 86400) in
  let sod := secs mod 86400 in
  print_digits (digits 4 y) (String "-" (print_digits (digits 2 m) (String "-"
    (print_digits (digits 2 d) (String "T" (print_digits (digits 2 (sod / 3600)) (String ":"
      (print_digits (digits 2 (sod mod 3600 / 60)) (String ":"
        (print_digits (digits 2 (sod mod 60)) (print_frac ns "Z"))))))))))).

(** The instants whose year has four digits. *)
Definition in_four_digit_years (t : time) : Prop :=
  days_from_civil 0 1 1 * 86400 * second ≤ t < days_from_civil 10000 1 1 * 86400 * second.

(** ** Printing and parsing are inverse *)

Lemma year_of_era_bounds doe yoe doy :
  0 ≤ doe < 146097 →
  yoe = (doe - doe / 1460 + doe / 36524 - doe / 146096) / 365 →
  doy = doe - (365 * yoe + yoe / 4 - yoe / 100) →
  0 ≤ yoe ≤ 399 ∧ 0 ≤ doy ≤ 365.
Proof.
  intros H1 H2 H3.
  assert (0 ≤ yoe ≤ 399) by (Z.to_euclidean_division_equations; lia).
  split; [done|]. Z.to_euclidean_division_equations; lia.
Qed.

(** The 366th day of a March-based year exists only before a leap day. *)
Lemma last_day_leap doe yoe era :
  0 ≤ doe < 146097 →
  yoe = (doe - doe / 1460 + doe / 36524 - doe / 146096) / 365 →
  doe - (365 * yoe + yoe / 4 - yoe / 100) = 365 →
  is_leap (yoe + era * 400 + 1) = true.
Proof.
  intros H1 H2 H3. unfold is_leap.
  rewrite andb_true_iff, orb_true_iff, negb_true_iff, !Z.eqb_eq, Z.eqb_neq.
  assert (0 ≤ yoe ≤ 399) by (Z.to_euclidean_division_equations; lia).
  assert (Hm : (yoe + 1) mod 4 = 0 ∧ ((yoe + 1) mod 100 ≠ 0 ∨ yoe = 399))
    by (Z.to_euclidean_division_equations; lia).
  destruct Hm as [Hm4 Hm]. split; [Z.to_euclidean_division_equations; lia|].
  destruct Hm as [Hm| ->]; [left | right]; Z.to_euclidean_division_equations; lia.
Qed.

Lemma civil_roundtrip days y m d :
  civil_from_days days = (y, m, d) →
  days_from_civil y m d = days ∧ 1 ≤ m ≤ 12 ∧ 1 ≤ d ≤ days_in m y.
Proof.
  unfold civil_from_days.
  set (z := days + 719468). set (era := z / 146097). set (doe := z mod 146097).
  set (yoe := (doe - doe / 1460 + doe / 36524 - doe / 146096) / 365).
  set (doy := doe - (365 * yoe + yoe / 4 - yoe / 100)).
  set (mp := (5 * doy + 2) / 153).
  assert (Hdoe : 0 ≤ doe < 146097) by (apply Z.mod_pos_bound; lia).
  destruct (year_of_era_bounds doe yoe doy Hdoe eq_refl eq_refl) as [Hyoe Hdoy].
  assert (Hmp : 0 ≤ mp ≤ 11) by (unfold mp; Z.to_euclidean_division_equations; lia).
  assert (Hd : (153 * mp + 2) / 5 ≤ doy) by (unfold mp; Z.to_euclidean_division_equations; lia).
  assert (Hdef : 153 * mp ≤ 5 * doy + 2 < 153 * mp + 153)
    by (unfold mp; Z.to_euclidean_division_equations; lia).
  clearbody mp.
  assert (Hz : z = era * 146097 + doe) by (unfold era, doe; Z.to_euclidean_division_equations; lia).
  assert (Hleap : doy = 365 → is_leap (yoe + era * 400 + 1) = true)
    by (intros; by apply (last_day_leap doe)).
  intros [= <- <- <-].
  assert (Hm : ((if mp <? 10 then mp + 3 else mp - 9) <=? 2) = negb (mp <? 10))
    by (destruct (Z.ltb_spec mp 10); lia).
  rewrite Hm. destruct (Z.ltb_spec mp 10) as [Hlt|Hge]; cbn [negb].
  - split_and!; try lia.
    + unfold days_from_civil. replace (mp + 3 <=? 2) with false by lia.
      replace (yoe + era * 400 + 0) with (yoe + era * 400) by lia.
      rewrite Z.div_add, Z.mod_add, Z.div_small, Z.mod_small by lia.
      replace (mp + 3 - 3) with mp by lia. lia.
    + unfold days_in. replace (mp + 3 =? 2) with false by lia.
      assert (Hcases : mp = 0 ∨ mp = 1 ∨ mp = 2 ∨ mp = 3 ∨ mp = 4 ∨ mp = 5 ∨ mp = 6 ∨ mp = 7 ∨
                mp = 8 ∨ mp = 9) by lia.
      destruct_or! Hcases; subst mp; repeat case_match;
        Z.to_euclidean_division_equations; lia.
  - split_and!; try lia.
    + unfold days_from_civil. replace (mp - 9 <=? 2) with true by lia.
      replace (yoe + era * 400 + 1 - 1) with (yoe + era * 400) by lia.
      rewrite Z.div_add, Z.mod_add, Z.div_small, Z.mod_small by lia.
      replace (mp - 9 + 9) with mp by lia. lia.
    + unfold days_in. assert (Hcases : mp = 10 ∨ mp = 11) by lia.
      destruct Hcases as [->| ->].
      * change ((153 * 10 + 2) / 5) with 306. repeat case_match; lia.
      * change ((153 * 11 + 2) / 5) with 337. change (11 - 9 =? 2) with true.
        destruct (decide (doy = 365)) as [He|]; [rewrite (Hleap He); lia|].
        destruct (is_leap _); lia.
Qed.

Lemma digit_value_char d : 0 ≤ d < 10 → digit_value (digit_char d) = Some d.
Proof.
  intros Hd.
  assert (Hcases : d = 0 ∨ d = 1 ∨ d = 2 ∨ d = 3 ∨ d = 4 ∨ d = 5 ∨ d = 6 ∨ d = 7 ∨ d = 8 ∨ d = 9)
    by lia.
  by destruct_or! Hcases; subst d.
Qed.

Lemma digits_range n z : Forall (λ d, 0 ≤ d < 10) (digits n z).
Proof. induction n; cbn; constructor; auto using Z.mod_pos_bound with lia. Qed.

Lemma digits_step n z acc :
  acc * 10 ^ Z.of_nat (S n) + z mod 10 ^ Z.of_nat (S n) =
  (acc * 10 + (z / 10 ^ Z.of_nat n) mod 10) * 10 ^ Z.of_nat n + z mod 10 ^ Z.of_nat n.
Proof.
  rewrite Nat2Z.inj_succ, Z.pow_succ_r by lia.
  pose proof (Z.pow_pos_nonneg 10 (Z.of_nat n) ltac:(lia) ltac:(lia)).
  rewrite (Z.mul_comm 10 (10 ^ _)), Z.rem_mul_r by lia. lia.
Qed.

Lemma read_print_digits n z acc rest :
  read_digits n acc (print_digits (digits n z) rest) =
  Some (acc * 10 ^ Z.of_nat n + z mod 10 ^ Z.of_nat n, rest).
Proof.
  revert acc. induction n as [|n IH]; intros acc.
  - cbn. rewrite Z.mod_1_r. repeat f_equal. lia.
  - cbn [digits print_digits read_digits].
    rewrite digit_value_char by (apply Z.mod_pos_bound; lia). by rewrite IH, <- digits_step.
Qed.

Lemma read_print_small n z rest :
  0 ≤ z < 10 ^ Z.of_nat n →
  read_digits n 0 (print_digits (digits n z) rest) = Some (z, rest).
Proof. intros Hz. rewrite read_print_digits, Z.mod_small by done. done. Qed.

Lemma frac_value_digits k z : frac_value k (digits k z) = z mod 10 ^ Z.of_nat k.
Proof.
  induction k as [|k IH]; cbn [digits frac_value]; [by rewrite Z.mod_1_r|].
  pose proof (digits_step k z 0). lia.
Qed.

Lemma frac_value_strip k ds : frac_value k (strip_zeros ds) = frac_value k ds.
Proof.
  revert k. induction ds as [|d ds IH]; intros k; [done|]. cbn [strip_zeros].
  destruct k as [|k]; [by repeat case_match|]. cbn [frac_value]. rewrite <- IH.
  destruct (strip_zeros ds) as [|e es]; [|done].
  destruct (Z.eqb_spec d 0) as [->|_]; by destruct k.
Qed.

Lemma strip_zeros_range ds :
  Forall (λ d, 0 ≤ d < 10) ds → Forall (λ d, 0 ≤ d < 10) (strip_zeros ds).
Proof.
  induction 1 as [|d ds Hd Hds IH]; cbn; [constructor|].
  destruct (strip_zeros ds); [case_match|]; auto.
Qed.

Lemma read_all_print ds rest :
  Forall (λ d, 0 ≤ d < 10) ds →
  (∀ c r, rest = String c r → digit_value c = None) →
  read_all_digits (print_digits ds rest) = (ds, rest).
Proof.
  intros Hds Hrest. induction Hds as [|d ds Hd Hds IH]; cbn [print_digits].
  - destruct rest as [|c r]; [done|]. cbn. by rewrite (Hrest c r eq_refl).
  - cbn [read_all_digits]. by rewrite digit_value_char, IH by done.
Qed.

Lemma read_print_frac ns :
  0 ≤ ns < second → read_frac (print_frac ns "Z") = (ns, "Z").
Proof.
  intros Hns. unfold print_frac.
  assert (Hv : frac_value 9 (strip_zeros (digits 9 ns)) = ns).
  { rewrite frac_value_strip, frac_value_digits. apply Z.mod_small, Hns. }
  pose proof (strip_zeros_range _ (digits_range 9 ns)) as Hr.
  destruct (strip_zeros (digits 9 ns)) as [|d ds] eqn:E.
  - cbn in Hv. by rewrite <- Hv.
  - unfold read_frac. cbn [Ascii.eqb]. rewrite read_all_print; [|done|by intros c r [= <- <-]].
    cbn -[frac_value]. by rewrite Hv.
Qed.

(** A formatted instant parses back to itself. *)
Lemma parse_format_rfc3339 t :
  in_four_digit_years t → parse_rfc3339 (format_rfc3339 t) = Some t.
Proof.
  unfold in_four_digit_years. intros Ht. unfold format_rfc3339.
  set (secs := t / second). set (ns := t mod second). set (days := secs / 86400).
  assert (Hns : 0 ≤ ns < second) by (apply Z.mod_pos_bound; done).
  assert (Ht' : t = secs * second + ns)
    by (unfold secs, ns, second; Z.to_euclidean_division_equations; lia).
  assert (Hs : secs = days * 86400 + secs mod 86400)
    by (unfold days; Z.to_euclidean_division_equations; lia).
  set (sod := secs mod 86400) in *.
  assert (Hsod : 0 ≤ sod < 86400) by (apply Z.mod_pos_bound; lia).
  destruct (civil_from_days days) as [[y m] d] eqn:Hciv.
  destruct (civil_roundtrip _ _ _ _ Hciv) as (Hdays & Hm & Hd).
  assert (Hy : 0 ≤ y < 10000).
  { assert (Hb : days_from_civil 0 1 1 ≤ days < days_from_civil 10000 1 1).
    { change (days_from_civil 0 1 1) with (-719528) in *.
      change (days_from_civil 10000 1 1) with 2932897 in *. unfold second in *. lia. }
    clear -Hb Hciv. unfold civil_from_days in Hciv. change (days_from_civil 0 1 1) with (-719528) in Hb.
    change (days_from_civil 10000 1 1) with 2932897 in Hb.
    injection Hciv as Hy Hm _. rewrite <- Hy. clear Hy.
    case_match; case_match; Z.to_euclidean_division_equations; lia. }
  assert (Hdi : days_in m y ≤ 31) by (unfold days_in; repeat case_match; lia).
  unfold parse_rfc3339, read_one_or_two. rewrite read_print_small by (cbn; lia). cbn [mbind option_bind].
  unfold expect.
  repeat (rewrite (proj2 (strip_prefix_Some _ _ _)) by reflexivity; cbn [mbind option_bind];
          rewrite read_print_small by (cbn; Z.to_euclidean_division_equations; lia);
          cbn [mbind option_bind]).
  rewrite read_print_frac by done. cbn [read_zone Ascii.eqb mbind option_bind Bool.eqb].
  match goal with |- (if ?b then _ else _) = _ => replace b with true end.
  - unfold unix_nano. rewrite Hdays. f_equal. unfold second in *.
    Z.to_euclidean_division_equations; lia.
  - symmetry. rewrite !andb_true_iff, !Z.leb_le, !Z.ltb_lt.
    split_and!; try done; Z.to_euclidean_division_equations; lia.
Qed.

(** ** [Time.UnmarshalJSON]

    The decoder accepts what [time.Parse] accepts, less three shapes that RFC
    3339 forbids: a one-digit hour, a comma before the fraction, and a zone
    out of range. *)
Definition char_at (n : nat) (s : string) : option ascii := String.get n s.

Fixpoint last_char (s : string) : option ascii :=
  match s with
  | "" => None
  | String c "" => Some c
  | String _ rest => last_char rest
  end.

Definition two_digits (s : string) (at_ : nat) : Z :=
  match char_at at_ s, char_at (S at_) s with
  | Some a, Some b => 10 * (code a - 48) + (code b - 48)
  | _, _ => 0
  end.

Definition strict_shape (s : string) : bool :=
  let n := String.length s in
  negb (bool_decide (char_at 12 s = Some ":"%char)) &&
  negb (bool_decide (char_at 19 s = Some ","%char)) &&
  (bool_decide (last_char s = Some "Z"%char) ||
   ((two_digits s (n - 5) <? 24) && (two_digits s (n - 2) <? 60))).

Definition parse_strict_rfc3339 (s : string) : option time :=
  t ← parse_rfc3339 s; if strict_shape s then Some t else None.

Lemma last_char_cons c s : s ≠ "" → last_char (String c s) = last_char s.
Proof. by destruct s. Qed.

Lemma print_digits_nonempty ds rest : rest ≠ "" → print_digits ds rest ≠ "".
Proof. by destruct ds. Qed.

Lemma last_print_digits ds rest : rest ≠ "" → last_char (print_digits ds rest) = last_char rest.
Proof.
  intros Hr. induction ds as [|d ds IH]; [done|]. cbn [print_digits].
  rewrite last_char_cons by (by apply print_digits_nonempty). done.
Qed.

Lemma last_print_frac ns : last_char (print_frac ns "Z") = Some "Z"%char.
Proof.
  unfold print_frac. destruct (strip_zeros (digits 9 ns)) as [|d ds]; [done|].
  rewrite last_char_cons by (by apply print_digits_nonempty). by rewrite last_print_digits.
Qed.

Lemma digit_char_not_colon d : 0 ≤ d < 10 → digit_char d ≠ ":"%char.
Proof. intros Hd Heq. pose proof (digit_value_char d Hd) as H. by rewrite Heq in H. Qed.

Lemma parse_strict_format t :
  in_four_digit_years t → parse_strict_rfc3339 (format_rfc3339 t) = Some t.
Proof.
  intros Ht. unfold parse_strict_rfc3339. rewrite parse_format_rfc3339 by done. cbn [mbind option_bind].
  enough (char_at 12 (format_rfc3339 t) ≠ Some ":"%char ∧
          char_at 19 (format_rfc3339 t) ≠ Some ","%char ∧
          last_char (format_rfc3339 t) = Some "Z"%char) as (H12 & H19 & Hlast).
  { unfold strict_shape. by rewrite (bool_decide_eq_false_2 _ H12), (bool_decide_eq_false_2 _ H19),
      (bool_decide_eq_true_2 _ Hlast). }
  unfold format_rfc3339. destruct (civil_from_days _) as [[y m] d].
  set (sod := t / second mod 86400).
  assert (Hsod : 0 ≤ sod < 86400) by (apply Z.mod_pos_bound; lia).
  cbn [digits print_digits]. split_and!.
  - cbn [char_at String.get]. intros Heq. injection Heq.
    apply digit_char_not_colon. apply Z.mod_pos_bound. lia.
  - cbn [char_at String.get]. unfold print_frac. by destruct (strip_zeros _).
  - pose proof (last_print_frac (t mod second)) as Hl.
    assert (Hne : print_frac (t mod second) "Z" ≠ "") by (intros Hn; by rewrite Hn in Hl).
    repeat (rewrite last_char_cons by done). done.
Qed.
