(* ===== verification/GoJson.v ===== *)
(** * The encoding/json behaviour the node relies on

    A JSON text is a byte string.  [parse_json] accepts exactly one value
    surrounded by white space, as a decoder followed by an end-of-file check
    does; object fields keep their order, their duplicates and the raw text of
    their values ([json.RawMessage]).  Struct decoding follows the Go rules:
    an exact field name wins over a case-insensitive one, [null] leaves a field
    as it is, the last of several matching members wins, and an integer field
    takes only an integer literal in its range. *)

From S2P Require Import Prelude GoText GoTime.
From Stdlib.Strings Require Import Ascii.

(** ** UTF-8 *)

(** The number of bytes of the valid UTF-8 sequence at the head of a byte
    sequence, [0] when there is none ([utf8.DecodeRune] then yields the
    replacement character with size one). *)
Definition in_Z (lo hi z : Z) : bool := (lo <=? z) && (z <=? hi).
Definition is_cont : Z → bool := in_Z 128 191.

Definition utf8_size (bs : list Z) : nat :=
  match bs with
  | [] => 0%nat
  | a :: rest =>
      if in_Z 0 127 a then 1%nat
      else match rest with
      | b :: rest =>
          if in_Z 194 223 a then (if is_cont b then 2%nat else 0%nat)
          else match rest with
          | c :: rest =>
              if in_Z 224 239 a then
                if in_Z (if a =? 224 then 160 else 128) (if a =? 237 then 159 else 191) b
                   && is_cont c
                then 3%nat else 0%nat
              else match rest with
              | d :: _ =>
                  if in_Z 240 244 a
                     && in_Z (if a =? 240 then 144 else 128) (if a =? 244 then 143 else 191) b
                     && is_cont c && is_cont d
                  then 4%nat else 0%nat
              | [] => 0%nat
              end
          | [] => 0%nat
          end
      | [] => 0%nat
      end
  end.

Fixpoint head_codes (n : nat) (s : string) : list Z :=
  match n, s with
  | S n', String c rest => code c :: head_codes n' rest
  | _, _ => []
  end.

Definition chr (z : Z) : ascii := ascii_of_N (Z.to_N z).
Definition replacement : string := String (chr 239) (String (chr 191) (String (chr 189) "")).

(** Replaces every invalid byte by U+FFFD; [skip] counts the bytes of the
    current sequence that are still to be copied. *)
Fixpoint sanitize (skip : nat) (s : string) : string :=
  match s with
  | "" => ""
  | String c rest =>
      match skip with
      | S skip' => String c (sanitize skip' rest)
      | O => match utf8_size (head_codes 4 s) with
             | O => replacement +:+ sanitize 0 rest
             | S more => String c (sanitize more rest)
             end
      end
  end.

(** The UTF-8 encoding of a code point. *)
Definition rune_bytes (r : Z) : string :=
  if r <? 128 then String (chr r) ""
  else if r <? 2048 then String (chr (192 + r / 64)) (String (chr (128 + r mod 64)) "")
  else if r <? 65536 then
    String (chr (224 + r / 4096))
      (String (chr (128 + r / 64 mod 64)) (String (chr (128 + r mod 64)) ""))
  else
    String (chr (240 + r / 262144))
      (String (chr (128 + r / 4096 mod 64))
         (String (chr (128 + r / 64 mod 64)) (String (chr (128 + r mod 64)) ""))).

(** ** Syntax *)
Inductive json :=
  | JNull
  | JBool (b : bool)
  | JNum (literal : string)
  | JStr (s : string)
  | JArr (items : list json)
  | JObj (fields : list (string * string * json)).

Definition is_ws (c : ascii) : bool :=
  (code c =? 32) || (code c =? 9) || (code c =? 10) || (code c =? 13).

Fixpoint skip_ws (s : string) : string :=
  match s with
  | String c rest => if is_ws c then skip_ws rest else s
  | "" => ""
  end.

Definition hex_value (c : ascii) : option Z :=
  if is_digit c then Some (code c - 48)
  else if in_range "a" "f" c then Some (code c - 87)
  else if in_range "A" "F" c then Some (code c - 55)
  else None.

Definition hex4 (a b c d : ascii) : option Z :=
  match hex_value a, hex_value b, hex_value c, hex_value d with
  | Some w, Some x, Some y, Some z => Some (w * 4096 + x * 256 + y * 16 + z)
  | _, _, _, _ => None
  end.

Definition simple_escape (c : ascii) : option ascii :=
  if has_char "\/" c || (code c =? 34) then Some c
  else if Ascii.eqb c "b" then Some (chr 8)
  else if Ascii.eqb c "f" then Some (chr 12)
  else if Ascii.eqb c "n" then Some (chr 10)
  else if Ascii.eqb c "r" then Some (chr 13)
  else if Ascii.eqb c "t" then Some (chr 9)
  else None.

(** A low surrogate escape at the head of the text completes [high]. *)
Definition low_surrogate (s : string) : option (Z * string) :=
  match s with
  | String e (String u (String a (String b (String c (String d rest))))) =>
      if Ascii.eqb e "\" && Ascii.eqb u "u" then
        match hex4 a b c d with
        | Some low => if in_Z 56320 57343 low then Some (low, rest) else None
        | None => None
        end
      else None
  | _ => None
  end.

Definition cons_text (p : string) (r : option (string * string)) : option (string * string) :=
  match r with Some (s, rest) => Some (p +:+ s, rest) | None => None end.

(** The text after the opening quote up to the closing one, escapes decoded. *)
Fixpoint string_body (fuel : nat) (s : string) : option (string * string) :=
  match fuel with
  | O => None
  | S fuel' =>
      match s with
      | "" => None
      | String c rest =>
          if code c =? 34 then Some ("", rest)
          else if code c <? 32 then None
          else if Ascii.eqb c "\" then
            match rest with
            | "" => None
            | String e rest' =>
                if Ascii.eqb e "u" then
                  match rest' with
                  | String a (String b (String c' (String d rest''))) =>
                      match hex4 a b c' d with
                      | None => None
                      | Some r =>
                          if in_Z 55296 56319 r then
                            match low_surrogate rest'' with
                            | Some (low, after) =>
                                cons_text
                                  (rune_bytes (65536 + (r - 55296) * 1024 + (low - 56320)))
                                  (string_body fuel' after)
                            | None => cons_text replacement (string_body fuel' rest'')
                            end
                          else if in_Z 56320 57343 r then
                            cons_text replacement (string_body fuel' rest'')
                          else cons_text (rune_bytes r) (string_body fuel' rest'')
                      end
                  | _ => None
                  end
                else match simple_escape e with
                     | Some x => cons_text (String x "") (string_body fuel' rest')
                     | None => None
                     end
            end
          else cons_text (String c "") (string_body fuel' rest)
      end
  end.

Definition json_string (s : string) : option (string * string) :=
  match string_body (S (String.length s)) s with
  | Some (text, rest) => Some (sanitize 0 text, rest)
  | None => None
  end.

(** The digits at the head of a text. *)
Fixpoint span_digits (s : string) : string * string :=
  match s with
  | String c rest =>
      if is_digit c then let '(ds, r) := span_digits rest in (String c ds, r) else ("", s)
  | "" => ("", "")
  end.

Definition number_int (s : string) : option (string * string) :=
  match span_digits s with
  | ("", _) => None
  | (String d ds, rest) =>
      if Ascii.eqb d "0" then
        match s with String _ after => Some ("0", after) | "" => None end
      else Some (String d ds, rest)
  end.

Definition number_frac (s : string) : option (string * string) :=
  match s with
  | String "." rest =>
      match span_digits rest with
      | ("", _) => None
      | (ds, rest') => Some (String "." ds, rest')
      end
  | _ => Some ("", s)
  end.

Definition number_exp (s : string) : option (string * string) :=
  match s with
  | String e rest =>
      if has_char "eE" e then
        let '(sign, rest) :=
          match rest with
          | String c r => if has_char "+-" c then (String c "", r) else ("", rest)
          | "" => ("", "")
          end in
        match span_digits rest with
        | ("", _) => None
        | (ds, rest') => Some (String e (sign +:+ ds), rest')
        end
      else Some ("", s)
  | "" => Some ("", "")
  end.

Definition number_sign (s : string) : string * string :=
  match s with String "-" r => ("-", r) | _ => ("", s) end.

Definition json_number (s : string) : option (string * string) :=
  let '(sign, body) := number_sign s in
  '(i, r1) ← number_int body;
  '(f, r2) ← number_frac r1;
  '(e, r3) ← number_exp r2;
  Some (sign +:+ i +:+ f +:+ e, r3).

Definition consumed (s rest : string) : string :=
  String.substring 0 (String.length s - String.length rest) s.

(** [depth] is the nesting Go still allows; a composite value at depth zero
    is the "exceeded max depth" error. *)
Fixpoint json_value (fuel : nat) (depth : nat) (s : string) : option (json * string) :=
  match fuel with
  | O => None
  | S fuel' =>
      match skip_ws s with
      | "" => None
      | String c rest =>
          if Ascii.eqb c "{" then
            match depth with
            | O => None
            | S depth' =>
                match skip_ws rest with
                | String "}" rest' => Some (JObj [], rest')
                | _ => '(fields, rest') ← json_fields fuel' depth' rest; Some (JObj fields, rest')
                end
            end
          else if Ascii.eqb c "[" then
            match depth with
            | O => None
            | S depth' =>
                match skip_ws rest with
                | String "]" rest' => Some (JArr [], rest')
                | _ => '(items, rest') ← json_items fuel' depth' rest; Some (JArr items, rest')
                end
            end
          else if code c =? 34 then
            '(text, rest') ← json_string rest; Some (JStr text, rest')
          else if is_digit c || Ascii.eqb c "-" then
            '(literal, rest') ← json_number (String c rest); Some (JNum literal, rest')
          else match strip_prefix "true" (String c rest) with
          | Some rest' => Some (JBool true, rest')
          | None =>
              match strip_prefix "false" (String c rest) with
              | Some rest' => Some (JBool false, rest')
              | None =>
                  match strip_prefix "null" (String c rest) with
                  | Some rest' => Some (JNull, rest')
                  | None => None
                  end
              end
          end
      end
  end
with json_fields (fuel : nat) (depth : nat) (s : string)
    : option (list (string * string * json) * string) :=
  match fuel with
  | O => None
  | S fuel' =>
      match skip_ws s with
      | String q rest =>
          if negb (code q =? 34) then None else
          '(key, r1) ← json_string rest;
          match skip_ws r1 with
          | String ":" r2 =>
              '(v, r3) ← json_value fuel' depth r2;
              let field := (key, consumed (skip_ws r2) r3, v) in
              match skip_ws r3 with
              | String "," r4 =>
                  '(fields, r5) ← json_fields fuel' depth r4; Some (field :: fields, r5)
              | String "}" r4 => Some ([field], r4)
              | _ => None
              end
          | _ => None
          end
      | "" => None
      end
  end
with json_items (fuel : nat) (depth : nat) (s : string) : option (list json * string) :=
  match fuel with
  | O => None
  | S fuel' =>
      '(v, r1) ← json_value fuel' depth s;
      match skip_ws r1 with
      | String "," r2 => '(items, r3) ← json_items fuel' depth r2; Some (v :: items, r3)
      | String "]" r2 => Some ([v], r2)
      | _ => None
      end
  end.

Definition max_depth : nat := Z.to_nat 10000.

(** One value and nothing but white space after it.  Every recursive call
    consumes a character or descends from a value into its first member, so
    three units of fuel per byte are enough. *)
Definition parse_json (s : string) : option json :=
  match json_value (3 * String.length s + 3) max_depth s with
  | Some (v, rest) => if String.eqb (skip_ws rest) "" then Some v else None
  | None => None
  end.

(** ** Duplicate keys *)
Fixpoint no_duplicate_keys (v : json) : bool :=
  match v with
  | JArr items => forallb no_duplicate_keys items
  | JObj fields =>
      bool_decide (NoDup (map (λ f, f.1.1) fields)) && forallb (λ f, no_duplicate_keys f.2) fields
  | _ => true
  end.

(** ** Struct fields *)

(** [foldName]: ASCII letters fold to upper case, and the two non-ASCII runes
    whose case folding is ASCII (U+017F and U+212A) to S and K. *)
Definition upper (c : ascii) : ascii := if is_lower c then chr (code c - 32) else c.

Fixpoint fold_name (s : string) : string :=
  match s with
  | "" => ""
  | String a rest =>
      if code a =? 197 then
        match rest with
        | String b rest' =>
            if code b =? 191 then String "S" (fold_name rest') else String a (fold_name rest)
        | "" => String a ""
        end
      else if code a =? 226 then
        match rest with
        | String b (String c rest') =>
            if (code b =? 132) && (code c =? 170) then String "K" (fold_name rest')
            else String a (fold_name rest)
        | _ => String a (fold_name rest)
        end
      else String (upper a) (fold_name rest)
  end.

(** The field of a struct (its JSON names in order) that a member decodes into. *)
Definition match_field (names : list string) (key : string) : option string :=
  if bool_decide (key ∈ names) then Some key
  else find (λ name, String.eqb (fold_name name) (fold_name key)) names.

(** Integer literals: no fraction and no exponent; [strconv.ParseInt] and
    [ParseUint] accept the sign rules of the target. *)
Fixpoint digits_value (acc : Z) (s : string) : option Z :=
  match s with
  | "" => Some acc
  | String c rest => if is_digit c then digits_value (10 * acc + (code c - 48)) rest else None
  end.

Definition int_literal (s : string) : option Z :=
  match s with
  | String "-" rest => z ← digits_value 0 rest; Some (- z)
  | _ => digits_value 0 s
  end.

Definition uint64_of_json (current : Z) (v : json) : option Z :=
  match v with
  | JNull => Some current
  | JNum (String "-" _) => None
  | JNum literal => z ← int_literal literal; if z <=? max_uint64 then Some z else None
  | _ => None
  end.

Definition int_of_json (current : Z) (v : json) : option Z :=
  match v with
  | JNull => Some current
  | JNum literal =>
      z ← int_literal literal;
      if (- 2 ^ 63 <=? z) && (z <=? max_int64) then Some z else None
  | _ => None
  end.

Definition string_of_json (current : string) (v : json) : option string :=
  match v with JNull => Some current | JStr s => Some s | _ => None end.

Definition bool_of_json (current : bool) (v : json) : option bool :=
  match v with JNull => Some current | JBool b => Some b | _ => None end.

(** Decodes an object into a struct, one member after the other; [assign]
    stores a member in the field of that name.  Unknown members are an error
    ([DisallowUnknownFields]). *)
Fixpoint assign_fields {R} (names : list string)
    (assign : string → string → json → R → option R)
    (fields : list (string * string * json)) (r : R) : option R :=
  match fields with
  | [] => Some r
  | (key, raw, v) :: rest =>
      name ← match_field names key;
      r' ← assign name raw v r;
      assign_fields names assign rest r'
  end.

Definition struct_of_json {R} (names : list string)
    (assign : string → string → json → R → option R) (zero : R) (v : json) : option R :=
  match v with
  | JNull => Some zero
  | JObj fields => assign_fields names assign fields zero
  | _ => None
  end.

(** A member of a [map[string]json.RawMessage]: the last one with the key. *)
Definition raw_member (v : json) (key : string) : option (string * json) :=
  match v with
  | JObj fields =>
      match find (λ f : string * string * json, String.eqb f.1.1 key) (rev fields) with
      | Some (_, raw, member) => Some (raw, member)
      | None => None
      end
  | _ => None
  end.

(** ** Printing *)
Fixpoint print_nat (fuel : nat) (z : Z) (rest : string) : string :=
  match fuel with
  | O => rest
  | S fuel' =>
      if z <? 10 then String (digit_char z) rest
      else print_nat fuel' (z / 10) (String (digit_char (z mod 10)) rest)
  end.

(** Decimal text of a machine integer: twenty digits hold any 64-bit value. *)
Definition itoa (z : Z) : string :=
  if z <? 0 then "-" +:+ print_nat 20 (- z) "" else print_nat 20 z "".

Definition hex_digit (z : Z) : ascii := if z <? 10 then chr (48 + z) else chr (87 + z).
Definition unicode_escape (r : Z) : string :=
  "\u" +:+ String (hex_digit (r / 4096)) (String (hex_digit (r / 256 mod 16))
    (String (hex_digit (r / 16 mod 16)) (String (hex_digit (r mod 16)) ""))).

(** The escape [json.Marshal] writes for an ASCII character, HTML characters
    included. *)
Definition escape_char (c : ascii) : string :=
  let z := code c in
  if (z =? 34) || (z =? 92) then String "\" (String c "")
  else if z =? 8 then "\b" else if z =? 12 then "\f" else if z =? 10 then "\n"
  else if z =? 13 then "\r" else if z =? 9 then "\t"
  else if (z <? 32) || (z =? 38) || (z =? 60) || (z =? 62) then unicode_escape z
  else String c "".

(** U+2028 and U+2029 are escaped although they are printable. *)
Definition is_line_separator (a b c : ascii) : bool :=
  (code a =? 226) && (code b =? 128) && ((code c =? 168) || (code c =? 169)).

Fixpoint escape_text (skip : nat) (s : string) : string :=
  match s with
  | "" => ""
  | String c rest =>
      match skip with
      | S skip' => String c (escape_text skip' rest)
      | O =>
          match utf8_size (head_codes 4 s) with
          | O => "\ufffd" +:+ escape_text 0 rest
          | S O => escape_char c +:+ escape_text 0 rest
          | S more =>
              match rest with
              | String b (String d rest') =>
                  if is_line_separator c b d
                  then (if code d =? 168 then "\u2028" else "\u2029") +:+ escape_text 0 rest'
                  else String c (escape_text more rest)
              | _ => String c (escape_text more rest)
              end
          end
      end
  end.

Definition quote_char : ascii := chr 34.
Definition quote (s : string) : string :=
  String quote_char (escape_text 0 s +:+ String quote_char "").

(** An object whose members are printed in the given order. *)
Definition print_object (fields : list (string * string)) : string :=
  "{" +:+ join "," (map (λ f, quote f.1 +:+ ":" +:+ f.2) fields) +:+ "}".

(** ** Numbers read back *)
Lemma digit_char_code d : 0 ≤ d < 10 → code (digit_char d) = 48 + d.
Proof.
  intros. assert (d = 0 ∨ d = 1 ∨ d = 2 ∨ d = 3 ∨ d = 4 ∨ d = 5 ∨ d = 6 ∨ d = 7 ∨ d = 8 ∨ d = 9)
    as Hcases by lia.
  by destruct_or! Hcases; subst d.
Qed.

Lemma digit_char_is_digit d : 0 ≤ d < 10 → is_digit (digit_char d) = true.
Proof.
  intros Hd. unfold is_digit, in_range.
  change (code "0") with 48. change (code "9") with 57.
  rewrite digit_char_code by done. apply andb_true_iff. rewrite !Z.leb_le. lia.
Qed.

Lemma digits_value_print fuel z rest :
  0 ≤ z < 10 ^ Z.of_nat fuel →
  digits_value 0 (print_nat fuel z rest) = digits_value z rest.
Proof.
  revert z rest. induction fuel as [|fuel IH]; intros z rest Hz.
  { change (10 ^ Z.of_nat 0) with 1 in Hz. replace z with 0 by lia. done. }
  rewrite Nat2Z.inj_succ, Z.pow_succ_r in Hz by lia.
  cbn [print_nat]. destruct (z <? 10) eqn:E; reflect_bools.
  - cbn [digits_value]. rewrite digit_char_is_digit, digit_char_code by lia. f_equal; lia.
  - pose proof (Z.mod_pos_bound z 10). pose proof (Z.div_mod z 10).
    rewrite IH by lia. cbn [digits_value].
    rewrite digit_char_is_digit, digit_char_code by lia. f_equal; lia.
Qed.

Lemma print_nat_shape fuel z rest :
  0 ≤ z < 10 ^ Z.of_nat fuel → (0 < fuel)%nat → all_chars is_digit rest = true →
  ∃ d ds, print_nat fuel z rest = String d ds ∧ all_chars is_digit (String d ds) = true ∧
    (z ≠ 0 → code d ≠ 48) ∧ (z = 0 → String d ds = String "0" rest).
Proof.
  revert z rest. induction fuel as [|fuel IH]; intros z rest Hz Hf Hrest; [lia|].
  rewrite Nat2Z.inj_succ, Z.pow_succ_r in Hz by lia.
  cbn [print_nat]. destruct (z <? 10) eqn:E; reflect_bools.
  - exists (digit_char z), rest. split_and!; [done| |rewrite digit_char_code; lia|by intros ->].
    cbn [all_chars]. by rewrite digit_char_is_digit, Hrest by lia.
  - pose proof (Z.mod_pos_bound z 10). pose proof (Z.div_mod z 10).
    destruct fuel as [|fuel'].
    { change (10 ^ Z.of_nat 0) with 1 in *. lia. }
    destruct (IH (z / 10) (String (digit_char (z mod 10)) rest)) as (d & ds & -> & Hd & Hnz & _).
    + lia.
    + lia.
    + cbn [all_chars]. by rewrite digit_char_is_digit, Hrest by lia.
    + exists d, ds. split_and!; [done|done| |lia]. intros _. apply Hnz. lia.
Qed.

(** The text of an unsigned integer is an integer literal of that value. *)
Lemma itoa_spec z :
  0 ≤ z ≤ max_uint64 →
  ∃ d ds, itoa z = String d ds ∧ all_chars is_digit (String d ds) = true ∧
    (code d = 48 → ds = "") ∧ digits_value 0 (itoa z) = Some z.
Proof.
  unfold max_uint64. intros Hz. unfold itoa.
  replace (z <? 0) with false by (symmetry; apply Z.ltb_ge; lia).
  assert (0 ≤ z < 10 ^ Z.of_nat 20) by (change (10 ^ Z.of_nat 20) with 100000000000000000000; lia).
  destruct (print_nat_shape 20 z "") as (d & ds & Heq & Hall & Hnz & Hzero); [lia|lia|done|].
  exists d, ds. rewrite digits_value_print by done. split_and!; try done.
  intros Hd. destruct (decide (z = 0)) as [Hz0|Hz0]; [|by destruct (Hnz Hz0)].
  by injection (Hzero Hz0).
Qed.

Lemma itoa_inj y z : 0 ≤ y ≤ max_uint64 → 0 ≤ z ≤ max_uint64 → itoa y = itoa z → y = z.
Proof.
  intros Hy Hz H. destruct (itoa_spec y Hy) as (_ & _ & _ & _ & _ & H1).
  destruct (itoa_spec z Hz) as (_ & _ & _ & _ & _ & H2). rewrite H in H1. congruence.
Qed.

Lemma span_digits_all s rest :
  all_chars is_digit s = true → match rest with String c _ => is_digit c = false | "" => True end →
  span_digits (s +:+ rest) = (s, rest).
Proof.
  intros Hs Hrest. induction s as [|c s IH].
  - change ("" +:+ rest) with rest. destruct rest as [|c r]; [done|]. cbn. by rewrite Hrest.
  - cbn [all_chars] in Hs. apply andb_prop in Hs as [Hc Hs].
    change (String c s +:+ rest) with (String c (s +:+ rest)). cbn [span_digits].
    by rewrite Hc, IH.
Qed.

(** A number literal ends at a character that cannot continue it. *)
Definition ends_number (s : string) : bool :=
  match s with
  | String c _ => negb (is_digit c) && negb (has_char ".eE" c)
  | "" => true
  end.

Lemma json_number_itoa z rest :
  0 ≤ z ≤ max_uint64 → ends_number rest = true →
  json_number (itoa z +:+ rest) = Some (itoa z, rest).
Proof.
  intros Hz Hend. destruct (itoa_spec z Hz) as (d & ds & Heq & Hall & Hzero & _). rewrite Heq.
  assert (Hspan : span_digits (String d ds +:+ rest) = (String d ds, rest)).
  { apply span_digits_all; [done|]. destruct rest as [|c r]; [done|].
    cbn in Hend. apply andb_prop in Hend as [Hend _]. by apply negb_true_iff. }
  assert (Hd : is_digit d = true) by (cbn [all_chars] in Hall; by apply andb_prop in Hall as [? _]).
  assert (Hfrac : number_frac rest = Some ("", rest)).
  { destruct rest as [|c r]; [done|]. cbn in Hend. apply andb_prop in Hend as [_ Hend].
    destruct c as [[] [] [] [] [] [] [] []]; done. }
  assert (Hexp : number_exp rest = Some ("", rest)).
  { destruct rest as [|c r]; [done|]. cbn in Hend. apply andb_prop in Hend as [_ Hend].
    destruct c as [[] [] [] [] [] [] [] []]; done. }
  assert (Hint : number_int (String d ds +:+ rest) = Some (String d ds, rest)).
  { unfold number_int. rewrite Hspan. destruct (Ascii.eqb_spec d "0") as [->|]; [|done].
    by rewrite Hzero by done. }
  unfold json_number. change (String d ds +:+ rest) with (String d (ds +:+ rest)) in *.
  assert (Hsign : number_sign (String d (ds +:+ rest)) = ("", String d (ds +:+ rest)))
    by (destruct d as [[] [] [] [] [] [] [] []]; done).
  rewrite Hsign, Hint. cbn [mbind option_bind]. rewrite Hfrac. cbn [mbind option_bind].
  rewrite Hexp. cbn. f_equal. f_equal.
  change ("" +:+ ?x) with x. change (String d ds +:+ "" +:+ "") with (String d (ds +:+ "")).
  f_equal. clear. induction ds as [|c ds IH]; [done|].
  change (String c ds +:+ "") with (String c (ds +:+ "")). by rewrite IH.
Qed.

(** ** Stepping the parser over a member *)
Lemma json_value_number f dep c s lit rest :
  is_digit c = true → json_number (String c s) = Some (lit, rest) →
  json_value (S f) dep (String c s) = Some (JNum lit, rest).
Proof.
  intros Hc Hn. cbn [json_value].
  assert (skip_ws (String c s) = String c s ∧ Ascii.eqb c "{" = false ∧ Ascii.eqb c "[" = false ∧
          (code c =? 34) = false) as (-> & -> & -> & ->)
    by (destruct c as [[] [] [] [] [] [] [] []]; try discriminate Hc; done).
  rewrite Hc. cbn [orb]. by rewrite Hn.
Qed.

Lemma json_value_object f dep s fields rest :
  skip_ws s = s → (∀ r, s ≠ String "}" r) → json_fields f dep s = Some (fields, rest) →
  json_value (S f) (S dep) (String "{" s) = Some (JObj fields, rest).
Proof.
  intros Hws Hne Hf. cbn [json_value]. 
  change (skip_ws (String "{" s)) with (String "{" s). cbn [Ascii.eqb Bool.eqb]. rewrite Hws.
  destruct s as [|c s']; [|]; [by rewrite Hf|].
  destruct c as [[] [] [] [] [] [] [] []]; try (rewrite Hf; done). by destruct (Hne s').
Qed.

Lemma json_fields_last f dep s key r1 r2 v r3 rest :
  json_string s = Some (key, r1) → skip_ws r1 = String ":" r2 →
  json_value f dep r2 = Some (v, r3) → skip_ws r3 = String "}" rest →
  json_fields (S f) dep (String quote_char s) = Some ([(key, consumed (skip_ws r2) r3, v)], rest).
Proof.
  intros H1 H2 H3 H4. cbn [json_fields].
  change (skip_ws (String quote_char s)) with (String quote_char s). cbn -[json_string skip_ws].
  rewrite H1. cbn -[skip_ws]. rewrite H2, H3. cbn -[skip_ws]. by rewrite H4.
Qed.

Lemma json_fields_more f dep s key r1 r2 v r3 r4 fields rest :
  json_string s = Some (key, r1) → skip_ws r1 = String ":" r2 →
  json_value f dep r2 = Some (v, r3) → skip_ws r3 = String "," r4 →
  json_fields f dep r4 = Some (fields, rest) →
  json_fields (S f) dep (String quote_char s) =
    Some ((key, consumed (skip_ws r2) r3, v) :: fields, rest).
Proof.
  intros H1 H2 H3 H4 H5. cbn [json_fields].
  change (skip_ws (String quote_char s)) with (String quote_char s). cbn -[json_string skip_ws].
  rewrite H1. cbn -[skip_ws]. rewrite H2, H3. cbn -[skip_ws]. rewrite H4, H5. done.
Qed.

(** ** Length of printed text *)
Lemma len_string c s : len (String c s) = 1 + len s.
Proof. unfold len. cbn [String.length]. lia. Qed.

Lemma escape_char_len c : len (escape_char c) ≤ 6.
Proof. by destruct c as [[] [] [] [] [] [] [] []]. Qed.

Lemma escape_text_len skip s : len (escape_text skip s) ≤ 6 * len s.
Proof.
  remember (String.length s) as n eqn:Hn. revert skip s Hn.
  induction n as [n IH] using lt_wf_ind. intros skip [|c rest] ->; [done|].
  assert (Hrest : ∀ k, len (escape_text k rest) ≤ 6 * len rest).
  { intros k. eapply IH; [|done]. cbn [String.length]. lia. }
  pose proof (len_nonneg rest). rewrite (len_string c rest). cbn [escape_text].
  destruct skip as [|skip']; [|rewrite len_string; specialize (Hrest skip'); lia].
  destruct (utf8_size _) as [|[|more]].
  - rewrite len_app. change (len "\ufffd") with 6. specialize (Hrest 0%nat). lia.
  - rewrite len_app. pose proof (escape_char_len c). specialize (Hrest 0%nat). lia.
  - assert (Hplain : len (String c (escape_text (S more) rest)) ≤ 6 * (1 + len rest))
      by (rewrite len_string; specialize (Hrest (S more)); lia).
    assert (Hskip : ∀ x y r, rest = String x (String y r) →
      6 + len (escape_text 0 r) ≤ 6 * (1 + len rest)).
    { intros x y r ->. enough (len (escape_text 0 r) ≤ 6 * len r) by (rewrite !len_string; lia).
      eapply IH; [|done]. cbn [String.length]. lia. }
    repeat (case_match; try exact Hplain); subst;
      rewrite len_app; (change (len "\u2028") with 6 || change (len "\u2029") with 6); by eapply Hskip.
Qed.

Lemma quote_len s : len (quote s) ≤ 6 * len s + 2.
Proof.
  unfold quote. rewrite len_string, len_app, len_string. change (len "") with 0.
  pose proof (escape_text_len 0 s). lia.
Qed.

Lemma print_nat_len fuel z rest : len (print_nat fuel z rest) ≤ Z.of_nat fuel + len rest.
Proof.
  revert z rest. induction fuel as [|fuel IH]; intros z rest; cbn [print_nat]; [lia|].
  destruct (z <? 10); [rewrite len_string; lia|].
  etrans; [apply IH|]. rewrite len_string. lia.
Qed.

Lemma itoa_len z : len (itoa z) ≤ 21.
Proof.
  unfold itoa. destruct (z <? 0).
  - rewrite len_app. pose proof (print_nat_len 20 (- z) "") as H.
    change (len "") with 0 in H. change (len "-") with 1. lia.
  - pose proof (print_nat_len 20 z "") as H. change (len "") with 0 in H. lia.
Qed.

(** A bound on the text of an object from bounds on its members. *)
Lemma print_object_len fields bound :
  Forall (λ f : string * string, 6 * len f.1 + len f.2 + 4 ≤ bound) fields →
  len (print_object fields) ≤ 2 + Z.of_nat (length fields) * bound.
Proof.
  intros Hall. unfold print_object. rewrite !len_app. change (len "{") with 1. change (len "}") with 1.
  enough (len (join "," (map (λ f, quote f.1 +:+ ":" +:+ f.2) fields)) ≤ Z.of_nat (length fields) * bound) by lia.
  induction Hall as [|[k v] fields Hf Hall IH]; [done|].
  assert (Hm : len (quote k +:+ ":" +:+ v) + 1 ≤ bound).
  { rewrite !len_app. change (len ":") with 1. pose proof (quote_len k). cbn in Hf. lia. }
  cbn [map join fst snd length]. destruct fields as [|f fields]; cbn [map] in *.
  - cbn [length]. lia.
  - rewrite !len_app in *. change (len ",") with 1. cbn [length] in *. lia.
Qed.

(** Evaluates the lengths of the literals, and of the quoted literals and
    constants, of a goal. *)
Ltac is_literal s :=
  lazymatch s with
  | String _ ?r => is_literal r
  | EmptyString => idtac
  | quote ?t => is_literal t
  | _ => is_const s
  end.

Ltac eval_len :=
  repeat match goal with
  | |- context [len ?s] =>
      is_literal s; let v := eval vm_compute in (len s) in change (len s) with v
  end.

Ltac bound_members := repeat (apply Forall_cons_2; [cbn [fst snd]|]); [..|apply Forall_nil_2].
