(* ===== verification/GoUtf8.v ===== *)
(** * UTF-8 text: the unicode/utf8 functions the skill library relies on

    Text is the sequence of its byte codes.  [utf8_size] (of GoJson) gives the
    width of the valid sequence at the head of a byte sequence. *)

From S2P Require Import Prelude GoText GoJson.
From Stdlib.Strings Require Import Ascii.

(** The byte codes of a Go string. *)
Fixpoint codes (s : string) : list Z :=
  match s with
  | "" => []
  | String c rest => code c :: codes rest
  end.

(** [p] holds at every rune of a text and every byte belongs to a valid
    sequence; [skip] counts the bytes of the current sequence still ahead. *)
Fixpoint all_runes (p : list Z → bool) (skip : nat) (l : list Z) : bool :=
  match l with
  | [] => true
  | _ :: rest =>
      match skip with
      | S skip' => all_runes p skip' rest
      | O =>
          match utf8_size l with
          | O => false
          | S more => p (take (S more) l) && all_runes p more rest
          end
      end
  end.

Abbreviation runes := (all_runes (λ _, true)).

(** [utf8.Valid] and [utf8.ValidString]. *)
Definition valid_utf8 (l : list Z) : bool := all_runes (λ _, true) 0 l.

(** [unicode.IsControl]: the C0 controls, DEL and the C1 controls U+0080 to
    U+009F, whose encodings are C2 80 to C2 9F. *)
Definition is_control (rune : list Z) : bool :=
  match rune with
  | [a] => (a <? 32) || (a =? 127)
  | [a; b] => (a =? 194) && (b <? 160)
  | _ => false
  end.

(** The width that the lead byte of a rune announces; 1 for an ASCII byte and
    for a byte that starts no rune. *)
Definition announced (a : Z) : nat :=
  if in_Z 194 223 a then 2%nat
  else if in_Z 224 239 a then 3%nat
  else if in_Z 240 244 a then 4%nat
  else 1%nat.

(** The accept range of the second byte. *)
Definition second_ok (a b : Z) : bool :=
  in_Z (if a =? 224 then 160 else if a =? 240 then 144 else 128)
       (if a =? 237 then 159 else if a =? 244 then 143 else 191) b.

(** [utf8.FullRune]: the text starts with a whole rune or with an encoding
    that no further byte can make valid. *)
Definition full_rune (l : list Z) : bool :=
  match l with
  | [] => false
  | a :: rest =>
      (announced a <=? length l)%nat ||
      match rest with
      | [] => false
      | b :: rest' =>
          negb (second_ok a b) ||
          match rest' with
          | [] => false
          | c :: _ => negb (is_cont c)
          end
      end
  end.

(** ** Facts *)

Lemma codes_app s t : codes (s +:+ t) = codes s ++ codes t.
Proof.
  induction s as [|c s IH]; [done|].
  change (String c s +:+ t) with (String c (s +:+ t)). cbn. by rewrite IH.
Qed.

Lemma code_range c : 0 ≤ code c < 256.
Proof. unfold code. pose proof (N_ascii_bounded c). lia. Qed.

Lemma code_inj c d : code c = code d → c = d.
Proof.
  unfold code. intros H. rewrite <- (ascii_N_embedding c), <- (ascii_N_embedding d).
  f_equal. lia.
Qed.

#[global] Instance codes_inj : Inj (=) (=) codes.
Proof.
  intros s. induction s as [|c s IH]; intros [|d t] H; try done.
  injection H as Hc Ht. by rewrite (code_inj c d Hc), (IH t Ht).
Qed.

Lemma all_runes_impl p q skip l :
  (∀ r, p r = true → q r = true) → all_runes p skip l = true → all_runes q skip l = true.
Proof.
  intros Hpq. revert skip. induction l as [|a l IH]; intros [|skip] H; cbn [all_runes] in *; eauto.
  destruct (utf8_size (a :: l)); [done|]. apply andb_true_iff in H as [? ?].
  apply andb_true_iff. eauto.
Qed.

(** A text accepted rune by rune contains no byte that is itself a refused
    one-byte rune. *)
Lemma all_runes_no_byte p skip l z :
  0 ≤ z < 128 → p [z] = false →
  (skip = 0%nat ∨ ∀ i, (i < skip)%nat → ∀ x, l !! i = Some x → is_cont x = true) →
  all_runes p skip l = true → z ∉ l.
Proof.
  intros Hz Hp. revert skip. induction l as [|a l IH]; intros skip Hskip H; [apply not_elem_of_nil|].
  cbn [all_runes] in H. apply not_elem_of_cons. destruct skip as [|skip].
  - destruct (utf8_size (a :: l)) as [|more] eqn:E; [done|].
    apply andb_true_iff in H as [Hpa H]. split.
    + intros <-. cbn [utf8_size] in E. unfold in_Z in E at 1.
      replace ((0 <=? z) && (z <=? 127)) with true in E by lia.
      injection E as <-. change (take 1 (z :: l)) with [z] in Hpa. congruence.
    + eapply IH; [|exact H]. right. intros i Hi x Hx.
      cbn [utf8_size] in E. unfold in_Z, is_cont in *.
      repeat case_match; simplify_eq; try lia;
        destruct i as [|[|[|i]]]; cbn in Hx; simplify_eq; reflect_bools; unfold in_Z in *;
        repeat case_match; reflect_bools; try lia.
  - destruct Hskip as [Hskip|Hskip]; [done|]. split.
    + intros <-. pose proof (Hskip 0%nat ltac:(lia) z eq_refl) as Hc.
      unfold is_cont, in_Z in Hc. reflect_bools. lia.
    + apply (IH skip); [|done]. right. intros i Hi x Hx. apply (Hskip (S i)); [lia|done].
Qed.

(** ** Runes at the head of a text *)

Lemma utf8_size_le l : (utf8_size l <= length l)%nat.
Proof. unfold utf8_size. repeat case_match; cbn; lia. Qed.

(** The width of a rune, read off its announced width. *)
Definition rune_width (a : Z) (rest : list Z) : nat :=
  match announced a, rest with
  | 1%nat, _ => if in_Z 0 127 a then 1%nat else 0%nat
  | 2%nat, b :: _ => if second_ok a b then 2%nat else 0%nat
  | 3%nat, b :: c :: _ => if second_ok a b && is_cont c then 3%nat else 0%nat
  | 4%nat, b :: c :: d :: _ => if second_ok a b && is_cont c && is_cont d then 4%nat else 0%nat
  | _, _ => 0%nat
  end.

Lemma in_Z_spec lo hi z : in_Z lo hi z = true ↔ lo ≤ z ≤ hi.
Proof. unfold in_Z. reflect_bools. lia. Qed.
Lemma in_Z_false lo hi z : in_Z lo hi z = false ↔ z < lo ∨ hi < z.
Proof. unfold in_Z. reflect_bools. lia. Qed.

Ltac lead_cases a :=
  destruct (in_Z 0 127 a) eqn:?, (in_Z 194 223 a) eqn:?, (in_Z 224 239 a) eqn:?,
    (in_Z 240 244 a) eqn:?;
  rewrite ?in_Z_spec, ?in_Z_false in *; try lia.

Lemma second_ok_2 a b : 194 ≤ a ≤ 223 → second_ok a b = is_cont b.
Proof.
  intros. unfold second_ok, is_cont.
  by rewrite !(proj2 (Z.eqb_neq a _)) by lia.
Qed.

Lemma utf8_size_width a rest : utf8_size (a :: rest) = rune_width a rest.
Proof.
  unfold utf8_size, rune_width, announced. lead_cases a; destruct rest as [|b [|c [|d rest]]];
    try done; rewrite ?second_ok_2 by done; unfold second_ok;
    rewrite ?(proj2 (Z.eqb_neq a 224)), ?(proj2 (Z.eqb_neq a 240)), ?(proj2 (Z.eqb_neq a 237)),
      ?(proj2 (Z.eqb_neq a 244)) by lia; repeat case_match; reflect_bools; try done; try lia;
    intuition congruence.
Qed.

(** A decoded rune does not depend on what follows it. *)
Lemma utf8_size_app l suffix n : utf8_size l = S n → utf8_size (l ++ suffix) = S n.
Proof.
  destruct l as [|a l]; [done|]. cbn [app]. rewrite !utf8_size_width. unfold rune_width.
  destruct (announced a) as [|[|[|[|[|?]]]]], l as [|b [|c [|d l]]]; done.
Qed.

(** What [full_rune] calls an invalid start stays invalid. *)
Lemma utf8_size_full l suffix :
  full_rune l = true → utf8_size l = 0%nat → utf8_size (l ++ suffix) = 0%nat.
Proof.
  destruct l as [|a l]; [done|]. cbn [app]. rewrite !utf8_size_width.
  unfold full_rune, rune_width. intros Hf Hw.
  destruct (announced a) as [|[|[|[|[|?]]]]], l as [|b [|c [|d l]]], suffix as [|x [|y [|z suffix]]];
    cbn in *; try done; repeat case_match; cbn in *; try done; reflect_bools; intuition congruence.
Qed.

(** A text that is not yet a full rune holds no rune. *)
Lemma utf8_size_not_full a l : full_rune (a :: l) = false → utf8_size (a :: l) = 0%nat.
Proof.
  rewrite utf8_size_width. unfold full_rune, rune_width. intros Hf.
  destruct (announced a) as [|[|[|[|[|?]]]]], l as [|b [|c [|d l]]]; done.
Qed.

(** A rune is decided by its own bytes. *)
Lemma utf8_size_prefix l k n :
  utf8_size l = S n → take (S n) k = take (S n) l → utf8_size k = S n.
Proof.
  intros Hl Hk. assert (utf8_size (take (S n) l) = S n) as Ht.
  { destruct l as [|a l]; [done|]. cbn [take]. rewrite utf8_size_width in *.
    unfold rune_width in *.
    destruct (announced a) as [|[|[|[|[|?]]]]], l as [|b [|c [|d l]]]; cbn in *; try done;
      repeat case_match; simplify_eq; cbn in *; simplify_eq; congruence. }
  rewrite <- (take_drop (S n) k), Hk. by apply utf8_size_app.
Qed.

(** ** ASCII text *)

Definition is_ascii (c : ascii) : bool := code c <? 128.

Lemma ascii_utf8 s : all_chars is_ascii s = true → valid_utf8 (codes s) = true.
Proof.
  unfold valid_utf8. induction s as [|c s IH]; [done|]. cbn [all_chars]. intros [Hc Hs]%andb_true_iff.
  cbn [codes all_runes utf8_size].
  assert (in_Z 0 127 (code c) = true) as ->.
  { unfold is_ascii in Hc. pose proof (code_range c). apply in_Z_spec. reflect_bools. lia. }
  cbn. auto.
Qed.

Lemma classes_ascii ps s :
  Forall (λ p : ascii → bool, ∀ c, p c = true → is_ascii c = true) ps →
  match_classes ps s = true → all_chars is_ascii s = true.
Proof.
  intros Hp. revert s. induction Hp as [|p ps Hc _ IH]; intros [|c s]; cbn; try done.
  intros [H1 H2]%andb_true_iff. rewrite Hc by done. by apply IH.
Qed.

Lemma hex_ascii c : is_hex c = true → is_ascii c = true.
Proof. destruct c as [[] [] [] [] [] [] [] []]; done. Qed.

Lemma substring_chars p n m s : all_chars p s = true → all_chars p (String.substring n m s) = true.
Proof.
  revert n m. induction s as [|c s IH]; intros [|n] [|m]; cbn; try done;
    intros [Hc Hs]%andb_true_iff; [by rewrite Hc, IH|by apply IH..].
Qed.
