(* ===== verification/GoJsonText.v ===== *)
(** * JSON text reads back

    What encoding/json prints it also parses: quoted strings, numbers, and
    whole values printed by [json.Marshal] or [json.MarshalIndent]. *)

From S2P Require Import Prelude GoText GoTime GoJson GoUtf8.
From Stdlib.Strings Require Import Ascii.

(** ** Strings *)

Lemma head_codes_take n s : head_codes n s = take n (codes s).
Proof.
  revert s. induction n as [|n IH]; intros [|c s]; cbn; try done. by rewrite IH.
Qed.

(** Only the first four bytes matter for the rune at the head. *)
Lemma utf8_size_take l : utf8_size (take 4 l) = utf8_size l.
Proof. destruct l as [|a [|b [|c [|d l]]]]; done. Qed.

Lemma utf8_size_head s : utf8_size (head_codes 4 s) = utf8_size (codes s).
Proof. rewrite head_codes_take. apply utf8_size_take. Qed.

(** One escaped ASCII character costs one step of the string parser. *)
Lemma string_body_escape c fuel rest :
  code c < 128 →
  string_body (S fuel) (escape_char c +:+ rest) = cons_text (String c "") (string_body fuel rest).
Proof.
  destruct c as [[] [] [] [] [] [] [] []]; intros Hc; (done || (exfalso; vm_compute in Hc; done)).
Qed.

(** A byte of a multi-byte rune is copied. *)
Lemma string_body_high c fuel rest :
  128 ≤ code c →
  string_body (S fuel) (String c rest) = cons_text (String c "") (string_body fuel rest).
Proof.
  destruct c as [[] [] [] [] [] [] [] []]; intros Hc; (done || (exfalso; vm_compute in Hc; congruence)).
Qed.

Lemma utf8_size_one a l : 0 ≤ a → utf8_size (a :: l) = 1%nat → a < 128.
Proof. intros Ha. cbn [utf8_size]. unfold in_Z, is_cont. repeat case_match; reflect_bools; lia. Qed.

Lemma utf8_size_multi a l more :
  utf8_size (a :: l) = S (S more) →
  128 ≤ a ∧ ∀ i x, (i < S more)%nat → l !! i = Some x → 128 ≤ x.
Proof.
  cbn [utf8_size]. unfold in_Z, is_cont, in_Z. intros H.
  repeat case_match; try done; injection H as <-; reflect_bools; (split; [lia|]);
    intros i x Hi; destruct i as [|[|[|i]]]; cbn; intros; simplify_eq; repeat case_match; lia.
Qed.

Lemma escape_char_nonempty c : (1 ≤ String.length (escape_char c))%nat.
Proof. apply Nat.leb_le. by destruct c as [[] [] [] [] [] [] [] []]. Qed.

Lemma string_body_separator d fuel rest :
  code d = 168 ∨ code d = 169 →
  string_body (S fuel) ((if code d =? 168 then "\u2028" else "\u2029") +:+ rest) =
  cons_text (String (chr 226) (String (chr 128) (String d ""))) (string_body fuel rest).
Proof.
  intros [Hd|Hd]; rewrite Hd; cbn [Z.eqb Pos.eqb].
  - by rewrite (code_inj d (chr 168)) by done.
  - by rewrite (code_inj d (chr 169)) by done.
Qed.

(** The parser reads an escaped text back, whatever follows its closing
    quote.  [skip] counts the bytes of a rune that has been started. *)
Lemma string_body_text s skip fuel rest :
  runes skip (codes s) = true →
  (∀ i x, (i < skip)%nat → codes s !! i = Some x → 128 ≤ x) →
  (String.length (escape_text skip s) < fuel)%nat →
  string_body fuel (escape_text skip s +:+ String quote_char rest) = Some (s, rest).
Proof.
  remember (String.length s) as n eqn:Hn. revert s skip fuel Hn.
  induction n as [n IH] using lt_wf_ind. intros [|c s] skip fuel -> Hv Hhigh Hfuel.
  { destruct fuel; [cbn in Hfuel; lia|]. done. }
  destruct fuel as [|fuel]; [lia|].
  destruct skip as [|skip].
  2:{ cbn [escape_text all_runes codes String.length] in *.
      change (String c ?x +:+ ?y) with (String c (x +:+ y)).
      rewrite string_body_high by (apply (Hhigh 0%nat); [lia|done]).
      rewrite (IH (String.length s)); [done|cbn; lia|done|done| |lia].
      intros i x Hi Hx. apply (Hhigh (S i)); [lia|done]. }
  cbn [all_runes codes] in Hv. pose proof (utf8_size_head (String c s)) as Hhead.
  cbn [escape_text codes String.length] in *. rewrite Hhead in *. pose proof (code_range c).
  destruct (utf8_size (code c :: codes s)) as [|[|more]] eqn:Es; [done| |].
  - rewrite string_app_assoc, string_body_escape by (apply (utf8_size_one _ (codes s)); [lia|done]).
    rewrite string_length_app in Hfuel. pose proof (escape_char_nonempty c).
    rewrite (IH (String.length s)); [done|cbn; lia|done|done|intros; lia|lia].
  - destruct (utf8_size_multi _ _ _ Es) as [Hc Hmore].
    assert (Hplain : (String.length (String c (escape_text (S more) s)) < S fuel)%nat →
      string_body (S fuel) (String c (escape_text (S more) s) +:+ String quote_char rest) =
      Some (String c s, rest)).
    { cbn [String.length]. intros Hf. change (String c ?x +:+ ?y) with (String c (x +:+ y)).
      rewrite string_body_high by done. rewrite (IH (String.length s)); [done|cbn; lia|done|done|done|lia]. }
    destruct s as [|b [|d s]]; [by apply Hplain|by apply Hplain|].
    destruct (is_line_separator c b d) eqn:El; [|by apply Hplain].
    cbn [andb] in Hv. unfold is_line_separator in El.
    apply andb_true_iff in El as [[Ec%Z.eqb_eq Eb%Z.eqb_eq]%andb_true_iff Ed].
    rewrite orb_true_iff, !Z.eqb_eq in Ed.
    assert (more = 1%nat) as ->.
    { cbn [utf8_size codes] in Es. rewrite Ec in Es.
      change ((if in_Z 128 191 (code b) && is_cont (code d) then 3%nat else 0%nat) = S (S more)) in Es.
      destruct (_ && _); [by injection Es|done]. }
    rewrite string_app_assoc, string_body_separator by done.
    rewrite string_length_app in Hfuel.
    erewrite (IH (String.length s)); [|cbn; lia|done| |intros; lia|destruct (code d =? 168); cbn in Hfuel; lia].
    + cbn. by rewrite (code_inj c (chr 226)), (code_inj b (chr 128)) by done.
    + exact Hv.
Qed.

Lemma sanitize_valid s skip : runes skip (codes s) = true → sanitize skip s = s.
Proof.
  revert skip. induction s as [|c s IH]; intros skip Hv; [done|].
  cbn [sanitize all_runes codes] in *. destruct skip as [|skip]; [|by rewrite IH].
  rewrite (utf8_size_head (String c s)). cbn [codes].
  destruct (utf8_size (code c :: codes s)) as [|more]; [done|]. cbn [andb] in Hv. by rewrite IH.
Qed.

(** A quoted valid text, read after its opening quote. *)
Lemma json_string_quote s rest :
  valid_utf8 (codes s) = true →
  json_string (escape_text 0 s +:+ String quote_char rest) = Some (s, rest).
Proof.
  intros Hv. unfold json_string.
  rewrite (string_body_text s 0) by
    (done || (intros; lia) || (rewrite string_length_app; cbn; lia)).
  by rewrite sanitize_valid.
Qed.

(** ** Numbers *)

(** A literal the parser reads whole, wherever it stands. *)
Definition number_text (literal : string) : Prop :=
  (∃ c s, literal = String c s ∧ (is_digit c = true ∨ c = "-"%char)) ∧
  ∀ rest, ends_number rest = true → json_number (literal +:+ rest) = Some (literal, rest).

Definition no_digit (s : string) : Prop :=
  match s with String c _ => is_digit c = false | "" => True end.

Lemma span_digits_inv s ds rest :
  span_digits s = (ds, rest) → s = ds +:+ rest ∧ all_chars is_digit ds = true ∧ no_digit rest.
Proof.
  revert ds rest. induction s as [|c s IH]; intros ds rest H; cbn in H.
  { by injection H as <- <-. }
  destruct (is_digit c) eqn:Ec.
  - destruct (span_digits s) as [ds' r] eqn:E. injection H as <- <-.
    destruct (IH _ _ eq_refl) as (-> & Hall & Hno). cbn. by rewrite Ec.
  - injection H as <- <-. cbn. by rewrite Ec.
Qed.

Lemma ends_no_digit s : ends_number s = true → no_digit s.
Proof. destruct s as [|c s]; cbn; [done|]. intros H. by reflect_bools. Qed.

(** The integer, fraction and exponent parts a literal is made of. *)
Inductive int_part : string → Prop :=
  | int_zero : int_part "0"
  | int_digits d ds :
      is_digit d = true → d ≠ "0"%char → all_chars is_digit ds = true → int_part (String d ds).
Inductive frac_part : string → Prop :=
  | frac_none : frac_part ""
  | frac_digits d ds :
      is_digit d = true → all_chars is_digit ds = true → frac_part (String "." (String d ds)).
Inductive exp_part : string → Prop :=
  | exp_none : exp_part ""
  | exp_digits e sign d ds :
      has_char "eE" e = true → sign = "" ∨ sign = "+" ∨ sign = "-" →
      is_digit d = true → all_chars is_digit ds = true →
      exp_part (String e (sign +:+ String d ds)).

Lemma number_int_inv s i r : number_int s = Some (i, r) → int_part i.
Proof.
  unfold number_int. destruct (span_digits s) as [[|d ds] rest] eqn:E; [done|].
  apply span_digits_inv in E as (-> & Hall & _). cbn in Hall. apply andb_true_iff in Hall as [Hd Hds].
  destruct (Ascii.eqb_spec d "0") as [->|Hne]; intros H; injection H as <- <-; by constructor.
Qed.

Lemma number_frac_inv s f r : number_frac s = Some (f, r) → frac_part f.
Proof.
  unfold number_frac. intros H. repeat case_match; simplify_eq; try exact frac_none.
  all: match goal with H : span_digits _ = _ |- _ =>
    apply span_digits_inv in H as (_ & Hall & _); cbn in Hall; apply andb_true_iff in Hall as [? ?] end.
  all: apply frac_digits; assumption.
Qed.

Lemma number_exp_inv s e r : number_exp s = Some (e, r) → exp_part e.
Proof.
  unfold number_exp. destruct s as [|c s]; [intros [= <- <-]; constructor|].
  destruct (has_char "eE" c) eqn:Ec; [|intros [= <- <-]; constructor].
  set (p := match s with String c0 r0 => _ | "" => _ end).
  assert (p.1 = "" ∨ p.1 = "+" ∨ p.1 = "-") as Hsign.
  { subst p. destruct s as [|x s]; [by left|]. cbn [has_char].
    destruct (Ascii.eqb_spec x "+") as [->|]; [by right; left|].
    destruct (Ascii.eqb_spec x "-") as [->|]; [by right; right|]. by left. }
  destruct p as [sign s']. destruct (span_digits s') as [[|d ds] rest] eqn:E; [done|].
  intros [= <- <-]. apply span_digits_inv in E as (_ & Hall & _). cbn in Hall.
  apply andb_true_iff in Hall as [? ?]. by constructor.
Qed.

Lemma number_int_read i rest :
  int_part i → no_digit rest → number_int (i +:+ rest) = Some (i, rest).
Proof.
  intros Hi Hrest. unfold number_int. destruct Hi as [|d ds Hd Hne Hds].
  - change ("0" +:+ rest) with (String "0" rest). cbn [span_digits].
    change (is_digit "0") with true. cbn iota. destruct (span_digits rest) as [x y]. done.
  - rewrite span_digits_all; [|by cbn; rewrite Hd|done].
    by rewrite (proj2 (Ascii.eqb_neq d "0")).
Qed.

Lemma number_frac_read f rest :
  frac_part f → no_digit rest → (∀ r, rest ≠ String "." r) →
  number_frac (f +:+ rest) = Some (f, rest).
Proof.
  intros Hf Hrest Hdot. unfold number_frac. destruct Hf as [|d ds Hd Hds].
  - change ("" +:+ rest) with rest. destruct rest as [|c r]; [done|].
    destruct c as [[] [] [] [] [] [] [] []]; try done. by destruct (Hdot r).
  - change (String "." (String d ds) +:+ rest) with (String "." (String d ds +:+ rest)).
    cbn iota. rewrite span_digits_all; [done|by cbn; rewrite Hd|done].
Qed.

Lemma number_exp_read e rest :
  exp_part e → ends_number rest = true → number_exp (e +:+ rest) = Some (e, rest).
Proof.
  intros He Hrest. pose proof (ends_no_digit _ Hrest) as Hno. destruct He as [|c sign d ds Hc Hsign Hd Hds].
  - change ("" +:+ rest) with rest. destruct rest as [|c r]; [done|]. unfold number_exp.
    cbn in Hrest. destruct c as [[] [] [] [] [] [] [] []]; done.
  - change (String c (sign +:+ String d ds) +:+ rest)
      with (String c ((sign +:+ String d ds) +:+ rest)). rewrite string_app_assoc.
    unfold number_exp. rewrite Hc.
    assert (Hspan : span_digits (String d ds +:+ rest) = (String d ds, rest)).
    { apply span_digits_all; [by cbn; rewrite Hd|done]. }
    destruct Hsign as [->|[->| ->]].
    + change ("" +:+ ?x) with x in *. change (String d ds +:+ rest) with (String d (ds +:+ rest)) in *.
      cbv beta iota.
      assert (has_char "+-" d = false) as ->
        by (destruct d as [[] [] [] [] [] [] [] []]; try discriminate Hd; done).
      by rewrite Hspan.
    + change ("+" +:+ ?x) with (String "+" x). cbn [has_char Ascii.eqb Bool.eqb orb]. by rewrite Hspan.
    + change ("-" +:+ ?x) with (String "-" x). cbn [has_char Ascii.eqb Bool.eqb orb]. by rewrite Hspan.
Qed.

Lemma string_app_nil s : s +:+ "" = s.
Proof. induction s as [|c s IH]; [done|]. exact (f_equal (String c) IH). Qed.

(** What may follow an integer part: a fraction, an exponent or the end. *)
Lemma tail_no_digit f e rest :
  frac_part f → exp_part e → ends_number rest = true → no_digit (f +:+ e +:+ rest).
Proof.
  intros Hf He Hr%ends_no_digit. destruct Hf as [|d ds _ _]; [|done].
  change ("" +:+ ?x) with x. destruct He as [|c sign d ds Hc _ _ _]; [done|]. cbn.
  destruct c as [[] [] [] [] [] [] [] []]; done.
Qed.

Lemma exp_tail e rest :
  exp_part e → ends_number rest = true →
  no_digit (e +:+ rest) ∧ ∀ r, (e +:+ rest) ≠ String "." r.
Proof.
  intros He Hr. split; [by apply (tail_no_digit ""); [constructor|..]|].
  intros r Heq. destruct He as [|c sign d ds Hc _ _ _].
  - change ("" +:+ rest) with rest in Heq. subst. done.
  - injection Heq as -> _. done.
Qed.

Lemma number_text_parts sign i f e :
  sign = "" ∨ sign = "-" → int_part i → frac_part f → exp_part e →
  number_text (sign +:+ i +:+ f +:+ e).
Proof.
  intros Hsign Hi Hf He. split.
  - destruct Hsign as [->| ->]; [|by eexists _, _; split; [reflexivity|right]].
    destruct Hi; (eexists _, _; split; [reflexivity|by left]).
  - intros rest Hr. unfold json_number. rewrite !string_app_assoc.
    destruct (exp_tail e rest He Hr) as [Hno Hdot].
    assert (Hs : number_sign (sign +:+ i +:+ f +:+ e +:+ rest) = (sign, i +:+ f +:+ e +:+ rest)).
    { destruct Hsign as [->| ->]; [|done]. change ("" +:+ ?x) with x.
      destruct Hi as [|d ds Hd _ _]; [done|].
      change (String d ds +:+ ?x) with (String d (ds +:+ x)).
      destruct d as [[] [] [] [] [] [] [] []]; try discriminate Hd; done. }
    rewrite Hs, number_int_read by (done || by apply tail_no_digit). cbn [mbind option_bind].
    rewrite number_frac_read by done. cbn [mbind option_bind].
    by rewrite number_exp_read by done.
Qed.

(** Every literal that was read can be read again. *)
Lemma json_number_text s literal rest : json_number s = Some (literal, rest) → number_text literal.
Proof.
  unfold json_number. destruct (number_sign s) as [sign body] eqn:Es.
  assert (sign = "" ∨ sign = "-") as Hsign.
  { unfold number_sign in Es. repeat case_match; simplify_eq; auto. }
  destruct (number_int body) as [[i r1]|] eqn:Ei; cbn [mbind option_bind]; [|done].
  destruct (number_frac r1) as [[f r2]|] eqn:Ef; cbn [mbind option_bind]; [|done].
  destruct (number_exp r2) as [[e r3]|] eqn:Ee; cbn [mbind option_bind]; [|done].
  intros H. injection H as <- <-.
  eauto using number_text_parts, number_int_inv, number_frac_inv, number_exp_inv.
Qed.

(** ** Decoded text is valid UTF-8 *)

Lemma take_sanitize n s : (n ≤ String.length s)%nat → take n (codes (sanitize n s)) = take n (codes s).
Proof.
  revert s. induction n as [|n IH]; intros [|c s] Hn; try done. cbn in Hn |- *.
  by rewrite IH by lia.
Qed.

Lemma codes_length s : length (codes s) = String.length s.
Proof. induction s as [|c s IH]; cbn; [done|]. by rewrite IH. Qed.

Lemma sanitize_runes s skip :
  (skip ≤ String.length s)%nat → runes skip (codes (sanitize skip s)) = true.
Proof.
  revert skip. induction s as [|c s IH]; intros skip Hs; [done|]. cbn [String.length] in Hs.
  cbn [sanitize]. destruct skip as [|skip]; [|cbn [codes all_runes]; apply IH; lia].
  rewrite utf8_size_head. destruct (utf8_size (codes (String c s))) as [|more] eqn:E.
  - rewrite codes_app. specialize (IH 0%nat ltac:(lia)).
    change (codes replacement) with [239; 191; 189]. exact IH.
  - pose proof (utf8_size_le (codes (String c s))) as Hle. rewrite E, codes_length in Hle.
    cbn [String.length] in Hle. cbn [codes] in E |- *. cbn [all_runes].
    rewrite (utf8_size_prefix (code c :: codes s) _ more E) by
      (cbn [take]; by rewrite take_sanitize by lia).
    cbn [andb]. apply IH. lia.
Qed.

Lemma sanitize_utf8 s : valid_utf8 (codes (sanitize 0 s)) = true.
Proof. apply sanitize_runes. lia. Qed.

Lemma json_string_utf8 s text rest : json_string s = Some (text, rest) → valid_utf8 (codes text) = true.
Proof.
  unfold json_string. destruct (string_body _ s) as [[t r]|]; [|done].
  intros [= <- _]. apply sanitize_utf8.
Qed.
