(* ===== verification/GoJsonValue.v ===== *)
(** * JSON values: [map[string]any] trees, printed and read back

    A [value] is what a Go [any] holds when it is encoded or decoded with
    numbers kept as [json.Number]: the keys of an object are the keys of a Go
    map.  [Unsupported] stands for the Go values encoding/json refuses
    (channels, functions, NaN); a number stands for the text it is encoded as.  [print_value] covers [json.Marshal] and
    [json.MarshalIndent]: the two differ in white space only. *)

From S2P Require Import Prelude GoText GoTime GoJson GoUtf8 GoJsonText.
From Stdlib.Strings Require Import Ascii.

Inductive value :=
  | VNull
  | VBool (b : bool)
  | VNum (literal : string)
  | VStr (s : string)
  | VArr (items : list value)
  | VObj (fields : list (string * value))
  | Unsupported.

(** Induction through the members of arrays and objects. *)
Section ValueInd.
Context (P : value → Prop).
Context (Hnull : P VNull) (Hbool : ∀ b, P (VBool b)) (Hnum : ∀ l, P (VNum l)).
Context (Hstr : ∀ s, P (VStr s)) (Hun : P Unsupported).
Context (Harr : ∀ items, Forall P items → P (VArr items)).
Context (Hobj : ∀ fields, Forall (λ f, P f.2) fields → P (VObj fields)).

Fixpoint value_ind' (v : value) : P v :=
  match v with
  | VNull => Hnull
  | VBool b => Hbool b
  | VNum l => Hnum l
  | VStr s => Hstr s
  | VArr items =>
      Harr items ((fix go (l : list value) : Forall P l :=
        match l with
        | [] => Forall_nil_2 P
        | x :: l' => Forall_cons_2 P x l' (value_ind' x) (go l')
        end) items)
  | VObj fields =>
      Hobj fields ((fix go (l : list (string * value)) : Forall (λ f, P f.2) l :=
        match l with
        | [] => Forall_nil_2 _
        | x :: l' => Forall_cons_2 _ x l' (value_ind' x.2) (go l')
        end) fields)
  | Unsupported => Hun
  end.
End ValueInd.

#[global] Instance value_eq_dec : EqDecision value.
Proof.
  refine (fix go x y := let _ : EqDecision value := go in
    match x, y return Decision (x = y) with
    | VNull, VNull | Unsupported, Unsupported => left eq_refl
    | VBool a, VBool b => cast_if (decide (a = b))
    | VNum a, VNum b | VStr a, VStr b => cast_if (decide (a = b))
    | VArr a, VArr b => cast_if (decide (a = b))
    | VObj a, VObj b => cast_if (decide (a = b))
    | _, _ => right _
    end); repeat match goal with r : EqDecision value |- _ => clear r end; abstract congruence.
Defined.

(** ** Printing *)

(** The white space of a printer: what it writes on a new line at a nesting
    depth, and after a colon. *)
Record style := mkStyle { newline : nat → string; space : string }.

(** [json.Marshal]. *)
Definition compact : style := mkStyle (λ _, "") "".

Fixpoint spaces (n : nat) : string :=
  match n with O => "" | S n' => String " " (String " " (spaces n')) end.

(** [json.MarshalIndent] with an empty prefix and an indent of two spaces. *)
Definition indented : style := mkStyle (λ d, String (chr 10) (spaces d)) " ".

Section Printing.
Context (st : style).

Definition print_list (depth : nat) (open close : string) (items : list string) : string :=
  match items with
  | [] => open +:+ close
  | _ => open +:+ newline st (S depth) +:+ join ("," +:+ newline st (S depth)) items
           +:+ newline st depth +:+ close
  end.

Fixpoint print_value (depth : nat) (v : value) : string :=
  match v with
  | VNull => "null"
  | VBool b => if b then "true" else "false"
  | VNum l => l
  | VStr s => quote s
  | VArr items => print_list depth "[" "]" (map (print_value (S depth)) items)
  | VObj fields =>
      print_list depth "{" "}"
        (map (λ f, quote f.1 +:+ ":" +:+ space st +:+ print_value (S depth) f.2) fields)
  | Unsupported => ""
  end.

(** The tree the parser builds from that text: members carry their raw text. *)
Fixpoint tree (depth : nat) (v : value) : json :=
  match v with
  | VNull | Unsupported => JNull
  | VBool b => JBool b
  | VNum l => JNum l
  | VStr s => JStr s
  | VArr items => JArr (map (tree (S depth)) items)
  | VObj fields =>
      JObj (map (λ f, (f.1, print_value (S depth) f.2, tree (S depth) f.2)) fields)
  end.

End Printing.

(** Whether encoding/json accepts the value ([json.Number] must be a number). *)
Fixpoint encodable (v : value) : bool :=
  match v with
  | VNum l => match json_number l with
              | Some (l', rest) => String.eqb rest ""
              | None => false
              end
  | VArr items => forallb encodable items
  | VObj fields => forallb (λ f, encodable f.2) fields
  | Unsupported => false
  | _ => true
  end.

(** Values whose text decodes to themselves: valid UTF-8 and number literals.
    Everything a decoder produces is of this kind. *)
Fixpoint faithful (v : value) : Prop :=
  match v with
  | VNull | VBool _ => True
  | VNum l => number_text l
  | VStr s => valid_utf8 (codes s) = true
  | VArr items => (fix go l := match l with [] => True | x :: l' => faithful x ∧ go l' end) items
  | VObj fields =>
      (fix go l := match l with
       | [] => True
       | f :: l' => (valid_utf8 (codes f.1) = true ∧ faithful f.2) ∧ go l'
       end) fields
  | Unsupported => False
  end.

Lemma faithful_arr items : faithful (VArr items) ↔ Forall faithful items.
Proof. cbn. induction items as [|x l IH]; [by split; constructor|]. rewrite list.Forall_cons. by rewrite IH. Qed.

Lemma faithful_obj fields :
  faithful (VObj fields) ↔ Forall (λ f, valid_utf8 (codes f.1) = true ∧ faithful f.2) fields.
Proof. cbn. induction fields as [|x l IH]; [by split; constructor|]. rewrite list.Forall_cons. by rewrite IH. Qed.

(** The nesting of a value, and the parser fuel it needs. *)
Fixpoint height (v : value) : nat :=
  match v with
  | VArr items => S (list_max (map height items))
  | VObj fields => S (list_max (map (λ f, height f.2) fields))
  | _ => O
  end.

Fixpoint weight (v : value) : nat :=
  match v with
  | VArr items => S (list_sum (map (λ x, S (weight x)) items))
  | VObj fields => S (list_sum (map (λ f, S (weight f.2)) fields))
  | _ => 1%nat
  end.

(** ** Reading the printed text *)

Definition white (s : string) : Prop := all_chars is_ws s = true.

Record white_style (st : style) : Prop := {
  ws_newline : ∀ d, white (newline st d);
  ws_space : white (space st)
}.

Existing Class white_style.

#[export] Instance compact_white : white_style compact.
Proof. by split. Qed.

Lemma spaces_white n : white (spaces n).
Proof. induction n; done. Qed.

#[export] Instance indented_white : white_style indented.
Proof. split; [|done]. intros d. exact (spaces_white d). Qed.

Lemma skip_ws_app w s : white w → skip_ws (w +:+ s) = skip_ws s.
Proof.
  unfold white. induction w as [|c w IH]; [done|]. cbn [all_chars]. intros [Hc Hw]%andb_true_iff.
  change (String c w +:+ s) with (String c (w +:+ s)). cbn [skip_ws]. rewrite Hc. auto.
Qed.

Lemma ends_number_white w c s :
  white w → is_digit c = false → has_char ".eE" c = false →
  ends_number (w +:+ String c s) = true.
Proof.
  intros Hw Hc Hd. destruct w as [|x w].
  - change ("" +:+ ?x) with x. unfold ends_number. by rewrite Hc, Hd.
  - unfold white in Hw. cbn [all_chars] in Hw. apply andb_true_iff in Hw as [Hx _].
    destruct x as [[] [] [] [] [] [] [] []]; try discriminate Hx; done.
Qed.

Lemma substring_prefix t r : String.substring 0 (String.length t) (t +:+ r) = t.
Proof. induction t as [|c t IH]; [by destruct r|]. exact (f_equal (String c) IH). Qed.

Lemma consumed_app t r : consumed (t +:+ r) r = t.
Proof.
  unfold consumed. rewrite string_length_app.
  replace (String.length t + String.length r - String.length r)%nat with (String.length t) by lia.
  apply substring_prefix.
Qed.

(** White space before a value or a member is skipped. *)
Lemma json_value_skip f dep w s : white w → json_value f dep (w +:+ s) = json_value f dep s.
Proof. intros Hw. destruct f; cbn [json_value]; [done|]. by rewrite skip_ws_app. Qed.

Lemma json_fields_skip f dep w s : white w → json_fields f dep (w +:+ s) = json_fields f dep s.
Proof. intros Hw. destruct f; cbn [json_fields]; [done|]. by rewrite skip_ws_app. Qed.

Lemma json_items_skip f dep w s : white w → json_items f dep (w +:+ s) = json_items f dep s.
Proof. intros Hw. destruct f; cbn [json_items]; [done|]. by rewrite json_value_skip. Qed.

(** The first character of a value is not white space and closes nothing. *)
Definition starts_value (s : string) : Prop :=
  match s with
  | String c _ => is_ws c = false ∧ c ≠ "]"%char ∧ c ≠ "}"%char
  | "" => False
  end.

Lemma starts_value_app s r : starts_value s → starts_value (s +:+ r).
Proof. by destruct s. Qed.

Lemma starts_value_skip s : starts_value s → skip_ws s = s.
Proof. destruct s as [|c s]; [done|]. intros (Hc & _ & _). cbn. by rewrite Hc. Qed.

Section Reading.
Context (st : style) (Hst : white_style st).

Lemma print_value_starts d v : faithful v → starts_value (print_value st d v).
Proof.
  destruct v as [|[]|l|s|items|fields|]; try done.
  - intros [(c & s & -> & Hc) _]. cbn. destruct Hc as [Hc| ->]; [|done].
    destruct c as [[] [] [] [] [] [] [] []]; try discriminate Hc; done.
  - intros _. cbn. by destruct items.
  - intros _. cbn. by destruct fields.
Qed.

(** How a printed value is read, whatever follows it. *)
Definition reads (d : nat) (v : value) : Prop :=
  ∀ fuel dep rest,
    (weight v ≤ fuel)%nat → (height v ≤ dep)%nat → ends_number rest = true →
    json_value fuel dep (print_value st d v +:+ rest) = Some (tree st d v, rest).

Lemma reads_number d l : number_text l → reads d (VNum l).
Proof.
  intros [(c & s & -> & Hc) Hread] fuel dep rest Hf _ Hr. cbn [weight print_value tree] in *.
  destruct fuel as [|fuel]; [lia|]. specialize (Hread rest Hr).
  change (String c s +:+ rest) with (String c (s +:+ rest)) in *. cbn [json_value].
  assert (skip_ws (String c (s +:+ rest)) = String c (s +:+ rest) ∧ Ascii.eqb c "{" = false ∧
    Ascii.eqb c "[" = false ∧ (code c =? 34) = false ∧ is_digit c || Ascii.eqb c "-" = true)
    as (-> & -> & -> & -> & ->).
  { destruct Hc as [Hc| ->]; [|done].
    destruct c as [[] [] [] [] [] [] [] []]; try discriminate Hc; done. }
  by rewrite Hread.
Qed.

Lemma reads_string d s : valid_utf8 (codes s) = true → reads d (VStr s).
Proof.
  intros Hv fuel dep rest Hf _ _. cbn [weight print_value tree] in *.
  destruct fuel as [|fuel]; [lia|]. unfold quote.
  change (String quote_char ?x +:+ rest) with (String quote_char (x +:+ rest)).
  rewrite string_app_assoc. change (String quote_char "" +:+ rest) with (String quote_char rest).
  cbn [json_value]. change (skip_ws (String quote_char ?x)) with (String quote_char x).
  cbn -[json_string]. by rewrite json_string_quote.
Qed.

Lemma join_cons2 sep a b l : join sep (a :: b :: l) = a +:+ sep +:+ join sep (b :: l).
Proof. done. Qed.

(** The members of an array, then white space and the closing bracket. *)
Lemma reads_items d close items fuel dep rest :
  items ≠ [] → Forall (reads (S d)) items → white close →
  (list_sum (map (λ x, S (weight x)) items) ≤ fuel)%nat →
  (list_max (map height items) ≤ dep)%nat →
  json_items fuel dep (join ("," +:+ newline st (S d)) (map (print_value st (S d)) items)
    +:+ close +:+ String "]" rest) = Some (map (tree st (S d)) items, rest).
Proof.
  intros Hne Hall Hclose. revert fuel. induction Hall as [|x l Hx Hl IH]; intros fuel Hf Hd; [done|].
  cbn in Hf, Hd. destruct fuel as [|fuel]; [lia|]. destruct l as [|y l].
  - cbn [map join json_items]. rewrite Hx by (lia || by apply ends_number_white).
    cbn [mbind option_bind]. by rewrite skip_ws_app.
  - cbn [map]. rewrite join_cons2, !string_app_assoc.
    change ("," +:+ ?x) with (String "," x). cbn [json_items].
    rewrite Hx by (lia || done). cbn [mbind option_bind skip_ws].
    change (is_ws ",") with false. cbn iota. rewrite json_items_skip by apply Hst.
    cbn [map] in IH. by rewrite IH by (done || cbn in *; lia).
Qed.

(** The members of an object likewise. *)
Lemma reads_fields d close fields fuel dep rest :
  fields ≠ [] → Forall (λ f, valid_utf8 (codes f.1) = true ∧ faithful f.2 ∧ reads (S d) f.2) fields →
  white close →
  (list_sum (map (λ f, S (weight f.2)) fields) ≤ fuel)%nat →
  (list_max (map (λ f, height f.2) fields) ≤ dep)%nat →
  json_fields fuel dep
    (join ("," +:+ newline st (S d))
       (map (λ f, quote f.1 +:+ ":" +:+ space st +:+ print_value st (S d) f.2) fields)
     +:+ close +:+ String "}" rest) =
  Some (map (λ f, (f.1, print_value st (S d) f.2, tree st (S d) f.2)) fields, rest).
Proof.
  intros Hne Hall Hclose. revert fuel.
  induction Hall as [|[k x] l (Hk & Hfx & Hx) Hl IH]; intros fuel Hf Hd; [done|].
  cbn in Hf, Hd, Hk, Hfx, Hx. destruct fuel as [|fuel]; [lia|].
  pose proof (λ r, starts_value_app _ r (print_value_starts (S d) x Hfx)) as Hstart.
  assert (Hraw : ∀ r, consumed (skip_ws (space st +:+ print_value st (S d) x +:+ r)) r =
    print_value st (S d) x).
  { intros r. rewrite skip_ws_app by apply Hst. rewrite starts_value_skip by done.
    apply consumed_app. }
  destruct l as [|y l].
  - cbn [map join fst snd]. rewrite !string_app_assoc. unfold quote at 1.
    change (String quote_char ?x +:+ ?y) with (String quote_char (x +:+ y)).
    rewrite string_app_assoc. change (String quote_char "" +:+ ?x) with (String quote_char x).
    change (":" +:+ ?x) with (String ":" x).
    erewrite json_fields_last; [|by apply json_string_quote|reflexivity| |].
    + by rewrite Hraw.
    + rewrite json_value_skip by apply Hst. apply Hx; [lia|lia|by apply ends_number_white].
    + by rewrite skip_ws_app.
  - cbn [map fst snd]. rewrite join_cons2, !string_app_assoc. unfold quote at 1.
    change (String quote_char ?x +:+ ?y) with (String quote_char (x +:+ y)).
    rewrite string_app_assoc. change (String quote_char "" +:+ ?x) with (String quote_char x).
    change (":" +:+ ?x) with (String ":" x). change ("," +:+ ?x) with (String "," x).
    erewrite json_fields_more;
      [|by apply json_string_quote|reflexivity
       |rewrite json_value_skip by apply Hst; apply Hx; [lia|lia|done]|reflexivity|].
    + by rewrite Hraw.
    + rewrite json_fields_skip by apply Hst. cbn [map] in IH. apply IH; [done|cbn in *; lia|cbn in *; lia].
Qed.

(** Every faithful value is read back from its text. *)
Lemma reads_value v d : faithful v → reads d v.
Proof.
  revert d. induction v as [|b|l|s| |items IH|fields IH] using value_ind'; intros d Hv.
  - intros fuel dep rest Hf _ _. destruct fuel; [cbn in Hf; lia|]. done.
  - intros fuel dep rest Hf _ _. destruct fuel; [cbn in Hf; lia|]. by destruct b.
  - by apply reads_number.
  - by apply reads_string.
  - done.
  - apply faithful_arr in Hv. intros fuel dep rest Hf Hd _. cbn in Hf, Hd.
    destruct fuel as [|fuel]; [lia|]. destruct dep as [|dep]; [lia|]. cbn [print_value tree].
    destruct items as [|x items]; [done|]. unfold print_list. cbn [map].
    rewrite !string_app_assoc. change ("[" +:+ ?x) with (String "[" x). cbn [json_value].
    change (skip_ws (String "[" ?x)) with (String "[" x). cbn [Ascii.eqb Bool.eqb].
    rewrite skip_ws_app by apply Hst.
    assert (Hr : Forall (reads (S d)) (x :: items)).
    { rewrite list.Forall_forall in *. auto. }
    pose proof (print_value_starts (S d) x (proj1 (proj1 (list.Forall_cons _ _ _) Hv))) as Hs.
    set (text := join _ _) in *.
    assert (Hst' : starts_value (text +:+ newline st d +:+ "]" +:+ rest)).
    { apply starts_value_app. subst text. destruct items; [done|]. cbn [map].
      rewrite join_cons2. by apply starts_value_app. }
    rewrite (starts_value_skip _ Hst'), json_items_skip by apply Hst.
    assert (Hitems : json_items fuel dep (text +:+ newline st d +:+ "]" +:+ rest) =
      Some (map (tree st (S d)) (x :: items), rest)).
    { apply (reads_items d (newline st d) (x :: items)); [done|done|apply Hst|cbn in Hf |- *; lia|cbn in Hd |- *; lia]. }
    rewrite Hitems. cbn [mbind option_bind].
    destruct (text +:+ _) as [|c rest']; [done|]. destruct Hst' as (_ & Hc & _).
    destruct c as [[] [] [] [] [] [] [] []]; done.
  - apply faithful_obj in Hv. intros fuel dep rest Hf Hd _. cbn in Hf, Hd.
    destruct fuel as [|fuel]; [lia|]. destruct dep as [|dep]; [lia|]. cbn [print_value tree].
    destruct fields as [|x fields]; [done|]. unfold print_list. cbn [map].
    rewrite !string_app_assoc. change ("{" +:+ ?x) with (String "{" x). cbn [json_value].
    change (skip_ws (String "{" ?x)) with (String "{" x). cbn [Ascii.eqb Bool.eqb].
    rewrite skip_ws_app by apply Hst.
    assert (Hr : Forall (λ f, valid_utf8 (codes f.1) = true ∧ faithful f.2 ∧ reads (S d) f.2)
      (x :: fields)).
    { rewrite list.Forall_forall in *. intros f Hin. destruct (Hv f Hin). auto. }
    set (text := join _ _) in *.
    assert (Hst' : starts_value (text +:+ newline st d +:+ "}" +:+ rest)).
    { apply starts_value_app. subst text. by destruct fields. }
    rewrite (starts_value_skip _ Hst'), json_fields_skip by apply Hst.
    assert (Hfields : json_fields fuel dep (text +:+ newline st d +:+ "}" +:+ rest) =
      Some (map (λ f, (f.1, print_value st (S d) f.2, tree st (S d) f.2)) (x :: fields), rest)).
    { apply (reads_fields d (newline st d) (x :: fields)); [done|done|apply Hst|cbn in Hf |- *; lia|cbn in Hd |- *; lia]. }
    rewrite Hfields. cbn [mbind option_bind].
    destruct (text +:+ _) as [|c rest']; [done|]. destruct Hst' as (_ & _ & Hc).
    destruct c as [[] [] [] [] [] [] [] []]; done.
Qed.

End Reading.

Lemma faithful_encodable v : faithful v → encodable v = true.
Proof.
  induction v as [|b|l|s| |items IH|fields IH] using value_ind'; intros Hf; try done.
  - destruct Hf as [_ Hr]. specialize (Hr "" eq_refl). rewrite string_app_nil in Hr. cbn.
    by rewrite Hr.
  - apply faithful_arr in Hf. cbn. apply forallb_forall. intros x Hx%list_elem_of_In.
    rewrite list.Forall_forall in *. auto.
  - apply faithful_obj in Hf. cbn. apply forallb_forall. intros x Hx%list_elem_of_In.
    rewrite list.Forall_forall in *. apply IH; [done|]. by apply Hf.
Qed.
