(* ===== verification/GoJsonDecode.v ===== *)
(** * Decoding JSON into [map[string]any]

    [value_of_json] is what a decoder with [UseNumber] stores in an [any]:
    later members replace earlier ones of the same name, and the keys of a map
    have no order of their own, so they are kept sorted, which is also the
    order in which encoding/json prints them.  [decode_value] after
    [print_value] is the identity on the values decoding can produce. *)

From S2P Require Import Prelude GoText GoTime GoJson GoUtf8 GoJsonText GoJsonValue.
From Stdlib.Strings Require Import Ascii.
From Stdlib Require Import Sorted.

(** ** Maps with string keys, sorted *)

Fixpoint put {A} (k : string) (x : A) (m : list (string * A)) : list (string * A) :=
  match m with
  | [] => [(k, x)]
  | (k', y) :: rest =>
      if str_ltb k k' then (k, x) :: m
      else if String.eqb k k' then (k, x) :: rest
      else (k', y) :: put k x rest
  end.

Definition sorted_keys {A} (m : list (string * A)) : Prop := StronglySorted str_lt (map fst m).

Lemma put_keys {A} k (x : A) m f : f ∈ put k x m → f = (k, x) ∨ f ∈ m.
Proof.
  induction m as [|[k' y] m IH]; cbn.
  - intros ->%list_elem_of_singleton. by left.
  - repeat case_match; rewrite ?elem_of_cons; naive_solver.
Qed.

Lemma put_sorted {A} k (x : A) m : sorted_keys m → sorted_keys (put k x m).
Proof.
  unfold sorted_keys. induction m as [|[k' y] m IH]; cbn; intros Hs; [by repeat constructor|].
  apply StronglySorted_inv in Hs as [Hs Hall].
  destruct (str_ltb k k') eqn:E1; cbn.
  - constructor; [by constructor|]. constructor; [done|].
    eapply list.Forall_impl; [exact Hall|]. intros z Hz. by trans k'.
  - destruct (String.eqb_spec k k') as [->|Hne]; cbn; [by constructor|].
    assert (str_lt k' k) as Hlt.
    { destruct (str_lt_cases k k') as [H|[H|H]]; [unfold str_lt in H; congruence|done|done]. }
    constructor; [by apply IH|]. apply list.Forall_forall. intros z (f & -> & Hf)%list_elem_of_fmap.
    apply put_keys in Hf as [->|Hf]; [done|].
    rewrite list.Forall_forall in Hall. apply Hall. apply list_elem_of_fmap_2. done.
Qed.

(** Inserting the last key of a sorted list appends it. *)
Lemma put_last {A} k (x : A) m :
  Forall (λ f, str_lt f.1 k) m → put k x m = m ++ [(k, x)].
Proof.
  induction 1 as [|[k' y] m Hk _ IH]; cbn; [done|]. cbn in Hk.
  destruct (str_ltb k k') eqn:E.
  { exfalso. apply (irreflexivity str_lt k). by trans k'. }
  destruct (String.eqb_spec k k') as [->|_]; [by apply irreflexivity in Hk; [|apply _]|].
  by rewrite IH.
Qed.

Definition put_all {A} (m l : list (string * A)) : list (string * A) :=
  foldl (λ m f, put f.1 f.2 m) m l.

Lemma put_all_sorted_app {A} (m l : list (string * A)) :
  sorted_keys (m ++ l) → put_all m l = m ++ l.
Proof.
  revert m. induction l as [|[k x] l IH]; intros m Hs; cbn; [by rewrite app_nil_r|].
  rewrite put_last.
  - etrans; [apply (IH (m ++ [(k, x)]))|]; by rewrite <- (assoc_L (++)).
  - unfold sorted_keys in Hs. rewrite map_app in Hs. cbn in Hs. clear IH.
    induction m as [|f m IH]; [constructor|]. cbn in Hs. apply StronglySorted_inv in Hs as [Hs Hall].
    constructor; [|by apply IH]. rewrite list.Forall_forall in Hall. apply Hall.
    apply elem_of_app. right. by left.
Qed.

Lemma put_all_id {A} (l : list (string * A)) : sorted_keys l → put_all [] l = l.
Proof. apply (put_all_sorted_app []). Qed.

Lemma put_all_sorted {A} (l m : list (string * A)) : sorted_keys m → sorted_keys (put_all m l).
Proof.
  revert m. induction l as [|[k x] l IH]; intros m Hs; cbn; [done|]. by apply IH, put_sorted.
Qed.

Lemma put_all_elem {A} (l m : list (string * A)) f : f ∈ put_all m l → f ∈ m ∨ f ∈ l.
Proof.
  revert m. induction l as [|[k x] l IH]; intros m; cbn; [by left|].
  intros [[->|H]%put_keys|H]%IH; rewrite elem_of_cons; auto.
Qed.

(** ** Decoding *)

Fixpoint value_of_json (j : json) : value :=
  match j with
  | JNull => VNull
  | JBool b => VBool b
  | JNum l => VNum l
  | JStr s => VStr s
  | JArr items => VArr (map value_of_json items)
  | JObj fields => VObj (put_all [] (map (λ f, (f.1.1, value_of_json f.2)) fields))
  end.

Definition decode_value (text : string) : option value :=
  j ← parse_json text; Some (value_of_json j).

(** Values with the keys of every object sorted. *)
Fixpoint canonical (v : value) : Prop :=
  match v with
  | VArr items => (fix go l := match l with [] => True | x :: l' => canonical x ∧ go l' end) items
  | VObj fields =>
      sorted_keys fields ∧
      (fix go l := match l with [] => True | f :: l' => canonical f.2 ∧ go l' end) fields
  | _ => True
  end.

Lemma canonical_arr items : canonical (VArr items) ↔ Forall canonical items.
Proof. cbn. induction items as [|x l IH]; [by split; constructor|]. rewrite list.Forall_cons. by rewrite IH. Qed.

Lemma canonical_obj fields :
  canonical (VObj fields) ↔ sorted_keys fields ∧ Forall (λ f, canonical f.2) fields.
Proof.
  cbn. apply and_iff_compat_l.
  induction fields as [|x l IH]; [by split; constructor|]. rewrite list.Forall_cons. by rewrite IH.
Qed.

Lemma value_of_tree st v d : faithful v → canonical v → value_of_json (tree st d v) = v.
Proof.
  revert d. induction v as [|b|l|s| |items IH|fields IH] using value_ind'; intros d Hf Hc; try done.
  - apply faithful_arr in Hf. apply canonical_arr in Hc. cbn. f_equal. rewrite map_map.
    rewrite list.Forall_forall in *. rewrite <- (map_id items) at 2. apply map_ext_in.
    intros x Hx%list_elem_of_In. by apply IH; auto.
  - apply faithful_obj in Hf. apply canonical_obj in Hc as [Hs Hc]. cbn. f_equal. rewrite map_map. cbn.
    rewrite list.Forall_forall in *.
    rewrite (map_ext_in _ id), map_id; [by apply put_all_id|].
    intros [k x] Hx%list_elem_of_In. cbn. f_equal. apply (IH (k, x)); [done|by apply (Hf (k, x))|by apply (Hc (k, x))].
Qed.

(** ** The parser has enough fuel for any printed value *)

Lemma join_length sep l :
  (list_sum (map String.length l) + (length l - 1) * String.length sep =
   String.length (join sep l))%nat.
Proof.
  induction l as [|a l IH]; [done|]. destruct l as [|b l]; [cbn; lia|].
  rewrite join_cons2, !string_length_app, <- IH. cbn. nia.
Qed.

Lemma list_sum_cons n l : list_sum (n :: l) = (n + list_sum l)%nat.
Proof. done. Qed.

Lemma weights_sum w l :
  Forall2 (λ n t, n ≤ String.length t)%nat w l →
  (list_sum (map S w) ≤ list_sum (map String.length l) + length l)%nat.
Proof.
  induction 1; cbn [map length]; rewrite ?list_sum_cons; [done|lia].
Qed.

(** A bracketed list of texts costs at least one character per text and two
    more. *)
Lemma print_list_length st d o c l (w : list nat) :
  String.length o = 1%nat → String.length c = 1%nat →
  Forall2 (λ n t, n ≤ String.length t)%nat w l →
  (S (list_sum (map S w)) ≤ String.length (print_list st d o c l))%nat.
Proof.
  intros Ho Hc Hall. unfold print_list. destruct l as [|t l].
  { inversion Hall; subst. rewrite string_length_app. cbn. lia. }
  rewrite !string_length_app, <- join_length, string_length_app.
  pose proof (weights_sum _ _ Hall). change (String.length ",") with 1%nat.
  cbn [length] in *. nia.
Qed.

Lemma weight_length st v d : faithful v → (weight v ≤ String.length (print_value st d v))%nat.
Proof.
  revert d. induction v as [|b|l|s| |items IH|fields IH] using value_ind'; intros d Hf; try done.
  - cbn. lia.
  - destruct b; cbn; lia.
  - destruct Hf as [(c & s & -> & _) _]. cbn. lia.
  - cbn. lia.
  - apply faithful_arr in Hf. cbn [weight print_value].
    rewrite <- (map_map weight S). apply print_list_length; [done|done|].
    induction items as [|x items IHl]; [constructor|].
    apply list.Forall_cons in IH as [? ?], Hf as [? ?]. constructor; auto.
  - apply faithful_obj in Hf. cbn [weight print_value].
    rewrite <- (map_map (λ f, weight f.2) S). apply print_list_length; [done|done|].
    induction fields as [|x fields IHl]; [constructor|].
    apply list.Forall_cons in IH as [Hx ?], Hf as [[_ Hfx] ?]. constructor; [|auto].
    rewrite !string_length_app. specialize (Hx (S d) Hfx). cbn in Hx |- *. lia.
Qed.

(** ** Round trip *)

Lemma parse_print st v w :
  white_style st → faithful v → (height v ≤ max_depth)%nat → white w →
  parse_json (print_value st 0 v +:+ w) = Some (tree st 0 v).
Proof.
  intros Hst Hf Hh Hw. unfold parse_json. pose proof (weight_length st v 0 Hf) as Hwt.
  rewrite (reads_value st Hst v 0 Hf).
  - rewrite <- (string_app_nil w) in Hw |- *. rewrite skip_ws_app; [done|]. by rewrite string_app_nil in Hw.
  - rewrite string_length_app. lia.
  - done.
  - destruct w as [|c w]; [done|]. unfold white in Hw. cbn [all_chars] in Hw.
    apply andb_true_iff in Hw as [Hc _].
    destruct c as [[] [] [] [] [] [] [] []]; try discriminate Hc; done.
Qed.

Lemma decode_print st v w :
  white_style st → faithful v → canonical v → (height v ≤ max_depth)%nat → white w →
  decode_value (print_value st 0 v +:+ w) = Some v.
Proof.
  intros Hst Hf Hc Hh Hw. unfold decode_value. rewrite parse_print by done. cbn.
  by rewrite value_of_tree.
Qed.

(** ** What decoding produces *)

(** Trees as the parser builds them, with the nesting it allows. *)
Inductive decoded : nat → json → Prop :=
  | decoded_null dep : decoded dep JNull
  | decoded_bool dep b : decoded dep (JBool b)
  | decoded_num dep l : number_text l → decoded dep (JNum l)
  | decoded_str dep s : valid_utf8 (codes s) = true → decoded dep (JStr s)
  | decoded_arr dep items : Forall (decoded dep) items → decoded (S dep) (JArr items)
  | decoded_obj dep fields :
      Forall (λ f, valid_utf8 (codes f.1.1) = true ∧ decoded dep f.2) fields →
      decoded (S dep) (JObj fields).

Lemma json_decoded fuel :
  (∀ dep s j rest, json_value fuel dep s = Some (j, rest) → decoded dep j) ∧
  (∀ dep s fields rest, json_fields fuel dep s = Some (fields, rest) →
     Forall (λ f, valid_utf8 (codes f.1.1) = true ∧ decoded dep f.2) fields) ∧
  (∀ dep s items rest, json_items fuel dep s = Some (items, rest) → Forall (decoded dep) items).
Proof.
  induction fuel as [|fuel (IHv & IHf & IHi)]; [done|]. split_and!.
  - intros dep s j rest H. cbn [json_value] in H. destruct (skip_ws s) as [|c s']; [done|].
    destruct (Ascii.eqb c "{").
    { destruct dep as [|dep]; [done|].
      assert (∀ r, json_fields fuel dep s' ≫= (λ '(fields, rest'), Some (JObj fields, rest')) = Some (j, r) →
        decoded (S dep) j) as Hf.
      { intros r. destruct (json_fields fuel dep s') as [[fields rest']|] eqn:E; cbn; [|done].
        intros [= <- _]. constructor. by eapply IHf. }
      repeat case_match; try (by eapply Hf). injection H as <- _. repeat constructor. }
    destruct (Ascii.eqb c "[").
    { destruct dep as [|dep]; [done|].
      assert (∀ r, json_items fuel dep s' ≫= (λ '(items, rest'), Some (JArr items, rest')) = Some (j, r) →
        decoded (S dep) j) as Hf.
      { intros r. destruct (json_items fuel dep s') as [[items rest']|] eqn:E; cbn; [|done].
        intros [= <- _]. constructor. by eapply IHi. }
      repeat case_match; try (by eapply Hf). injection H as <- _. repeat constructor. }
    destruct (code c =? 34).
    { destruct (json_string s') as [[text r]|] eqn:E; cbn in H; [|done]. injection H as <- _.
      constructor. by eapply json_string_utf8. }
    destruct (_ || _).
    { destruct (json_number (String c s')) as [[l r]|] eqn:E; cbn in H; [|done].
      injection H as <- _. constructor. by eapply json_number_text. }
    repeat case_match; try done; injection H as <- _; constructor.
  - intros dep s fields rest H. cbn [json_fields] in H. destruct (skip_ws s) as [|q s']; [done|].
    destruct (negb (code q =? 34)); [done|].
    destruct (json_string s') as [[key r1]|] eqn:Ek; cbn [mbind option_bind] in H; [|done].
    destruct (skip_ws r1) as [|c r2]; [done|].
    assert (∀ fs r, json_value fuel dep r2 ≫= (λ '(v, r3),
        let field := (key, consumed (skip_ws r2) r3, v) in
        match skip_ws r3 with
        | String "," r4 => '(fields, r5) ← json_fields fuel dep r4; Some (field :: fields, r5)
        | String "}" r4 => Some ([field], r4)
        | _ => None
        end) = Some (fs, r) →
      Forall (λ f, valid_utf8 (codes f.1.1) = true ∧ decoded dep f.2) fs) as Hv.
    { intros fs r. destruct (json_value fuel dep r2) as [[v r3]|] eqn:Ev; cbn [mbind option_bind]; [|done].
      apply IHv in Ev. apply json_string_utf8 in Ek. cbv zeta.
      destruct (skip_ws r3) as [|x r4]; [done|].
      destruct x as [[] [] [] [] [] [] [] []]; try done; [intros [= <- _]; by repeat constructor|].
      destruct (json_fields fuel dep r4) as [[fs' r5]|] eqn:Ef; cbn; [|done].
      intros [= <- _]. constructor; [done|]. by eapply IHf. }
    destruct c as [[] [] [] [] [] [] [] []]; try done. by eapply Hv.
  - intros dep s items rest H. cbn [json_items] in H.
    destruct (json_value fuel dep s) as [[v r1]|] eqn:Ev; cbn [mbind option_bind] in H; [|done].
    apply IHv in Ev. destruct (skip_ws r1) as [|x r2]; [done|].
    destruct x as [[] [] [] [] [] [] [] []]; try done.
    + injection H as <- _. by repeat constructor.
    + destruct (json_items fuel dep r2) as [[l r3]|] eqn:Ei; cbn in H; [|done].
      injection H as <- _. constructor; [done|]. by eapply IHi.
Qed.

Lemma parse_json_decoded text j : parse_json text = Some j → decoded max_depth j.
Proof.
  unfold parse_json. destruct (json_value _ _ text) as [[v rest]|] eqn:E; [|done].
  case_match; [|done]. intros [= <-]. by eapply (proj1 (json_decoded _)).
Qed.

(** Induction on the parsed trees through their members. *)
Fixpoint decoded_value dep (j : json) (H : decoded dep j) {struct H} :
    faithful (value_of_json j) ∧ canonical (value_of_json j) ∧ (height (value_of_json j) ≤ dep)%nat.
Proof.
  destruct H as [|dep b|dep l Hl|dep s Hs|dep items Hi|dep fields Hf]; cbn [value_of_json];
    try (split_and!; [done|done|cbn; lia]).
  - rewrite faithful_arr, canonical_arr. cbn [height].
    enough (Forall faithful (map value_of_json items) ∧ Forall canonical (map value_of_json items) ∧
      Forall (λ n, n ≤ dep)%nat (map height (map value_of_json items))) as (? & ? & ?%list_max_le).
    { split_and!; [done|done|lia]. }
    induction Hi as [|x l Hx _ IH]; [by split_and!; constructor|].
    destruct (decoded_value dep x Hx) as (? & ? & ?), IH as (? & ? & ?). by split_and!; constructor.
  - rewrite faithful_obj, canonical_obj. cbn [height].
    set (l := map _ fields).
    assert (Forall (λ f, valid_utf8 (codes f.1) = true ∧ faithful f.2 ∧ canonical f.2 ∧
      (height f.2 ≤ dep)%nat) l) as Hl.
    { subst l. induction Hf as [|x l [Hk Hx] _ IH]; [constructor|]. constructor; [|done].
      split; [done|]. exact (decoded_value dep _ Hx). }
    rewrite list.Forall_forall in Hl.
    assert (∀ f, f ∈ put_all [] l → valid_utf8 (codes f.1) = true ∧ faithful f.2 ∧ canonical f.2 ∧
      (height f.2 ≤ dep)%nat) as Hall.
    { intros f [Hn|Hin]%put_all_elem; [by apply not_elem_of_nil in Hn|auto]. }
    split_and!.
    + apply list.Forall_forall. intros f Hin. by destruct (Hall f Hin) as (? & ? & _).
    + apply put_all_sorted. constructor.
    + apply list.Forall_forall. intros f Hin. by destruct (Hall f Hin) as (_ & _ & ? & _).
    + apply le_n_S, list_max_le, list.Forall_forall. intros n (f & -> & Hin)%list_elem_of_fmap.
      by destruct (Hall f Hin) as (_ & _ & _ & ?).
Qed.

(** Whatever text is decoded, the value prints to a text that decodes to the
    same value. *)
Lemma decode_value_good text v :
  decode_value text = Some v → faithful v ∧ canonical v ∧ (height v ≤ max_depth)%nat.
Proof.
  unfold decode_value. destruct (parse_json text) as [j|] eqn:E; cbn [mbind option_bind]; [|done].
  intros [= <-]. by eapply decoded_value, parse_json_decoded.
Qed.

(** ** Struct decoding that ignores unknown members

    The default of encoding/json; [assign_fields] of GoJson is the strict
    variant. *)
Fixpoint assign_known {R} (names : list string)
    (assign : string → string → json → R → option R)
    (fields : list (string * string * json)) (r : R) : option R :=
  match fields with
  | [] => Some r
  | (key, raw, v) :: rest =>
      match match_field names key with
      | None => assign_known names assign rest r
      | Some name => r' ← assign name raw v r; assign_known names assign rest r'
      end
  end.

Definition lax_struct_of_json {R} (names : list string)
    (assign : string → string → json → R → option R) (zero : R) (v : json) : option R :=
  match v with
  | JNull => Some zero
  | JObj fields => assign_known names assign fields zero
  | _ => None
  end.

(** Decoding into a [map[string]any]: a member is added to the map that is
    already there, [null] makes the map nil. *)
Definition map_of_json (current : option (list (string * value))) (v : json)
    : option (option (list (string * value))) :=
  match v with
  | JNull => Some None
  | JObj fields =>
      Some (Some (put_all (match current with Some m => m | None => [] end)
                    (map (λ f, (f.1.1, value_of_json f.2)) fields)))
  | _ => None
  end.

(** ** Lookup in a sorted map *)
Fixpoint get {A} (k : string) (m : list (string * A)) : option A :=
  match m with
  | [] => None
  | (k', x) :: rest => if String.eqb k k' then Some x else get k rest
  end.

Lemma get_Some {A} k (x : A) m : get k m = Some x → (k, x) ∈ m.
Proof.
  induction m as [|[k' y] m IH]; cbn; [done|].
  destruct (String.eqb_spec k k') as [->|_]; [intros [= ->]; by left|]. intros. right. auto.
Qed.

Lemma get_put {A} k k' (x : A) m :
  get k (put k' x m) = if String.eqb k k' then Some x else get k m.
Proof.
  induction m as [|[j y] m IH]; cbn; [done|].
  destruct (str_ltb k' j) eqn:E1; cbn; [done|].
  destruct (String.eqb_spec k' j) as [->|Hne]; cbn; [by destruct (String.eqb k j)|].
  rewrite IH. destruct (String.eqb_spec k j) as [->|]; [|done].
  destruct (String.eqb_spec j k') as [->|]; done.
Qed.

Lemma get_elem {A} k (x : A) m : sorted_keys m → (k, x) ∈ m → get k m = Some x.
Proof.
  unfold sorted_keys. induction m as [|[k' y] m IH]; cbn; intros Hs Hin.
  { by apply not_elem_of_nil in Hin. }
  apply StronglySorted_inv in Hs as [Hs Hall].
  apply elem_of_cons in Hin as [[= <- <-]|Hin]; [by rewrite String.eqb_refl|].
  destruct (String.eqb_spec k k') as [->|_]; [|by apply IH].
  rewrite list.Forall_forall in Hall. exfalso. apply (irreflexivity str_lt k').
  apply Hall. by apply (list_elem_of_fmap_2 fst m (k', x)).
Qed.
