(* ===== verification/GoJsonStruct.v ===== *)
(** * Struct types in JSON

    A struct type is described by its fields: the JSON name, the lens of the
    Go field, and how its values are written and read.  [decode_struct] is
    encoding/json's decoder (case-insensitive names, unknown members ignored);
    the strict decoders of the program check the members of the object first
    ([exact_members]) and then use it.  [decode_same] is the round trip: a
    struct is read back from its object whatever the order of the members, so
    also after a detour through a [map[string]any]. *)

From S2P Require Import Prelude GoText GoTime GoJson GoUtf8 GoJsonText GoJsonValue GoJsonDecode.
From Stdlib.Strings Require Import Ascii.
From Stdlib Require Import Sorted.

(** ** Values up to the order of object members *)

Inductive same : value → value → Prop :=
  | same_refl v : same v v
  | same_arr l l' : Forall2 same l l' → same (VArr l) (VArr l')
  | same_obj l m l' :
      Forall2 (λ a b, a.1 = b.1 ∧ same a.2 b.2) l m → m ≡ₚ l' → same (VObj l) (VObj l').

Lemma same_obj_inv l v :
  same (VObj l) v →
  ∃ m l', v = VObj l' ∧ Forall2 (λ a b, a.1 = b.1 ∧ same a.2 b.2) l m ∧ m ≡ₚ l'.
Proof.
  inversion 1 as [|?|? m l' Hm Hp]; subst.
  - exists l, l. split_and!; [done| |done]. apply list.Forall2_same_length_lookup_2; [done|].
    intros i x y Hx Hy. rewrite Hx in Hy. injection Hy as <-. split; [done|constructor].
  - by exists m, l'.
Qed.

Lemma same_arr_inv l v : same (VArr l) v → ∃ l', v = VArr l' ∧ Forall2 same l l'.
Proof.
  inversion 1 as [|? l' Hm|]; subst; [|by exists l'].
  exists l. split; [done|]. apply list.Forall2_same_length_lookup_2; [done|].
  intros i x y Hx Hy. rewrite Hx in Hy. injection Hy as <-. constructor.
Qed.

(** Every object of the value has each key once. *)
Fixpoint distinct (v : value) : Prop :=
  match v with
  | VArr items => (fix go l := match l with [] => True | x :: l' => distinct x ∧ go l' end) items
  | VObj fields =>
      NoDup (map fst fields) ∧
      (fix go l := match l with [] => True | f :: l' => distinct f.2 ∧ go l' end) fields
  | _ => True
  end.

Lemma distinct_arr items : distinct (VArr items) ↔ Forall distinct items.
Proof. cbn. induction items as [|x l IH]; [by split; constructor|]. rewrite list.Forall_cons. by rewrite IH. Qed.

Lemma distinct_obj fields :
  distinct (VObj fields) ↔ NoDup (map fst fields) ∧ Forall (λ f, distinct f.2) fields.
Proof.
  cbn. apply and_iff_compat_l.
  induction fields as [|x l IH]; [by split; constructor|]. rewrite list.Forall_cons. by rewrite IH.
Qed.

Lemma sorted_keys_NoDup {A} (m : list (string * A)) : sorted_keys m → NoDup (map fst m).
Proof.
  unfold sorted_keys. generalize (map fst m). intros l. induction 1 as [|k l _ IH Hk]; constructor; [|done].
  intros Hin. rewrite list.Forall_forall in Hk. by apply (irreflexivity str_lt k), Hk.
Qed.

Lemma canonical_distinct v : canonical v → distinct v.
Proof.
  induction v as [| | | | |items IH|fields IH] using value_ind'; intros Hc; try done.
  - apply canonical_arr in Hc. apply distinct_arr. rewrite list.Forall_forall in *. auto.
  - apply canonical_obj in Hc as [Hs Hc]. apply distinct_obj. split; [by apply sorted_keys_NoDup|].
    rewrite list.Forall_forall in *. auto.
Qed.

Lemma distinct_tree st v d : distinct v → no_duplicate_keys (tree st d v) = true.
Proof.
  revert d. induction v as [| | | | |items IH|fields IH] using value_ind'; intros d Hd; try done.
  - apply distinct_arr in Hd. cbn. apply forallb_forall. intros j Hj%list_elem_of_In.
    apply list_elem_of_fmap in Hj as (x & -> & Hx). rewrite list.Forall_forall in *. auto.
  - apply distinct_obj in Hd as [Hn Hd]. cbn. apply andb_true_iff. split.
    + apply bool_decide_eq_true. by rewrite map_map.
    + apply forallb_forall. intros j Hj%list_elem_of_In.
      apply list_elem_of_fmap in Hj as (x & -> & Hx). rewrite list.Forall_forall in *. cbn. auto.
Qed.

(** ** The value after a detour through a map *)

(** [json.Marshal] and then [json.Unmarshal] into an [any]. *)
Definition canon (v : value) : value := value_of_json (tree compact 0 v).

Lemma put_perm {A} k (x : A) m : k ∉ map fst m → put k x m ≡ₚ (k, x) :: m.
Proof.
  induction m as [|[k' y] m IH]; cbn; [done|]. rewrite not_elem_of_cons. intros [Hne Hin].
  destruct (str_ltb k k'); [done|]. destruct (String.eqb_spec k k'); [done|].
  rewrite IH by done. constructor.
Qed.

Lemma put_all_perm {A} (l m : list (string * A)) :
  NoDup (map fst (m ++ l)) → put_all m l ≡ₚ m ++ l.
Proof.
  revert m. induction l as [|[k x] l IH]; intros m Hn; cbn; [by rewrite app_nil_r|].
  rewrite map_app in Hn. cbn in Hn.
  assert (k ∉ map fst m) as Hk.
  { apply list.NoDup_app in Hn as (_ & Hd & _). intros Hin. by apply (Hd k Hin), list_elem_of_here. }
  assert (Hp : put k x m ++ l ≡ₚ m ++ (k, x) :: l).
  { rewrite put_perm by done. cbn. by rewrite Permutation_middle. }
  unfold put_all in *. cbn [fst snd]. rewrite IH; [done|].
  change (NoDup (fst <$> (put k x m ++ l))). rewrite Hp.
  change (NoDup (map fst (m ++ (k, x) :: l))). by rewrite map_app.
Qed.

Lemma tree_value st v d : value_of_json (tree st d v) = canon v.
Proof.
  unfold canon. generalize compact as st', 0%nat as d'. revert st d.
  induction v as [| | | | |items IH|fields IH] using value_ind'; intros st d st' d'; try done.
  - cbn. f_equal. rewrite !map_map. apply map_ext_in. intros x Hx%list_elem_of_In.
    rewrite list.Forall_forall in IH. by apply IH.
  - cbn. do 2 f_equal. rewrite !map_map. apply map_ext_in. intros x Hx%list_elem_of_In.
    rewrite list.Forall_forall in IH. cbn. f_equal. by apply IH.
Qed.

Lemma canon_arr items : canon (VArr items) = VArr (map canon items).
Proof. unfold canon at 1. cbn. f_equal. rewrite map_map. apply map_ext. intros x. apply tree_value. Qed.

Lemma canon_obj fields :
  canon (VObj fields) = VObj (put_all [] (map (λ f, (f.1, canon f.2)) fields)).
Proof.
  unfold canon at 1. cbn. do 2 f_equal. rewrite map_map. apply map_ext. intros x. cbn. f_equal.
  apply tree_value.
Qed.

Lemma same_canon v : faithful v → distinct v → same v (canon v).
Proof.
  induction v as [| | | | |items IH|fields IH] using value_ind'; intros Hf Hd; try (by constructor); try done.
  - apply distinct_arr in Hd. apply faithful_arr in Hf. rewrite canon_arr. constructor.
    induction items as [|x l IHl]; cbn; [constructor|]. decompose_Forall_hyps. constructor; auto.
  - apply distinct_obj in Hd as [Hn Hd]. apply faithful_obj in Hf. rewrite canon_obj.
    eapply same_obj with (m := map (λ f, (f.1, canon f.2)) fields).
    + clear Hn. induction fields as [|x l IHl]; cbn; [constructor|]. decompose_Forall_hyps.
      constructor; [|by apply IHl]. split; [done|]. naive_solver.
    + symmetry. apply (put_all_perm _ []). cbn. by rewrite map_map.
Qed.

Lemma canon_canonical v : canonical (canon v).
Proof.
  induction v as [| | | | |items IH|fields IH] using value_ind'; try done.
  - rewrite canon_arr. apply canonical_arr. by apply Forall_fmap.
  - rewrite canon_obj. apply canonical_obj. split; [apply put_all_sorted; constructor|].
    apply list.Forall_forall. intros f [Hn|Hin]%put_all_elem; [by apply not_elem_of_nil in Hn|].
    apply list_elem_of_fmap in Hin as (g & -> & Hg). rewrite list.Forall_forall in IH. by apply IH.
Qed.

Lemma canon_faithful v : faithful v → faithful (canon v).
Proof.
  induction v as [| | | | |items IH|fields IH] using value_ind'; intros Hf; try done.
  - apply faithful_arr in Hf. rewrite canon_arr. apply faithful_arr, list.Forall_forall.
    intros x (y & -> & Hy)%list_elem_of_fmap. rewrite list.Forall_forall in *. auto.
  - apply faithful_obj in Hf. rewrite canon_obj. apply faithful_obj, list.Forall_forall.
    intros f [Hn|Hin]%put_all_elem; [by apply not_elem_of_nil in Hn|].
    apply list_elem_of_fmap in Hin as (g & -> & Hg). rewrite list.Forall_forall in *.
    destruct (Hf g Hg). split; [done|]. by apply IH.
Qed.

Lemma canon_height v : (height (canon v) ≤ height v)%nat.
Proof.
  induction v as [| | | | |items IH|fields IH] using value_ind'; try (cbn; lia).
  - rewrite canon_arr. cbn [height]. apply le_n_S, list_max_le, list.Forall_forall.
    intros n (x & -> & Hx)%list_elem_of_fmap. apply list_elem_of_fmap in Hx as (y & -> & Hy).
    rewrite list.Forall_forall in IH. etrans; [by apply IH|].
    pose proof (proj1 (list_max_le (map height items) (list_max (map height items))) ltac:(lia)) as H.
    rewrite list.Forall_forall in H. apply H. by apply list_elem_of_fmap_2.
  - rewrite canon_obj. cbn [height]. apply le_n_S, list_max_le, list.Forall_forall.
    intros n (x & -> & [Hn|Hx]%put_all_elem)%list_elem_of_fmap; [by apply not_elem_of_nil in Hn|].
    apply list_elem_of_fmap in Hx as (y & -> & Hy).
    rewrite list.Forall_forall in IH. cbn [snd]. etrans; [by apply IH|].
    set (hs := map (λ f : string * value, height f.2) fields).
    pose proof (proj1 (list_max_le hs (list_max hs)) ltac:(lia)) as H.
    rewrite list.Forall_forall in H. apply H. by apply (list_elem_of_fmap_2 (λ f : string * value, height f.2)).
Qed.

(** ** Struct fields *)

Record field (R : Type) := mkField {
  fname : string;
  ftype : Type;
  fget : R → ftype;
  fset : ftype → R → R;
  fenc : ftype → option value;                     (* [None]: omitted when empty *)
  fdec : ftype → string → json → option ftype      (* current value, raw text, tree *)
}.
Arguments mkField {R} fname {ftype} fget fset fenc fdec.
Arguments fname {R} f.
Arguments ftype {R} f.
Arguments fget {R} f r.
Arguments fset {R} f x r.
Arguments fenc {R} f x.
Arguments fdec {R} f x raw j.

Section Struct.
Context {R : Type}.
Implicit Types (fields : list (field R)) (r : R).

Definition names fields : list string := map fname fields.

Fixpoint assign_member fields (name raw : string) (j : json) (r : R) : option R :=
  match fields with
  | [] => Some r
  | f :: rest =>
      if String.eqb name (fname f) then x ← fdec f (fget f r) raw j; Some (fset f x r)
      else assign_member rest name raw j r
  end.

(** Decoding into a struct that has the value [zero]. *)
Definition decode_struct fields (zero : R) : json → option R :=
  lax_struct_of_json (names fields) (assign_member fields) zero.

Definition encode_field (r : R) (f : field R) : list (string * value) :=
  match fenc f (fget f r) with Some v => [(fname f, v)] | None => [] end.

Definition encode_struct fields r : value := VObj (flat_map (encode_field r) fields).

(** ** Reading a struct back *)

(** The fields have different names and do not overlap. *)
Fixpoint disjoint_fields fields : Prop :=
  match fields with
  | [] => True
  | f :: rest =>
      Forall (λ g, fname f ≠ fname g ∧ ∀ x y r, fset f x (fset g y r) = fset g y (fset f x r)) rest ∧
      disjoint_fields rest
  end.

Definition reads_back r (f : field R) : Prop :=
  ∀ v, fenc f (fget f r) = Some v →
  ∀ v' current st d, white_style st → same v v' →
  fdec f current (print_value st d v') (tree st d v') = Some (fget f r).

Definition copy_field r (acc : R) (f : field R) : R := fset f (fget f r) acc.

Definition present r (f : field R) : bool := is_some (fenc f (fget f r)).

(** What decoding all the fields that are present gives. *)
Definition rebuild fields zero r : R := foldl (copy_field r) zero (List.filter (present r) fields).

Lemma disjoint_names fields : disjoint_fields fields → NoDup (names fields).
Proof.
  induction fields as [|f l IH]; cbn; [constructor|]. intros [Hf Hl]. constructor; [|auto].
  intros (g & Heq & Hg)%list_elem_of_fmap. rewrite list.Forall_forall in Hf. by destruct (Hf g Hg).
Qed.

Lemma disjoint_same_name fields f g :
  disjoint_fields fields → f ∈ fields → g ∈ fields → fname f = fname g → f = g.
Proof.
  induction fields as [|h l IH]; cbn; [by intros ? ?%not_elem_of_nil|]. intros [Hh Hl].
  rewrite list.Forall_forall in Hh. rewrite !elem_of_cons.
  intros [->|Hf] [->|Hg] Heq; [done| | |auto].
  - by destruct (Hh g Hg).
  - by destruct (Hh f Hf).
Qed.

Lemma disjoint_commute fields r f g acc :
  disjoint_fields fields → f ∈ fields → g ∈ fields →
  copy_field r (copy_field r acc f) g = copy_field r (copy_field r acc g) f.
Proof.
  unfold copy_field. induction fields as [|h l IH]; cbn; [by intros ? ?%not_elem_of_nil|].
  intros [Hh Hl]. rewrite list.Forall_forall in Hh. rewrite !elem_of_cons.
  intros [->|Hf] [->|Hg]; [done| | |auto].
  - by destruct (Hh g Hg) as [_ ->].
  - by destruct (Hh f Hf) as [_ ->].
Qed.

Lemma copy_fields_perm fields r l l' acc :
  disjoint_fields fields → l ⊆ fields → l ≡ₚ l' →
  foldl (copy_field r) acc l = foldl (copy_field r) acc l'.
Proof.
  intros Hd Hl Hp. revert acc Hl. induction Hp as [|f l l' _ IH|f g l|l l' l'' H1 IH1 _ IH2]; intros acc Hl.
  - done.
  - cbn. apply IH. intros x Hx. apply Hl. by right.
  - cbn. f_equal. eapply disjoint_commute; [done|apply Hl..]; [by left|by right; left].
  - rewrite IH1 by done. apply IH2. intros x Hx. apply Hl. by rewrite H1.
Qed.

Lemma assign_member_field fields f raw j r :
  disjoint_fields fields → f ∈ fields →
  assign_member fields (fname f) raw j r = x ← fdec f (fget f r) raw j; Some (fset f x r).
Proof.
  induction fields as [|g l IH]; cbn; [by intros ? ?%not_elem_of_nil|]. intros [Hg Hl].
  destruct (String.eqb_spec (fname f) (fname g)) as [Heq|Hne].
  - intros Hf. by rewrite (disjoint_same_name (g :: l) f g) by (cbn; (auto || by left)).
  - intros [->|Hf]%elem_of_cons; [done|auto].
Qed.

Lemma match_field_name fields f : f ∈ fields → match_field (names fields) (fname f) = Some (fname f).
Proof.
  intros Hf. unfold match_field. rewrite bool_decide_eq_true_2; [done|]. by apply list_elem_of_fmap_2.
Qed.

(** A member of the object written for a field of [r]. *)
Definition written r (f : field R) (m : string * value) : Prop :=
  fname f = m.1 ∧ ∃ v, fenc f (fget f r) = Some v ∧ same v m.2.

Lemma assign_written fields r st d fs ms acc :
  white_style st →
  disjoint_fields fields → Forall (reads_back r) fields → fs ⊆ fields →
  Forall2 (written r) fs ms →
  assign_known (names fields) (assign_member fields)
    (map (λ f, (f.1, print_value st d f.2, tree st d f.2)) ms) acc =
  Some (foldl (copy_field r) acc fs).
Proof.
  intros Hst Hd Hr Hs Hw. revert acc. induction Hw as [|f [k v'] fs ms [Hk (v & Hv & Hsame)] _ IH]; intros acc; [done|].
  assert (Hf : f ∈ fields) by (apply Hs; by left).
  cbn [map assign_known fst snd] in *. subst k. rewrite match_field_name by done.
  rewrite assign_member_field by done. rewrite list.Forall_forall in Hr.
  rewrite (Hr f Hf v Hv _ _ st d Hst Hsame). cbn [mbind option_bind foldl].
  apply IH. intros x Hx. apply Hs. by right.
Qed.

Lemma encode_written fields r ms :
  Forall2 (λ a b, a.1 = b.1 ∧ same a.2 b.2) (flat_map (encode_field r) fields) ms →
  Forall2 (written r) (List.filter (present r) fields) ms.
Proof.
  revert ms. induction fields as [|f l IH]; intros ms; cbn.
  { intros ->%Forall2_nil_inv_l. constructor. }
  unfold encode_field at 1, present at 1. destruct (fenc f (fget f r)) as [v|] eqn:E; cbn; [|apply IH].
  intros (m & ms' & [Hk Hs] & Hrest & ->)%Forall2_cons_inv_l.
  constructor; [split; [done|by exists v]|by apply IH].
Qed.

Lemma decode_same fields zero r st d v :
  white_style st →
  disjoint_fields fields → Forall (reads_back r) fields → rebuild fields zero r = r →
  same (encode_struct fields r) v → decode_struct fields zero (tree st d v) = Some r.
Proof.
  intros Hst Hd Hr Hb (m & l & -> & Hm & Hp)%same_obj_inv.
  apply encode_written in Hm. assert (Hm' : Forall2 (flip (written r)) m (List.filter (present r) fields))
    by (by apply list.Forall2_flip).
  destruct (Permutation_Forall2 Hp Hm') as (fs & Hfs & Hw). apply list.Forall2_flip in Hw.
  assert (Hin : List.filter (present r) fields ⊆ fields).
  { intros f. rewrite !list_elem_of_In, List.filter_In. by intros []. }
  unfold decode_struct. cbn [tree lax_struct_of_json].
  rewrite (assign_written fields r st (S d) fs l zero Hst Hd Hr); [|by rewrite <- Hfs|exact Hw].
  rewrite <- (copy_fields_perm fields r _ fs zero Hd Hin Hfs). by f_equal.
Qed.

(** ** Values a field carries unchanged *)

(** [x] is written as a proper value and read from it, in any member order. *)
Definition carried {A} (v : value) (dec : A → string → json → option A) (x : A) : Prop :=
  faithful v ∧ distinct v ∧
  ∀ v' current st d, white_style st → same v v' → dec current (print_value st d v') (tree st d v') = Some x.

Definition carries r (f : field R) : Prop :=
  valid_utf8 (codes (fname f)) = true ∧
  ∀ v, fenc f (fget f r) = Some v → carried v (fdec f) (fget f r).

Lemma encode_member fields r m :
  m ∈ flat_map (encode_field r) fields →
  ∃ f, f ∈ fields ∧ fname f = m.1 ∧ fenc f (fget f r) = Some m.2.
Proof.
  rewrite list_elem_of_In, in_flat_map. intros (f & Hf & Hm). exists f. rewrite list_elem_of_In.
  unfold encode_field in Hm. destruct (fenc f (fget f r)) as [v|]; [|done]. by destruct Hm as [<-|[]].
Qed.

Lemma encode_keys fields r :
  map fst (flat_map (encode_field r) fields) = map fname (List.filter (present r) fields).
Proof.
  induction fields as [|f l IH]; cbn; [done|]. rewrite map_app, IH.
  unfold encode_field, present. by destruct (fenc f (fget f r)).
Qed.

Lemma struct_carried fields zero r :
  disjoint_fields fields → Forall (carries r) fields → rebuild fields zero r = r →
  carried (encode_struct fields r) (λ _ _, decode_struct fields zero) r.
Proof.
  intros Hd Hc Hb. rewrite list.Forall_forall in Hc. unfold carried. split_and!.
  - apply faithful_obj, list.Forall_forall. intros m (f & Hf & <- & Hv)%encode_member.
    destruct (Hc f Hf) as [Hn Hx]. split; [done|]. by apply Hx.
  - apply distinct_obj. split.
    + rewrite encode_keys. apply disjoint_names in Hd. unfold names in Hd. revert Hd. clear.
      induction fields as [|f l IH]; cbn; [done|]. intros [Hn Hd]%list.NoDup_cons.
      destruct (present r f); cbn; [|auto]. constructor; [|auto].
      intros (g & Heq & Hg)%list_elem_of_fmap. apply Hn. rewrite Heq. apply list_elem_of_fmap_2.
      revert Hg. rewrite !list_elem_of_In, List.filter_In. by intros [].
    + apply list.Forall_forall. intros m (f & Hf & _ & Hv)%encode_member.
      destruct (Hc f Hf) as [_ Hx]. by apply Hx.
  - intros v' _ st d Hst Hs. apply (decode_same fields zero r); [done|done| |done|done].
    apply list.Forall_forall. intros f Hf v Hv v'' cur st' d' Hst' Hsame.
    destruct (Hc f Hf) as [_ Hx]. destruct (Hx v Hv) as (_ & _ & Hdec). by apply Hdec.
Qed.

End Struct.

(** ** The kinds of fields *)

Section Fields.
Context {R : Type}.

Definition str_field (name : string) (get : R → string) (set : string → R → R) : field R :=
  mkField name get set (λ s, Some (VStr s)) (λ current _ j, string_of_json current j).

(** [omitempty] *)
Definition str_omit_field (name : string) (get : R → string) (set : string → R → R) : field R :=
  mkField name get set (λ s, if String.eqb s "" then None else Some (VStr s))
    (λ current _ j, string_of_json current j).

Definition int_field (name : string) (get : R → Z) (set : Z → R → R) : field R :=
  mkField name get set (λ z, Some (VNum (itoa z))) (λ current _ j, int_of_json current j).

Definition bool_field (name : string) (get : R → bool) (set : bool → R → R) : field R :=
  mkField name get set (λ b, Some (VBool b)) (λ current _ j, bool_of_json current j).

(** A pointer to a string. *)
Definition pointer_of_json (current : option string) (j : json) : option (option string) :=
  match j with JNull => Some None | JStr s => Some (Some s) | _ => None end.

Definition str_pointer_field (name : string) (get : R → option string) (set : option string → R → R)
    : field R :=
  mkField name get set (λ o, Some (match o with Some s => VStr s | None => VNull end))
    (λ current _ j, pointer_of_json current j).

(** A field whose type has its own codec. *)
Definition sub_field {A} (name : string) (get : R → A) (set : A → R → R)
    (enc : A → value) (dec : A → json → option A) : field R :=
  mkField name get set (λ x, Some (enc x)) (λ current _ j, dec current j).

Lemma carries_str name get set r :
  valid_utf8 (codes name) = true → valid_utf8 (codes (get r)) = true →
  carries r (str_field name get set).
Proof.
  intros Hn Hs. split; [done|]. intros v [= <-]. split_and!; [done|done|].
  intros v' current st d Hst. by inversion 1.
Qed.

Lemma carries_str_omit name get set r :
  valid_utf8 (codes name) = true → valid_utf8 (codes (get r)) = true →
  carries r (str_omit_field name get set).
Proof.
  intros Hn Hs. split; [done|]. cbn. intros v. destruct (String.eqb (get r) ""); [done|].
  intros [= <-]. split_and!; [done|done|]. intros v' current st d Hst. by inversion 1.
Qed.

Lemma int_of_itoa z current : 0 ≤ z ≤ max_int64 → int_of_json current (JNum (itoa z)) = Some z.
Proof.
  intros Hz. destruct (itoa_spec z) as (c & cs & Heq & Hall & _ & Hv); [unfold max_int64, max_uint64 in *; lia|].
  assert (int_literal (itoa z) = Some z) as Hlit.
  { rewrite Heq in *. cbn [all_chars] in Hall. apply andb_true_iff in Hall as [Hc _].
    unfold int_literal. destruct c as [[] [] [] [] [] [] [] []]; done. }
  cbn [int_of_json]. rewrite Hlit. cbn [mbind option_bind].
  replace ((- 2 ^ 63 <=? z) && (z <=? max_int64)) with true; [done|]. symmetry.
  apply andb_true_iff. split; apply Z.leb_le; lia.
Qed.

Lemma uint_of_itoa z current : 0 ≤ z ≤ max_uint64 → uint64_of_json current (JNum (itoa z)) = Some z.
Proof.
  intros Hz. destruct (itoa_spec z) as (c & cs & Heq & Hall & _ & Hv); [done|].
  rewrite Heq in *. cbn [all_chars] in Hall. apply andb_true_iff in Hall as [Hc _].
  assert (uint64_of_json current (JNum (String c cs)) =
    z' ← digits_value 0 (String c cs); if z' <=? max_uint64 then Some z' else None) as ->.
  { by destruct c as [[] [] [] [] [] [] [] []]. }
  rewrite Hv. cbn [mbind option_bind]. by rewrite (proj2 (Z.leb_le _ _) (proj2 Hz)).
Qed.

Lemma number_itoa z : 0 ≤ z ≤ max_uint64 → number_text (itoa z).
Proof.
  intros Hz. apply (json_number_text (itoa z +:+ "") _ ""). by apply json_number_itoa.
Qed.

Lemma carries_int name get set r :
  valid_utf8 (codes name) = true → 0 ≤ get r ≤ max_int64 → carries r (int_field name get set).
Proof.
  intros Hn Hz. split; [done|]. intros v [= <-]. split_and!; [|done|].
  - apply number_itoa. unfold max_int64, max_uint64 in *. lia.
  - intros v' current st d Hst. inversion 1; subst. by apply int_of_itoa.
Qed.

Lemma carries_bool name get set r :
  valid_utf8 (codes name) = true → carries r (bool_field name get set).
Proof.
  intros Hn. split; [done|]. intros v [= <-]. split_and!; [done|done|].
  intros v' current st d Hst. by inversion 1.
Qed.

Lemma carries_pointer name get set r :
  valid_utf8 (codes name) = true → (∀ s, get r = Some s → valid_utf8 (codes s) = true) →
  carries r (str_pointer_field name get set).
Proof.
  intros Hn Hs. split; [done|]. intros v [= <-]. cbn. destruct (get r) as [s|].
  - split_and!; [by apply Hs|done|]. intros v' current st d Hst. by inversion 1.
  - split_and!; [done|done|]. intros v' current st d Hst. by inversion 1.
Qed.

Lemma carries_sub {A} name get set enc dec r :
  valid_utf8 (codes name) = true →
  carried (enc (get r)) (λ current _ j, dec current j) (get r) →
  carries r (@sub_field A name get set enc dec).
Proof. intros Hn Hc. split; [done|]. intros v [= <-]. exact Hc. Qed.

End Fields.

(** ** Exact members

    The strict decoders of the program first decode the text into a
    [map[string]json.RawMessage] and require exactly the given names, none of
    them null except [nullable]. *)
Definition keys_of (j : json) : list string :=
  match j with JObj fields => remove_dups (map (λ f, f.1.1) fields) | _ => [] end.

Definition is_null (j : json) : bool := match j with JNull => true | _ => false end.

Definition exact_members (nullable : string) (allowed : list string) (j : json) : bool :=
  match j with
  | JObj _ | JNull =>
      Nat.eqb (length (keys_of j)) (length allowed) &&
      forallb (λ name, match raw_member j name with
                       | Some (_, v) => String.eqb name nullable || negb (is_null v)
                       | None => false
                       end) allowed
  | _ => false
  end.

Lemma remove_dups_id {A} `{EqDecision A} (l : list A) : NoDup l → remove_dups l = l.
Proof. induction 1 as [|x l Hx _ IH]; cbn; [done|]. case_decide; [done|]. by rewrite IH. Qed.

Lemma find_key {A} (l : list (string * string * A)) key raw x :
  NoDup (map (λ f, f.1.1) l) → (key, raw, x) ∈ l →
  find (λ f : string * string * A, String.eqb f.1.1 key) l = Some (key, raw, x).
Proof.
  induction l as [|[[k w] y] l IH]; cbn; [by intros ? ?%not_elem_of_nil|].
  intros [Hk Hn]%list.NoDup_cons [Heq|Hin]%elem_of_cons.
  - injection Heq as <- <- <-. by rewrite String.eqb_refl.
  - destruct (String.eqb_spec k key) as [->|]; [|by apply IH].
    destruct Hk. by apply (list_elem_of_fmap_2 (λ f : string * string * A, f.1.1) l (key, raw, x)).
Qed.

Lemma raw_member_tree st d l k v :
  NoDup (map fst l) → (k, v) ∈ l →
  raw_member (tree st d (VObj l)) k = Some (print_value st (S d) v, tree st (S d) v).
Proof.
  intros Hn Hin. cbn [tree raw_member].
  rewrite (find_key _ k (print_value st (S d) v) (tree st (S d) v)); [done| |].
  - rewrite map_rev, map_map. cbn. change (λ x : string * value, x.1) with (@fst string value).
    by rewrite <- Permutation_rev.
  - rewrite <- Permutation_rev.
    by apply (list_elem_of_fmap_2 (λ f : string * value, (f.1, print_value st (S d) f.2, tree st (S d) f.2)) l (k, v)).
Qed.

Definition nullish (v : value) : bool := match v with VNull | Unsupported => true | _ => false end.

Lemma exact_tree st d nullable allowed l :
  NoDup (map fst l) → map fst l ≡ₚ allowed →
  Forall (λ m, m.1 = nullable ∨ nullish m.2 = false) l →
  exact_members nullable allowed (tree st d (VObj l)) = true.
Proof.
  intros Hn Hp Hnull. unfold exact_members. cbn [tree]. apply andb_true_iff. split.
  - apply Nat.eqb_eq. cbn [keys_of]. rewrite map_map. cbn. rewrite remove_dups_id by done.
    by rewrite <- Hp.
  - apply forallb_forall. intros name Hname%list_elem_of_In. rewrite <- Hp in Hname.
    apply list_elem_of_fmap in Hname as ([k v] & -> & Hin).
    change (JObj _) with (tree st d (VObj l)). cbn [fst].
    rewrite (raw_member_tree st d l k v) by done.
    rewrite list.Forall_forall in Hnull. destruct (Hnull _ Hin) as [Hk|Hv]; cbn in *.
    + subst k. by rewrite String.eqb_refl.
    + apply orb_true_iff. right. by destruct v.
Qed.

(** The object of a struct has exactly the names of its present fields, also
    after a detour. *)
Lemma same_keys l v :
  same (VObj l) v → ∃ l', v = VObj l' ∧ map fst l' ≡ₚ map fst l ∧
    (∀ k x, (k, x) ∈ l' → ∃ y, (k, y) ∈ l ∧ same y x).
Proof.
  intros (m & l' & -> & Hm & Hp)%same_obj_inv. exists l'. split; [done|].
  rewrite <- Hp. split.
  - clear Hp. induction Hm as [|a b l m [Hk _] _ IH]; cbn; [done|]. by rewrite Hk, IH.
  - intros k x Hx. rewrite <- Hp in Hx. clear Hp.
    induction Hm as [|[ka a] [kb b] l m [Hk Hs] _ IH]; [by apply not_elem_of_nil in Hx|].
    cbn in *. subst kb. apply elem_of_cons in Hx as [[= -> ->]|Hx].
    + exists a. split; [by left|done].
    + destruct (IH Hx) as (y & Hy & Hsy). exists y. split; [by right|done].
Qed.

Lemma same_nullish v v' : same v v' → nullish v' = nullish v.
Proof. by destruct 1. Qed.

Lemma exact_same st d nullable allowed l v :
  same (VObj l) v → NoDup (map fst l) → map fst l ≡ₚ allowed →
  Forall (λ m, m.1 = nullable ∨ nullish m.2 = false) l →
  exact_members nullable allowed (tree st d v) = true.
Proof.
  intros (l' & -> & Hk & Hx)%same_keys Hn Hp Hnull. apply exact_tree.
  - by rewrite Hk.
  - by rewrite Hk.
  - apply list.Forall_forall. intros [k x] Hin. destruct (Hx k x Hin) as (y & Hy & Hs).
    rewrite list.Forall_forall in Hnull. specialize (Hnull _ Hy). cbn in *.
    by rewrite (same_nullish _ _ Hs).
Qed.

(** ** Strict struct decoders on a struct's own object *)

Lemma same_distinct v v' : same v v' → distinct v → distinct v'.
Proof.
  revert v'. induction v as [| | | | |items IH|fields IH] using value_ind'; intros v' Hs Hd;
    try (inversion Hs; subst; done).
  - apply same_arr_inv in Hs as (l' & -> & Hl). apply distinct_arr in Hd. apply distinct_arr.
    induction Hl as [|x y l l' Hxy _ IHl]; [constructor|]. decompose_Forall_hyps. constructor; auto.
  - apply same_keys in Hs as (l' & -> & Hk & Hx). apply distinct_obj in Hd as [Hn Hd].
    apply distinct_obj. split; [by rewrite Hk|]. apply list.Forall_forall. intros [k x] Hin.
    destruct (Hx k x Hin) as (y & Hy & Hyx). rewrite list.Forall_forall in IH, Hd.
    by apply (IH (k, y)); [| |apply (Hd (k, y))].
Qed.

Lemma has_member_tree st d l k :
  NoDup (map fst l) → is_some (raw_member (tree st d (VObj l)) k) = bool_decide (k ∈ map fst l).
Proof.
  intros Hn. case_bool_decide as Hk.
  - apply list_elem_of_fmap in Hk as ([k' v] & -> & Hin). cbn [fst].
    by rewrite (raw_member_tree st d l k' v).
  - cbn [tree raw_member]. destruct (find _ _) as [[[k' w] x]|] eqn:E; [|done]. exfalso.
    apply find_some in E as [Hin Heq]. cbn in Heq. apply String.eqb_eq in Heq. subst k'.
    apply in_rev, list_elem_of_In, list_elem_of_fmap in Hin as (f & [= -> _ _] & Hf).
    by apply Hk, list_elem_of_fmap_2.
Qed.

(** Decoding into whatever the field holds, when every field is present. *)
Lemma struct_carried_into {R} (fields : list (field R)) r :
  disjoint_fields fields → Forall (carries r) fields → (∀ zero, rebuild fields zero r = r) →
  carried (encode_struct fields r) (λ current _, decode_struct fields current) r.
Proof.
  intros Hd Hc Hb. destruct (struct_carried fields r r Hd Hc (Hb r)) as (Hf & Hdist & _).
  split_and!; [done|done|]. intros v' current st d Hst Hs.
  destruct (struct_carried fields current r Hd Hc (Hb current)) as (_ & _ & Hdec). by eapply Hdec.
Qed.

(** The decoders that reject duplicate members and require exact names. *)
Lemma strict_carried {R} (fields : list (field R)) zero r nullable (allowed : json → list string) :
  carried (encode_struct fields r) (λ _ _, decode_struct fields zero) r →
  (∀ st d v, same (encode_struct fields r) v →
     allowed (tree st d v) = map fst (flat_map (encode_field r) fields)) →
  Forall (λ f, fname f = nullable ∨ ∀ v, fenc f (fget f r) = Some v → nullish v = false) fields →
  carried (encode_struct fields r)
    (λ _ _ j, if negb (no_duplicate_keys j) then None
              else if exact_members nullable (allowed j) j then decode_struct fields zero j else None) r.
Proof.
  intros (Hf & Hd & Hdec) Ha Hnull. split_and!; [done|done|]. intros v' _ st d Hst Hs.
  rewrite distinct_tree by (by eapply same_distinct). cbn [negb].
  rewrite (exact_same st d nullable _ _ _ Hs); [by apply (Hdec v' r)| | |].
  - by apply distinct_obj in Hd as [Hn _].
  - by rewrite Ha.
  - apply list.Forall_forall. intros m (f & Hin & <- & Hv)%encode_member.
    rewrite list.Forall_forall in Hnull. destruct (Hnull f Hin) as [?|H]; [by left|right; by apply H].
Qed.

(** What holds of the struct before and is kept by storing any decoded member
    holds of the result. *)
Lemma decode_struct_inv {R} (P : R → Prop) (fields : list (field R)) zero st d v r :
  Forall (λ f, ∀ acc v x, P acc → faithful v →
    fdec f (fget f acc) (print_value st (S d) v) (tree st (S d) v) = Some x → P (fset f x acc)) fields →
  P zero → faithful v → decode_struct fields zero (tree st d v) = Some r → P r.
Proof.
  intros Hf Hz Hv. unfold decode_struct. destruct v as [| | | | |m|]; cbn [tree lax_struct_of_json]; try done.
  { by intros [= <-]. }
  apply faithful_obj in Hv. revert zero Hz. induction Hv as [|[k y] m [_ Hy] _ IH]; intros acc Hacc.
  { by intros [= <-]. }
  cbn [map assign_known fst snd] in *. destruct (match_field (names fields) k) as [name|]; [|by apply IH].
  destruct (assign_member fields name _ _ acc) as [acc'|] eqn:E; [|done]. cbn [mbind option_bind].
  apply IH. clear IH. induction fields as [|f l IHl]; cbn in E; [by injection E as <-|].
  apply list.Forall_cons in Hf as [Hf Hl]. destruct (String.eqb name (fname f)); [|by apply IHl].
  destruct (fdec f _ _ _) as [x|] eqn:Ex; [|done]. injection E as <-. by eapply Hf.
Qed.

Lemma string_member_text current st d v s :
  faithful v → valid_utf8 (codes current) = true →
  string_of_json current (tree st d v) = Some s → valid_utf8 (codes s) = true.
Proof. by destruct v; cbn; try done; intros ? ? [= <-]. Qed.

Lemma struct_height {R} (fields : list (field R)) r n :
  Forall (λ f, ∀ v, fenc f (fget f r) = Some v → (height v ≤ n)%nat) fields →
  (height (encode_struct fields r) ≤ S n)%nat.
Proof.
  intros Hf. unfold encode_struct. cbn [height]. apply le_n_S, list_max_le, list.Forall_forall.
  intros h (m & -> & (f & Hin & _ & Hv)%encode_member)%list_elem_of_fmap.
  rewrite list.Forall_forall in Hf. by apply (Hf f Hin).
Qed.

(** The scalar fields of a struct. *)
Ltac solve_heights :=
  repeat (apply Forall_cons_2; [intros v; cbn; repeat case_match; intros [= <-]; cbn; try lia|]);
  try apply Forall_nil_2.

(** Solves that fields of different names are independent. *)
Ltac solve_disjoint :=
  repeat split; repeat (apply Forall_cons_2; [split; [done|reflexivity]|]); apply Forall_nil_2.
