(* ===== verification/GoJsonPrint.v ===== *)
(** * encoding/json: properties of printed text

    What holds of every piece of a text and is kept by joining pieces holds of
    the text of a value ([print_value_pieces]); printed text is valid UTF-8.
    The raw texts of the items of an array ([array_texts]), which a decoder
    hands to the [UnmarshalJSON] method of a slice's elements. *)

From S2P Require Import Prelude GoText GoJson GoUtf8 GoJsonText GoJsonValue GoJsonDecode GoJsonStruct.
From Stdlib.Strings Require Import Ascii.

(** ** Number literals *)

Definition is_number_char (c : ascii) : bool := is_digit c || has_char "+-.eE" c.

Lemma number_chars l : number_text l → all_chars is_number_char l = true.
Proof.
  assert (Hdig : ∀ ds, all_chars is_digit ds = true → all_chars is_number_char ds = true).
  { intros ds. apply all_chars_impl. intros c Hc. unfold is_number_char. by rewrite Hc. }
  assert (Hd : ∀ d, is_digit d = true → is_number_char d = true).
  { intros d Hd. unfold is_number_char. by rewrite Hd. }
  intros [_ Hread]. specialize (Hread "" eq_refl). rewrite string_app_nil in Hread.
  unfold json_number in Hread. destruct (number_sign l) as [sign body] eqn:Es.
  assert (sign = "" ∨ sign = "-") as Hsign.
  { unfold number_sign in Es. repeat case_match; simplify_eq; auto. }
  destruct (number_int body) as [[i r1]|] eqn:Ei; cbn [mbind option_bind] in Hread; [|done].
  destruct (number_frac r1) as [[f r2]|] eqn:Ef; cbn [mbind option_bind] in Hread; [|done].
  destruct (number_exp r2) as [[e r3]|] eqn:Ee; cbn [mbind option_bind] in Hread; [|done].
  injection Hread as <- _. apply number_int_inv in Ei. apply number_frac_inv in Ef. apply number_exp_inv in Ee.
  rewrite !all_chars_app. repeat (apply andb_true_iff; split).
  - by destruct Hsign as [-> | ->].
  - destruct Ei; [done|]. cbn [all_chars]. by rewrite Hd, Hdig.
  - destruct Ef as [|d ds]; [done|]. cbn [all_chars]. by rewrite (Hd d), Hdig.
  - destruct Ee as [|x s d ds Hx Hs ? ?]; [done|]. cbn [all_chars]. rewrite all_chars_app. cbn [all_chars].
    rewrite (Hd d), (Hdig ds) by done.
    assert (is_number_char x = true) as ->.
    { revert Hx. clear. by destruct x as [[] [] [] [] [] [] [] []]. }
    by destruct Hs as [-> |[-> | ->]].
Qed.

(** ** Pieces *)

Section Pieces.
Context (st : style) (P : string → Prop).
Hypothesis P_app : ∀ a b, P a → P b → P (a +:+ b).
Hypothesis P_empty : P "".
Hypothesis P_mark : ∀ s, s ∈ ["null"; "true"; "false"; "["; "]"; "{"; "}"; ","; ":"] → P s.
Hypothesis P_line : ∀ d, P (newline st d).
Hypothesis P_space : P (space st).
Hypothesis P_number : ∀ l, number_text l → P l.
Hypothesis P_quote : ∀ s, valid_utf8 (codes s) = true → P (quote s).

#[local] Ltac mark := apply P_mark; set_solver.

Lemma print_list_pieces d open close items :
  P open → P close → Forall P items → P (print_list st d open close items).
Proof.
  intros Ho Hc Hi. assert (Hj : ∀ sep, P sep → P (join sep items)).
  { intros sep Hs. clear Ho Hc. induction Hi as [|x l Hx Hl IH]; [done|].
    destruct l as [|y l]; [done|]. rewrite join_cons2. auto. }
  assert (Hs : P ("," +:+ newline st (S d))) by (apply P_app; [mark|done]).
  unfold print_list. destruct Hi as [|x l Hx Hl]; [by apply P_app|].
  repeat (apply P_app; auto).
Qed.

Lemma print_value_pieces d v : faithful v → P (print_value st d v).
Proof.
  revert d. induction v as [|b|l|s| |items IH|fields IH] using value_ind'; intros d Hf; cbn [print_value]; try done.
  - mark.
  - destruct b; mark.
  - by apply P_number.
  - by apply P_quote.
  - apply faithful_arr in Hf. apply print_list_pieces; [mark|mark|].
    apply List.Forall_map. rewrite list.Forall_forall in *. auto.
  - apply faithful_obj in Hf. apply print_list_pieces; [mark|mark|].
    apply List.Forall_map. rewrite list.Forall_forall in *. intros f Hin. specialize (IH f Hin). destruct (Hf f Hin).
    apply P_app; [by apply P_quote|]. apply P_app; [mark|]. apply P_app; [done|]. auto.
Qed.
End Pieces.

(** ** Printed text is valid UTF-8 *)

Lemma codes_string_app a b : codes (a +:+ b) = codes a ++ codes b.
Proof. apply codes_app. Qed.

Lemma runes_app l k skip : runes skip l = true → runes 0 k = true → (skip ≤ length l)%nat → runes skip (l ++ k) = true.
Proof.
  revert skip. induction l as [|a l IH]; intros skip Hl Hk Hs; cbn [app length] in *.
  { by replace skip with 0%nat by lia. }
  cbn [all_runes] in *. destruct skip as [|skip]; [|apply IH; [done|done|lia]].
  destruct (utf8_size (a :: l)) as [|more] eqn:Es; [done|].
  rewrite (utf8_size_app (a :: l) k more Es : utf8_size (a :: l ++ k) = _). cbn [andb] in *.
  apply IH; [done|done|]. pose proof (utf8_size_le (a :: l)) as Hw. rewrite Es in Hw. cbn in Hw. lia.
Qed.

Lemma valid_utf8_app a b : valid_utf8 (codes a) = true → valid_utf8 (codes b) = true → valid_utf8 (codes (a +:+ b)) = true.
Proof. rewrite codes_app. intros. apply runes_app; [done|done|lia]. Qed.

Lemma escape_char_ascii c : code c < 128 → all_chars is_ascii (escape_char c) = true.
Proof.
  destruct c as [[] [] [] [] [] [] [] []]; intros Hc; (done || (exfalso; vm_compute in Hc; done)).
Qed.

(** The bytes of a rune that is not finished are copied. *)
Lemma escape_text_take n s : take n (codes (escape_text n s)) = take n (codes s).
Proof.
  revert s. induction n as [|n IH]; intros [|c s]; cbn [escape_text codes take]; [done..|]. by rewrite IH.
Qed.

Lemma escape_text_runes s skip : runes skip (codes s) = true → runes skip (codes (escape_text skip s)) = true.
Proof.
  remember (String.length s) as n eqn:Hn. revert s skip Hn.
  induction n as [n IH] using lt_wf_ind. intros [|c s] skip -> Hv; [done|].
  destruct skip as [|skip]; cbn [escape_text codes all_runes String.length] in *.
  2:{ apply (IH (String.length s)); [lia|done|done]. }
  pose proof (utf8_size_head (String c s)) as Hhead. cbn [codes] in Hhead. rewrite Hhead.
  pose proof (code_range c). destruct (utf8_size (code c :: codes s)) as [|[|more]] eqn:Es; [done| |]; cbn [andb] in Hv.
  - apply (valid_utf8_app (escape_char c) (escape_text 0 s)).
    + apply ascii_utf8, escape_char_ascii. apply (utf8_size_one _ (codes s)); [lia|done].
    + apply (IH (String.length s)); [lia|done|done].
  - assert (Hplain : runes 0 (code c :: codes (escape_text (S more) s)) = true).
    { cbn [all_runes]. rewrite (utf8_size_prefix (code c :: codes s) _ (S more) Es).
      - cbn [andb]. apply (IH (String.length s)); [lia|done|done].
      - cbn [take]. f_equal. apply escape_text_take. }
    destruct s as [|b [|d s]]; [exact Hplain|exact Hplain|].
    destruct (is_line_separator c b d) eqn:El; [|exact Hplain].
    unfold is_line_separator in El. apply andb_true_iff in El as [[Ec%Z.eqb_eq Eb%Z.eqb_eq]%andb_true_iff Ed].
    assert (more = 1%nat) as ->.
    { cbn [utf8_size codes] in Es. rewrite Ec in Es.
      change ((if in_Z 128 191 (code b) && is_cont (code d) then 3%nat else 0%nat) = S (S more)) in Es.
      destruct (_ && _); [by injection Es|done]. }
    apply (valid_utf8_app (if code d =? 168 then "\u2028" else "\u2029") (escape_text 0 s)).
    + by destruct (code d =? 168).
    + apply (IH (String.length s)); [cbn; lia|done|done].
Qed.

Lemma quote_utf8 s : valid_utf8 (codes s) = true → valid_utf8 (codes (quote s)) = true.
Proof.
  intros Hv. apply (valid_utf8_app (String quote_char "") (escape_text 0 s +:+ String quote_char "")); [done|].
  by apply valid_utf8_app; [apply escape_text_runes|].
Qed.

Lemma white_ascii s : white s → all_chars is_ascii s = true.
Proof. apply all_chars_impl. intros c. by destruct c as [[] [] [] [] [] [] [] []]. Qed.

Lemma number_ascii l : number_text l → all_chars is_ascii l = true.
Proof. intros Hl%number_chars. revert Hl. apply all_chars_impl. intros c. by destruct c as [[] [] [] [] [] [] [] []]. Qed.

Lemma print_utf8 st d v : white_style st → faithful v → valid_utf8 (codes (print_value st d v)) = true.
Proof.
  intros Hst. apply (print_value_pieces st (λ s, valid_utf8 (codes s) = true)).
  - apply valid_utf8_app.
  - done.
  - intros s Hs. apply ascii_utf8. by repeat (apply elem_of_cons in Hs as [->|Hs]; [done|]); apply not_elem_of_nil in Hs.
  - intros. apply ascii_utf8, white_ascii, Hst.
  - apply ascii_utf8, white_ascii, Hst.
  - intros l Hl. by apply ascii_utf8, number_ascii.
  - apply quote_utf8.
Qed.

(** ** The texts of array items *)

Fixpoint item_texts (fuel depth : nat) (s : string) : option (list string) :=
  match fuel with
  | O => None
  | S fuel' =>
      '(_, r1) ← json_value fuel' depth s;
      let text := consumed (skip_ws s) r1 in
      match skip_ws r1 with
      | String "," r2 => texts ← item_texts fuel' depth r2; Some (text :: texts)
      | String "]" r2 => Some [text]
      | _ => None
      end
  end.

Definition array_texts (raw : string) : option (list string) :=
  match skip_ws raw with
  | String "[" rest =>
      match skip_ws rest with
      | String "]" _ => Some []
      | _ => item_texts (3 * String.length raw + 3) max_depth rest
      end
  | _ => None
  end.

Section ItemTexts.
Context (st : style) (Hst : white_style st).

Lemma item_texts_printed d close items fuel dep rest :
  items ≠ [] → Forall faithful items → white close →
  (list_sum (map (λ x, S (weight x)) items) ≤ fuel)%nat →
  (list_max (map height items) ≤ dep)%nat →
  item_texts fuel dep (join ("," +:+ newline st (S d)) (map (print_value st (S d)) items)
    +:+ close +:+ String "]" rest) = Some (map (print_value st (S d)) items).
Proof.
  intros Hne Hall Hclose. revert fuel. induction Hall as [|x l Hx Hl IH]; intros fuel Hf Hd; [done|].
  cbn in Hf, Hd. destruct fuel as [|fuel]; [lia|].
  pose proof (λ r, starts_value_app _ r (print_value_starts st (S d) x Hx)) as Hstart.
  assert (Hraw : ∀ r, consumed (skip_ws (print_value st (S d) x +:+ r)) r = print_value st (S d) x).
  { intros r. rewrite starts_value_skip by done. apply consumed_app. }
  pose proof (reads_value st Hst x (S d) Hx) as Hr. destruct l as [|y l].
  - cbn [map join item_texts]. rewrite Hr by (lia || by apply ends_number_white).
    cbn [mbind option_bind]. by rewrite skip_ws_app, Hraw.
  - cbn [map]. rewrite join_cons2, !string_app_assoc. change ("," +:+ ?x) with (String "," x). cbn [item_texts].
    rewrite Hr by (lia || done). cbn [mbind option_bind skip_ws]. rewrite Hraw.
    change (is_ws ",") with false. cbn iota.
    assert (Hskip : ∀ f w s, white w → item_texts f dep (w +:+ s) = item_texts f dep s).
    { intros [|f] w s Hw; [done|]. cbn [item_texts]. by rewrite json_value_skip, skip_ws_app. }
    rewrite Hskip by apply Hst. cbn [map] in IH. by rewrite IH by (done || cbn in *; lia).
Qed.

Lemma item_texts_skip fuel dep w s : white w → item_texts fuel dep (w +:+ s) = item_texts fuel dep s.
Proof.
  intros Hw. destruct fuel as [|fuel]; [done|]. cbn [item_texts]. by rewrite (json_value_skip fuel dep), skip_ws_app.
Qed.

Lemma array_texts_printed d items :
  Forall faithful items → (list_max (map height items) ≤ max_depth)%nat →
  array_texts (print_value st d (VArr items)) = Some (map (print_value st (S d)) items).
Proof.
  intros Hf Hd. pose proof (weight_length st (VArr items) d (proj2 (faithful_arr items) Hf)) as Hw.
  unfold array_texts. revert Hw. generalize (String.length (print_value st d (VArr items))). intros n Hw.
  cbn [print_value weight] in *. unfold print_list. destruct items as [|x l]; [done|].
  cbn [map]. change ("[" +:+ ?x) with (String "[" x). cbn [skip_ws]. change (is_ws "[") with false. cbn iota.
  rewrite skip_ws_app, item_texts_skip by apply Hst.
  pose proof (print_value_starts st (S d) x (proj1 (proj1 (list.Forall_cons _ _ _) Hf))) as Hs.
  change (print_value st (S d) x :: map (print_value st (S d)) l) with (map (print_value st (S d)) (x :: l)).
  pose proof (item_texts_printed d (newline st d) (x :: l) (3 * n + 3) max_depth "") as Hitems.
  set (text := join _ _) in *.
  assert (Hst' : starts_value (text +:+ newline st d +:+ "]")).
  { apply starts_value_app. subst text. destruct l; [done|]. cbn [map].
    rewrite join_cons2. by apply starts_value_app. }
  rewrite (starts_value_skip _ Hst'), Hitems; [|done|done|apply Hst|cbn in Hw |- *; lia|done].
  destruct (text +:+ _) as [|c rest']; [done|]. destruct Hst' as (_ & Hc & _).
  destruct c as [[] [] [] [] [] [] [] []]; done.
Qed.
End ItemTexts.

(** A printed value is parsed at any nesting depth it is printed for. *)
Lemma parse_printed st d v :
  white_style st → faithful v → (height v ≤ max_depth)%nat → parse_json (print_value st d v) = Some (tree st d v).
Proof.
  intros Hst Hf Hh. unfold parse_json. pose proof (weight_length st v d Hf) as Hwt.
  pose proof (reads_value st Hst v d Hf (3 * String.length (print_value st d v) + 3)%nat max_depth "") as Hr.
  rewrite string_app_nil in Hr. by rewrite Hr by (done || lia).
Qed.

(** ** Values up to the order of members *)

Lemma same_faithful v v' : same v v' → faithful v → faithful v'.
Proof.
  revert v'. induction v as [| | | | |items IH|fields IH] using value_ind'; intros v' Hs Hf; try by inversion Hs; subst.
  - apply same_arr_inv in Hs as (l' & -> & Hl). apply faithful_arr in Hf. apply faithful_arr.
    induction Hl as [|x y l l' Hxy _ IHl]; [constructor|]. decompose_Forall_hyps. constructor; auto.
  - apply same_keys in Hs as (l' & -> & _ & Hx). apply faithful_obj in Hf. apply faithful_obj, list.Forall_forall.
    intros [k x] Hin. destruct (Hx k x Hin) as (y & Hy & Hyx). rewrite list.Forall_forall in IH, Hf.
    destruct (Hf _ Hy) as [Hk Hfy]. split; [exact Hk|]. by apply (IH (k, y)).
Qed.

Lemma same_height v v' : same v v' → (height v' ≤ height v)%nat.
Proof.
  revert v'. induction v as [| | | | |items IH|fields IH] using value_ind'; intros v' Hs; try by inversion Hs; subst.
  - apply same_arr_inv in Hs as (l' & -> & Hl). cbn [height]. apply le_n_S.
    induction Hl as [|x y l l' Hxy _ IHl]; [done|]. decompose_Forall_hyps. cbn.
    apply Nat.max_le_compat; auto.
  - apply same_keys in Hs as (l' & -> & _ & Hx). cbn [height]. apply le_n_S, list_max_le, list.Forall_forall.
    intros h ([k x] & -> & Hin)%list_elem_of_fmap. destruct (Hx k x Hin) as (y & Hy & Hyx). cbn [snd].
    rewrite list.Forall_forall in IH. transitivity (height y); [by apply (IH (k, y))|].
    pose proof (proj1 (list_max_le (map (λ f, height f.2) fields) _) (le_n _)) as Hm.
    rewrite list.Forall_forall in Hm. apply Hm. by apply (list_elem_of_fmap_2 (λ f : string * value, height f.2) fields (k, y)).
Qed.
