(* ===== verification/EgoFraming.v ===== *)
(** * IPC framing (src/internal/egobrowser/framing.go)

    A frame is a big-endian 32-bit length and that many bytes.  A reader is
    the sequence of bytes the peer sends before it closes the connection
    ([io.ReadFull] hides how they are cut into reads); a writer answers each
    [Write] call with a count and an error, so it is the list of its answers,
    and running out of answers is a call that blocks. *)

From S2P Require Import Prelude GoBytes.

Inductive io_error := EOF | UnexpectedEOF | ErrShortWrite | ErrWrite | errIPCFrameTooLarge.

#[global] Instance io_error_eq_dec : EqDecision io_error.
Proof. solve_decision. Defined.

Definition maxIPCFrameBytes : Z := 16 * 1024 * 1024.

(** [io.ReadFull]: nothing read is [EOF], a partial read [UnexpectedEOF]. *)
Definition ReadFull (n : nat) (input : bytes) : result io_error (bytes * bytes) :=
  if (n <=? length input)%nat then Ok (take n input, drop n input)
  else if (length input =? 0)%nat then Err EOF else Err UnexpectedEOF.

Definition readFrame (input : bytes) : result io_error (bytes * bytes) :=
  '(header, input) ← ReadFull 4 input;
  let length := uint32_of header in
  require negb (maxIPCFrameBytes <? length) orelse errIPCFrameTooLarge ;;
  ReadFull (Z.to_nat length) input.

(** One answer of [Write]: the count it reports and whether it failed. *)
Record write_answer := Answer { answer_written : Z; answer_failed : bool }.

(** What a sequence of writes did: the bytes that reached the peer, the
    answers left, and the outcome; [None] when a call is still blocked. *)
Record write_run := Run {
  run_wire : bytes;
  run_answers : list write_answer;
  run_outcome : option (result io_error unit)
}.

(** A conforming writer has put the reported count of bytes on the wire, and
    no more than it was given. *)
Fixpoint writeAll (answers : list write_answer) (data : bytes) : write_run :=
  match data with
  | [] => Run [] answers (Some (Ok tt))
  | _ :: _ =>
      match answers with
      | [] => Run [] [] None
      | a :: answers' =>
          let sent := take (Z.to_nat (answer_written a)) data in
          if answer_failed a then Run sent answers' (Some (Err ErrWrite))
          else if (answer_written a <=? 0) || (Z.of_nat (length data) <? answer_written a)
          then Run sent answers' (Some (Err ErrShortWrite))
          else
            let run := writeAll answers' (drop (Z.to_nat (answer_written a)) data) in
            Run (sent ++ run_wire run) (run_answers run) (run_outcome run)
      end
  end.

Definition writeFrame (answers : list write_answer) (frame : bytes) : write_run :=
  if (maxIPCFrameBytes <? Z.of_nat (length frame)) || (max_uint32 <? Z.of_nat (length frame))
  then Run [] answers (Some (Err errIPCFrameTooLarge))
  else
    let first := writeAll answers (put_uint32 (Z.of_nat (length frame))) in
    match run_outcome first with
    | Some (Ok _) =>
        let second := writeAll (run_answers first) frame in
        Run (run_wire first ++ run_wire second) (run_answers second) (run_outcome second)
    | _ => first
    end.

(** ** Facts *)
Lemma writeAll_wire answers data :
  ∃ rest, data = run_wire (writeAll answers data) ++ rest ∧
          (run_outcome (writeAll answers data) = Some (Ok tt) → rest = []).
Proof.
  revert data. induction answers as [|a answers IH]; intros [|b data].
  - by exists [].
  - by exists (b :: data).
  - by exists [].
  - cbn [writeAll]. set (n := Z.to_nat (answer_written a)).
    destruct (answer_failed a).
    { exists (drop n (b :: data)). cbn [run_wire run_outcome]. by rewrite take_drop. }
    destruct (_ || _).
    { exists (drop n (b :: data)). cbn [run_wire run_outcome]. by rewrite take_drop. }
    destruct (IH (drop n (b :: data))) as (rest & Hd & Hr). exists rest.
    cbn [run_wire run_outcome]. rewrite <- app_assoc, <- Hd, take_drop. auto.
Qed.

Lemma writeAll_ok answers data :
  run_outcome (writeAll answers data) = Some (Ok tt) → run_wire (writeAll answers data) = data.
Proof.
  intros Hok. destruct (writeAll_wire answers data) as (rest & Hd & Hr).
  rewrite (Hr Hok), app_nil_r in Hd. done.
Qed.

(** A writer that makes progress: at least one byte and no error per call. *)
Definition progresses (a : write_answer) : Prop :=
  answer_failed a = false ∧ 1 ≤ answer_written a.

(** Each answer also stays within what is left to write. *)
Fixpoint fits (answers : list write_answer) (left : Z) : Prop :=
  match answers with
  | [] => left = 0
  | a :: answers' => progresses a ∧ answer_written a ≤ left ∧ fits answers' (left - answer_written a)
  end.

Lemma writeAll_total answers rest data :
  fits answers (Z.of_nat (length data)) →
  run_outcome (writeAll (answers ++ rest) data) = Some (Ok tt) ∧
  run_answers (writeAll (answers ++ rest) data) = rest.
Proof.
  revert data. induction answers as [|a answers IH]; intros data; cbn [fits].
  - intros H. assert (data = []) as -> by (apply length_zero_iff_nil; lia). by destruct rest.
  - intros ([Hf H1] & H2 & H3). destruct data as [|b data]; [cbn in H2; lia|].
    cbn [writeAll app]. rewrite Hf.
    replace (_ || _) with false by (symmetry; apply orb_false_iff; rewrite Z.leb_gt, Z.ltb_ge; lia).
    cbn [run_outcome run_answers]. apply IH. rewrite length_drop.
    replace (Z.of_nat (_ - _)) with (Z.of_nat (length (b :: data)) - answer_written a) by lia. done.
Qed.

Lemma ReadFull_app n a b : length a = n → ReadFull n (a ++ b) = Ok (a, b).
Proof.
  intros <-. unfold ReadFull. rewrite length_app.
  replace (_ <=? _)%nat with true by (symmetry; apply Nat.leb_le; lia).
  by rewrite take_app_length, drop_app_length.
Qed.

Lemma put_uint32_length n : length (put_uint32 n) = 4%nat.
Proof. apply be_encode_length. Qed.

Lemma writeFrame_wire answers frame :
  run_outcome (writeFrame answers frame) = Some (Ok tt) →
  Z.of_nat (length frame) ≤ maxIPCFrameBytes ∧
  run_wire (writeFrame answers frame) = put_uint32 (Z.of_nat (length frame)) ++ frame.
Proof.
  unfold writeFrame. destruct (_ || _) eqn:E; [done|].
  apply orb_false_iff in E as [E _]. apply Z.ltb_ge in E.
  destruct (run_outcome (writeAll answers (put_uint32 (Z.of_nat (length frame)))))
    as [[[]|]|] eqn:E1; rewrite ?E1; try done.
  cbn [run_outcome run_wire]. intros E2. by rewrite (writeAll_ok _ _ E1), (writeAll_ok _ _ E2).
Qed.

(** Whatever the writer does with the bytes, a frame it reports written is
    read back exactly, with the bytes after it untouched. *)
Theorem readFrame_writeFrame answers frame tail :
  run_outcome (writeFrame answers frame) = Some (Ok tt) →
  readFrame (run_wire (writeFrame answers frame) ++ tail) = Ok (frame, tail).
Proof.
  intros (Hlen & ->)%writeFrame_wire. unfold readFrame.
  rewrite <- app_assoc, ReadFull_app by apply put_uint32_length. cbn [mbind result_bind].
  rewrite uint32_roundtrip by (unfold max_uint32, maxIPCFrameBytes in *; lia).
  replace (maxIPCFrameBytes <? _) with false by (symmetry; by apply Z.ltb_ge). cbn [negb].
  by rewrite Nat2Z.id, ReadFull_app.
Qed.

(** A writer that makes progress gets the whole frame out. *)
Theorem writeFrame_total header_answers body_answers rest frame :
  Z.of_nat (length frame) ≤ maxIPCFrameBytes →
  fits header_answers 4 → fits body_answers (Z.of_nat (length frame)) →
  run_outcome (writeFrame (header_answers ++ body_answers ++ rest) frame) = Some (Ok tt) ∧
  run_answers (writeFrame (header_answers ++ body_answers ++ rest) frame) = rest.
Proof.
  intros Hlen Hh Hb. unfold writeFrame.
  replace (_ || _) with false
    by (symmetry; apply orb_false_iff; unfold max_uint32, maxIPCFrameBytes in *; rewrite !Z.ltb_ge; lia).
  destruct (writeAll_total header_answers (body_answers ++ rest) (put_uint32 (Z.of_nat (length frame))))
    as [H1 H2]; [by rewrite put_uint32_length|].
  rewrite H1, H2. cbn [run_outcome run_answers]. by apply writeAll_total.
Qed.

(** A frame that is read never exceeds the limit, and nothing is invented:
    the input starts with its header and its bytes. *)
Theorem readFrame_sound input frame tail :
  readFrame input = Ok (frame, tail) →
  Z.of_nat (length frame) ≤ maxIPCFrameBytes ∧
  ∃ header, input = header ++ frame ++ tail ∧ length header = 4%nat ∧
            uint32_of header = Z.of_nat (length frame).
Proof.
  unfold readFrame, ReadFull. intros H. go_inv H.
  destruct (4 <=? length input)%nat eqn:E4 in Hrun; [|by destruct (_ =? _)%nat].
  apply Ok_inj in Hrun as <-. cbn beta iota in H. go_inv H.
  apply negb_true_iff, Z.ltb_ge in Hguard.
  set (n := uint32_of (take 4 input)) in *.
  destruct (Z.to_nat n <=? length (drop 4 input))%nat eqn:En in H; [|by destruct (_ =? _)%nat in H].
  apply Ok_inj in H. injection H as <- <-. apply Nat.leb_le in E4, En.
  rewrite length_take_le by done. split; [unfold maxIPCFrameBytes in *; lia|].
  exists (take 4 input). rewrite take_drop, take_drop, length_take_le by done.
  split_and!; try done. fold n.
  pose proof (uint32_of_nonneg (take 4 input)). lia.
Qed.

(** ** Witnesses *)
Definition sample_frame : bytes := [x68; x69; x21].

(** The header in two pieces, the body in one. *)
Definition sample_answers : list write_answer := [Answer 1 false; Answer 3 false; Answer 3 false].

Lemma readFrame_writeFrame_witness :
  readFrame (run_wire (writeFrame sample_answers sample_frame) ++ [x00]) = Ok (sample_frame, [x00]).
Proof. apply (readFrame_writeFrame sample_answers sample_frame [x00]). vm_compute. reflexivity. Defined.

Lemma writeFrame_total_witness :
  run_outcome (writeFrame ([Answer 1 false; Answer 3 false] ++ [Answer 3 false] ++ []) sample_frame) = Some (Ok tt) ∧
  run_answers (writeFrame ([Answer 1 false; Answer 3 false] ++ [Answer 3 false] ++ []) sample_frame) = [].
Proof.
  apply (writeFrame_total [Answer 1 false; Answer 3 false] [Answer 3 false] [] sample_frame);
    [unfold maxIPCFrameBytes; cbn; lia|unfold fits, progresses; cbn; lia|unfold fits, progresses; cbn; lia].
Defined.

Lemma readFrame_sound_witness :
  Z.of_nat (length sample_frame) ≤ maxIPCFrameBytes ∧
  ∃ header, [x00; x00; x00; x03] ++ sample_frame ++ [x07] = header ++ sample_frame ++ [x07] ∧
    length header = 4%nat ∧ uint32_of header = Z.of_nat (length sample_frame).
Proof. apply (readFrame_sound _ sample_frame [x07]). vm_compute. reflexivity. Defined.
