(* ===== verification/EgoProtocol.v ===== *)
(** * The ego-browser wire protocol: values, validators and framing

    Models the parts of [src/internal/egobrowser] that do not depend on the
    broker's state: the error sentinels, the configuration and its defaults,
    the binding metadata ([src/internal/api/client.go]) and its validation,
    permit requests and scopes, outer envelopes and their validators, the
    key-wrap transcript, and the length-prefixed IPC framing of [framing.go]. *)

From Stdlib.Strings Require Import Ascii.
From S2P Require Import Prelude GoText GoBytes GoTime GoJson.

(** ** Errors

    [errors.Is] distinguishes the sentinels; [ErrProtocol] carries the text
    the code wraps it with.  [ErrTransport] is an error value the broker
    passes through from the operating system, the HTTP client or the relay
    connection, [ErrDeadline]/[ErrCanceled] are the context errors. *)
Inductive error :=
  | ErrDisabled
  | ErrUnavailable
  | ErrLeaseRenewalRequired
  | ErrLeaseExpired
  | ErrRevoked
  | ErrReplay
  | ErrConcurrency
  | ErrProtocol (what : string)
  | ErrDeadline
  | ErrCanceled
  | ErrTransport (what : string).

#[global] Instance error_eq_dec : EqDecision error.
Proof. solve_decision. Defined.

(** [executeMetricStatus] of broker.go. *)
Definition executeMetricStatus (err : error) : string :=
  match err with
  | ErrConcurrency => "concurrency_conflict"
  | ErrLeaseRenewalRequired => "renewal_required"
  | ErrLeaseExpired => "lease_expired"
  | ErrRevoked | ErrUnavailable | ErrDisabled => "unavailable"
  | ErrDeadline => "timeout"
  | ErrProtocol _ => "rejected"
  | ErrReplay | ErrCanceled | ErrTransport _ => "unknown_result"
  end.

(** The error code [writeError] puts on the wire. *)
Definition writeError_code (err : error) : string :=
  match err with
  | ErrLeaseRenewalRequired => "lease_renewal_required"
  | ErrLeaseExpired => "lease_expired"
  | ErrRevoked => "binding_revoked"
  | ErrReplay => "protocol_error"
  | ErrConcurrency => "concurrency_conflict"
  | ErrProtocol _ => "protocol_error"
  | ErrDisabled | ErrUnavailable | ErrDeadline | ErrCanceled | ErrTransport _ =>
      "bridge_unavailable"
  end.

(** ** Constants *)
Definition ProtocolVersion : string := "ego-browser-bridge-v1".
Definition InnerProtocolVersion : string := "ego-browser-bridge-v1-inner".
Definition PinnedWrapperVersion : string := "0.1.19".
Definition defaultMaxScriptBytes : Z := 1048576.
Definition defaultMaxExecuteTimeoutMS : Z := 120000.
Definition defaultMaxPayloadBytes : Z := 16 * 1024 * 1024.
Definition defaultLeaseSeconds : Z := 60.
Definition defaultRenewIntervalSeconds : Z := 20.
Definition defaultRenewGraceSeconds : Z := 10.
Definition defaultAdmissionMinRemainingSeconds : Z := 20.
Definition keyWrapBytes : Z := 92.
Definition maximumAbandonedRelayRequests : Z := 4096.

Definition requiredBridgeCapabilities : list string :=
  [ "ego_browser_script_execute_v1"; "ego_browser_snapshot_v1";
    "ego_browser_screenshot_artifact_v1"; "ego_browser_task_space_v1";
    "ego_browser_concurrency_v1" ].

(** ** Small helpers of broker.go *)
Definition NUL : ascii := ascii_of_N 0.
Definition CR : ascii := ascii_of_N 13.
Definition LF : ascii := ascii_of_N 10.
Definition control_set : string := String NUL (String CR (String LF "")).
Definition wildcard_set : string := String "*" (String CR (String LF "")).

Definition validOpaqueText (value : string) (maximum : Z) : bool :=
  non_empty value && (len value <=? maximum) && negb (contains_any control_set value).

Definition validSHA256 (value : string) : bool :=
  (len value =? 71) && has_prefix "sha256:" value
  && all_chars is_hex (trim_prefix "sha256:" value).

Definition task_space_char (c : ascii) : bool := is_alnum c || has_char "-_:" c.

Definition dedicatedTaskSpace (toolSessionID : string) : result error string :=
  let value := "agent-remote:" +:+ toolSessionID in
  require len value <=? 256 orelse ErrProtocol "dedicated task space identity" ;;
  require all_chars task_space_char value orelse ErrProtocol "dedicated task space identity" ;;
  Ok value.

(** Decoding accepts CR and LF inside the text, so the code re-encodes to
    reject every alias. *)
Definition canonical_base64 (value : string) (decodedLength : Z) : bool :=
  match b64_decode value with
  | None => false
  | Some decoded =>
      (Z.of_nat (length decoded) =? decodedLength) && String.eqb (b64_encode decoded) value
  end.

Definition validCanonicalBase64URL (value : string) (decodedLength : Z) : bool :=
  if String.eqb value "" || (decodedLength <? 0) then false
  else canonical_base64 value decodedLength.

Definition minInt (left right : Z) : Z := if left <? right then left else right.

Definition deref (value : option string) : string := default "unknown" value.

Definition optionalString (value : string) : option string :=
  if String.eqb value "" then None else Some value.

Definition sameStringPointer (left right : option string) : bool :=
  match left, right with
  | Some l, Some r => String.eqb l r
  | None, None => true
  | _, _ => false
  end.

Record scope := Scope { scope_mode : string; scope_taskSpace : string; scope_tab : string }.

Definition binding_scope : scope := Scope "binding" "" "".

Definition normalizeScope (mode taskSpace tab : string) : result error scope :=
  let mode := trim_space mode in
  let taskSpace := trim_space taskSpace in
  let tab := trim_space tab in
  if String.eqb mode "" || String.eqb mode "binding" then Ok binding_scope
  else if (negb (String.eqb mode "task_space") && negb (String.eqb mode "task_space_tab"))
          || String.eqb taskSpace "" || contains_any wildcard_set taskSpace
  then Ok binding_scope
  else if String.eqb mode "task_space_tab"
          && (String.eqb tab "" || contains_any wildcard_set tab)
  then Ok binding_scope
  else if negb (validOpaqueText taskSpace 256)
          || (negb (String.eqb tab "") && negb (validOpaqueText tab 256))
  then Err (ErrProtocol "scope")
  else Ok (Scope mode taskSpace tab).

(** ** Configuration *)
Module Config.
Record Config := {
  Enabled : bool;
  NodeID : string;
  SocketPath : string;
  StateRoot : string;
  ControlPlaneConfigured : bool;
  LeaseSeconds : Z;
  RenewIntervalSeconds : Z;
  RenewGraceSeconds : Z;
  AdmissionMinRemainingSeconds : Z;
  MaxParallelRequests : Z;
  MaxScriptBytes : Z;
  MaxExecuteTimeoutMS : Z;
  WrapperVersion : string
}.

Definition positive_or (value fallback : Z) : Z := if value <=? 0 then fallback else value.
Definition text_or (value fallback : string) : string :=
  if String.eqb value "" then fallback else value.

(** The injected [GrantPeerAccess] hook is an argument of the operation that
    calls it, so it has no field here. *)
Definition withDefaults (c : Config) : Config := {|
  Enabled := Enabled c;
  NodeID := NodeID c;
  SocketPath := text_or (SocketPath c) "/run/agent-remote-node/ego-browser-broker.sock";
  StateRoot := text_or (StateRoot c) "/var/lib/agent-remote-node/ego-browser";
  ControlPlaneConfigured := ControlPlaneConfigured c;
  LeaseSeconds := positive_or (LeaseSeconds c) defaultLeaseSeconds;
  RenewIntervalSeconds := positive_or (RenewIntervalSeconds c) defaultRenewIntervalSeconds;
  RenewGraceSeconds := positive_or (RenewGraceSeconds c) defaultRenewGraceSeconds;
  AdmissionMinRemainingSeconds :=
    positive_or (AdmissionMinRemainingSeconds c) defaultAdmissionMinRemainingSeconds;
  MaxParallelRequests := positive_or (MaxParallelRequests c) 4;
  MaxScriptBytes := positive_or (MaxScriptBytes c) defaultMaxScriptBytes;
  MaxExecuteTimeoutMS := positive_or (MaxExecuteTimeoutMS c) defaultMaxExecuteTimeoutMS;
  WrapperVersion := text_or (WrapperVersion c) PinnedWrapperVersion
|}.

(** The limits check at the head of [New]. *)
Definition limits_ok (c : Config) : bool :=
  negb ((MaxParallelRequests c <? 1) || (4 <? MaxParallelRequests c)
        || (MaxScriptBytes c <? 1) || (defaultMaxScriptBytes <? MaxScriptBytes c)
        || (MaxExecuteTimeoutMS c <? 1) || (defaultMaxExecuteTimeoutMS <? MaxExecuteTimeoutMS c)
        || (LeaseSeconds c <=? RenewIntervalSeconds c)).
End Config.
Import Config(Config).

(** ** Binding metadata *)
Module Binding.
Record EgoBrowserBinding := {
  BindingID : string;
  EgoBrowserDeviceID : string;
  EncryptionPublicKey : string;
  ToolSessionID : string;
  NodeID : string;
  Status : string;
  ControlChannel : string;
  RelayBindingKind : string;
  AuthorizationMode : string;
  AuthorizationPolicyVersion : Z;
  BindingGeneration : Z;
  Generation : Z;
  ReleaseProfile : string;
  SignerCertificateSHA256 : string;
  CredentialProfile : string;
  RemotePlatform : string;
  LocalPlatform : string;
  BridgeProtocolVersion : string;
  LocalRuntimeVersion : option string;
  EgoLiteRuntimeVersion : option string;
  SkillVersion : option string;
  TaskSpaceLabel : option string;
  AllowlistRevision : Z;
  AllowlistRootsDigest : option string;
  LearningBundleDigest : option string;
  ConcurrencyMode : string;
  MaxParallelRequests : Z;
  Capabilities : list string;
  LeaseUntil : option string;
  LeaseHealth : string;
  LeaseGraceUntil : option string;
  LeaseRenewIntervalSeconds : Z;
  LeaseRenewFailureGraceSeconds : Z;
  AbsoluteTTLUntil : string
}.

Definition normalizeBindingGeneration (explicit legacy : Z) : result error Z :=
  if negb (explicit =? 0) && negb (legacy =? 0) && negb (explicit =? legacy)
  then Err (ErrProtocol "binding_generation and generation disagree")
  else if negb (explicit =? 0) then Ok explicit
  else Ok legacy.

Definition NormalizeBindingGeneration (value : EgoBrowserBinding)
    : result error EgoBrowserBinding :=
  generation ← normalizeBindingGeneration (BindingGeneration value) (Generation value);
  if negb (generation =? 0)
  then Ok (value <| BindingGeneration := generation |> <| Generation := generation |>)
  else Ok value.
End Binding.
Import Binding(EgoBrowserBinding).

Definition known_capability (capability : string) : bool :=
  bool_decide (capability ∈ requiredBridgeCapabilities)
  || String.eqb capability "ego_browser_file_allowlist_v1"
  || String.eqb capability "ego_browser_site_learning_v1".

(** The loop over the advertised capabilities; [None] is the early
    [return false]. *)
Fixpoint collect_capabilities (seen : gset string) (capabilities : list string)
    : option (gset string) :=
  match capabilities with
  | [] => Some seen
  | capability :: rest =>
      if negb (known_capability capability) then None
      else if bool_decide (capability ∈ seen) then None
      else collect_capabilities ({[capability]} ∪ seen) rest
  end.

Definition validBindingCapabilities (binding : EgoBrowserBinding) : bool :=
  match collect_capabilities ∅ (Binding.Capabilities binding) with
  | None => false
  | Some seen =>
      forallb (λ required, bool_decide (required ∈ seen)) requiredBridgeCapabilities
      && match Binding.AllowlistRootsDigest binding with
         | Some digest => validSHA256 digest | None => true end
      && match Binding.LearningBundleDigest binding with
         | Some digest => validSHA256 digest | None => true end
      && Bool.eqb (bool_decide ("ego_browser_file_allowlist_v1" ∈ seen))
           (is_some (Binding.AllowlistRootsDigest binding))
      && Bool.eqb (bool_decide ("ego_browser_site_learning_v1" ∈ seen))
           (is_some (Binding.LearningBundleDigest binding))
  end.

Definition accepted_status (status : string) : bool :=
  bool_decide (status ∈ ["active"; "connecting"; "pending_device"; "probing_local_browser";
                         "paused"; "expired"]).

Definition accepted_health (health : string) : bool :=
  bool_decide (health ∈ ["healthy"; "renewal_grace"; "expired"]).

Definition validateBinding (cfg : Config) (binding : EgoBrowserBinding) : result error unit :=
  require validOpaqueText (Binding.BindingID binding) 128
          && validOpaqueText (Binding.ToolSessionID binding) 128
          && negb (Binding.BindingGeneration binding =? 0)
          && validOpaqueText (Binding.NodeID binding) 128
    orelse ErrProtocol "binding identity" ;;
  require validCanonicalBase64URL (Binding.EncryptionPublicKey binding) 32
    orelse ErrProtocol "binding encryption key" ;;
  require String.eqb (Config.NodeID cfg) ""
          || String.eqb (Binding.NodeID binding) (Config.NodeID cfg)
    orelse ErrProtocol "binding node" ;;
  require String.eqb (Binding.ControlChannel binding) "ego_browser_bridge"
          && String.eqb (Binding.RelayBindingKind binding) "ego_browser"
          && String.eqb (Binding.AuthorizationMode binding) "ego_browser_script_full_trust"
          && (Binding.AuthorizationPolicyVersion binding =? 1)
          && String.eqb (Binding.RemotePlatform binding) "linux"
          && String.eqb (Binding.LocalPlatform binding) "macos"
    orelse ErrProtocol "binding contract" ;;
  require accepted_status (Binding.Status binding) orelse ErrProtocol "binding status" ;;
  require negb ((Binding.MaxParallelRequests binding <? 1)
                || (4 <? Binding.MaxParallelRequests binding))
    orelse ErrProtocol "binding parallelism" ;;
  require String.eqb (Binding.BridgeProtocolVersion binding) ProtocolVersion
    orelse ErrProtocol "binding protocol" ;;
  require negb (Binding.AllowlistRevision binding =? 0) && validBindingCapabilities binding
    orelse ErrProtocol "binding capabilities" ;;
  require accepted_health (Binding.LeaseHealth binding)
    orelse ErrProtocol "binding lease health" ;;
  require String.eqb (Binding.AbsoluteTTLUntil binding) ""
          || is_some (parse_rfc3339 (Binding.AbsoluteTTLUntil binding))
    orelse ErrProtocol "binding absolute TTL" ;;
  Ok tt.

(** ** Permit requests and permits *)
Module PermitRequest.
Record PermitRequest := {
  Protocol : string;
  Type_ : string;
  StartupNonce : string;
  ScriptBytes : Z;
  TimeoutMS : Z;
  CWDLabel : string;
  ConcurrencyMode : string;
  TaskSpaceScope : string;
  TabScope : string
}.
End PermitRequest.
Import PermitRequest(PermitRequest).

Module Permit.
Record Permit := {
  BindingID : string;
  Generation : Z;
  RequestID : string;
  Sequence : Z;
  ExpiresAt : time;
  MaxPayloadBytes : Z;
  MaxScriptBytes : Z;
  DefaultTaskSpace : string;
  AllowlistRevision : Z;
  LearningBundleDigest : option string;
  ConcurrencyMode : string;
  TaskSpaceScope : string;
  TabScope : string;
  SessionKey : bytes
}.
End Permit.
Import Permit(Permit).

(** The metadata checks at the head of [IssuePermit], before any state is
    read. *)
Definition validatePermitRequest (cfg : Config) (request : PermitRequest) : result error unit :=
  require Config.Enabled cfg orelse ErrDisabled ;;
  require String.eqb (PermitRequest.Protocol request) ProtocolVersion
          && String.eqb (PermitRequest.Type_ request) "permit_request"
    orelse ErrProtocol "permit request metadata" ;;
  require negb ((PermitRequest.ScriptBytes request <=? 0)
                || (Config.MaxScriptBytes cfg <? PermitRequest.ScriptBytes request))
    orelse ErrProtocol "script size" ;;
  require negb ((PermitRequest.TimeoutMS request <=? 0)
                || (Config.MaxExecuteTimeoutMS cfg <? PermitRequest.TimeoutMS request))
    orelse ErrProtocol "timeout" ;;
  require validOpaqueText (PermitRequest.CWDLabel request) 128
          && negb (contains ".." (PermitRequest.CWDLabel request))
    orelse ErrProtocol "cwd label" ;;
  Ok tt.

(** The scope checks of [IssuePermit]: a narrower scope must name the task
    space dedicated to the authenticated session. *)
Definition permitScope (toolSessionID : string) (request : PermitRequest)
    : result error (string * scope) :=
  defaultTaskSpace ← dedicatedTaskSpace toolSessionID;
  scope ← normalizeScope (PermitRequest.ConcurrencyMode request)
            (PermitRequest.TaskSpaceScope request) (PermitRequest.TabScope request);
  if negb (String.eqb (scope_mode scope) "binding") then
    require String.eqb (scope_taskSpace scope) defaultTaskSpace
      orelse ErrProtocol "task space scope is not dedicated to the tool session" ;;
    Ok (defaultTaskSpace, Scope (scope_mode scope) defaultTaskSpace (scope_tab scope))
  else Ok (defaultTaskSpace, scope).

(** ** Outer envelopes *)
Module Outer.
Record outerEnvelope := {
  Protocol : string;
  Channel : string;
  RelayBindingKind : string;
  Type_ : string;
  RequestID : string;
  BindingID : string;
  Generation : Z;
  Sequence : Z;
  Direction : string;
  PayloadBytes : Z;
  Nonce : string;
  Ciphertext : string;
  AuthTag : string;
  KeyWrap : string
}.

Definition zero : outerEnvelope :=
  Build_outerEnvelope "" "" "" "" "" "" 0 0 "" 0 "" "" "" "".

Definition names : list string :=
  [ "protocol"; "channel"; "relay_binding_kind"; "type"; "request_id"; "binding_id";
    "generation"; "sequence"; "direction"; "payload_bytes"; "nonce"; "ciphertext";
    "auth_tag"; "key_wrap" ].

Definition set_text (name : string) (text : string) (o : outerEnvelope) : outerEnvelope :=
  if String.eqb name "protocol" then o <| Protocol := text |>
  else if String.eqb name "channel" then o <| Channel := text |>
  else if String.eqb name "relay_binding_kind" then o <| RelayBindingKind := text |>
  else if String.eqb name "type" then o <| Type_ := text |>
  else if String.eqb name "request_id" then o <| RequestID := text |>
  else if String.eqb name "binding_id" then o <| BindingID := text |>
  else if String.eqb name "direction" then o <| Direction := text |>
  else if String.eqb name "nonce" then o <| Nonce := text |>
  else if String.eqb name "ciphertext" then o <| Ciphertext := text |>
  else if String.eqb name "auth_tag" then o <| AuthTag := text |>
  else o <| KeyWrap := text |>.

Definition assign (name raw : string) (v : json) (o : outerEnvelope) : option outerEnvelope :=
  if String.eqb name "generation" then
    z ← uint64_of_json (Generation o) v; Some (o <| Generation := z |>)
  else if String.eqb name "sequence" then
    z ← uint64_of_json (Sequence o) v; Some (o <| Sequence := z |>)
  else if String.eqb name "payload_bytes" then
    z ← int_of_json (PayloadBytes o) v; Some (o <| PayloadBytes := z |>)
  else match v with
       | JNull => Some o
       | JStr text => Some (set_text name text o)
       | _ => None
       end.

Definition of_json : json → option outerEnvelope := struct_of_json names assign zero.

(** [mustJSON] of an envelope: the members in declaration order. *)
Definition mustJSON (o : outerEnvelope) : string :=
  print_object
    [ ("protocol", quote (Protocol o)); ("channel", quote (Channel o));
      ("relay_binding_kind", quote (RelayBindingKind o)); ("type", quote (Type_ o));
      ("request_id", quote (RequestID o)); ("binding_id", quote (BindingID o));
      ("generation", itoa (Generation o)); ("sequence", itoa (Sequence o));
      ("direction", quote (Direction o)); ("payload_bytes", itoa (PayloadBytes o));
      ("nonce", quote (Nonce o)); ("ciphertext", quote (Ciphertext o));
      ("auth_tag", quote (AuthTag o)); ("key_wrap", quote (KeyWrap o)) ].
End Outer.
Import Outer(outerEnvelope).

(** [validateOuterPayload], shared by responses, cancellations and wrapped
    requests. *)
Definition validateOuterPayload (outer : outerEnvelope) (wireBytesLimit : Z)
    : result error unit :=
  require validOpaqueText (Outer.RequestID outer) 128
          && validOpaqueText (Outer.BindingID outer) 128
          && negb (Outer.Generation outer =? 0) && negb (Outer.Sequence outer =? 0)
          && negb (Outer.PayloadBytes outer <=? 0)
    orelse ErrProtocol "outer payload metadata" ;;
  require negb (wireBytesLimit <=? 0) orelse ErrProtocol "outer payload limit" ;;
  require String.eqb (Outer.KeyWrap outer) "" orelse ErrProtocol "response key wrap" ;;
  require canonical_base64 (Outer.Nonce outer) 12 orelse ErrProtocol "nonce" ;;
  require canonical_base64 (Outer.AuthTag outer) 16 orelse ErrProtocol "auth tag" ;;
  require canonical_base64 (Outer.Ciphertext outer) (Outer.PayloadBytes outer)
    orelse ErrProtocol "ciphertext" ;;
  Ok tt.

(** [validateOuter]: a request as the wrapper submits it. *)
Definition validateOuter (outer : outerEnvelope) (wireBytes : Z) : result error unit :=
  require String.eqb (Outer.Protocol outer) ProtocolVersion
          && String.eqb (Outer.Channel outer) "ego_browser_bridge"
          && String.eqb (Outer.RelayBindingKind outer) "ego_browser"
          && String.eqb (Outer.Type_ outer) "execute"
          && String.eqb (Outer.Direction outer) "request"
          && validOpaqueText (Outer.RequestID outer) 128
          && validOpaqueText (Outer.BindingID outer) 128
          && negb (Outer.Generation outer =? 0) && negb (Outer.Sequence outer =? 0)
          && negb (Outer.PayloadBytes outer <=? 0)
          && negb (defaultMaxPayloadBytes <? wireBytes)
    orelse ErrProtocol "outer metadata" ;;
  require String.eqb (Outer.KeyWrap outer) "" orelse ErrProtocol "wrapper key wrap" ;;
  require canonical_base64 (Outer.Nonce outer) 12 orelse ErrProtocol "nonce" ;;
  require canonical_base64 (Outer.AuthTag outer) 16 orelse ErrProtocol "auth tag" ;;
  require canonical_base64 (Outer.Ciphertext outer) (Outer.PayloadBytes outer)
    orelse ErrProtocol "ciphertext" ;;
  Ok tt.

Definition validateRelayResponse (response request : outerEnvelope) : result error unit :=
  require String.eqb (Outer.Protocol response) ProtocolVersion
          && String.eqb (Outer.Channel response) "ego_browser_bridge"
          && String.eqb (Outer.RelayBindingKind response) "ego_browser"
          && String.eqb (Outer.Type_ response) "execute_result"
          && String.eqb (Outer.Direction response) "response"
          && String.eqb (Outer.RequestID response) (Outer.RequestID request)
          && String.eqb (Outer.BindingID response) (Outer.BindingID request)
          && (Outer.Generation response =? Outer.Generation request)
          && (Outer.Sequence response =? Outer.Sequence request)
    orelse ErrProtocol "relay response identity" ;;
  validateOuterPayload response defaultMaxPayloadBytes.

Definition validateRelayResponseShape (response : outerEnvelope) : result error unit :=
  require String.eqb (Outer.Protocol response) ProtocolVersion
          && String.eqb (Outer.Channel response) "ego_browser_bridge"
          && String.eqb (Outer.RelayBindingKind response) "ego_browser"
          && String.eqb (Outer.Type_ response) "execute_result"
          && String.eqb (Outer.Direction response) "response"
    orelse ErrProtocol "relay response metadata" ;;
  validateOuterPayload response defaultMaxPayloadBytes.

Definition validateCancelOuter (cancel : outerEnvelope) (wireBytes : Z) : result error unit :=
  require String.eqb (Outer.Protocol cancel) ProtocolVersion
          && String.eqb (Outer.Channel cancel) "ego_browser_bridge"
          && String.eqb (Outer.RelayBindingKind cancel) "ego_browser"
          && String.eqb (Outer.Type_ cancel) "cancel"
          && String.eqb (Outer.Direction cancel) "request"
          && String.eqb (Outer.KeyWrap cancel) ""
          && negb (wireBytes <=? 0) && negb (defaultMaxPayloadBytes <? wireBytes)
    orelse ErrProtocol "cancel outer metadata" ;;
  validateOuterPayload cancel defaultMaxPayloadBytes.

Definition validateWrappedOuter (outer : outerEnvelope) (wireBytes : Z) : result error unit :=
  require negb (String.eqb (Outer.KeyWrap outer) "") orelse ErrProtocol "missing key wrap" ;;
  require canonical_base64 (Outer.KeyWrap outer) keyWrapBytes orelse ErrProtocol "key wrap" ;;
  validateOuterPayload (outer <| Outer.KeyWrap := "" |>) wireBytes.

(** ** Key wrapping and cancellation frames

    The ciphers, the key agreement and the hash are third-party or random:
    they are arguments.  [seal key nonce plaintext aad] is
    [chacha20poly1305.Seal], which appends a 16-byte tag; its constructor
    fails only for a key that is not 32 bytes long. *)
Definition keyWrapTranscript (bindingID : string) (generation sequence : Z)
    (requestID : string) : bytes :=
  bytes_of_string ("agent-remote/ego-browser/key-wrap/v1" +:+ String NUL "")
  ++ bytes_of_string bindingID ++ [byte_of_Z 0]
  ++ be_encode 8 generation ++ be_encode 8 sequence
  ++ bytes_of_string requestID.

Section Crypto.
Variable seal : bytes → bytes → bytes → bytes → bytes.
Variable sha256 : bytes → bytes.
(** [NewPublicKey] followed by [ECDH] with the ephemeral key; [None] when the
    key or the agreement is refused. *)
Variable agree : bytes → option bytes.

Definition wrap_key_label : bytes :=
  bytes_of_string ("agent-remote/ego-browser/key-wrap-key/v1" +:+ String NUL "").

Definition wrapSessionKey (ephemeralPublic nonce : bytes) (sessionKey : bytes)
    (recipientEncoded bindingID : string) (generation : Z) (requestID : string) (sequence : Z)
    : result error string :=
  require negb (String.eqb recipientEncoded "")
    orelse ErrProtocol "missing Bridge encryption key" ;;
  match b64_decode recipientEncoded with
  | Some recipientBytes =>
      require (Z.of_nat (length recipientBytes) =? 32)
              && String.eqb (b64_encode recipientBytes) recipientEncoded
        orelse ErrProtocol "Bridge encryption key" ;;
      match agree recipientBytes with
      | None => Err (ErrProtocol "key agreement")
      | Some shared =>
          let transcript := keyWrapTranscript bindingID generation sequence requestID in
          let wrapKey := sha256 (wrap_key_label ++ shared ++ transcript) in
          let encrypted := seal wrapKey nonce sessionKey transcript in
          require Z.of_nat (length encrypted) =? 48 orelse ErrProtocol "key wrap size" ;;
          Ok (b64_encode (ephemeralPublic ++ nonce ++ encrypted))
      end
  | None => Err (ErrProtocol "Bridge encryption key")
  end.

(** [json.Marshal] of a map writes the members sorted by key. *)
Definition outerAAD (envelope : outerEnvelope) : bytes :=
  bytes_of_string (print_object
    [ ("binding_id", quote (Outer.BindingID envelope));
      ("channel", quote (Outer.Channel envelope));
      ("direction", quote (Outer.Direction envelope));
      ("generation", itoa (Outer.Generation envelope));
      ("payload_bytes", itoa (Outer.PayloadBytes envelope));
      ("protocol", quote (Outer.Protocol envelope));
      ("relay_binding_kind", quote (Outer.RelayBindingKind envelope));
      ("request_id", quote (Outer.RequestID envelope));
      ("sequence", itoa (Outer.Sequence envelope));
      ("type", quote (Outer.Type_ envelope)) ]).

Definition innerCancelRequest (requestID : string) (sequence : Z) : bytes :=
  bytes_of_string (print_object
    [ ("protocol", quote InnerProtocolVersion); ("request_id", quote requestID);
      ("sequence", itoa sequence); ("type", quote "cancel") ]).

Definition cancelFrame (nonce : bytes) (request : outerEnvelope) (sessionKey : bytes)
    : result error (outerEnvelope * string) :=
  let plaintext := innerCancelRequest (Outer.RequestID request) (Outer.Sequence request) in
  let cancel := request <| Outer.Type_ := "cancel" |> <| Outer.Direction := "request" |>
                  <| Outer.PayloadBytes := Z.of_nat (length plaintext) |>
                  <| Outer.KeyWrap := "" |> <| Outer.Nonce := b64_encode nonce |> in
  let sealed := seal sessionKey nonce plaintext (outerAAD cancel) in
  require (length sealed =? length plaintext + 16)%nat
    orelse ErrProtocol "cancel ciphertext" ;;
  let cancel := cancel
    <| Outer.Ciphertext := b64_encode (take (length plaintext) sealed) |>
    <| Outer.AuthTag := b64_encode (drop (length plaintext) sealed) |> in
  let frame := Outer.mustJSON cancel in
  _ ← validateCancelOuter cancel (len frame);
  Ok (cancel, frame).
End Crypto.

(** ** Strict decoding (json.go) *)

(** One value, no duplicate member at any depth, no unknown field. *)
Definition decodeStrictJSON {R} (of_json : json → option R) (data : string) : option R :=
  v ← parse_json data;
  if no_duplicate_keys v then of_json v else None.

(** A [map[string]json.RawMessage] target takes an object or [null]. *)
Definition raw_map_of_json (v : json) : option json :=
  match v with JNull | JObj _ => Some v | _ => None end.

(** [rawString(envelope[key])]: the empty string unless the member is a
    string. *)
Definition rawString (envelope : json) (key : string) : string :=
  match raw_member envelope key with
  | Some (_, JStr text) => text
  | _ => ""
  end.

Module Decode.
Definition zero_permit_request : PermitRequest :=
  PermitRequest.Build_PermitRequest "" "" "" 0 0 "" "" "" "".

Definition permit_request_names : list string :=
  [ "protocol"; "type"; "startup_nonce"; "script_bytes"; "timeout_ms"; "cwd_label";
    "concurrency_mode"; "task_space_scope"; "tab_scope" ].

Definition set_permit_text (name text : string) (r : PermitRequest) : PermitRequest :=
  if String.eqb name "protocol" then r <| PermitRequest.Protocol := text |>
  else if String.eqb name "type" then r <| PermitRequest.Type_ := text |>
  else if String.eqb name "startup_nonce" then r <| PermitRequest.StartupNonce := text |>
  else if String.eqb name "cwd_label" then r <| PermitRequest.CWDLabel := text |>
  else if String.eqb name "concurrency_mode" then r <| PermitRequest.ConcurrencyMode := text |>
  else if String.eqb name "task_space_scope" then r <| PermitRequest.TaskSpaceScope := text |>
  else r <| PermitRequest.TabScope := text |>.

Definition permit_request_assign (name raw : string) (v : json) (r : PermitRequest)
    : option PermitRequest :=
  if String.eqb name "script_bytes" then
    z ← int_of_json (PermitRequest.ScriptBytes r) v;
    Some (r <| PermitRequest.ScriptBytes := z |>)
  else if String.eqb name "timeout_ms" then
    z ← int_of_json (PermitRequest.TimeoutMS r) v;
    Some (r <| PermitRequest.TimeoutMS := z |>)
  else match v with
       | JNull => Some r
       | JStr text => Some (set_permit_text name text r)
       | _ => None
       end.

Definition permit_request_of_json : json → option PermitRequest :=
  struct_of_json permit_request_names permit_request_assign zero_permit_request.

Record controlRequest := {
  Protocol : string; Type_ : string; StartupNonce : string; Payload : string }.

(** [controlRequest] and [submitRequest] have the same shape: three strings
    and one raw member, called [payload] or [envelope]. *)
Definition control_of_json (raw_name : string) : json → option controlRequest :=
  struct_of_json ["protocol"; "type"; "startup_nonce"; raw_name]
    (λ name raw v r,
      if String.eqb name raw_name then Some (r <| Payload := raw |>)
      else match v with
           | JNull => Some r
           | JStr text =>
               Some (if String.eqb name "protocol" then r <| Protocol := text |>
                     else if String.eqb name "type" then r <| Type_ := text |>
                     else r <| StartupNonce := text |>)
           | _ => None
           end)
    (Build_controlRequest "" "" "" "").

(** [decodeSubmitOrOuter]: the frame is an outer envelope, or a submit message
    that carries one. *)
Definition decodeSubmitOrOuter (frame startupNonce : string)
    : result error (string * outerEnvelope) :=
  match decodeStrictJSON raw_map_of_json frame with
  | None => Err (ErrProtocol "submit frame")
  | Some probe =>
      frame ←
        (if String.eqb (rawString probe "type") "submit" then
           match decodeStrictJSON (control_of_json "envelope") frame with
           | None => Err (ErrProtocol "submit frame")
           | Some submit =>
               require String.eqb (Protocol submit) ProtocolVersion
                       && String.eqb (StartupNonce submit) startupNonce
                       && negb (String.eqb (Payload submit) "")
                 orelse ErrProtocol "submit metadata" ;;
               Ok (Payload submit)
           end
         else Ok frame);
      match decodeStrictJSON Outer.of_json frame with
      | None => Err (ErrProtocol "outer envelope")
      | Some outer =>
          _ ← validateOuter outer (len frame);
          Ok (frame, outer)
      end
  end.

(** The monotonic sequence file. *)
Definition sequence_of_json : json → option (Z * Z) :=
  struct_of_json ["version"; "next_sequence"]
    (λ name raw v '(version, next),
      if String.eqb name "version" then z ← int_of_json version v; Some (z, next)
      else z ← uint64_of_json next v; Some (version, z))
    (0, 0).

Definition sequence_state_json (sequence : Z) : string :=
  print_object [("version", itoa 1); ("next_sequence", itoa sequence)].

(** The text part of [loadSequence]: the content of the file, if there is one. *)
Definition loadSequence (content : option string) : result error Z :=
  match content with
  | None => Ok 0
  | Some data =>
      match decodeStrictJSON sequence_of_json data with
      | Some (version, next) =>
          require version =? 1 orelse ErrProtocol "sequence state" ;; Ok next
      | None => Err (ErrProtocol "sequence state")
      end
  end.
End Decode.

(** ** Cancellation task payloads (task.go) *)
Module CancelRequestPayload.
Record CancelRequestPayload := {
  BindingID : string;
  Generation : Z;
  RequestID : string;
  Sequence : Z
}.

Definition assign (name raw : string) (v : json) (p : CancelRequestPayload)
    : option CancelRequestPayload :=
  if String.eqb name "binding_id" then
    s ← string_of_json (BindingID p) v; Some (p <| BindingID := s |>)
  else if String.eqb name "generation" then
    z ← uint64_of_json (Generation p) v; Some (p <| Generation := z |>)
  else if String.eqb name "request_id" then
    s ← string_of_json (RequestID p) v; Some (p <| RequestID := s |>)
  else z ← uint64_of_json (Sequence p) v; Some (p <| Sequence := z |>).

(** The task payload is a decoded JSON object, so its strings are valid UTF-8
    and its numbers are literals; marshalling it back only sorts the keys. *)
Definition DecodeCancelRequestPayload (payload : gmap string json)
    : result error CancelRequestPayload :=
  let fields := map (λ kv : string * json, (kv.1, "", kv.2))
    (merge_sort (λ a b : string * json, String.le a.1 b.1) (map_to_list payload)) in
  match assign_fields ["binding_id"; "generation"; "request_id"; "sequence"] assign fields
          (Build_CancelRequestPayload "" 0 "" 0) with
  | None => Err (ErrTransport "json")
  | Some decoded =>
      require validOpaqueText (BindingID decoded) 128 && negb (Generation decoded =? 0)
              && validOpaqueText (RequestID decoded) 128 && negb (Sequence decoded =? 0)
        orelse ErrProtocol "cancellation task identity" ;;
      Ok decoded
  end.
End CancelRequestPayload.
