(* ===== verification/EgoProtocolFacts.v ===== *)
(** * Facts about the ego-browser wire protocol

    The validators accept exactly the canonical encodings, the key-wrap
    transcript separates requests, the frames the broker builds pass its own
    validators, and the sequence file reads back what was written. *)

From S2P Require Import Prelude GoText GoBytes GoTime GoJson EgoProtocol.
From Stdlib.Strings Require Import Ascii.

(** ** Canonical base64 *)
Lemma canonical_base64_spec v n :
  canonical_base64 v n = true ↔ ∃ bs : bytes, Z.of_nat (length bs) = n ∧ v = b64_encode bs.
Proof.
  unfold canonical_base64. split.
  - destruct (b64_decode v) as [bs|]; [|discriminate]. intros H.
    apply andb_prop in H as [H1 H2]. apply Z.eqb_eq in H1. apply String.eqb_eq in H2. eauto.
  - intros (bs & <- & ->). by rewrite b64_decode_encode, Z.eqb_refl, String.eqb_refl.
Qed.

Lemma canonical_base64_encode bs : canonical_base64 (b64_encode bs) (Z.of_nat (length bs)) = true.
Proof. apply canonical_base64_spec. eauto. Qed.

(** A text is accepted exactly when it is the encoding of [n] bytes. *)
Theorem validCanonicalBase64URL_spec v n :
  0 < n →
  validCanonicalBase64URL v n = true ↔ ∃ bs : bytes, Z.of_nat (length bs) = n ∧ v = b64_encode bs.
Proof.
  intros Hn. unfold validCanonicalBase64URL. rewrite <- canonical_base64_spec.
  replace (n <? 0) with false by (symmetry; apply Z.ltb_ge; lia). rewrite orb_false_r.
  destruct (String.eqb_spec v "") as [->|]; [|done]. split; [done|].
  rewrite canonical_base64_spec. intros ([|? [|? [|??]]] & <- & Heq); cbn in Hn; try lia; discriminate.
Qed.

(** ** Key-wrap transcripts *)
Lemma list_byte_app s t : bytes_of_string (s +:+ t) = bytes_of_string s ++ bytes_of_string t.
Proof.
  unfold bytes_of_string, String.list_byte_of_string. induction s as [|c s IH]; [done|].
  change (String c s +:+ t) with (String c (s +:+ t)). cbn. by rewrite IH.
Qed.

Lemma bytes_of_string_inj s t : bytes_of_string s = bytes_of_string t → s = t.
Proof.
  unfold bytes_of_string. intros H.
  rewrite <- (String.string_of_list_byte_of_string s), <- (String.string_of_list_byte_of_string t).
  by f_equal.
Qed.

Lemma no_nul_split (z : byte) (p q r s : bytes) :
  z ∉ p → z ∉ q → p ++ z :: r = q ++ z :: s → p = q ∧ r = s.
Proof.
  revert q. induction p as [|x p IH]; intros [|y q] Hp Hq Heq; inversion Heq; subst.
  - done.
  - clear -Hq. set_solver.
  - clear -Hp. set_solver.
  - assert ((z ∉ p) ∧ (z ∉ q)) as [Hp' Hq'] by (clear -Hp Hq; set_solver).
    by destruct (IH q Hp' Hq') as [-> ->].
Qed.

Lemma opaque_no_nul s n : validOpaqueText s n = true → byte_of_Z 0 ∉ bytes_of_string s.
Proof.
  unfold validOpaqueText. rewrite !andb_true_iff. intros [_ H]. revert H.
  unfold contains_any. rewrite negb_involutive.
  induction s as [|c s IH]; [set_solver|]. cbn [all_chars]. rewrite andb_true_iff.
  intros [Hc Hs] [Heq|Hin]%elem_of_cons.
  - unfold bytes_of_string in Heq. cbn in Heq.
    destruct c as [[] [] [] [] [] [] [] []]; vm_compute in Hc; try discriminate Hc;
      vm_compute in Heq; discriminate.
  - by apply IH.
Qed.

Lemma be_encode_inj n x y :
  0 ≤ x < 256 ^ Z.of_nat n → 0 ≤ y < 256 ^ Z.of_nat n →
  be_encode n x = be_encode n y → x = y.
Proof.
  intros Hx Hy Heq. rewrite <- (be_roundtrip n x), <- (be_roundtrip n y) by done. by rewrite Heq.
Qed.

Lemma app_inj_length {A} (l1 l2 k1 k2 : list A) :
  length l1 = length l2 → l1 ++ k1 = l2 ++ k2 → l1 = l2 ∧ k1 = k2.
Proof. intros. by apply app_inj_1. Qed.

(** Two requests with a common transcript are the same request. *)
Theorem keyWrapTranscript_inj b g s r b' g' s' r' :
  validOpaqueText b 128 = true → validOpaqueText b' 128 = true →
  is_uint64 g → is_uint64 g' → is_uint64 s → is_uint64 s' →
  keyWrapTranscript b g s r = keyWrapTranscript b' g' s' r' →
  b = b' ∧ g = g' ∧ s = s' ∧ r = r'.
Proof.
  unfold is_uint64, max_uint64. intros Hb%opaque_no_nul Hb'%opaque_no_nul Hg Hg' Hs Hs' Heq.
  unfold keyWrapTranscript in Heq. apply (inj (app _)) in Heq.
  apply no_nul_split in Heq as [Hbb Heq]; [|done|done].
  apply app_inj_length in Heq as [Hgg Heq]; [|by rewrite !be_encode_length].
  apply app_inj_length in Heq as [Hss Heq]; [|by rewrite !be_encode_length].
  apply bytes_of_string_inj in Hbb, Heq.
  apply be_encode_inj in Hgg, Hss; change (256 ^ Z.of_nat 8) with (2 ^ 64); lia || auto.
Qed.

(** ** The sequence file *)
Lemma sequence_state_json_parse n :
  0 ≤ n ≤ max_uint64 →
  ∃ raw1 raw2, parse_json (Decode.sequence_state_json n) =
    Some (JObj [("version", raw1, JNum "1"); ("next_sequence", raw2, JNum (itoa n))]).
Proof.
  intros Hn. destruct (itoa_spec n Hn) as (d & ds & Heq & Hall & _ & _).
  pose proof (json_number_itoa n "}" Hn eq_refl) as Hnum.
  assert (Hd : is_digit d = true) by (cbn [all_chars] in Hall; by apply andb_prop in Hall as [? _]).
  unfold Decode.sequence_state_json, print_object. cbn [map fst snd join].
  rewrite Heq in Hnum |- *. change (String d ds +:+ "}") with (String d (ds +:+ "}")) in Hnum.
  rewrite !string_app_assoc. change (String d ds +:+ "}") with (String d (ds +:+ "}")).
  generalize dependent (ds +:+ "}"). intros tail Hnum.
  unfold parse_json.
  match goal with |- context [json_value (3 * String.length ?s + 3) _ _] =>
    let s' := eval vm_compute in s in change s with s';
    pose (text := s'); change s' with text;
    assert (Hf : ∃ m, (3 * String.length text + 3 = 8 + m)%nat) by
      (exists (3 * String.length text + 3 - 8)%nat; subst text; cbn [String.length]; lia)
  end.
  destruct Hf as [m ->]. subst text.
  change max_depth with (S (Z.to_nat 9999)). generalize (Z.to_nat 9999). intros dep.
  change (8 + m)%nat with (S (S (S (S (S (S (S (S m)))))))).
  eexists _, _. erewrite json_value_object;
    [|done|done|eapply json_fields_more;
       [vm_compute; reflexivity|reflexivity|apply json_value_number; [done|vm_compute; reflexivity]
       |reflexivity|eapply json_fields_last;
         [vm_compute; reflexivity|reflexivity|by apply json_value_number|reflexivity]]].
  reflexivity.
Qed.

(** The persisted sequence reads back. *)
Theorem loadSequence_persisted n :
  0 ≤ n ≤ max_uint64 → Decode.loadSequence (Some (Decode.sequence_state_json n)) = Ok n.
Proof.
  intros Hn. destruct (sequence_state_json_parse n Hn) as (raw1 & raw2 & Hp).
  destruct (itoa_spec n Hn) as (d & ds & Heq & Hall & _ & Hv).
  unfold Decode.loadSequence, decodeStrictJSON. rewrite Hp. cbn [mbind option_bind].
  assert (uint64_of_json 0 (JNum (itoa n)) = Some n) as Hu.
  { unfold uint64_of_json, int_literal. rewrite Heq in *.
    assert (is_digit d = true) as Hd by (cbn [all_chars] in Hall; by apply andb_prop in Hall as [? _]).
    destruct d as [[] [] [] [] [] [] [] []]; try discriminate Hd; rewrite Hv; cbn [mbind option_bind];
    (replace (n <=? max_uint64) with true by (symmetry; apply Z.leb_le; lia)); done. }
  assert (Decode.sequence_of_json
    (JObj [("version", raw1, JNum "1"); ("next_sequence", raw2, JNum (itoa n))]) = Some (1, n)) as ->.
  { unfold Decode.sequence_of_json, struct_of_json. cbn [assign_fields].
    change (match_field _ "version") with (Some "version").
    change (match_field _ "next_sequence") with (Some "next_sequence").
    cbn [mbind option_bind String.eqb Ascii.eqb Bool.eqb].
    change (int_of_json 0 (JNum "1")) with (Some 1). cbn [mbind option_bind].
    by rewrite Hu. }
  done.
Qed.

(** ** Frames the broker builds *)
Lemma b64_encode_len bs : len (b64_encode bs) ≤ 2 * Z.of_nat (length bs) + 2.
Proof.
  induction bs as [|a|a b|a b c bs IH] using bytes_ind3; try (vm_compute; discriminate).
  cbn [b64_encode]. rewrite !len_string. cbn [length]. lia.
Qed.

Lemma opaque_len s n : validOpaqueText s n = true → len s ≤ n.
Proof. unfold validOpaqueText. rewrite !andb_true_iff, Z.leb_le. tauto. Qed.

Lemma bytes_of_string_length s : Z.of_nat (length (bytes_of_string s)) = len s.
Proof.
  unfold bytes_of_string, String.list_byte_of_string, len. rewrite length_map.
  f_equal. induction s; cbn; auto.
Qed.

Lemma validateOuter_inv outer wire :
  validateOuter outer wire = Ok tt →
  Outer.Protocol outer = ProtocolVersion ∧ Outer.Channel outer = "ego_browser_bridge" ∧
  Outer.RelayBindingKind outer = "ego_browser" ∧
  validOpaqueText (Outer.RequestID outer) 128 = true ∧
  validOpaqueText (Outer.BindingID outer) 128 = true ∧
  (Outer.Generation outer =? 0) = false ∧ (Outer.Sequence outer =? 0) = false ∧
  (Outer.PayloadBytes outer <=? 0) = false ∧ Outer.KeyWrap outer = "" ∧
  canonical_base64 (Outer.Nonce outer) 12 = true ∧
  canonical_base64 (Outer.AuthTag outer) 16 = true ∧
  canonical_base64 (Outer.Ciphertext outer) (Outer.PayloadBytes outer) = true.
Proof.
  unfold validateOuter. intros H. go_inv H.
  rewrite !andb_true_iff, !negb_true_iff, !String.eqb_eq in *. tauto.
Qed.

(** Wrapping the session key keeps a validated request valid. *)
Theorem wrapped_request_valid seal sha256 agree pub nonce key recipient request wrapped wire wire' :
  length pub = 32%nat → length nonce = 12%nat → 0 < wire' →
  validateOuter request wire = Ok tt →
  wrapSessionKey seal sha256 agree pub nonce key recipient (Outer.BindingID request)
    (Outer.Generation request) (Outer.RequestID request) (Outer.Sequence request) = Ok wrapped →
  validateWrappedOuter (request <| Outer.KeyWrap := wrapped |>) wire' = Ok tt.
Proof.
  intros Hpub Hnonce Hwire (_ & _ & _ & Hr & Hb & Hg & Hs & Hp & _ & Hn & Ht & Hc)%validateOuter_inv Hw.
  unfold wrapSessionKey in Hw. go_inv Hw. destruct (b64_decode recipient); [|discriminate].
  go_inv Hw. destruct (agree _); [|discriminate]. go_inv Hw. apply Ok_inj in Hw as <-.
  apply Z.eqb_eq in Hguard1.
  set (w := pub ++ nonce ++ _). assert (Hlen : Z.of_nat (length w) = keyWrapBytes).
  { subst w. rewrite !length_app, Hpub, Hnonce. unfold keyWrapBytes. lia. }
  unfold validateWrappedOuter, validateOuterPayload. cbn -[canonical_base64 validOpaqueText].
  rewrite <- Hlen at 1. rewrite canonical_base64_encode, Hr, Hb, Hg, Hs, Hp, Hn, Ht, Hc.
  replace (wire' <=? 0) with false by (symmetry; apply Z.leb_gt; lia).
  destruct (b64_encode w) eqn:E; [|done].
  exfalso. destruct w as [|? [|? [|??]]]; discriminate || (cbn in Hlen; discriminate).
Qed.

Lemma innerCancelRequest_length requestID sequence :
  validOpaqueText requestID 128 = true →
  0 < Z.of_nat (length (innerCancelRequest requestID sequence)) ≤ 4000.
Proof.
  intros Hr%opaque_len. unfold innerCancelRequest. rewrite bytes_of_string_length. split.
  - unfold print_object. rewrite len_app. change (len "{") with 1.
    pose proof (len_nonneg (join "," (map (λ f, quote f.1 +:+ ":" +:+ f.2)
      [("protocol", quote InnerProtocolVersion); ("request_id", quote requestID);
       ("sequence", itoa sequence); ("type", quote "cancel")]) +:+ "}")). lia.
  - etrans; [apply (print_object_len _ 900)|cbn; lia].
    pose proof (quote_len requestID). pose proof (itoa_len sequence).
    bound_members; eval_len; lia.
Qed.

(** A validated request can always be cancelled: sealing its cancellation
    produces a frame that passes the broker's own check. *)
Theorem cancelFrame_total seal nonce request key wire :
  (∀ k n p a, length (seal k n p a) = length p + 16)%nat →
  length nonce = 12%nat → validateOuter request wire = Ok tt →
  ∃ cancel frame, cancelFrame seal nonce request key = Ok (cancel, frame) ∧
    Outer.Type_ cancel = "cancel" ∧ Outer.RequestID cancel = Outer.RequestID request ∧
    Outer.BindingID cancel = Outer.BindingID request ∧
    Outer.Generation cancel = Outer.Generation request ∧
    Outer.Sequence cancel = Outer.Sequence request ∧ len frame ≤ defaultMaxPayloadBytes.
Proof.
  intros Hseal Hnonce (Hpr & Hch & Hk & Hr & Hb & Hg & Hs & _)%validateOuter_inv.
  pose proof (innerCancelRequest_length (Outer.RequestID request) (Outer.Sequence request) Hr) as Hplain.
  unfold cancelFrame. cbn zeta. set (plain := innerCancelRequest _ _) in *. clearbody plain.
  set (cancel := request <| Outer.Type_ := _ |> <| _ := _ |> <| _ := _ |> <| _ := _ |> <| _ := _ |>).
  set (sealed := seal key nonce plain (outerAAD cancel)).
  assert (Hsealed : length sealed = (length plain + 16)%nat) by apply Hseal.
  clearbody sealed. rewrite Hsealed, Nat.eqb_refl.
  set (final := cancel <| Outer.Ciphertext := _ |> <| Outer.AuthTag := _ |>).
  assert (Hct : length (take (length plain) sealed) = length plain) by (rewrite length_take; lia).
  assert (Htag : length (drop (length plain) sealed) = 16%nat) by (rewrite length_drop; lia).
  assert (Hframe : 0 < len (Outer.mustJSON final) ≤ defaultMaxPayloadBytes).
  { unfold Outer.mustJSON. split.
    { unfold print_object. rewrite len_app. eval_len.
      match goal with |- context [len ?s] => pose proof (len_nonneg s) end. lia. }
    pose proof (opaque_len _ _ Hr). pose proof (opaque_len _ _ Hb).
    pose proof (quote_len (Outer.RequestID request)). pose proof (quote_len (Outer.BindingID request)).
    pose proof (itoa_len (Outer.Generation request)). pose proof (itoa_len (Outer.Sequence request)).
    pose proof (itoa_len (Z.of_nat (length plain))).
    pose proof (quote_len (b64_encode nonce)). pose proof (b64_encode_len nonce).
    pose proof (quote_len (b64_encode (take (length plain) sealed))).
    pose proof (b64_encode_len (take (length plain) sealed)).
    pose proof (quote_len (b64_encode (drop (length plain) sealed))).
    pose proof (b64_encode_len (drop (length plain) sealed)).
    cbn [Outer.Protocol Outer.Channel Outer.RelayBindingKind Outer.Type_ Outer.RequestID
      Outer.BindingID Outer.Generation Outer.Sequence Outer.Direction Outer.PayloadBytes
      Outer.Nonce Outer.Ciphertext Outer.AuthTag Outer.KeyWrap set const final cancel].
    rewrite Hpr, Hch, Hk.
    etrans; [apply (print_object_len _ 60000)|cbn; unfold defaultMaxPayloadBytes; lia].
    bound_members; eval_len; lia. }
  assert (Hvalid : validateCancelOuter final (len (Outer.mustJSON final)) = Ok tt).
  { generalize dependent (len (Outer.mustJSON final)). intros frame Hframe.
    unfold validateCancelOuter, validateOuterPayload.
    replace (frame <=? 0) with false by (symmetry; apply Z.leb_gt; lia).
    replace (defaultMaxPayloadBytes <? frame) with false by (symmetry; apply Z.ltb_ge; lia).
    pose proof (canonical_base64_encode nonce) as Hn. rewrite Hnonce in Hn.
    pose proof (canonical_base64_encode (take (length plain) sealed)) as Hc. rewrite Hct in Hc.
    pose proof (canonical_base64_encode (drop (length plain) sealed)) as Ht. rewrite Htag in Ht.
    cbn -[canonical_base64 validOpaqueText Z.of_nat]. rewrite Hpr, Hch, Hk, Hr, Hb, Hg, Hs.
    change (Z.of_nat 12) with 12 in Hn. change (Z.of_nat 16) with 16 in Ht.
    replace (Z.of_nat (length plain) <=? 0) with false by (symmetry; apply Z.leb_gt; lia).
    by rewrite Hn, Ht, Hc. }
  rewrite Hvalid. cbn [mbind result_bind]. eexists _, _. split; [done|]. cbn. tauto.
Qed.

(** ** Witnesses *)
Definition sample_bytes (n : nat) : bytes := replicate n (byte_of_Z 65).

Definition sample_request : Outer.outerEnvelope := {|
  Outer.Protocol := ProtocolVersion; Outer.Channel := "ego_browser_bridge";
  Outer.RelayBindingKind := "ego_browser"; Outer.Type_ := "execute"; Outer.RequestID := "request-1";
  Outer.BindingID := "binding-1"; Outer.Generation := 5; Outer.Sequence := 9;
  Outer.Direction := "request"; Outer.PayloadBytes := 3;
  Outer.Nonce := b64_encode (sample_bytes 12); Outer.Ciphertext := b64_encode (sample_bytes 3);
  Outer.AuthTag := b64_encode (sample_bytes 16); Outer.KeyWrap := ""
|}.

(** A cipher with the shape of an AEAD: the plaintext and a 16-byte tag. *)
Definition sample_seal (key nonce plaintext aad : bytes) : bytes := plaintext ++ sample_bytes 16.

Lemma validCanonicalBase64URL_spec_witness :
  validCanonicalBase64URL (b64_encode (sample_bytes 32)) 32 = true ↔
  ∃ bs : bytes, Z.of_nat (length bs) = 32 ∧ b64_encode (sample_bytes 32) = b64_encode bs.
Proof. apply (validCanonicalBase64URL_spec (b64_encode (sample_bytes 32)) 32). lia. Defined.

Lemma keyWrapTranscript_inj_witness :
  "binding-1" = "binding-1" ∧ 5 = 5 ∧ 9 = 9 ∧ "request-1" = "request-1".
Proof.
  apply (keyWrapTranscript_inj "binding-1" 5 9 "request-1" "binding-1" 5 9 "request-1");
    done || (unfold is_uint64, max_uint64; lia).
Defined.

Lemma wrapped_request_valid_witness :
  ∃ wrapped, wrapSessionKey sample_seal (λ b, b) (λ b, Some b) (sample_bytes 32) (sample_bytes 12)
      (sample_bytes 32) (b64_encode (sample_bytes 32)) "binding-1" 5 "request-1" 9 = Ok wrapped ∧
    validateWrappedOuter (sample_request <| Outer.KeyWrap := wrapped |>) 900 = Ok tt.
Proof.
  eexists. split; [vm_compute; reflexivity|].
  eapply (wrapped_request_valid sample_seal (λ b, b) (λ b, Some b) (sample_bytes 32) (sample_bytes 12)
    (sample_bytes 32) (b64_encode (sample_bytes 32)) sample_request _ 500 900);
    [reflexivity|reflexivity|lia|vm_compute; reflexivity|vm_compute; reflexivity].
Defined.

Lemma cancelFrame_total_witness :
  ∃ cancel frame, cancelFrame sample_seal (sample_bytes 12) sample_request (sample_bytes 32) = Ok (cancel, frame) ∧
    Outer.Type_ cancel = "cancel" ∧ Outer.RequestID cancel = "request-1" ∧
    Outer.BindingID cancel = "binding-1" ∧ Outer.Generation cancel = 5 ∧ Outer.Sequence cancel = 9 ∧
    len frame ≤ defaultMaxPayloadBytes.
Proof.
  apply (cancelFrame_total sample_seal (sample_bytes 12) sample_request (sample_bytes 32) 500);
    [|reflexivity|vm_compute; reflexivity].
  intros k n p a. unfold sample_seal. by rewrite length_app.
Defined.

Lemma loadSequence_persisted_witness :
  Decode.loadSequence (Some (Decode.sequence_state_json 18446744073709551615)) = Ok 18446744073709551615.
Proof. apply (loadSequence_persisted 18446744073709551615). unfold max_uint64. lia. Defined.
