(* ===== verification/EgoRelay.v ===== *)
(** * The relay session (broker.go, [relaySession])

    A session multiplexes the requests of one binding over one connection:
    [pending] maps the identity of a request in flight to the channel its
    result goes to, [abandoned] holds the identities whose response is to be
    dropped.  A result channel has room for one value; [sent] records what was
    sent on each channel, so a send on a channel that already has a value is
    a send that could block.  Each operation is the region the code executes
    under [pendingMu], with the sends that follow it: only the remover of a
    pending entry sends on its channel. *)

From S2P Require Import Prelude GoText GoBytes GoTime GoJson EgoProtocol.

Module RelayKey.
Record relayRequestKey := {
  bindingID : string;
  generation : Z;
  requestID : string;
  sequence : Z
}.

#[global] Instance key_eq_dec : EqDecision relayRequestKey.
Proof. solve_decision. Defined.

#[global] Program Instance key_countable : Countable relayRequestKey :=
  inj_countable' (λ k, (bindingID k, generation k, requestID k, sequence k))
    (λ '(b, g, r, s), Build_relayRequestKey b g r s) _.
Next Obligation. by intros []. Qed.
End RelayKey.
Import RelayKey(relayRequestKey).

Definition relayKey (envelope : Outer.outerEnvelope) : relayRequestKey := {|
  RelayKey.bindingID := Outer.BindingID envelope;
  RelayKey.generation := Outer.Generation envelope;
  RelayKey.requestID := Outer.RequestID envelope;
  RelayKey.sequence := Outer.Sequence envelope
|}.

Definition chan := nat.

(** [relayResult]: a response frame or the reason the session closed. *)
Inductive relayResult :=
  | ResultFrame (frame : string)
  | ResultErr (reason : error).

(** The result channels of every session. *)
Record channels := Channels { sent : gmap chan (list relayResult); next_chan : chan }.

Definition no_channels : channels := Channels ∅ 0%nat.

Definition results (c : channels) (ch : chan) : list relayResult := default [] (sent c !! ch).

Definition send_result (ch : chan) (r : relayResult) (c : channels) : channels :=
  Channels (<[ch := results c ch ++ [r]]> (sent c)) (next_chan c).

Record pendingRelayRequest := Pending {
  pending_request : Outer.outerEnvelope;
  pending_result : chan
}.

Module Relay.
Record relaySession := {
  pending : gmap relayRequestKey pendingRelayRequest;
  abandoned : gset relayRequestKey;
  closed : bool
}.

Definition newRelaySession : relaySession := Build_relaySession ∅ ∅ false.

Definition register (session : relaySession) (c : channels) (request : Outer.outerEnvelope)
    : relaySession * channels * result error chan :=
  let key := relayKey request in
  let ch := next_chan c in
  let c := Channels (sent c) (S (next_chan c)) in
  if closed session then (session, c, Err ErrUnavailable)
  else if is_some (pending session !! key)
  then (session, c, Err (ErrProtocol "duplicate pending relay request"))
  else if bool_decide (key ∈ abandoned session)
  then (session, c, Err (ErrProtocol "reused abandoned relay request"))
  else (session <| pending := <[key := Pending request ch]> (pending session) |>, c, Ok ch).

Definition abandon (session : relaySession) (key : relayRequestKey) (ch : chan)
    : relaySession * result error unit :=
  match pending session !! key with
  | Some p =>
      if (pending_result p =? ch)%nat then
        let session := session <| pending := delete key (pending session) |> in
        if maximumAbandonedRelayRequests <=? Z.of_nat (size (abandoned session))
        then (session, Err (ErrProtocol "too many abandoned relay requests"))
        else (session <| abandoned := {[key]} ∪ abandoned session |>, Ok tt)
      else (session, Ok tt)
  | None => (session, Ok tt)
  end.

Definition deliver (session : relaySession) (c : channels) (response : Outer.outerEnvelope)
    (frame : string) : relaySession * channels * result error unit :=
  let key := relayKey response in
  if bool_decide (key ∈ abandoned session)
  then (session <| abandoned := abandoned session ∖ {[key]} |>, c, Ok tt)
  else
    match pending session !! key with
    | None => (session, c, Err (ErrProtocol "unexpected relay response"))
    | Some p =>
        match validateRelayResponse response (pending_request p) with
        | Err e => (session, c, Err e)
        | Ok _ =>
            (session <| pending := delete key (pending session) |>,
             send_result (pending_result p) (ResultFrame frame) c, Ok tt)
        end
    end.

Definition fail_pending (reason : error) (ps : list pendingRelayRequest) (c : channels)
    : channels :=
  foldr (λ p c, send_result (pending_result p) (ResultErr reason) c) c ps.

(** [closeOnce] runs the body for the first caller only. *)
Definition closeWithError (session : relaySession) (c : channels) (reason : error)
    : relaySession * channels :=
  if closed session then (session, c)
  else
    (Build_relaySession ∅ ∅ true,
     fail_pending reason (map snd (map_to_list (pending session))) c).

(** One turn of the [readRelay] loop: [None] is a receive error, a frame is
    checked for its size, decoded, checked for its shape and delivered.  The
    result is the error that makes the loop fail the relay. *)
Definition readRelay_turn (session : relaySession) (c : channels) (received : result error string)
    : relaySession * channels * result error unit :=
  match received with
  | Err e => (session, c, Err e)
  | Ok frame =>
      if (len frame =? 0) || (defaultMaxPayloadBytes <? len frame)
      then (session, c, Err (ErrProtocol "relay response size"))
      else
        match decodeStrictJSON Outer.of_json frame with
        | None => (session, c, Err (ErrProtocol "relay response envelope"))
        | Some response =>
            match validateRelayResponseShape response with
            | Err e => (session, c, Err e)
            | Ok _ => deliver session c response frame
            end
        end
  end.

(** The loop over a finite sequence of receptions: it stops at the first error
    and closes the session with it. *)
Fixpoint readRelay (session : relaySession) (c : channels) (received : list (result error string))
    : relaySession * channels :=
  match received with
  | [] => (session, c)
  | r :: rest =>
      match readRelay_turn session c r with
      | (session, c, Ok _) => readRelay session c rest
      | (session, c, Err e) => closeWithError session c e
      end
  end.
End Relay.
Import Relay(relaySession).

(** ** Steps and invariant *)
Inductive relay_step : relaySession * channels → relaySession * channels → Prop :=
  | relay_register s c request s' c' r :
      Relay.register s c request = (s', c', r) → relay_step (s, c) (s', c')
  | relay_abandon s c key ch s' r :
      Relay.abandon s key ch = (s', r) → relay_step (s, c) (s', c)
  | relay_read s c received s' c' r :
      Relay.readRelay_turn s c received = (s', c', r) → relay_step (s, c) (s', c')
  | relay_close s c reason s' c' :
      Relay.closeWithError s c reason = (s', c') → relay_step (s, c) (s', c').

Record relay_inv (s : relaySession) (c : channels) : Prop := {
  inv_key : ∀ k p, Relay.pending s !! k = Some p → k = relayKey (pending_request p);
  inv_chan_inj : ∀ k k' p p', Relay.pending s !! k = Some p → Relay.pending s !! k' = Some p' →
    pending_result p = pending_result p' → k = k';
  inv_open : ∀ k p, Relay.pending s !! k = Some p →
    (pending_result p < next_chan c)%nat ∧ results c (pending_result p) = [];
  inv_fresh : ∀ ch, (next_chan c ≤ ch)%nat → results c ch = [];
  inv_once : ∀ ch, (length (results c ch) ≤ 1)%nat;
  inv_disjoint : ∀ k, k ∈ Relay.abandoned s → Relay.pending s !! k = None;
  inv_abandoned : Z.of_nat (size (Relay.abandoned s)) ≤ maximumAbandonedRelayRequests;
  inv_closed : Relay.closed s = true → Relay.pending s = ∅ ∧ Relay.abandoned s = ∅
}.

Lemma results_send ch r c ch' :
  results (send_result ch r c) ch' =
    if decide (ch = ch') then results c ch ++ [r] else results c ch'.
Proof.
  unfold results at 1, send_result. cbn [sent]. destruct (decide (ch = ch')) as [->|].
  - by rewrite lookup_insert_eq.
  - by rewrite lookup_insert_ne.
Qed.

Lemma relay_inv_init c :
  (∀ ch, (next_chan c ≤ ch)%nat → results c ch = []) →
  (∀ ch, (length (results c ch) ≤ 1)%nat) →
  relay_inv Relay.newRelaySession c.
Proof.
  intros Hf Ho. split; cbn; done || (intros *; by rewrite ?lookup_empty).
Qed.

Lemma results_next_chan c n ch : results (Channels (sent c) n) ch = results c ch.
Proof. done. Qed.

Lemma register_inv s c request s' c' r :
  relay_inv s c → Relay.register s c request = (s', c', r) → relay_inv s' c'.
Proof.
  intros [Hk Hi Ho Hf H1 Hd Ha Hc] H. unfold Relay.register in H.
  assert (Hfr : relay_inv s (Channels (sent c) (S (next_chan c)))).
  { split; auto; cbn [next_chan]; intros.
    - rewrite results_next_chan. destruct (Ho k p); [done|]. split; [lia|done].
    - rewrite results_next_chan. apply Hf. lia. }
  destruct (Relay.closed s) eqn:Ec; [by simplify_eq|].
  destruct (Relay.pending s !! relayKey request) as [|] eqn:Ep; cbn in H; [by simplify_eq|].
  case_bool_decide as Eab; simplify_eq; [done|]. clear Hfr.
  split; cbn [Relay.pending Relay.abandoned Relay.closed set const next_chan]; auto.
  - intros k p [[<- <-]|[? Hp]]%lookup_insert_Some; [done|eauto].
  - intros k k' p p' [[<- <-]|[Hne Hp]]%lookup_insert_Some [[<- <-]|[Hne' Hp']]%lookup_insert_Some Heq;
      cbn in Heq.
    + done.
    + apply Ho in Hp' as [? _]. lia.
    + apply Ho in Hp as [? _]. lia.
    + eauto.
  - intros k p. rewrite results_next_chan. intros [[<- <-]|[? Hp]]%lookup_insert_Some.
    + cbn. split; [lia|]. by apply Hf.
    + destruct (Ho k p Hp). split; [lia|done].
  - intros ch ?. rewrite results_next_chan. apply Hf. lia.
  - intros k Hin. rewrite lookup_insert_ne; [auto|]. by intros <-.
  - congruence.
Qed.

Lemma abandon_inv s c key ch s' r :
  relay_inv s c → Relay.abandon s key ch = (s', r) → relay_inv s' c.
Proof.
  intros [Hk Hi Ho Hf H1 Hd Ha Hc] H. unfold Relay.abandon in H.
  destruct (Relay.pending s !! key) as [p|] eqn:Ep; [|by simplify_eq].
  destruct (_ =? _)%nat; [|by simplify_eq].
  assert (Hdel : relay_inv (s <| Relay.pending := delete key (Relay.pending s) |>) c).
  { split; cbn; auto.
    - intros k q [? Hq]%lookup_delete_Some. eauto.
    - intros k k' q q' [? Hq]%lookup_delete_Some [? Hq']%lookup_delete_Some. eauto.
    - intros k q [? Hq]%lookup_delete_Some. eauto.
    - intros k Hin. apply lookup_delete_None. auto.
    - intros Hcl. destruct (Hc Hcl) as [He _]. by rewrite He, lookup_empty in Ep. }
  destruct (_ <=? _) eqn:Esize; simplify_eq; [done|]. apply Z.leb_gt in Esize. cbn in Esize.
  destruct Hdel as [Hk' Hi' Ho' _ _ Hd' _ Hc'].
  split; cbn in *; auto.
  - intros k. rewrite elem_of_union, elem_of_singleton. intros [->|Hin]; [by rewrite lookup_delete_eq|].
    apply Hd'. done.
  - rewrite size_union_alt. 
    assert (size (Relay.abandoned s ∖ {[key]}) ≤ size (Relay.abandoned s))%nat
      by (apply subseteq_size; set_solver).
    rewrite size_singleton. unfold maximumAbandonedRelayRequests in *. lia.
  - intros Hcl. destruct (Hc Hcl) as [He _]. by rewrite He, lookup_empty in Ep.
Qed.

Lemma deliver_inv s c response frame s' c' r :
  relay_inv s c → Relay.deliver s c response frame = (s', c', r) → relay_inv s' c'.
Proof.
  intros Hinv H. pose proof Hinv as [Hk Hi Ho Hf H1 Hd Ha Hc]. unfold Relay.deliver in H.
  case_bool_decide as Eab; simplify_eq.
  { split; cbn; auto.
    - intros k Hin. apply Hd. set_solver.
    - assert (size (Relay.abandoned s ∖ {[relayKey response]}) ≤ size (Relay.abandoned s))%nat
        by (apply subseteq_size; set_solver). lia.
    - intros Hcl. destruct (Hc Hcl) as [? He]. rewrite He in *. split; [done|set_solver]. }
  destruct (Relay.pending s !! _) as [p|] eqn:Ep; [|by simplify_eq].
  destruct (validateRelayResponse _ _); simplify_eq; [|done].
  destruct (Ho _ _ Ep) as [Hlt Hempty].
  split; cbn; auto.
  - intros k q [? Hq]%lookup_delete_Some. eauto.
  - intros k k' q q' [? Hq]%lookup_delete_Some [? Hq']%lookup_delete_Some. eauto.
  - intros k q [Hne Hq]%lookup_delete_Some. rewrite results_send, decide_False; [eauto|].
    intros Heq. apply Hne. by eapply Hi.
  - intros ch Hch. rewrite results_send, decide_False; [auto|lia].
  - intros ch. rewrite results_send. destruct (decide _) as [<-|]; [|auto]. by rewrite Hempty.
  - intros k Hin. apply lookup_delete_None. auto.
  - intros Hcl. destruct (Hc Hcl) as [He _]. by rewrite He, lookup_empty in Ep.
Qed.

Lemma fail_pending_results reason ps c ch :
  NoDup (map pending_result ps) →
  results (Relay.fail_pending reason ps c) ch =
    if decide (ch ∈ map pending_result ps) then results c ch ++ [ResultErr reason] else results c ch.
Proof.
  induction ps as [|p ps IH]; cbn [map Relay.fail_pending foldr].
  - by rewrite decide_False by set_solver.
  - intros [Hnin Hnd]%list.NoDup_cons. rewrite results_send.
    fold (Relay.fail_pending reason ps c).
    destruct (decide (pending_result p = ch)) as [<-|Hne].
    + rewrite IH, decide_False, decide_True by (done || set_solver). done.
    + rewrite IH by done. destruct (decide (ch ∈ map pending_result ps)).
      * by rewrite decide_True by set_solver.
      * by rewrite decide_False by set_solver.
Qed.

Lemma fail_pending_next reason ps c : next_chan (Relay.fail_pending reason ps c) = next_chan c.
Proof. by induction ps. Qed.

Lemma pending_channels_NoDup s c :
  relay_inv s c → NoDup (map pending_result (map snd (map_to_list (Relay.pending s)))).
Proof.
  intros [_ Hi _ _ _ _ _ _]. rewrite map_map.
  apply NoDup_fmap_2_strong; [|apply NoDup_map_to_list].
  intros [k p] [k' p'] Hp Hp' Heq. apply elem_of_map_to_list in Hp, Hp'. cbn in Heq.
  assert (k = k') as -> by eauto. by simplify_eq.
Qed.

Lemma elem_of_pending_channels s ch :
  ch ∈ map pending_result (map snd (map_to_list (Relay.pending s))) ↔
  ∃ k p, Relay.pending s !! k = Some p ∧ pending_result p = ch.
Proof.
  rewrite map_map, list_elem_of_fmap. split.
  - intros ([k p] & -> & Hin). apply elem_of_map_to_list in Hin. eauto.
  - intros (k & p & Hp & <-). exists (k, p). by rewrite elem_of_map_to_list.
Qed.

Lemma close_inv s c reason s' c' :
  relay_inv s c → Relay.closeWithError s c reason = (s', c') → relay_inv s' c'.
Proof.
  intros Hinv H. unfold Relay.closeWithError in H.
  destruct (Relay.closed s); simplify_eq; [done|].
  pose proof (pending_channels_NoDup s c Hinv) as Hnd. destruct Hinv as [Hk Hi Ho Hf H1 Hd Ha Hc].
  split; cbn; try done; try (intros *; by rewrite ?lookup_empty).
  - intros ch. rewrite fail_pending_next, fail_pending_results by done. intros Hge.
    rewrite decide_False; [auto|]. rewrite elem_of_pending_channels. intros (k & p & Hp & <-).
    apply Ho in Hp as [? _]. lia.
  - intros ch. rewrite fail_pending_results by done. destruct (decide _) as [Hin|]; [|auto].
    apply elem_of_pending_channels in Hin as (k & p & Hp & <-). by destruct (Ho _ _ Hp) as [_ ->].
Qed.

Lemma readRelay_turn_inv s c received s' c' r :
  relay_inv s c → Relay.readRelay_turn s c received = (s', c', r) → relay_inv s' c'.
Proof.
  intros Hinv H. unfold Relay.readRelay_turn in H.
  repeat case_match; simplify_eq; try done. by eapply deliver_inv.
Qed.

Lemma relay_step_inv x y : relay_inv x.1 x.2 → relay_step x y → relay_inv y.1 y.2.
Proof.
  intros Hinv Hstep. destruct Hstep; cbn in Hinv |- *;
    [eapply register_inv|eapply abandon_inv|eapply readRelay_turn_inv|eapply close_inv]; eassumption.
Qed.

(** ** What the session promises *)

(** C15: in every history of a session each result channel receives at most one
    value and the channel of a pending request none yet, so no send of
    [deliver] or [closeWithError] can block; at most 4096 identities are kept
    for dropping, and none of them is pending. *)
Theorem relay_session_invariant c x :
  (∀ ch, results c ch = []) →
  rtc relay_step (Relay.newRelaySession, c) x →
  (∀ ch, (length (results x.2 ch) ≤ 1)%nat) ∧
  (∀ k p, Relay.pending x.1 !! k = Some p → results x.2 (pending_result p) = []) ∧
  (∀ k, k ∈ Relay.abandoned x.1 → Relay.pending x.1 !! k = None) ∧
  Z.of_nat (size (Relay.abandoned x.1)) ≤ maximumAbandonedRelayRequests.
Proof.
  intros Hempty Hrun.
  assert (Hinv : relay_inv x.1 x.2).
  { assert (H0 : relay_inv (Relay.newRelaySession, c).1 (Relay.newRelaySession, c).2).
    { apply relay_inv_init; intros ch; [done|by rewrite Hempty; cbn; lia]. }
    induction Hrun; eauto using relay_step_inv. }
  destruct Hinv as [Hk Hi Ho Hf H1 Hd Ha Hc]. split_and!; auto. intros k p Hp. by apply Ho in Hp as [_ ?].
Qed.

(** a frame reaches a request only if it names the request's exact binding,
    generation, request id and sequence and passes the response checks; a
    frame for anything else changes no channel. *)
Theorem deliver_exact s c response frame s' c' r ch :
  relay_inv s c → Relay.deliver s c response frame = (s', c', r) →
  results c' ch ≠ results c ch →
  ∃ p, Relay.pending s !! relayKey response = Some p ∧ pending_result p = ch ∧
       results c' ch = [ResultFrame frame] ∧ r = Ok tt ∧
       relayKey (pending_request p) = relayKey response ∧
       validateRelayResponse response (pending_request p) = Ok tt ∧
       Relay.pending s' !! relayKey response = None.
Proof.
  intros [Hk _ Ho _ _ _ _ _] H Hne. unfold Relay.deliver in H.
  case_bool_decide; [by simplify_eq|].
  destruct (Relay.pending s !! _) as [p|] eqn:Ep; [|by simplify_eq].
  destruct (validateRelayResponse _ _) as [[]|] eqn:Ev; [|by simplify_eq].
  injection H as <- <- <-. rewrite results_send in Hne |- *. destruct (Ho _ _ Ep) as [_ Hempty].
  destruct (decide (pending_result p = ch)) as [<-|]; [|done].
  rewrite Hempty. exists p. split_and!; try done; [by rewrite <- (Hk _ _ Ep)|].
  cbn. apply lookup_delete_eq.
Qed.

(** Closing a session fails every request in flight with the reason and
    refuses every later registration. *)
Theorem closeWithError_fails_all s c reason s' c' :
  relay_inv s c → Relay.closed s = false → Relay.closeWithError s c reason = (s', c') →
  (∀ k p, Relay.pending s !! k = Some p → results c' (pending_result p) = [ResultErr reason]) ∧
  (∀ request, (Relay.register s' c' request).2 = Err ErrUnavailable) ∧
  (∀ reason', Relay.closeWithError s' c' reason' = (s', c')).
Proof.
  intros Hinv Hopen H. pose proof (pending_channels_NoDup s c Hinv) as Hnd.
  unfold Relay.closeWithError in H. rewrite Hopen in H. injection H as <- <-. split_and!; try done.
  intros k p Hp. rewrite fail_pending_results, decide_True by (done || by apply elem_of_pending_channels; eauto).
  destruct Hinv as [_ _ Ho _ _ _ _ _]. by destruct (Ho _ _ Hp) as [_ ->].
Qed.

(** The late response of an abandoned request is dropped once, without
    touching any other request; a second one is a protocol error. *)
Theorem abandoned_response_dropped_once s c key ch p s1 response frame :
  relay_inv s c → Relay.pending s !! key = Some p → pending_result p = ch →
  Relay.abandon s key ch = (s1, Ok tt) → relayKey response = key →
  ∃ s2, Relay.deliver s1 c response frame = (s2, c, Ok tt) ∧
        Relay.pending s2 = delete key (Relay.pending s) ∧
        Relay.deliver s2 c response frame =
          (s2, c, Err (ErrProtocol "unexpected relay response")).
Proof.
  intros Hinv Hp Hch Hab Hkey. unfold Relay.abandon in Hab.
  rewrite Hp, Hch, Nat.eqb_refl in Hab. cbn in Hab.
  destruct (_ <=? _); [by simplify_eq|]. injection Hab as <-.
  unfold Relay.deliver at 1. rewrite Hkey. rewrite bool_decide_eq_true_2 by (cbn; set_solver).
  eexists. split; [done|]. cbn. split; [done|]. unfold Relay.deliver. rewrite Hkey. cbn.
  rewrite bool_decide_eq_false_2 by set_solver. by rewrite lookup_delete_eq.
Qed.

(** ** Witnesses *)
Module RelayDemo.
Definition request : Outer.outerEnvelope := {|
  Outer.Protocol := ProtocolVersion; Outer.Channel := "ego_browser_bridge";
  Outer.RelayBindingKind := "ego_browser"; Outer.Type_ := "execute"; Outer.RequestID := "request-1";
  Outer.BindingID := "binding-1"; Outer.Generation := 5; Outer.Sequence := 9;
  Outer.Direction := "request"; Outer.PayloadBytes := 3;
  Outer.Nonce := b64_encode (replicate 12 (byte_of_Z 1));
  Outer.Ciphertext := b64_encode (replicate 3 (byte_of_Z 1));
  Outer.AuthTag := b64_encode (replicate 16 (byte_of_Z 1)); Outer.KeyWrap := ""
|}.

Definition response : Outer.outerEnvelope :=
  request <| Outer.Type_ := "execute_result" |> <| Outer.Direction := "response" |>.

Definition registered := Relay.register Relay.newRelaySession no_channels request.
Definition s1 : relaySession := registered.1.1.
Definition c1 : channels := registered.1.2.

Lemma step1 : relay_step (Relay.newRelaySession, no_channels) (s1, c1).
Proof. apply (relay_register _ _ request _ _ registered.2). vm_compute. reflexivity. Qed.

Lemma inv1 : relay_inv s1 c1.
Proof.
  apply (relay_step_inv (Relay.newRelaySession, no_channels) (s1, c1)); [|exact step1].
  assert (Hnone : ∀ ch, results no_channels ch = []) by (intros ch; unfold results; cbn [sent no_channels]; by rewrite lookup_empty).
  apply relay_inv_init; intros ch; rewrite Hnone; [done|cbn; lia].
Qed.
End RelayDemo.

Lemma relay_session_invariant_witness :
  (length (results RelayDemo.c1 0%nat) ≤ 1)%nat.
Proof.
  refine (proj1 (relay_session_invariant no_channels (RelayDemo.s1, RelayDemo.c1) _ _) 0%nat).
  - intros ch. reflexivity.
  - apply rtc_once, RelayDemo.step1.
Defined.

Lemma deliver_exact_witness :
  ∃ p, Relay.pending RelayDemo.s1 !! relayKey RelayDemo.response = Some p ∧ pending_result p = 0%nat ∧
    results (Relay.deliver RelayDemo.s1 RelayDemo.c1 RelayDemo.response "frame").1.2 0%nat = [ResultFrame "frame"] ∧
    (Ok tt : result error unit) = Ok tt ∧
    relayKey (pending_request p) = relayKey RelayDemo.response ∧
    validateRelayResponse RelayDemo.response (pending_request p) = Ok tt ∧
    Relay.pending (Relay.deliver RelayDemo.s1 RelayDemo.c1 RelayDemo.response "frame").1.1
      !! relayKey RelayDemo.response = None.
Proof.
  apply (deliver_exact RelayDemo.s1 RelayDemo.c1 RelayDemo.response "frame" _ _ (Ok tt) 0%nat RelayDemo.inv1).
  - vm_compute. reflexivity.
  - vm_compute. discriminate.
Defined.

Lemma closeWithError_fails_all_witness :
  results (Relay.closeWithError RelayDemo.s1 RelayDemo.c1 ErrRevoked).2 0%nat = [ResultErr ErrRevoked].
Proof.
  refine (proj1 (closeWithError_fails_all RelayDemo.s1 RelayDemo.c1 ErrRevoked
    (Relay.closeWithError RelayDemo.s1 RelayDemo.c1 ErrRevoked).1 _ RelayDemo.inv1 _ _)
    (relayKey RelayDemo.request) (Pending RelayDemo.request 0%nat) _).
  - vm_compute. reflexivity.
  - apply surjective_pairing.
  - vm_compute. reflexivity.
Defined.

Lemma abandoned_response_dropped_once_witness :
  ∃ s2, Relay.deliver (Relay.abandon RelayDemo.s1 (relayKey RelayDemo.request) 0%nat).1 RelayDemo.c1
          RelayDemo.response "late" = (s2, RelayDemo.c1, Ok tt) ∧
        Relay.pending s2 = delete (relayKey RelayDemo.request) (Relay.pending RelayDemo.s1) ∧
        Relay.deliver s2 RelayDemo.c1 RelayDemo.response "late" =
          (s2, RelayDemo.c1, Err (ErrProtocol "unexpected relay response")).
Proof.
  apply (abandoned_response_dropped_once RelayDemo.s1 RelayDemo.c1 (relayKey RelayDemo.request) 0%nat
    (Pending RelayDemo.request 0%nat) _ RelayDemo.response "late" RelayDemo.inv1); vm_compute; reflexivity.
Defined.
