(* ===== verification/EgoBroker.v ===== *)
(** * The ego-browser broker (src/internal/egobrowser/broker.go)

    The broker's state and one definition per operation.  A binding state is a
    heap object: [bindings] maps a binding id to its location, and the code's
    pointer comparisons ([current != state]) compare locations.  An active
    request that leaves the [active] map stays readable through the pointer a
    waiter holds, so it moves to [retired].  A [chan struct{}] that is closed
    once is the boolean "closed"; the [changed] channel, which is replaced on
    every notification, is the number of notifications.

    Every region the code runs under [b.mu] is one definition; an operation
    that takes the lock several times, or calls the control plane between two
    regions, is composed from them in its order.  The clock is read once per
    region.  What the environment decides (random tokens, whether a file was
    persisted, answers of the control plane) is an argument. *)

From S2P Require Import Prelude GoText GoBytes GoTime GoJson EgoProtocol EgoRelay.
Import Config(Config). Import Binding(EgoBrowserBinding).
Import PermitRequest(PermitRequest). Import Permit(Permit).

Abbreviation loc := nat (only parsing).

Module BindingState.
Record bindingState := {
  metadata : EgoBrowserBinding;
  relay : option nat;
  relayEpoch : Z;
  terminal : bool;
  terminalGeneration : Z
}.

Definition fresh (m : EgoBrowserBinding) : bindingState := Build_bindingState m None 0 false 0.
End BindingState.
Import BindingState(bindingState).

Module ActiveRequest.
Record activeRequest := {
  bindingID : string;
  generation : Z;
  requestID : string;
  sequence : Z;
  expiresAt : time;
  submitted : bool;
  sent : bool;
  serverTerminalObserved : bool;
  cancel : bool;
  forwardDone : bool
}.
End ActiveRequest.
Import ActiveRequest(activeRequest).

Module Broker.
Record Broker := {
  cfg : Config;
  bindings : gmap string loc;
  heap : gmap loc bindingState;
  next_loc : loc;
  sessions : gmap string string;
  nonces : gmap string string;
  peerUIDs : gmap string Z;
  permits : gmap Z Permit;
  consumed : gmap Z time;
  active : gmap Z activeRequest;
  retired : gmap Z activeRequest;
  sequence : Z;
  changed : Z;
  closed : bool;
  relays : gmap nat Relay.relaySession;
  next_relay : nat;
  results : channels
}.
End Broker.
Import Broker(Broker).

(** A broker without sessions, bindings or requests. *)
Definition fresh_broker (config : Config) (sequence : Z) : Broker := {|
  Broker.cfg := config; Broker.bindings := ∅; Broker.heap := ∅; Broker.next_loc := 0%nat;
  Broker.sessions := ∅; Broker.nonces := ∅; Broker.peerUIDs := ∅; Broker.permits := ∅;
  Broker.consumed := ∅; Broker.active := ∅; Broker.retired := ∅;
  Broker.sequence := sequence; Broker.changed := 0; Broker.closed := false;
  Broker.relays := ∅; Broker.next_relay := 0%nat; Broker.results := no_channels
|}.

(** [New]: the limits are checked and the persisted sequence is loaded. *)
Definition New (config : Config) (stored : option string) : result error Broker :=
  let config := Config.withDefaults config in
  require Config.limits_ok config orelse ErrProtocol "broker limits" ;;
  sequence ← Decode.loadSequence stored;
  Ok (fresh_broker config sequence).

(** ** Lookups *)

(** A missing key of a Go map reads as the zero value. *)
Definition text_at (m : gmap string string) (k : string) : string := default "" (m !! k).

(** The state object of a binding, with its location. *)
Definition lookup_binding (b : Broker) (bindingID : string) : option (loc * bindingState) :=
  l ← Broker.bindings b !! bindingID; st ← Broker.heap b !! l; Some (l, st).

(** [current := b.bindings[state.metadata.BindingID]; current == state]. *)
Definition current_binding (b : Broker) (l : loc) : option bindingState :=
  st ← Broker.heap b !! l;
  '(l', _) ← lookup_binding b (Binding.BindingID (BindingState.metadata st));
  if (l' =? l)%nat then Some st else None.

Definition set_state (l : loc) (st : bindingState) (b : Broker) : Broker :=
  b <| Broker.heap := <[l := st]> (Broker.heap b) |>.

(** The locations of the bindings of a tool session. *)
Definition in_session (b : Broker) (toolSessionID : string) (e : string * loc) : bool :=
  match Broker.heap b !! e.2 with
  | Some st => String.eqb (Binding.ToolSessionID (BindingState.metadata st)) toolSessionID
  | None => false
  end.

Definition session_bindings (b : Broker) (toolSessionID : string) : list (string * loc) :=
  filter (λ e, in_session b toolSessionID e = true) (map_to_list (Broker.bindings b)).

Definition bindingForSessionLocked (b : Broker) (toolSessionID : string) : result error loc :=
  match session_bindings b toolSessionID with
  | [] => Err ErrUnavailable
  | [(_, l)] => Ok l
  | _ => Err (ErrProtocol "ambiguous tool session binding")
  end.

Definition sessionForNonceLocked (b : Broker) (nonce : string) : result error string :=
  require validOpaqueText nonce 256 orelse ErrProtocol "session nonce" ;;
  let toolSessionID := text_at (Broker.nonces b) nonce in
  require negb (String.eqb toolSessionID "")
          && String.eqb (text_at (Broker.sessions b) toolSessionID) nonce
    orelse ErrUnavailable ;;
  Ok toolSessionID.

Definition bindingForNonce (b : Broker) (nonce : string) : result error (string * loc) :=
  toolSessionID ← sessionForNonceLocked b nonce;
  l ← bindingForSessionLocked b toolSessionID;
  Ok (toolSessionID, l).

(** ** Housekeeping under the lock *)
Definition notifyRequestChangeLocked (b : Broker) : Broker :=
  b <| Broker.changed := Broker.changed b + 1 |>.

Definition replayWindow : duration := 10 * minute.
Definition maximumReplayEntries : nat := Z.to_nat 4096.

(** The oldest entry in iteration order; Go leaves the order, and so the
    choice among equally old entries, unspecified. *)
Definition oldest_consumed (entries : list (Z * time)) : option (Z * time) :=
  foldl (λ best e,
    match best with
    | None => Some e
    | Some o => if before e.2 o.2 then Some e else best
    end) None entries.

Fixpoint evict_consumed (fuel : nat) (consumed : gmap Z time) : gmap Z time :=
  match fuel with
  | O => consumed
  | S fuel' =>
      if (maximumReplayEntries <? size consumed)%nat then
        match oldest_consumed (map_to_list consumed) with
        | Some (sequence, _) => evict_consumed fuel' (delete sequence consumed)
        | None => consumed
        end
      else consumed
  end.

(** Each round of the eviction removes an entry, so the size of the map is
    enough fuel. *)
Definition pruneConsumed (now : time) (consumed : gmap Z time) : gmap Z time :=
  let recent := filter (λ e : Z * time, after (e.2 + replayWindow) now = true) consumed in
  evict_consumed (size recent) recent.

Definition pruneConsumedLocked (now : time) (b : Broker) : Broker :=
  b <| Broker.consumed := pruneConsumed now (Broker.consumed b) |>.

Definition finish_forward (r : activeRequest) : activeRequest :=
  r <| ActiveRequest.forwardDone := true |>.

(** Bumps the epoch of a binding, an unsigned 64-bit counter. *)
Definition bump_epoch (bindingID : string) (b : Broker) : Broker :=
  match lookup_binding b bindingID with
  | Some (l, st) =>
      set_state l (st <| BindingState.relayEpoch :=
        wrap_uint64 (BindingState.relayEpoch st + 1) |>) b
  | None => b
  end.

Definition of_binding (bindingID : string) (e : Z * activeRequest) : Prop :=
  ActiveRequest.bindingID e.2 = bindingID.
#[global] Instance of_binding_dec bindingID e : Decision (of_binding bindingID e).
Proof. unfold of_binding. apply _. Defined.

Definition clearBindingMaterialsLocked (now : time) (bindingID : string) (b : Broker) : Broker :=
  let b := b <| Broker.permits :=
    filter (λ e : Z * Permit, Permit.BindingID e.2 ≠ bindingID) (Broker.permits b) |> in
  let gone := filter (of_binding bindingID) (Broker.active b) in
  let b := b <| Broker.active := filter (λ e, ¬ of_binding bindingID e) (Broker.active b) |>
             <| Broker.retired := (finish_forward <$> gone) ∪ Broker.retired b |> in
  let b := pruneConsumedLocked now b in
  notifyRequestChangeLocked (bump_epoch bindingID b).

(** Clearing several bindings, one after the other. *)
Definition clear_all (now : time) (ids : list string) (b : Broker) : Broker :=
  foldl (λ b id, clearBindingMaterialsLocked now id b) b ids.

(** [closeRelay]: detaches the relay of a state object and fails its session. *)
Definition close_session (id : nat) (reason : error) (b : Broker) : Broker :=
  match Broker.relays b !! id with
  | None => b
  | Some session =>
      let '(session, results) := Relay.closeWithError session (Broker.results b) reason in
      b <| Broker.relays := <[id := session]> (Broker.relays b) |> <| Broker.results := results |>
  end.

Definition closeRelay (l : loc) (reason : error) (b : Broker) : Broker :=
  match Broker.heap b !! l with
  | None => b
  | Some st =>
      let b := set_state l (st <| BindingState.relay := None |>) b in
      match BindingState.relay st with
      | None => b
      | Some id => close_session id reason b
      end
  end.

Definition close_relays (ls : list loc) (reason : error) (b : Broker) : Broker :=
  foldl (λ b l, closeRelay l reason b) b ls.

(** Removes a request from the active map; a waiter may still hold it. *)
Definition retire (sequence : Z) (r : activeRequest) (b : Broker) : Broker :=
  b <| Broker.active := delete sequence (Broker.active b) |>
    <| Broker.retired := <[sequence := r]> (Broker.retired b) |>.

(** The permits that have expired are dropped together with the active entries
    of requests that were not submitted. *)
Definition expired_permit (now : time) (e : Z * Permit) : Prop :=
  after (Permit.ExpiresAt e.2) now = false.
#[global] Instance expired_permit_dec now e : Decision (expired_permit now e).
Proof. unfold expired_permit. apply _. Defined.

Definition abandoned_by_expiry (expired : gmap Z Permit) (e : Z * activeRequest) : Prop :=
  is_Some (expired !! e.1) ∧ ActiveRequest.submitted e.2 = false.
#[global] Instance abandoned_by_expiry_dec expired e : Decision (abandoned_by_expiry expired e).
Proof. unfold abandoned_by_expiry. apply _. Defined.

Definition pruneExpiredPermitsLocked (now : time) (b : Broker) : Broker :=
  let expired := filter (expired_permit now) (Broker.permits b) in
  let gone := filter (abandoned_by_expiry expired) (Broker.active b) in
  let b := b <| Broker.permits := filter (λ e, ¬ expired_permit now e) (Broker.permits b) |>
             <| Broker.active := filter (λ e, ¬ abandoned_by_expiry expired e) (Broker.active b) |>
             <| Broker.retired := gone ∪ Broker.retired b |> in
  if (size gone =? 0)%nat then b else notifyRequestChangeLocked b.

Definition activeRequestCountLocked (b : Broker) (bindingID : string) : Z :=
  Z.of_nat (size (filter (of_binding bindingID) (Broker.active b))).

(** ** Tool sessions *)

(** [randomToken] encodes what the random source yields; [None] is its
    failure. *)
Definition randomToken (random : option bytes) : result error string :=
  match random with
  | Some bs => Ok (b64_encode bs)
  | None => Err (ErrTransport "random")
  end.

(** The loop of [RegisterToolSession]: tokens are drawn until one is not in
    use. *)
Fixpoint draw_nonce (nonces : gmap string string) (tokens : list (option bytes))
    : result error string :=
  match tokens with
  | [] => Err (ErrTransport "random")
  | random :: rest =>
      nonce ← randomToken random;
      if is_some (nonces !! nonce) then draw_nonce nonces rest else Ok nonce
  end.

Definition RegisterToolSession (b : Broker) (tokens : list (option bytes))
    (toolSessionID : string) : Broker * result error (string * bool) :=
  if negb (Config.Enabled (Broker.cfg b)) then (b, Err ErrDisabled)
  else if negb (validOpaqueText toolSessionID 128)
  then (b, Err (ErrProtocol "tool session identity"))
  else match dedicatedTaskSpace toolSessionID with
  | Err e => (b, Err e)
  | Ok _ =>
      if Broker.closed b then (b, Err ErrUnavailable)
      else
        let nonce := text_at (Broker.sessions b) toolSessionID in
        if negb (String.eqb nonce "") then (b, Ok (nonce, false))
        else match draw_nonce (Broker.nonces b) tokens with
        | Err e => (b, Err e)
        | Ok nonce =>
            (b <| Broker.sessions := <[toolSessionID := nonce]> (Broker.sessions b) |>
               <| Broker.nonces := <[nonce := toolSessionID]> (Broker.nonces b) |>,
             Ok (nonce, true))
        end
  end.

Definition VerifyToolSessionPeer (b : Broker) (toolSessionID expectedNonce : string) (uid : Z)
    : result error unit :=
  require Config.Enabled (Broker.cfg b) orelse ErrDisabled ;;
  require validOpaqueText toolSessionID 128 && validOpaqueText expectedNonce 256
          && negb (uid =? 0)
    orelse ErrProtocol "tool session peer identity" ;;
  require negb (Broker.closed b) orelse ErrUnavailable ;;
  require String.eqb (text_at (Broker.sessions b) toolSessionID) expectedNonce
          && String.eqb (text_at (Broker.nonces b) expectedNonce) toolSessionID
    orelse ErrUnavailable ;;
  match Broker.peerUIDs b !! toolSessionID with
  | None => Err ErrUnavailable
  | Some existingUID =>
      require existingUID =? uid orelse ErrProtocol "tool session peer uid changed" ;;
      Ok tt
  end.

(** The region that records the peer after its access was granted. *)
Definition record_peer (b : Broker) (toolSessionID expectedNonce : string) (uid : Z)
    : Broker * result error unit :=
  if negb (String.eqb (text_at (Broker.sessions b) toolSessionID) expectedNonce)
     || negb (String.eqb (text_at (Broker.nonces b) expectedNonce) toolSessionID)
  then (b, Err ErrUnavailable)
  else
    match Broker.peerUIDs b !! toolSessionID with
    | Some existingUID =>
        if existingUID =? uid
        then (b <| Broker.peerUIDs := <[toolSessionID := uid]> (Broker.peerUIDs b) |>, Ok tt)
        else (b, Err (ErrProtocol "tool session peer uid changed"))
    | None => (b <| Broker.peerUIDs := <[toolSessionID := uid]> (Broker.peerUIDs b) |>, Ok tt)
    end.

(** [listen] and [GrantPeerAccess] are host operations: [granted] is their
    combined outcome. *)
Definition AuthorizeToolSessionPeer (b : Broker) (granted : result error unit)
    (toolSessionID expectedNonce : string) (uid : Z) : Broker * result error unit :=
  if negb (Config.Enabled (Broker.cfg b)) then (b, Err ErrDisabled)
  else if negb (validOpaqueText toolSessionID 128) || negb (validOpaqueText expectedNonce 256)
  then (b, Err (ErrProtocol "tool session peer identity"))
  else if negb (String.eqb (text_at (Broker.sessions b) toolSessionID) expectedNonce)
  then (b, Err ErrUnavailable)
  else if is_some (Broker.peerUIDs b !! toolSessionID)
  then (b, VerifyToolSessionPeer b toolSessionID expectedNonce uid)
  else match granted with
  | Err e => (b, Err e)
  | Ok _ => record_peer b toolSessionID expectedNonce uid
  end.

(** The locked region of [UnregisterToolSession], with the states whose relay
    is closed after it. *)
Definition unregister_locked (now : time) (b : Broker) (toolSessionID expectedNonce : string)
    : Broker * option (list loc) :=
  let nonce := text_at (Broker.sessions b) toolSessionID in
  if String.eqb nonce "" || (negb (String.eqb expectedNonce "") && negb (String.eqb nonce expectedNonce))
  then (b, None)
  else
    let b := b <| Broker.sessions := delete toolSessionID (Broker.sessions b) |>
               <| Broker.nonces := delete nonce (Broker.nonces b) |>
               <| Broker.peerUIDs := delete toolSessionID (Broker.peerUIDs b) |> in
    let found := session_bindings b toolSessionID in
    (clear_all now (map fst found) b, Some (map snd found)).

Definition UnregisterToolSession (now : time) (b : Broker) (toolSessionID expectedNonce : string)
    : Broker * bool :=
  if String.eqb toolSessionID "" then (b, false)
  else match unregister_locked now b toolSessionID expectedNonce with
  | (b, None) => (b, false)
  | (b, Some toClose) => (close_relays toClose ErrRevoked b, true)
  end.

Definition reloadToolSession (now : time) (b : Broker) (toolSessionID : string) : Broker :=
  let found := session_bindings b toolSessionID in
  close_relays (map snd found) ErrUnavailable (clear_all now (map fst found) b).

(** [authorizePeerUID]: the capability and the runtime uid must both match. *)
Definition authorizePeerUID (b : Broker) (startupNonce : string) (uid : Z) : result error unit :=
  let toolSessionID := text_at (Broker.nonces b) startupNonce in
  require negb (String.eqb toolSessionID "")
          && match Broker.peerUIDs b !! toolSessionID with
             | Some expectedUID => uid =? expectedUID
             | None => false
             end
    orelse ErrProtocol "peer uid" ;;
  Ok tt.

(** ** The binding snapshot *)

(** The validation loop of [SetBindings], before any state is touched. *)
Fixpoint stage_bindings (cfg : Config) (staged : gmap string EgoBrowserBinding)
    (bindings : list EgoBrowserBinding) : result error (gmap string EgoBrowserBinding) :=
  match bindings with
  | [] => Ok staged
  | metadata :: rest =>
      match Binding.NormalizeBindingGeneration metadata with
      | Err _ => Err (ErrProtocol "binding generation")
      | Ok metadata =>
          _ ← validateBinding cfg metadata;
          require negb (is_some (staged !! Binding.BindingID metadata))
            orelse ErrProtocol "duplicate binding" ;;
          stage_bindings cfg (<[Binding.BindingID metadata := metadata]> staged) rest
      end
  end.

(** Whether a fresh snapshot of the same or a newer generation changes what
    the materials of the binding were issued under. *)
Definition authorization_changed (old fresh : EgoBrowserBinding) : bool :=
  negb (String.eqb (Binding.ToolSessionID old) (Binding.ToolSessionID fresh))
  || negb (Binding.AllowlistRevision old =? Binding.AllowlistRevision fresh)
  || negb (sameStringPointer (Binding.LearningBundleDigest old) (Binding.LearningBundleDigest fresh))
  || negb (String.eqb (Binding.Status old) (Binding.Status fresh))
  || negb (String.eqb (Binding.LeaseHealth old) (Binding.LeaseHealth fresh)).

(** One turn of the merge loop: the old binding [id] at [l] against the staged
    snapshot.  [next] is the map under construction and [toClose] the states
    whose relay is closed afterwards. *)
Definition merge_binding (now : time) (staged : gmap string EgoBrowserBinding)
    (acc : Broker * gmap string loc * list loc) (e : string * loc)
    : Broker * gmap string loc * list loc :=
  let '(b, next, toClose) := acc in
  let '(id, l) := e in
  match staged !! id with
  | None => (clearBindingMaterialsLocked now id b, next, toClose ++ [l])
  | Some fresh =>
      match Broker.heap b !! l with
      | None => acc
      | Some old =>
          let oldMetadata := BindingState.metadata old in
          if Binding.BindingGeneration fresh <? Binding.BindingGeneration oldMetadata
          then (b, <[id := l]> next, toClose)
          else if BindingState.terminal old
                  && (Binding.BindingGeneration fresh <=? BindingState.terminalGeneration old)
          then (b, <[id := l]> next, toClose)
          else
            let '(b, toClose) :=
              if negb (Binding.BindingGeneration fresh =? Binding.BindingGeneration oldMetadata)
              then
                let b := clearBindingMaterialsLocked now id b in
                (match Broker.heap b !! l with
                 | Some st => set_state l (st <| BindingState.terminal := false |>
                                              <| BindingState.terminalGeneration := 0 |>) b
                 | None => b
                 end, toClose ++ [l])
              else (b, toClose) in
            let '(b, toClose) :=
              if authorization_changed oldMetadata fresh
              then (clearBindingMaterialsLocked now id b, toClose ++ [l])
              else (b, toClose) in
            (match Broker.heap b !! l with
             | Some st => set_state l (st <| BindingState.metadata := fresh |>) b
             | None => b
             end, <[id := l]> next, toClose)
      end
  end.

(** Every staged binding gets a fresh state object. *)
Definition alloc_binding (acc : Broker * gmap string loc) (e : string * EgoBrowserBinding)
    : Broker * gmap string loc :=
  let '(b, next) := acc in
  let l := Broker.next_loc b in
  (set_state l (BindingState.fresh e.2) (b <| Broker.next_loc := S l |>), <[e.1 := l]> next).

(** The locked region of [SetBindings]. *)
Definition install_bindings (now : time) (staged : gmap string EgoBrowserBinding) (b : Broker)
    : Broker * list loc :=
  let '(b, next) := foldl alloc_binding (b, ∅) (map_to_list staged) in
  let '(b, next, toClose) :=
    foldl (merge_binding now staged) (b, next, []) (map_to_list (Broker.bindings b)) in
  (b <| Broker.bindings := next |>, toClose).

Definition SetBindings (now : time) (b : Broker) (bindings : list EgoBrowserBinding)
    : Broker * result error unit :=
  if negb (Config.Enabled (Broker.cfg b)) then (b, Err ErrDisabled)
  else match stage_bindings (Broker.cfg b) ∅ bindings with
  | Err e => (b, Err e)
  | Ok staged =>
      let '(b, toClose) := install_bindings now staged b in
      (close_relays toClose ErrRevoked b, Ok tt)
  end.

(** [Bindings]: the metadata, in the map's order. *)
Definition Bindings (b : Broker) : list EgoBrowserBinding :=
  omap (λ e : string * loc, BindingState.metadata <$> Broker.heap b !! e.2)
    (map_to_list (Broker.bindings b)).

(** [Refresh]; [listed] is the control plane's answer. *)
Definition Refresh (now : time) (b : Broker) (listed : result error (list EgoBrowserBinding))
    : Broker * result error unit :=
  if negb (Config.Enabled (Broker.cfg b)) then (b, Err ErrDisabled)
  else if negb (Config.ControlPlaneConfigured (Broker.cfg b)) then (b, Err ErrUnavailable)
  else match listed with
  | Err e => (b, Err e)
  | Ok items =>
      if forallb (λ binding,
           String.eqb (Config.NodeID (Broker.cfg b)) ""
           || String.eqb (Binding.NodeID binding) (Config.NodeID (Broker.cfg b))) items
      then SetBindings now b items
      else (b, Err (ErrProtocol "binding node mismatch"))
  end.

(** ** Lease renewal *)
Definition make_terminal (status : string) (st : bindingState) : bindingState :=
  let m := BindingState.metadata st in
  st <| BindingState.metadata := m <| Binding.Status := status |>
          <| Binding.LeaseHealth := "expired" |> <| Binding.LeaseGraceUntil := None |> |>
     <| BindingState.terminal := true |>
     <| BindingState.terminalGeneration := Binding.BindingGeneration m |>.

Definition expireBindingLocked (now : time) (l : loc) (st : bindingState) (b : Broker) : Broker :=
  clearBindingMaterialsLocked now (Binding.BindingID (BindingState.metadata st))
    (set_state l (make_terminal "expired" st) b).

(** The locked region of [expireBinding]; the flag tells whether the relay is
    closed after it. *)
Definition expire_locked (now : time) (l : loc) (b : Broker) : Broker * bool :=
  match current_binding b l with
  | Some st =>
      if String.eqb (Binding.Status (BindingState.metadata st)) "active"
      then (expireBindingLocked now l st b, true) else (b, false)
  | None => (b, false)
  end.

Definition expireBinding (now : time) (l : loc) (b : Broker) : Broker :=
  match expire_locked now l b with
  | (b, true) => closeRelay l ErrLeaseExpired b
  | (b, false) => b
  end.

(** What a failed renewal does to a binding in grace: [None] when the grace
    period goes on. *)
Definition grace_ended (now : time) (m : EgoBrowserBinding) : bool :=
  String.eqb (Binding.LeaseHealth m) "renewal_grace"
  && match Binding.LeaseGraceUntil m with
     | None => false
     | Some text =>
         match parse_rfc3339 text with
         | Some graceUntil => negb (after graceUntil now)
         | None => true
         end
     end.

Definition enter_grace (cfg : Config) (now : time) (m : EgoBrowserBinding) : EgoBrowserBinding :=
  let m := m <| Binding.LeaseHealth := "renewal_grace" |> in
  match Binding.LeaseGraceUntil m with
  | None | Some "" =>
      m <| Binding.LeaseGraceUntil :=
        Some (format_rfc3339 (now + Config.RenewGraceSeconds cfg * second)) |>
  | Some _ => m
  end.

(** The locked region of [markRenewalFailureFor]. *)
Definition markRenewalFailureFor_locked (now : time) (l : loc) (b : Broker) : Broker * bool :=
  match current_binding b l with
  | None => (b, false)
  | Some st =>
      let m := BindingState.metadata st in
      if negb (String.eqb (Binding.Status m) "active") || BindingState.terminal st
         || String.eqb (Binding.LeaseHealth m) "expired"
      then (b, false)
      else if grace_ended now m then
        (clearBindingMaterialsLocked now (Binding.BindingID m) (expireBindingLocked now l st b), true)
      else
        (clearBindingMaterialsLocked now (Binding.BindingID m)
           (set_state l (st <| BindingState.metadata := enter_grace (Broker.cfg b) now m |>) b),
         false)
  end.

Definition markRenewalFailureFor (now : time) (l : loc) (b : Broker) : Broker :=
  match markRenewalFailureFor_locked now l b with
  | (b, true) => closeRelay l ErrLeaseExpired b
  | (b, false) => b
  end.

(** Every binding fails its renewal. *)
Definition markRenewalFailure (now : time) (b : Broker) : Broker :=
  foldl (λ b e, markRenewalFailureFor now e.2 b) b (map_to_list (Broker.bindings b)).

Record renew_response := {
  renewed_binding : string;
  renewed_generation : Z;
  renewed_health : string;
  renewed_until : option string;
  renewed_grace : option string;
  renewed_ttl : string
}.

(** The checks [renewBinding] makes on the answer, at its own readings of the
    clock; the result is the absolute TTL to store. *)
Definition check_renewal (now : time) (m : EgoBrowserBinding) (response : renew_response)
    : result error string :=
  require String.eqb (renewed_binding response) ""
          || String.eqb (renewed_binding response) (Binding.BindingID m)
    orelse ErrProtocol "renewal binding" ;;
  require (renewed_generation response =? Binding.BindingGeneration m)
          && String.eqb (renewed_health response) "healthy"
          && match renewed_until response with Some text => non_empty text | None => false end
    orelse ErrProtocol "renewal response" ;;
  match parse_rfc3339 (default "" (renewed_until response)) with
  | None => Err (ErrProtocol "renewal lease timestamp")
  | Some leaseUntil =>
      require after leaseUntil now orelse ErrProtocol "renewal lease timestamp" ;;
      let absoluteTTL :=
        if String.eqb (renewed_ttl response) "" then Binding.AbsoluteTTLUntil m
        else renewed_ttl response in
      match parse_rfc3339 absoluteTTL with
      | None => Err (ErrProtocol "renewal absolute TTL")
      | Some abs =>
          require after abs now && negb (after leaseUntil abs)
            orelse ErrProtocol "renewal absolute TTL" ;;
          Ok absoluteTTL
      end
  end.

(** The region that stores a renewed lease. *)
Definition commit_renewal (l : loc) (m : EgoBrowserBinding) (response : renew_response)
    (absoluteTTL : string) (b : Broker) : Broker * result error unit :=
  match current_binding b l with
  | None => (b, Err ErrRevoked)
  | Some st =>
      let cur := BindingState.metadata st in
      if negb (Binding.BindingGeneration cur =? Binding.BindingGeneration m)
         || negb (String.eqb (Binding.Status cur) "active") || BindingState.terminal st
      then (b, Err ErrRevoked)
      else
        (set_state l (st <| BindingState.metadata :=
           cur <| Binding.BindingGeneration := renewed_generation response |>
               <| Binding.Generation := renewed_generation response |>
               <| Binding.LeaseUntil := renewed_until response |>
               <| Binding.LeaseHealth := renewed_health response |>
               <| Binding.LeaseGraceUntil := renewed_grace response |>
               <| Binding.AbsoluteTTLUntil := absoluteTTL |> |>) b, Ok tt)
  end.

(** [renewBinding], run without interference between its regions. *)
Definition renewBinding (now : time) (answer : result error renew_response) (l : loc) (b : Broker)
    : Broker * result error unit :=
  if negb (Config.ControlPlaneConfigured (Broker.cfg b)) then (b, Err ErrLeaseRenewalRequired)
  else match current_binding b l with
  | None => (b, Err ErrUnavailable)
  | Some st =>
      let m := BindingState.metadata st in
      if negb (String.eqb (Binding.Status m) "active") || (Binding.BindingGeneration m =? 0)
      then (b, Err ErrUnavailable)
      else match answer with
      | Err e => (markRenewalFailureFor now l b, Err e)
      | Ok response =>
          match check_renewal now m response with
          | Err e => (markRenewalFailureFor now l b, Err e)
          | Ok absoluteTTL => commit_renewal l m response absoluteTTL b
          end
      end
  end.

(** A renewal whose failure is reported as [failure]. *)
Definition renew_or (now : time) (answer : result error renew_response) (l : loc) (failure : error)
    (b : Broker) : Broker * result error unit :=
  match renewBinding now answer l b with
  | (b, Ok _) => (b, Ok tt)
  | (b, Err _) => (b, Err failure)
  end.

(** [ensureLease]: admission needs a healthy lease with enough time left, or a
    renewal. *)
Definition ensureLease (now : time) (answer : result error renew_response) (l : loc) (b : Broker)
    : Broker * result error unit :=
  match current_binding b l with
  | None => (b, Err ErrUnavailable)
  | Some st =>
      let m := BindingState.metadata st in
      if String.eqb (Binding.Status m) "expired" || String.eqb (Binding.LeaseHealth m) "expired"
      then (b, Err ErrLeaseExpired)
      else if negb (String.eqb (Binding.Status m) "active") then (b, Err ErrUnavailable)
      else if negb (String.eqb (Binding.LeaseHealth m) "healthy") then
        match (if String.eqb (Binding.LeaseHealth m) "renewal_grace"
               then text ← Binding.LeaseGraceUntil m; parse_rfc3339 text else None) with
        | Some graceUntil =>
            if negb (after graceUntil now) then (expireBinding now l b, Err ErrLeaseExpired)
            else (b, Err ErrLeaseRenewalRequired)
        | None => (b, Err ErrLeaseRenewalRequired)
        end
      else
        match (if String.eqb (Binding.AbsoluteTTLUntil m) "" then Ok tt
               else match parse_rfc3339 (Binding.AbsoluteTTLUntil m) with
                    | None => Err (ErrProtocol "absolute TTL timestamp")
                    | Some absoluteTTL =>
                        if after absoluteTTL now then Ok tt else Err ErrLeaseExpired
                    end) with
        | Err e => (b, Err e)
        | Ok _ =>
            match Binding.LeaseUntil m with
            | None | Some "" => renew_or now answer l ErrLeaseRenewalRequired b
            | Some text =>
                match parse_rfc3339 text with
                | None => (b, Err (ErrProtocol "lease timestamp"))
                | Some leaseUntil =>
                    if negb (after leaseUntil now) then renew_or now answer l ErrLeaseExpired b
                    else if time_sub leaseUntil now
                            <? Config.AdmissionMinRemainingSeconds (Broker.cfg b) * second
                    then renew_or now answer l ErrLeaseRenewalRequired b
                    else (b, Ok tt)
                end
            end
        end
  end.

(** ** Permits *)

(** [persistSequence]: what one attempt to replace the file can come to. *)
Inductive persist_outcome := PersistRenamed | PersistCollision | PersistFailed.

Fixpoint persist_loop (attempts : nat) (outcomes : list persist_outcome)
    (content : string) (disk : option string) : option string * result error unit :=
  match attempts with
  | O => (disk, Err (ErrProtocol "sequence persistence collision"))
  | S attempts' =>
      match outcomes with
      | PersistRenamed :: _ => (Some content, Ok tt)
      | PersistCollision :: rest =>
          if (0 <? attempts')%nat then persist_loop attempts' rest content disk
          else (disk, Err (ErrTransport "rename"))
      | PersistFailed :: _ | [] => (disk, Err (ErrTransport "persist"))
      end
  end.

Definition persistSequence (root : string) (outcomes : list persist_outcome) (sequence : Z)
    (disk : option string) : option string * result error unit :=
  if String.eqb root "" then (disk, Ok tt)
  else persist_loop 3 outcomes (Decode.sequence_state_json sequence) disk.

Definition nextSequenceLocked (b : Broker) (outcomes : list persist_outcome) (disk : option string)
    : Broker * option string * result error Z :=
  if Broker.sequence b =? max_uint64
  then (b, disk, Err (ErrProtocol "sequence exhausted"))
  else
    let next := Broker.sequence b + 1 in
    match persistSequence (Config.StateRoot (Broker.cfg b)) outcomes next disk with
    | (disk, Err e) => (b, disk, Err e)
    | (disk, Ok _) => (b <| Broker.sequence := next |>, disk, Ok next)
    end.

(** The expiry of a permit: twenty seconds, the lease, the absolute TTL,
    whichever is first. *)
Definition permit_expiry (now : time) (m : EgoBrowserBinding) : result error time :=
  let expiresAt := now + 20 * second in
  expiresAt ←
    match Binding.LeaseUntil m with
    | None | Some "" => Ok expiresAt
    | Some text =>
        match parse_rfc3339 text with
        | None => Err (ErrProtocol "lease timestamp")
        | Some leaseUntil => Ok (if before leaseUntil expiresAt then leaseUntil else expiresAt)
        end
    end;
  expiresAt ←
    (if String.eqb (Binding.AbsoluteTTLUntil m) "" then Ok expiresAt
     else match parse_rfc3339 (Binding.AbsoluteTTLUntil m) with
          | None => Err (ErrProtocol "absolute TTL timestamp")
          | Some absoluteTTL =>
              Ok (if before absoluteTTL expiresAt then absoluteTTL else expiresAt)
          end);
  require after expiresAt now orelse ErrLeaseExpired ;;
  Ok expiresAt.

Definition new_permit (cfg : Config) (m : EgoBrowserBinding) (requestID : string) (sequence : Z)
    (expiresAt : time) (defaultTaskSpace : string) (sc : scope) (key : bytes) : Permit := {|
  Permit.BindingID := Binding.BindingID m;
  Permit.Generation := Binding.BindingGeneration m;
  Permit.RequestID := requestID;
  Permit.Sequence := sequence;
  Permit.ExpiresAt := expiresAt;
  Permit.MaxPayloadBytes := defaultMaxPayloadBytes;
  Permit.MaxScriptBytes := Config.MaxScriptBytes cfg;
  Permit.DefaultTaskSpace := defaultTaskSpace;
  Permit.AllowlistRevision := Binding.AllowlistRevision m;
  Permit.LearningBundleDigest := Binding.LearningBundleDigest m;
  Permit.ConcurrencyMode := scope_mode sc;
  Permit.TaskSpaceScope := scope_taskSpace sc;
  Permit.TabScope := scope_tab sc;
  Permit.SessionKey := key
|}.

Definition new_request (p : Permit) : activeRequest := {|
  ActiveRequest.bindingID := Permit.BindingID p;
  ActiveRequest.generation := Permit.Generation p;
  ActiveRequest.requestID := Permit.RequestID p;
  ActiveRequest.sequence := Permit.Sequence p;
  ActiveRequest.expiresAt := Permit.ExpiresAt p;
  ActiveRequest.submitted := false;
  ActiveRequest.sent := false;
  ActiveRequest.serverTerminalObserved := false;
  ActiveRequest.cancel := false;
  ActiveRequest.forwardDone := false
|}.

(** What the environment supplies to one admission. *)
Record issue_env := {
  env_now : time;
  env_persist : list persist_outcome;
  env_requestID : option bytes;
  env_key : option bytes
}.

(** The locked region of [IssuePermit], after the lease was ensured. *)
Definition issue_locked (env : issue_env) (b : Broker) (disk : option string)
    (nonce toolSessionID defaultTaskSpace : string) (sc : scope)
    : Broker * option string * result error Permit :=
  let now := env_now env in
  let b := pruneExpiredPermitsLocked now b in
  if negb (String.eqb (text_at (Broker.nonces b) nonce) toolSessionID)
  then (b, disk, Err ErrUnavailable)
  else match (l ← bindingForSessionLocked b toolSessionID;
              match Broker.heap b !! l with Some st => Ok st | None => Err ErrUnavailable end) with
  | Err _ => (b, disk, Err ErrUnavailable)
  | Ok st =>
      let m := BindingState.metadata st in
      if negb (String.eqb (Binding.Status m) "active")
         || negb (String.eqb (Binding.LeaseHealth m) "healthy")
      then (b, disk, Err ErrLeaseRenewalRequired)
      else if Binding.BindingGeneration m =? 0 then (b, disk, Err (ErrProtocol "generation"))
      else if minInt (Config.MaxParallelRequests (Broker.cfg b)) (Binding.MaxParallelRequests m)
              <=? activeRequestCountLocked b (Binding.BindingID m)
      then (b, disk, Err ErrConcurrency)
      else match nextSequenceLocked b (env_persist env) disk with
      | (b, disk, Err e) => (b, disk, Err e)
      | (b, disk, Ok sequence) =>
          match randomToken (env_requestID env), env_key env with
          | Ok requestID, Some key =>
              match permit_expiry now m with
              | Err e => (b, disk, Err e)
              | Ok expiresAt =>
                  let p := new_permit (Broker.cfg b) m requestID sequence expiresAt
                             defaultTaskSpace sc key in
                  (notifyRequestChangeLocked
                     (b <| Broker.permits := <[sequence := p]> (Broker.permits b) |>
                        <| Broker.active := <[sequence := new_request p]> (Broker.active b) |>),
                   disk, Ok p)
              end
          | _, _ => (b, disk, Err (ErrTransport "random"))
          end
      end
  end.

(** [IssuePermit], run without interference between its regions. *)
Definition IssuePermit (env : issue_env) (answer : result error renew_response) (b : Broker)
    (disk : option string) (request : PermitRequest)
    : Broker * option string * result error Permit :=
  match validatePermitRequest (Broker.cfg b) request with
  | Err e => (b, disk, Err e)
  | Ok _ =>
      match bindingForNonce b (PermitRequest.StartupNonce request) with
      | Err _ => (b, disk, Err ErrUnavailable)
      | Ok (toolSessionID, l) =>
          match permitScope toolSessionID request with
          | Err e => (b, disk, Err e)
          | Ok (defaultTaskSpace, sc) =>
              match ensureLease (env_now env) answer l b with
              | (b, Err e) => (b, disk, Err e)
              | (b, Ok _) =>
                  issue_locked env b disk (PermitRequest.StartupNonce request) toolSessionID
                    defaultTaskSpace sc
              end
          end
      end
  end.

(** ** Requests in flight *)
Definition cancel_identity_ok (bindingID : string) (generation : Z) (requestID : string)
    (sequence : Z) : bool :=
  validOpaqueText bindingID 128 && negb (generation =? 0) && validOpaqueText requestID 128
  && negb (sequence =? 0).

Definition same_request (r : activeRequest) (bindingID : string) (generation : Z)
    (requestID : string) (sequence : Z) : bool :=
  String.eqb (ActiveRequest.bindingID r) bindingID && (ActiveRequest.generation r =? generation)
  && String.eqb (ActiveRequest.requestID r) requestID && (ActiveRequest.sequence r =? sequence).

Definition set_active (sequence : Z) (r : activeRequest) (b : Broker) : Broker :=
  b <| Broker.active := <[sequence := r]> (Broker.active b) |>.

Definition CancelRequest (b : Broker) (bindingID : string) (generation : Z) (requestID : string)
    (sequence : Z) : Broker * result error bool :=
  if negb (cancel_identity_ok bindingID generation requestID sequence)
  then (b, Err (ErrProtocol "cancellation identity"))
  else match Broker.active b !! sequence with
  | None => (b, Ok false)
  | Some r =>
      if negb (same_request r bindingID generation requestID sequence)
      then (b, Err (ErrProtocol "cancellation identity"))
      else (set_active sequence (r <| ActiveRequest.cancel := true |>) b, Ok true)
  end.

(** What a waiter of [CancelRequestAndWait] reads through its pointer. *)
Definition held_request (b : Broker) (sequence : Z) : option activeRequest :=
  match Broker.active b !! sequence with
  | Some r => Some r
  | None => Broker.retired b !! sequence
  end.

(** [CancelRequestAndWait] signals like [CancelRequest], then waits: the
    ready branches of its select in a later state [b'], [ctx] the error of its
    context if that is done. *)
Definition cancel_wait (b' : Broker) (sequence : Z) (ctx : option error)
    : list (result error (bool * bool)) :=
  match held_request b' sequence with
  | Some r =>
      if ActiveRequest.forwardDone r then [Ok (true, ActiveRequest.serverTerminalObserved r)] else []
  | None => []
  end
  ++ match ctx with Some e => [Err e] | None => [] end
  ++ (if Broker.closed b' then [Err ErrUnavailable] else []).

Definition ConsumePermit (now : time) (b : Broker) (bindingID : string) (generation : Z)
    (requestID : string) (sequence : Z) (payloadBytes : Z) : Broker * result error Permit :=
  let b := pruneConsumedLocked now b in
  match Broker.permits b !! sequence with
  | None =>
      if is_some (Broker.consumed b !! sequence) then (b, Err ErrReplay) else (b, Err ErrRevoked)
  | Some p =>
      if negb (String.eqb (Permit.BindingID p) bindingID && (Permit.Generation p =? generation)
               && String.eqb (Permit.RequestID p) requestID && (Permit.Sequence p =? sequence))
      then (b, Err (ErrProtocol "permit identity"))
      else if (payloadBytes <? 0) || (Permit.MaxPayloadBytes p <? payloadBytes)
      then (b, Err (ErrProtocol "payload size"))
      else if negb (after (Permit.ExpiresAt p) now) then
        let b := b <| Broker.permits := delete sequence (Broker.permits b) |> in
        let b := match Broker.active b !! sequence with
                 | Some r => retire sequence r b
                 | None => b
                 end in
        (notifyRequestChangeLocked b, Err ErrLeaseExpired)
      else
        let b := b <| Broker.permits := delete sequence (Broker.permits b) |>
                   <| Broker.consumed := <[sequence := now]> (Broker.consumed b) |> in
        let b := match Broker.active b !! sequence with
                 | Some r => notifyRequestChangeLocked
                               (set_active sequence (r <| ActiveRequest.submitted := true |>) b)
                 | None => b
                 end in
        (b, Ok p)
  end.

Definition releaseRequest (b : Broker) (sequence : Z) : Broker :=
  let b := b <| Broker.permits := delete sequence (Broker.permits b) |> in
  match Broker.active b !! sequence with
  | Some r => notifyRequestChangeLocked (retire sequence (finish_forward r) b)
  | None => b
  end.

Definition finishRequestForward (b : Broker) (sequence : Z) (observed : bool) : Broker :=
  match Broker.active b !! sequence with
  | None => b
  | Some r =>
      if ActiveRequest.forwardDone r then b
      else set_active sequence
             (r <| ActiveRequest.serverTerminalObserved := observed |>
                <| ActiveRequest.forwardDone := true |>) b
  end.

Definition markRequestSent (b : Broker) (bindingID : string) (sequence : Z)
    : Broker * result error unit :=
  match Broker.active b !! sequence with
  | None => (b, Ok tt)
  | Some r =>
      if negb (String.eqb (ActiveRequest.bindingID r) bindingID) || negb (ActiveRequest.submitted r)
      then (b, Err ErrRevoked)
      else (notifyRequestChangeLocked (set_active sequence (r <| ActiveRequest.sent := true |>) b),
            Ok tt)
  end.

(** A request that still has to be sent before [sequence]. *)
Definition blocks (bindingID : string) (sequence : Z) (e : Z * activeRequest) : Prop :=
  ActiveRequest.bindingID e.2 = bindingID ∧ e.1 < sequence ∧ ActiveRequest.sent e.2 = false.
#[global] Instance blocks_dec bindingID sequence e : Decision (blocks bindingID sequence e).
Proof. unfold blocks. apply _. Defined.

(** One turn of the [waitForSendTurn] loop: [TurnWait] waits for the next
    notification with the request tracked. *)
Inductive turn := TurnGranted | TurnRefused (e : error) | TurnWait (changed : Z).

Definition waitForSendTurn_turn (now : time) (b : Broker) (tracked : bool) (bindingID : string)
    (sequence : Z) : Broker * turn :=
  let b := pruneExpiredPermitsLocked now b in
  match Broker.active b !! sequence with
  | None => if tracked then (b, TurnRefused ErrRevoked) else (b, TurnGranted)
  | Some r =>
      if negb (String.eqb (ActiveRequest.bindingID r) bindingID) || negb (ActiveRequest.submitted r)
      then (b, TurnRefused ErrRevoked)
      else if (size (filter (blocks bindingID sequence) (Broker.active b)) =? 0)%nat
      then (b, TurnGranted)
      else (b, TurnWait (Broker.changed b))
  end.

(** [requestCancellation]: [None] when the request has no local entry. *)
Definition requestCancellation (b : Broker) (request : Outer.outerEnvelope)
    : result error (option Z) :=
  match Broker.active b !! Outer.Sequence request with
  | None => Ok None
  | Some r =>
      require same_request r (Outer.BindingID request) (Outer.Generation request)
                (Outer.RequestID request) (Outer.Sequence request)
              && ActiveRequest.submitted r
        orelse ErrProtocol "cancellation identity" ;;
      Ok (Some (Outer.Sequence request))
  end.

Definition usable_binding (m : EgoBrowserBinding) : result error unit :=
  if negb (String.eqb (Binding.Status m) "active") || negb (String.eqb (Binding.LeaseHealth m) "healthy")
  then if String.eqb (Binding.Status m) "expired" || String.eqb (Binding.LeaseHealth m) "expired"
       then Err ErrLeaseExpired else Err ErrRevoked
  else Ok tt.

Definition validateForwardBinding (b : Broker) (l : loc) (generation : Z) : result error unit :=
  match current_binding b l with
  | None => Err ErrRevoked
  | Some st =>
      require Binding.BindingGeneration (BindingState.metadata st) =? generation
        orelse ErrRevoked ;;
      usable_binding (BindingState.metadata st)
  end.

(** ** Revocation, reload, shutdown *)
Definition revoke_locked (now : time) (b : Broker) (bindingID : string) (generation : Z)
    : Broker * option loc :=
  match lookup_binding b bindingID with
  | Some (l, st) =>
      if (generation =? 0)
         || (Binding.BindingGeneration (BindingState.metadata st) =? generation)
      then (clearBindingMaterialsLocked now bindingID
              (set_state l (make_terminal "revoked" st) b), Some l)
      else (b, None)
  | None => (b, None)
  end.

Definition RevokeBinding (now : time) (b : Broker) (bindingID : string) (generation : Z) : Broker :=
  match revoke_locked now b bindingID generation with
  | (b, Some l) => closeRelay l ErrRevoked b
  | (b, None) => b
  end.

Definition Reload (now : time) (b : Broker) : Broker :=
  let entries := map_to_list (Broker.bindings b) in
  close_relays (map snd entries) ErrUnavailable (clear_all now (map fst entries) b).

(** The state part of [Close]; [closeOnce] makes a second call a no-op. *)
Definition Close (now : time) (b : Broker) : Broker :=
  if Broker.closed b then b
  else
    let b := Reload now (b <| Broker.closed := true |>) in
    b <| Broker.sessions := ∅ |> <| Broker.nonces := ∅ |> <| Broker.peerUIDs := ∅ |>.

(** ** Periodic renewal *)

(** One binding of [RenewDue]: what it does and the error it reports. *)
Definition renew_due_one (now : time) (answer : result error renew_response) (l : loc) (b : Broker)
    : Broker * option error :=
  match current_binding b l with
  | None => (b, None)
  | Some st =>
      let m := BindingState.metadata st in
      let renew :=
        match renewBinding now answer l b with
        | (b, Ok _) => (b, None)
        | (b, Err e) => (b, Some e)
        end in
      if negb (String.eqb (Binding.Status m) "active") && negb (String.eqb (Binding.Status m) "expired")
      then (b, None)
      else if String.eqb (Binding.Status m) "expired" || String.eqb (Binding.LeaseHealth m) "expired"
      then (expireBinding now l b, Some ErrLeaseExpired)
      else
        match (if String.eqb (Binding.AbsoluteTTLUntil m) "" then None
               else match parse_rfc3339 (Binding.AbsoluteTTLUntil m) with
                    | None => Some (ErrProtocol "absolute TTL timestamp")
                    | Some absoluteTTL =>
                        if after absoluteTTL now then None else Some ErrLeaseExpired
                    end) with
        | Some e => (expireBinding now l b, Some e)
        | None =>
            if String.eqb (Binding.LeaseHealth m) "renewal_grace" then
              match Binding.LeaseGraceUntil m with
              | None | Some "" =>
                  (expireBinding now l b, Some (ErrProtocol "renewal grace timestamp"))
              | Some text =>
                  match parse_rfc3339 text with
                  | None => (expireBinding now l b, Some (ErrProtocol "renewal grace timestamp"))
                  | Some graceUntil =>
                      if negb (after graceUntil now)
                      then (expireBinding now l b, Some ErrLeaseExpired) else renew
                  end
              end
            else if negb (String.eqb (Binding.LeaseHealth m) "healthy") then (b, None)
            else
              let due :=
                match Binding.LeaseUntil m with
                | None | Some "" => true
                | Some text =>
                    match parse_rfc3339 text with
                    | Some leaseUntil =>
                        time_sub leaseUntil now
                          <=? Config.AdmissionMinRemainingSeconds (Broker.cfg b) * second
                    | None => true
                    end
                end in
              if due then renew else (b, None)
        end
  end.

(** [RenewDue]: every binding of the snapshot, the first error reported;
    [answers] is what the control plane answers for each location. *)
Definition RenewDue (now : time) (answers : loc → result error renew_response) (b : Broker)
    : Broker * result error unit :=
  if negb (Config.Enabled (Broker.cfg b)) then (b, Err ErrDisabled)
  else
    let '(b, firstErr) :=
      foldl (λ acc e,
        let '(b, firstErr) := acc : Broker * option error in
        let '(b, err) := renew_due_one now (answers e.2) e.2 b in
        (b, match firstErr with Some _ => firstErr | None => err end))
        (b, None) (map_to_list (Broker.bindings b)) in
    (b, match firstErr with Some e => Err e | None => Ok tt end).

(** One tick of [Run]: refresh, then renew what is due; a failed refresh
    starts or continues the grace period of every binding. *)
Definition run_tick (now : time) (listed : result error (list EgoBrowserBinding))
    (answers : loc → result error renew_response) (b : Broker) : Broker :=
  if Config.ControlPlaneConfigured (Broker.cfg b) then
    match Refresh now b listed with
    | (b, Ok _) => (RenewDue now answers b).1
    | (b, Err _) => markRenewalFailure now b
    end
  else b.

(** [binding]: the empty id selects the only binding there is. *)
Definition binding (b : Broker) (bindingID : string) : option loc :=
  if negb (String.eqb bindingID "") then Broker.bindings b !! bindingID
  else match map_to_list (Broker.bindings b) with
       | [(_, l)] => Some l
       | _ => None
       end.
