(* ===== verification/EgoBrokerInv.v ===== *)
(** * The broker's invariant

    [broker_inv] is what every locked region of the broker relies on and
    re-establishes.  Its core is that authorization material is always backed:
    a permit or an active request exists only for a binding that is current,
    active, healthy, of the same generation and attached to a registered tool
    session.  Most regions only take material away ([shrinks]); the others
    change a binding's metadata and clear what was issued under it, which
    passes through [inv_except ids], the invariant without backing for the
    bindings [ids]. *)

From S2P Require Import Prelude GoText GoBytes GoTime GoJson EgoProtocol EgoRelay EgoBroker.
Import Config(Config). Import Binding(EgoBrowserBinding). Import Permit(Permit).
Import BindingState(bindingState). Import ActiveRequest(activeRequest). Import Broker(Broker).

(** ** Backing *)

(** The binding [id] admits requests of generation [gen]. *)
Definition live (b : Broker) (id : string) (gen : Z) (m : EgoBrowserBinding) : Prop :=
  ∃ l st, Broker.bindings b !! id = Some l ∧ Broker.heap b !! l = Some st ∧
    BindingState.metadata st = m ∧
    Binding.Status m = "active" ∧ Binding.LeaseHealth m = "healthy" ∧
    Binding.BindingGeneration m = gen ∧ BindingState.terminal st = false ∧
    (Broker.closed b = false → is_Some (Broker.sessions b !! Binding.ToolSessionID m)).

Definition permit_backed (b : Broker) (p : Permit) : Prop :=
  ∃ m, live b (Permit.BindingID p) (Permit.Generation p) m ∧
    Permit.AllowlistRevision p = Binding.AllowlistRevision m ∧
    Permit.LearningBundleDigest p = Binding.LearningBundleDigest m.

Definition request_backed (b : Broker) (r : activeRequest) : Prop :=
  ∃ m, live b (ActiveRequest.bindingID r) (ActiveRequest.generation r) m.

(** ** The invariant *)
Record inv_except (X : gset string) (b : Broker) : Prop := {
  inv_limits : Config.limits_ok (Broker.cfg b) = true;
  inv_root : Config.StateRoot (Broker.cfg b) ≠ "";
  inv_sequence : 0 ≤ Broker.sequence b ≤ max_uint64;
  inv_bindings : ∀ id l, Broker.bindings b !! id = Some l →
    ∃ st, Broker.heap b !! l = Some st ∧ Binding.BindingID (BindingState.metadata st) = id;
  inv_heap : ∀ l, is_Some (Broker.heap b !! l) → (l < Broker.next_loc b)%nat;
  inv_terminal : ∀ l st, Broker.heap b !! l = Some st → BindingState.terminal st = true →
    BindingState.terminalGeneration st = Binding.BindingGeneration (BindingState.metadata st) ∧
    Binding.Status (BindingState.metadata st) ≠ "active";
  inv_sessions : ∀ sid nonce,
    Broker.sessions b !! sid = Some nonce ↔ Broker.nonces b !! nonce = Some sid;
  inv_nonempty : ∀ sid nonce, Broker.sessions b !! sid = Some nonce → sid ≠ "" ∧ nonce ≠ "";
  inv_peers : ∀ sid, is_Some (Broker.peerUIDs b !! sid) → is_Some (Broker.sessions b !! sid);
  inv_permits : ∀ s p, Broker.permits b !! s = Some p →
    Permit.Sequence p = s ∧ 0 < s ≤ Broker.sequence b ∧
    (Permit.BindingID p ∉ X → permit_backed b p);
  inv_active : ∀ s r, Broker.active b !! s = Some r →
    ActiveRequest.sequence r = s ∧ 0 < s ≤ Broker.sequence b ∧
    (ActiveRequest.bindingID r ∉ X → request_backed b r);
  inv_parallel : ∀ id,
    activeRequestCountLocked b id ≤ Config.MaxParallelRequests (Broker.cfg b)
}.

Definition broker_inv : Broker → Prop := inv_except ∅.

(** ** Shrinking

    [core] is what the invariant reads of a binding state. *)
Definition core (st : bindingState) : EgoBrowserBinding * bool * Z :=
  (BindingState.metadata st, BindingState.terminal st, BindingState.terminalGeneration st).

(** The fields of a request that never change. *)
Definition identity (r : activeRequest) : string * Z * string * Z * time :=
  (ActiveRequest.bindingID r, ActiveRequest.generation r, ActiveRequest.requestID r,
   ActiveRequest.sequence r, ActiveRequest.expiresAt r).

(** The requests of [m'] are requests of [m]; they may have been submitted,
    and sent only when [raise] allows it. *)
Definition evolves_gen (raise : bool) (m m' : gmap Z activeRequest) : Prop :=
  ∀ s r', m' !! s = Some r' → ∃ r, m !! s = Some r ∧ identity r = identity r' ∧
    (ActiveRequest.sent r' = ActiveRequest.sent r ∨ raise = true ∧ ActiveRequest.sent r' = true) ∧
    (ActiveRequest.submitted r = true → ActiveRequest.submitted r' = true).
Abbreviation evolves := (evolves_gen false).

#[global] Instance evolves_preorder raise : PreOrder (evolves_gen raise).
Proof.
  split.
  - intros m s r Hr. eauto 10.
  - intros m1 m2 m3 H12 H23 s r3 Hr3. destruct (H23 s r3 Hr3) as (r2 & Hr2 & Hi2 & Hs2 & Hb2).
    destruct (H12 s r2 Hr2) as (r1 & Hr1 & Hi1 & Hs1 & Hb1). exists r1.
    split_and!; [done|congruence| |auto]. destruct Hs2 as [->|[? ?]]; auto.
Qed.

Lemma evolves_subseteq (m m' : gmap Z activeRequest) : m' ⊆ m → evolves m m'.
Proof. intros Hsub s r Hr. exists r. split_and!; auto. by eapply lookup_weaken. Qed.

(** [b'] differs from [b] only by material that is gone, flags of requests,
    relays, and the replay table. *)
Record shrinks_gen (raise : bool) (b b' : Broker) : Prop := {
  shrinks_cfg : Broker.cfg b' = Broker.cfg b;
  shrinks_sequence : Broker.sequence b' = Broker.sequence b;
  shrinks_bindings : Broker.bindings b' = Broker.bindings b;
  shrinks_heap : core <$> Broker.heap b' = core <$> Broker.heap b;
  shrinks_next : Broker.next_loc b' = Broker.next_loc b;
  shrinks_sessions : Broker.sessions b' = Broker.sessions b;
  shrinks_nonces : Broker.nonces b' = Broker.nonces b;
  shrinks_peers : Broker.peerUIDs b' = Broker.peerUIDs b;
  shrinks_closed : Broker.closed b' = Broker.closed b;
  shrinks_permits : Broker.permits b' ⊆ Broker.permits b;
  shrinks_active : evolves_gen raise (Broker.active b) (Broker.active b')
}.
Abbreviation shrinks := (shrinks_gen false).

#[global] Instance shrinks_preorder raise : PreOrder (shrinks_gen raise).
Proof.
  split; [by intros b|]. intros a b c [] []. split; try congruence; by etrans.
Qed.

Lemma heap_core b b' l st' :
  core <$> Broker.heap b' = core <$> Broker.heap b → Broker.heap b' !! l = Some st' →
  ∃ st, Broker.heap b !! l = Some st ∧ core st = core st'.
Proof.
  intros Heq Hl. assert (H : (core <$> Broker.heap b') !! l = Some (core st'))
    by by rewrite lookup_fmap, Hl.
  rewrite Heq, lookup_fmap in H. by apply fmap_Some in H as (st & ? & ?); eauto.
Qed.

Lemma core_metadata st st' : core st = core st' →
  BindingState.metadata st = BindingState.metadata st' ∧
  BindingState.terminal st = BindingState.terminal st' ∧
  BindingState.terminalGeneration st = BindingState.terminalGeneration st'.
Proof. unfold core. intros [=]. auto. Qed.

Lemma live_core b b' id gen m :
  Broker.bindings b' = Broker.bindings b → core <$> Broker.heap b' = core <$> Broker.heap b →
  Broker.sessions b' = Broker.sessions b → Broker.closed b' = Broker.closed b →
  live b id gen m → live b' id gen m.
Proof.
  intros Hb Hh Hs Hc (l & st & Hl & Hst & <- & H1 & H2 & H3 & H4 & H5).
  symmetry in Hh. destruct (heap_core _ _ _ _ Hh Hst) as (st' & Hst' & (Hm & Ht & _)%core_metadata).
  exists l, st'. rewrite Hb, Hs, Hc, Hm, Ht. auto 10.
Qed.

Lemma identity_lookup raise (m m' : gmap Z activeRequest) s r' :
  evolves_gen raise m m' → m' !! s = Some r' → ∃ r, m !! s = Some r ∧ identity r = identity r'.
Proof. intros Hev Hs. destruct (Hev s r' Hs) as (r & ? & ? & _). eauto. Qed.

Lemma identity_fields r r' : identity r = identity r' →
  ActiveRequest.bindingID r = ActiveRequest.bindingID r' ∧
  ActiveRequest.generation r = ActiveRequest.generation r' ∧
  ActiveRequest.sequence r = ActiveRequest.sequence r'.
Proof. unfold identity. intros [=]. auto. Qed.

Lemma count_identity raise (m m' : gmap Z activeRequest) id :
  evolves_gen raise m m' →
  (size (filter (of_binding id) m') ≤ size (filter (of_binding id) m))%nat.
Proof.
  intros Hsub. rewrite <- !size_dom. apply subseteq_size. intros s.
  rewrite !elem_of_dom. intros [r' (Hr' & Hid)%map_lookup_filter_Some].
  destruct (identity_lookup _ _ _ _ _ Hsub Hr') as (r & Hr & (Hb & _)%identity_fields).
  exists r. apply map_lookup_filter_Some. split; [done|]. unfold of_binding in *. cbn in *. congruence.
Qed.

Lemma shrinks_count raise b b' id :
  shrinks_gen raise b b' → activeRequestCountLocked b' id ≤ activeRequestCountLocked b id.
Proof. intros [Hcfg _ _ _ _ _ _ _ _ _ Ha]. unfold activeRequestCountLocked. pose proof (count_identity _ _ _ id Ha). lia. Qed.

Lemma inv_shrinks X raise b b' : inv_except X b → shrinks_gen raise b b' → inv_except X b'.
Proof.
  intros [Hlim Hroot Hseq Hbind Hheap Hterm Hsess Hne Hpeer Hperm Hact Hpar] Hsh.
  pose proof (λ id, shrinks_count raise b b' id Hsh) as Hcount.
  destruct Hsh as [Ecfg Eseq Ebind Eheap Enext Esess Enonces Epeers Eclosed Sp Sa].
  split; rewrite ?Ecfg, ?Eseq, ?Ebind, ?Enext, ?Esess, ?Enonces, ?Epeers; auto.
  - intros id l Hl. destruct (Hbind id l Hl) as (st & Hst & Hid).
    symmetry in Eheap. destruct (heap_core _ _ _ _ Eheap Hst) as (st' & Hst' & (Hm & _)%core_metadata).
    exists st'. rewrite Hm. auto.
  - intros l [st' Hst']. destruct (heap_core _ _ _ _ Eheap Hst') as (st & Hst & _). eauto.
  - intros l st' Hst'. destruct (heap_core _ _ _ _ Eheap Hst') as (st & Hst & (Hm & Ht & Hg)%core_metadata).
    rewrite <- Hm, <- Ht, <- Hg. eauto.
  - intros s p Hp. destruct (Hperm s p) as (? & ? & Hback); [by eapply lookup_weaken|].
    split_and!; try lia; try done. intros HX. destruct (Hback HX) as (m & Hlive & ? & ?).
    exists m. split_and!; try done. by eapply live_core.
  - intros s r' Hr'. destruct (identity_lookup _ _ _ _ _ Sa Hr') as (r & Hr & (Hb & Hg & Hs)%identity_fields).
    destruct (Hact s r Hr) as (? & ? & Hback). rewrite <- Hs. split_and!; try lia.
    rewrite <- Hb. intros HX. destruct (Hback HX) as (m & Hlive). exists m. rewrite <- Hb, <- Hg. by eapply live_core.
  - intros id. etrans; [apply Hcount|apply Hpar].
Qed.

Lemma inv_except_weaken X Y b : X ⊆ Y → inv_except X b → inv_except Y b.
Proof.
  intros HXY []. split; auto.
  - intros s p Hp. destruct (inv_permits0 s p Hp) as (? & ? & Hb). split_and!; try lia.
    intros HY. apply Hb. clear -HXY HY. set_solver.
  - intros s r Hr. destruct (inv_active0 s r Hr) as (? & ? & Hb). split_and!; try lia.
    intros HY. apply Hb. clear -HXY HY. set_solver.
Qed.

(** ** Regions that only shrink *)
Lemma shrinks_intro raise b b' :
  (Broker.cfg b' = Broker.cfg b ∧ Broker.sequence b' = Broker.sequence b ∧
   Broker.bindings b' = Broker.bindings b ∧ Broker.next_loc b' = Broker.next_loc b ∧
   Broker.sessions b' = Broker.sessions b ∧ Broker.nonces b' = Broker.nonces b ∧
   Broker.peerUIDs b' = Broker.peerUIDs b ∧ Broker.closed b' = Broker.closed b) →
  core <$> Broker.heap b' = core <$> Broker.heap b →
  Broker.permits b' ⊆ Broker.permits b →
  evolves_gen raise (Broker.active b) (Broker.active b') → shrinks_gen raise b b'.
Proof. intros (?&?&?&?&?&?&?&?) ???. by split. Qed.

Lemma core_insert (h : gmap loc bindingState) l st st' :
  h !! l = Some st → core st' = core st → core <$> <[l := st']> h = core <$> h.
Proof.
  intros Hl Hc. rewrite fmap_insert, Hc. apply insert_id. by rewrite lookup_fmap, Hl.
Qed.

Lemma evolves_insert raise (m : gmap Z activeRequest) s r r' :
  m !! s = Some r → identity r = identity r' →
  (ActiveRequest.sent r' = ActiveRequest.sent r ∨ raise = true ∧ ActiveRequest.sent r' = true) →
  (ActiveRequest.submitted r = true → ActiveRequest.submitted r' = true) →
  evolves_gen raise m (<[s := r']> m).
Proof.
  intros Hl Hi Hs Hb s' r2 [[<- <-]|[_ Hr2]]%lookup_insert_Some; [eauto 10|].
  exists r2. auto 10.
Qed.

Lemma shrinks_set_state b l st st' :
  Broker.heap b !! l = Some st → core st' = core st → shrinks b (set_state l st' b).
Proof.
  intros Hl Hc. apply shrinks_intro; cbn; [done| |done|done]. by eapply core_insert.
Qed.

Lemma lookup_binding_Some b id l st :
  lookup_binding b id = Some (l, st) ↔ Broker.bindings b !! id = Some l ∧ Broker.heap b !! l = Some st.
Proof.
  unfold lookup_binding. split.
  - intros (l' & Hl & (st' & Hst & [= <- <-])%bind_Some)%bind_Some. auto.
  - intros [-> Hst]. cbn. by rewrite Hst.
Qed.

Lemma shrinks_bump b id : shrinks b (bump_epoch id b).
Proof.
  unfold bump_epoch. destruct (lookup_binding b id) as [[l st]|] eqn:E; [|done].
  apply lookup_binding_Some in E as [_ Hl]. by eapply shrinks_set_state.
Qed.

Lemma shrinks_clear now id b : shrinks b (clearBindingMaterialsLocked now id b).
Proof.
  unfold clearBindingMaterialsLocked.
  match goal with |- shrinks _ (notifyRequestChangeLocked (bump_epoch _ ?x)) => set (mid := x) end.
  assert (Hmid : shrinks b mid).
  { apply shrinks_intro; cbn; [done|done| |].
    - apply map_filter_subseteq.
    - apply evolves_subseteq, map_filter_subseteq. }
  transitivity mid; [done|]. transitivity (bump_epoch id mid); [apply shrinks_bump|].
  by apply shrinks_intro.
Qed.

Lemma shrinks_clear_all now ids b : shrinks b (clear_all now ids b).
Proof.
  unfold clear_all. revert b. induction ids as [|id ids IH]; intros b; [done|].
  cbn [foldl]. etrans; [apply shrinks_clear|apply IH].
Qed.

Lemma shrinks_close_session id reason b : shrinks b (close_session id reason b).
Proof. unfold close_session. repeat case_match; [|done]. by apply shrinks_intro. Qed.

Lemma shrinks_closeRelay l reason b : shrinks b (closeRelay l reason b).
Proof.
  unfold closeRelay. destruct (Broker.heap b !! l) as [st|] eqn:E; [|done].
  assert (Hs : shrinks b (set_state l (st <| BindingState.relay := None |>) b))
    by by eapply shrinks_set_state.
  destruct (BindingState.relay st); [|done]. etrans; [exact Hs|apply shrinks_close_session].
Qed.

Lemma shrinks_close_relays ls reason b : shrinks b (close_relays ls reason b).
Proof.
  unfold close_relays. revert b. induction ls as [|l ls IH]; intros b; [done|].
  cbn [foldl]. etrans; [apply shrinks_closeRelay|apply IH].
Qed.

Lemma shrinks_pruneExpired now b : shrinks b (pruneExpiredPermitsLocked now b).
Proof.
  unfold pruneExpiredPermitsLocked. case_match;
    (apply shrinks_intro; cbn; [done|done|apply map_filter_subseteq|apply evolves_subseteq, map_filter_subseteq]).
Qed.

Lemma shrinks_set_active raise b s r r' :
  Broker.active b !! s = Some r → identity r = identity r' →
  (ActiveRequest.sent r' = ActiveRequest.sent r ∨ raise = true ∧ ActiveRequest.sent r' = true) →
  (ActiveRequest.submitted r = true → ActiveRequest.submitted r' = true) →
  shrinks_gen raise b (set_active s r' b).
Proof.
  intros. apply shrinks_intro; cbn; [done|done|done|]. by eapply evolves_insert.
Qed.

Lemma shrinks_notify raise b : shrinks_gen raise b (notifyRequestChangeLocked b).
Proof. by apply shrinks_intro. Qed.

Lemma shrinks_retire s r b : shrinks b (retire s r b).
Proof.
  apply shrinks_intro; cbn; [done|done|done|]. apply evolves_subseteq, delete_subseteq.
Qed.

Lemma shrinks_drop_permit s b :
  shrinks b (b <| Broker.permits := delete s (Broker.permits b) |>).
Proof. apply shrinks_intro; cbn; [done|done|apply delete_subseteq|done]. Qed.

Lemma shrinks_consumed c b : shrinks b (b <| Broker.consumed := c |>).
Proof. by apply shrinks_intro. Qed.

Create HintDb shrinks_db.
#[export] Hint Resolve shrinks_bump shrinks_clear shrinks_clear_all shrinks_close_session
  shrinks_closeRelay shrinks_close_relays shrinks_pruneExpired shrinks_notify shrinks_retire
  shrinks_drop_permit shrinks_consumed : shrinks_db.

Lemma shrinks_CancelRequest b id gen req s b' r :
  CancelRequest b id gen req s = (b', r) → shrinks b b'.
Proof.
  unfold CancelRequest. intros H. repeat case_match; simplify_eq; try done.
  eapply shrinks_set_active; eauto.
Qed.

Lemma shrinks_release b s : shrinks b (releaseRequest b s).
Proof.
  unfold releaseRequest. case_match; [|apply shrinks_drop_permit].
  etrans; [apply shrinks_drop_permit|]. etrans; [apply shrinks_retire|apply shrinks_notify].
Qed.

Lemma shrinks_finish b s o : shrinks b (finishRequestForward b s o).
Proof. unfold finishRequestForward. repeat case_match; try done. eapply shrinks_set_active; eauto. Qed.

Lemma shrinks_markSent b id s b' r : markRequestSent b id s = (b', r) → shrinks_gen true b b'.
Proof.
  unfold markRequestSent. intros H. repeat case_match; simplify_eq; try done.
  etrans; [|apply shrinks_notify]. eapply shrinks_set_active; eauto.
Qed.

Lemma shrinks_turn now b t id s b' r :
  waitForSendTurn_turn now b t id s = (b', r) → shrinks b b'.
Proof. unfold waitForSendTurn_turn. intros H. repeat case_match; simplify_eq; apply shrinks_pruneExpired. Qed.

Lemma shrinks_Consume now b id gen req s n b' r :
  ConsumePermit now b id gen req s n = (b', r) → shrinks b b'.
Proof.
  unfold ConsumePermit. intros H.
  assert (H0 : shrinks b (pruneConsumedLocked now b)) by apply shrinks_consumed.
  assert (H1 : ∀ x, shrinks x (x <| Broker.permits := delete s (Broker.permits x) |>
                                 <| Broker.consumed := <[s := now]> (Broker.consumed x) |>)).
  { intros x. etrans; [apply shrinks_drop_permit|]. apply (shrinks_consumed _ (x <| _ := _ |>)). }
  repeat case_match; simplify_eq; try done; (etrans; [exact H0|]).
  - etrans; [apply shrinks_drop_permit|]. etrans; [apply shrinks_retire|apply shrinks_notify].
  - etrans; [apply shrinks_drop_permit|]. apply shrinks_notify.
  - etrans; [apply H1|]. etrans; [|apply shrinks_notify]. eapply shrinks_set_active; eauto.
  - apply H1.
Qed.

(** ** Clearing a binding *)
Definition material_free (id : string) (b : Broker) : Prop :=
  (∀ s p, Broker.permits b !! s = Some p → Permit.BindingID p ≠ id) ∧
  (∀ s r, Broker.active b !! s = Some r → ActiveRequest.bindingID r ≠ id).

Lemma free_shrinks id raise b b' : shrinks_gen raise b b' → material_free id b → material_free id b'.
Proof.
  intros [_ _ _ _ _ _ _ _ _ Sp Sa] [Hp Ha]. split.
  - intros s p Hs. eapply Hp, lookup_weaken; eauto.
  - intros s r' Hr'. destruct (identity_lookup _ _ _ _ _ Sa Hr') as (r & Hr & (<- & _)%identity_fields). eauto.
Qed.

Lemma clear_free now id b : material_free id (clearBindingMaterialsLocked now id b).
Proof.
  unfold clearBindingMaterialsLocked.
  match goal with |- material_free _ (notifyRequestChangeLocked (bump_epoch _ ?x)) => set (mid := x) end.
  apply (free_shrinks _ false mid).
  { etrans; [apply shrinks_bump|apply shrinks_notify]. }
  split; cbn; intros s x Hx; by apply map_lookup_filter_Some in Hx as [_ Hx].
Qed.

Lemma inv_free X id b : inv_except X b → material_free id b → inv_except (X ∖ {[id]}) b.
Proof.
  intros [] [Hp Ha]. split; auto.
  - intros s p Hs. destruct (inv_permits0 s p Hs) as (? & ? & Hb). split_and!; try lia.
    intros HX. apply Hb. specialize (Hp s p Hs). clear -Hp HX. set_solver.
  - intros s r Hs. destruct (inv_active0 s r Hs) as (? & ? & Hb). split_and!; try lia.
    intros HX. apply Hb. specialize (Ha s r Hs). clear -Ha HX. set_solver.
Qed.

Lemma inv_clear X now id b :
  inv_except X b → inv_except (X ∖ {[id]}) (clearBindingMaterialsLocked now id b).
Proof.
  intros Hinv. apply inv_free; [|apply clear_free]. eapply inv_shrinks; [done|apply shrinks_clear].
Qed.

Lemma inv_clear_all X now ids b :
  inv_except X b → inv_except (X ∖ list_to_set ids) (clear_all now ids b).
Proof.
  revert X b. induction ids as [|id ids IH]; intros X b Hinv; cbn [clear_all foldl list_to_set].
  - eapply inv_except_weaken; [|done]. set_solver.
  - eapply inv_except_weaken; [|apply IH, (inv_clear X now id), Hinv]. set_solver.
Qed.

(** ** Changing the metadata of a binding *)
Lemma current_binding_Some b l st :
  current_binding b l = Some st →
  Broker.heap b !! l = Some st ∧
  Broker.bindings b !! Binding.BindingID (BindingState.metadata st) = Some l.
Proof.
  unfold current_binding. intros (st' & Hst & ([l' st''] & Hl' & H)%bind_Some)%bind_Some.
  destruct (Nat.eqb_spec l' l) as [->|]; [|done]. injection H as <-.
  apply lookup_binding_Some in Hl' as [Hb _]. auto.
Qed.

Definition terminal_ok (st : bindingState) : Prop :=
  BindingState.terminal st = true →
  BindingState.terminalGeneration st = Binding.BindingGeneration (BindingState.metadata st) ∧
  Binding.Status (BindingState.metadata st) ≠ "active".

Lemma live_set_state b l st st' id gen m :
  Broker.heap b !! l = Some st → Binding.BindingID (BindingState.metadata st) ≠ id →
  (∀ id l, Broker.bindings b !! id = Some l →
    ∃ st, Broker.heap b !! l = Some st ∧ Binding.BindingID (BindingState.metadata st) = id) →
  live b id gen m → live (set_state l st' b) id gen m.
Proof.
  intros Hl Hne Hb (l2 & st2 & H1 & H2 & H3). exists l2, st2. split_and!; [done| |apply H3..].
  cbn. rewrite lookup_insert_ne; [done|]. intros <-.
  destruct (Hb _ _ H1) as (st3 & ? & ?). congruence.
Qed.

Lemma inv_set_state X b l st st' :
  inv_except X b → Broker.heap b !! l = Some st →
  Binding.BindingID (BindingState.metadata st') = Binding.BindingID (BindingState.metadata st) →
  terminal_ok st' →
  inv_except ({[Binding.BindingID (BindingState.metadata st)]} ∪ X) (set_state l st' b).
Proof.
  intros [Hlim Hroot Hseq Hbind Hheap Hterm Hsess Hne Hpeer Hperm Hact Hpar] Hl Hid Hok.
  split; cbn; auto.
  - intros id l' Hl'. destruct (Hbind _ _ Hl') as (st2 & Hst2 & Hid2).
    destruct (decide (l' = l)) as [->|]; [|rewrite lookup_insert_ne by done; eauto].
    rewrite lookup_insert_eq. exists st'. split; [done|]. congruence.
  - intros l' [st2 Hst2]. apply lookup_insert_Some in Hst2 as [[<- _]|[_ Hst2]]; eauto.
  - intros l' st2 [[<- <-]|[_ Hst2]]%lookup_insert_Some; eauto.
  - intros s p Hp. destruct (Hperm s p Hp) as (? & ? & Hb). split_and!; try lia.
    intros HX. destruct Hb as (m & Hlive & ?); [clear -HX; set_solver|]. exists m. split; [|done].
    eapply live_set_state; [done| |done|done]. clear -HX. set_solver.
  - intros s r Hr. destruct (Hact s r Hr) as (? & ? & Hb). split_and!; try lia.
    intros HX. destruct Hb as (m & Hlive); [clear -HX; set_solver|]. exists m.
    eapply live_set_state; [done| |done|done]. clear -HX. set_solver.
Qed.

(** A change of metadata followed by a clear of the binding. *)
Lemma inv_change_and_clear now b l st st' :
  broker_inv b → Broker.heap b !! l = Some st →
  Binding.BindingID (BindingState.metadata st') = Binding.BindingID (BindingState.metadata st) →
  terminal_ok st' →
  broker_inv (clearBindingMaterialsLocked now (Binding.BindingID (BindingState.metadata st))
                (set_state l st' b)).
Proof.
  intros Hinv Hl Hid Hok. eapply inv_except_weaken; [|apply inv_clear; by eapply inv_set_state].
  set_solver.
Qed.

Lemma make_terminal_ok status st : status ≠ "active" → terminal_ok (make_terminal status st).
Proof. intros Hs _. by cbn. Qed.

Lemma inv_expire_locked now l b b' f :
  broker_inv b → expire_locked now l b = (b', f) → broker_inv b'.
Proof.
  intros Hinv H. unfold expire_locked in H.
  destruct (current_binding b l) as [st|] eqn:E; [|by simplify_eq].
  apply current_binding_Some in E as [Hl _].
  destruct (String.eqb _ _); simplify_eq; [|done].
  eapply inv_change_and_clear; [done|done|done|]. by apply make_terminal_ok.
Qed.

Lemma inv_renewal_failure now l b b' f :
  broker_inv b → markRenewalFailureFor_locked now l b = (b', f) → broker_inv b'.
Proof.
  intros Hinv H. unfold markRenewalFailureFor_locked in H.
  destruct (current_binding b l) as [st|] eqn:E; [|by simplify_eq].
  apply current_binding_Some in E as [Hl _].
  destruct (_ || _) eqn:Eg in H; [by simplify_eq|].
  rewrite !orb_false_iff in Eg. destruct Eg as [[_ Hterm] _].
  destruct (grace_ended _ _); simplify_eq.
  - eapply inv_shrinks; [|apply shrinks_clear].
    eapply inv_change_and_clear; [done|done|done|]. by apply make_terminal_ok.
  - eapply inv_change_and_clear; [done|done| |].
    + cbn. unfold enter_grace. by repeat case_match.
    + intros Ht. cbn in Ht. congruence.
Qed.

Lemma inv_revoke now b id gen b' l :
  broker_inv b → revoke_locked now b id gen = (b', l) → broker_inv b'.
Proof.
  intros Hinv H. unfold revoke_locked in H.
  destruct (lookup_binding b id) as [[l' st]|] eqn:E; [|by simplify_eq].
  apply lookup_binding_Some in E as [Hb Hl].
  destruct (inv_bindings _ _ Hinv _ _ Hb) as (st' & Hst' & Hid). rewrite Hl in Hst'. injection Hst' as <-.
  destruct (_ || _); simplify_eq; [|done].
  eapply inv_change_and_clear; [done|done|done|]. by apply make_terminal_ok.
Qed.

(** A renewal keeps the generation and everything material was issued under. *)
Lemma check_renewal_Ok now m response ttl :
  check_renewal now m response = Ok ttl →
  renewed_generation response = Binding.BindingGeneration m ∧ renewed_health response = "healthy".
Proof.
  unfold check_renewal. intros H. go_inv H. apply andb_prop in Hguard0 as [[Hg Hh]%andb_prop _].
  split; [by apply Z.eqb_eq|by apply String.eqb_eq].
Qed.

Lemma live_renewed b l st st' id gen m :
  Broker.heap b !! l = Some st →
  Binding.Status (BindingState.metadata st') = Binding.Status (BindingState.metadata st) →
  Binding.LeaseHealth (BindingState.metadata st') = "healthy" →
  Binding.BindingGeneration (BindingState.metadata st') = Binding.BindingGeneration (BindingState.metadata st) →
  Binding.ToolSessionID (BindingState.metadata st') = Binding.ToolSessionID (BindingState.metadata st) →
  BindingState.terminal st' = BindingState.terminal st →
  live b id gen m →
  live (set_state l st' b) id gen m ∨
  (Broker.bindings b !! id = Some l ∧ m = BindingState.metadata st ∧
   live (set_state l st' b) id gen (BindingState.metadata st')).
Proof.
  intros Hl H1 H2 H3 H4 H5 (l2 & st2 & Hl2 & Hst2 & <- & Hr).
  destruct (decide (l2 = l)) as [->|Hne].
  - rewrite Hl in Hst2. injection Hst2 as <-. right. split_and!; [done|done|].
    exists l, st'. cbn. rewrite lookup_insert_eq. destruct Hr as (Ha & Hb & Hc & Hd & He).
    rewrite H1, H2, H3, H4, H5. auto 10.
  - left. exists l2, st2. cbn. rewrite lookup_insert_ne by done. auto 10.
Qed.

Lemma inv_commit_renewal now l m response ttl b b' r :
  broker_inv b → check_renewal now m response = Ok ttl →
  commit_renewal l m response ttl b = (b', r) → broker_inv b'.
Proof.
  intros Hinv (Hgen & Hhealth)%check_renewal_Ok H. unfold commit_renewal in H.
  destruct (current_binding b l) as [st|] eqn:E; [|by simplify_eq].
  apply current_binding_Some in E as [Hl Hb].
  destruct (_ || _) eqn:Eg in H; simplify_eq; [done|].
  rewrite !orb_false_iff, !negb_false_iff, Z.eqb_eq, String.eqb_eq in Eg.
  destruct Eg as [[Hg Hs] Ht].
  match goal with |- broker_inv (set_state l ?x b) => set (st' := x) end.
  assert (Hlive : ∀ id gen m', live b id gen m' → ∃ m'', live (set_state l st' b) id gen m'' ∧
    Binding.AllowlistRevision m'' = Binding.AllowlistRevision m' ∧
    Binding.LearningBundleDigest m'' = Binding.LearningBundleDigest m').
  { intros id gen m' Hm'. destruct (live_renewed b l st st' id gen m') as [?|(? & -> & ?)];
      try done; [by cbn; rewrite Hgen|eauto|eauto]. }
  destruct Hinv as [? ? ? Hbind Hheap Hterm ? ? ? Hperm Hact ?]. split; cbn; auto.
  - intros id l' Hl'. destruct (Hbind _ _ Hl') as (st2 & Hst2 & Hid2).
    destruct (decide (l' = l)) as [->|]; [|rewrite lookup_insert_ne by done; eauto].
    rewrite lookup_insert_eq. exists st'. split; [done|]. cbn. congruence.
  - intros l' [st2 Hst2]. apply lookup_insert_Some in Hst2 as [[<- _]|[_ Hst2]]; eauto.
  - intros l' st2 [[<- <-]|[_ Hst2]]%lookup_insert_Some; [|eauto]. cbn. congruence.
  - intros s p Hp. destruct (Hperm s p Hp) as (? & ? & Hback). split_and!; try lia.
    intros HX. destruct (Hback HX) as (m1 & (m2 & ? & ? & ?)%Hlive & ? & ?). exists m2. split_and!; congruence.
  - intros s p Hp. destruct (Hact s p Hp) as (? & ? & Hback). split_and!; try lia.
    intros HX. destruct (Hback HX) as (m1 & (m2 & ? & ? & ?)%Hlive). by exists m2.
Qed.

(** ** Tool sessions *)
Lemma text_at_Some (m : gmap string string) k v : v ≠ "" → text_at m k = v ↔ m !! k = Some v.
Proof.
  intros Hv. unfold text_at. destruct (m !! k) as [w|]; cbn; [|naive_solver]. naive_solver.
Qed.

Lemma text_at_empty (m : gmap string string) k :
  (∀ v, m !! k = Some v → v ≠ "") → text_at m k = "" → m !! k = None.
Proof. unfold text_at. intros Hne. destruct (m !! k) as [w|]; cbn; [|done]. intros ->. by destruct (Hne "" eq_refl). Qed.

Lemma draw_nonce_fresh nonces tokens nonce :
  Forall (λ t, ∀ bs, t = Some bs → bs ≠ []) tokens →
  draw_nonce nonces tokens = Ok nonce → nonces !! nonce = None ∧ nonce ≠ "".
Proof.
  induction 1 as [|t tokens Ht _ IH]; cbn [draw_nonce]; [done|].
  destruct t as [bs|]; cbn; [|done]. destruct (nonces !! b64_encode bs) eqn:E; cbn; [done|].
  intros [= <-]. split; [done|]. specialize (Ht bs eq_refl).
  by destruct bs as [|? [|? [|??]]].
Qed.

Definition good_tokens (tokens : list (option bytes)) : Prop :=
  Forall (λ t, ∀ bs, t = Some bs → length bs = 32%nat) tokens.

Lemma live_sessions b b' id gen m :
  Broker.bindings b' = Broker.bindings b → Broker.heap b' = Broker.heap b →
  Broker.closed b' = Broker.closed b →
  (∀ sid, is_Some (Broker.sessions b !! sid) → is_Some (Broker.sessions b' !! sid)) →
  live b id gen m → live b' id gen m.
Proof.
  intros Hb Hh Hc Hs (l & st & H1 & H2 & H3 & H4 & H5 & H6 & H7 & H8).
  exists l, st. rewrite Hb, Hh, Hc. auto 10.
Qed.

Lemma inv_register b tokens sid b' r :
  broker_inv b → good_tokens tokens → RegisterToolSession b tokens sid = (b', r) → broker_inv b'.
Proof.
  intros Hinv Htok H. unfold RegisterToolSession in H.
  destruct (negb _); [by simplify_eq|].
  destruct (negb (validOpaqueText sid 128)) eqn:Ev; [by simplify_eq|].
  destruct (dedicatedTaskSpace sid); [|by simplify_eq].
  destruct (Broker.closed b); [by simplify_eq|].
  destruct (negb _) eqn:En in H; [by simplify_eq|].
  apply negb_false_iff, String.eqb_eq in En.
  destruct (draw_nonce _ _) as [nonce|] eqn:Ed; simplify_eq; [|done].
  assert (Hsid : sid ≠ "").
  { intros ->. unfold validOpaqueText in Ev. done. }
  destruct Hinv as [? ? ? ? ? ? Hsess Hne Hpeer Hperm Hact ?].
  apply draw_nonce_fresh in Ed as [Hfresh Hnonce].
  2: { eapply list.Forall_impl; [exact Htok|]. intros t Ht bs ->. specialize (Ht bs eq_refl). by destruct bs. }
  assert (Hold : Broker.sessions b !! sid = None).
  { apply text_at_empty; [|done]. intros v Hv. apply Hne in Hv. tauto. }
  assert (Hmono : ∀ s, is_Some (Broker.sessions b !! s) → is_Some (<[sid := nonce]> (Broker.sessions b) !! s)).
  { intros s Hs. apply lookup_insert_is_Some. destruct (decide (sid = s)); auto. }
  split; cbn; auto.
  - intros s n. rewrite !lookup_insert_Some, Hsess. split.
    + intros [[<- <-]|[? Hs]]; [auto|]. right. split; [|done]. intros <-. congruence.
    + intros [[<- <-]|[? Hs]]; [auto|]. right. split; [|done]. intros <-. apply Hsess in Hs. congruence.
  - intros s n [[<- <-]|[_ ?]]%lookup_insert_Some; eauto.
  - intros s p Hp. destruct (Hperm s p Hp) as (? & ? & Hb). split_and!; try lia.
    intros HX. destruct (Hb HX) as (m & Hl & ?). exists m. split; [|done].
    by eapply (live_sessions b); [done|done|done|exact Hmono|].
  - intros s p Hp. destruct (Hact s p Hp) as (? & ? & Hb). split_and!; try lia.
    intros HX. destruct (Hb HX) as (m & Hl). exists m.
    by eapply (live_sessions b); [done|done|done|exact Hmono|].
Qed.

Lemma inv_peer_change X b peers :
  inv_except X b → (∀ sid, is_Some (peers !! sid) → is_Some (Broker.sessions b !! sid)) →
  inv_except X (b <| Broker.peerUIDs := peers |>).
Proof. intros [] Hp. by split. Qed.

Lemma inv_record_peer b sid nonce uid b' r :
  broker_inv b → validOpaqueText nonce 256 = true → record_peer b sid nonce uid = (b', r) → broker_inv b'.
Proof.
  intros Hinv Hv H. unfold record_peer in H.
  destruct (_ || _) eqn:E in H; [by simplify_eq|].
  rewrite orb_false_iff, !negb_false_iff, !String.eqb_eq in E. destruct E as [E _].
  apply text_at_Some in E; [|by intros ->].
  assert (Hnew : broker_inv (b <| Broker.peerUIDs := <[sid := uid]> (Broker.peerUIDs b) |>)).
  { apply inv_peer_change; [done|]. intros s.
    destruct (decide (sid = s)) as [<-|Hne]; [by rewrite E|].
    rewrite lookup_insert_ne by done. apply (inv_peers _ _ Hinv). }
  repeat case_match; by simplify_eq.
Qed.

Lemma elem_of_session_bindings b sid id l :
  (id, l) ∈ session_bindings b sid ↔
  Broker.bindings b !! id = Some l ∧ in_session b sid (id, l) = true.
Proof. unfold session_bindings. rewrite list_elem_of_filter, elem_of_map_to_list. naive_solver. Qed.

Lemma in_session_true b sid e :
  in_session b sid e = true ↔
  ∃ st, Broker.heap b !! e.2 = Some st ∧ Binding.ToolSessionID (BindingState.metadata st) = sid.
Proof.
  unfold in_session. destruct (Broker.heap b !! e.2) as [st|]; [|naive_solver].
  rewrite String.eqb_eq. naive_solver.
Qed.

(** Dropping a session leaves backing open only for its bindings. *)
Lemma inv_drop_session b sid nonce :
  broker_inv b → Broker.sessions b !! sid = Some nonce →
  inv_except (list_to_set (map fst (session_bindings b sid)))
    (b <| Broker.sessions := delete sid (Broker.sessions b) |>
       <| Broker.nonces := delete nonce (Broker.nonces b) |>
       <| Broker.peerUIDs := delete sid (Broker.peerUIDs b) |>).
Proof.
  intros [? ? ? Hbind ? ? Hsess Hne Hpeer Hperm Hact ?] Hs.
  set (X := list_to_set _). set (b' := b <| _ := _ |> <| _ := _ |> <| _ := _ |>).
  assert (Hlive : ∀ id gen m, id ∉ X → live b id gen m → live b' id gen m).
  { intros id gen m HX (l & st & H1 & H2 & H3 & H4 & H5 & H6 & H7 & H8).
    exists l, st. split_and!; try done. cbn. intros Hc. rewrite lookup_delete_ne; [auto|].
    intros Heq. apply HX. apply elem_of_list_to_set, list_elem_of_fmap. exists (id, l).
    split; [done|]. apply elem_of_session_bindings. split; [done|]. apply in_session_true. exists st. subst m. eauto. }
  split; cbn; auto.
  - pose proof (proj1 (Hsess _ _) Hs) as Hn0.
    intros s n. rewrite !lookup_delete_Some, Hsess. split; intros [Hne1 Hn]; (split; [|done]); intros <-.
    + congruence.
    + apply Hsess in Hn. congruence.
  - intros s n [_ ?]%lookup_delete_Some. eauto.
  - intros s [u [? Hu]%lookup_delete_Some]. rewrite lookup_delete_ne by done. eauto.
  - intros s p Hp. destruct (Hperm s p Hp) as (? & ? & Hb). split_and!; try lia.
    intros HX. destruct Hb as (m & ? & ?); [set_solver|]. exists m. auto.
  - intros s p Hp. destruct (Hact s p Hp) as (? & ? & Hb). split_and!; try lia.
    intros HX. destruct Hb as (m & ?); [set_solver|]. exists m. auto.
Qed.

Lemma inv_unregister now b sid nonce b' r :
  broker_inv b → unregister_locked now b sid nonce = (b', r) → broker_inv b'.
Proof.
  intros Hinv H. unfold unregister_locked in H. destruct (_ || _) eqn:E in H; [by simplify_eq|].
  apply orb_false_iff in E as [E _]. apply String.eqb_neq in E. simplify_eq.
  set (n := text_at _ _) in *. assert (Hs : Broker.sessions b !! sid = Some n) by by apply text_at_Some.
  eapply inv_except_weaken; [|apply inv_clear_all, inv_drop_session; done].
  change (session_bindings (b <| _ := _ |> <| _ := _ |> <| _ := _ |>) sid) with (session_bindings b sid).
  set_solver.
Qed.

(** ** Admission *)
Lemma uint64_positive_le n : 0 ≤ n ≤ max_uint64 → n ≠ max_uint64 → 0 ≤ n + 1 ≤ max_uint64.
Proof. lia. Qed.

Lemma bindingForSession_Ok b sid l :
  bindingForSessionLocked b sid = Ok l →
  ∃ id st, Broker.bindings b !! id = Some l ∧ Broker.heap b !! l = Some st ∧
    Binding.ToolSessionID (BindingState.metadata st) = sid.
Proof.
  unfold bindingForSessionLocked. destruct (session_bindings b sid) as [|[id l'] [|]] eqn:E; try done.
  intros [= ->]. assert (Hin : (id, l) ∈ session_bindings b sid) by (rewrite E; set_solver).
  apply elem_of_session_bindings in Hin as [? (st & ? & ?)%in_session_true]. eauto.
Qed.

(** A permit that is issued names a live binding of the session. *)
Record issued_under (b : Broker) (now : time) (sid : string) (p : Permit) : Prop := {
  issued_next : Permit.Sequence p = Broker.sequence b + 1;
  issued_room : Broker.sequence b ≠ max_uint64;
  issued_count : activeRequestCountLocked (pruneExpiredPermitsLocked now b) (Permit.BindingID p)
                 < Config.MaxParallelRequests (Broker.cfg b);
  issued_binding : ∃ l st m, Broker.heap b !! l = Some st ∧ BindingState.metadata st = m ∧
    Broker.bindings b !! Permit.BindingID p = Some l ∧
    Binding.ToolSessionID m = sid ∧
    Binding.Status m = "active" ∧ Binding.LeaseHealth m = "healthy" ∧
    Binding.BindingGeneration m = Permit.Generation p ∧
    Permit.AllowlistRevision p = Binding.AllowlistRevision m ∧
    Permit.LearningBundleDigest p = Binding.LearningBundleDigest m ∧
    permit_expiry now m = Ok (Permit.ExpiresAt p)
}.

Lemma minInt_le l r : minInt l r ≤ l.
Proof. unfold minInt. destruct (Z.ltb_spec l r); lia. Qed.

Lemma issue_locked_inv env b disk nonce sid space sc b' disk' r :
  broker_inv b → issue_locked env b disk nonce sid space sc = (b', disk', r) →
  let b1 := pruneExpiredPermitsLocked (env_now env) b in
  match r with
  | Ok p =>
      issued_under b (env_now env) sid p ∧ text_at (Broker.nonces b) nonce = sid ∧
      disk' = Some (Decode.sequence_state_json (Permit.Sequence p)) ∧
      b' = notifyRequestChangeLocked
             (b1 <| Broker.sequence := Permit.Sequence p |>
                 <| Broker.permits := <[Permit.Sequence p := p]> (Broker.permits b1) |>
                 <| Broker.active := <[Permit.Sequence p := new_request p]> (Broker.active b1) |>)
  | Err _ =>
      (b' = b1 ∧ disk' = disk) ∨
      (b' = b1 <| Broker.sequence := Broker.sequence b + 1 |> ∧ Broker.sequence b ≠ max_uint64 ∧
       disk' = Some (Decode.sequence_state_json (Broker.sequence b + 1)))
  end.
Proof.
  intros Hinv H. cbn zeta. unfold issue_locked in H.
  pose proof (shrinks_pruneExpired (env_now env) b) as Hsh.
  set (b1 := pruneExpiredPermitsLocked (env_now env) b) in *.
  assert (Hinv1 : broker_inv b1) by by eapply inv_shrinks.
  destruct (String.eqb_spec (text_at (Broker.nonces b1) nonce) sid) as [Hnonce|]; cbn [negb] in H;
    [|by simplify_eq; auto].
  destruct (bindingForSessionLocked b1 sid) as [l|] eqn:El; cbn in H; [|by simplify_eq; auto].
  destruct (Broker.heap b1 !! l) as [st|] eqn:Est; [|by simplify_eq; auto].
  destruct (_ || _) eqn:Estat in H; [by simplify_eq; auto|].
  rewrite orb_false_iff, !negb_false_iff, !String.eqb_eq in Estat. destruct Estat as [Hst Hhe].
  destruct (_ =? 0) eqn:Eg in H; [by simplify_eq; auto|].
  destruct (_ <=? _) eqn:Ec in H; [by simplify_eq; auto|]. apply Z.leb_gt in Ec.
  unfold nextSequenceLocked in H. destruct (_ =? max_uint64) eqn:Em in H; [by simplify_eq; auto|].
  apply Z.eqb_neq in Em. destruct Hsh as [Ecfg Eseq Ebind Eheap ? ? Enon ? ? ? ?]. rewrite Eseq in *.
  unfold persistSequence in H. destruct (String.eqb_spec (Config.StateRoot (Broker.cfg b1)) "") as [Hr|_].
  { by destruct (inv_root _ _ Hinv1). }
  destruct (persist_loop _ _ _ _) as [d [[]|e]] eqn:Ep in H.
  2: { simplify_eq. left. split; [done|]. revert Ep. clear. generalize 3%nat (env_persist env).
       induction n as [|n IH]; intros [|[] o]; cbn; try naive_solver.
       destruct n; cbn; [naive_solver|]. intros Ep. by eapply IH. }
  assert (d = Some (Decode.sequence_state_json (Broker.sequence b + 1))) as ->.
  { revert Ep. clear. generalize 3%nat (env_persist env).
    induction n as [|n IH]; intros [|[] o]; cbn; try naive_solver.
    destruct n; cbn; [naive_solver|]. intros Ep. by eapply IH. }
  destruct (randomToken _); [|by simplify_eq; auto]. destruct (env_key env); [|by simplify_eq; auto].
  destruct (permit_expiry _ _) eqn:Ex; simplify_eq; [|auto].
  cbn [new_permit Permit.Sequence]. split_and!; try done; [|by rewrite <- Enon].
  destruct (heap_core _ _ _ _ Eheap Est) as (st0 & Hst0 & (Hm & _)%core_metadata).
  destruct (bindingForSession_Ok _ _ _ El) as (id & st2 & Hb & Hst2 & Hsid). rewrite Est in Hst2. injection Hst2 as <-.
  destruct (inv_bindings _ _ Hinv1 _ _ Hb) as (st3 & Hst3 & Hid). rewrite Est in Hst3. injection Hst3 as <-.
  split; cbn; [done|done| |].
  - rewrite <- Ecfg. eapply Z.lt_le_trans; [exact Ec|apply minInt_le].
  - exists l, st0, (BindingState.metadata st). rewrite Hm. split_and!; try done. by rewrite Hid, <- Ebind.
Qed.
