(* ===== verification/EgoBrokerSteps.v ===== *)
(** * Admission and snapshots preserve the broker's invariant

    The two regions that add something: [IssuePermit] adds a permit and an
    active request, [SetBindings] replaces the binding map.  The second is
    proved through the specification of its two loops, which also says what
    becomes of each binding. *)

From S2P Require Import Prelude GoText GoBytes GoTime GoJson EgoProtocol EgoRelay EgoBroker EgoBrokerInv.
Import Config(Config). Import Binding(EgoBrowserBinding). Import Permit(Permit).
Import BindingState(bindingState). Import ActiveRequest(activeRequest). Import Broker(Broker).

(** ** Admission preserves the invariant *)
Lemma count_insert b s r id :
  Broker.active b !! s = None →
  activeRequestCountLocked (b <| Broker.active := <[s := r]> (Broker.active b) |>) id =
  activeRequestCountLocked b id + (if decide (ActiveRequest.bindingID r = id) then 1 else 0).
Proof.
  intros Hs. unfold activeRequestCountLocked. cbn. case_decide as Hid.
  - rewrite map_filter_insert_True by done. rewrite map_size_insert_None; [lia|].
    apply map_lookup_filter_None. auto.
  - rewrite map_filter_insert_False by done. rewrite delete_id by done. lia.
Qed.

Lemma inv_bump_sequence b :
  broker_inv b → Broker.sequence b ≠ max_uint64 →
  broker_inv (b <| Broker.sequence := Broker.sequence b + 1 |>).
Proof.
  intros [? ? Hseq ? ? ? ? ? ? Hperm Hact ?] Hmax. split; cbn; auto; [lia| |].
  - intros s p Hp. destruct (Hperm s p Hp) as (? & ? & ?). split_and!; try lia. done.
  - intros s p Hp. destruct (Hact s p Hp) as (? & ? & ?). split_and!; try lia. done.
Qed.

(** Adding a permit with its active entry at the new sequence. *)
Lemma inv_admit b p :
  broker_inv b → Permit.Sequence p = Broker.sequence b → 0 < Permit.Sequence p →
  (∀ s r, Broker.active b !! s = Some r → s < Broker.sequence b) →
  activeRequestCountLocked b (Permit.BindingID p) < Config.MaxParallelRequests (Broker.cfg b) →
  permit_backed b p →
  broker_inv (b <| Broker.permits := <[Permit.Sequence p := p]> (Broker.permits b) |>
                <| Broker.active := <[Permit.Sequence p := new_request p]> (Broker.active b) |>).
Proof.
  intros [? ? Hseq ? ? ? ? ? ? Hperm Hact Hpar] Hs Hpos Hfresh Hcount (m & Hlive & Hrev & Hdig).
  split; cbn; auto.
  - intros s q [[<- <-]|[_ Hq]]%lookup_insert_Some.
    + split_and!; try lia. intros _. exists m. auto.
    + apply Hperm in Hq. done.
  - intros s r [[<- <-]|[_ Hr]]%lookup_insert_Some.
    + cbn. split_and!; try lia. intros _. exists m. auto.
    + apply Hact in Hr. done.
  - intros id.
    change (activeRequestCountLocked _ id) with
      (activeRequestCountLocked (b <| Broker.active :=
         <[Permit.Sequence p := new_request p]> (Broker.active b) |>) id).
    rewrite count_insert.
    + specialize (Hpar id). cbn. case_decide as Hid; [|lia]. rewrite <- Hid in *. lia.
    + destruct (Broker.active b !! Permit.Sequence p) eqn:E; [|done]. apply Hfresh in E. lia.
Qed.

Lemma issued_backed b now sid nonce p :
  broker_inv b → issued_under b now sid p → sid ≠ "" →
  text_at (Broker.nonces b) nonce = sid → permit_backed b p.
Proof.
  intros Hinv [_ _ _ (l & st & m & Hl & Hm & Hb & Hsid & Hst & Hhe & Hg & Hr & Hd & _)] Hne Hn.
  exists m. split; [|done]. exists l, st. split_and!; try done.
  - destruct (BindingState.terminal st) eqn:Et; [|done].
    destruct (inv_terminal _ _ Hinv l st Hl Et) as [_ Hna]. subst m. by destruct Hna.
  - intros _. rewrite Hsid. apply text_at_Some in Hn; [|done].
    apply (inv_sessions _ _ Hinv) in Hn. eauto.
Qed.

Lemma inv_issue env b disk nonce sid space sc b' disk' r :
  broker_inv b → sid ≠ "" →
  issue_locked env b disk nonce sid space sc = (b', disk', r) → broker_inv b'.
Proof.
  intros Hinv Hne H. pose proof (issue_locked_inv _ _ _ _ _ _ _ _ _ _ Hinv H) as Hspec.
  cbn zeta in Hspec. set (b1 := pruneExpiredPermitsLocked (env_now env) b) in *.
  pose proof (shrinks_pruneExpired (env_now env) b) as Hsh. fold b1 in Hsh.
  assert (Hinv1 : broker_inv b1) by by eapply inv_shrinks.
  assert (Hseq1 : Broker.sequence b1 = Broker.sequence b) by apply Hsh.
  destruct r as [p|e].
  - destruct Hspec as (Hiss & Hn & _ & ->).
    assert (Hback : permit_backed b1 p).
    { destruct (issued_backed b _ _ _ _ Hinv Hiss Hne Hn) as (m & Hlive & ?). exists m. split; [|done].
      destruct Hsh. by eapply live_core. }
    destruct Hiss as [Hnext Hroom Hcount _].
    eapply inv_shrinks; [|apply (shrinks_notify false)]. rewrite Hnext, <- Hseq1.
    set (b2 := b1 <| Broker.sequence := Broker.sequence b1 + 1 |>).
    assert (Hinv2 : broker_inv b2) by (apply inv_bump_sequence; [done|lia]).
    replace (Broker.sequence b1 + 1) with (Permit.Sequence p) by lia.
    pose proof (inv_sequence _ _ Hinv) as Hpos.
    apply (inv_admit b2 p); [done|cbn; lia|lia| | |done].
    + intros s r Hr. cbn in Hr |- *. destruct (inv_active _ _ Hinv1 s r Hr) as (_ & ? & _). lia.
    + change (activeRequestCountLocked b2 ?x) with (activeRequestCountLocked b1 x).
      change (Broker.cfg b2) with (Broker.cfg b1). destruct Hsh as [-> _ _ _ _ _ _ _ _ _ _]. done.
  - destruct Hspec as [[-> _]|(-> & Hmax & _)]; [done|].
    rewrite <- Hseq1. apply inv_bump_sequence; [done|]. by rewrite Hseq1.
Qed.

(** ** A new snapshot *)

(** Everything a merge leaves alone: [shrinks] without the heap. *)
Record keeps (b b' : Broker) : Prop := {
  keeps_fields : Broker.cfg b' = Broker.cfg b ∧ Broker.sequence b' = Broker.sequence b ∧
    Broker.bindings b' = Broker.bindings b ∧ Broker.next_loc b' = Broker.next_loc b ∧
    Broker.sessions b' = Broker.sessions b ∧ Broker.nonces b' = Broker.nonces b ∧
    Broker.peerUIDs b' = Broker.peerUIDs b ∧ Broker.closed b' = Broker.closed b;
  keeps_permits : Broker.permits b' ⊆ Broker.permits b;
  keeps_active : evolves (Broker.active b) (Broker.active b')
}.

#[global] Instance keeps_preorder : PreOrder keeps.
Proof.
  split; [by intros b|]. intros a b c [(?&?&?&?&?&?&?&?) ? ?] [(?&?&?&?&?&?&?&?) ? ?].
  split; [split_and!; congruence|by etrans..].
Qed.

Lemma keeps_shrinks b b' : shrinks b b' → keeps b b'.
Proof. intros []. by split. Qed.

Lemma keeps_set_state l st b : keeps b (set_state l st b).
Proof. by split. Qed.

Lemma free_keeps id b b' : keeps b b' → material_free id b → material_free id b'.
Proof.
  intros [_ Sp Sa] [Hp Ha]. split.
  - intros s p Hs. eapply Hp, lookup_weaken; eauto.
  - intros s r' Hr'. destruct (identity_lookup _ _ _ _ _ Sa Hr') as (r & Hr & (<- & _)%identity_fields). eauto.
Qed.

Lemma shrinks_lookup_core b b' l st :
  shrinks b b' → Broker.heap b !! l = Some st → ∃ st', Broker.heap b' !! l = Some st' ∧ core st' = core st.
Proof. intros Hsh Hl. eapply heap_core; [symmetry; apply Hsh|done]. Qed.

Lemma core_lookup_fmap (b : Broker) l :
  core <$> Broker.heap b !! l = (core <$> Broker.heap b) !! l.
Proof. by rewrite lookup_fmap. Qed.

(** From here on clearing is used only through its lemmas. *)
#[local] Opaque clearBindingMaterialsLocked.

(** What the merge makes of an old binding and its fresh metadata. *)
Definition merged (old : bindingState) (fresh : EgoBrowserBinding) : EgoBrowserBinding * bool * Z :=
  let m := BindingState.metadata old in
  if Binding.BindingGeneration fresh <? Binding.BindingGeneration m then core old
  else if BindingState.terminal old
          && (Binding.BindingGeneration fresh <=? BindingState.terminalGeneration old)
  then core old
  else if Binding.BindingGeneration fresh =? Binding.BindingGeneration m
  then (fresh, BindingState.terminal old, BindingState.terminalGeneration old)
  else (fresh, false, 0).

(** Without material, new metadata needs no backing. *)
Lemma inv_replace_free b l st st' :
  broker_inv b → Broker.heap b !! l = Some st →
  Binding.BindingID (BindingState.metadata st') = Binding.BindingID (BindingState.metadata st) →
  terminal_ok st' → material_free (Binding.BindingID (BindingState.metadata st)) b →
  broker_inv (set_state l st' b).
Proof.
  intros Hinv Hl Hid Hok Hfree.
  pose proof (inv_set_state ∅ b l st st' Hinv Hl Hid Hok) as H.
  apply (inv_free _ (Binding.BindingID (BindingState.metadata st))) in H;
    [|by eapply free_keeps; [apply keeps_set_state|]].
  eapply inv_except_weaken; [|exact H]. set_solver.
Qed.

(** With the same generation and authorization, the backing carries over. *)
Lemma authorization_same old fresh :
  authorization_changed old fresh = false →
  Binding.ToolSessionID fresh = Binding.ToolSessionID old ∧
  Binding.AllowlistRevision fresh = Binding.AllowlistRevision old ∧
  Binding.LearningBundleDigest fresh = Binding.LearningBundleDigest old ∧
  Binding.Status fresh = Binding.Status old ∧ Binding.LeaseHealth fresh = Binding.LeaseHealth old.
Proof.
  unfold authorization_changed. rewrite !orb_false_iff, !negb_false_iff, !String.eqb_eq, Z.eqb_eq.
  intros ((((H1 & H2) & H3) & H4) & H5). split_and!; try done.
  destruct (Binding.LearningBundleDigest old), (Binding.LearningBundleDigest fresh);
    cbn in H3; try done. apply String.eqb_eq in H3. by subst.
Qed.

Lemma inv_replace_same b l st fresh :
  broker_inv b → Broker.heap b !! l = Some st → BindingState.terminal st = false →
  Binding.BindingID fresh = Binding.BindingID (BindingState.metadata st) →
  Binding.BindingGeneration fresh = Binding.BindingGeneration (BindingState.metadata st) →
  authorization_changed (BindingState.metadata st) fresh = false →
  broker_inv (set_state l (st <| BindingState.metadata := fresh |>) b).
Proof.
  intros Hinv Hl Hterm Hid Hgen (Hs & Hr & Hd & Hst & Hh)%authorization_same.
  set (st' := st <| BindingState.metadata := fresh |>).
  assert (Hlive : ∀ id gen m, live b id gen m → ∃ m', live (set_state l st' b) id gen m' ∧
    Binding.AllowlistRevision m' = Binding.AllowlistRevision m ∧
    Binding.LearningBundleDigest m' = Binding.LearningBundleDigest m).
  { intros id gen m (l2 & st2 & Hl2 & Hst2 & <- & Ha & Hb & Hc & Ht & Hse).
    destruct (decide (l2 = l)) as [->|Hne].
    - rewrite Hl in Hst2. injection Hst2 as <-. exists fresh. split_and!; try done.
      exists l, st'. cbn. rewrite lookup_insert_eq. split_and!; try congruence; try done.
      intros Hcl. rewrite Hs. auto.
    - exists (BindingState.metadata st2). split_and!; try done. exists l2, st2. cbn.
      rewrite lookup_insert_ne by done. auto 10. }
  assert (Hok : terminal_ok st') by (intros Ht; cbn in Ht; congruence).
  pose proof (inv_set_state _ _ _ _ st' Hinv Hl Hid Hok) as [? ? ? ? ? ? ? ? ? _ _ ?].
  destruct Hinv as [_ _ _ _ _ _ _ _ _ Hperm Hact _]. split; auto.
  - intros s p Hp. destruct (Hperm s p Hp) as (? & ? & Hb). split_and!; [done|cbn; lia..|].
    intros HX. destruct (Hb HX) as (m & (m' & ? & ? & ?)%Hlive & ? & ?). exists m'. split_and!; congruence || done.
  - intros s p Hp. destruct (Hact s p Hp) as (? & ? & Hb). split_and!; [done|cbn; lia..|].
    intros HX. destruct (Hb HX) as (m & (m' & ? & ? & ?)%Hlive). by exists m'.
Qed.

(** One turn of the merge loop. *)
Record merge_spec (staged : gmap string EgoBrowserBinding) (id : string) (l : loc)
    (b b' : Broker) (next next' : gmap string loc) : Prop := {
  merge_inv : broker_inv b';
  merge_keeps : keeps b b';
  merge_others : ∀ l', l' ≠ l → core <$> Broker.heap b' !! l' = core <$> Broker.heap b !! l';
  merge_gone : staged !! id = None →
    material_free id b' ∧ next' = next ∧ core <$> Broker.heap b' !! l = core <$> Broker.heap b !! l;
  merge_kept : ∀ fresh old, staged !! id = Some fresh → Broker.heap b !! l = Some old →
    next' = <[id := l]> next ∧ core <$> Broker.heap b' !! l = Some (merged old fresh)
}.

Lemma set_state_others l st b l' :
  l' ≠ l → core <$> Broker.heap (set_state l st b) !! l' = core <$> Broker.heap b !! l'.
Proof. intros. cbn. by rewrite lookup_insert_ne. Qed.

Lemma shrinks_others b b' l : shrinks b b' → core <$> Broker.heap b' !! l = core <$> Broker.heap b !! l.
Proof. intros Hsh. rewrite !core_lookup_fmap. f_equal. apply Hsh. Qed.

Lemma set_state_core l st b :
  core <$> Broker.heap (set_state l st b) !! l = Some (core st).
Proof. cbn. by rewrite lookup_insert_eq. Qed.

(** The turn for a binding that gets fresh metadata, with or without a new
    generation. *)
Lemma merge_replace now b l old fresh :
  broker_inv b → Broker.heap b !! l = Some old →
  Binding.BindingID fresh = Binding.BindingID (BindingState.metadata old) →
  BindingState.terminal old
    && (Binding.BindingGeneration fresh <=? BindingState.terminalGeneration old) = false →
  let id := Binding.BindingID (BindingState.metadata old) in
  let same := Binding.BindingGeneration fresh =? Binding.BindingGeneration (BindingState.metadata old) in
  let b1 := if negb same then
      let b := clearBindingMaterialsLocked now id b in
      match Broker.heap b !! l with
      | Some st => set_state l (st <| BindingState.terminal := false |>
                                   <| BindingState.terminalGeneration := 0 |>) b
      | None => b
      end
    else b in
  let b2 := if authorization_changed (BindingState.metadata old) fresh
    then clearBindingMaterialsLocked now id b1 else b1 in
  let b3 := match Broker.heap b2 !! l with
    | Some st => set_state l (st <| BindingState.metadata := fresh |>) b2 | None => b2 end in
  broker_inv b3 ∧ keeps b b3 ∧
  (∀ l', l' ≠ l → core <$> Broker.heap b3 !! l' = core <$> Broker.heap b !! l') ∧
  core <$> Broker.heap b3 !! l = Some (if same
    then (fresh, BindingState.terminal old, BindingState.terminalGeneration old)
    else (fresh, false, 0)).
Proof.
  intros Hinv Hl Hid Hterm id same. cbn zeta.
  set (b1 := if negb same then _ else b).
  assert (H1 : ∃ st1, broker_inv b1 ∧ keeps b b1 ∧ Broker.heap b1 !! l = Some st1 ∧
    (∀ l', l' ≠ l → core <$> Broker.heap b1 !! l' = core <$> Broker.heap b !! l') ∧
    BindingState.metadata st1 = BindingState.metadata old ∧
    (core st1 = if same then core old else (BindingState.metadata old, false, 0)) ∧
    (same = false → material_free id b1)).
  { subst b1. destruct same; cbn [negb]; [exists old; split_and!; done|].
    pose proof (shrinks_clear now id b) as Hsh.
    destruct (shrinks_lookup_core _ _ _ _ Hsh Hl) as (st & Hst & (Hm & Ht & Hg)%core_metadata). rewrite Hst.
    assert (Hfree := clear_free now id b). set (bc := clearBindingMaterialsLocked now id b) in *.
    set (st1 := st <| _ := _ |> <| _ := _ |>). exists st1.
    assert (Hk : keeps b (set_state l st1 bc)) by (etrans; [by apply keeps_shrinks|apply keeps_set_state]).
    split_and!.
    - eapply inv_replace_free; [by eapply inv_shrinks|exact Hst|reflexivity|discriminate|].
      by rewrite Hm.
    - exact Hk.
    - cbn. by rewrite lookup_insert_eq.
    - intros l' Hne. rewrite set_state_others by done. by apply shrinks_others.
    - exact Hm.
    - unfold core. cbn. by rewrite Hm.
    - intros _. eapply free_keeps; [apply keeps_set_state|exact Hfree]. }
  clearbody b1. destruct H1 as (st1 & Hinv1 & Hk1 & Hl1 & Ho1 & Hm1 & Hc1 & Hf1).
  set (b2 := if authorization_changed _ _ then _ else b1).
  assert (Hsh2 : shrinks b1 b2) by (subst b2; destruct (authorization_changed _ _); auto with shrinks_db; reflexivity).
  assert (Hf2 : same = false ∨ authorization_changed (BindingState.metadata old) fresh = true → material_free id b2).
  { intros [Hs|Ha]; [by eapply free_shrinks; [exact Hsh2|auto]|]. subst b2. rewrite Ha. apply clear_free. }
  assert (Hb2 : authorization_changed (BindingState.metadata old) fresh = false → b2 = b1) by (subst b2; by intros ->).
  clearbody b2.
  destruct (shrinks_lookup_core _ _ _ _ Hsh2 Hl1) as (st2 & Hl2 & Hc2). rewrite Hl2.
  assert (Hcore : core (st2 <| BindingState.metadata := fresh |>) =
    if same then (fresh, BindingState.terminal old, BindingState.terminalGeneration old) else (fresh, false, 0)).
  { rewrite Hc1 in Hc2. unfold core in Hc2 |- *. cbn. by destruct same; injection Hc2 as _ -> ->. }
  assert (Hm2 : BindingState.metadata st2 = BindingState.metadata old).
  { apply core_metadata in Hc2 as [-> _]. done. }
  assert (Hterm' : same = true → BindingState.terminal old = false).
  { intros Hs%Z.eqb_eq. destruct (BindingState.terminal old) eqn:Et; [|done].
    destruct (inv_terminal _ _ Hinv l old Hl Et) as [Hg _]. cbn in Hterm. apply Z.leb_gt in Hterm. lia. }
  assert (Hinv2 : broker_inv b2) by by eapply inv_shrinks.
  split_and!.
  - destruct same eqn:Es, (authorization_changed (BindingState.metadata old) fresh) eqn:Ea.
    2: { apply inv_replace_same; try done; rewrite ?Hm2; try done.
         - apply core_metadata in Hc2 as (_ & -> & _).
           apply core_metadata in Hc1 as (_ & -> & _). auto.
         - by apply Z.eqb_eq. }
    all: eapply inv_replace_free; [done|done|by rewrite Hm2| |rewrite Hm2; auto].
    all: intros Ht; change (BindingState.terminal (st2 <| BindingState.metadata := fresh |>))
           with (snd (fst (core (st2 <| BindingState.metadata := fresh |>)))) in Ht;
         rewrite Hcore in Ht; cbn in Ht; rewrite ?Hterm' in Ht; done.
  - etrans; [exact Hk1|]. etrans; [by apply keeps_shrinks|apply keeps_set_state].
  - intros l' Hne. rewrite set_state_others, (shrinks_others b1 b2) by done. auto.
  - by rewrite set_state_core, Hcore.
Qed.

Lemma merge_binding_spec now staged b next toClose id l old b' next' toClose' :
  broker_inv b → (∀ id m, staged !! id = Some m → Binding.BindingID m = id) →
  Broker.bindings b !! id = Some l → Broker.heap b !! l = Some old →
  merge_binding now staged (b, next, toClose) (id, l) = (b', next', toClose') →
  merge_spec staged id l b b' next next'.
Proof.
  intros Hinv Hstaged Hb Hl H. unfold merge_binding in H.
  assert (Hid : Binding.BindingID (BindingState.metadata old) = id).
  { destruct (inv_bindings _ _ Hinv _ _ Hb) as (st & Hst & Hid). congruence. }
  destruct (staged !! id) as [fresh|] eqn:Es.
  2: { injection H as <- <- <-. pose proof (shrinks_clear now id b) as Hsh. split.
       - by eapply inv_shrinks.
       - by apply keeps_shrinks.
       - intros. by apply shrinks_others.
       - intros _. split_and!; [apply clear_free|done|by apply shrinks_others].
       - congruence. }
  rewrite Hl in H.
  assert (Hsame : merged old fresh = core old → next' = <[id := l]> next → b' = b →
    merge_spec staged id l b b' next next').
  { intros Hm -> ->. split; try done; [congruence|]. intros fresh' old' Hf' Hl'.
    rewrite Hl in Hl' |- *. rewrite Es in Hf'. simplify_eq. by rewrite Hm. }
  destruct (_ <? _) eqn:E1 in H.
  { injection H as <- <- <-. apply Hsame; try done. unfold merged. by rewrite E1. }
  destruct (_ && _) eqn:E2 in H.
  { injection H as <- <- <-. apply Hsame; try done. unfold merged. by rewrite E1, E2. }
  pose proof (merge_replace now b l old fresh Hinv Hl) as Hr. rewrite Hid in Hr. cbn zeta in Hr.
  destruct Hr as (Hi & Hk & Ho & Hc); [by apply Hstaged|done|].
  clear Hsame. destruct (_ =? _) eqn:E3 in *; cbn [negb] in *;
    destruct (authorization_changed _ _); injection H as <- <- <-;
    (split; [done|done|done|congruence|]; intros fresh' old' Hf' Hl';
     rewrite Hl in Hl'; rewrite Es in Hf'; injection Hl' as <-; injection Hf' as <-;
     split; [done|]; etrans; [exact Hc|]; unfold merged; by rewrite E1, E2, E3).
Qed.

(** The fresh state objects of a snapshot: they lie beyond every old location
    and hold the staged metadata. *)
Record alloc_spec (b b' : Broker) (done : list (string * EgoBrowserBinding))
    (next : gmap string loc) : Prop := {
  alloc_inv : broker_inv b';
  alloc_fields : Broker.cfg b' = Broker.cfg b ∧ Broker.bindings b' = Broker.bindings b ∧
    Broker.permits b' = Broker.permits b ∧ Broker.active b' = Broker.active b ∧
    Broker.sequence b' = Broker.sequence b ∧ Broker.consumed b' = Broker.consumed b;
  alloc_old : ∀ l, (l < Broker.next_loc b)%nat → Broker.heap b' !! l = Broker.heap b !! l;
  alloc_next : (Broker.next_loc b ≤ Broker.next_loc b')%nat;
  alloc_fresh : ∀ id l, next !! id = Some l → (Broker.next_loc b ≤ l)%nat ∧
    ∃ m, (id, m) ∈ done ∧ Broker.heap b' !! l = Some (BindingState.fresh m);
  alloc_all : ∀ id m, (id, m) ∈ done → is_Some (next !! id)
}.

Lemma inv_alloc b m :
  broker_inv b →
  broker_inv (set_state (Broker.next_loc b) (BindingState.fresh m)
                (b <| Broker.next_loc := S (Broker.next_loc b) |>)).
Proof.
  intros [? ? ? Hbind Hheap Hterm ? ? ? Hperm Hact ?].
  assert (Hnew : ∀ l, is_Some (Broker.heap b !! l) → l ≠ Broker.next_loc b)
    by (intros l Hl ->; apply Hheap in Hl; lia).
  assert (Hlive : ∀ id gen x, live b id gen x →
    live (set_state (Broker.next_loc b) (BindingState.fresh m)
            (b <| Broker.next_loc := S (Broker.next_loc b) |>)) id gen x).
  { intros id gen x (l & st & H1 & H2 & H3). exists l, st. cbn.
    rewrite lookup_insert_ne by (apply not_eq_sym, Hnew; eauto). done. }
  split; cbn; auto.
  - intros id l Hl. destruct (Hbind id l Hl) as (st & Hst & ?). exists st.
    rewrite lookup_insert_ne by (apply not_eq_sym, Hnew; eauto). done.
  - intros l [st [[<- _]|[_ Hst]]%lookup_insert_Some]; [lia|]. enough (l < Broker.next_loc b)%nat by lia. eauto.
  - intros l st [[<- <-]|[_ Hst]]%lookup_insert_Some; [done|eauto].
  - intros s p Hp. destruct (Hperm s p Hp) as (? & ? & Hb). split_and!; [done|lia..|].
    intros HX. destruct (Hb HX) as (x & ? & ?). exists x. auto.
  - intros s p Hp. destruct (Hact s p Hp) as (? & ? & Hb). split_and!; [done|lia..|].
    intros HX. destruct (Hb HX) as (x & ?). exists x. auto.
Qed.

Lemma alloc_fold b es :
  broker_inv b → NoDup (map fst es) →
  ∀ b' next, foldl alloc_binding (b, ∅) es = (b', next) → alloc_spec b b' es next.
Proof.
  intros Hinv. induction es as [|[id m] es IH] using rev_ind; intros Hnd b' next H.
  - injection H as <- <-. split; try done; intros * Hin; exfalso; by apply not_elem_of_nil in Hin || set_solver.
  - rewrite foldl_snoc in H. destruct (foldl alloc_binding (b, ∅) es) as [b1 next1] eqn:E.
    rewrite map_app in Hnd. apply list.NoDup_app in Hnd as (Hnd & Hdis & _).
    destruct (IH Hnd b1 next1 eq_refl) as [Hi Hf Ho Hn Hfr Hall]. cbn in H. injection H as <- <-.
    assert (Hheap1 : ∀ l, is_Some (Broker.heap b1 !! l) → (l < Broker.next_loc b1)%nat) by apply (inv_heap _ _ Hi).
    split.
    + by apply inv_alloc.
    + done.
    + intros l Hl. cbn. rewrite lookup_insert_ne by lia. auto.
    + cbn. lia.
    + intros id' l [[<- <-]|[Hne Hl]]%lookup_insert_Some; cbn.
      * split; [lia|]. exists m. rewrite lookup_insert_eq. split; [set_solver|done].
      * destruct (Hfr _ _ Hl) as (? & m' & Hin & Hm'). split; [done|]. exists m'. split; [set_solver|].
        rewrite lookup_insert_ne; [done|]. intros <-. specialize (Hheap1 (Broker.next_loc b1)).
        rewrite Hm' in Hheap1. specialize (Hheap1 ltac:(eauto)). lia.
    + intros id' m' [Hin|Hin]%elem_of_app.
      * apply lookup_insert_is_Some. destruct (decide (id = id')); eauto.
      * apply list_elem_of_singleton in Hin as [= -> ->]. by rewrite lookup_insert_eq.
Qed.

(** The merge loop over old bindings; [done] are the turns already taken. *)
Record merge_all (staged : gmap string EgoBrowserBinding) (b b' : Broker)
    (done : list (string * loc)) (next next' : gmap string loc) : Prop := {
  ma_inv : broker_inv b';
  ma_keeps : keeps b b';
  ma_untouched : ∀ l, l ∉ map snd done → core <$> Broker.heap b' !! l = core <$> Broker.heap b !! l;
  ma_gone : ∀ id l, (id, l) ∈ done → staged !! id = None → material_free id b';
  ma_kept : ∀ id l fresh old, (id, l) ∈ done → staged !! id = Some fresh →
    Broker.heap b !! l = Some old →
    next' !! id = Some l ∧ core <$> Broker.heap b' !! l = Some (merged old fresh);
  ma_next : ∀ id, (id ∉ map fst done ∨ staged !! id = None) → next' !! id = next !! id
}.

Lemma bindings_inj b id id' l :
  broker_inv b → Broker.bindings b !! id = Some l → Broker.bindings b !! id' = Some l → id = id'.
Proof.
  intros Hinv H1 H2. destruct (inv_bindings _ _ Hinv _ _ H1) as (st & Hst & <-).
  destruct (inv_bindings _ _ Hinv _ _ H2) as (st' & Hst' & <-). congruence.
Qed.

Lemma merge_fold now staged b next es :
  broker_inv b → (∀ id m, staged !! id = Some m → Binding.BindingID m = id) →
  NoDup (map fst es) → (∀ id l, (id, l) ∈ es → Broker.bindings b !! id = Some l) →
  ∀ b' next' toClose, foldl (merge_binding now staged) (b, next, []) es = (b', next', toClose) →
  merge_all staged b b' es next next'.
Proof.
  intros Hinv Hstaged. induction es as [|[id l] es IH] using rev_ind; intros Hnd Hin b' next' toClose H.
  { injection H as <- <- <-. split; try done; intros * Hbad; exfalso; by apply not_elem_of_nil in Hbad. }
  rewrite foldl_snoc in H. destruct (foldl _ _ es) as [[b1 next1] close1] eqn:E in H.
  rewrite map_app in Hnd. apply list.NoDup_app in Hnd as (Hnd & Hdis & _).
  destruct (IH Hnd ltac:(intros; apply Hin; set_solver) b1 next1 close1 E) as [Hi1 Hk1 Hu1 Hg1 Hke1 Hn1].
  assert (Hbl : Broker.bindings b !! id = Some l) by (apply Hin; set_solver).
  assert (Hid : id ∉ map fst es) by (intros Hbad; by apply (Hdis id Hbad), list_elem_of_singleton).
  assert (Hfresh : l ∉ map snd es).
  { intros ([id' l'] & -> & Hes)%list_elem_of_fmap. apply Hid, list_elem_of_fmap. exists (id', l').
    split; [|done]. cbn in Hbl |- *. apply (bindings_inj b _ _ l' Hinv Hbl), Hin, elem_of_app. by left. }
  destruct (inv_bindings _ _ Hinv _ _ Hbl) as (old & Hold & _).
  assert (Hcore1 : core <$> Broker.heap b1 !! l = core <$> Broker.heap b !! l) by auto.
  rewrite Hold in Hcore1. apply fmap_Some in Hcore1 as (old1 & Hold1 & Hc1).
  assert (Hbl1 : Broker.bindings b1 !! id = Some l) by (destruct Hk1 as [(_&_&->&_) _ _]; done).
  destruct (merge_binding_spec _ _ _ _ _ _ _ _ _ _ _ Hi1 Hstaged Hbl1 Hold1 H) as [Hi Hk Ho Hg Hke].
  assert (Hmerged : ∀ fresh, merged old1 fresh = merged old fresh).
  { intros fresh. unfold merged. apply core_metadata in Hc1 as (Hm & Ht & Hgn). unfold core. by rewrite Hm, Ht, Hgn. }
  split.
  - done.
  - by etrans.
  - intros l' Hl'. rewrite Ho; [apply Hu1|]; set_solver.
  - intros id' l' [Hes| [= -> ->]%list_elem_of_singleton]%elem_of_app Hnone; [|by apply Hg].
    eapply free_keeps; eauto.
  - intros id' l' fresh old' [Hes| [= -> ->]%list_elem_of_singleton]%elem_of_app Hs Hl'.
    + destruct (Hke1 _ _ _ _ Hes Hs Hl') as [Hn' Hc']. split.
      * destruct (staged !! id) as [f|] eqn:Ef; [|by destruct (Hg eq_refl) as (_ & -> & _)].
        destruct (Hke f old1 eq_refl Hold1) as [-> _]. rewrite lookup_insert_ne; [done|].
        intros ->. apply Hid, list_elem_of_fmap. by exists (id', l').
      * rewrite Ho; [done|]. intros ->. apply Hfresh, list_elem_of_fmap. by exists (id', l).
    + rewrite Hold in Hl'. injection Hl' as <-. destruct (Hke fresh old1 Hs Hold1) as [-> Hc].
      rewrite lookup_insert_eq. split; [done|]. by rewrite Hc, Hmerged.
  - intros id' Hor. destruct (staged !! id) as [f|] eqn:Ef.
    + destruct (Hke f old1 eq_refl Hold1) as [-> _]. rewrite lookup_insert_ne.
      * apply Hn1. destruct Hor as [?|?]; [left; set_solver|by right].
      * intros ->. destruct Hor as [Hbad|Hbad]; [apply Hbad; rewrite map_app; set_solver|congruence].
    + destruct (Hg eq_refl) as (_ & -> & _). apply Hn1. destruct Hor as [?|?]; [left; set_solver|by right].
Qed.

Lemma stage_bindings_ids cfg staged bindings staged' :
  (∀ id m, staged !! id = Some m → Binding.BindingID m = id) →
  stage_bindings cfg staged bindings = Ok staged' →
  ∀ id m, staged' !! id = Some m → Binding.BindingID m = id.
Proof.
  revert staged. induction bindings as [|m bindings IH]; intros staged Hs H; cbn in H; [by injection H as <-|].
  destruct (Binding.NormalizeBindingGeneration m) as [m'|]; [|done]. go_inv H.
  eapply IH; [|exact H]. intros id x [[<- <-]|[_ ?]]%lookup_insert_Some; eauto.
Qed.

(** What a snapshot does to each binding: absent bindings go with their
    material, old ones are merged in place, new ones start fresh. *)
Record install_spec (staged : gmap string EgoBrowserBinding) (b b' : Broker) : Prop := {
  is_inv : broker_inv b';
  is_frame : Broker.cfg b' = Broker.cfg b ∧ Broker.sequence b' = Broker.sequence b;
  is_permits : Broker.permits b' ⊆ Broker.permits b;
  is_active : evolves (Broker.active b) (Broker.active b');
  is_gone : ∀ id, staged !! id = None → Broker.bindings b' !! id = None;
  is_kept : ∀ id l old fresh, staged !! id = Some fresh → Broker.bindings b !! id = Some l →
    Broker.heap b !! l = Some old →
    Broker.bindings b' !! id = Some l ∧ core <$> Broker.heap b' !! l = Some (merged old fresh);
  is_new : ∀ id fresh, staged !! id = Some fresh → Broker.bindings b !! id = None →
    ∃ l, Broker.bindings b' !! id = Some l ∧
         core <$> Broker.heap b' !! l = Some (core (BindingState.fresh fresh))
}.

Lemma live_rebind b next id gen m :
  next !! id = Broker.bindings b !! id →
  live b id gen m → live (b <| Broker.bindings := next |>) id gen m.
Proof. intros Hn (l & st & Hl & H). exists l, st. split; [cbn; congruence|exact H]. Qed.

Lemma inv_rebind b next :
  broker_inv b →
  (∀ id l, next !! id = Some l →
    ∃ st, Broker.heap b !! l = Some st ∧ Binding.BindingID (BindingState.metadata st) = id) →
  (∀ id, material_free id b ∨ next !! id = Broker.bindings b !! id) →
  broker_inv (b <| Broker.bindings := next |>).
Proof.
  intros [? ? ? Hbind ? ? ? ? ? Hperm Hact ?] Hnext Hsame. split; cbn; auto.
  - intros s p Hp. destruct (Hperm s p Hp) as (? & ? & Hb). split_and!; [done|lia..|].
    intros HX. destruct (Hb HX) as (x & ? & ?). exists x. split; [|done].
    destruct (Hsame (Permit.BindingID p)) as [[Hf _]|?]; [by destruct (Hf s p Hp)|by apply live_rebind].
  - intros s p Hp. destruct (Hact s p Hp) as (? & ? & Hb). split_and!; [done|lia..|].
    intros HX. destruct (Hb HX) as (x & ?). exists x.
    destruct (Hsame (ActiveRequest.bindingID p)) as [[_ Hf]|?]; [by destruct (Hf s p Hp)|by apply live_rebind].
Qed.

Lemma install_bindings_spec now staged b b' toClose :
  broker_inv b → (∀ id m, staged !! id = Some m → Binding.BindingID m = id) →
  install_bindings now staged b = (b', toClose) → install_spec staged b b'.
Proof.
  intros Hinv Hids H. unfold install_bindings in H.
  destruct (foldl alloc_binding _ _) as [b1 next1] eqn:E1 in H.
  apply alloc_fold in E1 as [Hi1 (Hcfg1 & Hb1 & Hp1 & Ha1 & Hs1 & _) Ho1 Hn1 Hfr1 Hall1];
    [|done|apply NoDup_fst_map_to_list].
  destruct (foldl (merge_binding now staged) _ _) as [[b2 next2] close2] eqn:E2 in H.
  apply merge_fold in E2 as [Hi2 Hk2 Hu2 Hg2 Hke2 Hnx2];
    [|done|done|apply NoDup_fst_map_to_list|intros id l; apply elem_of_map_to_list].
  injection H as <- <-. destruct Hk2 as [(Hcfg2 & Hs2 & Hb2 & Hnl2 & Hrest) Hp2 Ha2].
  rewrite Hb1 in *.
  (* the locations of old bindings are below the fresh ones *)
  assert (Hlow : ∀ id l, Broker.bindings b !! id = Some l → (l < Broker.next_loc b)%nat).
  { intros id l Hl. destruct (inv_bindings _ _ Hinv _ _ Hl) as (st & Hst & _). eapply (inv_heap _ _ Hinv). eauto. }
  assert (Hsnd : ∀ l, (Broker.next_loc b ≤ l)%nat → l ∉ map snd (map_to_list (Broker.bindings b))).
  { intros l Hge ([id l'] & -> & Hin)%list_elem_of_fmap. apply elem_of_map_to_list, Hlow in Hin. cbn in Hge. lia. }
  assert (Hfst : ∀ id, Broker.bindings b !! id = None → id ∉ map fst (map_to_list (Broker.bindings b))).
  { intros id Hn ([id' l'] & -> & Hin)%list_elem_of_fmap. apply elem_of_map_to_list in Hin. cbn in Hn. congruence. }
  assert (Hstagednext : ∀ id, staged !! id = None → next1 !! id = None).
  { intros id Hn. destruct (next1 !! id) as [l|] eqn:E; [|done].
    destruct (Hfr1 _ _ E) as (_ & m & Hin%elem_of_map_to_list & _). congruence. }
  assert (Hkept : ∀ id l old fresh, staged !! id = Some fresh → Broker.bindings b !! id = Some l →
    Broker.heap b !! l = Some old →
    next2 !! id = Some l ∧ core <$> Broker.heap b2 !! l = Some (merged old fresh)).
  { intros id l old fresh Hs Hl Hold. eapply Hke2; [by apply elem_of_map_to_list|done|].
    by rewrite Ho1 by eauto. }
  assert (Hnew : ∀ id fresh, staged !! id = Some fresh → Broker.bindings b !! id = None →
    ∃ l, next2 !! id = Some l ∧ core <$> Broker.heap b2 !! l = Some (core (BindingState.fresh fresh))).
  { intros id fresh Hs Hn. destruct (Hall1 id fresh) as [l Hl]; [by apply elem_of_map_to_list|].
    exists l. rewrite Hnx2 by auto. split; [done|].
    destruct (Hfr1 _ _ Hl) as (Hge & m & Hin%elem_of_map_to_list & Hm). rewrite Hu2, Hm by auto.
    rewrite Hs in Hin. by injection Hin as ->. }
  split; cbn; auto.
  - apply inv_rebind; [done| |].
    + intros id l Hl. destruct (staged !! id) as [fresh|] eqn:Es.
      * assert (∃ c : EgoBrowserBinding * bool * Z, core <$> Broker.heap b2 !! l = Some c ∧ Binding.BindingID c.1.1 = id) as (c & Hc & Hcid).
        { destruct (Broker.bindings b !! id) as [l0|] eqn:Eb.
          - destruct (inv_bindings _ _ Hinv _ _ Eb) as (old & Hold & Hoid).
            destruct (Hkept _ _ _ _ Es Eb Hold) as [Hl0 Hc]. rewrite Hl in Hl0. injection Hl0 as <-.
            exists (merged old fresh). split; [done|]. apply Hids in Es.
            unfold merged, core. by repeat case_match.
          - destruct (Hnew _ _ Es Eb) as (l0 & Hl0 & Hc). rewrite Hl in Hl0. injection Hl0 as <-.
            eexists. split; [done|]. cbn. by apply Hids. }
        apply fmap_Some in Hc as (st & Hst & ->). eauto.
      * rewrite Hnx2, Hstagednext in Hl by auto. done.
    + intros id. rewrite Hb2. destruct (staged !! id) as [fresh|] eqn:Es.
      * destruct (Broker.bindings b !! id) as [l0|] eqn:Eb.
        -- right. destruct (inv_bindings _ _ Hinv _ _ Eb) as (old & Hold & Hoid). by destruct (Hkept _ _ _ _ Es Eb Hold) as [-> _].
        -- left. split; intros s x Hx <-.
           ++ destruct (inv_permits _ _ Hi2 s x Hx) as (_ & _ & Hback).
              destruct Hback as (m & (l & st & Hl & _) & _); [set_solver|]. rewrite Hb2 in Hl. congruence.
           ++ destruct (inv_active _ _ Hi2 s x Hx) as (_ & _ & Hback).
              destruct Hback as (m & (l & st & Hl & _)); [set_solver|]. rewrite Hb2 in Hl. congruence.
      * destruct (Broker.bindings b !! id) as [l0|] eqn:Eb.
        -- left. eapply Hg2; [by apply elem_of_map_to_list|done].
        -- right. by rewrite Hnx2, Hstagednext by auto.
  - split; congruence.
  - by rewrite <- Hp1.
  - by rewrite <- Ha1.
  - intros id Hn. rewrite Hnx2 by auto. auto.
Qed.
