(* ===== verification/EgoBrokerHistory.v ===== *)
(** * Histories of the broker

    [step] is one locked region of the broker, in any order and with any
    interleaving, or a restart of the process that keeps only the sequence
    file.  The theorems state what holds in every reachable state: material is
    backed, capabilities are a bijection, requests respect the parallel limit,
    sequences are never issued twice and a permit is consumed at most once. *)

From Stdlib.Strings Require Import Ascii.
From S2P Require Import Prelude GoText GoBytes GoTime GoJson EgoProtocol EgoProtocolFacts EgoRelay EgoBroker EgoBrokerInv EgoBrokerSteps.
Import Config(Config). Import Binding(EgoBrowserBinding). Import Permit(Permit).
Import BindingState(bindingState). Import ActiveRequest(activeRequest). Import Broker(Broker).

(** The running broker, the sequence file, and two histories, newest first:
    the sequences of the permits handed out and of those consumed. *)
Record world := World {
  w_broker : Broker;
  w_disk : option string;
  w_issued : list Z;
  w_spent : list Z
}.

(** The effect of a region on the broker alone. *)
Inductive region : Broker → Broker → Prop :=
  | r_register b tokens sid b' r :
      good_tokens tokens → RegisterToolSession b tokens sid = (b', r) → region b b'
  | r_peer b sid nonce uid b' r :
      validOpaqueText nonce 256 = true → record_peer b sid nonce uid = (b', r) → region b b'
  | r_unregister b now sid nonce b' r :
      unregister_locked now b sid nonce = (b', r) → region b b'
  | r_snapshot b now items staged b' toClose :
      stage_bindings (Broker.cfg b) ∅ items = Ok staged →
      install_bindings now staged b = (b', toClose) → region b b'
  | r_clear b now ids : region b (clear_all now ids b)
  | r_close_relay b l reason : region b (closeRelay l reason b)
  | r_expire b now l b' f : expire_locked now l b = (b', f) → region b b'
  | r_renew_failure b now l b' f : markRenewalFailureFor_locked now l b = (b', f) → region b b'
  | r_renew b now l m response ttl b' r :
      check_renewal now m response = Ok ttl →
      commit_renewal l m response ttl b = (b', r) → region b b'
  | r_revoke b now id gen b' l : revoke_locked now b id gen = (b', l) → region b b'
  | r_cancel b id gen req s b' r : CancelRequest b id gen req s = (b', r) → region b b'
  | r_release b s : region b (releaseRequest b s)
  | r_finish b s o : region b (finishRequestForward b s o)
  | r_turn b now t id s b' r : waitForSendTurn_turn now b t id s = (b', r) → region b b'
  | r_relay b b' : shrinks b b' → Broker.permits b' = Broker.permits b →
      Broker.active b' = Broker.active b → region b b'
  | r_shutdown b : region b (b <| Broker.closed := true |>)
  | r_forget b : Broker.closed b = true →
      region b (b <| Broker.sessions := ∅ |> <| Broker.nonces := ∅ |> <| Broker.peerUIDs := ∅ |>).

Inductive step : world → world → Prop :=
  | s_region b b' disk issued spent :
      region b b' → step (World b disk issued spent) (World b' disk issued spent)
  | s_issue env b disk issued spent nonce sid space sc b' disk' r :
      sid ≠ "" → issue_locked env b disk nonce sid space sc = (b', disk', r) →
      step (World b disk issued spent)
           (World b' disk' (match r with Ok p => Permit.Sequence p :: issued | Err _ => issued end) spent)
  | s_mark_sent b disk issued spent id s b' r :
      markRequestSent b id s = (b', r) →
      step (World b disk issued spent) (World b' disk issued spent)
  | s_consume now b disk issued spent id gen req s n b' r :
      ConsumePermit now b id gen req s n = (b', r) →
      step (World b disk issued spent)
           (World b' disk issued (match r with Ok p => Permit.Sequence p :: spent | Err _ => spent end))
  | s_restart b disk issued spent config b' :
      New config disk = Ok b' → step (World b disk issued spent) (World b' disk issued spent).

(** A world starts with a broker created from the file it finds. *)
Inductive initial : world → Prop :=
  | initial_world config disk b : New config disk = Ok b → initial (World b disk [] []).

Definition reachable (w : world) : Prop := ∃ w0, initial w0 ∧ rtc step w0 w.

(** ** Regions preserve the invariant *)
Lemma inv_shutdown b : broker_inv b → broker_inv (b <| Broker.closed := true |>).
Proof.
  intros [? ? ? ? ? ? ? ? ? Hperm Hact ?].
  assert (Hlive : ∀ id gen m, live b id gen m → live (b <| Broker.closed := true |>) id gen m).
  { intros id gen m (l & st & H1 & H2 & H3 & H4 & H5 & H6 & H7 & _). exists l, st. cbn. split_and!; done. }
  split; cbn; auto.
  - intros s p Hp. destruct (Hperm s p Hp) as (? & ? & Hb). split_and!; [done|lia..|].
    intros HX. destruct (Hb HX) as (x & ? & ?). exists x. auto.
  - intros s p Hp. destruct (Hact s p Hp) as (? & ? & Hb). split_and!; [done|lia..|].
    intros HX. destruct (Hb HX) as (x & ?). exists x. auto.
Qed.

Lemma inv_forget b : Broker.closed b = true → broker_inv b →
  broker_inv (b <| Broker.sessions := ∅ |> <| Broker.nonces := ∅ |> <| Broker.peerUIDs := ∅ |>).
Proof.
  intros Hcl [? ? ? ? ? ? ? ? ? Hperm Hact ?]. set (b' := b <| _ := _ |> <| _ := _ |> <| _ := _ |>).
  assert (Hlive : ∀ id gen m, live b id gen m → live b' id gen m).
  { intros id gen m (l & st & H1 & H2 & H3 & H4 & H5 & H6 & H7 & _). exists l, st. split_and!; try done.
    cbn. congruence. }
  split; auto.
  - intros sid nonce. cbn. rewrite !lookup_empty. by split.
  - intros sid [u Hbad]. cbn in Hbad. by rewrite lookup_empty in Hbad.
  - intros s p Hp. destruct (Hperm s p Hp) as (? & ? & Hb). split_and!; [done|cbn; lia..|].
    intros HX. destruct (Hb HX) as (x & ? & ?). exists x. auto.
  - intros s p Hp. destruct (Hact s p Hp) as (? & ? & Hb). split_and!; [done|cbn; lia..|].
    intros HX. destruct (Hb HX) as (x & ?). exists x. auto.
Qed.

Lemma inv_region b b' : broker_inv b → region b b' → broker_inv b'.
Proof.
  intros Hinv Hr. destruct Hr.
  - by eapply inv_register.
  - by eapply inv_record_peer.
  - by eapply inv_unregister.
  - eapply install_bindings_spec; [exact Hinv| |eassumption]. eapply stage_bindings_ids; [|eassumption].
    intros ? ?. by rewrite lookup_empty.
  - eapply inv_shrinks; [exact Hinv|apply shrinks_clear_all].
  - eapply inv_shrinks; [exact Hinv|apply shrinks_closeRelay].
  - by eapply inv_expire_locked.
  - by eapply inv_renewal_failure.
  - by eapply inv_commit_renewal.
  - by eapply inv_revoke.
  - eapply inv_shrinks; [exact Hinv|by eapply shrinks_CancelRequest].
  - eapply inv_shrinks; [exact Hinv|apply shrinks_release].
  - eapply inv_shrinks; [exact Hinv|apply shrinks_finish].
  - eapply inv_shrinks; [exact Hinv|by eapply shrinks_turn].
  - by eapply inv_shrinks.
  - by apply inv_shutdown.
  - by apply inv_forget.
Qed.

(** ** The initial state *)
Lemma digits_value_nonneg acc s z : 0 ≤ acc → digits_value acc s = Some z → 0 ≤ z.
Proof.
  revert acc. induction s as [|c s IH]; intros acc Hacc H; cbn in H; [naive_solver|].
  destruct (is_digit c) eqn:Ed; [|done]. eapply IH; [|exact H].
  unfold is_digit, in_range in Ed. apply andb_prop in Ed as [Ed _]. apply Z.leb_le in Ed.
  change (48 ≤ code c) in Ed. lia.
Qed.

Lemma uint64_of_json_range cur v z :
  is_uint64 cur → uint64_of_json cur v = Some z → is_uint64 z.
Proof.
  unfold uint64_of_json, is_uint64. intros Hcur H.
  destruct v as [| |lit| | |]; try done; [naive_solver|].
  assert (Hz : ∀ z', int_literal lit = Some z' → (∀ r, lit ≠ String "-"%char r) → 0 ≤ z').
  { intros z' Hlit Hneg. eapply (digits_value_nonneg 0 lit); [lia|].
    destruct lit as [|c r]; [done|]. unfold int_literal in Hlit.
    destruct c as [[] [] [] [] [] [] [] []]; try exact Hlit. by destruct (Hneg r). }
  assert (Hgo : (z' ← int_literal lit; if z' <=? max_uint64 then Some z' else None) = Some z →
    (∀ r, lit ≠ String "-"%char r) → 0 ≤ z ≤ max_uint64).
  { intros (z' & Hlit & Hle)%bind_Some Hneg. destruct (Z.leb_spec z' max_uint64); [|done].
    injection Hle as <-. split; [by apply Hz|done]. }
  destruct lit as [|c r]; [by apply Hgo|].
  destruct c as [[] [] [] [] [] [] [] []]; try done; by apply Hgo.
Qed.

Lemma loadSequence_range content n : Decode.loadSequence content = Ok n → is_uint64 n.
Proof.
  assert (Hzero : is_uint64 0) by done.
  destruct content as [data|]; cbn; [|by intros [= <-]].
  destruct (decodeStrictJSON _ data) as [[v next]|] eqn:E; [|done]. intros H. go_inv H. injection H as <-.
  unfold decodeStrictJSON in E. apply bind_Some in E as (j & _ & E). destruct (no_duplicate_keys j); [|done].
  unfold Decode.sequence_of_json, struct_of_json in E. destruct j as [| | | | |fields]; try done; [naive_solver|].
  match type of E with assign_fields ?n ?a fields (0, 0) = _ => set (asg := a) in E; set (names := n) in E end.
  assert (Hall : ∀ r, is_uint64 r.2 → ∀ r', assign_fields names asg fields r = Some r' → is_uint64 r'.2).
  { clear E. induction fields as [|[[k raw] x] fields IH]; intros r Hr r' H; cbn in H; [naive_solver|].
    apply bind_Some in H as (name & _ & (r1 & H1 & H)%bind_Some). eapply IH; [|exact H].
    destruct r as [v0 n0]. unfold asg in H1. destruct (String.eqb name "version").
    - apply bind_Some in H1 as (? & _ & [= <-]). done.
    - apply bind_Some in H1 as (z & Hz & [= <-]). cbn. by eapply uint64_of_json_range. }
  exact (Hall (0, 0) Hzero _ E).
Qed.

Lemma New_inv config disk b :
  New config disk = Ok b →
  broker_inv b ∧ Decode.loadSequence disk = Ok (Broker.sequence b) ∧
  Broker.permits b = ∅ ∧ Broker.active b = ∅ ∧ Broker.consumed b = ∅.
Proof.
  unfold New. intros H. go_inv H. injection H as <-. cbn. split_and!; try done.
  apply loadSequence_range in Hrun. split; cbn; auto; try (intros *; by rewrite ?lookup_empty);
    try (intros * [? Hbad]; by rewrite lookup_empty in Hbad).
  - unfold Config.text_or. destruct (String.eqb_spec (Config.StateRoot config) ""); done.
  - intros id. unfold activeRequestCountLocked. cbn. rewrite map_filter_empty, map_size_empty.
    unfold Config.limits_ok in Hguard. rewrite negb_true_iff, !orb_false_iff, !Z.ltb_ge in Hguard. cbn in *. lia.
Qed.

(** ** Regions never add material *)
Definition loses (b b' : Broker) : Prop :=
  Broker.permits b' ⊆ Broker.permits b ∧ Broker.sequence b' = Broker.sequence b ∧
  evolves (Broker.active b) (Broker.active b').

Lemma loses_shrinks b b' : shrinks b b' → loses b b'.
Proof. by intros []. Qed.

Lemma loses_same b b' :
  Broker.permits b' = Broker.permits b → Broker.sequence b' = Broker.sequence b →
  Broker.active b' = Broker.active b → loses b b'.
Proof. intros Hp Hs Ha. unfold loses. by rewrite Hp, Hs, Ha. Qed.

Lemma loses_trans a b c : loses a b → loses b c → loses a c.
Proof. intros (?&?&?) (?&?&?). split_and!; [by etrans|congruence|by etrans]. Qed.

Lemma loses_set_clear now id l st b :
  loses b (clearBindingMaterialsLocked now id (set_state l st b)).
Proof. apply (loses_trans _ (set_state l st b)); [by apply loses_same|apply loses_shrinks, shrinks_clear]. Qed.

Lemma region_loses b b' : broker_inv b → region b b' → loses b b'.
Proof.
  intros Hinv Hr.
  destruct Hr as [b tokens sid b' r Htok H|b sid nonce uid b' r Hv H|b now sid nonce b' r H
    |b now items staged b' toClose Hst H|b now ids|b l reason|b now l b' f H|b now l b' f H
    |b now l m response ttl b' r Hc H|b now id gen b' l H|b id gen req s b' r H|b s|b s o
    |b now t id s b' r H|b b' H Hp Ha|b|b Hcl].
  - unfold RegisterToolSession in H. repeat case_match; simplify_eq; by apply loses_same.
  - unfold record_peer in H. repeat case_match; simplify_eq; by apply loses_same.
  - unfold unregister_locked in H. case_match; simplify_eq; [by apply loses_same|].
    match goal with |- loses _ (clear_all _ ?ids ?x) =>
      apply (loses_trans _ x); [by apply loses_same|apply loses_shrinks, shrinks_clear_all] end.
  - apply install_bindings_spec in H as [_ [_ ?] ? ? _ _ _]; [done|done|].
    eapply stage_bindings_ids; [|eassumption]. intros ? ?. by rewrite lookup_empty.
  - apply loses_shrinks, shrinks_clear_all.
  - apply loses_shrinks, shrinks_closeRelay.
  - unfold expire_locked, expireBindingLocked in H.
    repeat case_match; simplify_eq; try by apply loses_same. apply loses_set_clear.
  - unfold markRenewalFailureFor_locked, expireBindingLocked in H.
    repeat case_match; simplify_eq; try (by apply loses_same); [|apply loses_set_clear].
    eapply loses_trans; [apply loses_set_clear|apply loses_shrinks, shrinks_clear].
  - unfold commit_renewal in H. repeat case_match; simplify_eq; by apply loses_same.
  - unfold revoke_locked in H. repeat case_match; simplify_eq; try by apply loses_same. apply loses_set_clear.
  - by eapply loses_shrinks, shrinks_CancelRequest.
  - apply loses_shrinks, shrinks_release.
  - apply loses_shrinks, shrinks_finish.
  - by eapply loses_shrinks, shrinks_turn.
  - by apply loses_shrinks.
  - by apply loses_same.
  - by apply loses_same.
Qed.

(** ** The history invariant *)
Record world_inv (w : world) : Prop := {
  wi_broker : broker_inv (w_broker w);
  wi_disk : Decode.loadSequence (w_disk w) = Ok (Broker.sequence (w_broker w));
  wi_bound : ∀ s, s ∈ w_issued w → s ≤ Broker.sequence (w_broker w);
  wi_sorted : StronglySorted Z.gt (w_issued w);
  wi_nodup : NoDup (w_spent w);
  wi_spent : ∀ s, s ∈ w_spent w → s ∈ w_issued w ∧ Broker.permits (w_broker w) !! s = None;
  wi_permits : ∀ s, is_Some (Broker.permits (w_broker w) !! s) → s ∈ w_issued w
}.

Lemma lookup_weaken_None {A} (m m' : gmap Z A) s : m' ⊆ m → m !! s = None → m' !! s = None.
Proof. intros Hs Hn. destruct (m' !! s) eqn:E; [|done]. by rewrite (lookup_weaken _ _ _ _ E Hs) in Hn. Qed.

Lemma lookup_weaken_is_Some' {A} (m m' : gmap Z A) s :
  m' ⊆ m → is_Some (m' !! s) → is_Some (m !! s).
Proof. intros Hs [x Hx]. exists x. by eapply lookup_weaken. Qed.

Lemma world_region b b' disk issued spent :
  world_inv (World b disk issued spent) → broker_inv b' →
  Broker.permits b' ⊆ Broker.permits b → Broker.sequence b' = Broker.sequence b →
  world_inv (World b' disk issued spent).
Proof.
  intros [Hb Hd Hbo Hso Hnd Hsp Hp] Hb' Hperm Hseq. cbn in *.
  split; cbn; rewrite ?Hseq; auto.
  - intros s Hs. destruct (Hsp s Hs). eauto using lookup_weaken_None.
  - intros s Hs. eauto using lookup_weaken_is_Some'.
Qed.

Lemma pruned_permits now b : Broker.permits (pruneExpiredPermitsLocked now b) ⊆ Broker.permits b.
Proof. apply shrinks_pruneExpired. Qed.

Lemma world_issue env b disk issued spent nonce sid space sc b' disk' r :
  world_inv (World b disk issued spent) → sid ≠ "" →
  issue_locked env b disk nonce sid space sc = (b', disk', r) →
  world_inv (World b' disk' (match r with Ok p => Permit.Sequence p :: issued | Err _ => issued end) spent).
Proof.
  intros [Hb Hd Hbo Hso Hnd Hsp Hp] Hsid H. cbn in *.
  pose proof (inv_issue _ _ _ _ _ _ _ _ _ _ Hb Hsid H) as Hb'.
  apply issue_locked_inv in H; [|done]. cbn zeta in H. pose proof (inv_sequence _ _ Hb) as Hseq.
  pose proof (pruned_permits (env_now env) b) as Hprune.
  set (b1 := pruneExpiredPermitsLocked (env_now env) b) in *.
  assert (Hseq1 : Broker.sequence b1 = Broker.sequence b) by apply shrinks_pruneExpired.
  destruct r as [p|e].
  - destruct H as ([Hn Hroom _ _] & _ & -> & ->). split; cbn; auto.
    + apply loadSequence_persisted. rewrite Hn. by apply uint64_positive_le.
    + intros s [->|Hs%Hbo]%elem_of_cons; lia.
    + constructor; [done|]. apply list.Forall_forall. intros s Hs%Hbo. lia.
    + intros s Hs. destruct (Hsp s Hs) as [Hin Hnone]. split; [set_solver|].
      apply Hbo in Hin. rewrite lookup_insert_ne by lia. by eapply lookup_weaken_None.
    + intros s [p' [[<- _]|[_ Hs]]%lookup_insert_Some]; [set_solver|].
      apply elem_of_cons. right. apply Hp. exists p'. by eapply lookup_weaken.
  - destruct H as [[-> ->]|(-> & Hmax & ->)]; split; cbn; auto; rewrite ?Hseq1; auto.
    + intros s Hs. destruct (Hsp s Hs) as [Hin Hnone]. eauto using lookup_weaken_None.
    + intros s Hs. eauto using lookup_weaken_is_Some'.
    + apply loadSequence_persisted. by apply uint64_positive_le.
    + intros s Hs%Hbo. lia.
    + intros s Hs. destruct (Hsp s Hs) as [Hin Hnone]. eauto using lookup_weaken_None.
    + intros s Hs. eauto using lookup_weaken_is_Some'.
Qed.

(** A permit that is consumed was outstanding, and is not any more. *)
Lemma ConsumePermit_Ok now b id gen req s n b' p :
  ConsumePermit now b id gen req s n = (b', Ok p) →
  Broker.permits b !! s = Some p ∧ Broker.permits b' !! s = None ∧
  Permit.BindingID p = id ∧ Permit.Generation p = gen ∧ Permit.RequestID p = req ∧
  Permit.Sequence p = s ∧ 0 ≤ n ≤ Permit.MaxPayloadBytes p ∧ now < Permit.ExpiresAt p ∧
  Broker.consumed b' !! s = Some now.
Proof.
  unfold ConsumePermit. intros H.
  destruct (Broker.permits (pruneConsumedLocked now b) !! s) as [q|] eqn:Ep; [|by case_match].
  destruct (negb _) eqn:Ei in H; [by simplify_eq|].
  rewrite negb_false_iff, !andb_true_iff, !String.eqb_eq, !Z.eqb_eq in Ei.
  destruct (_ || _) eqn:En in H; [by simplify_eq|].
  rewrite orb_false_iff, !Z.ltb_ge in En.
  destruct (negb (after _ _)) eqn:Ex in H; [by simplify_eq|].
  apply negb_false_iff, Z.ltb_lt in Ex.
  injection H as <- <-. destruct Ei as (((? & ?) & ?) & ?).
  split_and!; try done; try lia; repeat case_match; cbn; by rewrite ?lookup_delete_eq, ?lookup_insert_eq.
Qed.

Lemma world_step w w' : world_inv w → step w w' → world_inv w'.
Proof.
  intros Hw Hs. destruct Hs as [b b' disk issued spent Hr|env b disk issued spent nonce sid space sc b' disk' r Hsid H
    |b disk issued spent id s b' r H|now b disk issued spent id gen req s n b' r H
    |b disk issued spent config b' H].
  - pose proof (wi_broker _ Hw) as Hb. destruct (region_loses _ _ Hb Hr) as (Hp & Hseq & _).
    eapply world_region; [exact Hw|by eapply inv_region|done|done].
  - by eapply world_issue.
  - apply shrinks_markSent in H. eapply world_region; [exact Hw| |apply H|apply H].
    eapply inv_shrinks; [apply (wi_broker _ Hw)|exact H].
  - pose proof (shrinks_Consume _ _ _ _ _ _ _ _ _ H) as Hsh.
    assert (Hw' : world_inv (World b' disk issued spent)).
    { eapply world_region; [exact Hw| |apply Hsh|apply Hsh]. eapply inv_shrinks; [apply (wi_broker _ Hw)|done]. }
    destruct r as [p|e]; [|done].
    apply ConsumePermit_Ok in H as (Hp & Hnone & _ & _ & _ & Hseq & _). rewrite Hseq.
    destruct Hw as [_ _ _ _ _ Hsp Hpe]. destruct Hw' as [Hb Hd Hbo Hso Hnd Hsp' Hpe']. split; cbn in *; auto.
    + constructor; [|done]. intros Hin. destruct (Hsp s Hin) as [_ Hbad]. congruence.
    + intros s' [->|Hin]%elem_of_cons; [split; [|done]; eauto|auto].
  - apply New_inv in H as (Hb & Hload & Hperm & _ & _).
    destruct Hw as [Hb0 Hd Hbo Hso Hnd Hsp Hp]. cbn in *. rewrite Hload in Hd. injection Hd as Hseq.
    split; cbn; rewrite ?Hseq, ?Hperm; auto.
    + rewrite Hload. by f_equal.
    + intros s Hs. destruct (Hsp s Hs) as [? _]. by rewrite lookup_empty.
    + intros s [? Hbad]. by rewrite lookup_empty in Hbad.
Qed.

Lemma reachable_inv w : reachable w → world_inv w.
Proof.
  intros (w0 & [config disk b Hnew] & Hrun).
  assert (H0 : world_inv (World b disk [] [])).
  { apply New_inv in Hnew as (Hb & Hload & Hperm & _ & _).
    split; cbn; [done|done| |constructor|constructor| |];
      try (intros ? Hbad; by apply not_elem_of_nil in Hbad).
    intros s [? Hbad]. by rewrite Hperm, lookup_empty in Hbad. }
  revert H0 Hrun. generalize (World b disk [] []). intros w1 H1 Hrun. induction Hrun; eauto using world_step.
Qed.

(** ** What every history guarantees *)

(** C1: single use.  Across all interleavings and restarts, the sequences of
    permits are handed out in strictly increasing order, no sequence is
    consumed twice, and only handed-out sequences are consumed. *)
Theorem permit_single_use w :
  reachable w →
  StronglySorted Z.gt (w_issued w) ∧ NoDup (w_spent w) ∧
  (∀ s, s ∈ w_spent w → s ∈ w_issued w).
Proof.
  intros [_ _ _ Hso Hnd Hsp _]%reachable_inv. split_and!; [done|done|]. intros s Hs. by destruct (Hsp s Hs).
Qed.

(** C34: the sequence file is never behind the broker: whatever was handed out
    is at most what the next process starts from. *)
Theorem persisted_before_issued w s :
  reachable w → s ∈ w_issued w → ∃ n, Decode.loadSequence (w_disk w) = Ok n ∧ s ≤ n.
Proof. intros [_ Hd Hbo _ _ _ _]%reachable_inv Hs. eauto. Qed.

(** C26: every outstanding permit is backed by a current, active, healthy,
    non-terminal binding of its generation, allowlist revision and learning
    digest; while the broker is open its tool session is registered. *)
Theorem permits_backed w s p :
  reachable w → Broker.permits (w_broker w) !! s = Some p → permit_backed (w_broker w) p.
Proof.
  intros [Hb _ _ _ _ _ _]%reachable_inv Hp. destruct (inv_permits _ _ Hb s p Hp) as (_ & _ & H).
  apply H. set_solver.
Qed.

(** The same for requests in flight. *)
Theorem requests_backed w s r :
  reachable w → Broker.active (w_broker w) !! s = Some r → request_backed (w_broker w) r.
Proof.
  intros [Hb _ _ _ _ _ _]%reachable_inv Hp. destruct (inv_active _ _ Hb s r Hp) as (_ & _ & H).
  apply H. set_solver.
Qed.

(** a binding never has more requests in flight than the configured limit,
    which is at most four. *)
Theorem parallel_limit w id :
  reachable w →
  activeRequestCountLocked (w_broker w) id ≤ Config.MaxParallelRequests (Broker.cfg (w_broker w)) ≤ 4.
Proof.
  intros [Hb _ _ _ _ _ _]%reachable_inv. split; [apply (inv_parallel _ _ Hb)|].
  pose proof (inv_limits _ _ Hb) as Hl. unfold Config.limits_ok in Hl.
  rewrite negb_true_iff, !orb_false_iff, !Z.ltb_ge in Hl. lia.
Qed.

(** capabilities and sessions are in bijection, and a peer that is let in
    presents the capability of a registered session from the uid recorded for
    it. *)
Theorem peer_authorization_exact w nonce uid :
  reachable w → authorizePeerUID (w_broker w) nonce uid = Ok tt →
  ∃ sid, Broker.sessions (w_broker w) !! sid = Some nonce ∧
    Broker.nonces (w_broker w) !! nonce = Some sid ∧
    Broker.peerUIDs (w_broker w) !! sid = Some uid ∧
    (∀ sid', Broker.sessions (w_broker w) !! sid' = Some nonce → sid' = sid).
Proof.
  intros [Hb _ _ _ _ _ _]%reachable_inv H. unfold authorizePeerUID in H. go_inv H.
  apply andb_prop in Hguard as [Hne%negb_true_iff%String.eqb_neq Hu].
  set (sid := text_at _ _) in *.
  assert (Hn : Broker.nonces (w_broker w) !! nonce = Some sid) by by apply text_at_Some.
  exists sid. rewrite (inv_sessions _ _ Hb). split_and!; try done.
  - destruct (_ !! sid) as [u|]; [|done]. apply Z.eqb_eq in Hu. by subst.
  - intros sid' Hs'. apply (inv_sessions _ _ Hb) in Hs'. congruence.
Qed.

(** C37: an admitted permit lives at most twenty seconds, and never beyond the
    lease or the absolute TTL of its binding. *)
Theorem permit_expiry_bounds env b disk nonce sid space sc b' disk' p :
  broker_inv b → issue_locked env b disk nonce sid space sc = (b', disk', Ok p) →
  env_now env < Permit.ExpiresAt p ≤ env_now env + 20 * second ∧
  ∃ l st, Broker.bindings b !! Permit.BindingID p = Some l ∧ Broker.heap b !! l = Some st ∧
    (∀ text t, Binding.LeaseUntil (BindingState.metadata st) = Some text → text ≠ "" →
       parse_rfc3339 text = Some t → Permit.ExpiresAt p ≤ t) ∧
    (∀ t, Binding.AbsoluteTTLUntil (BindingState.metadata st) ≠ "" →
       parse_rfc3339 (Binding.AbsoluteTTLUntil (BindingState.metadata st)) = Some t →
       Permit.ExpiresAt p ≤ t).
Proof.
  intros Hb H. apply issue_locked_inv in H; [|done]. cbn zeta in H.
  destruct H as ([_ _ _ (l & st & m & Hl & <- & Hbl & _ & _ & _ & _ & _ & _ & Hx)] & _).
  set (m := BindingState.metadata st) in *. unfold permit_expiry in Hx. go_inv Hx. injection Hx as Hx.
  apply Z.ltb_lt in Hguard. rewrite Hx in *.
  assert (H1 : a ≤ env_now env + 20 * second ∧ (∀ text t, Binding.LeaseUntil m = Some text → text ≠ "" →
    parse_rfc3339 text = Some t → a ≤ t)).
  { destruct (Binding.LeaseUntil m) as [[|c text]|]; try (injection Hrun as <-; split; [lia|naive_solver]).
    destruct (parse_rfc3339 (String c text)) as [u|] eqn:Eu; [|done]. injection Hrun as <-. unfold before.
    destruct (Z.ltb_spec u (env_now env + 20 * second)); (split; [lia|]); intros ? ? [= <-] _; rewrite Eu; intros [= <-]; lia. }
  destruct H1 as [H1 H2].
  assert (H3 : Permit.ExpiresAt p ≤ a ∧ (∀ t, Binding.AbsoluteTTLUntil m ≠ "" →
    parse_rfc3339 (Binding.AbsoluteTTLUntil m) = Some t → Permit.ExpiresAt p ≤ t)).
  { destruct (String.eqb_spec (Binding.AbsoluteTTLUntil m) "") as [He|He]; [injection Hrun0 as ->; split; [lia|naive_solver]|].
    destruct (parse_rfc3339 (Binding.AbsoluteTTLUntil m)) as [u|] eqn:Eu; [|done]. injection Hrun0 as Hu. unfold before in Hu.
    destruct (Z.ltb_spec u a); (split; [lia|]); intros t _ [= <-]; lia. }
  destruct H3 as [H3 H4]. split; [lia|]. exists l, st. split_and!; [done|done| |done].
  intros text t Ht Hne Hp. specialize (H2 text t Ht Hne Hp). lia.
Qed.

(** a delayed snapshot never moves a binding backwards, and within the
    generation in which it became terminal a binding is never revived. *)
Theorem snapshot_monotone now b items staged b' toClose id l old :
  broker_inv b → stage_bindings (Broker.cfg b) ∅ items = Ok staged →
  install_bindings now staged b = (b', toClose) →
  Broker.bindings b !! id = Some l → Broker.heap b !! l = Some old →
  Broker.bindings b' !! id = None ∨
  ∃ st, Broker.bindings b' !! id = Some l ∧ Broker.heap b' !! l = Some st ∧
    Binding.BindingGeneration (BindingState.metadata old)
      ≤ Binding.BindingGeneration (BindingState.metadata st) ∧
    (BindingState.terminal old = true →
     core st = core old ∨
     (BindingState.terminal st = false ∧
      Binding.BindingGeneration (BindingState.metadata old)
        < Binding.BindingGeneration (BindingState.metadata st))).
Proof.
  intros Hb Hstage H Hl Hold.
  assert (Hids : ∀ id m, staged !! id = Some m → Binding.BindingID m = id).
  { eapply stage_bindings_ids; [|exact Hstage]. intros ? ?. by rewrite lookup_empty. }
  apply install_bindings_spec in H as [_ _ _ _ Hgone Hkept _]; [|done|done].
  destruct (staged !! id) as [fresh|] eqn:Es; [right|left; auto].
  destruct (Hkept _ _ _ _ Es Hl Hold) as [Hl' Hc]. apply fmap_Some in Hc as (st & Hst & Hc).
  exists st. split_and!; [done|done| |].
  - apply (f_equal (λ c, Binding.BindingGeneration c.1.1)) in Hc. unfold merged, core in Hc. cbn in Hc.
    destruct (Z.ltb_spec (Binding.BindingGeneration fresh) (Binding.BindingGeneration (BindingState.metadata old)));
      [cbn in Hc; lia|]. repeat case_match; cbn in Hc; lia.
  - intros Ht. destruct (inv_terminal _ _ Hb l old Hold Ht) as [Hg _].
    unfold merged in Hc. rewrite Ht in Hc. cbn [andb] in Hc.
    destruct (Z.ltb_spec (Binding.BindingGeneration fresh) (Binding.BindingGeneration (BindingState.metadata old))); [auto|].
    destruct (Z.leb_spec (Binding.BindingGeneration fresh) (BindingState.terminalGeneration old)); [auto|].
    destruct (Z.eqb_spec (Binding.BindingGeneration fresh) (Binding.BindingGeneration (BindingState.metadata old))); [lia|].
    right. unfold core in Hc. injection Hc as Hm Htf _. rewrite <- Hm, <- Htf. split; [done|lia].
Qed.

(** Revoking a binding leaves it terminal with no permit and no request, for
    the current generation or the one named. *)
Theorem revoke_clears now b id gen b' l :
  broker_inv b → revoke_locked now b id gen = (b', Some l) →
  material_free id b' ∧
  ∃ st, Broker.bindings b' !! id = Some l ∧ Broker.heap b' !! l = Some st ∧
    BindingState.terminal st = true ∧ Binding.Status (BindingState.metadata st) = "revoked" ∧
    (gen = 0 ∨ Binding.BindingGeneration (BindingState.metadata st) = gen).
Proof.
  intros Hb H. unfold revoke_locked in H.
  destruct (lookup_binding b id) as [[l' st]|] eqn:E; [|done].
  apply lookup_binding_Some in E as [Hl Hst]. destruct (_ || _) eqn:Eg; [|done]. injection H as <- <-.
  split; [apply clear_free|].
  set (b1 := set_state l' (make_terminal "revoked" st) b).
  pose proof (shrinks_clear now id b1) as Hsh.
  destruct (shrinks_lookup_core b1 _ l' (make_terminal "revoked" st) Hsh) as (st' & Hst' & (Hm & Ht & _)%core_metadata).
  { cbn. by rewrite lookup_insert_eq. }
  exists st'. rewrite (shrinks_bindings _ _ _ Hsh), Hm, Ht. split_and!; try done.
  cbn. rewrite orb_true_iff, !Z.eqb_eq in Eg. done.
Qed.
