(* ===== verification/EgoDemo.v ===== *)
(** * A concrete history of the broker

    One session, one binding, one permit issued and consumed: the states of
    this run are the inputs at which the theorems about the broker are
    instantiated. *)

From S2P Require Import Prelude GoText GoBytes GoTime GoJson EgoProtocol EgoRelay EgoBroker EgoBrokerInv EgoBrokerSteps EgoBrokerHistory.
Import Config(Config). Import Binding(EgoBrowserBinding). Import Permit(Permit).
Import BindingState(bindingState). Import ActiveRequest(activeRequest). Import Broker(Broker).

Module Demo.

Definition cfg : Config := {|
  Config.Enabled := true; Config.NodeID := "node-1"; Config.SocketPath := ""; Config.StateRoot := "";
  Config.ControlPlaneConfigured := true; Config.LeaseSeconds := 0; Config.RenewIntervalSeconds := 0;
  Config.RenewGraceSeconds := 0; Config.AdmissionMinRemainingSeconds := 0;
  Config.MaxParallelRequests := 0; Config.MaxScriptBytes := 0; Config.MaxExecuteTimeoutMS := 0;
  Config.WrapperVersion := ""
|}.

Definition token : bytes := replicate 32 (byte_of_Z 7).
Definition nonce : string := b64_encode token.

Definition metadata (generation : Z) (ttl : string) : EgoBrowserBinding := {|
  Binding.BindingID := "binding-1"; Binding.EgoBrowserDeviceID := "device-1";
  Binding.EncryptionPublicKey := b64_encode (replicate 32 (byte_of_Z 9));
  Binding.ToolSessionID := "session-1"; Binding.NodeID := "node-1"; Binding.Status := "active";
  Binding.ControlChannel := "ego_browser_bridge"; Binding.RelayBindingKind := "ego_browser";
  Binding.AuthorizationMode := "ego_browser_script_full_trust";
  Binding.AuthorizationPolicyVersion := 1; Binding.BindingGeneration := generation;
  Binding.Generation := generation; Binding.ReleaseProfile := "stable";
  Binding.SignerCertificateSHA256 := ""; Binding.CredentialProfile := "";
  Binding.RemotePlatform := "linux"; Binding.LocalPlatform := "macos";
  Binding.BridgeProtocolVersion := ProtocolVersion; Binding.LocalRuntimeVersion := None;
  Binding.EgoLiteRuntimeVersion := None; Binding.SkillVersion := None;
  Binding.TaskSpaceLabel := None; Binding.AllowlistRevision := 3;
  Binding.AllowlistRootsDigest := None; Binding.LearningBundleDigest := None;
  Binding.ConcurrencyMode := "binding"; Binding.MaxParallelRequests := 2;
  Binding.Capabilities := requiredBridgeCapabilities;
  Binding.LeaseUntil := Some "2026-01-01T00:01:00Z"; Binding.LeaseHealth := "healthy";
  Binding.LeaseGraceUntil := None; Binding.LeaseRenewIntervalSeconds := 20;
  Binding.LeaseRenewFailureGraceSeconds := 10; Binding.AbsoluteTTLUntil := ttl
|}.

(** 2026-01-01T00:00:00Z. *)
Definition now : time := 1767225600 * second.

Definition items : list EgoBrowserBinding := [metadata 5 "2026-01-01T00:00:12Z"].
Definition staged : gmap string EgoBrowserBinding :=
  {["binding-1" := metadata 5 "2026-01-01T00:00:12Z"]}.

Definition env : issue_env := {|
  env_now := now; env_persist := [PersistCollision; PersistRenamed];
  env_requestID := Some (replicate 18 (byte_of_Z 1)); env_key := Some (replicate 32 (byte_of_Z 2))
|}.

Definition b0 : Broker := fresh_broker (Config.withDefaults cfg) 0.
Definition b1 : Broker := (RegisterToolSession b0 [Some token] "session-1").1.
Definition b2 : Broker := (record_peer b1 "session-1" nonce 1001).1.
Definition b3 : Broker := (install_bindings now staged b2).1.
Definition issued := issue_locked env b3 None nonce "session-1" "agent-remote:session-1" binding_scope.
Definition b4 : Broker := issued.1.1.
Definition disk4 : option string := issued.1.2.

Definition permit : Permit :=
  new_permit (Broker.cfg b3) (metadata 5 "2026-01-01T00:00:12Z")
    (b64_encode (replicate 18 (byte_of_Z 1))) 1 (now + 12 * second) "agent-remote:session-1"
    binding_scope (replicate 32 (byte_of_Z 2)).

Definition consume := ConsumePermit (now + second) b4 "binding-1" 5 (Permit.RequestID permit) 1 100.
Definition b5 : Broker := consume.1.

Example issue_result : issued.2 = Ok permit.
Proof. vm_compute. reflexivity. Qed.

Example consume_result : consume.2 = Ok permit.
Proof. vm_compute. reflexivity. Qed.

(** Consuming again is refused as a replay. *)
Example replay_refused :
  (ConsumePermit (now + 2 * second) b5 "binding-1" 5 (Permit.RequestID permit) 1 100).2 = Err ErrReplay.
Proof. vm_compute. reflexivity. Qed.

Definition world3 : world := World b3 None [] [].
Definition world4 : world := World b4 disk4 [1] [].
Definition world5 : world := World b5 disk4 [1] [1].

Lemma reachable3 : reachable world3.
Proof.
  exists (World b0 None [] []). split; [apply (initial_world cfg None b0); vm_compute; reflexivity|].
  eapply rtc_l; [apply s_region; eapply (r_register b0 [Some token] "session-1"); [|apply surjective_pairing]|].
  { repeat constructor. intros bs [= <-]. reflexivity. }
  eapply rtc_l; [apply s_region; eapply (r_peer b1 "session-1" nonce 1001); [reflexivity|apply surjective_pairing]|].
  eapply rtc_l; [apply s_region; eapply (r_snapshot b2 now items staged);
    [vm_compute; reflexivity|apply surjective_pairing]|].
  apply rtc_refl.
Qed.

Lemma step34 : step world3 world4.
Proof.
  pose proof (s_issue env b3 None [] [] nonce "session-1" "agent-remote:session-1" binding_scope
    b4 disk4 issued.2) as H.
  rewrite issue_result in H. apply H; [done|]. rewrite <- issue_result.
  unfold b4, disk4, issued. by destruct (issue_locked _ _ _ _ _ _ _) as [[??]?].
Qed.

Lemma step45 : step world4 world5.
Proof.
  pose proof (s_consume (now + second) b4 disk4 [1] [] "binding-1" 5 (Permit.RequestID permit) 1 100
    b5 consume.2 (surjective_pairing _)) as H.
  by rewrite consume_result in H.
Qed.

Lemma reachable4 : reachable world4.
Proof. destruct reachable3 as (w & Hw & Hrun). exists w. split; [done|]. by eapply rtc_r, step34. Qed.

Lemma reachable5 : reachable world5.
Proof. destruct reachable4 as (w & Hw & Hrun). exists w. split; [done|]. by eapply rtc_r, step45. Qed.

Lemma inv3 : broker_inv b3.
Proof. apply (wi_broker world3), reachable_inv, reachable3. Qed.

Lemma inv4 : broker_inv b4.
Proof. apply (wi_broker world4), reachable_inv, reachable4. Qed.

End Demo.

(** ** Witnesses *)
Lemma permit_single_use_witness :
  reachable Demo.world5 ∧ NoDup (w_spent Demo.world5).
Proof. split; [exact Demo.reachable5|]. apply (permit_single_use _ Demo.reachable5). Defined.

Lemma persisted_before_issued_witness :
  ∃ n, Decode.loadSequence (w_disk Demo.world5) = Ok n ∧ 1 ≤ n.
Proof.
  apply (persisted_before_issued Demo.world5 1 Demo.reachable5). apply list_elem_of_singleton. reflexivity.
Defined.

Lemma permits_backed_witness : permit_backed Demo.b4 Demo.permit.
Proof. apply (permits_backed Demo.world4 1 Demo.permit Demo.reachable4). vm_compute. reflexivity. Defined.

Lemma requests_backed_witness : request_backed Demo.b4 (new_request Demo.permit).
Proof.
  apply (requests_backed Demo.world4 1 (new_request Demo.permit) Demo.reachable4).
  vm_compute. reflexivity.
Defined.

Lemma parallel_limit_witness :
  activeRequestCountLocked Demo.b4 "binding-1" = 1 ∧
  activeRequestCountLocked Demo.b4 "binding-1" ≤ Config.MaxParallelRequests (Broker.cfg Demo.b4) ≤ 4.
Proof. split; [vm_compute; reflexivity|]. apply (parallel_limit Demo.world4 "binding-1" Demo.reachable4). Defined.

Lemma peer_authorization_exact_witness :
  ∃ sid, Broker.sessions Demo.b3 !! sid = Some Demo.nonce ∧
    Broker.nonces Demo.b3 !! Demo.nonce = Some sid ∧ Broker.peerUIDs Demo.b3 !! sid = Some 1001 ∧
    (∀ sid', Broker.sessions Demo.b3 !! sid' = Some Demo.nonce → sid' = sid).
Proof.
  apply (peer_authorization_exact Demo.world3 Demo.nonce 1001 Demo.reachable3). vm_compute. reflexivity.
Defined.

Lemma permit_expiry_bounds_witness :
  env_now Demo.env < Permit.ExpiresAt Demo.permit ≤ env_now Demo.env + 20 * second.
Proof.
  refine (proj1 (permit_expiry_bounds Demo.env Demo.b3 None Demo.nonce "session-1"
    "agent-remote:session-1" binding_scope Demo.b4 Demo.disk4 Demo.permit Demo.inv3 _)).
  vm_compute. reflexivity.
Defined.

Lemma revoke_clears_witness :
  material_free "binding-1" (revoke_locked Demo.now Demo.b4 "binding-1" 5).1.
Proof.
  apply (revoke_clears Demo.now Demo.b4 "binding-1" 5 _ 0%nat Demo.inv4). vm_compute. reflexivity.
Defined.

(** A snapshot of generation 4 arrives late. *)
Lemma snapshot_monotone_witness :
  let b' := (install_bindings Demo.now {["binding-1" := Demo.metadata 4 ""]} Demo.b4).1 in
  Broker.bindings b' !! "binding-1" = None ∨
  ∃ st, Broker.bindings b' !! "binding-1" = Some 0%nat ∧ Broker.heap b' !! 0%nat = Some st ∧
    5 ≤ Binding.BindingGeneration (BindingState.metadata st) ∧
    (false = true →
     core st = core (BindingState.Build_bindingState (Demo.metadata 5 "2026-01-01T00:00:12Z") None 0 false 0) ∨
     (BindingState.terminal st = false ∧ 5 < Binding.BindingGeneration (BindingState.metadata st))).
Proof.
  apply (snapshot_monotone Demo.now Demo.b4 [Demo.metadata 4 ""] {["binding-1" := Demo.metadata 4 ""]}
    _ (install_bindings Demo.now {["binding-1" := Demo.metadata 4 ""]} Demo.b4).2 "binding-1" 0%nat
    (BindingState.Build_bindingState (Demo.metadata 5 "2026-01-01T00:00:12Z") None 0 false 0) Demo.inv4).
  - vm_compute. reflexivity.
  - apply surjective_pairing.
  - vm_compute. reflexivity.
  - vm_compute. reflexivity.
Defined.
