(* ===== verification/EgoForward.v ===== *)
(** * Forwarding a request over the relay (broker.go, [forward] and below)

    The sequential parts of [forward] and of the IPC handler as functions, and
    the goroutines that forward requests of one broker as a step relation:
    [waitForSendTurn] may be re-entered after every notification, and sending,
    marking and every other locked region interleave freely. *)

From S2P Require Import Prelude GoText GoBytes GoTime GoJson EgoProtocol EgoRelay EgoBroker EgoBrokerInv EgoBrokerSteps EgoBrokerHistory.
Import Config(Config). Import Binding(EgoBrowserBinding). Import Permit(Permit).
Import PermitRequest(PermitRequest).
Import BindingState(bindingState). Import ActiveRequest(activeRequest). Import Broker(Broker).
Import Outer(outerEnvelope).

(** ** The relay of a binding *)
Record relay_ticket := {
  ticket_role : string;
  ticket_kind : string;
  ticket_path : string;
  ticket_secret : string;
  ticket_generation : Z;
  ticket_expires : string
}.

(** The part of [ensureRelaySession] before the control plane is called: the
    open session, or [None] when one has to be opened. *)
Definition ensure_begin (b : Broker) (l : loc) (epoch : Z) : result error (option nat) :=
  match Broker.heap b !! l with
  | None => Err ErrRevoked
  | Some st =>
      require BindingState.relayEpoch st =? epoch orelse ErrRevoked ;;
      match (id ← BindingState.relay st; session ← Broker.relays b !! id; Some (id, session)) with
      | Some (id, session) =>
          if negb (Relay.closed session) then Ok (Some id)
          else if Broker.closed b then Err ErrUnavailable
          else if negb (Config.ControlPlaneConfigured (Broker.cfg b)) then Err ErrUnavailable
          else Ok None
      | None =>
          if Broker.closed b then Err ErrUnavailable
          else if negb (Config.ControlPlaneConfigured (Broker.cfg b)) then Err ErrUnavailable
          else Ok None
      end
  end.

Definition check_ticket (now : time) (generation : Z) (ticket : relay_ticket)
    : result error unit :=
  require String.eqb (ticket_role ticket) "wrapper"
          && String.eqb (ticket_kind ticket) "ego_browser"
          && negb (String.eqb (ticket_path ticket) "")
          && negb (String.eqb (ticket_secret ticket) "")
          && (ticket_generation ticket =? generation)
    orelse ErrProtocol "relay ticket" ;;
  match parse_rfc3339 (ticket_expires ticket) with
  | None => Err ErrLeaseExpired
  | Some expiresAt => require after expiresAt now orelse ErrLeaseExpired ;; Ok tt
  end.

(** Installing the connection that was opened, after a second look at the
    epoch and at the shutdown flag. *)
Definition ensure_commit (b : Broker) (l : loc) (epoch : Z) : Broker * result error nat :=
  match Broker.heap b !! l with
  | None => (b, Err ErrRevoked)
  | Some st =>
      if negb (BindingState.relayEpoch st =? epoch) then (b, Err ErrRevoked)
      else if Broker.closed b then (b, Err ErrUnavailable)
      else
        let id := Broker.next_relay b in
        (set_state l (st <| BindingState.relay := Some id |>)
           (b <| Broker.relays := <[id := Relay.newRelaySession]> (Broker.relays b) |>
              <| Broker.next_relay := S id |>), Ok id)
  end.

(** [ensureRelaySession], run without interference; [ticket] and [opened] are
    the answers of the control plane and of the transport. *)
Definition ensureRelaySession (now : time) (ticket : result error relay_ticket)
    (opened : result error unit) (b : Broker) (l : loc) (generation epoch : Z)
    : Broker * result error nat :=
  match ensure_begin b l epoch with
  | Err e => (b, Err e)
  | Ok (Some id) => (b, Ok id)
  | Ok None =>
      match (t ← ticket; _ ← check_ticket now generation t; opened) with
      | Err e => (b, Err e)
      | Ok _ => ensure_commit b l epoch
      end
  end.

Definition failRelay (b : Broker) (l : loc) (id : nat) (reason : error) : Broker :=
  let b := match Broker.heap b !! l with
           | Some st =>
               if bool_decide (BindingState.relay st = Some id)
               then set_state l (st <| BindingState.relay := None |>) b else b
           | None => b
           end in
  close_session id reason b.

(** ** The head of [forward] *)
Section Prepare.
Variable seal : bytes → bytes → bytes → bytes → bytes.
Variable sha256 : bytes → bytes.
Variable agree : bytes → option bytes.

Record prepared := {
  prepared_state : loc;
  prepared_generation : Z;
  prepared_request : outerEnvelope;
  prepared_frame : string
}.

(** From the frame the wrapper submitted to the frame that is sent: lookup,
    validation, liveness of the binding, key wrap. *)
Definition forward_prepare (ephemeral nonce : bytes) (b : Broker) (bindingID frame : string)
    (p : Permit) : result error prepared :=
  match binding b bindingID with
  | None => Err ErrUnavailable
  | Some l =>
      match decodeStrictJSON Outer.of_json frame with
      | None => Err (ErrProtocol "request envelope")
      | Some request =>
          _ ← validateOuter request (len frame);
          match lookup_binding b bindingID with
          | None => Err ErrRevoked
          | Some (l', st) =>
              require (l' =? l)%nat orelse ErrRevoked ;;
              let m := BindingState.metadata st in
              _ ← usable_binding m;
              wrapped ← wrapSessionKey seal sha256 agree ephemeral nonce (Permit.SessionKey p)
                (Binding.EncryptionPublicKey m) (Outer.BindingID request)
                (Outer.Generation request) (Outer.RequestID request) (Outer.Sequence request);
              let request := request <| Outer.KeyWrap := wrapped |> in
              let frame := Outer.mustJSON request in
              _ ← validateWrappedOuter request (len frame);
              _ ← requestCancellation b request;
              Ok {| prepared_state := l; prepared_generation := Binding.BindingGeneration m;
                    prepared_request := request; prepared_frame := frame |}
          end
      end
  end.
End Prepare.

(** ** Waiting for the response

    The ready branch each turn of the select takes: [dispatched] is what the
    result channel held at that moment, [sending] the outcome of the
    cancellation frame the branch may send. *)
Inductive wait_event :=
  | EvResult (r : relayResult)
  | EvCancel (dispatched : option relayResult) (sending : result error unit)
  | EvContext (ctx : error) (dispatched : option relayResult) (sending abandoning : result error unit)
  | EvClosed (abandoning : result error unit).

Inductive wait_effect := SendCancel | FailRelay (e : error) | Abandon.

Definition result_of (r : relayResult) : result error string :=
  match r with ResultFrame f => Ok f | ResultErr e => Err e end.

Definition fail_if (r : result error unit) : list wait_effect :=
  match r with Ok _ => [] | Err e => [FailRelay e] end.

(** [armed]: [requestCancellation] is not nil; [None]: still waiting. *)
Fixpoint forward_wait (armed cancelSent : bool) (events : list wait_event)
    : list wait_effect * option (result error string) :=
  match events with
  | [] => ([], None)
  | EvResult r :: _ => ([], Some (result_of r))
  | EvCancel dispatched sending :: rest =>
      if armed then
        match dispatched with
        | Some r => ([], Some (result_of r))
        | None =>
            if cancelSent then forward_wait false true rest
            else match sending with
                 | Err e => ([SendCancel; FailRelay e], Some (Err e))
                 | Ok _ =>
                     let '(effects, outcome) := forward_wait false true rest in
                     (SendCancel :: effects, outcome)
                 end
        end
      else forward_wait armed cancelSent rest
  | EvContext ctx dispatched sending abandoning :: _ =>
      match dispatched with
      | Some r => ([], Some (result_of r))
      | None =>
          ((if cancelSent then [] else SendCancel :: fail_if sending)
             ++ Abandon :: fail_if abandoning, Some (Err ctx))
      end
  | EvClosed abandoning :: _ => (Abandon :: fail_if abandoning, Some (Err ErrUnavailable))
  end.

Definition is_SendCancel (e : wait_effect) : bool := match e with SendCancel => true | _ => false end.

Lemma forward_wait_cancel_sent events armed :
  Forall (λ e, is_SendCancel e = false) (forward_wait armed true events).1.
Proof.
  revert armed. induction events as [|[r|d s|c d s a|a] events IH]; intros armed; cbn; auto.
  - destruct armed; [|apply IH]. destruct d; cbn; [constructor|apply IH].
  - destruct d; cbn; [constructor|]. constructor; [done|]. destruct a; repeat constructor.
  - constructor; [done|]. destruct a; repeat constructor.
Qed.

(** Whatever wakes the waiter, at most one cancellation frame is sent, a
    response that was already dispatched is returned instead of an error, and
    the wait ends at the first result, context end or shutdown. *)
Theorem forward_wait_sound events armed :
  (length (List.filter is_SendCancel (forward_wait armed false events).1) ≤ 1)%nat ∧
  (∀ e rest r, events = e :: rest →
     (e = EvResult r ∨ (∃ s, e = EvCancel (Some r) s ∧ armed = true) ∨
      (∃ c s a, e = EvContext c (Some r) s a)) →
     forward_wait armed false events = ([], Some (result_of r))) ∧
  ((∃ e, e ∈ events ∧ match e with EvCancel _ _ => False | _ => True end) →
   is_Some (forward_wait armed false events).2).
Proof.
  split_and!.
  - revert armed. induction events as [|[r|d s|c d s a|a] events IH]; intros armed; cbn; try lia.
    + destruct armed; [|apply IH]. destruct d; cbn; [lia|]. destruct s as [[]|e]; cbn; [|lia].
      destruct (forward_wait false true events) as [effs o] eqn:E.
      assert (Hn : List.filter is_SendCancel effs = []).
      { pose proof (forward_wait_cancel_sent events false) as Hf. rewrite E in Hf. cbn in Hf.
        clear -Hf. induction Hf as [|e effs He _ IH]; [done|]. cbn. by rewrite He. }
      cbn. rewrite Hn. cbn. lia.
    + destruct d; cbn; [lia|]. destruct s, a; cbn; lia.
    + destruct a; cbn; lia.
  - intros e rest r -> [->|[(s & -> & ->)|(c & s & a & ->)]]; done.
  - intros (e & He & Hnc). generalize false. revert armed.
    induction events as [|x events IH]; intros armed sent; [by apply not_elem_of_nil in He|].
    apply elem_of_cons in He as [->|He].
    + destruct x as [r|d s|c d s a|a]; cbn; try done; try (by eexists). destruct d; cbn; eauto.
    + specialize (IH He). destruct x as [r|d s|c d s a|a]; cbn; [eauto| | |eauto].
      * destruct armed; [|auto]. destruct d; [cbn; eauto|]. destruct sent; [auto|].
        destruct s; [|cbn; eauto]. specialize (IH false true). by destruct (forward_wait false true events).
      * destruct d; cbn; eauto.
Qed.

(** ** Send order

    A forwarding goroutine is identified by the sequence it consumed; between
    its turn and the mark it has put, or is about to put, its frame on the
    wire.  [f_wire] is the history of frames sent, newest first; a frame is
    registered when its request was in [active] while it was sent. *)
Inductive fwd_pc := Waiting (tracked : bool) | Turn | Written.

Record sent_frame := Sent { sent_binding : string; sent_sequence : Z; registered : bool }.

Record fsys := FSys {
  f_broker : Broker;
  f_pcs : gmap Z (string * fwd_pc);
  f_wire : list sent_frame
}.

Definition on_wire (wire : list sent_frame) (id : string) (s : Z) : Prop := ∃ g, Sent id s g ∈ wire.

(** The registered sends of a binding, newest first. *)
Definition registered_sends (id : string) (wire : list sent_frame) : list Z :=
  omap (λ e, if registered e && String.eqb (sent_binding e) id then Some (sent_sequence e) else None) wire.

Inductive fstep : fsys → fsys → Prop :=
  | fs_region b b' pcs wire : region b b' → fstep (FSys b pcs wire) (FSys b' pcs wire)
  | fs_issue env b disk nonce sid space sc b' disk' r pcs wire :
      sid ≠ "" → issue_locked env b disk nonce sid space sc = (b', disk', r) →
      fstep (FSys b pcs wire) (FSys b' pcs wire)
  | fs_consume now b id gen req s n b' r pcs wire :
      ConsumePermit now b id gen req s n = (b', r) →
      fstep (FSys b pcs wire)
        (FSys b' (match r with Ok _ => <[s := (id, Waiting false)]> pcs | Err _ => pcs end) wire)
  | fs_turn now b id s t b' r pcs wire :
      pcs !! s = Some (id, Waiting t) → waitForSendTurn_turn now b t id s = (b', r) →
      fstep (FSys b pcs wire)
        (FSys b' (match r with
                  | TurnGranted => <[s := (id, Turn)]> pcs
                  | TurnWait _ => <[s := (id, Waiting true)]> pcs
                  | TurnRefused _ => delete s pcs
                  end) wire)
  | fs_quit b s pcs wire : fstep (FSys b pcs wire) (FSys b (delete s pcs) wire)
  | fs_send b id s pcs wire :
      pcs !! s = Some (id, Turn) →
      fstep (FSys b pcs wire)
        (FSys b (<[s := (id, Written)]> pcs) (Sent id s (is_some (Broker.active b !! s)) :: wire))
  | fs_mark b id s b' r pcs wire :
      pcs !! s = Some (id, Written) → markRequestSent b id s = (b', r) →
      fstep (FSys b pcs wire) (FSys b' (delete s pcs) wire).

(** Past its turn. *)
Definition in_window (pc : fwd_pc) : Prop := match pc with Waiting _ => False | _ => True end.

Record forward_inv (f : fsys) : Prop := {
  fi_broker : broker_inv (f_broker f);
  fi_sent : ∀ s r, Broker.active (f_broker f) !! s = Some r → ActiveRequest.sent r = true →
    on_wire (f_wire f) (ActiveRequest.bindingID r) s;
  fi_written : ∀ s id, f_pcs f !! s = Some (id, Written) → on_wire (f_wire f) id s;
  fi_known : ∀ s pc, f_pcs f !! s = Some pc → s ≤ Broker.sequence (f_broker f);
  fi_turn : ∀ s id pc r, f_pcs f !! s = Some (id, pc) → in_window pc →
    Broker.active (f_broker f) !! s = Some r →
    ActiveRequest.bindingID r = id ∧
    ∀ s' r', s' < s → Broker.active (f_broker f) !! s' = Some r' →
      ActiveRequest.bindingID r' = id → ActiveRequest.sent r' = true;
  (* a sequence is sent once *)
  fi_bound : ∀ e, e ∈ f_wire f → sent_sequence e ≤ Broker.sequence (f_broker f);
  fi_permit : ∀ s, is_Some (Broker.permits (f_broker f) !! s) →
    f_pcs f !! s = None ∧ ∀ id, ¬ on_wire (f_wire f) id s;
  fi_unsent : ∀ s id pc, f_pcs f !! s = Some (id, pc) → pc ≠ Written → ∀ id', ¬ on_wire (f_wire f) id' s;
  fi_once : NoDup (map sent_sequence (f_wire f));
  (* in order *)
  fi_below : ∀ e s r, e ∈ f_wire f → registered e = true → s < sent_sequence e →
    Broker.active (f_broker f) !! s = Some r → ActiveRequest.bindingID r = sent_binding e → ActiveRequest.sent r = true;
  fi_sorted : ∀ id, StronglySorted Z.gt (registered_sends id (f_wire f))
}.

(** Losing material keeps the order. *)
Lemma forward_inv_loses b b' pcs wire :
  forward_inv (FSys b pcs wire) → broker_inv b' → loses b b' → forward_inv (FSys b' pcs wire).
Proof.
  intros [Hb Hse Hw Hk Ht Hbo Hpe Hun Hon Hbe Hso] Hb' (Hper & Hseq & Hev). cbn in *. split; cbn; auto.
  - intros s r' Hr' Hs'. destruct (Hev s r' Hr') as (r & Hr & (Hid & _)%identity_fields & Hsent & _).
    rewrite <- Hid. apply Hse; [done|]. destruct Hsent as [<-|[? _]]; done.
  - rewrite Hseq. auto.
  - intros s id pc r' Hpc Hwin Hr'. destruct (Hev s r' Hr') as (r & Hr & (Hid & _)%identity_fields & _).
    destruct (Ht s id pc r Hpc Hwin Hr) as [Heq Hlow]. split; [congruence|].
    intros s' q' Hlt Hq' Hqid. destruct (Hev s' q' Hq') as (q & Hq & (Hid' & _)%identity_fields & Hsent & _).
    destruct Hsent as [->|[? _]]; [|done]. eapply Hlow; [exact Hlt|done|congruence].
  - rewrite Hseq. auto.
  - intros s Hs. apply Hpe. eauto using lookup_weaken_is_Some'.
  - intros e s r' He Hg Hlt Hr' Hid. destruct (Hev s r' Hr') as (r & Hr & (Hid' & _)%identity_fields & Hsent & _).
    destruct Hsent as [->|[? _]]; [|done]. eapply Hbe; [exact He|done|exact Hlt|done|congruence].
Qed.

(** The goroutines that are left, or wait again, have not sent anything. *)
Lemma forward_inv_pcs b pcs pcs' wire :
  forward_inv (FSys b pcs wire) →
  (∀ s id pc, pcs' !! s = Some (id, pc) → pcs !! s = Some (id, pc) ∨
     (¬ in_window pc ∧ s ≤ Broker.sequence b ∧ Broker.permits b !! s = None ∧ ∀ id', ¬ on_wire wire id' s)) →
  forward_inv (FSys b pcs' wire).
Proof.
  intros [Hb Hse Hw Hk Ht Hbo Hpe Hun Hon Hbe Hso] Hsub. cbn in *. split; cbn; auto.
  - intros s id [Hpc|(Hbad & _)]%Hsub; [by apply Hw|]. by destruct Hbad.
  - intros s [id pc] [Hpc|(_ & ? & _)]%Hsub; eauto.
  - intros s id pc r [Hpc|(Hbad & _)]%Hsub Hwin; [by eapply Ht|done].
  - intros s Hs. destruct (Hpe s Hs) as [Hnone Hno]. split; [|done].
    destruct (pcs' !! s) as [[id pc]|] eqn:E; [|done].
    destruct (Hsub s id pc E) as [Hpc|(_ & _ & Hgone & _)]; [congruence|]. rewrite Hgone in Hs. by destruct Hs.
  - intros s id pc [Hpc|(_ & _ & _ & Hno)]%Hsub Hne; [by eapply Hun|done].
Qed.

Lemma forward_inv_delete b pcs s wire :
  forward_inv (FSys b pcs wire) → forward_inv (FSys b (delete s pcs) wire).
Proof. intros Hf. eapply forward_inv_pcs; [exact Hf|]. intros s' id pc [_ Hp]%lookup_delete_Some. by left. Qed.

(** The grant itself: no lower request of the binding is unsent. *)
Lemma turn_granted now b t id s b' :
  waitForSendTurn_turn now b t id s = (b', TurnGranted) →
  b' = pruneExpiredPermitsLocked now b ∧
  ∀ r, Broker.active b' !! s = Some r →
    ActiveRequest.bindingID r = id ∧
    ∀ s' r', s' < s → Broker.active b' !! s' = Some r' →
      ActiveRequest.bindingID r' = id → ActiveRequest.sent r' = true.
Proof.
  unfold waitForSendTurn_turn. intros H. set (b1 := pruneExpiredPermitsLocked now b) in *.
  destruct (Broker.active b1 !! s) as [r|] eqn:Er.
  2: { destruct t; [done|]. injection H as <-. split; [done|]. congruence. }
  destruct (_ || _) eqn:Eg in H; [done|]. apply orb_false_iff in Eg as [Eid _].
  apply negb_false_iff, String.eqb_eq in Eid.
  destruct (_ =? 0)%nat eqn:Es in H; [|done]. injection H as <-. split; [done|].
  intros r2 Hr2. rewrite Er in Hr2. injection Hr2 as <-. split; [done|].
  intros s' r' Hlt Hr' Hid'. destruct (ActiveRequest.sent r') eqn:Esent; [done|].
  apply Nat.eqb_eq in Es. apply map_size_empty_inv in Es.
  assert (Hin : filter (blocks id s) (Broker.active b1) !! s' = Some r').
  { apply map_lookup_filter_Some. done. }
  by rewrite Es, lookup_empty in Hin.
Qed.

Lemma forward_inv_turn now b id s t b' r pcs wire :
  forward_inv (FSys b pcs wire) → pcs !! s = Some (id, Waiting t) →
  waitForSendTurn_turn now b t id s = (b', r) →
  forward_inv (FSys b' (match r with
                  | TurnGranted => <[s := (id, Turn)]> pcs
                  | TurnWait _ => <[s := (id, Waiting true)]> pcs
                  | TurnRefused _ => delete s pcs
                  end) wire).
Proof.
  intros Hf Hpc H. pose proof (shrinks_turn _ _ _ _ _ _ _ H) as Hsh.
  assert (Hf' : forward_inv (FSys b' pcs wire)).
  { eapply forward_inv_loses; [exact Hf| |by apply loses_shrinks].
    eapply inv_shrinks; [apply (fi_broker _ Hf)|exact Hsh]. }
  assert (Hno : ∀ id', ¬ on_wire wire id' s) by (eapply (fi_unsent _ Hf'); [exact Hpc|done]).
  pose proof (fi_known _ Hf' s _ Hpc) as Hle. cbn in Hle.
  assert (Hgone : Broker.permits b' !! s = None).
  { destruct (Broker.permits b' !! s) eqn:E; [|done].
    destruct (fi_permit _ Hf' s) as [Hn _]; [by eexists|]. cbn in Hn. congruence. }
  destruct r as [|e|c]; [|by apply forward_inv_delete|].
  - destruct (turn_granted _ _ _ _ _ _ H) as [_ Hgrant].
    destruct Hf' as [Hb Hse Hw Hk Ht Hbo Hpe Hun Hon Hbe Hso]. cbn in *. split; cbn; auto.
    + intros s' id' [[<- [= <-]]|[_ Hpc']]%lookup_insert_Some; auto.
    + intros s' pc [[<- <-]|[_ Hpc']]%lookup_insert_Some; eauto.
    + intros s' id' pc q [[<- [= <- <-]]|[_ Hpc']]%lookup_insert_Some Hwin Hq; [by apply Hgrant|by eapply Ht].
    + intros s' Hs'. destruct (Hpe s' Hs') as [Hn ?]. split; [|done]. rewrite lookup_insert_ne; [done|].
      intros <-. rewrite Hgone in Hs'. by destruct Hs'.
    + intros s' id' pc [[<- [= <- <-]]|[_ Hpc']]%lookup_insert_Some Hne; [done|by eapply Hun].
  - eapply forward_inv_pcs; [exact Hf'|].
    intros s' id' pc [[<- [= <- <-]]|[_ Hpc']]%lookup_insert_Some; [|by left]. right. by split_and!; [intros []| | |].
Qed.

Lemma forward_inv_issue env b disk nonce sid space sc b' disk' r pcs wire :
  forward_inv (FSys b pcs wire) → sid ≠ "" →
  issue_locked env b disk nonce sid space sc = (b', disk', r) → forward_inv (FSys b' pcs wire).
Proof.
  intros Hf Hsid H. pose proof (fi_broker _ Hf) as Hb. cbn in Hb.
  pose proof (inv_issue _ _ _ _ _ _ _ _ _ _ Hb Hsid H) as Hb'.
  apply issue_locked_inv in H; [|done]. cbn zeta in H.
  pose proof (shrinks_pruneExpired (env_now env) b) as Hsh.
  set (b1 := pruneExpiredPermitsLocked (env_now env) b) in *.
  assert (Hb1 : broker_inv b1) by (eapply inv_shrinks; [exact Hb|exact Hsh]).
  assert (Hf1 : forward_inv (FSys b1 pcs wire)) by (eapply forward_inv_loses; [exact Hf|done|by apply loses_shrinks]).
  pose proof (shrinks_sequence _ _ _ Hsh) as Hseq.
  destruct Hf1 as [_ Hse Hw Hk Ht Hbo Hpe Hun Hon Hbe Hso]. cbn in *. rewrite Hseq in Hk, Hbo.
  destruct r as [p|e].
  - destruct H as ([Hn _ _ _] & _ & _ & ->). split; cbn; auto.
    + intros s q [[<- <-]|[_ Hq]]%lookup_insert_Some; [done|auto].
    + intros s pc Hpc. apply Hk in Hpc. lia.
    + intros s id pc q Hpc Hwin Hq. pose proof (Hk _ _ Hpc).
      rewrite lookup_insert_ne in Hq by lia. destruct (Ht s id pc q Hpc Hwin Hq) as [Hid Hlow].
      split; [done|]. intros s' q' Hlt Hq'. rewrite lookup_insert_ne in Hq' by lia. by eapply Hlow.
    + intros e He%Hbo. lia.
    + intros s [q [[<- _]|[_ Hq]]%lookup_insert_Some]; [|apply Hpe; by eexists]. split.
      * destruct (pcs !! Permit.Sequence p) eqn:E; [|done]. apply Hk in E. lia.
      * intros id [g He]. apply Hbo in He. cbn in He. lia.
    + intros e s q He Hg Hlt [[<- <-]|[_ Hq]]%lookup_insert_Some Hid; [|by eapply Hbe].
      apply Hbo in He. lia.
  - destruct H as [[-> _]|(-> & _ & _)]; split; cbn; auto; rewrite ?Hseq; try done.
    + intros s pc Hpc%Hk. lia.
    + intros x Hx%Hbo. lia.
Qed.

Lemma forward_inv_mark b id s b' r pcs wire :
  forward_inv (FSys b pcs wire) → pcs !! s = Some (id, Written) → markRequestSent b id s = (b', r) →
  forward_inv (FSys b' (delete s pcs) wire).
Proof.
  intros Hf Hpc H. pose proof (shrinks_markSent _ _ _ _ _ H) as Hsh.
  assert (Hb' : broker_inv b') by (eapply inv_shrinks; [apply (fi_broker _ Hf)|exact Hsh]).
  assert (Hdel : forward_inv (FSys b (delete s pcs) wire)) by by apply forward_inv_delete.
  unfold markRequestSent in H. destruct (Broker.active b !! s) as [q|] eqn:Eq; [|by simplify_eq].
  destruct (_ || _) eqn:Eg; [by simplify_eq|]. apply orb_false_iff in Eg as [Eid _].
  apply negb_false_iff, String.eqb_eq in Eid. injection H as <- <-.
  pose proof (fi_written _ Hf) as Hwr.
  destruct Hdel as [_ Hse Hw Hk Ht Hbo Hpe Hun Hon Hbe Hso]. cbn in *. split; cbn; auto.
  - intros s' q' [[<- <-]|[_ Hq']]%lookup_insert_Some; [|auto]. intros _. cbn. rewrite Eid. by apply Hwr.
  - intros s' id' pc q' [Hne Hpc']%lookup_delete_Some Hwin Hq'. rewrite lookup_insert_ne in Hq' by done.
    destruct (Ht s' id' pc q') as [Hid Hlow]; [by apply lookup_delete_Some|done|done|]. split; [done|].
    intros s2 q2 Hlt [[<- <-]|[_ Hq2]]%lookup_insert_Some; [done|by eapply Hlow].
  - intros e s' q' He Hg Hlt [[<- <-]|[_ Hq']]%lookup_insert_Some Hid; [done|by eapply Hbe].
Qed.

(** A frame is sent. *)
Lemma forward_inv_send b id s pcs wire :
  forward_inv (FSys b pcs wire) → pcs !! s = Some (id, Turn) →
  forward_inv (FSys b (<[s := (id, Written)]> pcs) (Sent id s (is_some (Broker.active b !! s)) :: wire)).
Proof.
  intros [Hb Hse Hw Hk Ht Hbo Hpe Hun Hon Hbe Hso] Hpc. cbn in *. set (e := Sent id s _).
  assert (Hno : ∀ id', ¬ on_wire wire id' s) by (eapply Hun; [exact Hpc|done]).
  assert (Hmore : ∀ id' s', on_wire wire id' s' → on_wire (e :: wire) id' s').
  { intros id' s' [g Hg]. exists g. by right. }
  assert (Hless : ∀ id' s', s' ≠ s → on_wire (e :: wire) id' s' → on_wire wire id' s').
  { intros id' s' Hne [g [Heq|Hg]%elem_of_cons]; [by injection Heq|by exists g]. }
  split; cbn; auto.
  - intros s' id' [[<- [= <-]]|[_ Hpc']]%lookup_insert_Some; [|auto]. eexists. by left.
  - intros s' pc [[<- <-]|[_ Hpc']]%lookup_insert_Some; eauto.
  - intros s' id' pc q [[<- [= <- <-]]|[_ Hpc']]%lookup_insert_Some Hwin Hq; by eapply Ht.
  - intros e' [->|He']%elem_of_cons; [by eapply Hk|auto].
  - intros s' Hs'. destruct (Hpe s' Hs') as [Hn Hno']. assert (s' ≠ s) by (intros ->; congruence).
    rewrite lookup_insert_ne by done. split; [done|]. intros id' ?%Hless; [by eapply Hno'|done].
  - intros s' id' pc [[<- [= <- <-]]|[Hne Hpc']]%lookup_insert_Some Hpcne; [done|].
    intros id2 ?%Hless; [by eapply Hun|done].
  - constructor; [|done]. intros ([id' s' g] & Heq & Hin)%list_elem_of_fmap. cbn in Heq. subst s'.
    apply (Hno id'). by exists g.
  - intros e' s' q [->|He']%elem_of_cons Hg Hlt Hq Hid; [|by eapply Hbe].
    cbn in Hg, Hlt, Hid. destruct (Broker.active b !! s) as [r|] eqn:Er; [|done].
    destruct (Ht s id Turn r Hpc I Er) as [_ Hlow]. by eapply Hlow.
  - intros id'. cbn. destruct (_ && _) eqn:Hreg; [|done].
    apply andb_true_iff in Hreg as [Hg Hid%String.eqb_eq]. constructor; [done|].
    apply list.Forall_forall. intros s' ([id2 s2 g2] & He2 & Hin)%list_elem_of_omap. cbn in Hin.
    destruct g2; [|done]. cbn in Hin. destruct (String.eqb_spec id2 id') as [->|]; [|done]. injection Hin as ->.
    destruct (Broker.active b !! s) as [r|] eqn:Er; [|done].
    destruct (Ht s id Turn r Hpc I Er) as [Hrid _].
    destruct (Z.lt_total s s') as [Hlt|[<-|]]; [|by destruct (Hno id'); eexists|lia].
    assert (Hrs : ActiveRequest.sent r = true) by (eapply Hbe; [exact He2|done|done|done|cbn; congruence]).
    destruct (Hno (ActiveRequest.bindingID r)). by apply Hse.
Qed.

Lemma forward_step f f' : forward_inv f → fstep f f' → forward_inv f'.
Proof.
  intros Hf Hs. destruct Hs as [b b' pcs wire Hr|env b disk nonce sid space sc b' disk' r pcs wire Hsid H
    |now b id gen req s n b' r pcs wire H|now b id s t b' r pcs wire Hpc H|b s pcs wire|b id s pcs wire Hpc
    |b id s b' r pcs wire Hpc H].
  - pose proof (fi_broker _ Hf) as Hb. eapply forward_inv_loses; [exact Hf|by eapply inv_region|by apply region_loses].
  - by eapply forward_inv_issue.
  - pose proof (shrinks_Consume _ _ _ _ _ _ _ _ _ H) as Hsh.
    assert (Hf' : forward_inv (FSys b' pcs wire)).
    { eapply forward_inv_loses; [exact Hf| |by apply loses_shrinks].
      eapply inv_shrinks; [apply (fi_broker _ Hf)|exact Hsh]. }
    destruct r as [p|e]; [|done].
    apply ConsumePermit_Ok in H as (Hp & Hnone & _). pose proof (fi_broker _ Hf) as Hb. cbn in Hb.
    destruct (inv_permits _ _ Hb s p Hp) as (_ & Hle & _). pose proof (fi_known _ Hf') as Hk. cbn in Hk.
    pose proof (shrinks_sequence _ _ _ Hsh) as Hseq.
    pose proof (fi_permit _ Hf s) as Hper. cbn in Hper.
    eapply forward_inv_pcs; [exact Hf'|].
    intros s' id' pc [[<- [= <- <-]]|[_ Hpc']]%lookup_insert_Some; [right|by left].
    split_and!; [by intros []|lia|done|]. apply Hper. by eexists.
  - by eapply forward_inv_turn.
  - by apply forward_inv_delete.
  - by apply forward_inv_send.
  - by eapply forward_inv_mark.
Qed.

(** A broker that has just started forwards nothing. *)
Definition forward_initial (f : fsys) : Prop :=
  ∃ config disk b, New config disk = Ok b ∧ f = FSys b ∅ [].

Lemma forward_reachable_inv f0 f : forward_initial f0 → rtc fstep f0 f → forward_inv f.
Proof.
  intros (config & disk & b & Hnew & ->) Hrun. apply New_inv in Hnew as (Hb & _ & _ & Hact & _).
  assert (H0 : forward_inv (FSys b ∅ [])).
  { split; cbn; try done.
    all: try (intros *; rewrite ?Hact, ?lookup_empty; done).
    - intros e He. by apply not_elem_of_nil in He.
    - intros s _. split; [done|]. intros id [g Hin]. by apply not_elem_of_nil in Hin.
    - constructor.
    - intros id. constructor. }
  revert H0 Hrun. generalize (FSys b ∅ []). intros f1 H1 Hrun. induction Hrun; eauto using forward_step.
Qed.

