(* ===== verification/EgoIPC.v ===== *)
(** * The wrapper IPC endpoint (broker.go, [handleConnection])

    What the broker does with the first frame of a connection, with the frame
    that submits a request under a permit, and the messages it answers with.
    Frames are texts; framing is in EgoFraming. *)

From S2P Require Import Prelude GoText GoBytes GoTime GoJson EgoProtocol EgoRelay EgoBroker.
Import Config(Config). Import Binding(EgoBrowserBinding). Import Permit(Permit).
Import PermitRequest(PermitRequest). Import BindingState(bindingState). Import Broker(Broker).
Import Outer(outerEnvelope).

(** What the first frame asks for: a permit, a control command of a session,
    an error answer of some type, or a connection closed without an answer. *)
Inductive command :=
  | CmdPermit (request : PermitRequest)
  | CmdControl (messageType toolSessionID : string)
  | CmdReply (messageType : string) (e : error)
  | CmdDrop (e : error).

(** The head of [handleConnection]; [uid] is the peer's, if the kernel reports
    it. *)
Definition dispatch (b : Broker) (uid : option Z) (first : string) : command :=
  match decodeStrictJSON raw_map_of_json first with
  | None => CmdDrop (ErrProtocol "first frame")
  | Some envelope =>
      let messageType := rawString envelope "type" in
      let startupNonce := rawString envelope "startup_nonce" in
      match (match uid with
             | None => Err (ErrProtocol "peer credentials")
             | Some u => authorizePeerUID b startupNonce u
             end) with
      | Err e => CmdDrop e
      | Ok _ =>
          if String.eqb messageType "permit_request" then
            match decodeStrictJSON Decode.permit_request_of_json first with
            | None => CmdDrop (ErrTransport "json")
            | Some request => CmdPermit request
            end
          else if String.eqb messageType "doctor" || String.eqb messageType "reload" then
            match decodeStrictJSON (Decode.control_of_json "payload") first with
            | None => CmdDrop (ErrTransport "json")
            | Some request =>
                if negb (String.eqb (Decode.Protocol request) ProtocolVersion)
                   || negb (String.eqb (Decode.Type_ request) messageType)
                then CmdReply (messageType +:+ "_response") (ErrProtocol "startup nonce")
                else match sessionForNonceLocked b (Decode.StartupNonce request) with
                     | Err e => CmdReply (messageType +:+ "_response") e
                     | Ok toolSessionID => CmdControl messageType toolSessionID
                     end
            end
          else CmdReply "error" (ErrProtocol "unsupported command")
      end
  end.

(** The frame that uses a permit: decoded, matched against the permit, and the
    permit consumed; the result is the raw envelope and the consumed permit. *)
Definition handle_submit (now : time) (b : Broker) (permit : Permit) (startupNonce requestFrame : string)
    : Broker * result error (string * Permit) :=
  match Decode.decodeSubmitOrOuter requestFrame startupNonce with
  | Err e => (b, Err e)
  | Ok (rawOuter, outer) =>
      if negb (String.eqb (Outer.BindingID outer) (Permit.BindingID permit)
               && (Outer.Generation outer =? Permit.Generation permit)
               && String.eqb (Outer.RequestID outer) (Permit.RequestID permit)
               && (Outer.Sequence outer =? Permit.Sequence permit))
      then (b, Err (ErrProtocol "outer identity"))
      else match ConsumePermit now b (Permit.BindingID permit) (Permit.Generation permit)
                   (Permit.RequestID permit) (Permit.Sequence permit) (Outer.PayloadBytes outer) with
           | (b, Ok consumed) => (b, Ok (rawOuter, consumed))
           | (b, Err e) => (b, Err e)
           end
  end.

(** ** Answers *)
Definition pointer_json (o : option string) : string :=
  match o with Some s => quote s | None => "null" end.

Definition array_json (items : list string) : string := "[" +:+ join "," items +:+ "]".

(** [Time.UnixMilli] rounds towards the past. *)
Definition UnixMilli (t : time) : Z := t / millisecond.

Definition permitWire (p : Permit) : string :=
  print_object
    [ ("binding_id", quote (Permit.BindingID p)); ("generation", itoa (Permit.Generation p));
      ("request_id", quote (Permit.RequestID p)); ("sequence", itoa (Permit.Sequence p));
      ("expires_at_unix_ms", itoa (wrap_uint64 (UnixMilli (Permit.ExpiresAt p))));
      ("max_payload_bytes", itoa (Permit.MaxPayloadBytes p));
      ("max_script_bytes", itoa (Permit.MaxScriptBytes p));
      ("default_task_space", quote (Permit.DefaultTaskSpace p));
      ("allowlist_revision", itoa (Permit.AllowlistRevision p));
      ("learning_bundle_digest", pointer_json (Permit.LearningBundleDigest p));
      ("concurrency_mode", quote (Permit.ConcurrencyMode p));
      ("task_space_scope", pointer_json (optionalString (Permit.TaskSpaceScope p)));
      ("tab_scope", pointer_json (optionalString (Permit.TabScope p))) ].

(** The members of [bridgeCapabilityWire] for given metadata. *)
Definition capability_fields (cfg : Config) (m : EgoBrowserBinding) : list (string * string) :=
  [ ("bridge_protocol_version", quote ProtocolVersion);
    ("remote_wrapper_version", quote (Config.WrapperVersion cfg));
    ("local_ego_browser_runtime_version", quote (deref (Binding.LocalRuntimeVersion m)));
    ("ego_lite_runtime_version", quote (deref (Binding.EgoLiteRuntimeVersion m)));
    ("skill_version", quote (deref (Binding.SkillVersion m)));
    ("release_profile", quote (Binding.ReleaseProfile m));
    ("signer_certificate_sha256", quote (Binding.SignerCertificateSHA256 m));
    ("credential_profile", quote (Binding.CredentialProfile m));
    ("allowlist_revision", itoa (Binding.AllowlistRevision m));
    ("allowlist_roots_digest", pointer_json (Binding.AllowlistRootsDigest m));
    ("learning_bundle_digest", pointer_json (Binding.LearningBundleDigest m));
    ("max_parallel_requests",
      itoa (minInt (Config.MaxParallelRequests cfg) (Binding.MaxParallelRequests m)));
    ("max_script_bytes", itoa (Config.MaxScriptBytes cfg));
    ("max_execute_timeout_ms", itoa (Config.MaxExecuteTimeoutMS cfg));
    ("supported_concurrency",
      array_json (map quote ["task_space_tab"; "task_space"; "binding"]));
    ("capabilities",
      match Binding.Capabilities m with [] => "null" | cs => array_json (map quote cs) end);
    ("remote_platform", quote "linux"); ("local_platform", quote "macos") ].

(** The zero value, when the binding is gone. *)
Definition zero_capability : list (string * string) :=
  [ ("bridge_protocol_version", quote ""); ("remote_wrapper_version", quote "");
    ("local_ego_browser_runtime_version", quote ""); ("ego_lite_runtime_version", quote "");
    ("skill_version", quote ""); ("release_profile", quote "");
    ("signer_certificate_sha256", quote ""); ("credential_profile", quote "");
    ("allowlist_revision", "0"); ("allowlist_roots_digest", "null");
    ("learning_bundle_digest", "null"); ("max_parallel_requests", "0");
    ("max_script_bytes", "0"); ("max_execute_timeout_ms", "0");
    ("supported_concurrency", "null"); ("capabilities", "null");
    ("remote_platform", quote ""); ("local_platform", quote "") ].

Definition capabilityWire (b : Broker) (bindingID : string) : string :=
  print_object
    match lookup_binding b bindingID with
    | Some (_, st) => capability_fields (Broker.cfg b) (BindingState.metadata st)
    | None => zero_capability
    end.

Definition permitResponse (b : Broker) (p : Permit) : string :=
  print_object
    [ ("protocol", quote ProtocolVersion); ("type", quote "permit_response"); ("status", quote "ok");
      ("permit", permitWire p); ("session_key", quote (b64_encode (Permit.SessionKey p)));
      ("capability", capabilityWire b (Permit.BindingID p)) ].

(** The message [writeError] sends; map members are sorted. *)
Definition writeError (messageType : string) (err : error) : string :=
  print_object
    [ ("error", quote (writeError_code err)); ("protocol", quote ProtocolVersion);
      ("status", quote "error"); ("type", quote messageType) ].

Definition bool_json (x : bool) : string := if x then "true" else "false".

Definition relay_connected (b : Broker) (st : bindingState) : bool :=
  match (id ← BindingState.relay st; Broker.relays b !! id) with
  | Some session => negb (Relay.closed session)
  | None => false
  end.

Definition controlResponse (b : Broker) (messageType toolSessionID : string) : string :=
  let items := omap (λ e : string * loc,
    st ← Broker.heap b !! e.2;
    let m := BindingState.metadata st in
    Some (print_object
      [ ("binding_generation", itoa (Binding.BindingGeneration m));
        ("binding_id", quote (Binding.BindingID m));
        ("generation", itoa (Binding.BindingGeneration m));
        ("lease_health", quote (Binding.LeaseHealth m));
        ("relay_connected", bool_json (relay_connected b st));
        ("status", quote (Binding.Status m)) ])) (session_bindings b toolSessionID) in
  print_object
    [ ("protocol", quote ProtocolVersion); ("type", quote (messageType +:+ "_response"));
      ("status", quote "ok");
      ("response", print_object
        [ ("bindings", array_json items); ("local_execution_available", "null");
          ("observation_scope", quote "node_binding_and_relay") ]) ].

(** ** Who a permit request speaks for *)

(** The value of the member called exactly [startup_nonce]. *)
Lemma find_rev_unique {A} (fields : list (string * string * A)) key raw v :
  NoDup (map (λ f, f.1.1) fields) → (key, raw, v) ∈ fields →
  find (λ f : string * string * A, String.eqb f.1.1 key) (rev fields) = Some (key, raw, v).
Proof.
  intros Hnd Hin.
  destruct (find (λ f : string * string * A, String.eqb f.1.1 key) (rev fields)) as [[[k r] x]|] eqn:E.
  - apply find_some in E as [Hin' Hk]. apply String.eqb_eq in Hk. cbn in Hk. subst k.
    apply in_rev in Hin'. apply list_elem_of_In in Hin'.
    apply list_elem_of_lookup in Hin as [i Hi], Hin' as [j Hj].
    assert (i = j) as ->; [|congruence].
    eapply (NoDup_lookup (map (λ f : string * string * A, f.1.1) fields)); [done| |];
      rewrite list_lookup_fmap, ?Hi, ?Hj; reflexivity.
  - exfalso. eapply find_none in E; [|apply -> in_rev; apply list_elem_of_In; exact Hin].
    cbn in E. by rewrite String.eqb_refl in E.
Qed.

Definition alias_free (fields : list (string * string * json)) : Prop :=
  ∀ key raw v, (key, raw, v) ∈ fields →
    fold_name key = fold_name "startup_nonce" → key = "startup_nonce".

Lemma match_startup key :
  match_field Decode.permit_request_names key = Some "startup_nonce" →
  fold_name key = fold_name "startup_nonce".
Proof.
  unfold match_field. case_bool_decide as Hin; [by intros [= ->]|].
  intros H. apply find_some in H as [_ H]. apply String.eqb_eq in H. done.
Qed.

Lemma assign_other name raw v r r' :
  name ≠ "startup_nonce" → Decode.permit_request_assign name raw v r = Some r' →
  PermitRequest.StartupNonce r' = PermitRequest.StartupNonce r.
Proof.
  intros Hne H. unfold Decode.permit_request_assign in H.
  destruct (String.eqb name "script_bytes"); [by apply bind_Some in H as (? & _ & [= <-])|].
  destruct (String.eqb name "timeout_ms"); [by apply bind_Some in H as (? & _ & [= <-])|].
  destruct v; simplify_eq; try done. unfold Decode.set_permit_text.
  repeat (case_match; try done). by apply String.eqb_eq in H1.
Qed.

Lemma assign_nonce raw v r r' :
  Decode.permit_request_assign "startup_nonce" raw v r = Some r' →
  match v with
  | JStr text => PermitRequest.StartupNonce r' = text
  | JNull => r' = r
  | _ => False
  end.
Proof. destruct v; cbn; intros H; simplify_eq; done. Qed.

(** Without aliases, decoding reads the nonce from the member of that name. *)
Lemma assign_fields_nonce fields r r' :
  NoDup (map (λ f : string * string * json, f.1.1) fields) → alias_free fields →
  assign_fields Decode.permit_request_names Decode.permit_request_assign fields r = Some r' →
  (∀ raw v, ("startup_nonce", raw, v) ∈ fields →
     match v with
     | JStr text => PermitRequest.StartupNonce r' = text
     | JNull => PermitRequest.StartupNonce r' = PermitRequest.StartupNonce r
     | _ => False
     end) ∧
  ((∀ raw v, ("startup_nonce", raw, v) ∉ fields) →
   PermitRequest.StartupNonce r' = PermitRequest.StartupNonce r).
Proof.
  revert r. induction fields as [|[[key raw] v] fields IH]; intros r Hnd Halias H; cbn in H.
  { injection H as <-. split; [|done]. intros raw v Hin. by apply not_elem_of_nil in Hin. }
  apply bind_Some in H as (name & Hname & (r1 & H1 & H)%bind_Some).
  apply list.NoDup_cons in Hnd as [Hnin Hnd]. cbn in Hnin.
  destruct (IH r1 Hnd) as [Hin Hout]; [|done|].
  { intros k w x Hk. apply (Halias k w x). by apply elem_of_cons; right. }
  assert (Hnone : key = "startup_nonce" → ∀ raw v, ("startup_nonce", raw, v) ∉ fields).
  { intros -> w x Hx. apply Hnin, list_elem_of_fmap. by exists ("startup_nonce", w, x). }
  destruct (decide (name = "startup_nonce")) as [->|Hne].
  - apply match_startup in Hname.
    assert (key = "startup_nonce") as -> by (eapply Halias; [apply elem_of_cons; by left|done]).
    specialize (Hout (Hnone eq_refl)). apply assign_nonce in H1. split.
    + intros w x [[= -> ->]|Hx]%elem_of_cons; [|by destruct (Hnone eq_refl w x)].
      rewrite Hout. destruct v; try done. by subst.
    + intros Hno. exfalso. apply (Hno raw v), elem_of_cons. by left.
  - assert (Hkey : key ≠ "startup_nonce").
    { intros ->. injection Hname as <-. done. }
    pose proof (assign_other _ _ _ _ _ Hne H1) as Hsame. split.
    + intros w x [[= <- _ _]|Hx]%elem_of_cons; [done|]. specialize (Hin w x Hx). destruct x; try done; congruence.
    + intros Hno. rewrite Hout; [done|]. intros w x Hx. apply (Hno w x), elem_of_cons. by right.
Qed.

(** the permit request a connection makes is for the very capability its
    peer was checked against, as long as no member of the frame is an
    upper/lower-case alias of [startup_nonce]. *)
Theorem dispatch_authorized b uid first request v fields :
  parse_json first = Some v → v = JObj fields → alias_free fields →
  dispatch b uid first = CmdPermit request →
  ∃ u, uid = Some u ∧ authorizePeerUID b (PermitRequest.StartupNonce request) u = Ok tt.
Proof.
  intros Hparse -> Halias H. unfold dispatch, decodeStrictJSON in H. rewrite Hparse in H. cbn [mbind option_bind] in H.
  destruct (no_duplicate_keys (JObj fields)) eqn:Edup; [|done]. cbn [raw_map_of_json] in H.
  destruct uid as [u|]; [|done]. exists u. split; [done|].
  destruct (authorizePeerUID b _ u) as [[]|] eqn:Eauth in H; [|done].
  destruct (String.eqb _ "permit_request"); [|by repeat case_match].
  unfold Decode.permit_request_of_json, struct_of_json in H.
  destruct (assign_fields _ _ fields _) as [r|] eqn:Ea; [|done]. injection H as <-.
  cbn [no_duplicate_keys] in Edup. apply andb_prop in Edup as [Hnd _]. apply bool_decide_eq_true in Hnd.
  destruct (assign_fields_nonce _ _ _ Hnd Halias Ea) as [Hin Hout].
  enough (PermitRequest.StartupNonce r = rawString (JObj fields) "startup_nonce") as -> by done.
  unfold rawString, raw_member.
  destruct (find _ (rev fields)) as [[[k raw] v]|] eqn:Ef.
  - apply find_some in Ef as [Hin' Hk]. apply String.eqb_eq in Hk. cbn in Hk. subst k.
    apply in_rev, list_elem_of_In in Hin'. specialize (Hin raw v Hin'). by destruct v.
  - rewrite Hout; [done|]. intros raw v Hv.
    by rewrite (find_rev_unique fields _ raw v Hnd Hv) in Ef.
Qed.

(** ** An alias of the nonce member

    Two sessions; the peer of the first knows the capability of the second.
    The frame names the first session's capability in [startup_nonce] and the
    second's in [STARTUP_NONCE]: the duplicate check compares names exactly,
    struct decoding does not, and the later member wins. *)
Definition alias_frame (authorized used : string) : string :=
  print_object
    [ ("protocol", quote ProtocolVersion); ("type", quote "permit_request");
      ("startup_nonce", quote authorized); ("script_bytes", "10"); ("timeout_ms", "1000");
      ("cwd_label", quote "work"); ("STARTUP_NONCE", quote used) ].

(** the uid check can be bypassed: for some broker and frame, a peer that is
    authorized for one capability and refused for another is dispatched with a
    permit request for the other one. *)
Theorem dispatch_alias_confusion :
  ∃ b uid first request,
    authorizePeerUID b "nonce-a" uid = Ok tt ∧
    is_ok (authorizePeerUID b "nonce-b" uid) = false ∧
    dispatch b (Some uid) first = CmdPermit request ∧
    PermitRequest.StartupNonce request = "nonce-b".
Proof.
  set (cfg := Config.withDefaults (Config.Build_Config true "" "" "" true 0 0 0 0 0 0 0 "")).
  set (b := (fresh_broker cfg 0)
    <| Broker.sessions := {["session-a" := "nonce-a"; "session-b" := "nonce-b"]} |>
    <| Broker.nonces := {["nonce-a" := "session-a"; "nonce-b" := "session-b"]} |>
    <| Broker.peerUIDs := {["session-a" := 1001; "session-b" := 1002]} |>).
  exists b, 1001, (alias_frame "nonce-a" "nonce-b"). eexists. split_and!; vm_compute; reflexivity.
Qed.

(** ** A witness *)
Definition plain_frame : string :=
  print_object
    [ ("protocol", quote ProtocolVersion); ("type", quote "permit_request");
      ("startup_nonce", quote "nonce-a"); ("script_bytes", "10"); ("timeout_ms", "1000");
      ("cwd_label", quote "work") ].

Definition plain_broker : Broker :=
  (fresh_broker (Config.withDefaults (Config.Build_Config true "" "" "" true 0 0 0 0 0 0 0 "")) 0)
    <| Broker.sessions := {["session-a" := "nonce-a"]} |>
    <| Broker.nonces := {["nonce-a" := "session-a"]} |>
    <| Broker.peerUIDs := {["session-a" := 1001]} |>.

Definition plain_fields : list (string * string * json) :=
  [ ("protocol", quote ProtocolVersion, JStr ProtocolVersion);
    ("type", quote "permit_request", JStr "permit_request");
    ("startup_nonce", quote "nonce-a", JStr "nonce-a");
    ("script_bytes", "10", JNum "10"); ("timeout_ms", "1000", JNum "1000");
    ("cwd_label", quote "work", JStr "work") ].

Lemma dispatch_authorized_witness :
  ∃ request, dispatch plain_broker (Some 1001) plain_frame = CmdPermit request ∧
  ∃ u, Some 1001 = Some u ∧
    authorizePeerUID plain_broker (PermitRequest.StartupNonce request) u = Ok tt.
Proof.
  eexists. split; [vm_compute; reflexivity|].
  apply (dispatch_authorized plain_broker (Some 1001) plain_frame _ (JObj plain_fields) plain_fields).
  - vm_compute. reflexivity.
  - reflexivity.
  - intros key raw v Hin Hfold. unfold plain_fields in Hin. rewrite !elem_of_cons in Hin.
    destruct Hin as [[= -> -> ->]|[[= -> -> ->]|[[= -> -> ->]|[[= -> -> ->]|[[= -> -> ->]|[[= -> -> ->]|Hin]]]]]];
      try (vm_compute in Hfold; discriminate Hfold); [reflexivity|]. by apply not_elem_of_nil in Hin.
  - vm_compute. reflexivity.
Defined.
