(* ===== verification/EgoLease.v ===== *)
(** * Leases, grace periods and the replay window

    What a failed renewal does over time, when a binding admits a request, how
    the replay table is bounded, and two races of the request registry. *)

From S2P Require Import Prelude GoText GoBytes GoTime GoJson EgoProtocol EgoRelay EgoBroker EgoBrokerInv EgoBrokerSteps EgoBrokerHistory EgoForward EgoDemo.
Import Config(Config). Import Binding(EgoBrowserBinding). Import Permit(Permit).
Import BindingState(bindingState). Import ActiveRequest(activeRequest). Import Broker(Broker).

(** ** The replay table *)
Lemma oldest_fold entries e0 :
  ∃ o, foldl (λ (best : option (Z * time)) (e : Z * time),
      match best with None => Some e | Some o => if before e.2 o.2 then Some e else best end)
      (Some e0) entries = Some o ∧ o ∈ e0 :: entries ∧ ∀ e, e ∈ e0 :: entries → o.2 ≤ e.2.
Proof.
  revert e0. induction entries as [|e entries IH]; intros e0; cbn.
  - exists e0. split_and!; [done|set_solver|]. intros e [->|He]%elem_of_cons; [lia|by apply not_elem_of_nil in He].
  - unfold before. destruct (Z.ltb_spec e.2 e0.2) as [Hlt|Hge]; cbn.
    + destruct (IH e) as (o & Ho & Hin & Hle). exists o. split_and!; [done|set_solver|].
      intros x [->|Hx]%elem_of_cons; [|auto]. assert (o.2 ≤ e.2) by (apply Hle; set_solver). lia.
    + destruct (IH e0) as (o & Ho & Hin & Hle). exists o. split_and!; [done|set_solver|].
      intros x [->|[->|Hx]%elem_of_cons]%elem_of_cons; [apply Hle; set_solver| |apply Hle; set_solver].
      assert (o.2 ≤ e0.2) by (apply Hle; set_solver). lia.
Qed.

Lemma oldest_consumed_spec (consumed : gmap Z time) :
  consumed ≠ ∅ →
  ∃ s t, oldest_consumed (map_to_list consumed) = Some (s, t) ∧ consumed !! s = Some t ∧
    ∀ s' t', consumed !! s' = Some t' → t ≤ t'.
Proof.
  intros Hne. destruct (map_to_list consumed) as [|e0 entries] eqn:E.
  { by apply map_to_list_empty_iff in E. }
  unfold oldest_consumed. cbn. destruct (oldest_fold entries e0) as ([s t] & Ho & Hin & Hle).
  exists s, t. split; [done|]. rewrite <- E in Hin, Hle. split; [by apply elem_of_map_to_list|].
  intros s' t' Hs'. apply elem_of_map_to_list in Hs'. exact (Hle _ Hs').
Qed.

(** What eviction keeps: a sub-map of bounded size that drops only entries no
    newer than any entry it keeps. *)
Lemma evict_consumed_spec fuel consumed :
  (size consumed ≤ maximumReplayEntries + fuel)%nat →
  let kept := evict_consumed fuel consumed in
  kept ⊆ consumed ∧ (size kept ≤ maximumReplayEntries)%nat ∧
  ((size consumed ≤ maximumReplayEntries)%nat → kept = consumed) ∧
  ∀ s t s' t', consumed !! s = Some t → kept !! s = None → kept !! s' = Some t' → t ≤ t'.
Proof.
  revert consumed. induction fuel as [|fuel IH]; intros consumed Hsize; cbn [evict_consumed].
  - split_and!; [reflexivity|lia|done|congruence].
  - destruct (Nat.ltb_spec maximumReplayEntries (size consumed)) as [Hbig|Hsmall].
    2: { split_and!; [reflexivity|lia|done|congruence]. }
    destruct (oldest_consumed_spec consumed) as (s0 & t0 & -> & Hs0 & Hmin).
    { intros ->. rewrite map_size_empty in Hbig. lia. }
    assert (Hdel : size (delete s0 consumed) = (size consumed - 1)%nat).
    { rewrite map_size_delete, Hs0. lia. }
    destruct (IH (delete s0 consumed)) as (Hsub & Hb & _ & Hold); [lia|]. cbn in *.
    split_and!; [by etrans; [|apply delete_subseteq]|done|lia|].
    intros s t s' t' Hs Hn Hs'. destruct (decide (s = s0)) as [->|Hne].
    + rewrite Hs0 in Hs. injection Hs as <-. eapply Hmin, lookup_weaken; [exact Hs'|].
      by etrans; [|apply delete_subseteq].
    + eapply Hold; [|done|done]. by rewrite lookup_delete_ne.
Qed.

(** The replay table keeps at most 4096 sequences after a prune; it forgets
    exactly what is ten minutes old, and when it must evict more it evicts the
    oldest. *)
Theorem pruneConsumed_spec now consumed :
  let kept := pruneConsumed now consumed in
  kept ⊆ consumed ∧ (size kept ≤ maximumReplayEntries)%nat ∧
  (∀ s t, kept !! s = Some t → now < t + replayWindow) ∧
  ((size consumed ≤ maximumReplayEntries)%nat →
   ∀ s t, consumed !! s = Some t → now < t + replayWindow → kept !! s = Some t) ∧
  (∀ s t s' t', consumed !! s = Some t → kept !! s = None → kept !! s' = Some t' →
   t + replayWindow ≤ now ∨ t ≤ t').
Proof.
  cbn zeta. unfold pruneConsumed. set (recent := filter _ consumed).
  destruct (evict_consumed_spec (size recent) recent ltac:(lia)) as (Hsub & Hb & Hid & Hold).
  set (kept := evict_consumed _ recent) in *.
  assert (Hrec : recent ⊆ consumed) by apply map_filter_subseteq.
  assert (Hin : ∀ s t, recent !! s = Some t ↔ consumed !! s = Some t ∧ now < t + replayWindow).
  { intros s t. unfold recent. rewrite map_lookup_filter_Some. unfold after. cbn. by rewrite Z.ltb_lt. }
  split_and!; [by etrans|done| | |].
  - intros s t Hs. eapply Hin, lookup_weaken; [exact Hs|done].
  - intros Hsize s t Hs Ht. rewrite Hid by (etrans; [by apply map_subseteq_size|done]). by apply Hin.
  - intros s t s' t' Hs Hn Hs'. destruct (decide (now < t + replayWindow)) as [Hr|Hr]; [right|left; lia].
    eapply Hold; [by apply Hin|done|done].
Qed.

(** ** Grace periods *)
Lemma current_after b l st st' :
  broker_inv b → current_binding b l = Some st →
  Binding.BindingID (BindingState.metadata st') = Binding.BindingID (BindingState.metadata st) →
  ∀ b', shrinks (set_state l st' b) b' →
  ∃ st2, current_binding b' l = Some st2 ∧ core st2 = core st'.
Proof.
  intros Hinv [Hl Hb]%current_binding_Some Hid b' Hsh.
  destruct (shrinks_lookup_core _ _ l st' Hsh) as (st2 & Hl2 & Hc); [cbn; by rewrite lookup_insert_eq|].
  exists st2. split; [|done]. unfold current_binding. rewrite Hl2. cbn.
  pose proof (core_metadata _ _ Hc) as (-> & _ & _).
  unfold lookup_binding. rewrite Hid, (shrinks_bindings _ _ _ Hsh). cbn. rewrite Hb. cbn. rewrite Hl2. cbn.
  by rewrite Nat.eqb_refl.
Qed.

(** A renewal failure of an active, non-terminal binding that is not expired. *)
Lemma failure_step now l b st b' f :
  broker_inv b → current_binding b l = Some st →
  Binding.Status (BindingState.metadata st) = "active" → BindingState.terminal st = false →
  Binding.LeaseHealth (BindingState.metadata st) ≠ "expired" →
  markRenewalFailureFor_locked now l b = (b', f) →
  ∃ st', current_binding b' l = Some st' ∧
    core st' = if grace_ended now (BindingState.metadata st) then core (make_terminal "expired" st)
               else core (st <| BindingState.metadata := enter_grace (Broker.cfg b) now (BindingState.metadata st) |>).
Proof.
  intros Hinv Hc Hst Ht Hh H. unfold markRenewalFailureFor_locked in H. rewrite Hc in H.
  rewrite Hst, Ht in H. rewrite (proj2 (String.eqb_neq _ _) Hh) in H. cbn in H.
  destruct (grace_ended now _); injection H as <- <-.
  - eapply current_after; [done|exact Hc|done|]. unfold expireBindingLocked. etrans; apply shrinks_clear.
  - eapply current_after; [done|exact Hc| |apply shrinks_clear]. cbn. unfold enter_grace. by repeat case_match.
Qed.

Lemma enter_grace_fields cfg now m :
  Binding.Status (enter_grace cfg now m) = Binding.Status m ∧
  Binding.LeaseHealth (enter_grace cfg now m) = "renewal_grace" ∧
  Binding.LeaseGraceUntil (enter_grace cfg now m) =
    match Binding.LeaseGraceUntil m with
    | None | Some "" => Some (format_rfc3339 (now + Config.RenewGraceSeconds cfg * second))
    | Some text => Some text
    end.
Proof.
  unfold enter_grace. change (Binding.LeaseGraceUntil (m <| Binding.LeaseHealth := _ |>))
    with (Binding.LeaseGraceUntil m).
  destruct (Binding.LeaseGraceUntil m) as [[|c text]|] eqn:E; split_and!; done || exact E.
Qed.

(** The first failed renewal of a healthy binding opens a grace period of
    exactly the configured length; a later failure keeps that deadline while
    it is ahead, and from the deadline on makes the binding terminal. *)
Theorem grace_deadline b l st t0 t1 b1 b2 f1 f2 :
  broker_inv b → current_binding b l = Some st →
  Binding.Status (BindingState.metadata st) = "active" → BindingState.terminal st = false →
  Binding.LeaseHealth (BindingState.metadata st) = "healthy" →
  Binding.LeaseGraceUntil (BindingState.metadata st) = None →
  in_four_digit_years (t0 + Config.RenewGraceSeconds (Broker.cfg b) * second) →
  markRenewalFailureFor_locked t0 l b = (b1, f1) →
  markRenewalFailureFor_locked t1 l b1 = (b2, f2) →
  let deadline := t0 + Config.RenewGraceSeconds (Broker.cfg b) * second in
  ∃ st2, current_binding b2 l = Some st2 ∧
    if t1 <? deadline then
      Binding.Status (BindingState.metadata st2) = "active" ∧
      Binding.LeaseHealth (BindingState.metadata st2) = "renewal_grace" ∧
      (text ← Binding.LeaseGraceUntil (BindingState.metadata st2); parse_rfc3339 text) = Some deadline
    else
      Binding.Status (BindingState.metadata st2) = "expired" ∧ BindingState.terminal st2 = true.
Proof.
  intros Hinv Hc Hst Ht Hh Hg Hyear H1 H2 deadline.
  assert (Hinv1 : broker_inv b1) by by eapply inv_renewal_failure.
  destruct (failure_step _ _ _ _ _ _ Hinv Hc Hst Ht ltac:(by rewrite Hh) H1) as (st1 & Hc1 & Hcore1).
  replace (grace_ended t0 (BindingState.metadata st)) with false in Hcore1
    by (unfold grace_ended; by rewrite Hh).
  apply core_metadata in Hcore1 as (Hm1 & Ht1 & _).
  change (BindingState.metadata (st <| BindingState.metadata := ?x |>)) with x in Hm1.
  destruct (enter_grace_fields (Broker.cfg b) t0 (BindingState.metadata st)) as (Hst1 & Hh1 & Hg1).
  rewrite <- Hm1, Hst in Hst1. rewrite <- Hm1 in Hh1. rewrite <- Hm1, Hg in Hg1. fold deadline in Hg1.
  assert (Hparse : parse_rfc3339 (format_rfc3339 deadline) = Some deadline) by by apply parse_format_rfc3339.
  destruct (failure_step _ _ _ _ _ _ Hinv1 Hc1 Hst1 ltac:(by rewrite Ht1) ltac:(by rewrite Hh1) H2)
    as (st2 & Hc2 & Hcore2).
  exists st2. split; [done|].
  replace (grace_ended t1 (BindingState.metadata st1)) with (negb (t1 <? deadline)) in Hcore2
    by (unfold grace_ended; by rewrite Hh1, Hg1, Hparse).
  destruct (t1 <? deadline); cbn [negb] in Hcore2; apply core_metadata in Hcore2 as (Hm2 & Ht2 & _).
  - change (BindingState.metadata (st1 <| BindingState.metadata := ?x |>)) with x in Hm2.
    destruct (enter_grace_fields (Broker.cfg b1) t1 (BindingState.metadata st1)) as (Hst2 & Hh2 & Hg2).
    rewrite <- Hm2, Hst1 in Hst2. rewrite <- Hm2 in Hh2. rewrite <- Hm2, Hg1 in Hg2.
    split_and!; [done|done|]. rewrite Hg2.
    destruct (format_rfc3339 deadline) eqn:Ef; [by vm_compute in Hparse|exact Hparse].
  - rewrite Hm2, Ht2. done.
Qed.

(** ** Admission *)
Lemma commit_renewal_lease now l m response ttl b b' st :
  current_binding b l = Some st → check_renewal now m response = Ok ttl →
  broker_inv b → commit_renewal l m response ttl b = (b', Ok tt) →
  ∃ st', current_binding b' l = Some st' ∧
    Binding.Status (BindingState.metadata st') = "active" ∧
    Binding.LeaseHealth (BindingState.metadata st') = "healthy" ∧
    ∃ text lease abs, Binding.LeaseUntil (BindingState.metadata st') = Some text ∧
      parse_rfc3339 text = Some lease ∧ now < lease ∧
      parse_rfc3339 (Binding.AbsoluteTTLUntil (BindingState.metadata st')) = Some abs ∧ lease ≤ abs.
Proof.
  intros Hc Hcheck Hinv H. unfold commit_renewal in H. rewrite Hc in H.
  destruct (_ || _) eqn:Eg in H; [done|]. injection H as <-.
  rewrite !orb_false_iff, !negb_false_iff, Z.eqb_eq, String.eqb_eq in Eg. destruct Eg as [[Hg Hs] Ht].
  match goal with |- context [set_state l ?x b] => set (st1 := x) end.
  destruct (current_after b l st st1 Hinv Hc eq_refl _ (reflexivity _)) as (st2 & Hc2 & (Hm & _ & _)%core_metadata).
  exists st2. split; [done|]. rewrite Hm.
  destruct (check_renewal_Ok _ _ _ _ Hcheck) as [_ Hhealth]. split_and!; [exact Hs|exact Hhealth|].
  change (Binding.LeaseUntil (BindingState.metadata st1)) with (renewed_until response).
  change (Binding.AbsoluteTTLUntil (BindingState.metadata st1)) with ttl.
  unfold check_renewal in Hcheck. go_inv Hcheck. apply andb_prop in Hguard0 as [_ Hu].
  destruct (renewed_until response) as [text|]; [|done]. change (default _ (Some text)) with text in Hcheck.
  destruct (parse_rfc3339 text) as [lease|] eqn:El; [|done]. go_inv Hcheck. apply Z.ltb_lt in Hguard0.
  destruct (parse_rfc3339 _) as [abs|] eqn:Ea in Hcheck; [|done]. go_inv Hcheck. injection Hcheck as <-.
  apply andb_prop in Hguard1 as [_ Hle%negb_true_iff%Z.ltb_ge]. exists text, lease, abs. auto 10.
Qed.

Lemma renewBinding_lease now answer l b b' :
  broker_inv b → renewBinding now answer l b = (b', Ok tt) →
  ∃ st', current_binding b' l = Some st' ∧
    Binding.Status (BindingState.metadata st') = "active" ∧
    Binding.LeaseHealth (BindingState.metadata st') = "healthy" ∧
    ∃ text lease abs, Binding.LeaseUntil (BindingState.metadata st') = Some text ∧
      parse_rfc3339 text = Some lease ∧ now < lease ∧
      parse_rfc3339 (Binding.AbsoluteTTLUntil (BindingState.metadata st')) = Some abs ∧ lease ≤ abs.
Proof.
  intros Hinv H. unfold renewBinding in H. destruct (negb _); [done|].
  destruct (current_binding b l) as [st|] eqn:Ec; [|done]. destruct (_ || _); [done|].
  destruct answer as [response|e]; [|done].
  destruct (check_renewal _ _ _) as [ttl|] eqn:Echk; [|done]. by eapply commit_renewal_lease.
Qed.

(** [ensureLease] lets a request through only with the binding active and
    healthy, a lease that ends in the future, and an absolute TTL that, when
    given, is in the future too. *)
Theorem ensureLease_admits now answer l b b' :
  broker_inv b → ensureLease now answer l b = (b', Ok tt) →
  ∃ st, current_binding b' l = Some st ∧
    Binding.Status (BindingState.metadata st) = "active" ∧
    Binding.LeaseHealth (BindingState.metadata st) = "healthy" ∧
    (∃ text lease, Binding.LeaseUntil (BindingState.metadata st) = Some text ∧
       parse_rfc3339 text = Some lease ∧ now < lease) ∧
    (Binding.AbsoluteTTLUntil (BindingState.metadata st) = "" ∨
     ∃ abs, parse_rfc3339 (Binding.AbsoluteTTLUntil (BindingState.metadata st)) = Some abs ∧ now < abs).
Proof.
  intros Hinv H. unfold ensureLease in H. destruct (current_binding b l) as [st|] eqn:Ec; [|done].
  assert (Hrenew : ∀ failure, renew_or now answer l failure b = (b', Ok tt) →
    ∃ st, current_binding b' l = Some st ∧ Binding.Status (BindingState.metadata st) = "active" ∧
    Binding.LeaseHealth (BindingState.metadata st) = "healthy" ∧
    (∃ text lease, Binding.LeaseUntil (BindingState.metadata st) = Some text ∧
       parse_rfc3339 text = Some lease ∧ now < lease) ∧
    (Binding.AbsoluteTTLUntil (BindingState.metadata st) = "" ∨
     ∃ abs, parse_rfc3339 (Binding.AbsoluteTTLUntil (BindingState.metadata st)) = Some abs ∧ now < abs)).
  { intros failure Hr. unfold renew_or in Hr. destruct (renewBinding now answer l b) as [b2 [[]|]] eqn:Er; [|done]. injection Hr as <-.
    destruct (renewBinding_lease _ _ _ _ _ Hinv Er) as (st' & ? & ? & ? & text & lease & abs & ? & ? & ? & ? & ?).
    exists st'. split_and!; eauto. right. exists abs. split; [done|lia]. }
  destruct (_ || _); [done|].
  destruct (String.eqb_spec (Binding.Status (BindingState.metadata st)) "active") as [Hs|]; [|done]. cbn [negb] in H.
  destruct (String.eqb_spec (Binding.LeaseHealth (BindingState.metadata st)) "healthy") as [Hh|]; cbn [negb] in H;
    [|by repeat case_match].
  match type of H with match ?x with _ => _ end = _ => destruct x as [[]|] eqn:Ettl; [|done] end.
  assert (Httl : Binding.AbsoluteTTLUntil (BindingState.metadata st) = "" ∨
     ∃ abs, parse_rfc3339 (Binding.AbsoluteTTLUntil (BindingState.metadata st)) = Some abs ∧ now < abs).
  { destruct (String.eqb_spec (Binding.AbsoluteTTLUntil (BindingState.metadata st)) ""); [by left|right].
    destruct (parse_rfc3339 _) as [abs|]; [|done]. unfold after in Ettl.
    destruct (Z.ltb_spec now abs); [|done]. eauto. }
  destruct (Binding.LeaseUntil (BindingState.metadata st)) as [[|c text]|] eqn:El; [by eapply Hrenew| |by eapply Hrenew].
  destruct (parse_rfc3339 (String c text)) as [lease|] eqn:Elease; [|done].
  destruct (negb (after lease now)) eqn:Eafter; [by eapply Hrenew|].
  destruct (_ <? _) in H; [by eapply Hrenew|]. injection H as <-.
  apply negb_false_iff, Z.ltb_lt in Eafter. exists st. split_and!; eauto.
Qed.

(** ** Two races of the request registry *)

(** The request of the demonstration run is consumed, then its session is
    unregistered before the forwarding goroutine looks at the registry. *)
Definition after_unregister : Broker :=
  (UnregisterToolSession (Demo.now + second) Demo.b5 "session-1" "").1.

(** A request whose session was unregistered between the consumption of its
    permit and its first turn is not in the registry any more, and for that
    reason passes every check before sending: the turn is granted as for an
    untracked request and the binding is still usable. *)
Theorem unregistered_request_forwarded :
  Broker.sessions after_unregister = ∅ ∧ Broker.active after_unregister = ∅ ∧
  (waitForSendTurn_turn (Demo.now + second) after_unregister false "binding-1" 1).2 = TurnGranted ∧
  validateForwardBinding after_unregister 0 5 = Ok tt.
Proof. split_and!; vm_compute; reflexivity. Qed.

(** The request of the demonstration run is cancelled, its permit expires, and
    the handler releases it. *)
Definition after_expiry : Broker :=
  let b := (CancelRequest Demo.b4 "binding-1" 5 (Permit.RequestID Demo.permit) 1).1 in
  releaseRequest (pruneExpiredPermitsLocked (Demo.now + 13 * second) b) 1.

(** A waiter of [CancelRequestAndWait] whose request is pruned with its expired
    permit is not woken, not even when the handler releases the request: no
    branch of its select is ready until its context ends. *)
Theorem expired_request_waiter_not_woken :
  is_Some (Broker.retired after_expiry !! 1) ∧ cancel_wait after_expiry 1 None = [].
Proof. split; [eexists; vm_compute; reflexivity|vm_compute; reflexivity]. Qed.

(** ** Witnesses *)
Lemma grace_deadline_witness :
  let b1 := (markRenewalFailureFor_locked Demo.now 0 Demo.b3).1 in
  let b2 := (markRenewalFailureFor_locked (Demo.now + 10 * second) 0 b1).1 in
  ∃ st2, current_binding b2 0 = Some st2 ∧
    (Binding.Status (BindingState.metadata st2) = "expired" ∧ BindingState.terminal st2 = true).
Proof.
  intros b1 b2.
  apply (grace_deadline Demo.b3 0
    (BindingState.Build_bindingState (Demo.metadata 5 "2026-01-01T00:00:12Z") None 0 false 0)
    Demo.now (Demo.now + 10 * second) b1 b2
    (markRenewalFailureFor_locked Demo.now 0 Demo.b3).2
    (markRenewalFailureFor_locked (Demo.now + 10 * second) 0 b1).2 Demo.inv3);
    try (vm_compute; reflexivity); try apply surjective_pairing.
  unfold in_four_digit_years. vm_compute. split; done.
Defined.

Definition no_answer : result error renew_response := Err (ErrTransport "offline").

Lemma ensureLease_admits_witness :
  ∃ st, current_binding (ensureLease Demo.now no_answer 0 Demo.b3).1 0 = Some st ∧
    Binding.Status (BindingState.metadata st) = "active" ∧
    Binding.LeaseHealth (BindingState.metadata st) = "healthy" ∧
    (∃ text lease, Binding.LeaseUntil (BindingState.metadata st) = Some text ∧
       parse_rfc3339 text = Some lease ∧ Demo.now < lease) ∧
    (Binding.AbsoluteTTLUntil (BindingState.metadata st) = "" ∨
     ∃ abs, parse_rfc3339 (Binding.AbsoluteTTLUntil (BindingState.metadata st)) = Some abs ∧ Demo.now < abs).
Proof.
  apply (ensureLease_admits Demo.now no_answer 0 Demo.b3 _ Demo.inv3). vm_compute. reflexivity.
Defined.

(** The demonstration request past its turn. *)
Definition turn6 := waitForSendTurn_turn (Demo.now + second) Demo.b5 false "binding-1" 1.
Definition sys6 : fsys := FSys turn6.1 {[1 := ("binding-1", Turn)]} [].

Lemma run6 : rtc fstep (FSys Demo.b0 ∅ []) sys6.
Proof.
  eapply rtc_l; [apply fs_region; eapply (r_register Demo.b0 [Some Demo.token] "session-1"); [|apply surjective_pairing]|].
  { repeat constructor. intros bs [= <-]. reflexivity. }
  eapply rtc_l; [apply fs_region; eapply (r_peer Demo.b1 "session-1" Demo.nonce 1001); [reflexivity|apply surjective_pairing]|].
  eapply rtc_l; [apply fs_region; eapply (r_snapshot Demo.b2 Demo.now Demo.items Demo.staged);
    [vm_compute; reflexivity|apply surjective_pairing]|].
  eapply rtc_l; [eapply (fs_issue Demo.env Demo.b3 None Demo.nonce "session-1" "agent-remote:session-1" binding_scope
    Demo.b4 Demo.disk4 Demo.issued.2 ∅ []); [done|]|].
  { unfold Demo.b4, Demo.disk4, Demo.issued. by destruct (issue_locked _ _ _ _ _ _ _) as [[??]?]. }
  eapply rtc_l; [eapply (fs_consume (Demo.now + second) Demo.b4 "binding-1" 5 (Permit.RequestID Demo.permit) 1 100
    Demo.b5 Demo.consume.2 ∅ []); apply surjective_pairing|].
  rewrite Demo.consume_result.
  eapply rtc_l; [eapply (fs_turn (Demo.now + second) Demo.b5 "binding-1" 1 false turn6.1 turn6.2);
    [reflexivity|apply surjective_pairing]|].
  replace turn6.2 with TurnGranted by (vm_compute; reflexivity). apply rtc_refl.
Qed.

(** Its frame on the wire. *)
Definition sys7 : fsys := FSys turn6.1 {[1 := ("binding-1", Written)]} [Sent "binding-1" 1 true].

Lemma run7 : rtc fstep (FSys Demo.b0 ∅ []) sys7.
Proof.
  eapply rtc_r; [exact run6|]. pose proof (fs_send turn6.1 "binding-1" 1 {[1 := ("binding-1", Turn)]} [] eq_refl) as Hs.
  replace (is_some (Broker.active turn6.1 !! 1)) with true in Hs by (vm_compute; reflexivity).
  rewrite insert_singleton_eq in Hs. exact Hs.
Qed.

