(* ===== verification/Manifest.v ===== *)
(** * Skill manifests (src/internal/skillmanager/validate.go, manifest.go)

    A manifest is the ordered list of the entries of a skill tree.  This file
    models its validation: the portable path contract, the per-entry metadata
    rules, the order, parent and size checks of the main loop, and the
    resolution of the relative links inside the tree.  Link resolution is
    total without fuel: each followed link uses one of the forty hops and the
    steps between two links consume the pending components.

    Unicode normalisation comes from golang.org/x/text and is the parameter
    [IsNormalString]; nothing is assumed of it. *)

From S2P Require Import Prelude GoText GoJson GoUtf8.
From Stdlib.Strings Require Import Ascii.

(** ** Data *)

Record Entry := mkEntry {
  Path : string;
  Kind : string;
  Mode : Z;
  Size : Z;
  SHA256 : string;
  Target : string;
  ContentKind : string;
  Dependency : string
}.

#[global] Instance Entry_eq_dec : EqDecision Entry.
Proof. solve_decision. Defined.

Record Manifest := mkManifest { Version : Z; Entries : list Entry }.

Inductive manifest_error :=
  | BadVersionOrCount | UnsortedPaths | MissingParent | SizeOverflow
  | NotRelativePosix | NotCanonicalText | InvalidComponent
  | BadSizeOrMode | BadFileMetadata | FileMetadataOnNonFile | DirectoryWithTarget
  | UnsupportedKind | BadLinkTarget | BadRuntimeLink | BadOrdinaryLink
  | LinkTargetMissing | LinkEscapesRoot | LinkCycleLimit | LinkThroughNonDirectory
  | LinkToAncestor
  | ContentMismatch | DigestMismatch | ClassificationMismatch | NotAFile.

#[global] Instance manifest_error_eq_dec : EqDecision manifest_error.
Proof. solve_decision. Defined.

(** ** Paths and entries *)
Section Validation.
Context (IsNormalString : string → bool).

(** The permission bits 0o777. *)
Definition mode_bits : Z := 511.

Definition contentDigestPattern : string → bool := hex64.

Definition dependency_char (c : ascii) : bool :=
  is_lower c || is_digit c || has_char "_.-" c.

Definition dependencyPattern (s : string) : bool :=
  match s with
  | "" => false
  | String c rest => is_lower c && all_chars dependency_char rest && (len rest <=? 63)
  end.

Definition validPathText (value : string) : bool :=
  valid_utf8 (codes value) && (len value <=? 4096) && IsNormalString value &&
  all_runes (λ rune, negb (is_control rune)) 0 (codes value).

Definition valid_component (part : string) : bool :=
  non_empty part && negb (String.eqb part ".") && negb (String.eqb part "..") &&
  (len part <=? 255).

Definition ValidatePath (value : string) : result manifest_error unit :=
  require negb (String.eqb value "" || has_prefix "/" value || contains "\" value)
    orelse NotRelativePosix ;;
  require validPathText value orelse NotCanonicalText ;;
  require forallb valid_component (split_on "/" value) orelse InvalidComponent ;;
  Ok tt.

Definition validateEntry (entry : Entry) : result manifest_error unit :=
  _ ← ValidatePath (Path entry);
  require negb ((mode_bits <? Mode entry) || (Size entry <? 0)) orelse BadSizeOrMode ;;
  if String.eqb (Kind entry) "file" then
    require contentDigestPattern (SHA256 entry) &&
            (String.eqb (ContentKind entry) "text" || String.eqb (ContentKind entry) "binary") &&
            String.eqb (Target entry) "" && String.eqb (Dependency entry) ""
      orelse BadFileMetadata ;;
    Ok tt
  else
    require (Size entry =? 0) && String.eqb (SHA256 entry) "" &&
            String.eqb (ContentKind entry) "" orelse FileMetadataOnNonFile ;;
    if String.eqb (Kind entry) "directory" then
      require String.eqb (Target entry) "" && String.eqb (Dependency entry) ""
        orelse DirectoryWithTarget ;;
      Ok tt
    else
      require String.eqb (Kind entry) "symlink" || String.eqb (Kind entry) "runtime_link"
        orelse UnsupportedKind ;;
      require (Mode entry =? mode_bits) && non_empty (Target entry) &&
              negb (contains "\" (Target entry)) && validPathText (Target entry)
        orelse BadLinkTarget ;;
      if String.eqb (Kind entry) "runtime_link" then
        require has_prefix "/" (Target entry) && dependencyPattern (Dependency entry)
          orelse BadRuntimeLink ;;
        ValidatePath (trim_prefix "/" (Target entry))
      else
        require negb (has_prefix "/" (Target entry)) && String.eqb (Dependency entry) ""
          orelse BadOrdinaryLink ;;
        Ok tt.

(** ** Link resolution *)

(** One turn of the loop consumes a pending component; following a link
    spends one of [hops] and puts the components of its target in front. *)
Fixpoint walk (lookup : string → result manifest_error Entry) (hops : nat)
    : list string → list string → result manifest_error (list string) :=
  fix loop (pending resolved : list string) :=
    match pending with
    | [] => Ok resolved
    | part :: pending =>
        if String.eqb part "" || String.eqb part "." then loop pending resolved
        else if String.eqb part ".." then
          match resolved with
          | [] => Err LinkEscapesRoot
          | _ => loop pending (removelast resolved)
          end
        else
          target ← lookup (join "/" (resolved ++ [part]));
          if String.eqb (Kind target) "symlink" then
            match hops with
            | O => Err LinkCycleLimit
            | S hops' => walk lookup hops' (split_on "/" (Target target) ++ pending) resolved
            end
          else if (0 <? length pending)%nat && negb (String.eqb (Kind target) "directory")
          then Err LinkThroughNonDirectory
          else loop pending (resolved ++ [part])
    end.

Definition maxLinkHops : nat := 40.

Definition parent_parts (path : string) : list string := removelast (split_on "/" path).

Definition validateLinkLookup (entry : Entry) (lookup : string → result manifest_error Entry)
    : result manifest_error unit :=
  resolved ← walk lookup maxLinkHops (split_on "/" (Target entry)) (parent_parts (Path entry));
  require negb (bool_decide (resolved = []) ||
                has_prefix (join "/" resolved +:+ "/") (Path entry)) orelse LinkToAncestor ;;
  Ok tt.

Definition manifest_lookup (entries : gmap string Entry) (path : string)
    : result manifest_error Entry :=
  match entries !! path with Some target => Ok target | None => Err LinkTargetMissing end.

Definition validateLink (entry : Entry) (entries : gmap string Entry)
    : result manifest_error unit :=
  validateLinkLookup entry (manifest_lookup entries).

(** ** The manifest *)

Definition parents_ok (byPath : gmap string Entry) (parts : list string) : bool :=
  forallb (λ index,
    match byPath !! join "/" (take index parts) with
    | Some parent => String.eqb (Kind parent) "directory"
    | None => false
    end) (seq 1 (length parts - 1)).

Fixpoint validate_entries (entries : list Entry) (byPath : gmap string Entry)
    (previous : string) (total : Z) : result manifest_error (gmap string Entry) :=
  match entries with
  | [] => Ok byPath
  | entry :: rest =>
      _ ← validateEntry entry;
      require str_ltb previous (Path entry) orelse UnsortedPaths ;;
      require parents_ok byPath (split_on "/" (Path entry)) orelse MissingParent ;;
      require negb (max_int64 - Size entry <? total) orelse SizeOverflow ;;
      validate_entries rest (<[Path entry := entry]> byPath) (Path entry) (total + Size entry)
  end.

Fixpoint validate_links (entries : list Entry) (byPath : gmap string Entry)
    : result manifest_error unit :=
  match entries with
  | [] => Ok tt
  | entry :: rest =>
      _ ← (if String.eqb (Kind entry) "symlink" then validateLink entry byPath else Ok tt);
      validate_links rest byPath
  end.

Definition Validate (manifest : Manifest) : result manifest_error unit :=
  require (Version manifest =? 1) && (Z.of_nat (length (Entries manifest)) <=? 100000)
    orelse BadVersionOrCount ;;
  byPath ← validate_entries (Entries manifest) ∅ "" 0;
  validate_links (Entries manifest) byPath.

(** ** Digest and content *)

(** What [writeField] feeds the hash: the field and a zero byte. *)
Definition writeField (value : string) : string := value +:+ String (chr 0) "".

Definition entry_fields (entry : Entry) : list string :=
  [Path entry; Kind entry; itoa (Mode entry); itoa (Size entry); SHA256 entry;
   Target entry; ContentKind entry; Dependency entry].

(** The bytes hashed for a list of entries. *)
Definition digest_text (entries : list Entry) : string :=
  foldr (λ field text, writeField field +:+ text) ""
    ("agent-remote-skill-tree-v1" :: concat (map entry_fields entries)).

(** [hex_sha256] is the hexadecimal SHA-256 of a byte sequence. *)
Definition Digest (hex_sha256 : list Z → string) (manifest : Manifest)
    : result manifest_error string :=
  _ ← Validate manifest;
  Ok (hex_sha256 (codes (digest_text (Entries manifest)))).

End Validation.
