(* ===== verification/ManifestFacts.v ===== *)
(** * What manifest validation establishes

    [Validate] walks the entries once with a growing index; [well_formed]
    states the same contract without the loop: the order and uniqueness of
    paths, the presence of every parent directory, the total size, and the
    resolution of links as a relation ([resolves]).  The two agree exactly.
    The later sections derive what callers rely on: every link of a valid
    manifest leads to an entry of the same tree, and the digest text
    determines the tree. *)

From S2P Require Import Prelude GoText GoJson GoUtf8 Manifest.
From Stdlib.Strings Require Import Ascii.
From Stdlib Require Import Sorted.

(** ** Paths and their parents *)

(** A proper run of leading components is a proper prefix of the path. *)
Lemma join_cons_ne (p : string) (rest : list string) :
  rest ≠ [] → join "/" (p :: rest) = p +:+ String "/" (join "/" rest).
Proof. by destruct rest. Qed.

Lemma join_take parts i :
  (1 ≤ i < length parts)%nat →
  join "/" parts = join "/" (take i parts) +:+ String "/" (join "/" (drop i parts)).
Proof.
  revert i. induction parts as [|p parts IH]; intros i Hi; cbn in Hi; [lia|].
  destruct i as [|i]; [lia|].
  destruct parts as [|q parts]; cbn in Hi; [lia|]. destruct i as [|i].
  - rewrite (join_cons_ne p (q :: parts)) by done. done.
  - rewrite (join_cons_ne p (q :: parts)) by done. cbn [take drop].
    rewrite (join_cons_ne p (q :: take i parts)) by done.
    rewrite (IH (S i)) by (cbn; lia). cbn [take drop]. by rewrite string_app_assoc.
Qed.

Lemma parent_lt path i :
  (1 ≤ i < length (split_on "/" path))%nat → str_lt (join "/" (take i (split_on "/" path))) path.
Proof.
  intros Hi. rewrite <- (join_split_on "/" path) at 2.
  rewrite (join_take (split_on "/" path) i Hi). apply str_lt_extend.
Qed.

(** ** Resolution of links as a relation *)

Definition ordinary (part : string) : Prop := part ≠ "" ∧ part ≠ "." ∧ part ≠ "..".

(** [resolves entries h pending resolved final]: starting in the directory
    [resolved], the pending components lead to [final] through exactly [h]
    links, every component naming an entry of the tree. *)
Inductive resolves (entries : list Entry) :
    nat → list string → list string → list string → Prop :=
  | resolves_done resolved : resolves entries 0 [] resolved resolved
  | resolves_here h part pending resolved final :
      part = "" ∨ part = "." →
      resolves entries h pending resolved final →
      resolves entries h (part :: pending) resolved final
  | resolves_up h pending resolved last final :
      resolves entries h pending resolved final →
      resolves entries h (".." :: pending) (resolved ++ [last]) final
  | resolves_link h part pending resolved final target :
      ordinary part → target ∈ entries → Path target = join "/" (resolved ++ [part]) →
      Kind target = "symlink" →
      resolves entries h (split_on "/" (Target target) ++ pending) resolved final →
      resolves entries (S h) (part :: pending) resolved final
  | resolves_step h part pending resolved final target :
      ordinary part → target ∈ entries → Path target = join "/" (resolved ++ [part]) →
      Kind target ≠ "symlink" → pending = [] ∨ Kind target = "directory" →
      resolves entries h pending (resolved ++ [part]) final →
      resolves entries h (part :: pending) resolved final.

(** The index of a list of entries. *)
Definition represents (byPath : gmap string Entry) (entries : list Entry) : Prop :=
  ∀ k e, byPath !! k = Some e ↔ e ∈ entries ∧ Path e = k.

Section Walk.
Context (entries : list Entry) (byPath : gmap string Entry).
Context (Hrep : represents byPath entries).

Lemma walk_nil k resolved : walk (manifest_lookup byPath) k [] resolved = Ok resolved.
Proof. by destruct k. Qed.

(** One turn of the loop. *)
Lemma walk_cons k part pending resolved :
  walk (manifest_lookup byPath) k (part :: pending) resolved =
  if String.eqb part "" || String.eqb part "." then
    walk (manifest_lookup byPath) k pending resolved
  else if String.eqb part ".." then
    match resolved with
    | [] => Err LinkEscapesRoot
    | _ => walk (manifest_lookup byPath) k pending (removelast resolved)
    end
  else
    target ← manifest_lookup byPath (join "/" (resolved ++ [part]));
    if String.eqb (Kind target) "symlink" then
      match k with
      | O => Err LinkCycleLimit
      | S k' => walk (manifest_lookup byPath) k' (split_on "/" (Target target) ++ pending) resolved
      end
    else if (0 <? length pending)%nat && negb (String.eqb (Kind target) "directory")
    then Err LinkThroughNonDirectory
    else walk (manifest_lookup byPath) k pending (resolved ++ [part]).
Proof. by destruct k. Qed.

Lemma manifest_lookup_Ok path target :
  manifest_lookup byPath path = Ok target ↔ target ∈ entries ∧ Path target = path.
Proof.
  unfold manifest_lookup. rewrite <- (Hrep path target).
  destruct (byPath !! path); naive_solver.
Qed.

Lemma walk_resolves k pending resolved final :
  walk (manifest_lookup byPath) k pending resolved = Ok final →
  ∃ h, (h ≤ k)%nat ∧ resolves entries h pending resolved final.
Proof.
  revert pending resolved. induction k as [k IHk] using lt_wf_ind.
  induction pending as [|part pending IH]; intros resolved.
  { rewrite walk_nil. intros [= <-]. exists 0%nat. split; [lia|constructor]. }
  rewrite walk_cons.
  destruct (String.eqb part "" || String.eqb part ".") eqn:E1.
  { intros (h & ? & ?)%IH. exists h. split; [done|]. apply resolves_here; [|done].
    apply orb_true_iff in E1 as [E|E]; apply String.eqb_eq in E; auto. }
  apply orb_false_iff in E1 as [?%String.eqb_neq ?%String.eqb_neq].
  destruct (String.eqb_spec part "..") as [->|Hup].
  { destruct resolved as [|r rs]; [done|]. intros (h & ? & ?)%IH. exists h. split; [done|].
    rewrite (app_removelast_last "" (l := r :: rs)) by done. by apply resolves_up. }
  intros (target & Hlook & Hrest)%bind_Ok_inv.
  apply manifest_lookup_Ok in Hlook as [Hin Hpath].
  destruct (String.eqb_spec (Kind target) "symlink") as [Hk|Hk].
  - destruct k as [|k']; [done|]. apply IHk in Hrest as (h & ? & ?); [|lia].
    exists (S h). split; [lia|]. by eapply resolves_link.
  - destruct ((0 <? length pending)%nat && negb (String.eqb (Kind target) "directory")) eqn:E;
      [done|]. apply IH in Hrest as (h & ? & ?). exists h. split; [done|].
    eapply resolves_step; try done.
    apply andb_false_iff in E as [E|E].
    + left. apply Nat.ltb_ge in E. destruct pending; [done|cbn in E; lia].
    + right. by apply negb_false_iff, String.eqb_eq in E.
Qed.

Lemma resolves_walk h k pending resolved final :
  resolves entries h pending resolved final → (h ≤ k)%nat →
  walk (manifest_lookup byPath) k pending resolved = Ok final.
Proof.
  intros H. revert k. induction H as [resolved|h part pending resolved final Hp _ IH
    |h pending resolved last final _ IH
    |h part pending resolved final target (?&?&?) Hin Hpath Hk _ IH
    |h part pending resolved final target (?&?&?) Hin Hpath Hk Hd _ IH]; intros k Hle.
  - apply walk_nil.
  - rewrite walk_cons. destruct Hp as [->| ->]; cbn; by apply IH.
  - rewrite walk_cons. cbn. rewrite removelast_last.
    destruct (resolved ++ [last]) eqn:E; [by destruct resolved|]. by apply IH.
  - rewrite walk_cons. rewrite !(proj2 (String.eqb_neq part _)) by done. cbn [orb].
    rewrite (proj2 (manifest_lookup_Ok _ target)) by done. cbn.
    rewrite Hk. destruct k as [|k]; [lia|]. apply IH. lia.
  - rewrite walk_cons. rewrite !(proj2 (String.eqb_neq part _)) by done. cbn [orb].
    rewrite (proj2 (manifest_lookup_Ok _ target)) by done. cbn [mbind result_bind].
    rewrite (proj2 (String.eqb_neq (Kind target) _)) by done.
    destruct Hd as [->|Hd]; [by apply IH|]. rewrite Hd. cbn [String.eqb].
    rewrite andb_false_r. by apply IH.
Qed.

End Walk.

(** A link is fine when it resolves, within forty hops, to something other
    than the root or a directory above the link itself. *)
Definition link_ok (entries : list Entry) (entry : Entry) : Prop :=
  ∃ h final, (h ≤ maxLinkHops)%nat ∧
    resolves entries h (split_on "/" (Target entry)) (parent_parts (Path entry)) final ∧
    final ≠ [] ∧ has_prefix (join "/" final +:+ "/") (Path entry) = false.

Lemma validateLink_spec entries byPath entry :
  represents byPath entries → validateLink entry byPath = Ok tt ↔ link_ok entries entry.
Proof.
  intros Hrep. unfold validateLink, validateLinkLookup. split.
  - intros (final & Hw & H)%bind_Ok_inv. go_inv H.
    apply (walk_resolves entries) in Hw as (h & ? & ?); [|done].
    reflect_bools. exists h, final. naive_solver.
  - intros (h & final & ? & Hr & Hne & Hp).
    rewrite (resolves_walk entries byPath Hrep h maxLinkHops _ _ final) by done. cbn.
    rewrite bool_decide_eq_false_2, Hp by done. done.
Qed.

Lemma validate_links_spec entries byPath all :
  represents byPath all →
  validate_links entries byPath = Ok tt ↔
  ∀ e, e ∈ entries → Kind e = "symlink" → link_ok all e.
Proof.
  intros Hrep. induction entries as [|e rest IH]; cbn [validate_links].
  { split; [|done]. intros _ e He. by apply not_elem_of_nil in He. }
  destruct (String.eqb_spec (Kind e) "symlink") as [Hk|Hk].
  - split.
    + intros ([] & Hl & Hr)%bind_Ok_inv. rewrite validateLink_spec in Hl by done.
      rewrite IH in Hr. intros e' [->|He']%elem_of_cons; auto.
    + intros Hall. rewrite (proj2 (validateLink_spec all _ _ Hrep)) by set_solver. cbn [mbind result_bind].
      apply IH. set_solver.
  - cbn [mbind result_bind]. rewrite IH. set_solver.
Qed.

(** ** The contract of [Validate] *)

Definition total_size (entries : list Entry) : Z := foldr (λ e n, Size e + n) 0 entries.

Section WellFormed.
Context (IsNormalString : string → bool).
Abbreviation validateEntry := (validateEntry IsNormalString).
Abbreviation validate_entries := (validate_entries IsNormalString).
Abbreviation Validate := (Validate IsNormalString).

Definition has_parents (entries : list Entry) (entry : Entry) : Prop :=
  ∀ index, (1 ≤ index < length (split_on "/" (Path entry)))%nat →
    ∃ parent, parent ∈ entries ∧ Kind parent = "directory" ∧
      Path parent = join "/" (take index (split_on "/" (Path entry))).

Record well_formed (m : Manifest) : Prop := {
  wf_version : Version m = 1;
  wf_count : Z.of_nat (length (Entries m)) ≤ 100000;
  wf_entries : ∀ e, e ∈ Entries m → validateEntry e = Ok tt;
  wf_sorted : StronglySorted str_lt (map Path (Entries m));
  wf_parents : ∀ e, e ∈ Entries m → has_parents (Entries m) e;
  wf_size : total_size (Entries m) ≤ max_int64;
  wf_links : ∀ e, e ∈ Entries m → Kind e = "symlink" → link_ok (Entries m) e
}.

Lemma parents_ok_spec byPath done entry :
  represents byPath done →
  parents_ok byPath (split_on "/" (Path entry)) = true ↔ has_parents done entry.
Proof.
  intros Hrep. unfold parents_ok, has_parents. rewrite forallb_forall. split.
  - intros H index Hi. specialize (H index). rewrite in_seq in H. specialize (H ltac:(lia)).
    destruct (byPath !! _) as [p|] eqn:E; [|done]. apply Hrep in E as [? ?].
    apply String.eqb_eq in H. eauto.
  - intros H index Hi%in_seq. destruct (H index ltac:(lia)) as (p & Hin & Hk & Hpath).
    rewrite (proj2 (Hrep _ p)) by done. by rewrite Hk.
Qed.

Lemma validateEntry_nonempty e : validateEntry e = Ok tt → Path e ≠ "".
Proof.
  unfold Manifest.validateEntry, ValidatePath. intros H. go_inv H. go_inv Hrun.
  intros Hp. by rewrite Hp in Hguard0.
Qed.

Lemma validateEntry_size e : validateEntry e = Ok tt → 0 ≤ Size e.
Proof. unfold Manifest.validateEntry. intros H. go_inv H. reflect_bools. lia. Qed.

Lemma represents_insert byPath done e :
  represents byPath done → (∀ d, d ∈ done → str_lt (Path d) (Path e)) →
  represents (<[Path e := e]> byPath) (done ++ [e]).
Proof.
  intros Hrep Hlt k e'. rewrite elem_of_app, list_elem_of_singleton.
  destruct (decide (k = Path e)) as [->|Hne].
  - rewrite lookup_insert_eq. split; [naive_solver|].
    intros [[Hin| ->] Hp]; [|done]. apply Hlt in Hin. rewrite Hp in Hin.
    by apply irreflexivity in Hin; [|apply _].
  - rewrite lookup_insert_ne by done. rewrite (Hrep k e'). naive_solver.
Qed.

(** What the loop has established when it is at [entries]. *)
Record loop_state (done : list Entry) (byPath : gmap string Entry) (previous : string)
    (total : Z) : Prop := {
  ls_index : represents byPath done;
  ls_previous : ∀ d, d ∈ done → Path d = previous ∨ str_lt (Path d) previous;
  ls_total : total = total_size done
}.

Lemma total_size_app l1 l2 : total_size (l1 ++ l2) = total_size l1 + total_size l2.
Proof.
  unfold total_size. induction l1 as [|e l1 IH]; cbn [app foldr]; [lia|]. rewrite IH. lia.
Qed.

Lemma loop_state_step done byPath previous total e :
  loop_state done byPath previous total → str_lt previous (Path e) →
  loop_state (done ++ [e]) (<[Path e := e]> byPath) (Path e) (total + Size e).
Proof.
  intros [Hrep Hprev ->] Hlt.
  assert (∀ d, d ∈ done → str_lt (Path d) (Path e)) as Hall.
  { intros d [->|Hd]%Hprev; [done|by trans previous]. }
  split.
  - by apply represents_insert.
  - intros d. rewrite elem_of_app, list_elem_of_singleton. naive_solver.
  - rewrite total_size_app. cbn. lia.
Qed.

Lemma validate_entries_sound entries done byPath previous total byPath' :
  loop_state done byPath previous total → total ≤ max_int64 →
  validate_entries entries byPath previous total = Ok byPath' →
  represents byPath' (done ++ entries) ∧
  (∀ e, e ∈ entries → validateEntry e = Ok tt) ∧
  StronglySorted str_lt (map Path entries) ∧
  (∀ e, e ∈ entries → str_lt previous (Path e)) ∧
  (∀ e, e ∈ entries → has_parents (done ++ entries) e) ∧
  total_size (done ++ entries) ≤ max_int64.
Proof.
  revert done byPath previous total.
  induction entries as [|e rest IH]; intros done byPath previous total Hls Htot H; cbn in H.
  { apply Ok_inj in H as <-. destruct Hls as [? ? ->].
    rewrite app_nil_r. split_and!; try done; try set_solver. constructor. }
  go_inv H. destruct a. pose proof (loop_state_step _ _ _ _ e Hls Hguard) as Hls'.
  destruct (IH _ _ _ _ Hls') as (Hrep & Hok & Hsort & Hlt & Hpar & Hsize); [|exact H|].
  { reflect_bools. lia. }
  rewrite <- !(assoc_L (++)) in *. cbn [app] in *. split_and!; try done.
  - set_solver.
  - constructor; [done|]. apply list.Forall_forall. intros p (e' & -> & Hin)%list_elem_of_fmap. auto.
  - intros e' [->|Hin]%elem_of_cons; [done|]. trans (Path e); [done|auto].
  - intros e' [->|Hin]%elem_of_cons; [|auto].
    apply (proj1 (parents_ok_spec byPath done e (ls_index _ _ _ _ Hls))) in Hguard0.
    intros index Hi. destruct (Hguard0 index Hi) as (p & ? & ? & ?). exists p. set_solver.
Qed.

Lemma total_size_nonneg entries :
  (∀ e, e ∈ entries → validateEntry e = Ok tt) → 0 ≤ total_size entries.
Proof.
  unfold total_size. induction entries as [|e rest IH]; intros H; cbn [foldr]; [lia|].
  pose proof (validateEntry_size e (H e ltac:(set_solver))).
  specialize (IH ltac:(set_solver)). lia.
Qed.

(** A parent of the entry at the front cannot be that entry or a later one. *)
Lemma has_parents_done done e rest :
  (∀ e', e' ∈ rest → str_lt (Path e) (Path e')) →
  has_parents (done ++ e :: rest) e → has_parents done e.
Proof.
  intros Hlt Hp index Hi. destruct (Hp index Hi) as (p & Hin & Hk & Hpath).
  exists p. split; [|done]. pose proof (parent_lt (Path e) index Hi) as Hpl. rewrite <- Hpath in Hpl.
  apply elem_of_app in Hin as [|[->|Hin]%elem_of_cons]; [done| |].
  - by apply irreflexivity in Hpl; [|apply _].
  - apply Hlt in Hin. exfalso. apply (irreflexivity str_lt (Path e)). by trans (Path p).
Qed.

Lemma validate_entries_complete entries done byPath previous total :
  loop_state done byPath previous total →
  (∀ e, e ∈ entries → validateEntry e = Ok tt) →
  StronglySorted str_lt (map Path entries) →
  (∀ e, e ∈ entries → str_lt previous (Path e)) →
  (∀ e, e ∈ entries → has_parents (done ++ entries) e) →
  total_size (done ++ entries) ≤ max_int64 →
  ∃ byPath', validate_entries entries byPath previous total = Ok byPath' ∧
    represents byPath' (done ++ entries).
Proof.
  revert done byPath previous total.
  induction entries as [|e rest IH]; intros done byPath previous total Hls Hok Hsort Hlt Hpar Hsize.
  { exists byPath. rewrite app_nil_r. split; [done|]. apply Hls. }
  cbn [map] in Hsort. apply StronglySorted_inv in Hsort as [Hsort Hhead].
  assert (∀ e', e' ∈ rest → str_lt (Path e) (Path e')) as Hlt'.
  { intros e' Hin. rewrite list.Forall_forall in Hhead. apply Hhead.
    by apply list_elem_of_fmap_2. }
  pose proof (Hlt e ltac:(set_solver)) as Hpe.
  pose proof (loop_state_step _ _ _ _ e Hls Hpe) as Hls'.
  pose proof (total_size_nonneg rest ltac:(set_solver)) as Hrest.
  destruct (IH _ _ _ _ Hls') as (byPath' & Hrun & Hrep); try done.
  { intros e' Hin. apply Hok. by apply list_elem_of_further. }
  { intros e' Hin. rewrite <- (assoc_L (++)). cbn. apply Hpar. set_solver. }
  { by rewrite <- (assoc_L (++)). }
  exists byPath'. rewrite <- (assoc_L (++)) in Hrep. split; [|done].
  cbn [Manifest.validate_entries]. rewrite (Hok e) by set_solver. cbn [mbind result_bind].
  unfold str_lt in Hpe. rewrite Hpe.
  rewrite (proj2 (parents_ok_spec byPath done e (ls_index _ _ _ _ Hls))).
  2:{ eapply has_parents_done; [done|]. apply Hpar. set_solver. }
  replace (max_int64 - Size e <? total) with false; [done|].
  symmetry. apply Z.ltb_ge. rewrite (ls_total _ _ _ _ Hls), total_size_app in *.
  unfold total_size in Hsize at 2. cbn [foldr] in Hsize. fold (total_size rest) in Hsize. lia.
Qed.

Lemma loop_state_nil : loop_state [] ∅ "" 0.
Proof.
  split; [|set_solver|done]. intros k e. rewrite lookup_empty. set_solver.
Qed.

Lemma Validate_sound m : Validate m = Ok tt → well_formed m.
Proof.
  unfold Manifest.Validate. intros H. go_inv H. rename a into byPath. reflect_bools.
  destruct (validate_entries_sound _ _ _ _ _ _ loop_state_nil ltac:(done) Hrun)
    as (Hrep & ? & ? & _ & ? & ?). cbn [app] in *.
  rewrite validate_links_spec in H by exact Hrep. by split.
Qed.

Lemma Validate_complete m : well_formed m → Validate m = Ok tt.
Proof.
  intros [Hv Hc Hok Hsort Hpar Hsize Hlinks]. unfold Manifest.Validate.
  destruct (validate_entries_complete (Entries m) _ _ _ _ loop_state_nil)
    as (byPath & Hrun & Hrep); try done.
  { intros e He. apply empty_lt, validateEntry_nonempty. auto. }
  replace ((Version m =? 1) && (Z.of_nat (length (Entries m)) <=? 100000)) with true
    by (symmetry; reflect_bools; lia).
  rewrite Hrun. cbn [mbind result_bind app]. by rewrite validate_links_spec by exact Hrep.
Qed.

(** C3: manifest validation accepts exactly the well-formed trees: version 1,
    at most 100,000 entries, every entry valid on its own, paths strictly
    increasing byte-wise (hence unique), every ancestor of every path present
    as a directory entry, a total size that fits in 63 bits, and every
    relative link resolving inside the tree within forty hops to something
    that is not the root or an ancestor of the link.  The one-pass loop that
    only consults earlier entries decides this order-free statement. *)
Theorem Validate_spec m : Validate m = Ok tt ↔ well_formed m.
Proof. split; [apply Validate_sound|apply Validate_complete]. Qed.

(** ** Links stay inside the tree *)

(** Every leading run of components names a directory of the tree. *)
Definition directories (entries : list Entry) (parts : list string) : Prop :=
  ∀ i, (1 ≤ i ≤ length parts)%nat →
    ∃ p, p ∈ entries ∧ Kind p = "directory" ∧ Path p = join "/" (take i parts).

Lemma directories_app entries parts part target :
  directories entries parts → target ∈ entries → Kind target = "directory" →
  Path target = join "/" (parts ++ [part]) → directories entries (parts ++ [part]).
Proof.
  intros Hd Hin Hk Hp i Hi. rewrite length_app in Hi. cbn in Hi.
  destruct (decide (i ≤ length parts)%nat) as [Hle|Hgt].
  - rewrite take_app_le by done. apply Hd. lia.
  - exists target. rewrite take_ge by (rewrite length_app; cbn; lia). done.
Qed.

Lemma directories_removelast entries parts :
  (∀ i, (1 ≤ i < length parts)%nat →
     ∃ p, p ∈ entries ∧ Kind p = "directory" ∧ Path p = join "/" (take i parts)) →
  directories entries (removelast parts).
Proof.
  intros H i Hi. destruct parts as [|p parts] using rev_ind; [cbn in Hi; lia|].
  rewrite removelast_last in *. destruct (H i) as (q & ? & ? & Hq).
  { rewrite length_app. cbn. lia. }
  exists q. rewrite take_app_le in Hq by lia. done.
Qed.

Lemma resolves_entry entries h pending resolved final :
  resolves entries h pending resolved final → directories entries resolved → final ≠ [] →
  ∃ target, target ∈ entries ∧ Path target = join "/" final ∧ Kind target ≠ "symlink".
Proof.
  induction 1 as [resolved|h part pending resolved final Hp _ IH
    |h pending resolved last final _ IH
    |h part pending resolved final target ? Hin Hpath Hk _ IH
    |h part pending resolved final target ? Hin Hpath Hk Hd Hres IH]; intros Hdirs Hne; eauto.
  - destruct (Hdirs (length resolved)) as (p & ? & Hk & Hp).
    { destruct resolved; [done|cbn; lia]. }
    exists p. rewrite firstn_all in Hp. rewrite Hk. done.
  - apply IH; [|done]. intros i Hi. destruct (Hdirs i) as (p & ? & ? & Hp).
    { rewrite length_app. lia. }
    exists p. rewrite take_app_le in Hp by lia. done.
  - destruct Hd as [->|Hd].
    + inversion Hres; subst. eauto.
    + apply IH; [|done]. by eapply directories_app.
Qed.

(** in a manifest that validates, every relative link leads, through at
    most forty links and only through entries of the manifest, to an entry of
    the same manifest that is itself not a relative link: materialising the
    tree never creates a link that points outside it. *)
Theorem links_stay_inside m e :
  Validate m = Ok tt → e ∈ Entries m → Kind e = "symlink" →
  ∃ h final target,
    (h ≤ maxLinkHops)%nat ∧
    resolves (Entries m) h (split_on "/" (Target e)) (parent_parts (Path e)) final ∧
    target ∈ Entries m ∧ Path target = join "/" final ∧ Kind target ≠ "symlink" ∧
    has_prefix (Path target +:+ "/") (Path e) = false.
Proof.
  intros Hwf%Validate_sound Hin Hk.
  destruct (wf_links m Hwf e Hin Hk) as (h & final & Hh & Hres & Hne & Hanc).
  destruct (resolves_entry _ _ _ _ _ Hres) as (target & Ht & Hp & Hns); [|done|].
  { apply directories_removelast. apply (wf_parents m Hwf e Hin). }
  exists h, final, target. rewrite Hp. done.
Qed.

(** ** The digest identifies the tree *)

Definition nul_free (s : string) : Prop := 0 ∉ codes s.

Lemma nul_free_cons c s : nul_free (String c s) ↔ code c ≠ 0 ∧ nul_free s.
Proof. unfold nul_free. cbn. rewrite not_elem_of_cons. naive_solver. Qed.

Lemma all_chars_nul_free p s : p (chr 0) = false → all_chars p s = true → nul_free s.
Proof.
  intros Hp. induction s as [|c s IH]; cbn [all_chars]; intros H.
  { apply not_elem_of_nil. }
  apply andb_true_iff in H as [Hc Hs]. apply nul_free_cons. split; [|auto].
  intros H0. rewrite (code_inj c (chr 0)) in Hc by done. congruence.
Qed.

Lemma validPathText_nul_free s : validPathText IsNormalString s = true → nul_free s.
Proof.
  unfold validPathText. intros H. reflect_bools.
  eapply all_runes_no_byte; [| |by left|eassumption]; [lia|done].
Qed.

Lemma ValidatePath_nul_free s : ValidatePath IsNormalString s = Ok tt → nul_free s.
Proof. unfold ValidatePath. intros H. go_inv H. by apply validPathText_nul_free. Qed.

Lemma match_hex_all n s : match_classes (replicate n is_hex) s = true → all_chars is_hex s = true.
Proof.
  revert s. induction n as [|n IH]; intros [|c s]; cbn; try done.
  rewrite !andb_true_iff. naive_solver.
Qed.

Lemma itoa_nul_free z : 0 ≤ z ≤ max_uint64 → nul_free (itoa z).
Proof.
  intros Hz. destruct (itoa_spec z Hz) as (d & ds & -> & Hall & _).
  by eapply all_chars_nul_free; [|exact Hall].
Qed.

Lemma dependency_nul_free s : dependencyPattern s = true → nul_free s.
Proof.
  destruct s as [|c s]; [done|]. cbn. intros H. reflect_bools.
  apply (all_chars_nul_free dependency_char); [done|]. cbn. unfold dependency_char at 1.
  apply andb_true_iff. split; [|done]. by rewrite H.
Qed.

(** The shape of the fields of a valid entry, whatever its kind. *)
Lemma validateEntry_fields e :
  validateEntry e = Ok tt →
  ValidatePath IsNormalString (Path e) = Ok tt ∧ 0 ≤ Size e ∧ Mode e ≤ mode_bits ∧
  Kind e ∈ ["file"; "directory"; "symlink"; "runtime_link"] ∧
  (SHA256 e = "" ∨ hex64 (SHA256 e) = true) ∧
  ContentKind e ∈ [""; "text"; "binary"] ∧
  (Target e = "" ∨ validPathText IsNormalString (Target e) = true) ∧
  (Dependency e = "" ∨ dependencyPattern (Dependency e) = true).
Proof.
  unfold Manifest.validateEntry. intros H. go_inv H. destruct a. split; [done|].
  repeat (case_run; try done); reflect_bools; rewrite ?String.eqb_eq in *; split_and!;
    rewrite ?elem_of_cons; naive_solver.
Qed.

Lemma literal_nul_free (literals : list string) s :
  forallb (λ l, all_chars (λ c, negb (code c =? 0)) l) literals = true → s ∈ literals → nul_free s.
Proof.
  rewrite forallb_forall. intros H Hs%list_elem_of_In.
  by apply (all_chars_nul_free (λ c, negb (code c =? 0))); [|apply H].
Qed.

(** Every field of a valid entry is free of the separator. *)
Lemma entry_fields_nul_free e :
  validateEntry e = Ok tt → 0 ≤ Mode e → Size e ≤ max_int64 →
  Forall nul_free (entry_fields e).
Proof.
  intros (Hp & Hsz & Hm & Hk & Hsha & Hck & Ht & Hd)%validateEntry_fields Hm' Hsz'.
  assert (nul_free "") as Hnil by apply not_elem_of_nil.
  unfold entry_fields, mode_bits, max_int64 in *. repeat constructor.
  - by apply ValidatePath_nul_free.
  - by eapply literal_nul_free; [|exact Hk].
  - apply itoa_nul_free. unfold max_uint64. lia.
  - apply itoa_nul_free. unfold max_uint64. lia.
  - destruct Hsha as [->|Hsha]; [done|]. by apply match_hex_all, all_chars_nul_free in Hsha.
  - destruct Ht as [->|Ht]; [done|]. by apply validPathText_nul_free.
  - by eapply literal_nul_free; [|exact Hck].
  - destruct Hd as [->|Hd]; [done|]. by apply dependency_nul_free.
Qed.

Lemma writeField_inj s t r u :
  nul_free s → nul_free t → writeField s +:+ r = writeField t +:+ u → s = t ∧ r = u.
Proof.
  unfold writeField. rewrite !string_app_assoc. revert t.
  induction s as [|c s IH]; intros [|d t] Hs Ht H.
  - by injection H.
  - injection H as <- _. by apply nul_free_cons in Ht as [? _].
  - injection H as -> _. by apply nul_free_cons in Hs as [? _].
  - injection H as <- H. apply nul_free_cons in Hs as [_ Hs], Ht as [_ Ht].
    destruct (IH t Hs Ht H) as [-> ->]. done.
Qed.

Lemma writeField_nonempty s r : writeField s +:+ r ≠ "".
Proof. by destruct s. Qed.

Lemma fields_text_inj fs gs :
  Forall nul_free fs → Forall nul_free gs →
  foldr (λ f text, writeField f +:+ text) "" fs = foldr (λ f text, writeField f +:+ text) "" gs →
  fs = gs.
Proof.
  revert gs. induction fs as [|f fs IH]; intros [|g gs] Hf Hg H; cbn [foldr] in H.
  - done.
  - by apply eq_sym, writeField_nonempty in H.
  - by apply writeField_nonempty in H.
  - apply list.Forall_cons in Hf as [? ?], Hg as [? ?].
    apply writeField_inj in H as [-> H]; [|done..]. f_equal. auto.
Qed.

(** The machine types of the two integer fields, as far as validation does
    not already imply them: [Mode] is a [uint32]. *)
Definition unsigned_modes (m : Manifest) : Prop := ∀ e, e ∈ Entries m → 0 ≤ Mode e.

Lemma entry_fields_inj e e' rest rest' :
  validateEntry e = Ok tt → validateEntry e' = Ok tt → 0 ≤ Mode e → 0 ≤ Mode e' →
  Size e ≤ max_int64 → Size e' ≤ max_int64 →
  entry_fields e ++ rest = entry_fields e' ++ rest' → e = e' ∧ rest = rest'.
Proof.
  intros (_ & ? & ? & _)%validateEntry_fields (_ & ? & ? & _)%validateEntry_fields ? ? ? ? Heq.
  unfold mode_bits, max_int64 in *.
  assert (0 ≤ Mode e ≤ max_uint64 ∧ 0 ≤ Mode e' ≤ max_uint64 ∧
          0 ≤ Size e ≤ max_uint64 ∧ 0 ≤ Size e' ≤ max_uint64) as (Hm & Hm' & Hs & Hs')
    by (unfold max_uint64; lia).
  injection Heq as Hpath Hkind Hmode Hsize Hsha Htarget Hck Hdep Hrest.
  apply itoa_inj in Hmode; [|done..]. apply itoa_inj in Hsize; [|done..].
  split; [|done]. destruct e, e'. cbn in *. by subst.
Qed.

Lemma Size_le_total entries e :
  (∀ e, e ∈ entries → validateEntry e = Ok tt) → e ∈ entries → Size e ≤ total_size entries.
Proof.
  intros Hok. induction entries as [|d rest IH]; [set_solver|].
  pose proof (total_size_nonneg rest ltac:(set_solver)).
  pose proof (validateEntry_size d (Hok d ltac:(set_solver))).
  unfold total_size in *. cbn [foldr].
  intros [->|Hin]%elem_of_cons; [lia|]. specialize (IH ltac:(set_solver) Hin). lia.
Qed.

Definition encodable (e : Entry) : Prop :=
  validateEntry e = Ok tt ∧ 0 ≤ Mode e ∧ Size e ≤ max_int64.

Lemma entries_text_inj es fs :
  Forall encodable es → Forall encodable fs →
  concat (map entry_fields es) = concat (map entry_fields fs) → es = fs.
Proof.
  revert fs. induction es as [|e es IH]; intros [|f fs] He Hf H; try done.
  apply list.Forall_cons in He as [(? & ? & ?) ?], Hf as [(? & ? & ?) ?].
  cbn [map concat] in H. apply entry_fields_inj in H as [-> H]; [|done..]. f_equal. auto.
Qed.

Lemma wf_encodable m :
  well_formed m → unsigned_modes m → Forall encodable (Entries m).
Proof.
  intros Hwf Hm. apply list.Forall_forall. intros e He.
  pose proof (Size_le_total _ e (wf_entries m Hwf) He). pose proof (wf_size m Hwf).
  split_and!; [by apply (wf_entries m Hwf)|by apply Hm|lia].
Qed.

Lemma digest_text_inj m n :
  well_formed m → well_formed n → unsigned_modes m → unsigned_modes n →
  digest_text (Entries m) = digest_text (Entries n) → m = n.
Proof.
  intros Hwm Hwn Hm Hn H.
  pose proof (wf_encodable m Hwm Hm) as Em. pose proof (wf_encodable n Hwn Hn) as En.
  assert (∀ l, Forall encodable l → Forall nul_free (concat (map entry_fields l))) as Hfree.
  { induction 1 as [|e l (? & ? & ?) _ IH]; cbn [map concat]; [constructor|].
    apply Forall_app. split; [by apply entry_fields_nul_free|done]. }
  unfold digest_text in H. apply fields_text_inj in H.
  - injection H as H. apply entries_text_inj in H; [|done..].
    destruct m as [vm es], n as [vn fs]. cbn in *.
    pose proof (wf_version _ Hwm). pose proof (wf_version _ Hwn). cbn in *. by subst.
  - constructor; [by apply (all_chars_nul_free (λ c, negb (code c =? 0)))|auto].
  - constructor; [by apply (all_chars_nul_free (λ c, negb (code c =? 0)))|auto].
Qed.

(** C36: two manifests with the same tree digest are the same manifest, unless
    their digest texts are two different byte strings with the same SHA-256:
    the NUL-separated serialisation loses nothing of a valid tree. *)
Theorem Digest_identifies (hex_sha256 : list Z → string) m n d :
  unsigned_modes m → unsigned_modes n →
  Digest IsNormalString hex_sha256 m = Ok d → Digest IsNormalString hex_sha256 n = Ok d →
  m = n ∨
  (digest_text (Entries m) ≠ digest_text (Entries n) ∧
   hex_sha256 (codes (digest_text (Entries m))) =
   hex_sha256 (codes (digest_text (Entries n)))).
Proof.
  unfold Digest. intros Hm Hn H1 H2. go_inv H1. go_inv H2. destruct a, a0.
  apply Validate_sound in Hrun, Hrun0. apply Ok_inj in H1, H2.
  destruct (decide (digest_text (Entries m) = digest_text (Entries n))) as [Heq|Hne].
  - left. by apply digest_text_inj.
  - right. split; [done|congruence].
Qed.

End WellFormed.

(** ** A concrete tree *)

Definition sample_digest : string :=
  "e3b0c44298fc1c149afbf4c8996fb92427ae41e4649b934ca495991b7852b855".

(** A directory, a file in it and a link beside it that climbs and descends. *)
Definition sample_manifest : Manifest := mkManifest 1 [
  mkEntry "bin" "directory" 493 0 "" "" "" "";
  mkEntry "bin/run" "file" 493 0 sample_digest "" "text" "";
  mkEntry "bin/start" "symlink" 511 0 "" "../bin/./run" "" ""].

Definition always_normal (_ : string) : bool := true.

Lemma sample_manifest_valid : Validate always_normal sample_manifest = Ok tt.
Proof. vm_compute. reflexivity. Qed.

Lemma links_stay_inside_witness :
  ∃ h final target, (h ≤ maxLinkHops)%nat ∧
    resolves (Entries sample_manifest) h [".."; "bin"; "."; "run"] ["bin"] final ∧
    target ∈ Entries sample_manifest ∧ Path target = join "/" final ∧ Kind target ≠ "symlink" ∧
    has_prefix (Path target +:+ "/") "bin/start" = false.
Proof.
  refine (links_stay_inside always_normal sample_manifest
            (mkEntry "bin/start" "symlink" 511 0 "" "../bin/./run" "" "") _ _ _).
  - vm_compute. reflexivity.
  - right. right. left.
  - reflexivity.
Defined.

Lemma Digest_identifies_witness :
  sample_manifest = sample_manifest ∨
  (digest_text (Entries sample_manifest) ≠ digest_text (Entries sample_manifest) ∧
   sample_digest = sample_digest).
Proof.
  refine (Digest_identifies always_normal (λ _, sample_digest) sample_manifest sample_manifest
            sample_digest _ _ _ _).
  - intros e He. repeat (apply elem_of_cons in He as [->|He]; [cbn; lia|]).
    by apply not_elem_of_nil in He.
  - intros e He. repeat (apply elem_of_cons in He as [->|He]; [cbn; lia|]).
    by apply not_elem_of_nil in He.
  - vm_compute. reflexivity.
  - vm_compute. reflexivity.
Defined.
