(* ===== verification/ManifestCodec.v ===== *)
(** * Skill manifests: the JSON codec (src/internal/skillmanager/json.go, manifest.go)

    [MarshalJSON] writes a valid manifest; the [UnmarshalJSON] methods of
    entries and manifests take the raw text of a value, refuse texts that
    encoding/json would repair (invalid UTF-8, unpaired surrogates) as well as
    unknown and null members, and fill the wire defaults.  The theorem at the
    end: every manifest is read back from its text, in any member order and
    white space. *)

From S2P Require Import Prelude GoText GoJson GoUtf8 GoJsonText GoJsonValue GoJsonDecode GoJsonStruct GoJsonPrint.
From S2P Require Import Manifest ManifestFacts.
From Stdlib.Strings Require Import Ascii.

(** ** Raw texts *)

(** The loop of [validSurrogateEscapes]. *)
Fixpoint surrogates_paired (inString : bool) (data : string) : bool :=
  match data with
  | "" => true
  | String c rest =>
      if code c =? 34 then surrogates_paired (negb inString) rest
      else if negb inString || negb (Ascii.eqb c "\") then surrogates_paired inString rest
      else match rest with
      | "" => false
      | String e rest =>
          if negb (Ascii.eqb e "u") then surrogates_paired inString rest
          else match rest with
          | String a (String b (String c (String d rest))) =>
              match hex4 a b c d with
              | None => false
              | Some unit =>
                  if in_Z 56320 57343 unit then false
                  else if negb (in_Z 55296 56319 unit) then surrogates_paired inString rest
                  else match rest with
                  | String e (String u (String a (String b (String c (String d rest))))) =>
                      if Ascii.eqb e "\" && Ascii.eqb u "u" then
                        match hex4 a b c d with
                        | Some low => if in_Z 56320 57343 low then surrogates_paired inString rest else false
                        | None => false
                        end
                      else false
                  | _ => false
                  end
              end
          | _ => false
          end
      end
  end.

Definition validSurrogateEscapes (data : string) : bool := surrogates_paired false data.

(** The value of an accepted text. *)
Definition validateJSONObject (data : string) (allowed : list string) : option json :=
  if valid_utf8 (codes data) then
    j ← parse_json data;
    if validSurrogateEscapes data then
      match j with
      | JObj _ =>
          if forallb (λ name, bool_decide (name ∈ allowed) &&
                              match raw_member j name with
                              | Some (_, v) => negb (is_null v)
                              | None => false
                              end) (keys_of j)
          then Some j else None
      | _ => None
      end
    else None
  else None.

(** A [uint32] member. *)
Definition uint32_of_json (current : Z) (j : json) : option Z :=
  z ← uint64_of_json current j; if z <=? max_uint32 then Some z else None.

(** ** Entries *)

Definition entry_members : list (field Entry) := [
  str_field "path" Path (λ x r, r <| Path := x |>);
  str_field "kind" Kind (λ x r, r <| Kind := x |>);
  mkField "mode" Mode (λ x r, r <| Mode := x |>) (λ z, Some (VNum (itoa z)))
    (λ current _ j, uint32_of_json current j);
  int_field "size" Size (λ x r, r <| Size := x |>);
  str_field "sha256" SHA256 (λ x r, r <| SHA256 := x |>);
  str_field "target" Target (λ x r, r <| Target := x |>);
  str_field "content_kind" ContentKind (λ x r, r <| ContentKind := x |>);
  str_field "dependency" Dependency (λ x r, r <| Dependency := x |>)].

(** 0o644 *)
Definition default_mode : Z := 420.

Definition plain_entry : Entry := mkEntry "" "" default_mode 0 "" "" "" "".

Definition entry_names : list string :=
  ["path"; "kind"; "mode"; "size"; "sha256"; "target"; "content_kind"; "dependency"].

(** [Entry.UnmarshalJSON] *)
Definition entry_of_text (data : string) : option Entry :=
  j ← validateJSONObject data entry_names; decode_struct entry_members plain_entry j.

Definition manifest_entry_value (e : Entry) : value := encode_struct entry_members e.

(** ** Manifests *)

(** The elements of a slice decode their own texts. *)
Definition entries_of_json (raw : string) (j : json) : option (list Entry) :=
  match j with
  | JNull => Some []
  | JArr _ => texts ← array_texts raw; mapM entry_of_text texts
  | _ => None
  end.

Definition manifest_members : list (field Manifest) := [
  int_field "version" Version (λ x r, r <| Version := x |>);
  mkField "entries" Entries (λ x r, r <| Entries := x |>) (λ l, Some (VArr (map manifest_entry_value l)))
    (λ _ raw j, entries_of_json raw j)].

Definition manifest_value (m : Manifest) : value := encode_struct manifest_members m.

(** [Manifest.UnmarshalJSON] *)
Definition manifest_of_text (data : string) : option Manifest :=
  j ← validateJSONObject data ["version"; "entries"]; decode_struct manifest_members (mkManifest 1 []) j.

Section Codec.
Context (IsNormalString : string → bool).

Definition is_valid (m : Manifest) : bool :=
  match Validate IsNormalString m with Ok _ => true | Err _ => false end.

Definition MarshalJSON (m : Manifest) : option string :=
  if is_valid m then Some (print_value compact 0 (manifest_value m)) else None.

Definition DecodeManifest (data : string) : option Manifest :=
  m ← manifest_of_text data; if is_valid m then Some m else None.

End Codec.

(** ** Printed texts are accepted *)

Definition no_quote (c : ascii) : bool := negb (code c =? 34).

Lemma outside_string s rest : all_chars no_quote s = true → surrogates_paired false (s +:+ rest) = surrogates_paired false rest.
Proof.
  induction s as [|c s IH]; [done|]. cbn [all_chars]. unfold no_quote at 1. intros [Hc%negb_true_iff Hs]%andb_true_iff.
  change (String c s +:+ rest) with (String c (s +:+ rest)). cbn [surrogates_paired]. rewrite Hc. auto.
Qed.

Lemma paired_escape c rest :
  code c < 128 → surrogates_paired true (escape_char c +:+ rest) = surrogates_paired true rest.
Proof.
  destruct c as [[] [] [] [] [] [] [] []]; intros Hc; (reflexivity || (exfalso; vm_compute in Hc; done)).
Qed.

Lemma paired_high c rest : 128 ≤ code c → surrogates_paired true (String c rest) = surrogates_paired true rest.
Proof.
  destruct c as [[] [] [] [] [] [] [] []]; intros Hc; (reflexivity || (exfalso; vm_compute in Hc; congruence)).
Qed.

Lemma paired_text s skip rest :
  runes skip (codes s) = true →
  (∀ i x, (i < skip)%nat → codes s !! i = Some x → 128 ≤ x) →
  surrogates_paired true (escape_text skip s +:+ rest) = surrogates_paired true rest.
Proof.
  remember (String.length s) as n eqn:Hn. revert s skip Hn.
  induction n as [n IH] using lt_wf_ind. intros [|c s] skip -> Hv Hhigh; [done|].
  destruct skip as [|skip].
  2:{ cbn [escape_text all_runes codes String.length] in *. change (String c ?x +:+ ?y) with (String c (x +:+ y)).
      rewrite paired_high by (apply (Hhigh 0%nat); [lia|done]). apply (IH (String.length s)); [lia|done|done|].
      intros i x Hi Hx. apply (Hhigh (S i)); [lia|done]. }
  cbn [all_runes codes] in Hv. pose proof (utf8_size_head (String c s)) as Hhead.
  cbn [escape_text codes String.length] in *. rewrite Hhead in *. pose proof (code_range c).
  destruct (utf8_size (code c :: codes s)) as [|[|more]] eqn:Es; [done| |].
  - rewrite string_app_assoc, paired_escape by (apply (utf8_size_one _ (codes s)); [lia|done]).
    apply (IH (String.length s)); [lia|done|done|intros; lia].
  - destruct (utf8_size_multi _ _ _ Es) as [Hc Hmore].
    assert (Hplain : surrogates_paired true (String c (escape_text (S more) s) +:+ rest) = surrogates_paired true rest).
    { change (String c ?x +:+ ?y) with (String c (x +:+ y)). rewrite paired_high by done.
      apply (IH (String.length s)); [lia|done|done|done]. }
    destruct s as [|b [|d s]]; [done|done|].
    destruct (is_line_separator c b d) eqn:El; [|done].
    unfold is_line_separator in El. apply andb_true_iff in El as [[Ec%Z.eqb_eq Eb%Z.eqb_eq]%andb_true_iff Ed].
    assert (more = 1%nat) as ->.
    { cbn [utf8_size codes] in Es. rewrite Ec in Es.
      change ((if in_Z 128 191 (code b) && is_cont (code d) then 3%nat else 0%nat) = S (S more)) in Es.
      destruct (_ && _); [by injection Es|done]. }
    rewrite string_app_assoc. transitivity (surrogates_paired true (escape_text 0 s +:+ rest)).
    + by destruct (code d =? 168).
    + apply (IH (String.length s)); [cbn; lia|done|done|intros; lia].
Qed.

Lemma paired_print st d v rest :
  white_style st → faithful v → surrogates_paired false (print_value st d v +:+ rest) = surrogates_paired false rest.
Proof.
  intros Hst Hf. revert rest.
  apply (print_value_pieces st (λ s, ∀ rest, surrogates_paired false (s +:+ rest) = surrogates_paired false rest)); [..|done].
  - intros a b Ha Hb rest. by rewrite string_app_assoc, Ha, Hb.
  - done.
  - intros s Hs rest. apply outside_string. by repeat (apply elem_of_cons in Hs as [->|Hs]; [done|]); apply not_elem_of_nil in Hs.
  - intros n rest. apply outside_string. eapply all_chars_impl; [|apply Hst]. by intros [[] [] [] [] [] [] [] []].
  - intros rest. apply outside_string. eapply all_chars_impl; [|apply Hst]. by intros [[] [] [] [] [] [] [] []].
  - intros l Hl%number_chars rest. apply outside_string. revert Hl. apply all_chars_impl. by intros [[] [] [] [] [] [] [] []].
  - intros s Hs rest. unfold quote. change (String quote_char ?x +:+ ?y) with (String quote_char (x +:+ y)).
    rewrite string_app_assoc. change (surrogates_paired false (String quote_char ?x)) with (surrogates_paired true x).
    rewrite paired_text by (done || (intros; lia)). done.
Qed.

Lemma paired_printed st d v : white_style st → faithful v → validSurrogateEscapes (print_value st d v) = true.
Proof. intros. rewrite <- (string_app_nil (print_value st d v)). unfold validSurrogateEscapes. by rewrite paired_print. Qed.

(** ** Values read back *)

Lemma validate_object st d allowed l v :
  white_style st → (height v ≤ max_depth)%nat → faithful v → same (VObj l) v → distinct (VObj l) →
  map fst l ⊆ allowed → Forall (λ m, nullish m.2 = false) l →
  validateJSONObject (print_value st d v) allowed = Some (tree st d v).
Proof.
  intros Hst Hh Hf Hs Hd Hin Hnull. unfold validateJSONObject.
  rewrite print_utf8, parse_printed by done. cbn [mbind option_bind]. rewrite paired_printed by done.
  pose proof (same_distinct _ _ Hs Hd) as Hd'. destruct (same_keys _ _ Hs) as (l' & -> & Hk & Hx).
  apply distinct_obj in Hd' as [Hn _].
  assert (Hall : forallb (λ name, bool_decide (name ∈ allowed) &&
      match raw_member (tree st d (VObj l')) name with Some (_, v) => negb (is_null v) | None => false end)
      (keys_of (tree st d (VObj l'))) = true).
  { apply forallb_forall. intros name Hname. cbn [tree keys_of] in Hname. rewrite map_map in Hname.
    cbn [fst] in Hname. rewrite remove_dups_id in Hname by done.
    apply list_elem_of_In, list_elem_of_fmap in Hname as ([k x] & -> & Hin'). cbn [fst].
    rewrite (raw_member_tree st d l' k x) by done. apply andb_true_iff. split.
    - apply bool_decide_eq_true, Hin. rewrite <- Hk. by apply (list_elem_of_fmap_2 fst l' (k, x)).
    - destruct (Hx k x Hin') as (y & Hy & Hsy). rewrite list.Forall_forall in Hnull. specialize (Hnull _ Hy).
      cbn in Hnull. rewrite <- (same_nullish _ _ Hsy) in Hnull. by destruct x. }
  cbn [tree] in *. by rewrite Hall.
Qed.

(** What the Go types and [validateEntry] leave of the texts and numbers. *)
Definition entry_text (e : Entry) : Prop :=
  Forall (λ s, valid_utf8 (codes s) = true)
    [Path e; Kind e; SHA256 e; Target e; ContentKind e; Dependency e].

Definition entry_numbers (e : Entry) : Prop := 0 ≤ Mode e ≤ max_uint32 ∧ 0 ≤ Size e ≤ max_int64.

Lemma carries_mode e :
  0 ≤ Mode e ≤ max_uint32 →
  carries e (mkField "mode" Mode (λ x r, r <| Mode := x |>) (λ z, Some (VNum (itoa z)))
    (λ current _ j, uint32_of_json current j)).
Proof.
  intros Hm. assert (0 ≤ Mode e ≤ max_uint64) by (unfold max_uint64, max_uint32 in *; lia).
  split; [done|]. intros v [= <-]. split_and!; [by apply number_itoa|done|].
  intros v' current st d Hst. inversion 1; subst. cbn [fdec tree fget]. unfold uint32_of_json.
  rewrite uint_of_itoa by done. cbn [mbind option_bind]. by rewrite (proj2 (Z.leb_le _ _)) by lia.
Qed.

Lemma entry_plain e :
  entry_text e → entry_numbers e →
  carried (manifest_entry_value e) (λ current _, decode_struct entry_members current) e.
Proof.
  intros Ht [Hm Hs]. unfold entry_text in Ht. decompose_Forall_hyps.
  apply struct_carried_into; [solve_disjoint| |by destruct e].
  repeat (apply Forall_cons_2; [first [by apply carries_str|by apply carries_int|by apply carries_mode]|]).
  constructor.
Qed.

Lemma entry_height e : (height (manifest_entry_value e) ≤ 1)%nat.
Proof. apply struct_height. solve_heights. Qed.

Lemma entry_carried e :
  entry_text e → entry_numbers e →
  carried (manifest_entry_value e) (λ _ raw _, entry_of_text raw) e.
Proof.
  intros Ht Hn. destruct (entry_plain e Ht Hn) as (Hf & Hd & Hdec). split_and!; [done|done|].
  intros v current st d Hst Hs. pose proof (same_height _ _ Hs). pose proof (entry_height e).
  unfold entry_of_text. rewrite (validate_object st d entry_names (flat_map (encode_field e) entry_members) v).
  - cbn [mbind option_bind]. by apply (Hdec v plain_entry).
  - done.
  - unfold max_depth. lia.
  - by eapply same_faithful.
  - done.
  - done.
  - destruct e. cbn. set_solver.
  - destruct e. repeat (constructor; [done|]). constructor.
Qed.

Lemma mapM_texts st d l vs :
  white_style st → Forall (λ x, carried (manifest_entry_value x) (λ _ raw _, entry_of_text raw) x) l →
  Forall2 same (map manifest_entry_value l) vs → mapM entry_of_text (map (print_value st d) vs) = Some l.
Proof.
  intros Hst Hl. revert vs. induction Hl as [|x l (_ & _ & Hx) _ IH]; cbn [map]; intros vs Hv.
  { apply Forall2_nil_inv_l in Hv as ->. done. }
  apply Forall2_cons_inv_l in Hv as (v & vs' & Hs & Hv & ->). cbn [map mapM].
  rewrite (Hx v x st d Hst Hs). cbn [mbind option_bind]. by rewrite IH.
Qed.

Lemma carries_entries m :
  Forall (λ e, entry_text e ∧ entry_numbers e) (Entries m) →
  carries m (mkField "entries" Entries (λ x r, r <| Entries := x |>)
    (λ l, Some (VArr (map manifest_entry_value l))) (λ _ raw j, entries_of_json raw j)).
Proof.
  intros He. split; [done|]. intros v [= <-].
  assert (Hc : Forall (λ x, carried (manifest_entry_value x) (λ _ raw _, entry_of_text raw) x) (Entries m)).
  { eapply list.Forall_impl; [exact He|]. intros e [Ht Hn]. by apply entry_carried. }
  split_and!.
  - apply faithful_arr, list.Forall_forall. intros v (e & -> & Hin)%list_elem_of_fmap.
    rewrite list.Forall_forall in Hc. by apply Hc.
  - apply distinct_arr, list.Forall_forall. intros v (e & -> & Hin)%list_elem_of_fmap.
    rewrite list.Forall_forall in Hc. by apply Hc.
  - intros v current st d Hst Hs. pose proof (same_height _ _ Hs) as Hh.
    destruct (same_arr_inv _ _ Hs) as (vs & -> & Hvs). cbn [fdec tree entries_of_json].
    assert (Hfv : Forall faithful vs).
    { apply faithful_arr. apply (same_faithful _ _ Hs), faithful_arr, list.Forall_forall.
      intros v (e & -> & Hin)%list_elem_of_fmap. rewrite list.Forall_forall in Hc. by apply Hc. }
    rewrite array_texts_printed; [cbn [mbind option_bind]; by apply mapM_texts|done|done|].
    cbn [height] in Hh. transitivity 1%nat; [|unfold max_depth; lia].
    transitivity (list_max (map height (map manifest_entry_value (Entries m)))); [lia|].
    apply list_max_le, list.Forall_forall. rewrite map_map. intros h (e & -> & _)%list_elem_of_fmap. apply entry_height.
Qed.

(** ** Manifests read back *)

Definition printable_manifest (m : Manifest) : Prop :=
  0 ≤ Version m ≤ max_int64 ∧ Forall (λ e, entry_text e ∧ entry_numbers e) (Entries m).

Lemma manifest_height m : (height (manifest_value m) ≤ 3)%nat.
Proof.
  apply struct_height. repeat (apply Forall_cons_2; [intros v [= <-]|]); [cbn; lia| |constructor].
  cbn [height]. apply le_n_S, list_max_le, list.Forall_forall. rewrite map_map.
  intros h (e & -> & _)%list_elem_of_fmap. apply entry_height.
Qed.

Lemma manifest_carried m :
  printable_manifest m → carried (manifest_value m) (λ _ raw _, manifest_of_text raw) m.
Proof.
  intros [Hv He].
  assert (Hc : carried (manifest_value m) (λ current _, decode_struct manifest_members current) m).
  { apply struct_carried_into; [solve_disjoint| |by destruct m].
    apply Forall_cons_2; [by apply carries_int|]. apply Forall_cons_2; [by apply carries_entries|]. constructor. }
  destruct Hc as (Hf & Hd & Hdec). split_and!; [done|done|].
  intros v current st d Hst Hs. pose proof (same_height _ _ Hs). pose proof (manifest_height m).
  unfold manifest_of_text.
  rewrite (validate_object st d ["version"; "entries"] (flat_map (encode_field m) manifest_members) v).
  - cbn [mbind option_bind]. by apply (Hdec v (mkManifest 1 [])).
  - done.
  - unfold max_depth. lia.
  - by eapply same_faithful.
  - done.
  - done.
  - destruct m. cbn. set_solver.
  - destruct m. repeat (constructor; [done|]). constructor.
Qed.

Section RoundTrip.
Context (IsNormalString : string → bool).

Lemma is_valid_iff m : is_valid IsNormalString m = true ↔ Validate IsNormalString m = Ok tt.
Proof. unfold is_valid. destruct (Validate _ m) as [[]|]; split; done. Qed.

Lemma path_text s : ValidatePath IsNormalString s = Ok tt → valid_utf8 (codes s) = true.
Proof. unfold ValidatePath. intros H. go_inv H. unfold validPathText in *. by reflect_bools. Qed.

Lemma dependency_text s : dependencyPattern s = true → valid_utf8 (codes s) = true.
Proof.
  intros Hs. apply ascii_utf8. destruct s as [|c s]; [done|]. cbn in *.
  apply andb_true_iff in Hs as [[Hc Hs]%andb_true_iff _]. apply andb_true_iff. split.
  - revert Hc. clear. by destruct c as [[] [] [] [] [] [] [] []].
  - revert Hs. apply all_chars_impl. clear. intros c. by destruct c as [[] [] [] [] [] [] [] []].
Qed.

Lemma valid_entry_text e :
  validateEntry IsNormalString e = Ok tt → 0 ≤ Mode e → Size e ≤ max_int64 → entry_text e ∧ entry_numbers e.
Proof.
  intros (Hp & Hsz & Hm & Hk & Hsha & Hck & Ht & Hd)%validateEntry_fields Hm' Hs. split.
  - repeat (apply Forall_cons_2; [|]); [| | | | | |constructor].
    + by apply path_text.
    + by repeat (apply elem_of_cons in Hk as [->|Hk]; [done|]); apply not_elem_of_nil in Hk.
    + destruct Hsha as [->|Hsha]; [done|]. apply ascii_utf8. eapply classes_ascii; [|exact Hsha].
      apply list.Forall_replicate. exact hex_ascii.
    + destruct Ht as [->|Ht]; [done|]. unfold validPathText in Ht. by reflect_bools.
    + by repeat (apply elem_of_cons in Hck as [->|Hck]; [done|]); apply not_elem_of_nil in Hck.
    + destruct Hd as [->|Hd]; [done|]. by apply dependency_text.
  - split; [|done]. unfold mode_bits, max_uint32 in *. lia.
Qed.

Lemma valid_manifest_text m : Validate IsNormalString m = Ok tt → unsigned_modes m → printable_manifest m.
Proof.
  intros Hv Hm. apply Validate_sound in Hv as [Hver _ He _ _ Hsize _]. split.
  - rewrite Hver. unfold max_int64. lia.
  - apply list.Forall_forall. intros e Hin. apply valid_entry_text; [by apply He|by apply Hm|].
    pose proof (Size_le_total IsNormalString (Entries m) e He Hin). lia.
Qed.

(** C22: a valid manifest is marshalled, and the text decodes to the very same
    manifest; so does every other printing of it, with members in any order
    and any white space between the tokens. *)
Theorem manifest_codec_roundtrip m :
  unsigned_modes m → Validate IsNormalString m = Ok tt →
  MarshalJSON IsNormalString m = Some (print_value compact 0 (manifest_value m)) ∧
  ∀ st v, white_style st → same (manifest_value m) v →
    DecodeManifest IsNormalString (print_value st 0 v) = Some m.
Proof.
  intros Hm Hv. pose proof (proj2 (is_valid_iff m) Hv) as Hb. unfold MarshalJSON. rewrite Hb. split; [done|].
  intros st v Hst Hs. destruct (manifest_carried m (valid_manifest_text m Hv Hm)) as (_ & _ & Hdec).
  unfold DecodeManifest. rewrite (Hdec v m st 0%nat Hst Hs). cbn [mbind option_bind]. by rewrite Hb.
Qed.

(** What is decoded is valid. *)
Lemma DecodeManifest_valid data m :
  DecodeManifest IsNormalString data = Some m → Validate IsNormalString m = Ok tt.
Proof.
  unfold DecodeManifest. destruct (manifest_of_text data) as [m'|]; [|done]. cbn [mbind option_bind].
  destruct (is_valid IsNormalString m') eqn:E; [|done]. intros [= <-]. by apply is_valid_iff.
Qed.
End RoundTrip.

Lemma sample_unsigned : unsigned_modes sample_manifest.
Proof.
  intros e He. repeat (apply elem_of_cons in He as [->|He]; [cbn; lia|]). by apply not_elem_of_nil in He.
Qed.

Lemma manifest_codec_witness :
  MarshalJSON always_normal sample_manifest = Some (print_value compact 0 (manifest_value sample_manifest)) ∧
  ∀ st v, white_style st → same (manifest_value sample_manifest) v →
    DecodeManifest always_normal (print_value st 0 v) = Some sample_manifest.
Proof. apply (manifest_codec_roundtrip always_normal sample_manifest sample_unsigned sample_manifest_valid). Defined.

(** Apostrophes stand for quotation marks. *)
Fixpoint quoted (s : string) : string :=
  match s with
  | "" => ""
  | String c rest => String (if Ascii.eqb c "'" then chr 34 else c) (quoted rest)
  end.

(** Defaults are filled in; an unpaired surrogate escape, which encoding/json
    would replace, is refused. *)
Example short_text :
  DecodeManifest always_normal (quoted "{'entries':[{'path':'a','kind':'directory'}]}") =
  Some (mkManifest 1 [mkEntry "a" "directory" 420 0 "" "" "" ""]).
Proof. reflexivity. Qed.

Example unpaired_refused :
  DecodeManifest always_normal (quoted "{'entries':[{'path':'a\ud800','kind':'directory'}]}") = None.
Proof. reflexivity. Qed.
