(* ===== verification/SkillContent.v ===== *)
(** * Skill content verification
      (src/internal/skillmanager/content_verifier.go, manifest.go)

    [VerifyContent] checks a whole file; [ContentVerifier] checks a stream of
    chunks and keeps only the undecided tail of a split rune.  The theorem at
    the end says that the two agree for every way of cutting a file into
    chunks.  Content is a sequence of byte codes.  A running hash is the
    sequence of bytes written to it, and [hex_sha256] the hexadecimal digest
    of such a sequence. *)

From S2P Require Import Prelude GoText GoJson GoUtf8 Manifest.

Section Content.
Context (IsNormalString : string → bool) (hex_sha256 : list Z → string).

Definition has_nul (content : list Z) : bool := existsb (Z.eqb 0) content.

Definition is_text (content : list Z) : bool := valid_utf8 content && negb (has_nul content).

Definition VerifyContent (entry : Entry) (content : list Z) : result manifest_error unit :=
  _ ← validateEntry IsNormalString entry;
  require String.eqb (Kind entry) "file" && (Size entry =? Z.of_nat (length content))
    orelse ContentMismatch ;;
  require String.eqb (hex_sha256 content) (SHA256 entry) orelse DigestMismatch ;;
  require Bool.eqb (String.eqb (ContentKind entry) "text") (is_text content)
    orelse ClassificationMismatch ;;
  Ok tt.

(** ** The incremental classifier *)

Record textClassifier := mkClassifier { tail : list Z; binary : bool }.

(** How the loop over one chunk ends. *)
Inductive scan_end := Clean | Undecided (rest : list Z) | Malformed.

(** The loop of [update]; [skip] counts the bytes of the decoded rune that
    the slice expression [chunk[size:]] jumps over. *)
Fixpoint scan (skip : nat) (chunk : list Z) : scan_end :=
  match chunk with
  | [] => Clean
  | first :: rest =>
      match skip with
      | S skip' => scan skip' rest
      | O =>
          if in_Z 0 127 first then scan 0 rest
          else if negb (full_rune chunk) then Undecided chunk
          else match utf8_size chunk with
               | O => Malformed
               | S more => scan more rest
               end
      end
  end.

Definition update (c : textClassifier) (chunk : list Z) : textClassifier :=
  if binary c then c
  else if has_nul chunk then mkClassifier (tail c) true
  else match scan 0 (tail c ++ chunk) with
       | Clean => mkClassifier [] false
       | Undecided rest => mkClassifier rest false
       | Malformed => mkClassifier [] true
       end.

Definition isText (c : textClassifier) : bool :=
  negb (binary c) && (length (tail c) =? 0)%nat.

(** ** The stream verifier *)

Record ContentVerifier := mkVerifier {
  entry : Entry;
  digest : list Z;
  classifier : textClassifier;
  count : Z;
  failed : bool
}.

Definition NewContentVerifier (e : Entry) : result manifest_error ContentVerifier :=
  _ ← validateEntry IsNormalString e;
  require String.eqb (Kind e) "file" orelse NotAFile ;;
  Ok (mkVerifier e [] (mkClassifier [] false) 0 false).

(** The new verifier and whether the bytes were accepted. *)
Definition Write (v : ContentVerifier) (data : list Z) : ContentVerifier * bool :=
  if failed v || (Size (entry v) - count v <? Z.of_nat (length data))
  then (v <| failed := true |>, false)
  else (v <| count := count v + Z.of_nat (length data) |>
          <| digest := digest v ++ data |>
          <| classifier := update (classifier v) data |>, true).

Definition Finish (v : ContentVerifier) : result manifest_error unit :=
  require negb (failed v || negb (count v =? Size (entry v)) ||
                negb (String.eqb (hex_sha256 (digest v)) (SHA256 (entry v))) ||
                negb (Bool.eqb (String.eqb (ContentKind (entry v)) "text")
                               (isText (classifier v))))
    orelse ContentMismatch ;;
  Ok tt.

(** A whole stream: every chunk is written whatever the earlier answers. *)
Definition verify_stream (e : Entry) (chunks : list (list Z)) : result manifest_error unit :=
  v ← NewContentVerifier e;
  Finish (foldl (λ v data, (Write v data).1) v chunks).

(** ** The classifier *)

Lemma scan_spec skip l suffix :
  (skip <= length l)%nat →
  match scan skip l with
  | Clean => runes skip (l ++ suffix) = runes 0 suffix
  | Undecided rest =>
      full_rune rest = false ∧
      runes skip (l ++ suffix) = runes 0 (rest ++ suffix)
  | Malformed => runes skip (l ++ suffix) = false
  end.
Proof.
  revert skip. induction l as [|a l IH]; intros skip Hle; cbn [length] in Hle.
  { by replace skip with 0%nat by lia. }
  destruct skip as [|skip]; cbn [scan app].
  2:{ apply (IH skip). lia. }
  destruct (in_Z 0 127 a) eqn:Ea.
  { specialize (IH 0%nat ltac:(lia)). cbn [all_runes].
    assert (∀ r, utf8_size (a :: r) = 1%nat) as H1 by (intros; cbn [utf8_size]; by rewrite Ea).
    destruct (scan 0 l); cbn [all_runes]; rewrite ?H1; cbn; try done. }
  destruct (full_rune (a :: l)) eqn:Ef; cbn [negb].
  - destruct (utf8_size (a :: l)) as [|more] eqn:Es.
    + cbn [all_runes]. by rewrite (utf8_size_full (a :: l) suffix Ef Es : utf8_size (a :: l ++ suffix) = _).
    + pose proof (utf8_size_le (a :: l)) as Hw. rewrite Es in Hw. cbn in Hw.
      specialize (IH more ltac:(lia)).
      assert (runes 0 (a :: l ++ suffix) = runes more (l ++ suffix)) as Hstep.
      { cbn [all_runes]. by rewrite (utf8_size_app (a :: l) suffix more Es : utf8_size (a :: l ++ suffix) = _). }
      rewrite Hstep. exact IH.
  - done.
Qed.

Lemma has_nul_app l k : has_nul (l ++ k) = has_nul l || has_nul k.
Proof. apply existsb_app. Qed.

(** What the classifier knows after the bytes [seen]. *)
Definition tracks (c : textClassifier) (seen : list Z) : Prop :=
  if binary c then ∀ suffix, is_text (seen ++ suffix) = false
  else has_nul seen = false ∧ (tail c = [] ∨ full_rune (tail c) = false) ∧
       ∀ suffix, valid_utf8 (seen ++ suffix) = valid_utf8 (tail c ++ suffix).

Lemma update_tracks c seen chunk : tracks c seen → tracks (update c chunk) (seen ++ chunk).
Proof.
  unfold tracks, update. destruct (binary c) eqn:Eb.
  { rewrite Eb. intros H suffix. rewrite <- (assoc_L (++)). apply H. }
  intros (Hn & Ht & Hv). destruct (has_nul chunk) eqn:En; cbn [binary tail].
  { intros suffix. unfold is_text. rewrite !has_nul_app, En, orb_true_r. apply andb_false_r. }
  pose proof (λ suffix, scan_spec 0 (tail c ++ chunk) suffix ltac:(lia)) as Hscan.
  assert (∀ suffix, valid_utf8 ((seen ++ chunk) ++ suffix) = runes 0 ((tail c ++ chunk) ++ suffix))
    as Hseen by (intros suffix; rewrite <- !(assoc_L (++)); apply Hv).
  destruct (scan 0 (tail c ++ chunk)) as [|rest|]; cbn [binary tail].
  - rewrite has_nul_app, Hn, En. split_and!; [done|by left|].
    intros suffix. rewrite Hseen. apply Hscan.
  - rewrite has_nul_app, Hn, En. split_and!; [done|right; apply (Hscan [])|].
    intros suffix. rewrite Hseen. apply Hscan.
  - intros suffix. unfold is_text. by rewrite Hseen, Hscan.
Qed.

Lemma isText_tracks c seen : tracks c seen → isText c = is_text seen.
Proof.
  unfold tracks, isText. destruct (binary c); cbn [negb andb].
  { intros H. specialize (H []). by rewrite app_nil_r in H. }
  intros (Hn & Ht & Hv). unfold is_text. rewrite Hn, andb_true_r.
  specialize (Hv []). rewrite !app_nil_r in Hv. rewrite Hv.
  destruct (tail c) as [|a l]; [done|]. destruct Ht as [Ht|Ht]; [done|].
  unfold valid_utf8. cbn [all_runes]. by rewrite utf8_size_not_full.
Qed.

(** ** The stream verifier *)

(** After the bytes [seen] were offered: either all of them were accepted, or
    more than the declared size was offered. *)
Definition consumed_stream (e : Entry) (v : ContentVerifier) (seen : list Z) : Prop :=
  entry v = e ∧
  if failed v then Size e < Z.of_nat (length seen)
  else count v = Z.of_nat (length seen) ∧ digest v = seen ∧ tracks (classifier v) seen.

Lemma Write_consumed e v seen data :
  consumed_stream e v seen → consumed_stream e (Write v data).1 (seen ++ data).
Proof.
  intros [He Hv]. unfold Write, consumed_stream in *. rewrite length_app, He.
  destruct (failed v) eqn:Ef; cbn [orb].
  { cbn. split; [done|lia]. }
  destruct Hv as (Hc & Hd & Ht). rewrite Hc.
  destruct (Size e - Z.of_nat (length seen) <? Z.of_nat (length data)) eqn:El; cbn.
  { split; [done|]. reflect_bools. lia. }
  rewrite Ef. split_and!; [done|lia|by rewrite Hd|by apply update_tracks].
Qed.

Lemma stream_consumed e v seen chunks :
  consumed_stream e v seen →
  consumed_stream e (foldl (λ v data, (Write v data).1) v chunks) (seen ++ concat chunks).
Proof.
  revert v seen. induction chunks as [|c chunks IH]; intros v seen H; cbn [foldl concat].
  { by rewrite app_nil_r. }
  rewrite (assoc_L (++)). by apply IH, Write_consumed.
Qed.

Lemma new_consumed e v : NewContentVerifier e = Ok v → consumed_stream e v [].
Proof.
  unfold NewContentVerifier. intros H. go_inv H. apply Ok_inj in H as <-.
  repeat split. by left.
Qed.

(** The end of a stream is accepted exactly when the whole file is. *)
Lemma finish_consumed e v0 v seen :
  NewContentVerifier e = Ok v0 → consumed_stream e v seen → is_ok (Finish v) = is_ok (VerifyContent e seen).
Proof.
  unfold NewContentVerifier, VerifyContent. intros Enew [He Hv]. go_inv Enew. rewrite Hrun. cbn [mbind result_bind].
  rewrite Hguard. unfold Finish. rewrite He. destruct (failed v); cbn [orb negb andb].
  - replace (Size e =? _) with false by (symmetry; apply Z.eqb_neq; lia). done.
  - destruct Hv as (-> & -> & Ht). rewrite (isText_tracks _ _ Ht), (Z.eqb_sym (Size e)).
    repeat (case_match; cbn in *; try done); congruence.
Qed.

(** C19: checking a file as a stream of chunks, however it is cut, succeeds
    exactly when checking the whole file does: the incremental size, hash and
    UTF-8 classification lose nothing at chunk boundaries, and neither check
    accepts a file the other refuses. *)
Theorem verify_stream_equiv e chunks :
  is_ok (verify_stream e chunks) = is_ok (VerifyContent e (concat chunks)).
Proof.
  unfold verify_stream. destruct (NewContentVerifier e) as [v|err] eqn:Enew; cbn [mbind result_bind].
  - apply (finish_consumed e v); [done|]. apply (stream_consumed e v [] chunks), (new_consumed e v Enew).
  - unfold VerifyContent. unfold NewContentVerifier in Enew.
    destruct (validateEntry IsNormalString e); cbn in *; [|done].
    destruct (String.eqb (Kind e) "file"); done.
Qed.

End Content.
