(* ===== verification/SkillUpload.v ===== *)
(** * Verified uploads (src/internal/api/skill_transfer.go)

    [skillUploadReader] stands between a retained file and the transport.  It
    verifies the bytes it passes on and confirms the end of the file, so that
    neither a prefix nor a longer file can be acknowledged. *)

From S2P Require Import Prelude GoText GoJson GoUtf8 Manifest SkillContent.

(** How a read of the source ends: nil, [io.EOF] or another error. *)
Inductive read_end := Continues | AtEOF | Broken.

#[global] Instance read_end_eq_dec : EqDecision read_end.
Proof. solve_decision. Defined.

(** One read: the size of the transport's buffer, what the source put into it
    and how it ended. *)
Record upload_read := mkRead { buffer : Z; bytes : list Z; ended : read_end }.

Section Upload.
Context (IsNormalString : string → bool) (hex_sha256 : list Z → string).

Record skillUploadReader := mkReader {
  verifier : ContentVerifier;
  remaining : Z;
  verified : bool;
  stalls : Z
}.

Definition no_progress : Z := 100.

(** The buffer shows one byte more than may come. *)
Definition clip (r : skillUploadReader) (size : Z) : Z :=
  if remaining r <? size then remaining r + 1 else size.

(** The bytes passed on, or an error; [None] is a refused chunk. *)
Definition take (r : skillUploadReader) (size : Z) (data : list Z) (e : read_end) : skillUploadReader * bool :=
  match data with
  | [] =>
      if bool_decide (e = Continues) && (0 <? size)
      then (r <| stalls := stalls r + 1 |>, stalls r + 1 <? no_progress) else (r, true)
  | _ =>
      let r := r <| stalls := 0 |> in
      let '(v, ok) := Write (verifier r) data in
      let r := r <| verifier := v |> in
      if ok then (r <| remaining := remaining r - Z.of_nat (length data) |>, true) else (r, false)
  end.

(** [Read]: the bytes handed to the transport and how the read ended. *)
Definition Read (r : skillUploadReader) (x : upload_read) : skillUploadReader * option (list Z * read_end) :=
  let size := clip r (buffer x) in
  if size <? Z.of_nat (length (bytes x)) then (r, None) else
  let '(r, ok) := take r size (bytes x) (ended x) in
  if negb ok then (r, None) else
  if bool_decide (ended x = AtEOF) then
    if is_ok (Finish hex_sha256 (verifier r)) then (r <| verified := true |>, Some (bytes x, AtEOF)) else (r, None)
  else (r, Some (bytes x, ended x)).

(** The transport reads until an error or the end. *)
Fixpoint transmit (r : skillUploadReader) (reads : list upload_read) : skillUploadReader * list Z :=
  match reads with
  | [] => (r, [])
  | x :: rest =>
      match Read r x with
      | (r, None) => (r, [])
      | (r, Some (data, Continues)) => let '(r, sent) := transmit r rest in (r, data ++ sent)
      | (r, Some (data, _)) => (r, data)
      end
  end.

Definition upload_reader (e : Entry) : option skillUploadReader :=
  match NewContentVerifier IsNormalString e with
  | Ok v => Some (mkReader v (Size e) false 0)
  | Err _ => None
  end.

(** Whether an upload of [e] by these reads was verified, and what was sent. *)
Definition upload (e : Entry) (reads : list upload_read) : option (bool * list Z) :=
  r ← upload_reader e; let '(r, sent) := transmit r reads in Some (verified r, sent).

(** ** What an upload sends *)

(** The reader of [e] has passed on [sent]. *)
Definition passed (e : Entry) (r : skillUploadReader) (sent : list Z) : Prop :=
  consumed_stream e (verifier r) sent ∧ failed (verifier r) = false ∧
  remaining r = Size e - Z.of_nat (length sent) ∧ 0 ≤ remaining r ∧ verified r = false.

Lemma upload_reader_passed e r :
  upload_reader e = Some r → passed e r [] ∧ NewContentVerifier IsNormalString e = Ok (verifier r).
Proof.
  unfold upload_reader. destruct (NewContentVerifier _ e) as [v|] eqn:E; [|done]. intros [= <-].
  split; [|done]. split_and!; cbn; try lia; try done; [by eapply new_consumed| |].
  - unfold NewContentVerifier in E. go_inv E. apply Ok_inj in E as <-. done.
  - unfold NewContentVerifier, validateEntry in E. go_inv E. go_inv Hrun. reflect_bools. lia.
Qed.

Lemma take_passed e r sent size data x r' :
  passed e r sent → take r size data x = (r', true) → passed e r' (sent ++ data).
Proof.
  intros (Hc & Hf & Hr & Hp & Hv). unfold take. destruct data as [|b data].
  { rewrite app_nil_r. destruct (_ && _); intros [= <-]; by split_and!. }
  intros Ht. pose proof (Write_consumed e (verifier r) sent (b :: data) Hc) as Hw.
  change (verifier (r <| stalls := 0 |>)) with (verifier r) in Ht.
  destruct (Write (verifier r) (b :: data)) as [v ok] eqn:E. destruct ok; [|done]. injection Ht as <-.
  unfold Write in E. destruct (failed (verifier r) || _) eqn:Eo; [done|]. injection E as <-.
  rewrite Hf in Eo. cbn [orb] in Eo. destruct Hc as [He Hst]. rewrite Hf in Hst. destruct Hst as (Hcount & _).
  rewrite He, Hcount in Eo. reflect_bools. split_and!; [exact Hw|exact Hf| | |exact Hv].
  - cbn [remaining set]. rewrite length_app. cbn. lia.
  - cbn. cbn in Eo. lia.
Qed.

Lemma take_refused e r sent size data x r' : passed e r sent → take r size data x = (r', false) → verified r' = false.
Proof.
  intros (_ & _ & _ & _ & Hv). unfold take. destruct data as [|b data].
  { destruct (_ && _); [|done]. by intros [= <- _]. }
  destruct (Write _ _) as [v []]; [done|]. by intros [= <-].
Qed.

(** What one read does to a reader that has passed on [sent]. *)
Lemma Read_passed e r sent x r' out :
  passed e r sent → Read r x = (r', out) →
  match out with
  | None => verified r' = false
  | Some (data, AtEOF) => data = bytes x ∧ verified r' = true ∧ failed (verifier r') = false ∧
      consumed_stream e (verifier r') (sent ++ data) ∧ is_ok (Finish hex_sha256 (verifier r')) = true
  | Some (data, _) => data = bytes x ∧ passed e r' (sent ++ data)
  end.
Proof.
  intros Hp. unfold Read. cbv zeta. destruct (_ <? _); [intros [= <- <-]; by destruct Hp as (_ & _ & _ & _ & ?)|].
  destruct (take r _ _ _) as [r1 ok] eqn:Et. destruct ok; cbn [negb];
    [|intros [= <- <-]; by eapply take_refused].
  pose proof (take_passed _ _ _ _ _ _ _ Hp Et) as Hp1. case_bool_decide as He.
  - destruct (is_ok _) eqn:Ef; intros [= <- <-]; [|by destruct Hp1 as (_ & _ & _ & _ & ?)].
    destruct Hp1 as (Hc & Hf & _). by split_and!.
  - intros [= <- <-]. by destruct (ended x).
Qed.

Lemma consumed_bound e v sent : consumed_stream e v sent → failed v = false → is_ok (Finish hex_sha256 v) = true →
  Z.of_nat (length sent) = Size e.
Proof.
  intros [He Hv] Hf. rewrite Hf in Hv. destruct Hv as (Hc & _). unfold Finish. rewrite Hf, He, Hc.
  destruct (Z.eqb_spec (Z.of_nat (length sent)) (Size e)); [done|]. cbn. done.
Qed.

Lemma transmit_passed e v0 r sent reads r' more :
  NewContentVerifier IsNormalString e = Ok v0 → passed e r sent → transmit r reads = (r', more) →
  Z.of_nat (length (sent ++ more)) ≤ Size e ∧
  (verified r' = true → is_ok (VerifyContent IsNormalString hex_sha256 e (sent ++ more)) = true).
Proof.
  intros Hnew. assert (Hidle : ∀ r sent, passed e r sent → Z.of_nat (length (sent ++ [])) ≤ Size e).
  { intros r0 s0 (_ & _ & Hr & Hp & _). rewrite app_nil_r. lia. }
  revert r sent r' more. induction reads as [|x reads IH]; intros r sent r' more Hp.
  { cbn [transmit]. intros [= <- <-]. split; [by eapply Hidle|]. destruct Hp as (_ & _ & _ & _ & ->). done. }
  cbn [transmit]. destruct (Read r x) as [r1 out] eqn:Er. pose proof (Read_passed _ _ _ _ _ _ Hp Er) as Hout.
  destruct out as [[data []]|].
  - destruct Hout as [-> Hp1]. destruct (transmit r1 reads) as [r2 rest] eqn:Et. intros [= <- <-].
    rewrite (assoc_L (++)). by apply (IH r1).
  - destruct Hout as (-> & Hv & Hf & Hc & Hfin). intros [= <- <-]. split.
    + by rewrite (consumed_bound e (verifier r1)).
    + intros _. by rewrite <- (finish_consumed IsNormalString hex_sha256 e v0 (verifier r1)).
  - destruct Hout as [-> Hp1]. intros [= <- <-]. split.
    + destruct Hp1 as (_ & _ & Hr & H0 & _). lia.
    + destruct Hp1 as (_ & _ & _ & _ & ->). done.
  - intros [= <- <-]. split; [by eapply Hidle|]. by rewrite Hout.
Qed.

(** C20: an upload is confirmed only for exactly the file of its manifest entry:
    however the source and the transport cut the stream, at most the declared
    size is sent, and when the reader says it is verified the bytes that were
    sent are a file that the whole-file check of the entry accepts. *)
Theorem upload_exact e reads ok sent :
  upload e reads = Some (ok, sent) →
  Z.of_nat (length sent) ≤ Size e ∧
  (ok = true → is_ok (VerifyContent IsNormalString hex_sha256 e sent) = true).
Proof.
  unfold upload. destruct (upload_reader e) as [r|] eqn:E; [|done]. cbn [mbind option_bind].
  apply upload_reader_passed in E as [Hp Hnew]. destruct (transmit r reads) as [r' more] eqn:Et. intros [= <- <-].
  by apply (transmit_passed e (verifier r) r [] reads r' more).
Qed.
End Upload.
