(* ===== verification/TaskLease.v ===== *)
(** * Task leases (src/internal/worker/task_lease.go)

    Long tasks run under a lease that the control plane renews.  Times are
    nanoseconds of the node's monotonic clock; the two times of the answer
    are on the server's clock and only their difference is used.  The
    renewal goroutine is the list of its timer ticks, each with the answer of
    the control plane and the times around the call; the run of
    [withTaskLease] composes them with the result of the work. *)

From S2P Require Import Prelude GoTime.

Record taskLeaseTiming := mkTiming {
  ServerTime : time;
  LeaseUntil : time;
  RenewAfterMilliseconds : Z
}.

Record taskLeaseBudget := mkBudget { deadline : time; renewAfter : duration }.

#[global] Instance taskLeaseBudget_eq_dec : EqDecision taskLeaseBudget.
Proof. solve_decision. Defined.

(** The errors of a leased run: the caller's [lost] error, a missing work
    function, the cancellation of the context, the error of the work. *)
Inductive lease_error := Lost | NoWork | Cancelled | WorkFailed.

(** One call of [renew]: when it started, its answer, and the time read after
    it returned. *)
Record renewal := mkRenewal {
  started : time;
  answer : option taskLeaseTiming;
  answered : time
}.

Definition maximum_lease : duration := 300 * second.

Definition renewTaskBudget (r : renewal) : result lease_error taskLeaseBudget :=
  match answer r with
  | None => Err Lost
  | Some lease =>
      let lasts := time_sub (LeaseUntil lease) (ServerTime lease) in
      let remaining := time_sub (started r + lasts) (answered r) in
      require negb ((RenewAfterMilliseconds lease <=? 0) ||
                    (300000 <? RenewAfterMilliseconds lease)) orelse Lost ;;
      let interval := RenewAfterMilliseconds lease * millisecond in
      require negb ((lasts <=? 0) || (maximum_lease <? lasts) || (remaining <=? 0) ||
                    (interval <=? 0) || (lasts <=? interval)) orelse Lost ;;
      let interval := if Z.quot remaining 3 <? interval then Z.quot remaining 3 else interval in
      require negb (interval <=? 0) orelse Lost ;;
      Ok (mkBudget (started r + lasts) interval)
  end.

(** A turn of the renewal loop: the time read after the timer fired, the
    renewal, and whether the context was done when it returned. *)
Record tick := mkTick { fired : time; attempt : renewal; interrupted : bool }.

(** The loop until the context is done (the end of the list) or the lease is
    lost; the budget it returns is the last one obtained. *)
Fixpoint maintainTaskLease (ticks : list tick) (budget : taskLeaseBudget)
    : taskLeaseBudget * result lease_error unit :=
  match ticks with
  | [] => (budget, Ok tt)
  | t :: rest =>
      if negb (before (fired t) (deadline budget)) then (budget, Err Lost)
      else
        let renewed := renewTaskBudget (attempt t) in
        if interrupted t then (budget, Ok tt)
        else match renewed with
             | Err _ => (budget, Err Lost)
             | Ok budget' => maintainTaskLease rest budget'
             end
  end.

(** Everything the environment decides about one leased run.  The cause of the
    work context is whatever cancelled it first: [cancelled_first] says that
    the caller's context was cancelled during the run before any loss of the
    lease was recorded, [cancelled_later] that it was cancelled otherwise. *)
Record lease_run := mkRun {
  has_work : bool;
  cancelled_before : bool;
  first : renewal;
  cancelled_after_first : bool;
  ticks : list tick;
  cancelled_first : bool;
  cancelled_later : bool;
  work : result lease_error unit;
  finished : time
}.

Definition withTaskLease (r : lease_run) : result lease_error unit :=
  require has_work r orelse NoWork ;;
  require negb (cancelled_before r) orelse Cancelled ;;
  let initial := renewTaskBudget (first r) in
  require negb (cancelled_after_first r) orelse Cancelled ;;
  budget ← initial;
  let '(budget, maintained) := maintainTaskLease (ticks r) budget in
  require negb (cancelled_first r) orelse Cancelled ;;
  require is_ok maintained orelse Lost ;;
  require negb (cancelled_later r) orelse Cancelled ;;
  require before (finished r) (deadline budget) orelse Lost ;;
  work r.

(** ** Budgets *)

(** a lease budget obtained from the control plane ends no later than five
    minutes after the request was sent, lasts exactly as long as the server
    granted counted from before the request (so whenever the server issued
    it, the node's copy ends first, whatever the clock skew), still has time
    left when the answer arrives, and schedules the next renewal within a
    third of that time and no later than the server asked. *)
Theorem renewTaskBudget_bounds r lease b :
  answer r = Some lease → renewTaskBudget r = Ok b →
  deadline b = started r + time_sub (LeaseUntil lease) (ServerTime lease) ∧
  deadline b ≤ started r + maximum_lease ∧
  (∀ issued, started r ≤ issued →
     deadline b ≤ issued + (LeaseUntil lease - ServerTime lease)) ∧
  answered r < deadline b ∧
  0 < renewAfter b ∧ 3 * renewAfter b ≤ deadline b - answered r ∧
  renewAfter b ≤ RenewAfterMilliseconds lease * millisecond.
Proof.
  unfold renewTaskBudget. intros -> H. go_inv H. apply Ok_inj in H as <-. cbn.
  unfold maximum_lease, time_sub, max_int64, second in *. reflect_bools.
  set (lasts := Z.max _ (Z.min _ (LeaseUntil lease - _))) in *.
  set (remaining := Z.max _ (Z.min _ (started r + lasts - _))) in *.
  assert (Hq : 3 * (remaining ÷ 3) ≤ remaining) by (apply Z.mul_quot_le; lia).
  assert (remaining ≤ started r + lasts - answered r) by lia.
  assert (lasts ≤ LeaseUntil lease - ServerTime lease) by lia.
  split_and!; try lia; case_match; reflect_bools; lia.
Qed.

(** ** Continuity *)

(** The renewals a run asked for, in order. *)
Definition renewals (r : lease_run) : list renewal := first r :: map attempt (ticks r).

(** The clock does not go back, and a renewal sent under a context whose
    deadline (that of the budget before it) has already passed is not
    answered: this is what [context.WithDeadline] and the HTTP client give. *)
Fixpoint clock_ordered (previous : renewal) (ticks : list tick) : Prop :=
  match ticks with
  | [] => True
  | t :: rest =>
      started previous ≤ fired t ≤ started (attempt t) ∧
      (∀ b lease, renewTaskBudget previous = Ok b → answer (attempt t) = Some lease →
         started (attempt t) < deadline b) ∧
      clock_ordered (attempt t) rest
  end.

(** Some lease of [rs], counted from before its request, is in force. *)
Definition in_force (rs : list renewal) (at_ : time) : Prop :=
  ∃ r b, r ∈ rs ∧ renewTaskBudget r = Ok b ∧ started r ≤ at_ < deadline b.

Lemma in_force_cons r rs at_ : in_force rs at_ → in_force (r :: rs) at_.
Proof. intros (r' & b & ? & ? & ?). exists r', b. split; [by right|done]. Qed.

Lemma in_force_here r rs b at_ :
  renewTaskBudget r = Ok b → started r ≤ at_ < deadline b → in_force (r :: rs) at_.
Proof. exists r, b. split; [by left|done]. Qed.

Lemma maintain_covers ticks r0 b0 b at_ :
  renewTaskBudget r0 = Ok b0 → clock_ordered r0 ticks →
  maintainTaskLease ticks b0 = (b, Ok tt) → started r0 ≤ at_ < deadline b →
  in_force (r0 :: map attempt ticks) at_.
Proof.
  revert r0 b0. induction ticks as [|t rest IH]; intros r0 b0 Hb Hclk H Hat; cbn in H.
  { injection H as <-. by apply in_force_here with b0. }
  destruct Hclk as (Ht & Hdl & Hclk). cbn [map].
  destruct (decide (at_ < deadline b0)) as [Hlt|Hge]; [apply in_force_here with b0; [done|lia]|].
  destruct (negb (before (fired t) (deadline b0))); [done|].
  destruct (interrupted t); [injection H as <-; lia|].
  destruct (renewTaskBudget (attempt t)) as [b'|] eqn:Er; [|done].
  apply in_force_cons. eapply IH; [exact Er|done|done|].
  destruct (answer (attempt t)) as [lease|] eqn:Ea.
  - specialize (Hdl b0 lease Hb eq_refl). lia.
  - unfold renewTaskBudget in Er. by rewrite Ea in Er.
Qed.

(** when a leased run reports success, some lease granted by the control
    plane was in force at every moment from the first request to the end of
    the work: no instant of a successful run lies outside every granted
    lease, including the moment the result is reported. *)
Theorem success_under_lease r at_ :
  withTaskLease r = Ok tt → clock_ordered (first r) (ticks r) →
  started (first r) ≤ at_ ≤ finished r → in_force (renewals r) at_.
Proof.
  unfold withTaskLease, renewals. intros H Hclk Hat. go_inv H.
  destruct (maintainTaskLease (ticks r) a) as [b m] eqn:Em. go_inv H.
  destruct m as [[]|]; [|done]. unfold before in *. reflect_bools.
  eapply maintain_covers; [exact Hrun|done|exact Em|lia].
Qed.

(** A leased run never turns a lost lease into a result of the work: once
    a renewal is refused (or a tick is handled after the deadline) and the
    run was not cancelled around it, the run ends with [Lost] whatever the
    work returned. *)
Theorem lost_lease_reported r b pre t post b' :
  has_work r = true → cancelled_before r = false → cancelled_after_first r = false →
  cancelled_first r = false →
  renewTaskBudget (first r) = Ok b → ticks r = pre ++ t :: post →
  maintainTaskLease pre b = (b', Ok tt) → Forall (λ t, interrupted t = false) pre →
  deadline b' ≤ fired t ∨ (interrupted t = false ∧ renewTaskBudget (attempt t) = Err Lost) →
  withTaskLease r = Err Lost.
Proof.
  intros Hw Hc1 Hc2 Hc3 Hfirst Hticks Hpre Hint Hlost. unfold withTaskLease.
  rewrite Hw, Hc1, Hc2, Hfirst, Hticks. cbn [negb mbind result_bind].
  assert (maintainTaskLease (pre ++ t :: post) b = (b', Err Lost)) as ->.
  2:{ by rewrite Hc3. }
  clear Hfirst Hticks. revert b Hpre. induction Hint as [|t0 pre Ht0 _ IH]; intros b Hpre; cbn in *.
  - injection Hpre as ->. unfold before. destruct (fired t <? deadline b') eqn:E; cbn; [|done].
    reflect_bools. destruct Hlost as [?|[-> ->]]; [lia|done].
  - destruct (negb (before (fired t0) (deadline b))); [done|]. rewrite Ht0 in *.
    destruct (renewTaskBudget (attempt t0)); [|done]. auto.
Qed.

(** ** A concrete run: a first lease of two minutes, renewed once *)

Definition sample_timing : taskLeaseTiming := mkTiming 1000 (1000 + 120 * second) 30000.
Definition sample_first : renewal := mkRenewal 0 (Some sample_timing) (2 * second).
Definition sample_tick : tick :=
  mkTick (32 * second) (mkRenewal (32 * second) (Some sample_timing) (33 * second)) false.
Definition sample_run : lease_run :=
  mkRun true false sample_first false [sample_tick] false false (Ok tt) (140 * second).

Lemma renewTaskBudget_bounds_witness :
  renewTaskBudget sample_first = Ok (mkBudget (120 * second) (30 * second)) ∧
  120 * second ≤ 0 + maximum_lease.
Proof.
  split; [vm_compute; reflexivity|].
  exact (proj1 (proj2 (renewTaskBudget_bounds sample_first sample_timing
    (mkBudget (120 * second) (30 * second)) eq_refl eq_refl))).
Defined.

Lemma success_under_lease_witness : in_force (renewals sample_run) (130 * second).
Proof.
  refine (success_under_lease sample_run (130 * second) _ _ _).
  - vm_compute. reflexivity.
  - cbn. split; [unfold second; lia|]. split; [|done]. intros b lease Hb _.
    vm_compute in Hb. injection Hb as <-. vm_compute. reflexivity.
  - cbn. unfold second. lia.
Defined.

Definition refused_run : lease_run :=
  sample_run <| ticks := [mkTick (32 * second) (mkRenewal (32 * second) None (33 * second)) false] |>.

Lemma lost_lease_reported_witness : withTaskLease refused_run = Err Lost.
Proof.
  refine (lost_lease_reported refused_run (mkBudget (120 * second) (30 * second)) []
    (mkTick (32 * second) (mkRenewal (32 * second) None (33 * second)) false) []
    (mkBudget (120 * second) (30 * second)) _ _ _ _ _ _ _ _ _); try reflexivity.
  - constructor.
  - right. split; reflexivity.
Defined.
