(* ===== verification/PortForward.v ===== *)
(** * Port-forward tunnels (src/internal/portforward/tunnel.go)

    One SSH connection carries one tunnel: a framed JSON handshake, a lease
    redeemed from the control plane and renewed by a background loop, and
    CONNECT streams admitted up to a negotiated limit.  The control plane,
    the runtime dialer and the clock are the inputs of the operations; the
    interleaving of concurrent streams is a step relation (PortForwardFacts).
    The bandwidth limiter (floating point) and the byte copying are not
    modelled. *)

From S2P Require Import Prelude GoText GoBytes GoTime GoJson.
From Stdlib.Strings Require Import Ascii.

(** ** Data *)

Record clientHandshake := mkClientHandshake {
  hs_ForwardID : string;
  hs_ConnectToken : string;
  hs_ClientVersion : string;
  hs_MaxStreams : Z
}.

Record serverHandshake := mkServerHandshake {
  sh_OK : bool;
  sh_Protocol : Z;
  sh_LeaseExpiresAt : string;
  sh_MaxStreams : Z;
  sh_MaxBytesPerSecond : Z;
  sh_ErrorCode : string
}.

Record PortForwardLease := mkLease {
  ForwardID : string;
  SessionID : string;
  RuntimeBackend : string;
  RuntimeResourceID : string;
  RemotePort : Z;
  Generation : Z;
  LeaseExpiresAt : string;
  MaxStreams : Z;
  BytesPerSecond : Z;
  ControlPlaneGraceSeconds : Z
}.

(** An error of the control-plane client: an HTTP error or any other. *)
Inductive api_error := HTTPError (StatusCode : Z) (Code : string) | OtherError.

Inductive pf_error :=
  | MissingDependency | MissingIdentity
  | BadMagic | BadLength | BadPayload | IncompletePayload | BadLimits
  | BadIdentity | RedeemFailed | InvalidLease | ResponseTooLarge | WriteFailed.

#[global] Instance pf_error_eq_dec : EqDecision pf_error.
Proof. solve_decision. Defined.

(** ** The handshake *)

Definition protocolMagic : bytes := [x41; x52; x50; x46; x00; x01].
Definition maxHandshakePayload : Z := 8 * 1024.

(** [io.ReadFull] as the handshake uses it: every error is the same. *)
Definition read_exact (n : nat) (input : bytes) : option (bytes * bytes) :=
  if (n <=? length input)%nat then Some (take n input, drop n input) else None.

Definition text_of (payload : bytes) : string := String.string_of_list_byte payload.

Definition rejectDuplicateObjectKeys (payload : bytes) : bool :=
  match parse_json (text_of payload) with
  | Some (JObj fields) => bool_decide (NoDup (map (λ f, f.1.1) fields))
  | _ => false
  end.

Definition zero_handshake : clientHandshake := mkClientHandshake "" "" "" 0.

Definition handshake_names : list string :=
  ["forward_id"; "connect_token"; "client_version"; "max_streams"].

Definition handshake_assign (name raw : string) (v : json) (h : clientHandshake)
    : option clientHandshake :=
  if String.eqb name "max_streams" then
    z ← int_of_json (hs_MaxStreams h) v; Some (h <| hs_MaxStreams := z |>)
  else if String.eqb name "forward_id" then
    s ← string_of_json (hs_ForwardID h) v; Some (h <| hs_ForwardID := s |>)
  else if String.eqb name "connect_token" then
    s ← string_of_json (hs_ConnectToken h) v; Some (h <| hs_ConnectToken := s |>)
  else
    s ← string_of_json (hs_ClientVersion h) v; Some (h <| hs_ClientVersion := s |>).

Definition decode_handshake (payload : bytes) : option clientHandshake :=
  v ← parse_json (text_of payload);
  struct_of_json handshake_names handshake_assign zero_handshake v.

(** The handshake and the bytes that follow it. *)
Definition readClientHandshake (input : bytes) : result pf_error (clientHandshake * bytes) :=
  match read_exact (length protocolMagic) input with
  | None => Err BadMagic
  | Some (magic, input) =>
      require bool_decide (magic = protocolMagic) orelse BadMagic ;;
      match read_exact 4 input with
      | None => Err BadLength
      | Some (header, input) =>
          let payloadLength := uint32_of header in
          require negb ((payloadLength =? 0) || (maxHandshakePayload <? payloadLength))
            orelse BadPayload ;;
          match read_exact (Z.to_nat payloadLength) input with
          | None => Err IncompletePayload
          | Some (payload, input) =>
              require rejectDuplicateObjectKeys payload orelse BadPayload ;;
              match decode_handshake payload with
              | None => Err BadPayload
              | Some handshake =>
                  require negb ((hs_MaxStreams handshake <? 1) ||
                                (1024 <? hs_MaxStreams handshake) ||
                                (64 <? len (hs_ClientVersion handshake))) orelse BadLimits ;;
                  Ok (handshake, input)
              end
          end
      end
  end.

Definition bool_text (b : bool) : string := if b then "true" else "false".

(** [json.Marshal] with the [omitempty] members left out. *)
Definition handshake_json (h : serverHandshake) : string :=
  print_object (
    [("ok", bool_text (sh_OK h))] ++
    (if sh_Protocol h =? 0 then [] else [("protocol", itoa (sh_Protocol h))]) ++
    (if String.eqb (sh_LeaseExpiresAt h) "" then []
     else [("lease_expires_at", quote (sh_LeaseExpiresAt h))]) ++
    (if sh_MaxStreams h =? 0 then [] else [("max_streams", itoa (sh_MaxStreams h))]) ++
    (if sh_MaxBytesPerSecond h =? 0 then []
     else [("max_bytes_per_second", itoa (sh_MaxBytesPerSecond h))]) ++
    (if String.eqb (sh_ErrorCode h) "" then [] else [("error_code", quote (sh_ErrorCode h))])).

(** The bytes flushed to the client; [write_ok] is the answer of the
    connection. *)
Definition writeServerHandshake (write_ok : bool) (h : serverHandshake) : result pf_error bytes :=
  let payload := bytes_of_string (handshake_json h) in
  require negb (maxHandshakePayload <? Z.of_nat (length payload)) orelse ResponseTooLarge ;;
  require write_ok orelse WriteFailed ;;
  Ok (protocolMagic ++ put_uint32 (Z.of_nat (length payload)) ++ payload).

(** ** Leases *)

Definition validateLease (forwardID : string) (lease : PortForwardLease) : result pf_error unit :=
  require negb (
    negb (String.eqb (ForwardID lease) forwardID) || String.eqb (SessionID lease) "" ||
    (negb (String.eqb (RuntimeBackend lease) "native") &&
     negb (String.eqb (RuntimeBackend lease) "docker_sandbox")) ||
    String.eqb (RuntimeResourceID lease) "" || (RemotePort lease <? 1) ||
    (65535 <? RemotePort lease) || (Generation lease <? 1) || (MaxStreams lease <? 1) ||
    (1024 <? MaxStreams lease) || (BytesPerSecond lease <? 0) ||
    (ControlPlaneGraceSeconds lease <? 0)) orelse InvalidLease ;;
  match parse_rfc3339 (LeaseExpiresAt lease) with
  | Some _ => Ok tt
  | None => Err InvalidLease
  end.

(** The multiplication of the grace period is a 64-bit one. *)
Definition leaseFailureDeadline (now : time) (lease : PortForwardLease) : time :=
  match parse_rfc3339 (LeaseExpiresAt lease) with
  | None => now
  | Some expiresAt => expiresAt + wrap_int64 (ControlPlaneGraceSeconds lease * second)
  end.

Definition isAuthorizationFailure (err : api_error) : bool :=
  match err with
  | HTTPError status _ => (400 <=? status) && (status <? 500)
  | OtherError => false
  end.

Definition publicErrorCode (err : api_error) : string :=
  match err with
  | HTTPError _ code => if non_empty code then code else "CONTROL_PLANE_UNAVAILABLE"
  | OtherError => "CONTROL_PLANE_UNAVAILABLE"
  end.

(** ** Serving a tunnel *)

(** [has_dependencies] says that the client, runtime and connection are set. *)
Record Config := mkConfig {
  has_dependencies : bool;
  cfg_ForwardID : string;
  cfg_DeviceID : string;
  cfg_SSHKeyID : string
}.

Record RedeemPortForwardRequest := mkRedeem {
  rd_ForwardID : string; rd_DeviceID : string; rd_SSHKeyID : string; rd_ConnectToken : string }.

(** What the handshake phase leaves behind: the replies written (a reply that
    the connection refuses is lost), and either the open tunnel's lease and
    stream limit with the unread input, or the error [Serve] returns. *)
Record handshake_run := mkHandshakeRun {
  replies : list serverHandshake;
  redeemed : option RedeemPortForwardRequest;
  outcome : result pf_error (PortForwardLease * Z * bytes)
}.

Definition refusal (code : string) : serverHandshake := mkServerHandshake false 0 "" 0 0 code.

(** A refusal is written on a best-effort basis. *)
Definition try_reply (write_ok : bool) (h : serverHandshake) : list serverHandshake :=
  if is_ok (writeServerHandshake write_ok h) then [h] else [].

Definition negotiated (handshake : clientHandshake) (lease : PortForwardLease) : Z :=
  if (0 <? hs_MaxStreams handshake) && (hs_MaxStreams handshake <? MaxStreams lease)
  then hs_MaxStreams handshake else MaxStreams lease.

Definition acceptance (handshake : clientHandshake) (lease : PortForwardLease) : serverHandshake :=
  mkServerHandshake true 1 (LeaseExpiresAt lease) (negotiated handshake lease)
    (BytesPerSecond lease) "".

(** [Serve] up to the moment streams are served. *)
Definition serve_handshake (config : Config) (input : bytes)
    (redeem : RedeemPortForwardRequest → result api_error PortForwardLease) (write_ok : bool)
    : handshake_run :=
  if negb (has_dependencies config) then mkHandshakeRun [] None (Err MissingDependency)
  else if String.eqb (cfg_ForwardID config) "" || String.eqb (cfg_DeviceID config) "" ||
          String.eqb (cfg_SSHKeyID config) "" then mkHandshakeRun [] None (Err MissingIdentity)
  else match readClientHandshake input with
  | Err e => mkHandshakeRun (try_reply write_ok (refusal "AUTH_INVALID")) None (Err e)
  | Ok (handshake, input) =>
      if negb (String.eqb (hs_ForwardID handshake) (cfg_ForwardID config)) ||
         (len (hs_ConnectToken handshake) <? 32) || (256 <? len (hs_ConnectToken handshake))
      then mkHandshakeRun (try_reply write_ok (refusal "AUTH_INVALID")) None (Err BadIdentity)
      else
        let request := mkRedeem (cfg_ForwardID config) (cfg_DeviceID config)
                         (cfg_SSHKeyID config) (hs_ConnectToken handshake) in
        match redeem request with
        | Err err =>
            mkHandshakeRun (try_reply write_ok (refusal (publicErrorCode err)))
              (Some request) (Err RedeemFailed)
        | Ok lease =>
            match validateLease (cfg_ForwardID config) lease with
            | Err e =>
                mkHandshakeRun (try_reply write_ok (refusal "PROTOCOL_UNSUPPORTED"))
                  (Some request) (Err e)
            | Ok _ =>
                match writeServerHandshake write_ok (acceptance handshake lease) with
                | Err e => mkHandshakeRun [] (Some request) (Err e)
                | Ok _ =>
                    mkHandshakeRun [acceptance handshake lease] (Some request)
                      (Ok (lease, negotiated handshake lease, input))
                end
            end
        end
  end.

(** ** The renewal loop *)

(** The lease the tunnel holds and whether its context is still open. *)
Record lease_state := mkLeaseState { currentLease : PortForwardLease; tunnel_open : bool }.

(** One tick of [maintainLease]: the control plane's answer to a renewal for
    the current generation, and the time read when it is an error. *)
Definition maintain_tick (forwardID : string)
    (answer : result api_error PortForwardLease) (now : time) (st : lease_state) : lease_state :=
  if negb (tunnel_open st) then st
  else match answer with
  | Ok renewed =>
      if negb (is_ok (validateLease forwardID renewed)) ||
         negb (Generation renewed =? Generation (currentLease st))
      then st <| tunnel_open := false |>
      else st <| currentLease := renewed |>
  | Err err =>
      if isAuthorizationFailure err || after now (leaseFailureDeadline now (currentLease st))
      then st <| tunnel_open := false |>
      else st
  end.

(** ** Streams *)

(** The parts of an HTTP/2 request the handler looks at; header names may
    repeat in [Headers] only through their value lists. *)
Record request := mkRequest {
  Method : string;
  Host : string;
  Headers : list (string * list string)
}.

(** [http.CanonicalHeaderKey] on a valid header name: upper case at the start
    and after a hyphen, lower case elsewhere; other names are left alone. *)
Definition token_char (c : ascii) : bool := is_alnum c || has_char "!#$%&'*+-.^_`|~" c.
Definition lower_char (c : ascii) : ascii := if is_upper c then chr (code c + 32) else c.

Fixpoint canonical_from (start : bool) (s : string) : string :=
  match s with
  | "" => ""
  | String c rest =>
      String (if start then upper c else lower_char c) (canonical_from (Ascii.eqb c "-") rest)
  end.

Definition CanonicalHeaderKey (s : string) : string :=
  if all_chars token_char s then canonical_from true s else s.

Definition validStreamHeaders (headers : list (string * list string)) : bool :=
  forallb (λ h, bool_decide (CanonicalHeaderKey h.1 ∈
    ["X-Agent-Remote-Forward-Id"; "Content-Length"; "User-Agent"; "Accept-Encoding"])) headers.

(** [Header.Values] for the forward identifier: the map entry of the
    canonical name. *)
Definition forward_values (headers : list (string * list string)) : list string :=
  match find (λ h : string * list string, String.eqb h.1 "X-Agent-Remote-Forward-Id") headers with
  | Some h => h.2
  | None => []
  end.

Definition validStreamRequest (r : request) (forwardID : string) : bool :=
  String.eqb (Method r) "CONNECT" && String.eqb (Host r) "session-loopback" &&
  validStreamHeaders (Headers r) && bool_decide (forward_values (Headers r) = [forwardID]).

(** The handler: its context, the semaphore (capacity and slots taken), the
    stream counter, and the connection counter. *)
Record handler := mkHandler {
  ctx_open : bool;
  capacity : Z;
  slots : Z;
  streamID : Z;
  connectionCount : Z
}.

Inductive status := BadRequest | ServiceUnavailable | TooManyRequests | Dialing (id : Z).

(** [ServeHTTP] up to the call of the runtime dialer: the slot is taken and
    the request identifier drawn. *)
Definition stream_admit (forwardID : string) (r : request) (h : handler) : handler * status :=
  if negb (validStreamRequest r forwardID) then (h, BadRequest)
  else if negb (ctx_open h) then (h, ServiceUnavailable)
  else if slots h <? capacity h then
    let id := wrap_uint64 (streamID h + 1) in
    (h <| slots := slots h + 1 |> <| streamID := id |>, Dialing id)
  else (h, TooManyRequests).

(** The rest of [ServeHTTP]: the dial answers, and the deferred release of
    the slot when the handler returns. *)
Definition stream_connected (h : handler) : handler :=
  h <| connectionCount := connectionCount h + 1 |>.
Definition stream_return (h : handler) : handler := h <| slots := slots h - 1 |>.

(** The HTTP status of a failed dial. *)
Definition dial_failure_status (deadline_exceeded : bool) : Z :=
  if deadline_exceeded then 504 else 502.

(** [requestID]: the text sent to the privileged helper. *)
Definition requestID (forwardID : string) (id : Z) : string :=
  "pf-" +:+ forwardID +:+ "-" +:+ itoa id.

(** ** Release *)

(** [releasePortForward]: at most three attempts, each with the same request;
    an answer is whether it succeeded and whether the context ended while
    waiting for the next attempt.  The number of calls made. *)
Fixpoint releasePortForward (attempts : nat) (answers : list (bool * bool)) : nat :=
  match attempts, answers with
  | S attempts', (succeeded, ended) :: rest =>
      if succeeded then 1%nat
      else match attempts' with
           | O => 1%nat
           | S _ => if ended then 1%nat else S (releasePortForward attempts' rest)
           end
  | _, _ => 0%nat
  end.
