(* ===== verification/PortForwardFacts.v ===== *)
(** * What a port-forward tunnel guarantees

    The handshake opens a tunnel only for the configured identity and a
    validated lease and answers exactly once; the renewal loop never changes
    the generation it was opened with and gives up within the grace period;
    concurrent streams respect the negotiated limit and use distinct request
    identifiers. *)

From S2P Require Import Prelude GoText GoBytes GoTime GoJson PortForward.

(** ** Framing *)

Lemma read_exact_spec n input got rest :
  read_exact n input = Some (got, rest) ↔ input = got ++ rest ∧ length got = n.
Proof.
  unfold read_exact. destruct (Nat.leb_spec n (length input)).
  - split.
    + intros [= <- <-]. split; [by rewrite take_drop|rewrite length_take; lia].
    + intros [-> <-]. by rewrite take_app_length, drop_app_length.
  - split; [done|]. intros [-> <-]. rewrite length_app in *. lia.
Qed.

Lemma readClientHandshake_inv input h rest :
  readClientHandshake input = Ok (h, rest) →
  ∃ header payload,
    input = protocolMagic ++ header ++ payload ++ rest ∧ length header = 4%nat ∧
    uint32_of header = Z.of_nat (length payload) ∧
    0 < Z.of_nat (length payload) ≤ maxHandshakePayload ∧
    rejectDuplicateObjectKeys payload = true ∧ decode_handshake payload = Some h ∧
    1 ≤ hs_MaxStreams h ≤ 1024 ∧ len (hs_ClientVersion h) ≤ 64.
Proof.
  unfold readClientHandshake. intros H.
  destruct (read_exact (length protocolMagic) input) as [[magic r1]|] eqn:E1; [|done]. go_inv H.
  destruct (read_exact 4 r1) as [[header r2]|] eqn:E2; [|done]. cbv zeta in H. go_inv H.
  destruct (read_exact _ r2) as [[payload r3]|] eqn:E3; [|done]. go_inv H.
  destruct (decode_handshake payload) as [h'|] eqn:E4; [|done]. go_inv H.
  apply Ok_inj in H. injection H as -> ->.
  apply read_exact_spec in E1 as [-> _], E2 as [-> H2], E3 as [-> H3]. reflect_bools. subst magic.
  unfold maxHandshakePayload in *. pose proof (uint32_of_nonneg header).
  exists header, payload. split_and!; try done; try lia.
Qed.

(** ** The handshake *)

Lemma negotiated_bounds h lease :
  1 ≤ hs_MaxStreams h → 1 ≤ MaxStreams lease →
  negotiated h lease = Z.min (hs_MaxStreams h) (MaxStreams lease).
Proof. intros. unfold negotiated. case_match; reflect_bools; lia. Qed.

Lemma validateLease_inv fid lease :
  validateLease fid lease = Ok tt →
  ForwardID lease = fid ∧ 1 ≤ RemotePort lease ≤ 65535 ∧ 1 ≤ Generation lease ∧
  1 ≤ MaxStreams lease ≤ 1024 ∧ 0 ≤ ControlPlaneGraceSeconds lease ∧
  ∃ expires, parse_rfc3339 (LeaseExpiresAt lease) = Some expires.
Proof.
  unfold validateLease. intros H. go_inv H. reflect_bools. rewrite String.eqb_eq in *.
  destruct (parse_rfc3339 (LeaseExpiresAt lease)) as [expires|]; [|done]. naive_solver lia.
Qed.

Lemma try_reply_refusal write_ok code h :
  h ∈ try_reply write_ok (refusal code) → sh_OK h = false.
Proof. unfold try_reply. case_match; [|set_solver]. by intros ->%list_elem_of_singleton. Qed.

(** C35: a tunnel opens, and a client is told so, only after the client framed
    a well-formed handshake for the configured forward with a token of 32 to
    256 bytes, the control plane redeemed exactly that token for the
    configured device and key, and the lease it returned validates for the
    configured forward.  The stream limit is then the smaller of the client's
    and the lease's, between 1 and 1024, and the bytes after the handshake
    are left for the tunnel. *)
Theorem tunnel_opens_authorized config input redeem write_ok run :
  serve_handshake config input redeem write_ok = run →
  (is_ok (outcome run) = true ∨ ∃ h, h ∈ replies run ∧ sh_OK h = true) →
  ∃ h header payload rest lease request,
    input = protocolMagic ++ header ++ payload ++ rest ∧
    uint32_of header = Z.of_nat (length payload) ∧ decode_handshake payload = Some h ∧
    request = mkRedeem (cfg_ForwardID config) (cfg_DeviceID config) (cfg_SSHKeyID config)
                (hs_ConnectToken h) ∧
    hs_ForwardID h = cfg_ForwardID config ∧ 32 ≤ len (hs_ConnectToken h) ≤ 256 ∧
    redeemed run = Some request ∧ redeem request = Ok lease ∧
    validateLease (cfg_ForwardID config) lease = Ok tt ∧
    outcome run = Ok (lease, Z.min (hs_MaxStreams h) (MaxStreams lease), rest) ∧
    1 ≤ Z.min (hs_MaxStreams h) (MaxStreams lease) ≤ 1024 ∧
    replies run = [acceptance h lease].
Proof.
  intros <- Hopen. unfold serve_handshake in *.
  destruct (has_dependencies config); cbn [negb] in *; [|set_solver].
  destruct (_ || _); [set_solver|].
  destruct (readClientHandshake input) as [[h rest]|e] eqn:Er;
    [|destruct Hopen as [?|(? & ?%try_reply_refusal & ?)]; [done|congruence]].
  destruct (negb _ || _ || _) eqn:Eid;
    [destruct Hopen as [?|(? & ?%try_reply_refusal & ?)]; [done|congruence]|].
  set (request := mkRedeem _ _ _ _) in *.
  destruct (redeem request) as [lease|err] eqn:Ered;
    [|destruct Hopen as [?|(? & ?%try_reply_refusal & ?)]; [done|congruence]].
  destruct (validateLease (cfg_ForwardID config) lease) as [[]|e] eqn:Ev;
    [|destruct Hopen as [?|(? & ?%try_reply_refusal & ?)]; [done|congruence]].
  destruct (writeServerHandshake write_ok (acceptance h lease)); [|set_solver].
  destruct (readClientHandshake_inv _ _ _ Er) as (header & payload & -> & _ & ? & _ & _ & ? & ? & _).
  destruct (validateLease_inv _ _ Ev) as (_ & _ & _ & Hm & _). reflect_bools.
  exists h, header, payload, rest, lease, request. rewrite String.eqb_eq in *. cbn.
  rewrite negotiated_bounds by lia. split_and!; try done; lia.
Qed.

(** ** Every failure is answered *)

Lemma list_byte_length s : Z.of_nat (length (bytes_of_string s)) = len s.
Proof.
  unfold bytes_of_string, len, String.list_byte_of_string. rewrite length_map. f_equal.
  induction s as [|c s IH]; cbn; [done|]. by rewrite IH.
Qed.

Lemma refusal_fits code :
  len code ≤ 512 → is_ok (writeServerHandshake true (refusal code)) = true.
Proof.
  intros Hc. unfold writeServerHandshake. rewrite list_byte_length.
  replace (maxHandshakePayload <? len (handshake_json (refusal code))) with false; [done|].
  symmetry. apply Z.ltb_ge. unfold maxHandshakePayload.
  pose proof (quote_len code). pose proof (len_nonneg code).
  unfold handshake_json. cbn [sh_OK sh_Protocol sh_LeaseExpiresAt sh_MaxStreams
    sh_MaxBytesPerSecond sh_ErrorCode refusal Z.eqb String.eqb bool_text app].
  destruct (String.eqb code ""); cbn [app].
  - vm_compute. done.
  - etrans; [apply (print_object_len _ 4000)|cbn [length]; lia].
    bound_members; eval_len; lia.
Qed.

(** The error code a refused redemption is answered with. *)
Definition code_bounded (redeem : RedeemPortForwardRequest → result api_error PortForwardLease)
  : Prop := ∀ r err, redeem r = Err err → len (publicErrorCode err) ≤ 512.

(** On a connection that accepts writes, every handshake that reaches the
    protocol stage and fails before the lease is accepted is answered by
    exactly one refusal carrying a non-empty error code.  The one exception is
    an acceptance whose expiry text exceeds the handshake frame limit. *)
Theorem failed_handshake_answered config input redeem e :
  has_dependencies config = true → cfg_ForwardID config ≠ "" → cfg_DeviceID config ≠ "" →
  cfg_SSHKeyID config ≠ "" → code_bounded redeem →
  outcome (serve_handshake config input redeem true) = Err e →
  (∃ code, replies (serve_handshake config input redeem true) = [refusal code] ∧ code ≠ "") ∨
  e = ResponseTooLarge.
Proof.
  intros Hdep Hf Hd Hk Hcode. unfold serve_handshake. rewrite Hdep. cbn [negb].
  rewrite !(proj2 (String.eqb_neq _ "")) by done. cbn [orb].
  assert (Hreply : ∀ code, len code ≤ 512 → try_reply true (refusal code) = [refusal code]).
  { intros code Hc. unfold try_reply. by rewrite refusal_fits. }
  destruct (readClientHandshake input) as [[h rest]|e'].
  2:{ intros _. left. exists "AUTH_INVALID". split; [apply Hreply; eval_len; lia|done]. }
  case_match.
  { intros _. left. exists "AUTH_INVALID". split; [apply Hreply; eval_len; lia|done]. }
  destruct (redeem _) as [lease|err] eqn:Er.
  2:{ intros _. left. exists (publicErrorCode err). split; [apply Hreply; by eapply Hcode|].
      destruct err as [st [|c code]|]; done. }
  destruct (validateLease _ lease).
  2:{ intros _. left. exists "PROTOCOL_UNSUPPORTED". split; [apply Hreply; eval_len; lia|done]. }
  unfold writeServerHandshake. cbv zeta.
  destruct (negb (maxHandshakePayload <? _)); cbn; [done|]. intros [= <-]. by right.
Qed.

(** ** The lease of an open tunnel *)

Definition run_ticks (forwardID : string)
    (ticks : list (result api_error PortForwardLease * time)) (st : lease_state) : lease_state :=
  foldl (λ st t, maintain_tick forwardID t.1 t.2 st) st ticks.

Lemma maintain_tick_pinned fid answer now st :
  validateLease fid (currentLease st) = Ok tt →
  validateLease fid (currentLease (maintain_tick fid answer now st)) = Ok tt ∧
  Generation (currentLease (maintain_tick fid answer now st)) = Generation (currentLease st).
Proof.
  intros Hv. unfold maintain_tick. destruct (tunnel_open st); cbn [negb]; [|done].
  destruct answer as [renewed|err]; case_match; cbn; try done.
  reflect_bools. destruct (validateLease fid renewed) as [[]|]; done.
Qed.

Lemma run_ticks_pinned fid ticks st :
  validateLease fid (currentLease st) = Ok tt →
  validateLease fid (currentLease (run_ticks fid ticks st)) = Ok tt ∧
  Generation (currentLease (run_ticks fid ticks st)) = Generation (currentLease st).
Proof.
  revert st. induction ticks as [|[answer now] ticks IH]; intros st Hv; [done|].
  destruct (maintain_tick_pinned fid answer now st Hv) as [Hv' Hg].
  destruct (IH _ Hv') as [? Hg']. split; [done|]. by rewrite <- Hg.
Qed.

Lemma run_ticks_closed fid ticks st :
  tunnel_open st = false → tunnel_open (run_ticks fid ticks st) = false.
Proof.
  revert st. induction ticks as [|[answer now] ticks IH]; intros st Hc; [done|].
  apply IH. unfold maintain_tick. by rewrite Hc.
Qed.

(** for as long as a tunnel lives, the lease it serves under validates for
    its forward and has the generation it was opened with, whatever the
    control plane answers; and a tunnel that is still open after a failed
    renewal got neither an authorization error nor a failure later than the
    lease's expiry plus its grace period. *)
Theorem tunnel_lease_pinned fid lease pre answer now post :
  validateLease fid lease = Ok tt →
  let before := run_ticks fid pre (mkLeaseState lease true) in
  let last := run_ticks fid (pre ++ (answer, now) :: post) (mkLeaseState lease true) in
  validateLease fid (currentLease last) = Ok tt ∧
  Generation (currentLease last) = Generation lease ∧
  (tunnel_open last = true → ∀ err, answer = Err err →
     isAuthorizationFailure err = false ∧
     now ≤ leaseFailureDeadline now (currentLease before) ∧
     currentLease (run_ticks fid (pre ++ [(answer, now)]) (mkLeaseState lease true)) =
       currentLease before).
Proof.
  intros Hv before last.
  destruct (run_ticks_pinned fid (pre ++ (answer, now) :: post) (mkLeaseState lease true) Hv)
    as [Hv' Hg]. split_and!; [done|done|].
  intros Hopen err ->. unfold last, before, run_ticks in *. rewrite foldl_app in *.
  cbn [foldl fst snd] in *. set (st := foldl _ _ pre) in *.
  destruct (tunnel_open (maintain_tick fid (Err err) now st)) eqn:Et.
  2:{ pose proof (run_ticks_closed fid post _ Et). unfold run_ticks in *. congruence. }
  unfold maintain_tick in *. destruct (tunnel_open st) eqn:Es; cbn [negb] in *; [|congruence].
  case_match; [done|]. unfold after in *. reflect_bools. done.
Qed.

(** The grace period of a valid lease is not bounded, so its 64-bit
    multiplication can wrap: this lease expires in 2100 and allows a grace of
    292 years and a second, yet a single transient failure in 2026 closes the
    tunnel. *)
Theorem grace_overflow_closes_early :
  ∃ lease now,
    validateLease "fwd" lease = Ok tt ∧
    parse_rfc3339 "2026-01-01T00:00:00Z" = Some now ∧
    LeaseExpiresAt lease = "2100-01-01T00:00:00Z" ∧
    tunnel_open (maintain_tick "fwd" (Err OtherError) now (mkLeaseState lease true)) = false.
Proof.
  exists (mkLease "fwd" "s" "native" "r" 80 1 "2100-01-01T00:00:00Z" 8 0 9223372037),
    1767225600000000000.
  split_and!; vm_compute; reflexivity.
Qed.

(** ** Concurrent streams *)

(** The handler with the identifiers of the streams inside [ServeHTTP] and of
    every stream admitted so far. *)
Record stream_state := mkStreams { hd : handler; active : list Z; issued : list Z }.

(** One atomic action of one of the concurrent handlers, or the end of the
    tunnel's context. *)
Inductive stream_step (fid : string) : stream_state → stream_state → Prop :=
  | step_refuse r s h code :
      stream_admit fid r (hd s) = (h, code) → (∀ id, code ≠ Dialing id) →
      stream_step fid s (mkStreams h (active s) (issued s))
  | step_admit r s h id :
      stream_admit fid r (hd s) = (h, Dialing id) →
      stream_step fid s (mkStreams h (id :: active s) (id :: issued s))
  | step_connect s id :
      id ∈ active s →
      stream_step fid s (mkStreams (stream_connected (hd s)) (active s) (issued s))
  | step_return s id before after :
      active s = before ++ id :: after →
      stream_step fid s (mkStreams (stream_return (hd s)) (before ++ after) (issued s))
  | step_cancel s :
      stream_step fid s (mkStreams ((hd s) <| ctx_open := false |>) (active s) (issued s)).

Definition initial_streams (limit : Z) : stream_state :=
  mkStreams (mkHandler true limit 0 0 0) [] [].

Inductive streams_reachable (fid : string) (limit : Z) : stream_state → Prop :=
  | streams_start : streams_reachable fid limit (initial_streams limit)
  | streams_next s s' :
      streams_reachable fid limit s → stream_step fid s s' → streams_reachable fid limit s'.

(** The identifiers issued so far count down from the stream counter. *)
Fixpoint counts_down (n : Z) (ids : list Z) : Prop :=
  match ids with
  | [] => n = 0
  | id :: rest => id = n ∧ counts_down (n - 1) rest
  end.

Record streams_inv (limit : Z) (s : stream_state) : Prop := {
  si_capacity : capacity (hd s) = limit;
  si_slots : slots (hd s) = Z.of_nat (length (active s));
  si_limit : Z.of_nat (length (active s)) ≤ limit;
  si_issued : Z.of_nat (length (issued s)) < 2 ^ 64 →
    counts_down (streamID (hd s)) (issued s) ∧ streamID (hd s) = Z.of_nat (length (issued s))
}.

Lemma stream_admit_inv fid r h h' code :
  stream_admit fid r h = (h', code) →
  (h' = h ∧ ∀ id, code ≠ Dialing id) ∨
  (slots h < capacity h ∧ validStreamRequest r fid = true ∧ ctx_open h = true ∧
   code = Dialing (wrap_uint64 (streamID h + 1)) ∧
   h' = (h <| slots := slots h + 1 |> <| streamID := wrap_uint64 (streamID h + 1) |>)).
Proof.
  unfold stream_admit. intros H. repeat case_match; simplify_eq; reflect_bools; auto 10.
Qed.

Lemma stream_step_inv fid limit s s' :
  0 ≤ limit → stream_step fid s s' → streams_inv limit s → streams_inv limit s'.
Proof.
  intros Hlim Hstep [Hcap Hslots Hle Hiss].
  destruct Hstep as [r s h code Hadm Hno|r s h id Hadm|s id Hin|s id pre post Hact|s].
  - destruct (stream_admit_inv _ _ _ _ _ Hadm) as [[-> _]|(_ & _ & _ & -> & _)]; [by split|].
    by destruct (Hno (wrap_uint64 (streamID (hd s) + 1))).
  - destruct (stream_admit_inv _ _ _ _ _ Hadm) as [[_ Hno]|(Hlt & _ & _ & [= ->] & ->)];
      [by destruct (Hno id)|].
    split; cbn in *; [done|lia|lia|]. intros Hlen. destruct Hiss as [Hc Hid]; [lia|].
    unfold wrap_uint64. rewrite Z.mod_small by lia. split; [|lia]. split; [done|].
    by replace (streamID (hd s) + 1 - 1) with (streamID (hd s)) by lia.
  - by split.
  - rewrite Hact, length_app in *. cbn in *.
    split; cbn; [done| | |done]; rewrite length_app; lia.
  - by split.
Qed.

Lemma streams_reachable_inv fid limit s :
  0 ≤ limit → streams_reachable fid limit s → streams_inv limit s.
Proof.
  intros Hlim. induction 1 as [|s s' _ IH Hstep].
  - split; cbn; try done; lia.
  - by eapply stream_step_inv.
Qed.

(** however the handlers of a tunnel interleave, the semaphore counts
    exactly the streams being served and never more than the negotiated
    limit: returning handlers give back every slot that admissions took. *)
Theorem stream_limit_respected fid limit s :
  1 ≤ limit → streams_reachable fid limit s →
  slots (hd s) = Z.of_nat (length (active s)) ∧ 0 ≤ slots (hd s) ≤ limit ∧
  (∀ r h code, stream_admit fid r (hd s) = (h, code) →
     validStreamRequest r fid = true → ctx_open (hd s) = true →
     code = TooManyRequests ↔ slots (hd s) = limit).
Proof.
  intros Hlim Hr. destruct (streams_reachable_inv fid limit s ltac:(lia) Hr) as [Hcap Hs Hle _].
  split_and!; [done|lia|lia|]. intros r h code Hadm Hvalid Hopen. unfold stream_admit in Hadm.
  rewrite Hvalid, Hopen, Hcap in Hadm. cbn [negb] in Hadm.
  case_match; reflect_bools; injection Hadm as <- <-; split; intros; try done; lia.
Qed.

Lemma counts_down_bound n ids : counts_down n ids → Forall (λ id, 1 ≤ id ≤ n) ids ∧ 0 ≤ n.
Proof.
  revert n. induction ids as [|id ids IH]; cbn; intros n; [intros ->; split; [constructor|lia]|].
  intros [-> [Hall Hn]%IH]. split; [|lia]. constructor; [lia|].
  eapply list.Forall_impl; [exact Hall|]. cbn. lia.
Qed.

Lemma counts_down_NoDup n ids : counts_down n ids → NoDup ids.
Proof.
  revert n. induction ids as [|id ids IH]; cbn; intros n; [constructor|].
  intros [-> Hc]. apply list.NoDup_cons. split; [|eauto].
  intros Hin. destruct (counts_down_bound _ _ Hc) as [Hall _].
  rewrite list.Forall_forall in Hall. apply Hall in Hin. lia.
Qed.

Lemma string_app_inj_l p s t : p +:+ s = p +:+ t → s = t.
Proof. induction p as [|c p IH]; [done|]. intros H. apply IH. by injection H. Qed.

(** The request identifiers that one tunnel sends to the privileged helper
    are pairwise distinct, for up to 2^64 - 1 admitted streams. *)
Theorem request_ids_distinct fid limit s :
  1 ≤ limit → streams_reachable fid limit s → Z.of_nat (length (issued s)) < 2 ^ 64 →
  NoDup (map (requestID fid) (issued s)).
Proof.
  intros Hlim Hr Hlen.
  destruct (streams_reachable_inv fid limit s ltac:(lia) Hr) as [_ _ _ Hiss].
  destruct (Hiss Hlen) as [Hc Hid]. pose proof (counts_down_NoDup _ _ Hc) as Hnd.
  destruct (counts_down_bound _ _ Hc) as [Hall _]. clear Hiss Hc.
  assert (Hmax : streamID (hd s) ≤ max_uint64) by (unfold max_uint64; lia). clear Hid Hlen.
  induction (issued s) as [|id ids IH]; [constructor|]. cbn [map].
  apply list.NoDup_cons in Hnd as [Hnin Hnd]. apply list.Forall_cons in Hall as [Hid Hall].
  apply list.NoDup_cons. split; [|auto]. intros (id' & Heq & Hin)%list_elem_of_fmap.
  unfold requestID in Heq. do 3 apply string_app_inj_l in Heq.
  rewrite list.Forall_forall in Hall. pose proof (Hall id' Hin).
  apply itoa_inj in Heq; [|lia..]. by subst.
Qed.

(** ** A concrete tunnel *)

Definition sample_lease : PortForwardLease :=
  mkLease "fwd" "session" "native" "resource" 8080 1 "2100-01-01T00:00:00Z" 8 0 30.

Definition sample_config : Config := mkConfig true "fwd" "device" "key".

Definition sample_payload : bytes := bytes_of_string (print_object
  [("forward_id", quote "fwd"); ("connect_token", quote "0123456789abcdef0123456789abcdef");
   ("client_version", quote "1.0"); ("max_streams", "4")]).

Definition sample_input : bytes :=
  protocolMagic ++ put_uint32 (Z.of_nat (length sample_payload)) ++ sample_payload ++ [x50].

Definition sample_redeem (_ : RedeemPortForwardRequest) : result api_error PortForwardLease :=
  Ok sample_lease.

Lemma tunnel_opens_authorized_witness :
  outcome (serve_handshake sample_config sample_input sample_redeem true) =
    Ok (sample_lease, 4, [x50]) ∧
  ∃ h header payload rest lease request,
    sample_input = protocolMagic ++ header ++ payload ++ rest ∧
    uint32_of header = Z.of_nat (length payload) ∧ decode_handshake payload = Some h ∧
    request = mkRedeem "fwd" "device" "key" (hs_ConnectToken h) ∧
    hs_ForwardID h = "fwd" ∧ 32 ≤ len (hs_ConnectToken h) ≤ 256 ∧
    redeemed (serve_handshake sample_config sample_input sample_redeem true) = Some request ∧
    sample_redeem request = Ok lease ∧ validateLease "fwd" lease = Ok tt ∧
    outcome (serve_handshake sample_config sample_input sample_redeem true) =
      Ok (lease, Z.min (hs_MaxStreams h) (MaxStreams lease), rest) ∧
    1 ≤ Z.min (hs_MaxStreams h) (MaxStreams lease) ≤ 1024 ∧
    replies (serve_handshake sample_config sample_input sample_redeem true) =
      [acceptance h lease].
Proof.
  split; [vm_compute; reflexivity|].
  refine (tunnel_opens_authorized sample_config sample_input sample_redeem true _ eq_refl _).
  left. vm_compute. reflexivity.
Defined.

Lemma failed_handshake_answered_witness :
  (∃ code, replies (serve_handshake sample_config [x41] sample_redeem true) = [refusal code] ∧
     code ≠ "") ∨ BadMagic = ResponseTooLarge.
Proof.
  refine (failed_handshake_answered sample_config [x41] sample_redeem BadMagic _ _ _ _ _ _);
    try reflexivity; discriminate.
Defined.

Lemma tunnel_lease_pinned_witness :
  Generation (currentLease
    (run_ticks "fwd" ([] ++ (Err OtherError, 1767225600000000000) :: []) (mkLeaseState sample_lease true)))
  = 1.
Proof.
  exact (proj1 (proj2 (tunnel_lease_pinned "fwd" sample_lease [] (Err OtherError)
    1767225600000000000 [] eq_refl))).
Defined.

Definition sample_request : request :=
  mkRequest "CONNECT" "session-loopback" [("X-Agent-Remote-Forward-Id", ["fwd"])].

Definition one_stream : stream_state :=
  mkStreams (mkHandler true 2 1 1 0) [1] [1].

Lemma one_stream_reachable : streams_reachable "fwd" 2 one_stream.
Proof.
  eapply streams_next; [apply streams_start|]. eapply (step_admit _ sample_request). reflexivity.
Qed.

Lemma stream_limit_respected_witness : slots (hd one_stream) = 1.
Proof. exact (proj1 (stream_limit_respected "fwd" 2 one_stream ltac:(lia) one_stream_reachable)). Defined.

Lemma request_ids_distinct_witness : NoDup ["pf-fwd-1"].
Proof. exact (request_ids_distinct "fwd" 2 one_stream ltac:(lia) one_stream_reachable ltac:(cbn; lia)). Defined.
