(* ===== verification/StartResult.v ===== *)
(** * Snapshot identities and managed-start results

    The identity that binds skill content to its task and owners
    (src/internal/skillmanager/preparation.go), and the outcome of a managed
    session start as the server retains and observes it
    (src/internal/api/skill_start_result.go, skill_start_inspection.go):
    construction, validation, and the strict JSON decoders.  [hex_sha256] is
    the hexadecimal SHA-256 of the Go library. *)

From S2P Require Import Prelude GoText GoTime GoJson GoUtf8 GoJsonText GoJsonValue GoJsonDecode GoJsonStruct.
From Stdlib.Strings Require Import Ascii.

(** ** Identities *)

Definition uuid_classes : list (ascii → bool) :=
  replicate 8 is_hex ++ [is_dash] ++ replicate 4 is_hex ++ [is_dash] ++ replicate 4 is_hex ++
  [is_dash] ++ replicate 4 is_hex ++ [is_dash] ++ replicate 12 is_hex.

Definition snapshotInputUUID (s : string) : bool := match_classes uuid_classes s.

Definition validSkillUUID (value : string) : bool :=
  snapshotInputUUID value && negb (String.eqb value "00000000-0000-0000-0000-000000000000").

Module Identity.
Record SkillSnapshotIdentity := mk {
  SnapshotID : string;
  TaskID : string;
  NodeID : string;
  UserID : string;
  AccountID : string;
  SessionID : string;
  RuntimeBackend : string
}.

#[global] Instance eq_dec : EqDecision SkillSnapshotIdentity.
Proof. solve_decision. Defined.

Definition fields : list (field SkillSnapshotIdentity) := [
  str_field "snapshot_id" SnapshotID (λ x r, r <| SnapshotID := x |>);
  str_field "task_id" TaskID (λ x r, r <| TaskID := x |>);
  str_field "node_id" NodeID (λ x r, r <| NodeID := x |>);
  str_field "user_id" UserID (λ x r, r <| UserID := x |>);
  str_field "account_id" AccountID (λ x r, r <| AccountID := x |>);
  str_field "session_id" SessionID (λ x r, r <| SessionID := x |>);
  str_field "runtime_backend" RuntimeBackend (λ x r, r <| RuntimeBackend := x |>)].

Definition zero : SkillSnapshotIdentity := mk "" "" "" "" "" "" "".

Definition Validate (b : SkillSnapshotIdentity) : bool :=
  forallb validSkillUUID [SnapshotID b; TaskID b; NodeID b; UserID b; AccountID b; SessionID b] &&
  (String.eqb (RuntimeBackend b) "native" || String.eqb (RuntimeBackend b) "docker_sandbox").
End Identity.
Export Identity(SkillSnapshotIdentity).

(** ** Start results *)

Module Start.
Record ManagedSessionStartResult := mk {
  SessionID : string;
  AccountID : string;
  RuntimeBackend : string;
  RuntimeResourceID : string;
  SnapshotID : string;
  TaskRecordID : string;
  LeaseAttempt : Z;
  Status : string;
  ToolType : string;
  TmuxSessionName : string;
  Code : string;
  Message : string
}.

#[global] Instance eq_dec : EqDecision ManagedSessionStartResult.
Proof. solve_decision. Defined.

Definition fields : list (field ManagedSessionStartResult) := [
  str_field "session_id" SessionID (λ x r, r <| SessionID := x |>);
  str_field "tool_account_id" AccountID (λ x r, r <| AccountID := x |>);
  str_field "runtime_backend" RuntimeBackend (λ x r, r <| RuntimeBackend := x |>);
  str_field "runtime_resource_id" RuntimeResourceID (λ x r, r <| RuntimeResourceID := x |>);
  str_field "skill_snapshot_id" SnapshotID (λ x r, r <| SnapshotID := x |>);
  str_field "task_record_id" TaskRecordID (λ x r, r <| TaskRecordID := x |>);
  int_field "lease_attempt" LeaseAttempt (λ x r, r <| LeaseAttempt := x |>);
  str_omit_field "status" Status (λ x r, r <| Status := x |>);
  str_omit_field "tool_type" ToolType (λ x r, r <| ToolType := x |>);
  str_omit_field "tmux_session_name" TmuxSessionName (λ x r, r <| TmuxSessionName := x |>);
  str_omit_field "code" Code (λ x r, r <| Code := x |>);
  str_omit_field "message" Message (λ x r, r <| Message := x |>)].

Definition zero : ManagedSessionStartResult := mk "" "" "" "" "" "" 0 "" "" "" "" "".

Definition common_names : list string :=
  ["session_id"; "tool_account_id"; "runtime_backend"; "runtime_resource_id"; "skill_snapshot_id";
   "task_record_id"; "lease_attempt"].

(** [UnmarshalJSON] *)
Definition of_json (j : json) : option ManagedSessionStartResult :=
  if negb (no_duplicate_keys j) then None
  else
    let allowed := if is_some (raw_member j "status")
                   then common_names ++ ["status"; "tool_type"; "tmux_session_name"]
                   else common_names ++ ["code"; "message"] in
    if exact_members "" allowed j then decode_struct fields zero j else None.
End Start.
Export Start(ManagedSessionStartResult).

Definition max_attempt : Z := 2147483647.

Definition managedStartStoppedMessage : string :=
  "Managed startup stopped; skill finalization is pending.".

(** The characters no identifier on a path or a line may have. *)
Definition nul_cr_lf : string := String (chr 0) (String (chr 13) (String (chr 10) "")).
Definition path_breakers : string := String "/" (String "\" nul_cr_lf).

Section Results.
Context (hex_sha256 : list Z → string).

Definition runtime_resource (sessionID : string) : string :=
  "agent-remote-session-" +:+ String.substring 0 12 (hex_sha256 (codes sessionID)) +:+ ".service".

(** [validate] *)
Definition validate_start (r : ManagedSessionStartResult) (binding : SkillSnapshotIdentity)
    (attempt : Z) : bool :=
  Identity.Validate binding && String.eqb (Identity.RuntimeBackend binding) "native" &&
  (0 <? attempt) && (attempt <=? max_attempt) &&
  String.eqb (Start.SessionID r) (Identity.SessionID binding) &&
  String.eqb (Start.AccountID r) (Identity.AccountID binding) &&
  String.eqb (Start.RuntimeBackend r) (Identity.RuntimeBackend binding) &&
  String.eqb (Start.SnapshotID r) (Identity.SnapshotID binding) &&
  String.eqb (Start.TaskRecordID r) (Identity.TaskID binding) &&
  (Start.LeaseAttempt r =? attempt) &&
  String.eqb (Start.RuntimeResourceID r) (runtime_resource (Identity.SessionID binding)) &&
  (String.eqb (Start.Status r) "running" && String.eqb (Start.ToolType r) "claude" &&
   non_empty (Start.TmuxSessionName r) && (len (Start.TmuxSessionName r) <=? 128) &&
   negb (contains_any nul_cr_lf (Start.TmuxSessionName r)) &&
   String.eqb (Start.Code r) "" && String.eqb (Start.Message r) ""
   ||
   String.eqb (Start.Code r) "SKILL_START_STOPPED" &&
   String.eqb (Start.Message r) managedStartStoppedMessage &&
   String.eqb (Start.Status r) "" && String.eqb (Start.ToolType r) "" &&
   String.eqb (Start.TmuxSessionName r) "").

Definition NewManagedSessionStartResult (binding : SkillSnapshotIdentity) (attempt : Z)
    (status tmux : string) : option ManagedSessionStartResult :=
  let base := Start.mk (Identity.SessionID binding) (Identity.AccountID binding)
    (Identity.RuntimeBackend binding) (runtime_resource (Identity.SessionID binding))
    (Identity.SnapshotID binding) (Identity.TaskID binding) attempt "" "" "" "" "" in
  let checked r := if validate_start r binding attempt then Some r else None in
  if String.eqb status "running" then
    checked (base <| Start.Status := status |> <| Start.ToolType := "claude" |>
                  <| Start.TmuxSessionName := tmux |>)
  else if String.eqb status "stopped" then
    if non_empty tmux then None
    else checked (base <| Start.Code := "SKILL_START_STOPPED" |>
                       <| Start.Message := managedStartStoppedMessage |>)
  else None.

End Results.

(** ** Observations *)

Module Observation.
Record ManagedStartObservation := mk {
  Result : ManagedSessionStartResult;
  Accepted : bool;
  CurrentLeaseAttempt : Z;
  TaskStatus : string
}.

#[global] Instance eq_dec : EqDecision ManagedStartObservation.
Proof. solve_decision. Defined.

Definition fields : list (field ManagedStartObservation) := [
  sub_field "result" Result (λ x r, r <| Result := x |>)
    (encode_struct Start.fields) (λ _, Start.of_json);
  bool_field "accepted" Accepted (λ x r, r <| Accepted := x |>);
  int_field "current_lease_attempt" CurrentLeaseAttempt (λ x r, r <| CurrentLeaseAttempt := x |>);
  str_field "task_status" TaskStatus (λ x r, r <| TaskStatus := x |>)].

Definition zero : ManagedStartObservation := mk Start.zero false 0 "".

(** [UnmarshalJSON] *)
Definition of_json (j : json) : option ManagedStartObservation :=
  if negb (no_duplicate_keys j) then None
  else if exact_members "" ["result"; "accepted"; "current_lease_attempt"; "task_status"] j
  then decode_struct fields zero j else None.

Definition validate (o : ManagedStartObservation) : bool :=
  (0 <=? CurrentLeaseAttempt o) && (CurrentLeaseAttempt o <=? max_attempt) &&
  if Accepted o then
    String.eqb (TaskStatus o) (if String.eqb (Start.Status (Result o)) "running" then "succeeded" else "failed") &&
    (Start.LeaseAttempt (Result o) <=? CurrentLeaseAttempt o)
  else bool_decide (TaskStatus o ∈ ["pending"; "leased"; "running"; "cancelled"; "expired"]).
End Observation.
Export Observation(ManagedStartObservation).

(** ** Reading identities and results back *)

Lemma uuid_ascii s : validSkillUUID s = true → all_chars is_ascii s = true.
Proof.
  intros [H _]%andb_true_iff. eapply classes_ascii; [|exact H].
  unfold uuid_classes. cbn [replicate app].
  repeat (apply Forall_cons_2;
    [first [exact hex_ascii | intros c; by destruct c as [[] [] [] [] [] [] [] []]]|]). constructor.
Qed.

Lemma uuid_utf8 s : validSkillUUID s = true → valid_utf8 (codes s) = true.
Proof. intros Hs. by apply ascii_utf8, uuid_ascii. Qed.

Lemma identity_disjoint : disjoint_fields Identity.fields.
Proof. solve_disjoint. Qed.

Lemma identity_texts b :
  Identity.Validate b = true →
  Forall (λ s, valid_utf8 (codes s) = true)
    [Identity.SnapshotID b; Identity.TaskID b; Identity.NodeID b; Identity.UserID b;
     Identity.AccountID b; Identity.SessionID b; Identity.RuntimeBackend b].
Proof.
  unfold Identity.Validate. rewrite andb_true_iff, forallb_forall. intros [Hids Hb].
  assert (∀ s, In s [Identity.SnapshotID b; Identity.TaskID b; Identity.NodeID b; Identity.UserID b;
     Identity.AccountID b; Identity.SessionID b] → valid_utf8 (codes s) = true) as Hu
    by (intros s Hs; by apply uuid_utf8, Hids).
  do 6 (apply Forall_cons_2; [apply Hu; cbn; tauto|]). apply Forall_cons_2; [|constructor].
  apply orb_true_iff in Hb as [->%String.eqb_eq| ->%String.eqb_eq]; done.
Qed.

Lemma identity_carried b :
  Identity.Validate b = true →
  carried (encode_struct Identity.fields b)
    (λ current _, decode_struct Identity.fields current) b.
Proof.
  intros Hb%identity_texts. apply struct_carried_into; [apply identity_disjoint| |].
  - decompose_Forall_hyps. repeat (apply Forall_cons_2; [by apply carries_str|]). constructor.
  - intros zero. by destruct b.
Qed.

Lemma start_disjoint : disjoint_fields Start.fields.
Proof. solve_disjoint. Qed.

Section ResultFacts.
Context (hex_sha256 : list Z → string).
Hypothesis hex_sha256_hex : ∀ bs, all_chars is_hex (hex_sha256 bs) = true.

Lemma resource_ascii id : all_chars is_ascii (runtime_resource hex_sha256 id) = true.
Proof.
  unfold runtime_resource. rewrite !all_chars_app. apply andb_true_iff. split; [done|].
  apply andb_true_iff. split; [|done]. apply substring_chars.
  eapply all_chars_impl; [exact hex_ascii|apply hex_sha256_hex].
Qed.

(** The two shapes of a valid result. *)
Lemma validate_start_cases r b n :
  validate_start hex_sha256 r b n = true →
  Identity.Validate b = true ∧ 0 < n ≤ max_attempt ∧ ∃ tmux,
  (tmux ≠ "" ∧
   r = Start.mk (Identity.SessionID b) (Identity.AccountID b) (Identity.RuntimeBackend b)
         (runtime_resource hex_sha256 (Identity.SessionID b)) (Identity.SnapshotID b)
         (Identity.TaskID b) n "running" "claude" tmux "" "") ∨
  (r = Start.mk (Identity.SessionID b) (Identity.AccountID b) (Identity.RuntimeBackend b)
         (runtime_resource hex_sha256 (Identity.SessionID b)) (Identity.SnapshotID b)
         (Identity.TaskID b) n "" "" "" "SKILL_START_STOPPED" managedStartStoppedMessage).
Proof.
  unfold validate_start. destruct r as [s a rb rr sn t la st tt tm c m]. cbn [Start.SessionID
    Start.AccountID Start.RuntimeBackend Start.RuntimeResourceID Start.SnapshotID Start.TaskRecordID
    Start.LeaseAttempt Start.Status Start.ToolType Start.TmuxSessionName Start.Code Start.Message].
  rewrite !andb_true_iff, orb_true_iff, !andb_true_iff, !String.eqb_eq, Z.ltb_lt, Z.leb_le, Z.eqb_eq.
  intros [((((((((([Hb _] & H0) & H1) & ->) & ->) & ->) & ->) & ->) & ->) & ->) Hshape].
  split_and!; [done|done|done|]. exists tm.
  destruct Hshape as [[[[[[[-> ->] Hne] _] _] ->] ->]|[[[[-> ->] ->] ->] ->]]; [left|by right].
  split; [|done]. intros ->. done.
Qed.

Lemma start_carried r b n :
  validate_start hex_sha256 r b n = true → valid_utf8 (codes (Start.TmuxSessionName r)) = true →
  carried (encode_struct Start.fields r) (λ _ _, Start.of_json) r.
Proof.
  intros Hv Htm. apply validate_start_cases in Hv as (Hb & Hn & tm & Hshape).
  pose proof (identity_texts b Hb) as Hu. decompose_Forall_hyps.
  pose proof (ascii_utf8 _ (resource_ascii (Identity.SessionID b))) as Hres.
  assert (Hint : 0 ≤ n ≤ max_int64) by (unfold max_attempt, max_int64 in *; lia).
  assert (Hc : carried (encode_struct Start.fields r) (λ _ _, decode_struct Start.fields Start.zero) r).
  { apply struct_carried; [apply start_disjoint| |].
    - destruct Hshape as [[_ ->]| ->];
        repeat (apply Forall_cons_2; [first [by apply carries_str|by apply carries_int|by apply carries_str_omit]|]);
        constructor.
    - destruct Hshape as [[Hne ->]| ->]; [|done]. unfold rebuild, present. cbn.
      by rewrite (proj2 (String.eqb_neq tm "") Hne). }
  unfold Start.of_json. cbv zeta. refine (strict_carried Start.fields Start.zero r "" _ Hc _ _).
  - intros st d v (l & -> & Hk & _)%same_keys.
    rewrite has_member_tree.
    2: { rewrite Hk. by destruct Hc as (_ & [Hnd _]%distinct_obj & _). }
    assert (bool_decide ("status" ∈ map fst l) =
      bool_decide ("status" ∈ map fst (flat_map (encode_field r) Start.fields))) as ->
      by (apply bool_decide_ext; by rewrite Hk).
    destruct Hshape as [[Hne ->]| ->]; unfold encode_field; cbn; [|done].
    by rewrite (proj2 (String.eqb_neq tm "") Hne).
  - repeat (apply Forall_cons_2; [right; cbn; intros v; repeat case_match; by intros [= <-]|]). constructor.
Qed.

End ResultFacts.

(** ** Observations *)

Lemma observation_disjoint : disjoint_fields Observation.fields.
Proof. solve_disjoint. Qed.

Lemma observation_carried o :
  carried (encode_struct Start.fields (Observation.Result o)) (λ _ _, Start.of_json) (Observation.Result o) →
  0 ≤ Observation.CurrentLeaseAttempt o ≤ max_attempt →
  valid_utf8 (codes (Observation.TaskStatus o)) = true →
  carried (encode_struct Observation.fields o) (λ _ _, Observation.of_json) o.
Proof.
  intros Hr Hn Hs.
  assert (Hc : carried (encode_struct Observation.fields o)
    (λ _ _, decode_struct Observation.fields Observation.zero) o).
  { apply struct_carried; [apply observation_disjoint| |by destruct o].
    repeat (apply Forall_cons_2; [first [by apply carries_sub|by apply carries_bool|by apply carries_str|
      apply carries_int; [done|unfold max_attempt, max_int64 in *; lia]]|]). constructor. }
  unfold Observation.of_json. refine (strict_carried Observation.fields Observation.zero o ""
    (λ _, ["result"; "accepted"; "current_lease_attempt"; "task_status"]) Hc _ _); [done|].
  repeat (apply Forall_cons_2; [right; cbn; intros v; by intros [= <-]|]). constructor.
Qed.
