(* ===== verification/Ledger.v ===== *)
(** * The task ledger (src/internal/ledger/ledger.go, publish.go)

    The ledger keeps the outcome of every task on disk, as one JSON object.
    Its Go map of entries is a list sorted by key; an entry's result and
    error are [map[string]any] trees.  [disk] is the content of the ledger
    file, [None] when it does not exist.  Publication writes a temporary file
    and renames it; each system call is an answer of the environment, so the
    model covers a failure at every step.  A stored time keeps its instant;
    the ledger itself writes UTC only.

    Values in this model are immutable, so the copies that [Get], [List] and
    [saveLocked] make by encoding and decoding show as conversions and not as
    the absence of sharing. *)

From S2P Require Import Prelude GoText GoTime GoJson GoUtf8 GoJsonText GoJsonValue GoJsonDecode.
From Stdlib.Strings Require Import Ascii.

Abbreviation object := (list (string * value)).

Record Entry := mkEntry {
  TaskID : string;
  Status : string;
  Result : option object;
  Error : option object;
  UpdatedAt : time
}.

#[global] Instance Entry_eq_dec : EqDecision Entry.
Proof. solve_decision. Defined.

Inductive ledger_error :=
  | ErrConflict | ErrInvalidJSON | ErrNotObject | ErrRead | ErrEncode | ErrPublish | ErrUncertain.

#[global] Instance ledger_error_eq_dec : EqDecision ledger_error.
Proof. solve_decision. Defined.

(** ** Encoding *)

(** [omitempty] on a map: a nil or empty map is left out. *)
Definition optional_field (name : string) (m : option object) : object :=
  match m with
  | None | Some [] => []
  | Some fields => [(name, VObj fields)]
  end.

(** The zero of [time.Time] is the first instant of the year 1. *)
Definition zero_time : time := -62135596800 * second.

Definition in_json_years (t : time) : bool :=
  (days_from_civil 0 1 1 * 86400 * second <=? t) && (t <? days_from_civil 10000 1 1 * 86400 * second).

Definition entry_value (e : Entry) : value :=
  VObj ([("task_id", VStr (TaskID e)); ("status", VStr (Status e))] ++
        optional_field "result" (Result e) ++ optional_field "error" (Error e) ++
        [("updated_at", VStr (format_rfc3339 (UpdatedAt e)))]).

Definition map_encodable (m : option object) : bool :=
  match m with Some fields => encodable (VObj fields) | None => true end.

(** Whether [json.Marshal] accepts the entry. *)
Definition entry_encodable (e : Entry) : bool :=
  map_encodable (Result e) && map_encodable (Error e) && in_json_years (UpdatedAt e).

Definition marshal_entry (e : Entry) : option string :=
  if entry_encodable e then Some (print_value compact 0 (entry_value e)) else None.

(** ** Decoding *)

Definition entry_names : list string := ["task_id"; "status"; "result"; "error"; "updated_at"].

Definition zero_entry : Entry := mkEntry "" "" None None zero_time.

(** A JSON text between double quotes: what [Time.UnmarshalJSON] looks at. *)
Definition unquoted (raw : string) : option string :=
  match raw with
  | String q rest =>
      if Ascii.eqb q quote_char && bool_decide (last_char rest = Some quote_char)
      then Some (String.substring 0 (String.length rest - 1) rest) else None
  | "" => None
  end.

Definition time_of_json (current : time) (raw : string) : option time :=
  if String.eqb raw "null" then Some current
  else text ← unquoted raw; parse_strict_rfc3339 text.

Definition entry_assign (name raw : string) (v : json) (e : Entry) : option Entry :=
  if String.eqb name "task_id" then
    s ← string_of_json (TaskID e) v; Some (e <| TaskID := s |>)
  else if String.eqb name "status" then
    s ← string_of_json (Status e) v; Some (e <| Status := s |>)
  else if String.eqb name "result" then
    m ← map_of_json (Result e) v; Some (e <| Result := m |>)
  else if String.eqb name "error" then
    m ← map_of_json (Error e) v; Some (e <| Error := m |>)
  else t ← time_of_json (UpdatedAt e) raw; Some (e <| UpdatedAt := t |>).

Definition entry_of_json : json → option Entry :=
  lax_struct_of_json entry_names entry_assign zero_entry.

(** [decodeJSON] into one entry. *)
Definition decode_entry (text : string) : result ledger_error Entry :=
  match parse_json text with
  | None => Err ErrInvalidJSON
  | Some j => match entry_of_json j with Some e => Ok e | None => Err ErrInvalidJSON end
  end.

Abbreviation entries := (list (string * Entry)).

Fixpoint members_of_json (fields : list (string * string * json)) (m : entries) : option entries :=
  match fields with
  | [] => Some m
  | (key, _, v) :: rest => e ← entry_of_json v; members_of_json rest (put key e m)
  end.

(** [decodeJSON] into the map of entries; [None] is the nil map. *)
Definition decode_entries (text : string) : result ledger_error (option entries) :=
  match parse_json text with
  | None => Err ErrInvalidJSON
  | Some JNull => Ok None
  | Some (JObj fields) =>
      match members_of_json fields [] with Some m => Ok (Some m) | None => Err ErrInvalidJSON end
  | Some _ => Err ErrInvalidJSON
  end.

Definition entries_value (m : entries) : value := VObj (map (λ f, (f.1, entry_value f.2)) m).

(** [json.MarshalIndent] of the map. *)
Definition marshal_entries (m : entries) : option string :=
  if forallb (λ f, entry_encodable f.2) m
  then Some (print_value indented 0 (entries_value m)) else None.

(** ** Publication *)

(** The answers of the system calls of [publish], in order. *)
Record publish_io := mkPublish {
  mkdir_ok : bool;
  lstat_ok : bool;      (* found, or certainly absent *)
  regular_ok : bool;    (* absent or a regular file *)
  open_ok : bool;
  create_ok : bool;
  write_ok : bool;
  sync_ok : bool;
  close_ok : bool;
  rename_ok : bool;
  dirsync_ok : bool
}.

(** The file afterwards, whether it was renamed, and whether all went well. *)
Definition publish (io : publish_io) (disk : option string) (data : string)
    : option string * bool * bool :=
  if mkdir_ok io && lstat_ok io && regular_ok io && open_ok io && create_ok io && write_ok io &&
     sync_ok io && close_ok io && rename_ok io
  then (Some data, true, dirsync_ok io)
  else (disk, false, false).

(** ** The ledger *)

Record Ledger := mkLedger {
  stored : entries;
  failed : bool;
  disk : option string
}.

Inductive file := Missing | Unreadable | Content (text : string).

Definition Open (f : file) : result ledger_error Ledger :=
  match f with
  | Missing => Ok (mkLedger [] false None)
  | Unreadable => Err ErrRead
  | Content text =>
      decoded ← decode_entries text;
      match decoded with
      | None => Err ErrNotObject
      | Some m => Ok (mkLedger m false (Some text))
      end
  end.

Definition Get (l : Ledger) (taskID : string) : result ledger_error (option Entry) :=
  require negb (failed l) orelse ErrUncertain ;;
  match get taskID (stored l) with
  | None => Ok None
  | Some e =>
      match marshal_entry e with
      | None => Err ErrEncode
      | Some text => detached ← decode_entry text; Ok (Some detached)
      end
  end.

(** [saveLocked] at time [now]. *)
Definition saveLocked (now : time) (io : publish_io) (l : Ledger) (e : Entry)
    : Ledger * result ledger_error unit :=
  if failed l then (l, Err ErrUncertain)
  else
    let next := put (TaskID e) (e <| UpdatedAt := now |>) (stored l) in
    match marshal_entries next with
    | None => (l, Err ErrEncode)
    | Some data =>
        match decode_entries data with
        | Ok (Some next) =>
            let '(disk', renamed, ok) := publish io (disk l) (data +:+ String (chr 10) "") in
            if ok then (mkLedger next false disk', Ok tt)
            else (l <| disk := disk' |> <| failed := renamed |>, Err ErrPublish)
        | Ok None => (l, Err ErrInvalidJSON)
        | Err e => (l, Err e)
        end
    end.

Definition Save := saveLocked.

Definition CompareAndSwap (now : time) (io : publish_io) (l : Ledger) (expected : option Entry)
    (e : Entry) : Ledger * result ledger_error unit :=
  if failed l then (l, Err ErrUncertain)
  else
    let current := get (TaskID e) (stored l) in
    match expected with
    | None =>
        match current with
        | Some _ => (l, Err ErrConflict)
        | None => saveLocked now io l e
        end
    | Some x =>
        match current with
        | None => (l, Err ErrConflict)
        | Some c =>
            if negb (String.eqb (TaskID x) (TaskID e)) then (l, Err ErrConflict)
            else match marshal_entry x, marshal_entry c with
            | Some before, Some actual =>
                if String.eqb before actual then saveLocked now io l e else (l, Err ErrConflict)
            | _, _ => (l, Err ErrEncode)
            end
        end
    end.

(** [List]: the entries of one status, decoded from one array and sorted by
    task.  [visited] is the map in the order Go happens to iterate over it. *)
Fixpoint insert_by_task (e : Entry) (l : list Entry) : list Entry :=
  match l with
  | [] => [e]
  | x :: rest => if str_ltb (TaskID x) (TaskID e) then x :: insert_by_task e rest else e :: l
  end.

Definition sort_by_task (l : list Entry) : list Entry := foldr insert_by_task [] l.

Fixpoint decode_all (items : list json) : option (list Entry) :=
  match items with
  | [] => Some []
  | j :: rest => e ← entry_of_json j; es ← decode_all rest; Some (e :: es)
  end.

Definition List_ (visited : entries) (l : Ledger) (status : string) : result ledger_error (list Entry) :=
  require negb (failed l) orelse ErrUncertain ;;
  let selected := List.filter (λ e, String.eqb (Status e) status) (map snd visited) in
  if negb (forallb entry_encodable selected) then Err ErrEncode
  else match parse_json (print_value compact 0 (VArr (map entry_value selected))) with
  | Some (JArr items) =>
      match decode_all items with
      | Some detached => Ok (sort_by_task detached)
      | None => Err ErrInvalidJSON
      end
  | _ => Err ErrInvalidJSON
  end.
