(* ===== verification/TaskStore.v ===== *)
(** * What the journals need of the ledger

    The worker's journals read and replace single entries of the task ledger.
    [TaskStore] names the operations they call and [DurableMap] what they rely
    on: the store is a map from tasks to entries that outlives a restart,
    replaced entry by entry with compare-and-swap; a replacement that fails
    leaves it unchanged, or, when the outcome is unknown, stops the store until
    it is opened again.  The journals are proved against this interface;
    LedgerFacts shows that the ledger implements it. *)

From S2P Require Import Prelude GoText GoJson GoUtf8 GoJsonValue GoJsonDecode Ledger.

(** [Env] is what one replacement takes from outside: the time and the answers
    of the file system. *)
Class TaskStore (L Env : Type) := {
  store_get : L → string → result ledger_error (option Entry);
  store_list : L → string → result ledger_error (list Entry);
  store_swap : Env → L → option Entry → Entry → L * result ledger_error unit;
  store_save : Env → L → Entry → L * result ledger_error unit;
  store_reopen : L → result ledger_error L
}.

(** Objects an entry can hold: they read back from JSON inside the entries. *)
Definition storable_object (m : object) : Prop :=
  m ≠ [] ∧ faithful (VObj m) ∧ canonical (VObj m) ∧ (S (S (height (VObj m))) ≤ max_depth)%nat.

(** The map [f] with the entry of one task replaced. *)
Definition replaced (f : string → option Entry) (id : string) (e : Entry) (g : string → option Entry) : Prop :=
  ∀ k, g k = if String.eqb k id then Some e else f k.

(** The outcomes of storing [e] in [l]: stored, or refused without effect, or
    stored but in doubt. *)
Definition stored_or_not {L : Type} (sound : L → Prop) (content : L → string → option Entry)
    (in_doubt : L → bool) (l : L) (e kept : Entry) (run : L * result ledger_error unit) : Prop :=
  ∃ l' r, run = (l', r) ∧ sound l' ∧
    ((r = Ok tt ∧ in_doubt l' = false ∧ replaced (content l) (TaskID e) kept (content l')) ∨
     (r = Err ErrPublish ∧ l' = l) ∨
     (r = Err ErrPublish ∧ in_doubt l' = true ∧ replaced (content l) (TaskID e) kept (content l'))).

Class DurableMap (L Env : Type) `{TaskStore L Env} := {
  sound : L → Prop;                         (* the invariant of the store *)
  content : L → string → option Entry;      (* what a restart would find *)
  in_doubt : L → bool;
  keeps : Env → Entry → Entry;              (* the entry as it is stored *)
  admits : Env → Entry → Prop;              (* entries that can be stored *)
  proper : Entry → Prop;                    (* entries that have been stored *)
  timely : Env → Prop;                      (* the clock shows a year JSON can hold *)

  content_proper l id e : sound l → content l id = Some e → proper e ∧ TaskID e = id;
  keeps_proper env e : admits env e → proper (keeps env e);
  keeps_fields env e :
    TaskID (keeps env e) = TaskID e ∧ Status (keeps env e) = Status e ∧
    (Result e ≠ Some [] → Result (keeps env e) = Result e) ∧
    (Error e ≠ Some [] → Error (keeps env e) = Error e);
  admits_intro env e m :
    timely env → valid_utf8 (codes (TaskID e)) = true → valid_utf8 (codes (Status e)) = true →
    (Error e = None ∧ Result e = Some m ∨ Result e = None ∧ Error e = Some m) →
    storable_object m → admits env e;
  proper_text e : proper e → valid_utf8 (codes (TaskID e)) = true;
  proper_object e m : proper e → Result e = Some m → storable_object m;
  get_spec l id : sound l → store_get l id = if in_doubt l then Err ErrUncertain else Ok (content l id);
  list_spec l status :
    sound l → in_doubt l = false →
    ∃ out, store_list l status = Ok out ∧ NoDup (map TaskID out) ∧
      ∀ e, e ∈ out ↔ Status e = status ∧ content l (TaskID e) = Some e;
  list_doubt l status : in_doubt l = true → store_list l status = Err ErrUncertain;
  swap_doubt env l x e : in_doubt l = true → store_swap env l x e = (l, Err ErrUncertain);
  swap_conflict env l x e :
    sound l → in_doubt l = false → (∀ y, x = Some y → proper y) →
    content l (TaskID e) ≠ x → store_swap env l x e = (l, Err ErrConflict);
  swap_match env l x e :
    sound l → in_doubt l = false → admits env e → content l (TaskID e) = x →
    stored_or_not sound content in_doubt l e (keeps env e) (store_swap env l x e);
  save_doubt env l e : in_doubt l = true → store_save env l e = (l, Err ErrUncertain);
  save_stores env l e :
    sound l → in_doubt l = false → admits env e →
    stored_or_not sound content in_doubt l e (keeps env e) (store_save env l e);
  reopen_spec l :
    sound l → ∃ l', store_reopen l = Ok l' ∧ sound l' ∧ in_doubt l' = false ∧
                    ∀ id, content l' id = content l id
}.
