(* ===== verification/LedgerFacts.v ===== *)
(** * What the task ledger guarantees

    Entries that JSON can represent are stored exactly; what the ledger
    answers is always what a restart would load from its file; a publication
    that fails leaves the ledger as it was, and one whose outcome is unknown
    stops it. *)

From S2P Require Import Prelude GoText GoTime GoJson GoUtf8 GoJsonText GoJsonValue GoJsonDecode GoJsonStruct Ledger TaskStore.
From Stdlib.Strings Require Import Ascii.
From Stdlib Require Import Sorted.

(** ** Plain text is quoted as it is *)

Definition plain_char (c : ascii) : bool := is_digit c || has_char "-T:.Z" c.

Lemma escape_plain s : all_chars plain_char s = true → escape_text 0 s = s.
Proof.
  induction s as [|c s IH]; [done|]. cbn [all_chars]. intros [Hc Hs]%andb_true_iff.
  cbn [escape_text]. rewrite utf8_size_head. cbn [codes utf8_size].
  assert (in_Z 0 127 (code c) = true ∧ escape_char c = String c "") as [-> ->].
  { destruct c as [[] [] [] [] [] [] [] []]; try discriminate Hc; done. }
  rewrite IH by done. done.
Qed.

Lemma plain_utf8 s : all_chars plain_char s = true → valid_utf8 (codes s) = true.
Proof.
  intros Hs. apply ascii_utf8. eapply all_chars_impl; [|exact Hs].
  intros c. by destruct c as [[] [] [] [] [] [] [] []].
Qed.

Lemma plain_digits ds rest :
  Forall (λ d, 0 ≤ d < 10) ds → all_chars plain_char rest = true →
  all_chars plain_char (print_digits ds rest) = true.
Proof.
  intros Hd Hr. induction Hd as [|d ds Hd _ IH]; [done|]. cbn [print_digits all_chars].
  unfold plain_char at 1. by rewrite digit_char_is_digit, IH.
Qed.

Lemma format_plain t : all_chars plain_char (format_rfc3339 t) = true.
Proof.
  unfold format_rfc3339. destruct (civil_from_days _) as [[y m] d].
  assert (Hfrac : all_chars plain_char (print_frac (t mod second) "Z") = true).
  { unfold print_frac. destruct (strip_zeros (digits 9 (t mod second))) as [|x l] eqn:E; [done|].
    cbn [all_chars]. apply andb_true_iff. split; [done|]. apply plain_digits; [|done].
    rewrite <- E. apply strip_zeros_range, digits_range. }
  repeat (apply plain_digits; [apply digits_range|]; cbn [all_chars]; change (plain_char ?c) with true;
          cbn [andb]).
  exact Hfrac.
Qed.

Lemma last_char_app s c : last_char (s +:+ String c "") = Some c.
Proof.
  induction s as [|x s IH]; [done|]. change (String x s +:+ ?y) with (String x (s +:+ y)).
  rewrite last_char_cons; [done|]. by destruct s.
Qed.

Lemma unquoted_quote s : escape_text 0 s = s → unquoted (quote s) = Some s.
Proof.
  intros Hs. unfold unquoted, quote. rewrite Hs. rewrite Ascii.eqb_refl.
  rewrite last_char_app, bool_decide_eq_true_2 by done. cbn [andb].
  rewrite string_length_app. cbn [String.length].
  replace (String.length s + 1 - 1)%nat with (String.length s) by lia.
  by rewrite substring_prefix.
Qed.

(** ** Entries that are stored as they are *)

Definition stable_map (m : option object) : Prop :=
  match m with
  | None => True
  | Some fields => fields ≠ [] ∧ faithful (VObj fields) ∧ canonical (VObj fields)
  end.

Record stable (e : Entry) : Prop := {
  st_task : valid_utf8 (codes (TaskID e)) = true;
  st_status : valid_utf8 (codes (Status e)) = true;
  st_result : stable_map (Result e);
  st_error : stable_map (Error e);
  st_time : in_four_digit_years (UpdatedAt e)
}.

Lemma in_json_years_spec t : in_json_years t = true ↔ in_four_digit_years t.
Proof. unfold in_json_years, in_four_digit_years. reflect_bools. lia. Qed.

Lemma stable_encodable e : stable e → entry_encodable e = true.
Proof.
  intros [_ _ Hr He Ht]. unfold entry_encodable. rewrite (proj2 (in_json_years_spec _) Ht), andb_true_r.
  apply andb_true_iff. split; unfold map_encodable.
  - destruct (Result e) as [m|]; [|done]. by apply faithful_encodable, Hr.
  - destruct (Error e) as [m|]; [|done]. by apply faithful_encodable, He.
Qed.

(** The fields of an object, an optional one included. *)
Lemma optional_field_Some name m :
  stable_map m → optional_field name m =
    match m with Some fields => [(name, VObj fields)] | None => [] end.
Proof. destruct m as [[|]|]; [by intros []|done|done]. Qed.

Lemma entry_value_faithful e : stable e → faithful (entry_value e).
Proof.
  intros [Hk Hs Hr He Ht]. unfold entry_value. apply faithful_obj.
  rewrite !optional_field_Some by done.
  pose proof (plain_utf8 _ (format_plain (UpdatedAt e))) as Hp.
  rewrite !Forall_app. split_and!.
  - by repeat constructor.
  - destruct (Result e) as [m|]; [|constructor]. constructor; [split; [done|apply Hr]|constructor].
  - destruct (Error e) as [m|]; [|constructor]. constructor; [split; [done|apply He]|constructor].
  - by repeat constructor.
Qed.

Lemma map_of_tree st d fields :
  faithful (VObj fields) → canonical (VObj fields) →
  map_of_json None (tree st d (VObj fields)) = Some (Some fields).
Proof.
  intros Hf Hc. pose proof (value_of_tree st (VObj fields) d Hf Hc) as H.
  cbn [tree value_of_json] in H. injection H as H. cbn [tree map_of_json]. by rewrite H.
Qed.

(** One step of the struct decoder on a printed field. *)
Lemma assign_printed st d name v rest e e' :
  match_field entry_names name = Some name →
  entry_assign name (print_value st d v) (tree st d v) e = Some e' →
  assign_known entry_names entry_assign
    ((name, print_value st d v, tree st d v) :: rest) e =
  assign_known entry_names entry_assign rest e'.
Proof. intros Hm Ha. cbn [assign_known]. rewrite Hm, Ha. done. Qed.

Lemma assign_time st d t e :
  in_four_digit_years t →
  entry_assign "updated_at" (print_value st d (VStr (format_rfc3339 t)))
    (tree st d (VStr (format_rfc3339 t))) e = Some (e <| UpdatedAt := t |>).
Proof.
  intros Ht. cbn [print_value tree]. unfold entry_assign. cbn [String.eqb Ascii.eqb Bool.eqb].
  unfold time_of_json.
  assert (String.eqb (quote (format_rfc3339 t)) "null" = false) as -> by done.
  rewrite unquoted_quote by (apply escape_plain, format_plain). cbn [mbind option_bind].
  by rewrite parse_strict_format.
Qed.

Lemma assign_result st d m e :
  Result e = None → stable_map (Some m) →
  entry_assign "result" (print_value st d (VObj m)) (tree st d (VObj m)) e =
  Some (e <| Result := Some m |>).
Proof.
  intros Hr (_ & Hf & Hc). unfold entry_assign. cbn [String.eqb Ascii.eqb Bool.eqb].
  by rewrite Hr, map_of_tree.
Qed.

Lemma assign_error st d m e :
  Error e = None → stable_map (Some m) →
  entry_assign "error" (print_value st d (VObj m)) (tree st d (VObj m)) e =
  Some (e <| Error := Some m |>).
Proof.
  intros Hr (_ & Hf & Hc). unfold entry_assign. cbn [String.eqb Ascii.eqb Bool.eqb].
  by rewrite Hr, map_of_tree.
Qed.

Lemma entry_of_tree st d e : stable e → entry_of_json (tree st d (entry_value e)) = Some e.
Proof.
  destruct e as [task status r x t]. intros [_ _ Hr Hx Ht]. cbn [TaskID Status Result Error UpdatedAt] in *.
  unfold entry_of_json, entry_value. cbn [tree lax_struct_of_json TaskID Status Result Error UpdatedAt].
  rewrite !optional_field_Some by done. rewrite !map_app.
  destruct r as [r|], x as [x|]; cbn [map app fst snd];
    (erewrite assign_printed; [|done|reflexivity]); (erewrite assign_printed; [|done|reflexivity]);
    try (erewrite assign_printed; [|done|by apply assign_result]);
    try (erewrite assign_printed; [|done|by apply assign_error]);
    (erewrite assign_printed; [|done|by apply assign_time]); done.
Qed.

(** ** The file *)

(** An entry under its own task, with the nesting the decoder allows inside
    the object of the file. *)
Definition good_field (f : string * Entry) : Prop :=
  valid_utf8 (codes f.1) = true ∧ stable f.2 ∧ (S (height (entry_value f.2)) ≤ max_depth)%nat ∧
  f.1 = TaskID f.2.

Definition good_entries (m : entries) : Prop := sorted_keys m ∧ Forall good_field m.

Lemma entries_value_faithful m : Forall good_field m → faithful (entries_value m).
Proof.
  intros Hm. apply faithful_obj, list.Forall_forall. intros f (g & -> & Hg)%list_elem_of_fmap.
  rewrite list.Forall_forall in Hm. destruct (Hm g Hg) as (? & ? & _).
  split; [done|by apply entry_value_faithful].
Qed.

Lemma entries_value_height m : Forall good_field m → (height (entries_value m) ≤ max_depth)%nat.
Proof.
  intros Hm. unfold entries_value. cbn [height].
  assert (1 ≤ max_depth)%nat by (unfold max_depth; lia).
  enough (list_max (map (λ f : string * value, height f.2) (map (λ f, (f.1, entry_value f.2)) m))
    ≤ max_depth - 1)%nat by lia.
  apply list_max_le, list.Forall_forall. intros n (f & -> & Hf)%list_elem_of_fmap.
  apply list_elem_of_fmap in Hf as (g & -> & Hg). rewrite list.Forall_forall in Hm.
  destruct (Hm g Hg) as (_ & _ & ? & _). cbn [snd]. lia.
Qed.

Lemma members_of_tree st d l m :
  Forall good_field l →
  members_of_json (map (λ f, (f.1, print_value st d (entry_value f.2), tree st d (entry_value f.2))) l) m =
  Some (put_all m l).
Proof.
  intros Hl. revert m. induction Hl as [|[k e] l (_ & He & _) _ IH]; intros m; [done|].
  cbn [map members_of_json fst snd]. rewrite entry_of_tree by done. cbn [mbind option_bind]. apply IH.
Qed.

Lemma decode_printed st m w :
  white_style st → good_entries m → white w →
  decode_entries (print_value st 0 (entries_value m) +:+ w) = Ok (Some m).
Proof.
  intros Hst [Hs Hm] Hw. unfold decode_entries.
  rewrite parse_print; [|done|by apply entries_value_faithful|by apply entries_value_height|done].
  unfold entries_value. cbn [tree]. rewrite map_map. cbn [fst snd].
  rewrite members_of_tree by done. by rewrite put_all_id.
Qed.

Lemma marshal_good m :
  good_entries m → marshal_entries m = Some (print_value indented 0 (entries_value m)).
Proof.
  intros [_ Hm]. unfold marshal_entries.
  replace (forallb (λ f, entry_encodable f.2) m) with true; [done|]. symmetry.
  apply forallb_forall. intros f Hf%list_elem_of_In. rewrite list.Forall_forall in Hm.
  apply stable_encodable. by destruct (Hm f Hf) as (_ & ? & _).
Qed.

Lemma decode_marshalled e text :
  stable e → (height (entry_value e) ≤ max_depth)%nat →
  marshal_entry e = Some text → decode_entry text = Ok e.
Proof.
  intros Hs Hh. unfold marshal_entry. rewrite stable_encodable by done.
  intros H%(inj Some). rewrite <- H. unfold decode_entry. rewrite <- (string_app_nil (print_value compact 0 (entry_value e))).
  rewrite parse_print; [|apply compact_white|by apply entry_value_faithful|done|done].
  by rewrite entry_of_tree.
Qed.

Lemma marshal_entry_inj e e' text :
  stable e → stable e' → (height (entry_value e) ≤ max_depth)%nat →
  (height (entry_value e') ≤ max_depth)%nat →
  marshal_entry e = Some text → marshal_entry e' = Some text → e = e'.
Proof.
  intros Hs Hs' Hh Hh' H1%decode_marshalled H2%decode_marshalled; [|done..].
  rewrite H1 in H2. by injection H2.
Qed.

(** ** The ledger *)

(** What holds of a ledger between operations: its entries are storable, its
    file is absent or decodes to storable entries, and unless a publication is
    in doubt the file holds exactly the entries in memory. *)
Record ledger_inv (l : Ledger) : Prop := {
  li_good : good_entries (stored l);
  li_disk :
    match disk l with
    | None => failed l = false ∧ stored l = []
    | Some text => ∃ m, good_entries m ∧ decode_entries text = Ok (Some m) ∧
                        (failed l = false → m = stored l)
    end
}.

(** The entry as the ledger keeps it: the maps [omitempty] drops are nil. *)
Definition drop_empty (m : option object) : option object :=
  match m with Some [] => None | _ => m end.

Definition kept (now : time) (e : Entry) : Entry :=
  mkEntry (TaskID e) (Status e) (drop_empty (Result e)) (drop_empty (Error e)) now.

Lemma kept_value now e : entry_value (e <| UpdatedAt := now |>) = entry_value (kept now e).
Proof. destruct e as [t s [[|]|] [[|]|] u]; done. Qed.

Lemma put_map {A B} (f : A → B) k x m :
  map (λ p, (p.1, f p.2)) (put k x m) = put k (f x) (map (λ p, (p.1, f p.2)) m).
Proof.
  induction m as [|[k' y] m IH]; cbn; [done|]. repeat case_match; cbn; [done|done|by rewrite IH].
Qed.

Lemma put_Forall {A} (P : string * A → Prop) k x m : P (k, x) → Forall P m → Forall P (put k x m).
Proof.
  intros Hx Hm. rewrite list.Forall_forall in *. intros f [->|Hf]%put_keys; auto.
Qed.

Lemma put_forallb {A} (p : string * A → bool) k x y m :
  p (k, x) = p (k, y) → forallb p (put k y m) = forallb p (put k x m).
Proof.
  intros Hp. induction m as [|[k' z] m IH]; cbn [put forallb]; [by rewrite Hp|].
  destruct (str_ltb k k'); cbn [forallb]; [by rewrite Hp|].
  destruct (String.eqb k k'); cbn [forallb]; [by rewrite Hp|by rewrite IH].
Qed.

Lemma kept_encodable now e :
  entry_encodable (kept now e) = entry_encodable (e <| UpdatedAt := now |>).
Proof. destruct e as [t s [[|]|] [[|]|] u]; done. Qed.

(** A value JSON can hold, in an entry the ledger can store. *)
Definition storable (now : time) (e : Entry) : Prop := good_field (TaskID e, kept now e).

Definition published (m : entries) : string :=
  print_value indented 0 (entries_value m) +:+ String (chr 10) "".

Lemma saveLocked_run now io l e :
  ledger_inv l → failed l = false → storable now e →
  saveLocked now io l e =
    let next := put (TaskID e) (kept now e) (stored l) in
    let '(disk', renamed, ok) := publish io (disk l) (published next) in
    if ok then (mkLedger next false disk', Ok tt)
    else (l <| disk := disk' |> <| failed := renamed |>, Err ErrPublish).
Proof.
  intros [[Hsort Hgood] _] Hf He. unfold saveLocked. rewrite Hf. cbv zeta.
  set (next := put (TaskID e) (kept now e) (stored l)).
  assert (Hnext : good_entries next) by (split; [by apply put_sorted|by apply put_Forall]).
  assert (Hm : marshal_entries (put (TaskID e) (e <| UpdatedAt := now |>) (stored l)) =
    marshal_entries next).
  { unfold next, marshal_entries, entries_value. rewrite !put_map, kept_value.
    by rewrite (put_forallb _ _ (kept now e)) by apply kept_encodable. }
  rewrite Hm, marshal_good by done.
  rewrite <- (string_app_nil (print_value indented 0 (entries_value next))) at 1.
  by rewrite decode_printed by (done || apply indented_white).
Qed.

Lemma next_good now l e :
  ledger_inv l → storable now e → good_entries (put (TaskID e) (kept now e) (stored l)).
Proof.
  intros [[Hs Hg] _] He. split; [by apply put_sorted|by apply put_Forall].
Qed.

Lemma decode_published m : good_entries m → decode_entries (published m) = Ok (Some m).
Proof. intros Hm. by apply decode_printed; [apply indented_white|..]. Qed.

(** [publish] either replaces the file, and says so, or does nothing. *)
Lemma publish_cases io d data :
  publish io d data = (Some data, true, true) ∨ publish io d data = (d, false, false) ∨
  publish io d data = (Some data, true, false).
Proof. unfold publish. case_match; [destruct (dirsync_ok io)|]; auto. Qed.

Lemma saveLocked_inv now io l e :
  ledger_inv l → storable now e → ledger_inv (saveLocked now io l e).1.
Proof.
  intros Hinv He. destruct (failed l) eqn:Hf.
  { unfold saveLocked. by rewrite Hf. }
  pose proof (next_good now l e Hinv He) as Hnext.
  rewrite saveLocked_run by done. cbv zeta. set (next := put _ _ _) in *.
  pose proof (decode_published next Hnext) as Hdec.
  destruct (publish_cases io (disk l) (published next)) as [->|[->| ->]]; cbn.
  - split; [done|]. exists next. done.
  - destruct l as [s f d]. cbn in Hf |- *. by subst f.
  - split; [apply Hinv|]. exists next. done.
Qed.

Lemma CompareAndSwap_cases now io l expected e :
  CompareAndSwap now io l expected e = saveLocked now io l e ∨
  ∃ err, CompareAndSwap now io l expected e = (l, Err err).
Proof.
  unfold CompareAndSwap. destruct (failed l); [by eauto|]. repeat case_match; eauto.
Qed.

Definition file_of (l : Ledger) : file :=
  match disk l with None => Missing | Some text => Content text end.

(** The histories of a ledger: operations on storable entries with every
    possible failure, and restarts that read the file again. *)
Inductive ledger_reachable : Ledger → Prop :=
  | reach_new l : Open Missing = Ok l → ledger_reachable l
  | reach_save now io l e :
      ledger_reachable l → storable now e → ledger_reachable (Save now io l e).1
  | reach_swap now io l expected e :
      ledger_reachable l → storable now e →
      ledger_reachable (CompareAndSwap now io l expected e).1
  | reach_restart l l' : ledger_reachable l → Open (file_of l) = Ok l' → ledger_reachable l'.

Lemma ledger_reachable_inv l : ledger_reachable l → ledger_inv l.
Proof.
  induction 1 as [l [= <-]|now io l e _ IH He|now io l expected e _ IH He|l l' _ IH Ho].
  - split; [split; constructor|done].
  - by apply saveLocked_inv.
  - destruct (CompareAndSwap_cases now io l expected e) as [->|[err ->]];
      [by apply saveLocked_inv|done].
  - unfold file_of, Open in Ho. destruct IH as [_ Hd]. destruct (disk l) as [text|].
    + destruct Hd as (m & Hm & Hdec & _). rewrite Hdec in Ho. cbn in Ho. injection Ho as <-.
      split; [done|]. by exists m.
    + injection Ho as <-. split; [split; constructor|done].
Qed.

Lemma Get_stored l id : ledger_inv l → failed l = false → Get l id = Ok (get id (stored l)).
Proof.
  intros [[_ Hg] _] Hf. unfold Get. rewrite Hf. cbn [negb].
  destruct (get id (stored l)) as [e|] eqn:E; [|done]. apply get_Some in E.
  rewrite list.Forall_forall in Hg. destruct (Hg _ E) as (_ & Hs & Hh & _). cbn [snd] in *.
  assert (marshal_entry e = Some (print_value compact 0 (entry_value e))) as Hm.
  { unfold marshal_entry. by rewrite stable_encodable. }
  rewrite Hm, (decode_marshalled e _ Hs ltac:(lia) Hm). done.
Qed.

Lemma Open_disk l : ledger_inv l → failed l = false → Open (file_of l) = Ok l.
Proof.
  intros [_ Hd] Hf. unfold file_of, Open. destruct l as [s f d]. cbn in *. subst f.
  destruct d as [text|].
  - destruct Hd as (m & _ & -> & Heq). cbn. by rewrite Heq.
  - by destruct Hd as [_ ->].
Qed.

(** C27: the ledger never answers anything a restart would not: in every history
    of saves, swaps, failures and restarts, as long as no publication is in
    doubt, reading the file again gives the very same ledger, and [Get]
    answers from it without error. *)
Theorem ledger_restart_exact l :
  ledger_reachable l → failed l = false →
  Open (file_of l) = Ok l ∧ ∀ id, Get l id = Ok (get id (stored l)).
Proof.
  intros Hr%ledger_reachable_inv Hf. split; [by apply Open_disk|].
  intros id. by apply Get_stored.
Qed.

(** Every operation of a ledger in doubt is refused and changes nothing. *)
Definition refuses (l : Ledger) : Prop :=
  (∀ id, Get l id = Err ErrUncertain) ∧ (∀ visited status, List_ visited l status = Err ErrUncertain) ∧
  (∀ now io e, Save now io l e = (l, Err ErrUncertain)) ∧
  (∀ now io expected e, CompareAndSwap now io l expected e = (l, Err ErrUncertain)).

Lemma failed_refuses l : failed l = true → refuses l.
Proof.
  intros Hf. unfold refuses, Get, List_, Save, saveLocked, CompareAndSwap. by rewrite Hf.
Qed.

(** [saved l e now l']: the entry, and nothing else, changed. *)
Definition saved (l : Ledger) (e : Entry) (now : time) (l' : Ledger) : Prop :=
  ∀ id, Get l' id = if String.eqb id (TaskID e) then Ok (Some (kept now e)) else Get l id.

(** C28: a save has three outcomes.  It succeeds, and the entry alone has
    changed, in memory and on disk; or it reports a failure and the ledger is
    as before, in memory and on disk; or its durability is unknown, and then
    every operation is refused until a restart, which finds the entry saved. *)
Theorem save_outcomes now io l e :
  ledger_reachable l → failed l = false → storable now e →
  let '(l', r) := Save now io l e in
  (r = Ok tt ∧ failed l' = false ∧ saved l e now l' ∧ Open (file_of l') = Ok l') ∨
  (r = Err ErrPublish ∧ l' = l) ∨
  (r = Err ErrPublish ∧ refuses l' ∧ ∃ l'', Open (file_of l') = Ok l'' ∧ saved l e now l'').
Proof.
  intros Hr%ledger_reachable_inv Hf He. unfold Save.
  pose proof (saveLocked_inv now io l e Hr He) as Hinv'.
  pose proof (next_good now l e Hr He) as Hnext.
  rewrite saveLocked_run in * by done. cbv zeta in *. set (next := put _ _ _) in *.
  assert (Hsaved : ∀ l', ledger_inv l' → failed l' = false → stored l' = next → saved l e now l').
  { intros l' Hl' Hf' Hst id. rewrite !Get_stored, Hst by done. unfold next. rewrite get_put.
    by destruct (String.eqb id (TaskID e)). }
  destruct (publish_cases io (disk l) (published next)) as [E|[E|E]]; rewrite E in *; cbn [fst] in *.
  - left. split_and!; [done|done|by apply Hsaved|by apply Open_disk].
  - right; left. split; [done|]. destruct l as [s f d]. cbn in Hf |- *. by subst f.
  - right; right. split_and!; [done|by apply failed_refuses|].
    pose proof (decode_published next Hnext) as Hdec.
    exists (mkLedger next false (Some (published next))). cbn. unfold Open. rewrite Hdec.
    split; [done|]. apply Hsaved; [|done|done]. split; [done|]. by exists next.
Qed.

(** ** Compare and swap *)

Lemma stored_good l id e :
  ledger_inv l → get id (stored l) = Some e → good_field (id, e).
Proof.
  intros [[_ Hg] _] E%get_Some. rewrite list.Forall_forall in Hg. by apply Hg.
Qed.

Definition stored_shape (e : Entry) : Prop := stable e ∧ (S (height (entry_value e)) ≤ max_depth)%nat.

Lemma result_height e m :
  stable e → Result e = Some m → (S (height (VObj m)) ≤ height (entry_value e))%nat.
Proof.
  intros [_ _ Hr _ _] Hm. rewrite Hm in Hr. unfold entry_value.
  rewrite Hm, (optional_field_Some "result" (Some m)) by done. cbn [app].
  set (fields := _ :: _). change (height (VObj fields)) with (S (list_max (map (λ f, height f.2) fields))).
  apply le_n_S. set (l := map (λ f, height f.2) fields). pose proof (proj1 (list_max_le l (list_max l)) ltac:(lia)) as H.
  rewrite list.Forall_forall in H. apply H. do 2 right. by left.
Qed.

Lemma cas_cases now io l expected e :
  ledger_inv l → failed l = false → (∀ x, expected = Some x → stored_shape x) →
  (get (TaskID e) (stored l) = expected → CompareAndSwap now io l expected e = saveLocked now io l e) ∧
  (get (TaskID e) (stored l) ≠ expected →
   CompareAndSwap now io l expected e = (l, Err ErrConflict)).
Proof.
  intros Hr Hf Hx. unfold CompareAndSwap. rewrite Hf. cbv zeta.
  destruct (get (TaskID e) (stored l)) as [c|] eqn:Hc, expected as [x|]; [|by split..].
  destruct (stored_good _ _ _ Hr Hc) as (_ & Hcs & Hch & Hid). cbn [fst snd] in *.
  destruct (Hx x eq_refl) as [Hxs Hxh].
  unfold marshal_entry at 1 2 3 4. rewrite !stable_encodable by done.
  split.
  - intros [= <-]. by rewrite Hid, !String.eqb_refl.
  - intros Hne. destruct (String.eqb_spec (TaskID x) (TaskID e)); [|done]. cbn [negb].
    destruct (String.eqb_spec (print_value compact 0 (entry_value x)) (print_value compact 0 (entry_value c)))
      as [Heq|]; [|done]. destruct Hne. f_equal.
    apply (marshal_entry_inj c x (print_value compact 0 (entry_value c))); try done; try lia;
      unfold marshal_entry; rewrite stable_encodable by done; by rewrite ?Heq.
Qed.

(** compare-and-swap compares exactly.  It replaces the entry of the task if
    and only if the stored entry is the expected one, field by field (or both
    are absent), and otherwise reports a conflict and changes nothing. *)
Theorem cas_exact now io l expected e :
  ledger_reachable l → failed l = false →
  (∀ x, expected = Some x → stored_shape x) →
  (get (TaskID e) (stored l) = expected → CompareAndSwap now io l expected e = Save now io l e) ∧
  (get (TaskID e) (stored l) ≠ expected →
   CompareAndSwap now io l expected e = (l, Err ErrConflict)).
Proof. intros Hr%ledger_reachable_inv. by apply cas_cases. Qed.

(** ** Listing *)

Lemma decode_all_tree st d es :
  Forall stable es → decode_all (map (λ e, tree st d (entry_value e)) es) = Some es.
Proof.
  induction 1 as [|e es He _ IH]; [done|]. cbn [map decode_all]. rewrite entry_of_tree by done.
  cbn [mbind option_bind]. by rewrite IH.
Qed.

Definition task_lt (a b : Entry) : Prop := str_lt (TaskID a) (TaskID b).

Lemma insert_by_task_perm e l : insert_by_task e l ≡ₚ e :: l.
Proof.
  induction l as [|x l IH]; [done|]. cbn. case_match; [|done]. rewrite IH. constructor.
Qed.

Lemma sort_by_task_perm l : sort_by_task l ≡ₚ l.
Proof. induction l as [|e l IH]; [done|]. cbn. by rewrite insert_by_task_perm, IH. Qed.

Lemma insert_by_task_sorted e l :
  Forall (λ x, TaskID x ≠ TaskID e) l →
  StronglySorted task_lt l → StronglySorted task_lt (insert_by_task e l).
Proof.
  intros Hne Hs. induction Hs as [|x l Hs IH Hx]; cbn; [by repeat constructor|].
  apply list.Forall_cons in Hne as [Hxe Hne].
  destruct (str_ltb (TaskID x) (TaskID e)) eqn:E.
  - constructor; [by apply IH|]. rewrite insert_by_task_perm. by constructor.
  - assert (str_lt (TaskID e) (TaskID x)).
    { destruct (str_lt_cases (TaskID e) (TaskID x)) as [?|[?|?]]; [done|by congruence|].
      unfold str_lt in *. congruence. }
    constructor; [by constructor|]. constructor; [done|].
    eapply list.Forall_impl; [exact Hx|]. intros y. apply str_lt_trans. done.
Qed.

Lemma sort_by_task_sorted l : NoDup (map TaskID l) → StronglySorted task_lt (sort_by_task l).
Proof.
  induction l as [|e l IH]; cbn; [constructor|]. intros [Hn Hd]%list.NoDup_cons.
  apply insert_by_task_sorted; [|by apply IH].
  fold (sort_by_task l). rewrite sort_by_task_perm. apply list.Forall_forall. intros x Hx Heq.
  apply Hn. rewrite <- Heq. by apply list_elem_of_fmap_2.
Qed.

(** The entries the map iteration visits are the stored ones. *)
Lemma visited_good l visited :
  ledger_inv l → visited ≡ₚ stored l → Forall good_field visited.
Proof. intros [[_ Hg] _] Hv. by rewrite Hv. Qed.

Lemma visited_tasks visited :
  Forall good_field visited → map TaskID (map snd visited) = map fst visited.
Proof.
  intros Hg. rewrite map_map. apply map_ext_in. intros f Hf%list_elem_of_In.
  rewrite list.Forall_forall in Hg. by destruct (Hg f Hf) as (_ & _ & _ & ->).
Qed.

Definition of_status (status : string) (visited : entries) : list Entry :=
  List.filter (λ e, String.eqb (Status e) status) (map snd visited).

Lemma of_status_sublist status visited : of_status status visited `sublist_of` map snd visited.
Proof.
  unfold of_status. induction (map snd visited) as [|e l IH]; cbn; [done|].
  case_match; by constructor.
Qed.

Lemma of_status_tasks l visited status :
  ledger_inv l → visited ≡ₚ stored l → NoDup (map TaskID (of_status status visited)).
Proof.
  intros Hl Hv. eapply sublist_NoDup; [|apply fmap_sublist, of_status_sublist].
  change (NoDup (map TaskID (map snd visited))). rewrite visited_tasks by (by eapply visited_good).
  destruct Hl as [[Hs _] _]. rewrite Hv. by apply sorted_keys_NoDup.
Qed.

Lemma of_status_elem status visited e :
  e ∈ of_status status visited ↔ Status e = status ∧ e ∈ map snd visited.
Proof.
  unfold of_status. rewrite !list_elem_of_In, List.filter_In, String.eqb_eq. tauto.
Qed.

Lemma List_run visited l status :
  ledger_inv l → failed l = false → visited ≡ₚ stored l →
  List_ visited l status = Ok (sort_by_task (of_status status visited)).
Proof.
  intros Hinv Hf Hv. pose proof (visited_good _ _ Hinv Hv) as Hg.
  assert (Hsel : Forall (λ e, stable e ∧ (S (height (entry_value e)) ≤ max_depth)%nat)
    (of_status status visited)).
  { apply list.Forall_forall. intros e [_ (f & -> & Hfm)%list_elem_of_fmap]%of_status_elem.
    rewrite list.Forall_forall in Hg. by destruct (Hg f Hfm) as (_ & ? & ? & _). }
  unfold List_. rewrite Hf. cbn [negb]. fold (of_status status visited).
  assert (forallb entry_encodable (of_status status visited) = true) as ->.
  { apply forallb_forall. intros e He%list_elem_of_In. rewrite list.Forall_forall in Hsel.
    apply stable_encodable. by apply Hsel. }
  cbn [negb]. set (es := of_status status visited) in *.
  rewrite <- (string_app_nil (print_value _ _ _)), parse_print; [|apply compact_white| | |done].
  - cbn [tree]. rewrite map_map, decode_all_tree; [done|].
    eapply list.Forall_impl; [exact Hsel|]. by intros ? [].
  - apply faithful_arr, list.Forall_forall. intros v (e & -> & He)%list_elem_of_fmap.
    rewrite list.Forall_forall in Hsel. by apply entry_value_faithful, Hsel.
  - cbn [height]. assert (1 ≤ max_depth)%nat by (unfold max_depth; lia).
    enough (list_max (map height (map entry_value es)) ≤ max_depth - 1)%nat by lia.
    apply list_max_le, list.Forall_forall. intros n (v & -> & Hvv)%list_elem_of_fmap.
    apply list_elem_of_fmap in Hvv as (e & -> & He). rewrite list.Forall_forall in Hsel.
    destruct (Hsel e He). lia.
Qed.

Lemma stored_elem l visited e :
  ledger_inv l → visited ≡ₚ stored l →
  e ∈ map snd visited ↔ get (TaskID e) (stored l) = Some e.
Proof.
  intros Hinv Hv. pose proof (visited_good _ _ Hinv Hv) as Hg. destruct Hinv as [[Hs _] _]. split.
  - intros (f & -> & Hf)%list_elem_of_fmap. rewrite list.Forall_forall in Hg.
    destruct (Hg f Hf) as (_ & _ & _ & Hid). rewrite <- Hid.
    apply get_elem; [done|]. rewrite <- Hv. destruct f. exact Hf.
  - intros Hget%get_Some. rewrite <- Hv in Hget. apply list_elem_of_fmap. by exists (TaskID e, e).
Qed.

(** In every history and whatever order the map is visited in, [List]
    answers exactly the entries of the status that [Get] answers, each once,
    in increasing order of their tasks. *)
Theorem list_exact visited l status :
  ledger_reachable l → failed l = false → visited ≡ₚ stored l →
  ∃ out, List_ visited l status = Ok out ∧ StronglySorted task_lt out ∧
    ∀ e, e ∈ out ↔ Status e = status ∧ Get l (TaskID e) = Ok (Some e).
Proof.
  intros Hr%ledger_reachable_inv Hf Hv. pose proof (visited_good _ _ Hr Hv) as Hg.
  exists (sort_by_task (of_status status visited)). split_and!.
  - by apply List_run.
  - apply sort_by_task_sorted. by eapply of_status_tasks.
  - intros e. rewrite sort_by_task_perm, of_status_elem, (stored_elem l visited e Hr Hv).
    rewrite Get_stored by done. split; intros [? H]; (split; [done|]); [by rewrite H|by injection H].
Qed.

(** ** The ledger as a durable map *)

#[global] Instance ledger_store : TaskStore Ledger (time * publish_io) := {
  store_get := Get;
  store_list l := List_ (stored l) l;
  store_swap env := CompareAndSwap env.1 env.2;
  store_save env := Save env.1 env.2;
  store_reopen l := Open (file_of l)
}.

(** What a restart finds in the file. *)
Definition durable (l : Ledger) : entries :=
  match disk l with
  | None => []
  | Some text => match decode_entries text with Ok (Some m) => m | _ => [] end
  end.

Lemma durable_stored l : ledger_inv l → failed l = false → durable l = stored l.
Proof.
  intros [_ Hd] Hf. unfold durable. destruct (disk l) as [text|].
  - destruct Hd as (m & _ & -> & Heq). auto.
  - by destruct Hd as [_ ->].
Qed.

Lemma durable_good l : ledger_inv l → good_entries (durable l).
Proof.
  intros [_ Hd]. unfold durable. destruct (disk l) as [text|].
  - by destruct Hd as (m & Hm & -> & _).
  - split; constructor.
Qed.

Lemma saveLocked_durable now io l e :
  ledger_inv l → failed l = false → storable now e →
  let '(l', r) := saveLocked now io l e in
  (r = Ok tt ∧ failed l' = false ∧ durable l' = put (TaskID e) (kept now e) (durable l)) ∨
  (r = Err ErrPublish ∧ l' = l) ∨
  (r = Err ErrPublish ∧ failed l' = true ∧ durable l' = put (TaskID e) (kept now e) (durable l)).
Proof.
  intros Hinv Hf He. rewrite saveLocked_run by done. cbv zeta.
  pose proof (decode_published _ (next_good now l e Hinv He)) as Hdec.
  rewrite (durable_stored l) by done. set (next := put _ _ _) in *.
  destruct (publish_cases io (disk l) (published next)) as [->|[->| ->]]; cbn.
  - left. split_and!; [done|done|]. unfold durable. cbn [disk]. by rewrite Hdec.
  - right; left. split; [done|]. destruct l as [s f d]. cbn in Hf |- *. by subst f.
  - right; right. split_and!; [done|done|]. unfold durable. cbn [disk]. by rewrite Hdec.
Qed.

Lemma saveLocked_stores env l e :
  ledger_inv l → failed l = false → storable env.1 e →
  stored_or_not ledger_inv (λ l id, get id (durable l)) failed l e (kept env.1 e)
    (saveLocked env.1 env.2 l e).
Proof.
  intros Hl Hf He.
  pose proof (saveLocked_inv env.1 env.2 l e Hl He) as Hl'.
  pose proof (saveLocked_durable env.1 env.2 l e Hl Hf He) as H.
  destruct (saveLocked env.1 env.2 l e) as [l' r]. exists l', r. split; [done|]. split; [done|].
  destruct H as [(-> & ? & Hd)|[H|(-> & ? & Hd)]]; [left|by right; left|right; right].
  all: split_and!; [done|done|]; intros k; cbn; by rewrite Hd, get_put.
Qed.

#[global] Program Instance ledger_durable : DurableMap Ledger (time * publish_io) := {
  sound := ledger_inv;
  content l id := get id (durable l);
  in_doubt := failed;
  keeps env := kept env.1;
  admits env := storable env.1;
  proper := stored_shape;
  timely env := in_four_digit_years env.1
}.
Next Obligation.
  intros l id e Hl He. cbn in He. destruct (durable_good l Hl) as [_ Hg].
  apply get_Some in He. rewrite list.Forall_forall in Hg. destruct (Hg _ He) as (_ & Hs & Hh & Hid).
  split; [split; [done|cbn in *; lia]|done].
Qed.
Next Obligation. intros env e (_ & Hs & Hh & _). split; [done|cbn in *; lia]. Qed.
Next Obligation. intros env [t s [[|]|] [[|]|] u]; done. Qed.
Next Obligation.
  intros env [t s r x u] m Ht H1 H2 H3 (Hne & Hf & Hc & Hh). cbn in *.
  destruct H3 as [[-> ->]|[-> ->]];
    (destruct m as [|f m]; [done|]; split_and!; [done| |cbn in *; lia|done]; by split).
Qed.
Next Obligation. by intros e [[] _]. Qed.
Next Obligation.
  intros e m [Hs Hh] Hm. pose proof (result_height e m Hs Hm). destruct Hs as [_ _ Hr _ _].
  rewrite Hm in Hr. destruct Hr as (? & ? & ?). split_and!; [done|done|done|lia].
Qed.
Next Obligation.
  intros l id Hl. cbn. destruct (failed l) eqn:Hf; [by apply failed_refuses|].
  rewrite Get_stored by done. by rewrite durable_stored.
Qed.
Next Obligation.
  intros l status Hl Hf. cbn in *. exists (sort_by_task (of_status status (stored l))).
  rewrite List_run by done. split; [done|]. rewrite durable_stored by done. split.
  - change (NoDup (TaskID <$> sort_by_task (of_status status (stored l)))).
    rewrite sort_by_task_perm. by apply (of_status_tasks l).
  - intros e. rewrite sort_by_task_perm, of_status_elem, (stored_elem l (stored l) e Hl); done.
Qed.
Next Obligation. intros l status Hf. by apply failed_refuses. Qed.
Next Obligation. intros env l x e Hf. by apply failed_refuses. Qed.
Next Obligation.
  intros env l x e Hl Hf Hx Hne. cbn in *. apply cas_cases; [done|done|done|].
  by rewrite <- (durable_stored l).
Qed.
Next Obligation.
  intros env l x e Hl Hf He Heq. cbn in *.
  assert (CompareAndSwap env.1 env.2 l x e = saveLocked env.1 env.2 l e) as ->.
  { rewrite durable_stored in Heq by done. apply cas_cases; [done|done| |done].
    intros y ->. destruct (stored_good _ _ _ Hl Heq) as (_ & Hs & Hh & _). split; [done|cbn in *; lia]. }
  by apply saveLocked_stores.
Qed.
Next Obligation. intros env l e Hf. by apply failed_refuses. Qed.
Next Obligation. intros env l e Hl Hf He. by apply saveLocked_stores. Qed.
Next Obligation.
  intros l Hl. cbn. pose proof (durable_good l Hl) as Hg. destruct Hl as [_ Hd].
  unfold durable in *. unfold file_of, Open.
  destruct (disk l) as [text|] eqn:Ed; cbn.
  - destruct Hd as (m & _ & Hdec & _). rewrite Hdec in *. cbn.
    eexists. split; [done|]. split; [|split; [done|]].
    + split; [done|]. by exists m.
    + intros id. cbn. by rewrite Hdec.
  - eexists. split; [done|]. split; [|done]. split; [done|done].
Qed.

(** ** Demonstration *)

Module Demo.

Definition now : time := 1700000000 * second.
Definition first : Entry := mkEntry "task-1" "completed" (Some [("ok", VBool true)]) (Some []) zero_time.
Definition second_ : Entry := mkEntry "task-2" "completed" None (Some [("code", VStr "X")]) zero_time.
Definition all_well : publish_io := mkPublish true true true true true true true true true true.
Definition lost_sync : publish_io := all_well <| dirsync_ok := false |>.

Definition one : Ledger := (Save now all_well (mkLedger [] false None) first).1.
Definition two : Ledger := (Save now all_well one second_).1.

Lemma first_storable : storable now first.
Proof. split_and!; [done| |vm_compute; lia|done]. split; try done. by repeat constructor. Qed.

Lemma second_storable : storable now second_.
Proof. split_and!; [done| |vm_compute; lia|done]. split; try done. by repeat constructor. Qed.

Lemma one_reachable : ledger_reachable one.
Proof. apply reach_save; [by apply reach_new|apply first_storable]. Qed.

Lemma two_reachable : ledger_reachable two.
Proof. apply reach_save; [apply one_reachable|apply second_storable]. Qed.

(** A restart after two saves finds both. *)
Lemma ledger_restart_witness :
  Open (file_of two) = Ok two ∧ Get two "task-2" = Ok (Some (kept now second_)).
Proof.
  destruct (ledger_restart_exact two two_reachable eq_refl) as [H1 H2].
  split; [exact H1|]. rewrite H2. by vm_compute.
Defined.

(** A save whose directory was not flushed. *)
Lemma save_outcomes_witness :
  let '(l, r) := Save now lost_sync one second_ in
  failed l = true ∧
  ((r = Ok tt ∧ failed l = false ∧ saved one second_ now l ∧ Open (file_of l) = Ok l) ∨
   (r = Err ErrPublish ∧ l = one) ∨
   (r = Err ErrPublish ∧ refuses l ∧ ∃ l', Open (file_of l) = Ok l' ∧ saved one second_ now l')).
Proof.
  pose proof (save_outcomes now lost_sync one second_ one_reachable eq_refl second_storable) as H.
  destruct (Save now lost_sync one second_) as [l r] eqn:E. split; [|exact H].
  apply (f_equal (λ x, failed x.1)) in E. cbn in E. rewrite <- E. by vm_compute.
Defined.

(** A stale expectation is refused and a current one replaced. *)
Lemma cas_exact_witness :
  CompareAndSwap now all_well one (Some (kept now first)) first = Save now all_well one first ∧
  CompareAndSwap now all_well one None first = (one, Err ErrConflict).
Proof.
  split.
  - apply (cas_exact now all_well one (Some (kept now first)) first one_reachable eq_refl); [|by vm_compute].
    intros x [= <-]. destruct first_storable as (_ & ? & ? & _). split; [done|]. cbn [snd] in *. lia.
  - apply (cas_exact now all_well one None first one_reachable eq_refl); [done|].
    intros H. apply (f_equal is_some) in H.
    vm_compute in H. discriminate H.
Defined.

(** The two entries, whichever comes first in the map iteration. *)
Lemma list_exact_witness :
  ∃ out, List_ (reverse (stored two)) two "completed" = Ok out ∧ StronglySorted task_lt out ∧
    ∀ e, e ∈ out ↔ Status e = "completed" ∧ Get two (TaskID e) = Ok (Some e).
Proof. exact (list_exact _ two "completed" two_reachable eq_refl (reverse_Permutation _)). Defined.

End Demo.
