(* ===== verification/StartJournal.v ===== *)
(** * The managed-start journal

    src/internal/worker/start_journal.go, start_retirement.go and
    start_confirmation.go.  The outcome of a managed session start is written
    to the task ledger before it is sent to the server; the entry of the task
    goes from pending to confirmed or retired.  The journal works on any
    [TaskStore].  A client call is an answer of the server; [inspect] may
    answer differently for every task. *)

From S2P Require Import Prelude GoText GoTime GoJson GoUtf8 GoJsonText GoJsonValue GoJsonDecode GoJsonStruct.
From S2P Require Import StartResult Ledger TaskStore.
From Stdlib.Strings Require Import Ascii.

Definition managedStartPending : string := "managed_start_pending".
Definition managedStartConfirmed : string := "managed_start_confirmed".
Definition managedStartRetired : string := "managed_start_retired".

(** Sentinel errors; [Malformed] is any other error value. *)
Inductive journal_error :=
  | FromLedger (e : ledger_error)
  | Malformed
  | Cancelled
  | errManagedSessionPending
  | errManagedStartRetired.

#[global] Instance journal_error_eq_dec : EqDecision journal_error.
Proof. solve_decision. Defined.

Module StartRecord.
Record managedStartRecord := mk {
  SchemaVersion : Z;
  Binding : SkillSnapshotIdentity;
  Outcome : ManagedSessionStartResult
}.

#[global] Instance eq_dec : EqDecision managedStartRecord.
Proof. solve_decision. Defined.

Definition fields : list (field managedStartRecord) := [
  int_field "schema_version" SchemaVersion (λ x r, r <| SchemaVersion := x |>);
  sub_field "binding" Binding (λ x r, r <| Binding := x |>)
    (encode_struct Identity.fields) (decode_struct Identity.fields);
  sub_field "outcome" Outcome (λ x r, r <| Outcome := x |>)
    (encode_struct Start.fields) (λ _, Start.of_json)].

Definition zero : managedStartRecord := mk 0 Identity.zero Start.zero.
End StartRecord.
Export StartRecord(managedStartRecord).

Record managedStartEntry := mkStart {
  entry : Entry;
  record : managedStartRecord;
  retirement : ManagedStartObservation
}.

(** ** Records as ledger results *)

(** A struct value through JSON into a [map[string]any].  The numbers the
    journal writes are below 2^53, which a float64 holds exactly. *)
Definition payload_of (v : value) : option object :=
  match decode_value (print_value compact 0 v) with Some (VObj m) => Some m | _ => None end.

Definition exactJournalFields (j : json) (allowed : list string) : bool :=
  Nat.eqb (length (keys_of j)) (length allowed) &&
  forallb (λ name, is_some (raw_member j name)) allowed.

Definition record_names : list string := ["schema_version"; "binding"; "outcome"].

Definition binding_names : list string :=
  ["snapshot_id"; "task_id"; "node_id"; "user_id"; "account_id"; "session_id"; "runtime_backend"].

(** [json.Marshal] of the entry's result, parsed again. *)
Definition result_json (e : Entry) : option json :=
  let v := match Result e with Some m => VObj m | None => VNull end in
  if encodable v then parse_json (print_value compact 0 v) else None.

Definition cancelledManagedStart (outcome : ManagedSessionStartResult) (observed : ManagedStartObservation)
    : bool :=
  bool_decide (Observation.Result observed = outcome) && negb (Observation.Accepted observed) &&
  String.eqb (Observation.TaskStatus observed) "cancelled" &&
  (Start.LeaseAttempt outcome <=? Observation.CurrentLeaseAttempt observed) &&
  (Observation.CurrentLeaseAttempt observed <=? max_attempt).

Section Records.
Context (hex_sha256 : list Z → string).

(** [validate] *)
Definition validate_record (r : managedStartRecord) (taskID : string) : bool :=
  (StartRecord.SchemaVersion r =? 1) && non_empty taskID && (len taskID <=? 128) &&
  negb (contains_any path_breakers taskID) &&
  let o := StartRecord.Outcome r in
  let status := if String.eqb (Start.Code o) "SKILL_START_STOPPED" then "stopped" else "running" in
  bool_decide (NewManagedSessionStartResult hex_sha256 (StartRecord.Binding r) (Start.LeaseAttempt o)
                 status (Start.TmuxSessionName o) = Some o).

Definition decodeManagedStartEntry (e : Entry) : result journal_error managedStartEntry :=
  require bool_decide (Status e ∈ [managedStartPending; managedStartConfirmed; managedStartRetired]) &&
          negb (is_some (Error e)) orelse Malformed ;;
  match result_json e with
  | None => Err Malformed
  | Some j =>
      let retired := String.eqb (Status e) managedStartRetired in
      require exactJournalFields j (record_names ++ if retired then ["retirement"] else [])
        orelse Malformed ;;
      require match raw_member j "binding" with
              | Some (_, b) => exactJournalFields b binding_names
              | None => false
              end orelse Malformed ;;
      match decode_struct StartRecord.fields StartRecord.zero j with
      | None => Err Malformed
      | Some r =>
          require validate_record r (TaskID e) orelse Malformed ;;
          if retired then
            match raw_member j "retirement" with
            | None => Err Malformed
            | Some (_, x) =>
                match Observation.of_json x with
                | None => Err Malformed
                | Some observed =>
                    require cancelledManagedStart (StartRecord.Outcome r) observed orelse Malformed ;;
                    Ok (mkStart e r observed)
                end
            end
          else Ok (mkStart e r Observation.zero)
      end
  end.

(** ** The journal *)

Context {L Env : Type} `{TaskStore L Env}.

Definition from_ledger {A} (r : result ledger_error A) : result journal_error A :=
  match r with Ok a => Ok a | Err e => Err (FromLedger e) end.

Definition load (l : L) (taskID : string) : result journal_error (option managedStartEntry) :=
  found ← from_ledger (store_get l taskID);
  match found with
  | None => Ok None
  | Some e => d ← decodeManagedStartEntry e; Ok (Some d)
  end.

Fixpoint decode_starts (es : list Entry) : result journal_error (list managedStartEntry) :=
  match es with
  | [] => Ok []
  | e :: rest => d ← decodeManagedStartEntry e; ds ← decode_starts rest; Ok (d :: ds)
  end.

Definition pending (l : L) : result journal_error (list managedStartEntry) :=
  es ← from_ledger (store_list l managedStartPending); decode_starts es.

Abbreviation conflict := (FromLedger ErrConflict).

(** Whether [propose] may replace [previous] by a record with [outcome]. *)
Definition supersedes (previous : managedStartEntry) (outcome : ManagedSessionStartResult)
    (observation : option ManagedStartObservation) : bool :=
  String.eqb (Status (entry previous)) managedStartPending &&
  match observation with
  | None => false
  | Some o =>
      let before := StartRecord.Outcome (record previous) in
      negb (Observation.Accepted o) && bool_decide (Observation.Result o = before) &&
      (Observation.CurrentLeaseAttempt o =? Start.LeaseAttempt outcome) &&
      (Start.LeaseAttempt before <? Start.LeaseAttempt outcome) &&
      (String.eqb (Observation.TaskStatus o) "leased" || String.eqb (Observation.TaskStatus o) "running")
  end.

(** The new entry, written over [expected] and read again. *)
Definition write_pending (env : Env) (l : L) (taskID : string) (r : managedStartRecord)
    (expected : option Entry) : L * result journal_error (option managedStartEntry) :=
  match payload_of (encode_struct StartRecord.fields r) with
  | None => (l, Err Malformed)
  | Some payload =>
      let e := mkEntry taskID managedStartPending (Some payload) None zero_time in
      let '(l', swapped) := store_swap env l expected e in
      match swapped with
      | Err x => (l', Err (FromLedger x))
      | Ok _ => (l', load l' taskID)
      end
  end.

Definition propose (env : Env) (l : L) (taskID : string) (binding : SkillSnapshotIdentity)
    (outcome : ManagedSessionStartResult) (previous : option managedStartEntry)
    (observation : option ManagedStartObservation) : L * result journal_error (option managedStartEntry) :=
  let r := StartRecord.mk 1 binding outcome in
  if negb (validate_record r taskID) then (l, Err Malformed)
  else match previous with
  | None => write_pending env l taskID r None
  | Some p =>
      if String.eqb (Status (entry p)) managedStartRetired then (l, Err conflict)
      else if negb (String.eqb (TaskID (entry p)) taskID) ||
              negb (bool_decide (StartRecord.Binding (record p) = binding)) then (l, Err conflict)
      else if bool_decide (record p = r) then
        match load l taskID with
        | Ok (Some current) =>
            if bool_decide (record current = r) then (l, Ok (Some current)) else (l, Err conflict)
        | _ => (l, Err conflict)
        end
      else if negb (supersedes p outcome observation) then (l, Err conflict)
      else write_pending env l taskID r (Some (entry p))
  end.

(** After a conflict: done if the entry already is what was to be written. *)
Definition settled (l : L) (taskID : string) (wanted : managedStartEntry → bool)
    : result journal_error unit :=
  current ← load l taskID;
  match current with
  | Some c => if wanted c then Ok tt else Err conflict
  | None => Err conflict
  end.

Definition resolve (env : Env) (l : L) (previous next : Entry) (wanted : managedStartEntry → bool)
    : L * result journal_error unit :=
  let '(l', swapped) := store_swap env l (Some previous) next in
  match swapped with
  | Ok _ => (l', Ok tt)
  | Err ErrConflict => (l', settled l' (TaskID previous) wanted)
  | Err x => (l', Err (FromLedger x))
  end.

Definition confirm (env : Env) (l : L) (previous : managedStartEntry) (receipt : ManagedSessionStartResult)
    : L * result journal_error unit :=
  if negb (bool_decide (receipt = StartRecord.Outcome (record previous))) then (l, Err conflict)
  else if String.eqb (Status (entry previous)) managedStartConfirmed then (l, Ok tt)
  else if negb (String.eqb (Status (entry previous)) managedStartPending) then (l, Err conflict)
  else resolve env l (entry previous) ((entry previous) <| Status := managedStartConfirmed |>)
         (λ c, bool_decide (record c = record previous) &&
               String.eqb (Status (entry c)) managedStartConfirmed).

Definition retired_entry (previous : Entry) (evidence : object) : Entry :=
  previous <| Status := managedStartRetired |>
    <| Result := Some (put "retirement" (VObj evidence)
                         (match Result previous with Some m => m | None => [] end)) |>.

Definition retire (env : Env) (l : L) (previous : managedStartEntry) (observed : ManagedStartObservation)
    : L * result journal_error unit :=
  if negb (cancelledManagedStart (StartRecord.Outcome (record previous)) observed)
  then (l, Err conflict)
  else if String.eqb (Status (entry previous)) managedStartRetired &&
          bool_decide (retirement previous = observed) then (l, Ok tt)
  else if negb (String.eqb (Status (entry previous)) managedStartPending) then (l, Err conflict)
  else match payload_of (encode_struct Observation.fields observed) with
  | None => (l, Err Malformed)
  | Some evidence =>
      resolve env l (entry previous) (retired_entry (entry previous) evidence)
        (λ c, bool_decide (record c = record previous) &&
              String.eqb (Status (entry c)) managedStartRetired &&
              bool_decide (retirement c = observed))
  end.

(** ** Confirmation *)

(** [answer] is what [ConfirmManagedSessionStart] returns.  The state in which
    the server was called, if it was, comes with the result. *)
Definition confirmManagedStart (env1 env2 : Env) (stop1 stop2 : bool) (l : L) (taskID : string)
    (binding : SkillSnapshotIdentity) (outcome : ManagedSessionStartResult)
    (previous : option managedStartEntry) (observation : option ManagedStartObservation)
    (answer : result journal_error ManagedSessionStartResult)
    : L * option L * bool * result journal_error unit :=
  if stop1 then (l, None, false, Err Cancelled)
  else match propose env1 l taskID binding outcome previous observation with
  | (l1, Err x) => (l1, None, false, Err x)
  | (l1, Ok None) => (l1, None, false, Err Malformed)
  | (l1, Ok (Some p)) =>
      if String.eqb (Status (entry p)) managedStartConfirmed then (l1, None, true, Ok tt)
      else if negb (String.eqb (Status (entry p)) managedStartPending)
      then (l1, None, false, Err errManagedStartRetired)
      else if stop2 then (l1, None, false, Err Cancelled)
      else match answer with
      | Ok receipt =>
          if bool_decide (receipt = outcome) then
            let '(l2, r) := confirm env2 l1 p receipt in (l2, Some l1, true, r)
          else (l1, Some l1, false, Err errManagedSessionPending)
      | Err _ => (l1, Some l1, false, Err errManagedSessionPending)
      end
  end.

(** One round of recovery.  [inspect] answers for a task, [stop] says whether
    the context is done before it; the failures are collected. *)
Section Inspection.
Context (env : string → Env) (stop : string → bool)
        (inspect : string → SkillSnapshotIdentity → Z → ManagedSessionStartResult →
                   result journal_error ManagedStartObservation)
        (nodeID : string).

Definition inspect_one (l : L) (p : managedStartEntry) : L * result journal_error unit :=
  let id := TaskID (entry p) in
  let r := record p in
  if negb (String.eqb (Identity.NodeID (StartRecord.Binding r)) nodeID) then (l, Err Malformed)
  else match inspect id (StartRecord.Binding r) (Start.LeaseAttempt (StartRecord.Outcome r))
               (StartRecord.Outcome r) with
  | Err x => (l, Err x)
  | Ok observed =>
      if negb (bool_decide (Observation.Result observed = StartRecord.Outcome r)) then (l, Err Malformed)
      else if Observation.Accepted observed then confirm (env id) l p (Observation.Result observed)
      else if String.eqb (Observation.TaskStatus observed) "cancelled" then retire (env id) l p observed
      else (l, Ok tt)
  end.

Fixpoint inspect_all (l : L) (ps : list managedStartEntry) (failures : list journal_error)
    : L * list journal_error :=
  match ps with
  | [] => (l, failures)
  | p :: rest =>
      if stop (TaskID (entry p)) then (l, failures ++ [Cancelled])
      else
        let '(l', r) := inspect_one l p in
        inspect_all l' rest (failures ++ match r with Ok _ => [] | Err x => [x] end)
  end.

Definition inspectPendingManagedStarts (l : L) : L * list journal_error :=
  match pending l with
  | Err x => (l, [x])
  | Ok ps => inspect_all l ps []
  end.
End Inspection.

End Records.
