(* ===== verification/StartJournalFacts.v ===== *)
(** * What the managed-start journal guarantees

    Proved for every durable map, hence for the ledger.  Whatever calls are
    made in whatever order, with stale views of the entry and failing writes,
    the entry of a task moves forward only: absent, pending, and then confirmed
    or retired for good.  The server hears of an outcome only after it is on
    disk. *)

From S2P Require Import Prelude GoText GoTime GoJson GoUtf8 GoJsonText GoJsonValue GoJsonDecode GoJsonStruct.
From S2P Require Import StartResult Ledger TaskStore LedgerFacts StartJournal.
From Stdlib.Strings Require Import Ascii.

(** ** Objects written and read *)

Lemma payload_same m :
  faithful (VObj m) → distinct (VObj m) → (height (VObj m) ≤ max_depth)%nat →
  ∃ p, payload_of (VObj m) = Some p ∧ same (VObj m) (VObj p) ∧ faithful (VObj p) ∧
       canonical (VObj p) ∧ (height (VObj p) ≤ height (VObj m))%nat.
Proof.
  intros Hf Hd Hh. exists (put_all [] (map (λ f, (f.1, canon f.2)) m)).
  rewrite <- !canon_obj. split_and!;
    [|by apply same_canon|by apply canon_faithful|apply canon_canonical|apply canon_height].
  unfold payload_of, decode_value.
  rewrite <- (string_app_nil (print_value compact 0 (VObj m))).
  rewrite parse_print by (done || apply compact_white). cbn [mbind option_bind].
  by rewrite tree_value, canon_obj.
Qed.

Lemma result_json_tree e m :
  Result e = Some m → faithful (VObj m) → (height (VObj m) ≤ max_depth)%nat →
  result_json e = Some (tree compact 0 (VObj m)).
Proof.
  intros Hm Hf Hh. unfold result_json. rewrite Hm. cbv zeta.
  rewrite (faithful_encodable (VObj m)) by done.
  rewrite <- (string_app_nil (print_value compact 0 (VObj m))).
  by rewrite parse_print by (done || apply compact_white).
Qed.

Lemma exact_journal_tree st d l allowed :
  NoDup (map fst l) → map fst l ≡ₚ allowed →
  exactJournalFields (tree st d (VObj l)) allowed = true.
Proof.
  intros Hn Hp. unfold exactJournalFields. apply andb_true_iff. split.
  - apply Nat.eqb_eq. cbn [tree keys_of]. rewrite map_map. cbn. rewrite remove_dups_id by done.
    by rewrite <- Hp.
  - apply forallb_forall. intros k Hk%list_elem_of_In. rewrite has_member_tree by done.
    apply bool_decide_eq_true. by rewrite Hp.
Qed.

(** The members of an object whose fields are exact. *)
Lemma exact_journal_keys st d l allowed :
  NoDup (map fst l) → NoDup allowed →
  exactJournalFields (tree st d (VObj l)) allowed = true → map fst l ≡ₚ allowed.
Proof.
  intros Hn Ha [Hlen Hall]%andb_true_iff. apply Nat.eqb_eq in Hlen.
  cbn [tree keys_of] in Hlen. rewrite map_map in Hlen. cbn in Hlen. rewrite remove_dups_id in Hlen by done.
  symmetry. apply submseteq_length_Permutation; [|rewrite <- Hlen; done].
  apply NoDup_submseteq; [done|]. intros k Hk. rewrite forallb_forall in Hall.
  specialize (Hall k ltac:(by apply list_elem_of_In)). rewrite has_member_tree in Hall by done.
  by apply bool_decide_eq_true in Hall.
Qed.

(** A member the struct does not know does not change what it decodes to. *)
Lemma assign_known_put {R} names (assign : string → string → json → R → option R) st d k x m r :
  match_field names k = None → k ∉ map fst m →
  assign_known names assign
    (map (λ f, (f.1, print_value st d f.2, tree st d f.2)) (put k x m)) r =
  assign_known names assign (map (λ f, (f.1, print_value st d f.2, tree st d f.2)) m) r.
Proof.
  intros Hk. revert r. induction m as [|[k' y] m IH]; intros r Hin; cbn [put].
  - cbn. by rewrite Hk.
  - cbn in Hin. apply not_elem_of_cons in Hin as [Hne Hin].
    destruct (str_ltb k k'); [cbn; by rewrite Hk|].
    destruct (String.eqb_spec k k'); [done|]. cbn [map assign_known fst snd].
    destruct (match_field names k') as [name|]; [|by apply IH].
    destruct (assign name _ _ r) as [r'|]; cbn; [by apply IH|done].
Qed.

Lemma raw_member_put st d k x m name :
  sorted_keys m → name ≠ k →
  raw_member (tree st d (VObj (put k x m))) name = raw_member (tree st d (VObj m)) name.
Proof.
  intros Hs Hne. pose proof (put_sorted k x m Hs) as Hs'.
  destruct (get name m) as [v|] eqn:E.
  - assert (get name (put k x m) = Some v) as E'.
    { rewrite get_put. by rewrite (proj2 (String.eqb_neq name k) Hne). }
    apply get_Some in E, E'. by rewrite !(raw_member_tree _ _ _ name v) by (done || by apply sorted_keys_NoDup).
  - assert (∀ m', sorted_keys m' → get name m' = None →
      raw_member (tree st d (VObj m')) name = None) as Hnone.
    { intros m' Hm' Hg. pose proof (has_member_tree st d m' name (sorted_keys_NoDup _ Hm')) as H.
      destruct (raw_member (tree st d (VObj m')) name) as [w|]; [|done]. cbn in H. symmetry in H.
      apply bool_decide_eq_true, list_elem_of_fmap in H as ([k' v] & -> & Hin).
      cbn in Hg. by rewrite (get_elem k' v) in Hg. }
    rewrite !Hnone; [done|done|done|done|].
    by rewrite get_put, (proj2 (String.eqb_neq name k) Hne).
Qed.

(** ** Records *)

Section Records.
Context (hex_sha256 : list Z → string).
Hypothesis hex_sha256_hex : ∀ bs, all_chars is_hex (hex_sha256 bs) = true.

Lemma new_result_valid b n status tmux o :
  NewManagedSessionStartResult hex_sha256 b n status tmux = Some o →
  validate_start hex_sha256 o b n = true.
Proof.
  unfold NewManagedSessionStartResult. cbv zeta.
  repeat (case_match; try done); intros [= <-]; done.
Qed.

Lemma validate_record_start r id :
  validate_record hex_sha256 r id = true →
  StartRecord.SchemaVersion r = 1 ∧ non_empty id = true ∧
  validate_start hex_sha256 (StartRecord.Outcome r) (StartRecord.Binding r)
    (Start.LeaseAttempt (StartRecord.Outcome r)) = true.
Proof.
  unfold validate_record. cbv zeta. intros [[[[H1 H2]%andb_true_iff _]%andb_true_iff _]%andb_true_iff H]%andb_true_iff.
  apply bool_decide_eq_true, new_result_valid in H. by apply Z.eqb_eq in H1.
Qed.

Lemma record_disjoint : disjoint_fields StartRecord.fields.
Proof. solve_disjoint. Qed.

(** The texts of a record that come from outside. *)
Definition record_text (r : managedStartRecord) : Prop :=
  valid_utf8 (codes (Start.TmuxSessionName (StartRecord.Outcome r))) = true.

Lemma record_carried r id :
  validate_record hex_sha256 r id = true → record_text r →
  carried (encode_struct StartRecord.fields r)
    (λ _ _, decode_struct StartRecord.fields StartRecord.zero) r.
Proof.
  intros (Hs & _ & Hv)%validate_record_start Ht.
  pose proof (validate_start_cases _ _ _ _ Hv) as (Hb & _).
  apply struct_carried; [apply record_disjoint| |by destruct r].
  apply Forall_cons_2; [apply carries_int; [done|rewrite Hs; unfold max_int64; lia]|].
  apply Forall_cons_2; [apply carries_sub; [done|by apply identity_carried]|].
  apply Forall_cons_2; [apply carries_sub; [done|by eapply start_carried]|]. constructor.
Qed.

Lemma identity_height b : (height (encode_struct Identity.fields b) ≤ 1)%nat.
Proof. apply struct_height. solve_heights. Qed.

Lemma start_height o : (height (encode_struct Start.fields o) ≤ 1)%nat.
Proof. apply struct_height. solve_heights. Qed.

Lemma record_height r : (height (encode_struct StartRecord.fields r) ≤ 2)%nat.
Proof.
  apply struct_height. repeat (apply Forall_cons_2; [intros v [= <-]|]); [|..|constructor].
  - cbn. lia.
  - apply identity_height.
  - apply start_height.
Qed.

Definition writable (r : managedStartRecord) (id : string) : Prop :=
  validate_record hex_sha256 r id = true ∧ record_text r.

(** The payload of a record: what [propose] stores. *)
Lemma record_payload r id :
  writable r id →
  ∃ m, payload_of (encode_struct StartRecord.fields r) = Some m ∧
    same (encode_struct StartRecord.fields r) (VObj m) ∧ storable_object m.
Proof.
  intros [Hv Ht]. destruct (record_carried r id Hv Ht) as (Hf & Hd & _).
  pose proof (record_height r) as Hh.
  destruct (payload_same _ Hf Hd) as (m & Hp & Hs & Hfm & Hc & Hhm).
  { etrans; [exact Hh|]. unfold max_depth. lia. }
  exists m. split_and!; [done|done|]. split_and!; [|done|done|].
  - intros ->. apply same_keys in Hs as (l & [= <-] & Hk & _).
    apply Permutation_nil in Hk. by destruct r.
  - unfold encode_struct in Hh. unfold max_depth. lia.
Qed.

(** ** Decoding entries *)

Definition start_status (s : string) : Prop :=
  s = managedStartPending ∨ s = managedStartConfirmed ∨ s = managedStartRetired.

(** What the decoder checks of an entry whose result parses to [j]. *)
Record decodes (e : Entry) (j : json) (r : managedStartRecord) (o : ManagedStartObservation) : Prop := {
  dc_status : start_status (Status e);
  dc_error : Error e = None;
  dc_json : result_json e = Some j;
  dc_names : exactJournalFields j
    (record_names ++ if String.eqb (Status e) managedStartRetired then ["retirement"] else []) = true;
  dc_binding : ∃ w b, raw_member j "binding" = Some (w, b) ∧ exactJournalFields b binding_names = true;
  dc_record : decode_struct StartRecord.fields StartRecord.zero j = Some r;
  dc_valid : validate_record hex_sha256 r (TaskID e) = true;
  dc_retired :
    if String.eqb (Status e) managedStartRetired
    then ∃ w x, raw_member j "retirement" = Some (w, x) ∧ Observation.of_json x = Some o ∧
                cancelledManagedStart (StartRecord.Outcome r) o = true
    else o = Observation.zero
}.

Lemma start_status_list s :
  start_status s ↔ s ∈ [managedStartPending; managedStartConfirmed; managedStartRetired].
Proof. unfold start_status. rewrite !elem_of_cons, elem_of_nil. tauto. Qed.

Lemma decode_start e p :
  decodeManagedStartEntry hex_sha256 e = Ok p ↔
  entry p = e ∧ ∃ j, decodes e j (record p) (retirement p).
Proof.
  unfold decodeManagedStartEntry. cbv zeta. split.
  - intros H. go_inv H. apply andb_true_iff in Hguard as [Hst Herr].
    apply bool_decide_eq_true, start_status_list in Hst.
    destruct (Error e) eqn:Ee; [done|]. destruct (result_json e) as [j|] eqn:Ej; [|done].
    go_inv H. destruct (raw_member j "binding") as [[w b]|] eqn:Eb; [|done].
    destruct (decode_struct _ _ j) as [r|] eqn:Er; [|done]. go_inv H.
    destruct (String.eqb (Status e) managedStartRetired) eqn:Es.
    + destruct (raw_member j "retirement") as [[w' x]|] eqn:Ex; [|done].
      destruct (Observation.of_json x) as [o|] eqn:Eo; [|done]. go_inv H. apply Ok_inj in H. subst p.
      split; [done|]. exists j. split; rewrite ?Es; eauto 10.
    + apply Ok_inj in H. subst p. split; [done|]. exists j. split; rewrite ?Es; eauto.
  - intros (<- & j & [Hst He Hj Hn (w & b & Hb & Hbn) Hr Hv Hret]).
    rewrite (bool_decide_eq_true_2 _ (proj1 (start_status_list _) Hst)), He. cbn [is_some negb andb].
    rewrite Hj, Hn, Hb, Hbn, Hr, Hv. destruct (String.eqb _ _).
    + destruct Hret as (w' & x & -> & -> & ->). by destruct p.
    + destruct p as [e r o]. cbn in *. by rewrite Hret.
Qed.

(** Entries that differ in their time only, or in being confirmed. *)
Lemma decode_congr e e' p :
  decodeManagedStartEntry hex_sha256 e = Ok p →
  TaskID e' = TaskID e → Result e' = Result e → Error e' = Error e → start_status (Status e') →
  String.eqb (Status e') managedStartRetired = String.eqb (Status e) managedStartRetired →
  decodeManagedStartEntry hex_sha256 e' = Ok (mkStart e' (record p) (retirement p)).
Proof.
  rewrite !decode_start. intros (<- & j & [Hst He Hj Hn Hb Hr Hv Hret]) Ht HR HE Hs' Heq.
  split; [done|]. exists j. cbn [record retirement].
  split; rewrite ?Heq, ?Ht, ?HE; try done. unfold result_json in *. by rewrite HR.
Qed.

(** An entry as [propose] writes it. *)
Lemma decode_written r e m :
  writable r (TaskID e) → Status e = managedStartPending → Error e = None → Result e = Some m →
  same (encode_struct StartRecord.fields r) (VObj m) → storable_object m →
  decodeManagedStartEntry hex_sha256 e = Ok (mkStart e r Observation.zero).
Proof.
  intros [Hv Ht] Hst He Hm Hs (_ & Hf & Hc & Hh). apply decode_start. split; [done|].
  destruct (record_carried r _ Hv Ht) as (_ & Hd & Hdec).
  assert (Hdm : distinct (VObj m)) by (by eapply same_distinct).
  apply distinct_obj in Hdm as [Hnd _].
  destruct (same_keys _ _ Hs) as (m' & [= <-] & Hk & Hmem).
  exists (tree compact 0 (VObj m)). split; rewrite ?Hst.
  - by left.
  - done.
  - apply result_json_tree; [done|done|lia].
  - apply exact_journal_tree; [done|]. rewrite Hk. by destruct r.
  - assert (Hin : "binding" ∈ map fst m) by (rewrite Hk; destruct r; by right; left).
    apply list_elem_of_fmap in Hin as ([k v] & Heq & Hin). cbn in Heq. subst k.
    rewrite (raw_member_tree compact 0 m "binding" v) by done. do 2 eexists. split; [done|].
    destruct (Hmem _ _ Hin) as (y & Hy & Hyv). destruct r as [sv b o].
    assert (y = encode_struct Identity.fields b) as ->.
    { unfold encode_field in Hy. cbn in Hy. rewrite !elem_of_cons, elem_of_nil in Hy.
      destruct Hy as [|[[= ->]|[|]]]; done. }
    apply validate_record_start in Hv as (_ & _ & Hv').
    pose proof (validate_start_cases _ _ _ _ Hv') as (Hb & _).
    destruct (identity_carried b Hb) as (_ & Hbd & _).
    pose proof (same_distinct _ _ Hyv Hbd) as Hvd.
    destruct (same_keys _ _ Hyv) as (bm & -> & Hbk & _). apply distinct_obj in Hvd as [Hbn _].
    apply exact_journal_tree; [done|]. rewrite Hbk. by destruct b.
  - by apply (Hdec _ StartRecord.zero).
  - done.
  - done.
Qed.

(** ** Retirement *)

Lemma observation_height o : (height (encode_struct Observation.fields o) ≤ 2)%nat.
Proof.
  apply struct_height. repeat (apply Forall_cons_2; [intros v [= <-]; try (cbn; lia)|]); [|constructor].
  apply start_height.
Qed.

Lemma cancelled_spec outcome o :
  cancelledManagedStart outcome o = true →
  Observation.Result o = outcome ∧ Observation.Accepted o = false ∧
  Observation.TaskStatus o = "cancelled" ∧
  Start.LeaseAttempt outcome ≤ Observation.CurrentLeaseAttempt o ≤ max_attempt.
Proof.
  unfold cancelledManagedStart.
  rewrite !andb_true_iff, bool_decide_eq_true, negb_true_iff, String.eqb_eq, !Z.leb_le. tauto.
Qed.

(** The evidence of a cancellation as it is stored. *)
Lemma evidence_payload r id o :
  writable r id → cancelledManagedStart (StartRecord.Outcome r) o = true →
  ∃ ev, payload_of (encode_struct Observation.fields o) = Some ev ∧
    faithful (VObj ev) ∧ canonical (VObj ev) ∧ (height (VObj ev) ≤ 2)%nat ∧
    ∀ st d, white_style st → Observation.of_json (tree st d (VObj ev)) = Some o.
Proof.
  intros [(_ & _ & Hv)%validate_record_start Ht] (Hres & _ & Hst & Hn)%cancelled_spec.
  pose proof (validate_start_cases _ _ _ _ Hv) as (_ & Ha & _).
  destruct (observation_carried o) as (Hf & Hd & Hdec).
  { rewrite Hres. by eapply start_carried. }
  { lia. }
  { by rewrite Hst. }
  pose proof (observation_height o) as Hh.
  destruct (payload_same _ Hf Hd) as (ev & Hp & Hs & Hfe & Hc & Hhe).
  { etrans; [exact Hh|]. unfold max_depth. lia. }
  exists ev. split_and!; [done|done|done|etrans; [exact Hhe|exact Hh]|].
  intros st d Hst'. by apply (Hdec _ Observation.zero).
Qed.

Lemma put_obj_faithful k x m :
  valid_utf8 (codes k) = true → faithful x → faithful (VObj m) → faithful (VObj (put k x m)).
Proof. rewrite !faithful_obj. intros. by apply put_Forall. Qed.

Lemma put_obj_canonical k x m : canonical x → canonical (VObj m) → canonical (VObj (put k x m)).
Proof.
  rewrite !canonical_obj. intros Hx [Hs Hm]. split; [by apply put_sorted|by apply put_Forall].
Qed.

Lemma put_obj_height k x m n :
  (height x < n)%nat → (height (VObj m) ≤ n)%nat → (height (VObj (put k x m)) ≤ n)%nat.
Proof.
  cbn [height]. intros Hx Hm.
  enough (list_max (map (λ f, height f.2) (put k x m)) ≤ n - 1)%nat by lia.
  apply list_max_le, list.Forall_forall. intros h (f & -> & Hf)%list_elem_of_fmap.
  apply put_keys in Hf as [->|Hf]; [cbn; lia|].
  set (hs := map (λ f : string * value, height f.2) m) in *.
  pose proof (proj1 (list_max_le hs (list_max hs)) ltac:(lia)) as H. rewrite list.Forall_forall in H.
  specialize (H (height f.2) ltac:(by apply (list_elem_of_fmap_2 (λ f : string * value, height f.2)))). lia.
Qed.

Lemma retired_object ev m :
  storable_object m → faithful (VObj ev) → canonical (VObj ev) → (height (VObj ev) ≤ 2)%nat →
  storable_object (put "retirement" (VObj ev) m).
Proof.
  intros (_ & Hf & Hc & Hh) Hfe Hce Hhe. split_and!.
  - destruct m as [|[k y] m]; [done|]. cbn [put]. by repeat case_match.
  - by apply put_obj_faithful.
  - by apply put_obj_canonical.
  - enough (height (VObj (put "retirement" (VObj ev) m)) ≤ max_depth - 2)%nat
      by (unfold max_depth in *; lia).
    apply put_obj_height; unfold max_depth in *; lia.
Qed.

Lemma decode_object p m :
  decodeManagedStartEntry hex_sha256 (entry p) = Ok p → Result (entry p) = Some m → storable_object m →
  decodes (entry p) (tree compact 0 (VObj m)) (record p) (retirement p).
Proof.
  intros (_ & j & Hd)%decode_start Hm (_ & Hf & _ & Hh).
  assert (j = tree compact 0 (VObj m)) as ->; [|done].
  pose proof (dc_json _ _ _ _ Hd) as Hj. rewrite (result_json_tree _ m) in Hj by (done || lia).
  by injection Hj.
Qed.

(** Decoded text is valid UTF-8. *)
Lemma record_decoded_text st d v r :
  faithful v → decode_struct StartRecord.fields StartRecord.zero (tree st d v) = Some r → record_text r.
Proof.
  intros Hf. apply decode_struct_inv; [|done|done].
  repeat (apply Forall_cons_2; [intros acc x y Hacc Hx Hdec|]); [..|constructor]; try done.
  cbn in Hdec |- *. unfold record_text. cbn. unfold Start.of_json in Hdec.
  destruct (negb _); [done|]. cbv zeta in Hdec. destruct (exact_members _ _ _); [|done].
  revert Hdec. apply (decode_struct_inv (λ o, valid_utf8 (codes (Start.TmuxSessionName o)) = true)); [|done|done].
  repeat (apply Forall_cons_2; [intros a w z Ha Hw Hz|]); [..|constructor]; try done.
  exact (string_member_text _ _ _ _ _ Hw Ha Hz).
Qed.

Lemma decode_retired p e m ev o :
  decodeManagedStartEntry hex_sha256 (entry p) = Ok p → Status (entry p) = managedStartPending →
  Result (entry p) = Some m → storable_object m →
  cancelledManagedStart (StartRecord.Outcome (record p)) o = true →
  faithful (VObj ev) → canonical (VObj ev) → (height (VObj ev) ≤ 2)%nat →
  (∀ st d, white_style st → Observation.of_json (tree st d (VObj ev)) = Some o) →
  TaskID e = TaskID (entry p) → Status e = managedStartRetired → Error e = None →
  Result e = Some (put "retirement" (VObj ev) m) →
  decodeManagedStartEntry hex_sha256 e = Ok (mkStart e (record p) o).
Proof.
  intros Hp Hst Hm Hobj Hc Hfe Hce Hhe Hdec Ht Hs He HR.
  pose proof (retired_object ev m Hobj Hfe Hce Hhe) as (_ & Hf' & [Hs' _]%canonical_obj & Hh').
  destruct (decode_object p m Hp Hm Hobj) as [_ _ _ Hn (w & b & Hb & Hbn) Hr Hv _].
  destruct Hobj as (_ & _ & [Hsm _]%canonical_obj & _).
  rewrite Hst in Hn. cbn [String.eqb] in Hn. change (String.eqb _ _) with false in Hn. rewrite app_nil_r in Hn.
  apply exact_journal_keys in Hn; [|by apply sorted_keys_NoDup|by apply (bool_decide_unpack _); vm_compute].
  assert (Hnew : "retirement" ∉ map fst m) by (rewrite Hn; by apply (bool_decide_unpack _); vm_compute).
  apply decode_start. split; [done|]. exists (tree compact 0 (VObj (put "retirement" (VObj ev) m))).
  cbn [record retirement]. split; rewrite ?Hs, ?Ht.
  - by right; right.
  - done.
  - apply result_json_tree; [done|done|lia].
  - apply exact_journal_tree; [by apply sorted_keys_NoDup|].
    change (String.eqb managedStartRetired managedStartRetired) with true.
    change (fst <$> put "retirement" (VObj ev) m ≡ₚ record_names ++ ["retirement"]).
    rewrite put_perm by done. cbn [fmap list_fmap fst].
    change (fst <$> m) with (map fst m). rewrite Hn. apply Permutation_cons_append.
  - exists w, b. by rewrite raw_member_put.
  - rewrite <- Hr. unfold decode_struct. cbn [tree lax_struct_of_json]. by apply assign_known_put.
  - done.
  - change (String.eqb managedStartRetired managedStartRetired) with true. cbv iota.
    do 2 eexists. rewrite (raw_member_tree _ _ _ "retirement" (VObj ev)).
    + split; [done|]. by rewrite Hdec.
    + by apply sorted_keys_NoDup.
    + apply get_Some. rewrite get_put. by rewrite String.eqb_refl.
Qed.

End Records.

(** ** Phases of a task *)

Inductive start_phase :=
  | Absent
  | Pending (r : managedStartRecord)
  | Confirmed (r : managedStartRecord)
  | Retired (r : managedStartRecord) (o : ManagedStartObservation)
  | Foreign.

(** How the entry of a task may change. *)
Inductive advances : start_phase → start_phase → Prop :=
  | adv_same p : advances p p
  | adv_propose r : advances Absent (Pending r)
  | adv_supersede r r' :
      StartRecord.Binding r' = StartRecord.Binding r →
      Start.LeaseAttempt (StartRecord.Outcome r) < Start.LeaseAttempt (StartRecord.Outcome r') →
      advances (Pending r) (Pending r')
  | adv_confirm r : advances (Pending r) (Confirmed r)
  | adv_retire r o :
      cancelledManagedStart (StartRecord.Outcome r) o = true → advances (Pending r) (Retired r o).

Section Journal.
Context (hex_sha256 : list Z → string).
Hypothesis hex_sha256_hex : ∀ bs, all_chars is_hex (hex_sha256 bs) = true.
Context {L Env : Type} `{DurableMap L Env}.

Definition phase_of (e : option Entry) : start_phase :=
  match e with
  | None => Absent
  | Some e =>
      match decodeManagedStartEntry hex_sha256 e with
      | Err _ => Foreign
      | Ok p =>
          if String.eqb (Status e) managedStartPending then Pending (record p)
          else if String.eqb (Status e) managedStartConfirmed then Confirmed (record p)
          else Retired (record p) (retirement p)
      end
  end.

Definition phase (l : L) (id : string) : start_phase := phase_of (content l id).

(** An entry some earlier read of the journal returned, possibly out of date. *)
Definition known (p : managedStartEntry) : Prop :=
  decodeManagedStartEntry hex_sha256 (entry p) = Ok p ∧ proper (entry p).

Lemma known_object p : known p → ∃ m, Result (entry p) = Some m ∧ storable_object m.
Proof.
  intros [Hd Hp]. apply decode_start in Hd as (_ & j & Hd).
  destruct (Result (entry p)) as [m|] eqn:E.
  - exists m. split; [done|]. by eapply proper_object.
  - pose proof (dc_json _ _ _ _ _ Hd) as Hj. unfold result_json in Hj. rewrite E in Hj.
    vm_compute in Hj. injection Hj as <-. pose proof (dc_names _ _ _ _ _ Hd) as Hn.
    unfold exactJournalFields in Hn. by destruct (String.eqb _ _).
Qed.

Lemma known_writable p : known p → writable hex_sha256 (record p) (TaskID (entry p)).
Proof.
  intros Hk. destruct (known_object p Hk) as (m & Hm & Hobj). destruct Hk as [Hdec Hp].
  pose proof (decode_object _ _ _ Hdec Hm Hobj) as Hd.
  split; [by apply (dc_valid _ _ _ _ _ Hd)|]. destruct Hobj as (_ & Hf & _).
  eapply record_decoded_text; [exact Hf|apply (dc_record _ _ _ _ _ Hd)].
Qed.

Lemma known_error p : known p → Error (entry p) = None.
Proof. intros [Hd _]. apply decode_start in Hd as (_ & j & Hd). apply (dc_error _ _ _ _ _ Hd). Qed.

(** ** One replacement *)

(** Replacing the entry [x] of a task by [e]: nothing happens, or the entry of
    this task becomes [e]. *)
Lemma swap_effect env l x e l' r :
  sound l → admits env e → (∀ y, x = Some y → proper y) →
  store_swap env l x e = (l', r) →
  sound l' ∧
  (l' = l ∧ r ≠ Ok tt ∨
   content l (TaskID e) = x ∧ replaced (content l) (TaskID e) (keeps env e) (content l') ∧
   (r = Ok tt ∧ in_doubt l' = false ∨ r = Err ErrPublish ∧ in_doubt l' = true)).
Proof.
  intros Hl Ha Hx Hrun. destruct (in_doubt l) eqn:Hdoubt.
  { rewrite swap_doubt in Hrun by done. injection Hrun as <- <-. by auto. }
  destruct (decide (content l (TaskID e) = x)) as [Heq|Hne].
  - destruct (swap_match env l x e Hl Hdoubt Ha Heq) as (l1 & r1 & Hrun' & Hl' & Hcases).
    rewrite Hrun' in Hrun. injection Hrun as -> ->. split; [done|].
    destruct Hcases as [(-> & ? & ?)|[(-> & ->)|(-> & ? & ?)]]; [right; by auto|by left|right; by auto].
  - rewrite swap_conflict in Hrun by done. injection Hrun as <- <-. by auto.
Qed.

(** The other entries stay; after a success the entry is there. *)
Lemma swap_frame env l x e l' r :
  sound l → admits env e → (∀ y, x = Some y → proper y) → store_swap env l x e = (l', r) →
  ∀ k, k ≠ TaskID e → content l' k = content l k.
Proof.
  intros Hl Ha Hx Hrun k Hk.
  destruct (swap_effect _ _ _ _ _ _ Hl Ha Hx Hrun) as [_ [(-> & _)|(_ & Hrep & _)]]; [done|].
  by rewrite Hrep, (proj2 (String.eqb_neq _ _) Hk).
Qed.

Lemma swap_written env l x e l' :
  sound l → admits env e → (∀ y, x = Some y → proper y) → store_swap env l x e = (l', Ok tt) →
  sound l' ∧ in_doubt l' = false ∧ content l' (TaskID e) = Some (keeps env e).
Proof.
  intros Hl Ha Hx Hrun.
  destruct (swap_effect _ _ _ _ _ _ Hl Ha Hx Hrun) as [Hl' [(_ & Hn)|(_ & Hrep & Hd)]]; [done|].
  split_and!; [done|by destruct Hd as [[_ ?]|[? _]]|]. by rewrite Hrep, String.eqb_refl.
Qed.

(** Entries classified by [classify], which a replacement moves along [R]. *)
Lemma swap_moves {P} (classify : option Entry → P) (R : P → P → Prop) env l x e :
  (∀ p, R p p) → sound l → admits env e → (∀ y, x = Some y → proper y) →
  R (classify x) (classify (Some (keeps env e))) →
  sound (store_swap env l x e).1 ∧
  ∀ k, R (classify (content l k)) (classify (content (store_swap env l x e).1 k)).
Proof.
  intros Hrefl Hl Ha Hx Hadv. destruct (store_swap env l x e) as [l' r] eqn:Hrun.
  destruct (swap_effect _ _ _ _ _ _ Hl Ha Hx Hrun) as [Hl' [(-> & _)|(Heq & Hrep & _)]]; [by split|].
  split; [done|]. intros k. cbn [fst]. rewrite Hrep.
  destruct (String.eqb_spec k (TaskID e)) as [->|_]; [by rewrite Heq|apply Hrefl].
Qed.

Lemma phase_replaced l l' id e :
  replaced (content l) id e (content l') →
  phase l' id = phase_of (Some e) ∧ ∀ k, k ≠ id → phase l' k = phase l k.
Proof.
  intros Hr. unfold phase. split.
  - by rewrite Hr, String.eqb_refl.
  - intros k Hk. by rewrite Hr, (proj2 (String.eqb_neq k id) Hk).
Qed.

(** Every task's entry advanced. *)
Definition forward (l l' : L) : Prop := sound l' ∧ ∀ k, advances (phase l k) (phase l' k).

Lemma forward_refl l : sound l → forward l l.
Proof. intros Hl. split; [done|]. intros k. constructor. Qed.

Lemma swap_forward env l x e :
  sound l → admits env e → (∀ y, x = Some y → proper y) →
  advances (phase_of x) (phase_of (Some (keeps env e))) →
  forward l (store_swap env l x e).1.
Proof. intros. apply (swap_moves phase_of advances); try done. constructor. Qed.

(** ** The three replacements of the journal *)

Lemma pending_entry env r id m :
  timely env → valid_utf8 (codes id) = true → writable hex_sha256 r id →
  same (encode_struct StartRecord.fields r) (VObj m) → storable_object m →
  let e := mkEntry id managedStartPending (Some m) None zero_time in
  admits env e ∧ decodeManagedStartEntry hex_sha256 (keeps env e) = Ok (mkStart (keeps env e) r Observation.zero) ∧
  phase_of (Some (keeps env e)) = Pending r.
Proof.
  intros Ht Hu Hw Hs Hm e. destruct (keeps_fields env e) as (H1 & H2 & H3 & H4).
  assert (Result (keeps env e) = Some m) as Hres.
  { apply H3. cbn. intros [= ->]. by destruct Hm. }
  assert (decodeManagedStartEntry hex_sha256 (keeps env e) =
    Ok (mkStart (keeps env e) r Observation.zero)) as Hdec.
  { apply (decode_written _ hex_sha256_hex r _ m); try done; [by rewrite H1|by rewrite H4]. }
  split_and!; [by eapply admits_intro; [..|left|]|done|].
  unfold phase_of. rewrite Hdec, H2. done.
Qed.

Lemma known_phase p : known p → Status (entry p) = managedStartPending →
  phase_of (Some (entry p)) = Pending (record p).
Proof. intros [Hd _] Hs. unfold phase_of. by rewrite Hd, Hs. Qed.

Lemma confirmed_entry env p :
  timely env → known p → Status (entry p) = managedStartPending →
  let e := (entry p) <| Status := managedStartConfirmed |> in
  admits env e ∧ phase_of (Some (keeps env e)) = Confirmed (record p).
Proof.
  intros Ht Hk Hs e. destruct (known_object p Hk) as (m & Hm & Hobj).
  destruct (keeps_fields env e) as (H1 & H2 & H3 & H4).
  pose proof (known_error p Hk) as He. destruct Hk as [Hd Hp].
  assert (Hres : Result (keeps env e) = Result (entry p)).
  { apply H3. cbn. rewrite Hm. intros [= ->]. by destruct Hobj. }
  split.
  - eapply admits_intro; [done| |done|by left|done]. exact (proper_text (entry p) Hp).
  - unfold phase_of.
    rewrite (decode_congr hex_sha256 (entry p) (keeps env e) p); try done.
    + by rewrite H2.
    + apply H4. cbn. by rewrite He.
    + rewrite H2. by right; left.
    + by rewrite H2, Hs.
Qed.

Lemma retirement_entry env p o ev :
  timely env → known p → Status (entry p) = managedStartPending →
  cancelledManagedStart (StartRecord.Outcome (record p)) o = true →
  payload_of (encode_struct Observation.fields o) = Some ev →
  let e := retired_entry (entry p) ev in
  admits env e ∧ phase_of (Some (keeps env e)) = Retired (record p) o.
Proof.
  intros Ht Hk Hs Hc Hev e.
  destruct (evidence_payload _ hex_sha256_hex _ _ o (known_writable p Hk) Hc)
    as (ev' & Hev' & Hfe & Hce & Hhe & Hdec). rewrite Hev in Hev'. injection Hev' as <-.
  destruct (known_object p Hk) as (m & Hm & Hobj). pose proof (known_error p Hk) as He.
  pose proof (retired_object ev m Hobj Hfe Hce Hhe) as Hobj'.
  destruct (keeps_fields env e) as (H1 & H2 & H3 & H4). destruct Hk as [Hd Hp].
  assert (HR : Result e = Some (put "retirement" (VObj ev) m)).
  { unfold e, retired_entry. cbn. by rewrite Hm. }
  split.
  - eapply admits_intro; [done| |done|by left|done]. exact (proper_text (entry p) Hp).
  - unfold phase_of. rewrite (decode_retired hex_sha256 p (keeps env e) m ev o); try done.
    + by rewrite H2.
    + rewrite H4; [done|]. cbn. by rewrite He.
    + rewrite H3, HR; [done|]. rewrite HR. destruct Hobj' as [Hne _]. congruence.
Qed.

(** ** The operations move entries forward *)

Lemma write_pending_forward env l id r x :
  sound l → timely env → valid_utf8 (codes id) = true → writable hex_sha256 r id →
  (∀ y, x = Some y → proper y) → advances (phase_of x) (Pending r) →
  forward l (write_pending hex_sha256 env l id r x).1.
Proof.
  intros Hl Ht Hu Hw Hx Hadv. unfold write_pending.
  destruct (record_payload _ hex_sha256_hex r id Hw) as (m & -> & Hs & Hm).
  destruct (pending_entry env r id m Ht Hu Hw Hs Hm) as (Ha & _ & Hph).
  pose proof (swap_forward env l x _ Hl Ha Hx ltac:(by rewrite Hph)) as Hf.
  destruct (store_swap env l x _) as [l' [[]|err]]; done.
Qed.

Lemma resolve_forward env l p e wanted :
  sound l → known p → admits env e →
  advances (phase_of (Some (entry p))) (phase_of (Some (keeps env e))) →
  forward l (resolve hex_sha256 env l (entry p) e wanted).1.
Proof.
  intros Hl [_ Hp] Ha Hadv. unfold resolve.
  pose proof (swap_forward env l (Some (entry p)) e Hl Ha) as Hf.
  destruct (store_swap env l (Some (entry p)) e) as [l' r]. cbn [fst] in Hf.
  assert (forward l l') as H' by (apply Hf; [by intros y [= <-]|done]).
  by destruct r as [|[]].
Qed.

(** The arguments of [propose] that come from outside. *)
Definition sane_proposal (env : Env) (id : string) (o : ManagedSessionStartResult)
    (prev : option managedStartEntry) : Prop :=
  timely env ∧ valid_utf8 (codes id) = true ∧ valid_utf8 (codes (Start.TmuxSessionName o)) = true ∧
  ∀ p, prev = Some p → known p.

Lemma supersedes_spec p o obs :
  supersedes p o obs = true →
  Status (entry p) = managedStartPending ∧
  Start.LeaseAttempt (StartRecord.Outcome (record p)) < Start.LeaseAttempt o.
Proof.
  unfold supersedes. intros [Hs Hx]%andb_true_iff. apply String.eqb_eq in Hs.
  destruct obs as [ob|]; [|done]. split; [done|].
  repeat match goal with H : _ && _ = true |- _ => apply andb_true_iff in H as [? ?] end.
  by apply Z.ltb_lt.
Qed.

Lemma propose_forward env l id b o prev obs :
  sound l → sane_proposal env id o prev → forward l (propose hex_sha256 env l id b o prev obs).1.
Proof.
  intros Hl (Ht & Hu & Htm & Hprev). unfold propose. cbv zeta. set (r := StartRecord.mk 1 b o).
  destruct (validate_record hex_sha256 r id) eqn:Hv; cbn [negb]; [|by apply forward_refl].
  assert (Hw : writable hex_sha256 r id) by done.
  destruct prev as [p|].
  2: { apply write_pending_forward; try done. constructor. }
  specialize (Hprev p eq_refl).
  destruct (String.eqb (Status (entry p)) managedStartRetired); [by apply forward_refl|].
  case_match eqn:Hid; [by apply forward_refl|]. apply orb_false_iff in Hid as [Hid Hb].
  apply negb_false_iff, bool_decide_eq_true in Hb.
  destruct (bool_decide (record p = r)).
  { repeat case_match; by apply forward_refl. }
  destruct (supersedes p o obs) eqn:Hsup; cbn [negb]; [|by apply forward_refl].
  apply supersedes_spec in Hsup as [Hst Hlt].
  apply write_pending_forward; try done.
  - intros y [= <-]. by destruct Hprev as [_ ?].
  - rewrite known_phase by done. by constructor.
Qed.

Lemma confirm_forward env l p receipt :
  sound l → timely env → known p → forward l (confirm hex_sha256 env l p receipt).1.
Proof.
  intros Hl Ht Hk. unfold confirm.
  destruct (bool_decide _); cbn [negb]; [|by apply forward_refl].
  destruct (String.eqb (Status (entry p)) managedStartConfirmed); [by apply forward_refl|].
  destruct (String.eqb_spec (Status (entry p)) managedStartPending) as [Hs|]; cbn [negb];
    [|by apply forward_refl].
  destruct (confirmed_entry env p Ht Hk Hs) as [Ha Hph].
  apply resolve_forward; try done. rewrite Hph, known_phase by done. constructor.
Qed.

Lemma retire_forward env l p o :
  sound l → timely env → known p → forward l (retire hex_sha256 env l p o).1.
Proof.
  intros Hl Ht Hk. unfold retire.
  destruct (cancelledManagedStart _ o) eqn:Hc; cbn [negb]; [|by apply forward_refl].
  destruct (_ && _); [by apply forward_refl|].
  destruct (String.eqb_spec (Status (entry p)) managedStartPending) as [Hs|]; cbn [negb];
    [|by apply forward_refl].
  destruct (payload_of _) as [ev|] eqn:Hev; [|by apply forward_refl].
  destruct (retirement_entry env p o ev Ht Hk Hs Hc Hev) as [Ha Hph].
  apply resolve_forward; try done. rewrite Hph, known_phase by done. by constructor.
Qed.

(** ** Histories *)

(** One call of the journal, with any view of the entry some earlier call
    read, or a restart of the node. *)
Inductive journal_step : L → L → Prop :=
  | step_propose env l id b o prev obs :
      sane_proposal env id o prev → journal_step l (propose hex_sha256 env l id b o prev obs).1
  | step_confirm env l p receipt :
      timely env → known p → journal_step l (confirm hex_sha256 env l p receipt).1
  | step_retire env l p o :
      timely env → known p → journal_step l (retire hex_sha256 env l p o).1
  | step_reopen l l' : store_reopen l = Ok l' → journal_step l l'.

Lemma journal_step_forward l l' : sound l → journal_step l l' → forward l l'.
Proof.
  intros Hl Hs. destruct Hs as [| | |l l' Ho];
    [by apply propose_forward|by apply confirm_forward|by apply retire_forward|].
  destruct (reopen_spec l Hl) as (l1 & Ho' & Hl1 & _ & Hc). rewrite Ho in Ho'. injection Ho' as ->.
  split; [done|]. intros k. unfold phase. rewrite Hc. constructor.
Qed.

Lemma journal_history l l' : sound l → rtc journal_step l l' → sound l'.
Proof.
  intros Hl Hs. induction Hs as [|l1 l2 l3 Hstep _ IH]; [done|]. apply IH.
  by destruct (journal_step_forward l1 l2 Hl Hstep).
Qed.

Definition final (p : start_phase) : Prop :=
  match p with Confirmed _ | Retired _ _ => True | _ => False end.

Definition phase_record (p : start_phase) : option managedStartRecord :=
  match p with Pending r | Confirmed r | Retired r _ => Some r | Absent | Foreign => None end.

Lemma advances_final p q : advances p q → final p → q = p.
Proof. by destruct 1. Qed.

(** The record a phase is about, in relation to an earlier one. *)
Definition continues (r r' : managedStartRecord) : Prop :=
  StartRecord.Binding r' = StartRecord.Binding r ∧
  (r' = r ∨ Start.LeaseAttempt (StartRecord.Outcome r) < Start.LeaseAttempt (StartRecord.Outcome r')).

Lemma advances_record p q r :
  advances p q → phase_record p = Some r → ∃ r', phase_record q = Some r' ∧ continues r r'.
Proof.
  unfold continues. destruct 1 as [p| |r1 r2| |]; cbn; intros Hr; try done.
  - exists r. by auto.
  - injection Hr as <-. exists r2. by auto.
  - injection Hr as <-. by eauto.
  - injection Hr as <-. by eauto.
Qed.

(** C5: the journal never takes an outcome back.  After any history of
    proposals, confirmations and retirements, made with possibly outdated views
    of the entries and failing at any point, and of restarts, a task that was
    confirmed or retired is so with the same record, and a task that had a
    record still has one, with the same binding, and if the record changed,
    with a later lease attempt. *)
Theorem start_outcome_kept l l' id :
  sound l → rtc journal_step l l' →
  (final (phase l id) → phase l' id = phase l id) ∧
  (∀ r, phase_record (phase l id) = Some r →
   ∃ r', phase_record (phase l' id) = Some r' ∧ continues r r').
Proof.
  intros Hl Hs. induction Hs as [l|l1 l2 l3 Hstep _ IH].
  { split; [done|]. intros r Hr. exists r. split; [done|]. split; [done|by left]. }
  destruct (journal_step_forward l1 l2 Hl Hstep) as [Hl2 Hadv].
  specialize (Hadv id). destruct (IH Hl2) as [IH1 IH2]. split.
  - intros Hfin. pose proof (advances_final _ _ Hadv Hfin) as Heq. rewrite <- Heq.
    apply IH1. by rewrite Heq.
  - intros r Hr. destruct (advances_record _ _ r Hadv Hr) as (r2 & Hr2 & Hb2 & Hc2).
    destruct (IH2 r2 Hr2) as (r3 & Hr3 & Hb3 & Hc3). exists r3. split; [done|].
    split; [congruence|]. destruct Hc2 as [->|], Hc3 as [->|]; (by left) || (right; lia).
Qed.

(** ** Confirmation *)

Lemma load_found l id p :
  sound l → load hex_sha256 l id = Ok (Some p) →
  in_doubt l = false ∧ content l id = Some (entry p) ∧
  decodeManagedStartEntry hex_sha256 (entry p) = Ok p.
Proof.
  intros Hl. unfold load. rewrite get_spec by done. destruct (in_doubt l); [done|]. cbn.
  destruct (content l id) as [e|]; [|done]. intros H'. apply bind_Ok_inv in H' as (d & Hd & Heq).
  apply Ok_inj in Heq. injection Heq as <-. pose proof Hd as (He & _)%decode_start. by subst e.
Qed.

Lemma write_pending_result env l id r x l' p :
  sound l → timely env → valid_utf8 (codes id) = true → writable hex_sha256 r id →
  (∀ y, x = Some y → proper y) →
  write_pending hex_sha256 env l id r x = (l', Ok p) →
  ∃ e, p = Some (mkStart e r Observation.zero) ∧ Status e = managedStartPending ∧
    content l' id = Some e ∧ in_doubt l' = false ∧ sound l' ∧
    decodeManagedStartEntry hex_sha256 e = Ok (mkStart e r Observation.zero).
Proof.
  intros Hl Ht Hu Hw Hx. unfold write_pending.
  destruct (record_payload _ hex_sha256_hex r id Hw) as (m & -> & Hs & Hm).
  destruct (pending_entry env r id m Ht Hu Hw Hs Hm) as (Ha & Hdec & Hph).
  set (e := mkEntry id _ _ _ _) in *. destruct (keeps_fields env e) as (Hid & Hst & _ & _).
  destruct (store_swap env l x e) as [l1 [[]|err]] eqn:Hrun; [|done].
  intros [= <- Hload].
  destruct (swap_effect _ _ _ _ _ _ Hl Ha Hx Hrun) as [Hl1 [(_ & Hn)|(_ & Hrep & Hd)]]; [done|].
  destruct Hd as [[_ Hd]|[? _]]; [|done].
  assert (Hc : content l1 id = Some (keeps env e)) by (by rewrite Hrep, String.eqb_refl).
  exists (keeps env e). unfold load in Hload. rewrite get_spec, Hd, Hc in Hload by done.
  cbn [from_ledger mbind result_bind] in Hload. rewrite Hdec in Hload.
  apply Ok_inj in Hload. by split_and!.
Qed.

(** What a successful proposal leaves in the journal. *)
Lemma propose_result env l id b o prev obs l' p :
  sound l → sane_proposal env id o prev →
  propose hex_sha256 env l id b o prev obs = (l', Ok p) →
  ∃ d, p = Some d ∧ record d = StartRecord.mk 1 b o ∧ content l' id = Some (entry d) ∧
    in_doubt l' = false ∧ decodeManagedStartEntry hex_sha256 (entry d) = Ok d ∧ TaskID (entry d) = id.
Proof.
  intros Hl (Ht & Hu & Htm & Hprev). unfold propose. cbv zeta. set (r := StartRecord.mk 1 b o).
  destruct (validate_record hex_sha256 r id) eqn:Hv; cbn [negb]; [|done].
  assert (Hw : writable hex_sha256 r id) by done.
  assert (Hwrite : ∀ x, (∀ y, x = Some y → proper y) →
    write_pending hex_sha256 env l id r x = (l', Ok p) →
    ∃ d, p = Some d ∧ record d = r ∧ content l' id = Some (entry d) ∧
      in_doubt l' = false ∧ decodeManagedStartEntry hex_sha256 (entry d) = Ok d ∧ TaskID (entry d) = id).
  { intros x Hx Hrun.
    destruct (write_pending_result _ _ _ _ _ _ _ Hl Ht Hu Hw Hx Hrun) as (e & -> & Hs & Hc & Hd & Hl' & Hdec).
    destruct (content_proper l' id e Hl' Hc) as [_ Hid].
    exists (mkStart e r Observation.zero). by split_and!. }
  destruct prev as [q|]; [|by apply Hwrite].
  destruct (String.eqb (Status (entry q)) managedStartRetired); [done|].
  case_match eqn:Hid; [done|]. destruct (bool_decide (record q = r)).
  - destruct (load hex_sha256 l id) as [[c|]|] eqn:Hload; try done.
    destruct (bool_decide (record c = r)) eqn:Hrec; [|done]. apply bool_decide_eq_true in Hrec.
    intros [= <- <-]. exists c.
    destruct (load_found _ _ _ Hl Hload) as (Hd & Hc & Hdec).
    destruct (content_proper l id _ Hl Hc). by split_and!.
  - destruct (supersedes q o obs); [|done]. apply Hwrite.
    intros y [= <-]. by destruct (Hprev q eq_refl) as [_ ?].
Qed.

Lemma found_phase l id p :
  content l id = Some (entry p) → decodeManagedStartEntry hex_sha256 (entry p) = Ok p →
  Status (entry p) = managedStartPending → phase l id = Pending (record p).
Proof. intros Hc Hd Hs. unfold phase. rewrite Hc. cbn. by rewrite Hd, Hs. Qed.

Lemma found_confirmed l id p :
  content l id = Some (entry p) → decodeManagedStartEntry hex_sha256 (entry p) = Ok p →
  Status (entry p) = managedStartConfirmed → phase l id = Confirmed (record p).
Proof. intros Hc Hd Hs. unfold phase. rewrite Hc. cbn. by rewrite Hd, Hs. Qed.

Lemma resolve_ok env l p e wanted l' q :
  sound l → known p → admits env e → TaskID e = TaskID (entry p) →
  phase_of (Some (keeps env e)) = q →
  (∀ c, decodeManagedStartEntry hex_sha256 (entry c) = Ok c → wanted c = true →
        phase_of (Some (entry c)) = q) →
  resolve hex_sha256 env l (entry p) e wanted = (l', Ok tt) →
  sound l' ∧ phase l' (TaskID (entry p)) = q.
Proof.
  intros Hl [_ Hp] Ha Hid Hq Hwant. unfold resolve.
  destruct (store_swap env l (Some (entry p)) e) as [l1 r] eqn:Hrun.
  assert (Hx : ∀ y, Some (entry p) = Some y → proper y) by (by intros y [= <-]).
  destruct (swap_effect _ _ _ _ _ _ Hl Ha Hx Hrun) as [Hl1 Heff].
  intros Hres. assert (l1 = l') as -> by (by destruct r as [[]|[]]; injection Hres).
  split; [done|]. destruct r as [[]|err].
  - destruct Heff as [(_ & ?)|(_ & Hrep & _)]; [done|].
    apply phase_replaced in Hrep as [Hph _]. by rewrite <- Hid, Hph.
  - destruct err; try done. injection Hres as Hset. unfold settled in Hset.
    apply bind_Ok_inv in Hset as (c & Hload & Hc). destruct c as [c|]; [|done].
    destruct (wanted c) eqn:Hw; [|done].
    destruct (load_found _ _ _ Hl1 Hload) as (_ & Hfound & Hdec).
    unfold phase. rewrite Hfound. by apply Hwant.
Qed.

Lemma confirm_ok env l p receipt l' :
  sound l → timely env → known p →
  confirm hex_sha256 env l p receipt = (l', Ok tt) → content l (TaskID (entry p)) = Some (entry p) →
  sound l' ∧ phase l' (TaskID (entry p)) = Confirmed (record p).
Proof.
  intros Hl Ht Hk Hrun Hc. unfold confirm in Hrun.
  destruct (bool_decide _); cbn [negb] in Hrun; [|done].
  destruct (String.eqb_spec (Status (entry p)) managedStartConfirmed) as [Hs|_].
  { injection Hrun as <-. split; [done|]. apply found_confirmed; [done|apply Hk|done]. }
  destruct (String.eqb_spec (Status (entry p)) managedStartPending) as [Hs|]; cbn [negb] in Hrun; [|done].
  destruct (confirmed_entry env p Ht Hk Hs) as [Ha Hph].
  eapply resolve_ok in Hrun; try done. intros c Hd [Hr Hst]%andb_true_iff.
  apply bool_decide_eq_true in Hr. apply String.eqb_eq in Hst. unfold phase_of.
  by rewrite Hd, Hst, Hr.
Qed.


(** ** Inspection *)

(** What one resolution does to the entries: nothing, or it replaces exactly
    the entry it was given. *)
Definition resolved_to (l l' : L) (p : managedStartEntry) (q : start_phase) : Prop :=
  content l (TaskID (entry p)) = Some (entry p) ∧ phase l' (TaskID (entry p)) = q ∧
  ∀ k, k ≠ TaskID (entry p) → content l' k = content l k.

Lemma resolve_effect env l p e wanted l' r q :
  sound l → known p → admits env e → TaskID e = TaskID (entry p) →
  phase_of (Some (keeps env e)) = q →
  (∀ c, wanted c = true → Status (entry c) ≠ managedStartPending) →
  Status (entry p) = managedStartPending →
  resolve hex_sha256 env l (entry p) e wanted = (l', r) →
  sound l' ∧
  (l' = l ∧ (content l (TaskID (entry p)) = Some (entry p) → r ≠ Ok tt) ∨ resolved_to l l' p q).
Proof.
  intros Hl [Hdp Hp] Ha Hid Hq Hwant Hst. unfold resolve.
  destruct (store_swap env l (Some (entry p)) e) as [l1 x] eqn:Hrun.
  assert (Hx : ∀ y, Some (entry p) = Some y → proper y) by (by intros y [= <-]).
  destruct (swap_effect _ _ _ _ _ _ Hl Ha Hx Hrun) as [Hl1 Heff].
  intros Hres. assert (l1 = l') as -> by (by destruct x as [[]|[]]; injection Hres).
  split; [done|]. destruct Heff as [(-> & Hn)|(Hc & Hrep & _)].
  - left. split; [done|]. intros Hc ->. destruct x as [[]|[]]; try done.
    injection Hres as Hset. unfold settled in Hset. apply bind_Ok_inv in Hset as (c & Hload & Hcw).
    destruct c as [c|]; [|done]. destruct (wanted c) eqn:Hw; [|done].
    destruct (load_found _ _ _ Hl Hload) as (_ & Hfound & Hdec). rewrite Hc in Hfound.
    injection Hfound as Heq. apply (Hwant c Hw). by rewrite <- Heq.
  - right. rewrite Hid in Hc, Hrep. split_and!; [done| |].
    + apply phase_replaced in Hrep as [-> _]. done.
    + intros k Hk. by rewrite Hrep, (proj2 (String.eqb_neq k _) Hk).
Qed.

Section Round.
Context (env : string → Env) (stop : string → bool)
        (inspect : string → SkillSnapshotIdentity → Z → ManagedSessionStartResult →
                   result journal_error ManagedStartObservation)
        (nodeID : string).
Hypothesis timely_env : ∀ id, timely (env id).

(** What the server said about a pending record of this node. *)
Definition observed (id : string) (r : managedStartRecord) (o : ManagedStartObservation) : Prop :=
  Identity.NodeID (StartRecord.Binding r) = nodeID ∧
  inspect id (StartRecord.Binding r) (Start.LeaseAttempt (StartRecord.Outcome r)) (StartRecord.Outcome r) = Ok o ∧
  Observation.Result o = StartRecord.Outcome r.

(** The phase an observation leads to, when it decides. *)
Definition verdict (r : managedStartRecord) (o : ManagedStartObservation) : option start_phase :=
  if Observation.Accepted o then Some (Confirmed r)
  else if String.eqb (Observation.TaskStatus o) "cancelled" then Some (Retired r o)
  else None.

Lemma inspect_one_effect l p l' r :
  sound l → known p → Status (entry p) = managedStartPending →
  inspect_one hex_sha256 env inspect nodeID l p = (l', r) →
  sound l' ∧
  (l' = l ∧
   (r = Ok tt → content l (TaskID (entry p)) = Some (entry p) →
    ∀ o, observed (TaskID (entry p)) (record p) o → verdict (record p) o = None) ∨
   ∃ o q, observed (TaskID (entry p)) (record p) o ∧ verdict (record p) o = Some q ∧
          resolved_to l l' p q).
Proof.
  intros Hl Hk Hst. unfold inspect_one. cbv zeta. unfold observed.
  destruct (String.eqb_spec (Identity.NodeID (StartRecord.Binding (record p))) nodeID) as [Hn|]; cbn [negb];
    [|intros [= <- <-]; split; [done|by left]].
  destruct (inspect _ _ _ _) as [o|x]; [|intros [= <- <-]; split; [done|by left]].
  destruct (bool_decide_reflect (Observation.Result o = StartRecord.Outcome (record p))) as [Ho|];
    cbn [negb]; [|intros [= <- <-]; split; [done|by left]].
  assert (Hunique : ∀ o' : ManagedStartObservation,
    Identity.NodeID (StartRecord.Binding (record p)) = nodeID ∧ Ok (E := journal_error) o = Ok o' ∧
    Observation.Result o' = StartRecord.Outcome (record p) → o' = o) by (by intros o' (_ & [= <-] & _)).
  specialize (timely_env (TaskID (entry p))). set (en := env (TaskID (entry p))) in *.
  unfold verdict. destruct (Observation.Accepted o) eqn:Hacc.
  - unfold confirm. rewrite Ho, bool_decide_eq_true_2 by done. cbn [negb]. rewrite Hst.
    change (String.eqb managedStartPending managedStartConfirmed) with false.
    change (String.eqb managedStartPending managedStartPending) with true. cbn [negb].
    destruct (confirmed_entry en p timely_env Hk Hst) as [Ha Hph]. intros Hrun.
    eapply resolve_effect in Hrun as [Hl' [(-> & Hr)|Hres]]; try done.
    + split; [done|]. left. split; [done|]. intros -> Hc. by destruct (Hr Hc).
    + split; [done|]. right. exists o, (Confirmed (record p)). by rewrite Hacc.
    + intros c [_ Hs]%andb_true_iff. apply String.eqb_eq in Hs. by rewrite Hs.
  - destruct (String.eqb_spec (Observation.TaskStatus o) "cancelled") as [Hcan|Hcan].
    2: { intros [= <- <-]. split; [done|]. left. split; [done|]. intros _ _ o' Ho'.
         rewrite (Hunique o' Ho'), Hacc. by rewrite (proj2 (String.eqb_neq _ _) Hcan). }
    unfold retire. destruct (cancelledManagedStart _ o) eqn:Hc; cbn [negb];
      [|intros [= <- <-]; split; [done|by left]].
    rewrite Hst. change (String.eqb managedStartPending managedStartRetired) with false.
    change (String.eqb managedStartPending managedStartPending) with true. cbn [negb andb].
    destruct (payload_of _) as [ev|] eqn:Hev; [|intros [= <- <-]; split; [done|by left]].
    destruct (retirement_entry en p o ev timely_env Hk Hst Hc Hev) as [Ha Hph]. intros Hrun.
    eapply resolve_effect in Hrun as [Hl' [(-> & Hr)|Hres]]; try done.
    + split; [done|]. left. split; [done|]. intros -> Hcc. by destruct (Hr Hcc).
    + split; [done|]. right. exists o, (Retired (record p) o). rewrite Hacc.
      by rewrite (proj2 (String.eqb_eq _ _) Hcan).
    + intros c [[_ Hs]%andb_true_iff _]%andb_true_iff. apply String.eqb_eq in Hs. by rewrite Hs.
Qed.

(** What a round did to the task of [p] between [l] and [l']. *)
Definition answered (l l' : L) (k : string) : Prop :=
  content l' k = content l k ∨
  ∃ r o q, phase l k = Pending r ∧ observed k r o ∧ verdict r o = Some q ∧ phase l' k = q.

Lemma inspect_all_effect ps l failures l' failures' :
  sound l → NoDup (map (λ p, TaskID (entry p)) ps) →
  Forall (λ p, known p ∧ Status (entry p) = managedStartPending ∧
               content l (TaskID (entry p)) = Some (entry p)) ps →
  inspect_all hex_sha256 env stop inspect nodeID l ps failures = (l', failures') →
  sound l' ∧ (∀ k, answered l l' k) ∧
  (∀ k, k ∉ map (λ p, TaskID (entry p)) ps → content l' k = content l k) ∧
  failures `prefix_of` failures' ∧
  (failures' = [] → ∀ p o q, p ∈ ps → observed (TaskID (entry p)) (record p) o →
     verdict (record p) o = Some q → phase l' (TaskID (entry p)) = q).
Proof.
  revert l failures. induction ps as [|p ps IH]; intros l failures Hl Hnd Hps; cbn [inspect_all].
  { intros [= <- <-]. split_and!; [done|by left|done|done|]. by intros _ p o q ?%not_elem_of_nil. }
  apply list.Forall_cons in Hps as [(Hk & Hst & Hc) Hps]. cbn in Hnd. apply list.NoDup_cons in Hnd as [Hnew Hnd].
  destruct (stop _).
  { intros [= <- <-]. split_and!; [done|by left|done|by eexists|]. by intros []%app_eq_nil. }
  destruct (inspect_one hex_sha256 env inspect nodeID l p) as [l1 r] eqn:Hone.
  destruct (inspect_one_effect _ _ _ _ Hl Hk Hst Hone) as [Hl1 Heff]. intros Hrest.
  assert (Hother : ∀ k, k ≠ TaskID (entry p) → content l1 k = content l k).
  { destruct Heff as [(-> & _)|(o & q & _ & _ & _ & _ & Hother)]; done. }
  assert (Hps1 : Forall (λ p, known p ∧ Status (entry p) = managedStartPending ∧
               content l1 (TaskID (entry p)) = Some (entry p)) ps).
  { rewrite list.Forall_forall in Hps |- *. intros p' Hp'. destruct (Hps p' Hp') as (? & ? & ?).
    split_and!; [done|done|]. rewrite Hother; [done|]. intros Heq. apply Hnew. rewrite <- Heq.
    by apply (list_elem_of_fmap_2 (λ p, TaskID (entry p))). }
  destruct (IH _ _ Hl1 Hnd Hps1 Hrest) as (Hl' & Hans & Hsame & Hpre & Hall).
  split_and!; [done| | | |].
  - intros k. destruct (decide (k = TaskID (entry p))) as [->|Hne].
    + unfold answered. rewrite (Hsame (TaskID (entry p)) Hnew).
      destruct Heff as [(-> & _)|(o & q & Ho & Hv & _ & Hq & _)]; [by left|right].
      exists (record p), o, q. split_and!; [|done|done|].
      * unfold phase. rewrite Hc. by apply known_phase.
      * unfold phase in *. by rewrite (Hsame _ Hnew).
    + unfold answered, phase in *. destruct (Hans k) as [Heq|(r' & o & q & H1 & H2)].
      * left. by rewrite Heq, Hother.
      * right. rewrite Hother in H1 by done. by exists r', o, q.
  - intros k [Hk1 Hk2]%not_elem_of_cons. rewrite Hsame by done. by apply Hother.
  - etrans; [|exact Hpre]. by eexists.
  - intros Hnil p' o q Hp' Ho Hv. subst failures'. apply prefix_nil_inv in Hpre.
    apply app_eq_nil in Hpre as [_ Hr]. destruct r as [[]|]; [|done].
    apply elem_of_cons in Hp' as [->|Hp']; [|by eapply Hall].
    unfold phase. rewrite (Hsame _ Hnew).
    destruct Heff as [(-> & Hnone)|(o' & q' & Ho' & Hv' & _ & Hq' & _)].
    + by rewrite (Hnone eq_refl Hc o Ho) in Hv.
    + destruct Ho as (_ & Ho & _), Ho' as (_ & Ho' & _). rewrite Ho in Ho'. injection Ho' as <-.
      rewrite Hv in Hv'. injection Hv' as <-. done.
Qed.

Lemma decode_starts_entries es ps :
  decode_starts hex_sha256 es = Ok ps →
  Forall2 (λ e p, entry p = e ∧ decodeManagedStartEntry hex_sha256 e = Ok p) es ps.
Proof.
  revert ps. induction es as [|e es IH]; intros ps; cbn; [intros [= <-]; constructor|].
  intros Hd. apply bind_Ok_inv in Hd as (d & Hd & Hds). apply bind_Ok_inv in Hds as (ds & Hds & Heq).
  apply Ok_inj in Heq. subst ps. constructor; [|by apply IH].
  split; [|done]. by apply decode_start in Hd as [? _].
Qed.

Lemma pending_list l ps :
  sound l → pending hex_sha256 l = Ok ps →
  NoDup (map (λ p, TaskID (entry p)) ps) ∧
  Forall (λ p, known p ∧ Status (entry p) = managedStartPending ∧
               content l (TaskID (entry p)) = Some (entry p)) ps ∧
  ∀ k r, phase l k = Pending r → ∃ p, p ∈ ps ∧ TaskID (entry p) = k ∧ record p = r.
Proof.
  intros Hl Hrun. unfold pending in Hrun. apply bind_Ok_inv in Hrun as (es & Hlist & Hdec).
  destruct (in_doubt l) eqn:Hd; [by rewrite list_doubt in Hlist|].
  destruct (list_spec l managedStartPending Hl Hd) as (out & Hout & Hnd & Hmem).
  rewrite Hout in Hlist. apply Ok_inj in Hlist. subst es.
  apply decode_starts_entries in Hdec.
  assert (Hids : map (λ p, TaskID (entry p)) ps = map TaskID out).
  { clear -Hdec. induction Hdec as [|e p es ps [He _] _ IH]; [done|]. cbn. by rewrite He, IH. }
  split_and!; [by rewrite Hids| |].
  - apply list.Forall_forall. intros p Hp. apply list_elem_of_lookup in Hp as (i & Hi).
    destruct (Forall2_lookup_r _ _ _ _ _ Hdec Hi) as (e & He & Heq & Hde).
    apply list_elem_of_lookup_2, Hmem in He as [Hs Hc].
    subst e. split_and!; [|done|done]. split; [done|]. by destruct (content_proper l _ _ Hl Hc).
  - intros k r Hph. unfold phase in Hph. destruct (content l k) as [e|] eqn:Hc; [|done].
    cbn in Hph. destruct (decodeManagedStartEntry hex_sha256 e) as [d|] eqn:Hde; [|done].
    destruct (String.eqb_spec (Status e) managedStartPending) as [Hs|]; [|by case_match].
    injection Hph as <-. destruct (content_proper l k e Hl Hc) as [_ Hid].
    assert (e ∈ out) as Hin by (apply Hmem; by rewrite Hid).
    apply list_elem_of_lookup in Hin as (i & Hi).
    destruct (Forall2_lookup_l _ _ _ _ _ Hdec Hi) as (p & Hp & Heq & Hdp).
    exists p. split_and!; [by eapply list_elem_of_lookup_2|by rewrite Heq|].
    rewrite Hde in Hdp. injection Hdp as ->. done.
Qed.

(** a recovery round changes an entry only as the server answered: a pending
    outcome of this node that was accepted is confirmed, one that was cancelled
    without acceptance is retired, nothing else changes.  A round without
    failures has done so for every pending outcome of this node. *)
Theorem inspection_exact l l' failures :
  sound l →
  inspectPendingManagedStarts hex_sha256 env stop inspect nodeID l = (l', failures) →
  (∀ k, phase l' k = phase l k ∨
        ∃ r o, phase l k = Pending r ∧ observed k r o ∧ verdict r o = Some (phase l' k)) ∧
  (failures = [] → ∀ k r o q, phase l k = Pending r → observed k r o → verdict r o = Some q →
   phase l' k = q).
Proof.
  intros Hl. unfold inspectPendingManagedStarts.
  destruct (pending hex_sha256 l) as [ps|x] eqn:Hp; [|intros [= <- <-]; split; [by left|done]].
  destruct (pending_list _ _ Hl Hp) as (Hnd & Hps & Hin). intros Hrun.
  destruct (inspect_all_effect _ _ _ _ _ Hl Hnd Hps Hrun) as (_ & Hans & _ & _ & Hall). split.
  - intros k. destruct (Hans k) as [Heq|(r & o & q & H1 & H2 & H3 & <-)].
    + left. unfold phase. by rewrite Heq.
    + right. by exists r, o.
  - intros Hnil k r o q Hph Ho Hv. destruct (Hin k r Hph) as (p & Hpin & <- & <-). by eapply Hall.
Qed.

End Round.
End Journal.

(** ** The journal at work

    A session start proposed, confirmed and inspected on the ledger. *)

Module Demo.

Definition sha (bs : list Z) : string := "0123456789abcdef".
Definition binding : SkillSnapshotIdentity :=
  Identity.mk "11111111-1111-1111-1111-111111111111" "22222222-2222-2222-2222-222222222222"
    "33333333-3333-3333-3333-333333333333" "44444444-4444-4444-4444-444444444444"
    "55555555-5555-5555-5555-555555555555" "66666666-6666-6666-6666-666666666666" "native".

Definition outcome : ManagedSessionStartResult :=
  default Start.zero (NewManagedSessionStartResult sha binding 3 "running" "agent-1").

Definition env : time * publish_io := (1700000000 * second, mkPublish true true true true true true true true true true).
Definition empty : Ledger := mkLedger [] false None.

Definition proposed : Ledger := (propose sha env empty "task-1" binding outcome None None).1.
Definition view : managedStartEntry :=
  match load sha proposed "task-1" with Ok (Some p) => p | _ => mkStart zero_entry StartRecord.zero Observation.zero end.
Definition confirmed : Ledger := (confirm sha env proposed view outcome).1.
Definition late : Ledger := (propose sha env confirmed "task-1" binding outcome (Some view) None).1.

Lemma sha_hex bs : all_chars is_hex (sha bs) = true.
Proof. done. Qed.

Lemma empty_sound : sound empty.
Proof. split; [split; constructor|done]. Qed.

Lemma timely_env : timely env.
Proof. cbn. unfold in_four_digit_years. vm_compute. split; congruence. Qed.

Lemma proposed_sane : sane_proposal sha env "task-1" outcome None.
Proof. split_and!; [apply timely_env|done|by vm_compute|done]. Qed.

Lemma proposed_sound : sound proposed.
Proof. exact (proj1 (propose_forward sha sha_hex env empty "task-1" binding outcome None None empty_sound proposed_sane)). Qed.

Lemma view_load : load sha proposed "task-1" = Ok (Some view).
Proof. vm_compute. reflexivity. Qed.

Lemma view_known : known sha view.
Proof.
  destruct (load_found sha proposed "task-1" view proposed_sound view_load) as (_ & Hc & Hd).
  split; [exact Hd|]. by destruct (content_proper _ _ _ proposed_sound Hc).
Qed.

Lemma confirmed_sound : sound confirmed.
Proof. exact (proj1 (confirm_forward sha env proposed view outcome proposed_sound timely_env view_known)). Qed.

Definition confirmed_record : managedStartRecord := StartRecord.mk 1 binding outcome.

Lemma confirmed_phase : phase sha confirmed "task-1" = Confirmed confirmed_record.
Proof. vm_compute. reflexivity. Qed.

(** A late proposal with the view from before the confirmation. *)
Lemma start_outcome_witness :
  rtc (journal_step sha) confirmed late ∧ phase sha late "task-1" = Confirmed confirmed_record.
Proof.
  assert (Hstep : rtc (journal_step sha) confirmed late).
  { apply rtc_once, step_propose. split_and!; [apply timely_env|done|by vm_compute|].
    intros p Hp%(inj Some). rewrite <- Hp. exact view_known. }
  split; [exact Hstep|].
  destruct (start_outcome_kept sha sha_hex confirmed late "task-1" confirmed_sound Hstep) as [H _].
  rewrite confirmed_phase in H. by apply H.
Defined.


Definition accepts (id : string) (b : SkillSnapshotIdentity) (n : Z) (o : ManagedSessionStartResult)
    : result journal_error ManagedStartObservation := Ok (Observation.mk o true n "succeeded").

(** A round in which the server reports the pending outcome as accepted. *)
Lemma inspection_witness :
  let '(l, failures) := inspectPendingManagedStarts sha (λ _, env) (λ _, false) accepts
    "33333333-3333-3333-3333-333333333333" proposed in
  failures = [] ∧ phase sha l "task-1" = Confirmed confirmed_record.
Proof.
  destruct (inspectPendingManagedStarts sha (λ _, env) (λ _, false) accepts
    "33333333-3333-3333-3333-333333333333" proposed) as [l failures] eqn:E.
  destruct (inspection_exact sha sha_hex (λ _, env) (λ _, false) accepts
    "33333333-3333-3333-3333-333333333333" (λ _, timely_env) proposed l failures proposed_sound E) as [_ H].
  assert (failures = []) as ->.
  { apply (f_equal snd) in E. cbn [snd] in E. rewrite <- E. vm_compute. reflexivity. }
  split; [done|]. apply (H eq_refl "task-1" confirmed_record (Observation.mk outcome true 3 "succeeded"));
    [vm_compute; reflexivity| |done].
  split_and!; vm_compute; reflexivity.
Defined.

End Demo.
