(* ===== verification/Worker.v ===== *)
(** * The worker (src/internal/worker/worker.go)

    The polling loops and their retry delays, the admission state the
    heartbeat keeps, the runtime context of a tool session, the call of the
    runtime helper with the registration at the broker around it, and the
    execution of one task against the ledger.  Host and control-plane calls are
    answers of the environment; the handlers that have a journal of their own
    appear as routes. *)

From S2P Require Import Prelude GoText GoTime GoJson GoUtf8 GoJsonValue GoJsonDecode GoJsonStruct.
From S2P Require Import GoBytes EgoProtocol EgoRelay EgoBroker Ledger TaskStore StartJournal.
From Stdlib.Strings Require Import Ascii.
Import Broker(Broker).

(** ** Retry loops *)

Definition initialRetryDelay : duration := second.
Definition maximumRetryDelay : duration := 30 * second.

(** The doubling loop of [retryDelay]: [steps] is [failures - attempt]. *)
Fixpoint double_delay (steps : nat) (delay maximum : duration) : duration :=
  match steps with
  | O => delay
  | S steps' => if delay <? maximum then double_delay steps' (wrap_int64 (delay * 2)) maximum else delay
  end.

Definition retryDelay (failures : Z) (interval initial maximum : duration) : duration :=
  let delay := double_delay (Z.to_nat (failures - 1)) initial maximum in
  let delay := if maximum <? delay then maximum else delay in
  if (0 <? interval) && (interval <? delay) then interval else delay.

(** The loop of [runOperationLoop]: each turn waits and then runs the
    operation, whose outcome is [true] for success.  The result is the delays
    waited, in order; the loop ends with the outcomes (the context is done). *)
Fixpoint runOperationLoop (interval : duration) (stopAfterSuccess : bool) (delay : duration)
    (failures : Z) (outcomes : list bool) : list duration :=
  match outcomes with
  | [] => [delay]
  | true :: rest =>
      delay :: if stopAfterSuccess then []
               else runOperationLoop interval stopAfterSuccess interval 0 rest
  | false :: rest =>
      delay :: runOperationLoop interval stopAfterSuccess
                 (retryDelay (failures + 1) interval initialRetryDelay maximumRetryDelay)
                 (failures + 1) rest
  end.

(** ** Admission *)

Record admission := mkAdmission {
  serverEnrollmentAdmission : bool;
  serverEnrollmentKnown : bool;
  serverExecutionAdmission : bool;
  serverExecutionKnown : bool
}.

(** [New]: a node with a server starts closed. *)
Definition initial_admission (ServerURL : string) : admission :=
  mkAdmission (String.eqb ServerURL "") (non_empty ServerURL)
              (String.eqb ServerURL "") (non_empty ServerURL).

Record heartbeat_answer := mkAnswer {
  EnrollmentEnabled : option bool;
  ExecutionAdmission : option bool
}.

(** [Heartbeat]: the stores after the answer; [None] is a failed call. *)
Definition Heartbeat (a : admission) (answer : option heartbeat_answer) : admission :=
  match answer with
  | None => a
  | Some r =>
      if is_some (EnrollmentEnabled r) || is_some (ExecutionAdmission r) then
        mkAdmission (default false (EnrollmentEnabled r)) true (default false (ExecutionAdmission r)) true
      else mkAdmission true false true false
  end.

(** ** Backends and labels *)

Definition requireBackend (AllowedRuntimeBackends : list string) (backend : string) : bool :=
  (String.eqb backend "docker_sandbox" || String.eqb backend "native") &&
  bool_decide (backend ∈ AllowedRuntimeBackends).

Definition label_char (c : ascii) : bool := is_alnum c || has_char "-_:" c.

(** [validTaskSpaceLabel]; a non-ASCII rune is rejected, so the runes are bytes. *)
Definition validTaskSpaceLabel (value : string) : bool :=
  non_empty value && (len value <=? 128) && all_chars label_char value.

Definition isEgoBrowserContextOperation (operation : string) : bool :=
  bool_decide (operation ∈ ["prepare_account"; "start_session"; "docker_prepare_account"; "docker_start_session"]).

Definition lifecycleSessionOperation (operation : string) : bool :=
  bool_decide (operation ∈ ["start_session"; "docker_start_session"; "stop_session"; "docker_stop_session"]).

Definition start_operation (operation : string) : bool :=
  String.eqb operation "start_session" || String.eqb operation "docker_start_session".

(** ** The runtime context of a tool session *)

Record worker_config := mkConfig {
  EgoBrowserEnabled : bool;
  EgoBrowserWrapperPath : string;
  EgoBrowserProtocolVersion : string;
  EgoBrowserWrapperVersion : string;
  EgoBrowserSkillPath : string;
  EgoBrowserSkillVersion : string;
  EgoBrowserSkillTreeSHA256 : string;
  WorkspaceRoot : string;
  AccountRoot : string;
  ClaudeRuntimePath : string
}.

(** Errors of the worker: what [errors.Is] and [errors.As] find in them. *)
Record task_failure := mkFailure {
  helper_code : option string;       (* a [runtimehelper.Error] *)
  remote_code : option string;       (* an [api.HTTPError] *)
  managed_unsupported : bool;        (* [toolsessions.ErrManagedSkillsUnsupported] *)
  owns_path : bool;                  (* [toolaccounts.ErrSkillManagerOwnsPath] *)
  stop_pending : bool;               (* [errSessionStopPending] *)
  message : string
}.

Definition plain_failure (text : string) : task_failure := mkFailure None None false false false text.

Record egoBrowserSessionRegistration := mkRegistration {
  toolSessionID : string;
  nonce : string;
  created : bool
}.

(** [delete] of a map. *)
Definition remove_key {A} (k : string) (m : list (string * A)) : list (string * A) :=
  List.filter (λ f, negb (String.eqb f.1 k)) m.

Definition context_keys : list string :=
  ["ego_browser_wrapper_path"; "ego_browser_broker_socket"; "ego_browser_broker_nonce";
   "ego_browser_protocol_version"; "ego_browser_wrapper_version"; "ego_browser_skill_path";
   "ego_browser_skill_version"; "ego_browser_skill_tree_sha256"; "ego_browser_task_space"].

Definition clearEgoBrowserRuntimeContext (payload : object) : object :=
  remove_key "ego_browser_binding_id"
    (foldl (λ m k, put k (VStr "") m) (put "ego_browser_enabled" (VBool false) payload) context_keys).

(** A type assertion to string; the zero value when it fails. *)
Definition string_at (payload : object) (key : string) : string :=
  match get key payload with Some (VStr s) => s | _ => "" end.

Definition egoBrowserBrokerLogCode (e : error) : string :=
  match e with
  | ErrDisabled => "disabled"
  | ErrUnavailable => "unavailable"
  | ErrLeaseRenewalRequired => "lease_renewal_required"
  | ErrLeaseExpired => "lease_expired"
  | ErrRevoked => "binding_revoked"
  | ErrReplay => "replay"
  | ErrConcurrency => "concurrency_conflict"
  | ErrProtocol _ => "protocol_error"
  | _ => "broker_error"
  end.

Definition egoBrowserBrokerError (operation : string) (e : error) : task_failure :=
  plain_failure (operation +:+ ": " +:+ egoBrowserBrokerLogCode e).

(** The node-chosen values put into the payload of a session start. *)
Definition session_context (cfg : worker_config) (socketPath nonce taskSpace : string) : object :=
  [("ego_browser_enabled", VBool true);
   ("ego_browser_wrapper_path", VStr (EgoBrowserWrapperPath cfg));
   ("ego_browser_broker_socket", VStr socketPath);
   ("ego_browser_broker_nonce", VStr nonce);
   ("ego_browser_protocol_version", VStr (EgoBrowserProtocolVersion cfg));
   ("ego_browser_wrapper_version", VStr (EgoBrowserWrapperVersion cfg));
   ("ego_browser_skill_path", VStr (EgoBrowserSkillPath cfg));
   ("ego_browser_skill_version", VStr (EgoBrowserSkillVersion cfg));
   ("ego_browser_skill_tree_sha256", VStr (EgoBrowserSkillTreeSHA256 cfg));
   ("ego_browser_task_space", VStr taskSpace)].

(** The broker as the worker holds it: absent, failed to initialize, or
    running ([tokens] are the random tokens it would draw). *)
Inductive broker_slot :=
  | NoBroker
  | BrokerFailed (e : error)
  | RunningBroker (b : Broker).

(** [applyEgoBrowserRuntimeContext]; the payload is a map the caller goes on
    with, so it is returned with the errors too. *)
Definition applyEgoBrowserRuntimeContext (cfg : worker_config) (admitted : bool) (slot : broker_slot)
    (tokens : list (option bytes)) (payload : object) (operation : string)
    : broker_slot * object * result task_failure (option egoBrowserSessionRegistration) :=
  let payload := clearEgoBrowserRuntimeContext payload in
  if negb (EgoBrowserEnabled cfg) then (slot, payload, Ok None)
  else if negb admitted then (slot, payload, Ok None)
  else match slot with
  | BrokerFailed e => (slot, payload, Err (egoBrowserBrokerError "initialize ego-browser broker" e))
  | NoBroker => (slot, payload, Err (plain_failure "ego-browser broker is unavailable"))
  | RunningBroker b =>
      let toolType := string_at payload "tool_type" in
      if non_empty toolType && negb (String.eqb toolType "claude") then (slot, payload, Ok None)
      else if negb (start_operation operation) then (slot, payload, Ok None)
      else
        let id := string_at payload "session_id" in
        if String.eqb id ""
        then (slot, payload, Err (plain_failure "ego-browser tool session identity is missing"))
        else
          let taskSpace := "agent-remote:" +:+ id in
          if negb (validTaskSpaceLabel taskSpace)
          then (slot, payload, Err (plain_failure "ego-browser task space identity is invalid"))
          else match RegisterToolSession b tokens id with
          | (b', Err e) =>
              (RunningBroker b', payload, Err (egoBrowserBrokerError "register ego-browser tool session" e))
          | (b', Ok (nonce, created)) =>
              (RunningBroker b',
               foldl (λ m f, put f.1 f.2 m) payload
                 (session_context cfg (Config.SocketPath (Broker.cfg b')) nonce taskSpace),
               Ok (Some (mkRegistration id nonce created)))
          end
  end.

(** ** The runtime uid of an answer *)

(** A number of an answer: [Float m e] is the float64 [m * 2^e]. *)
Inductive uid_value := Float (m e : Z) | Int (z : Z) | NotANumber.

Definition bad_uid : task_failure :=
  plain_failure "runtime helper returned an invalid ego-browser peer uid".

(** [uint32(number)] of a float in range, and whether it is exact. *)
Definition truncated (m e : Z) : Z := if 0 <=? e then m * 2 ^ e else m / 2 ^ (- e).

Definition exact_float (m e uid : Z) : bool :=
  if 0 <=? e then m * 2 ^ e =? uid else m =? uid * 2 ^ (- e).

(** [number > float64(^uint32(0))] *)
Definition above_uint32 (m e : Z) : bool :=
  if 0 <=? e then max_uint32 <? m * 2 ^ e else max_uint32 * 2 ^ (- e) <? m.

Definition takeRuntimeUID (value : option uid_value) : result task_failure Z :=
  match value with
  | None => Err (plain_failure "runtime helper omitted the ego-browser peer uid")
  | Some v =>
      uid ← match v with
            | Float m e =>
                require negb ((m <? 0) || above_uint32 m e) orelse bad_uid ;;
                let uid := truncated m e in
                require exact_float m e uid orelse bad_uid ;; Ok uid
            | Int z => require negb ((z <? 0) || (max_uint32 <? z)) orelse bad_uid ;; Ok z
            | NotANumber => Err bad_uid
            end;
      require negb (uid =? 0)
        orelse plain_failure "runtime helper returned root as the ego-browser peer uid" ;;
      Ok uid
  end.

(** ** Calling the runtime helper *)

(** What one call takes from outside: the admission lock, the drawn tokens, the outcome of
    [PrepareSocket], the answer of the helper (without the uid), the uid in it,
    whether the admission is fresh, whether the peer was granted, the time. *)
Record helper_call := mkCall {
  locked : result unit unit;       (* the admission lock *)
  tokens : list (option bytes);
  prepared : result error unit;
  helper_answer : result task_failure object;
  answered_uid : option uid_value;
  fresh_admission : bool;
  granted : result error unit;
  called_at : time
}.

Definition unregister (now : time) (slot : broker_slot) (r : egoBrowserSessionRegistration) : broker_slot :=
  match slot with
  | RunningBroker b => RunningBroker (UnregisterToolSession now b (toolSessionID r) (nonce r)).1
  | _ => slot
  end.

(** The removal of a registration this call made. *)
Definition rollback (now : time) (slot : broker_slot) (r : option egoBrowserSessionRegistration) : broker_slot :=
  match r with
  | Some r => if created r then unregister now slot r else slot
  | None => slot
  end.

Definition authorize (c : helper_call) (slot : broker_slot) (r : egoBrowserSessionRegistration)
    (uid : Z) : broker_slot * result error unit :=
  match slot with
  | RunningBroker b =>
      let '(b', a) := AuthorizeToolSessionPeer b (granted c) (toolSessionID r) (nonce r) uid in
      (RunningBroker b', a)
  | _ => (slot, Err ErrUnavailable)
  end.

(** The part after the context was applied and the socket prepared. *)
Definition finish_call (c : helper_call) (operation : string) (slot : broker_slot)
    (registration : option egoBrowserSessionRegistration) : broker_slot * result task_failure object :=
  let now := called_at c in
  match helper_answer c with
  | Err e => (rollback now slot registration, Err e)
  | Ok answer =>
      let answer := remove_key "runtime_uid" answer in
      if start_operation operation && negb (fresh_admission c)
      then (rollback now slot registration, Ok answer)
      else match registration with
      | None => (slot, Ok answer)
      | Some r =>
          match takeRuntimeUID (answered_uid c) with
          | Err _ =>
              (unregister now slot r,
               Err (egoBrowserBrokerError "authorize ego-browser tool session" (ErrTransport "uid")))
          | Ok uid =>
              let '(slot', a) := authorize c slot r uid in
              match a with
              | Ok _ => (slot', Ok answer)
              | Err e =>
                  (unregister now slot' r,
                   Err (egoBrowserBrokerError "authorize ego-browser tool session" e))
              end
          end
      end
  end.

(** [callRuntimeHelper] with the payload already mapped; the payload sent comes
    with the result when the helper was called. *)
Definition callRuntimeHelper (cfg : worker_config) (admitted managedStop : bool) (c : helper_call)
    (slot : broker_slot) (operation : string) (payload : object)
    : broker_slot * option object * result task_failure object :=
  let roots payload :=
    put "claude_runtime_path" (VStr (ClaudeRuntimePath cfg))
      (put "account_root" (VStr (AccountRoot cfg)) (put "workspace_root" (VStr (WorkspaceRoot cfg)) payload)) in
  if lifecycleSessionOperation operation && negb managedStop && negb (is_ok (locked c))
  then (slot, None, Err (plain_failure "context"))
  else if isEgoBrowserContextOperation operation then
    let '(slot1, payload, applied) :=
      applyEgoBrowserRuntimeContext cfg admitted slot (tokens c) payload operation in
    match applied with
    | Err e => (slot1, None, Err e)
    | Ok (Some r) =>
        match prepared c with
        | Err e =>
            (rollback (called_at c) slot1 (Some r), None,
             Err (egoBrowserBrokerError "prepare ego-browser broker socket" e))
        | Ok _ =>
            let '(slot2, a) := finish_call c operation slot1 (Some r) in
            (slot2, Some (roots payload), a)
        end
    | Ok None =>
        let '(slot2, a) := finish_call c operation slot1 None in (slot2, Some (roots payload), a)
    end
  else
    let '(slot2, a) := finish_call c operation slot None in (slot2, Some (roots payload), a).

(** ** Tasks *)

Module Task.
Record TaskEnvelope := mk {
  TaskID : string;
  TaskRecordID : string;
  LeaseAttempt : Z;
  NodeID : string;
  TaskType : string;
  IdempotencyKey : string;
  Payload : object
}.
End Task.
Export Task(TaskEnvelope).

(** [strings.EqualFold] with an ASCII name. *)
Definition equal_fold (a b : string) : bool := String.eqb (fold_name a) (fold_name b).

Definition has_folded_key (name : string) (payload : object) : bool :=
  existsb (λ f, equal_fold f.1 name) payload.

Definition deploymentTask (task : TaskEnvelope) : bool :=
  String.eqb (Task.TaskType task) "prepare_account_skills" ||
  has_prefix "prepare_account_skills:" (Task.TaskID task).

Definition managedStopTask (task : TaskEnvelope) : bool :=
  String.eqb (Task.TaskType task) "stop_tool_session" &&
  has_folded_key "skill_finalization" (Task.Payload task).

(** [RequireLegacySkillStartup], negated. *)
Definition requires_managed_startup (task : TaskEnvelope) : bool :=
  has_folded_key "skill_manager" (Task.Payload task).

Fixpoint valid_session_ids (seen : list string) (ids : list value) : bool :=
  match ids with
  | [] => true
  | VStr id :: rest =>
      non_empty id && (len id <=? 128) && negb (bool_decide (id ∈ seen)) && all_chars label_char id &&
      valid_session_ids (id :: seen) rest
  | _ => false
  end.

Definition validateCleanupTask (nodeID : string) (task : TaskEnvelope) : bool :=
  String.eqb (Task.NodeID task) nodeID && non_empty (Task.TaskID task) &&
  String.eqb (Task.IdempotencyKey task) (Task.TaskID task) &&
  match get "runtime_backend" (Task.Payload task) with
  | Some (VStr backend) => String.eqb backend "native" || String.eqb backend "docker_sandbox"
  | _ => false
  end &&
  match get "session_ids" (Task.Payload task) with
  | Some (VArr ids) =>
      negb (Nat.eqb (length ids) 0) && Nat.leb (length ids) 100 && valid_session_ids [] ids
  | _ => false
  end.

(** ** Errors reported for a task *)

Definition coded (code text : string) : object := [("code", VStr code); ("message", VStr text)].

Definition has_code (c : option string) (codes : list string) : bool :=
  match c with Some x => bool_decide (x ∈ codes) | None => false end.

Definition isConfigImportOwnershipError (taskType : string) (e : task_failure) : bool :=
  String.eqb taskType "import_tool_account_config" &&
  (has_code (helper_code e) ["SKILL_MANAGER_OWNS_PATH"] || owns_path e ||
   has_code (remote_code e) ["SKILL_MANAGER_OWNS_PATH"]).

Definition configImportReceiptError (taskType : string) (e : task_failure) : option object :=
  if negb (String.eqb taskType "import_tool_account_config") then None
  else match helper_code e with
  | Some code =>
      if String.eqb code "CONFIG_IMPORT_PENDING"
      then Some (coded code "Configuration import outcome requires reconciliation; files were not replayed.")
      else if String.eqb code "CONFIG_IMPORT_FAILED"
      then Some (coded code "Configuration import failed; files were not replayed.")
      else None
  | None => None
  end.

Definition accountMigrationTaskError (taskType : string) (e : task_failure) : option object :=
  if negb (bool_decide (taskType ∈ ["create_tool_session"; "create_binding_session";
                                    "migrate_tool_account_runtime"; "import_tool_account_config"]))
  then None
  else if has_code (remote_code e) ["RUNTIME_MIGRATION_PENDING"]
  then Some (coded "RUNTIME_MIGRATION_PENDING" "Retained backend migration prevents new account writes.")
  else match helper_code e with
  | None => None
  | Some code =>
      if String.eqb code "STATE_MIGRATION_PENDING" ||
         String.eqb taskType "migrate_tool_account_runtime" &&
         bool_decide (code ∈ ["STATE_COPY_PENDING"; "STATE_COPY_FAILED"; "STATE_MIGRATION_FAILED"])
      then Some (coded code "Backend migration requires inspection; original account and retained writer evidence remain protected.")
      else if String.eqb code "MIGRATION_PENDING"
      then Some (coded "MIGRATION_PENDING" "Account skill migration prevents starting a legacy runtime or changing its backend.")
      else None
  end.

Definition contentSafeTaskError (taskType : string) (e : task_failure) : object :=
  if String.eqb taskType "create_tool_session" && managed_unsupported e
  then coded "SKILL_MANAGER_UNSUPPORTED" "Managed skill session preparation is unavailable on this Node."
  else match accountMigrationTaskError taskType e with
  | Some o => o
  | None =>
      match configImportReceiptError taskType e with
      | Some o => o
      | None =>
          if isConfigImportOwnershipError taskType e
          then coded "SKILL_MANAGER_OWNS_PATH" "Skill management owns this path; use account import-config --exclude-skills."
          else if String.eqb taskType "cancel_ego_browser_request"
          then coded "EGO_BROWSER_CANCELLATION_FAILED" "Cancellation could not be confirmed."
          else coded "NODE_TASK_FAILED" (message e)
      end
  end.

Definition sessionStopPending (e : task_failure) : bool :=
  stop_pending e || has_code (helper_code e) ["SESSION_STOP_PENDING"].

(** ** Executing a task *)

Inductive route := RuntimeRecovery | Deployment | Takeover | ManagedStop | ManagedStartup.

Inductive action :=
  | Routed (r : route)                    (* handed to the handler with its own journal *)
  | Started                               (* StartTask *)
  | Executed                              (* executeKnownTask *)
  | Completed (result : option object)    (* CompleteTask *)
  | FailedWith (error : option object).   (* FailTask *)

Inductive task_error :=
  | LedgerFailed (e : ledger_error)
  | errDeploymentPending
  | errSessionStopPending
  | StartRefused
  | ReportFailed.

(** Answers of the environment to one execution. *)
Record execution (Env : Type) := mkExecution {
  route_done : result task_error unit;       (* the handler a task is routed to *)
  intent_recorded : bool;                    (* recordSessionIntent *)
  start_answer : option task_failure;        (* StartTask, [None] for success *)
  run_answer : result task_failure object;   (* executeKnownTask *)
  save_env : Env;
  report_ok : bool                           (* CompleteTask or FailTask *)
}.
Arguments mkExecution {Env}.
Arguments route_done {Env}.
Arguments intent_recorded {Env}.
Arguments start_answer {Env}.
Arguments run_answer {Env}.
Arguments save_env {Env}.
Arguments report_ok {Env}.

Definition deploymentStatus (status : string) : bool :=
  bool_decide (status ∈ ["deployment_prepared_pending"; "deployment_prepared_confirmed";
    "deployment_termination_requested"; "deployment_termination_revoked";
    "deployment_termination_drained"; "deployment_termination_confirmed"]).

Definition managedStartStatus (status : string) : bool :=
  bool_decide (status ∈ [managedStartPending; managedStartConfirmed; managedStartRetired]).

Definition stop_type (taskType : string) : bool :=
  String.eqb taskType "stop_tool_session" || String.eqb taskType "cleanup_resources".

Definition terminal (status : string) : bool :=
  String.eqb status "succeeded" || String.eqb status "failed".

Section Execution.
Context {L Env : Type} `{TaskStore L Env}.
Context (nodeID : string).

Definition report (x : execution Env) : result task_error unit :=
  if report_ok x then Ok tt else Err ReportFailed.

(** Saving an outcome and reporting it. *)
Definition settle (x : execution Env) (l : L) (e : Entry) (done : list action) (a : action)
    : L * list action * result task_error unit :=
  let '(l', saved) := store_save (save_env x) l e in
  match saved with
  | Err err => (l', done, Err (LedgerFailed err))
  | Ok _ => (l', done ++ [a], report x)
  end.

Definition failed_entry (task : TaskEnvelope) (error : object) : Entry :=
  mkEntry (Task.TaskID task) "failed" None (Some error) zero_time.

Definition succeeded_entry (task : TaskEnvelope) (result : object) : Entry :=
  mkEntry (Task.TaskID task) "succeeded" (Some result) None zero_time.

(** From [StartTask] on. *)
Definition run_task (x : execution Env) (l : L) (task : TaskEnvelope)
    : L * list action * result task_error unit :=
  let taskType := Task.TaskType task in
  match start_answer x with
  | Some e =>
      if isConfigImportOwnershipError taskType e then
        let error := contentSafeTaskError taskType e in
        settle x l (failed_entry task error) [Started] (FailedWith (Some error))
      else (l, [Started], Err StartRefused)
  | None =>
      match run_answer x with
      | Err e =>
          if sessionStopPending e || stop_type taskType
          then (l, [Started; Executed], Err errSessionStopPending)
          else
            let error := contentSafeTaskError taskType e in
            settle x l (failed_entry task error) [Started; Executed] (FailedWith (Some error))
      | Ok result =>
          settle x l (succeeded_entry task result) [Started; Executed] (Completed (Some result))
      end
  end.

(** What is reported for a task that already ended. *)
Definition report_of (e : Entry) : action :=
  if String.eqb (Status e) "succeeded" then Completed (Result e) else FailedWith (Error e).

(** [observeOldStopTask]: a stop that already ended is executed again, so that
    the helper proves it again; the answer itself is not used. *)
Definition observeOldStopTask (x : execution Env) (task : TaskEnvelope) : list action * result task_error unit :=
  if stop_type (Task.TaskType task)
  then ([Executed], if is_ok (run_answer x) then Ok tt else Err errSessionStopPending)
  else ([], Ok tt).

Definition routed (x : execution Env) (l : L) (r : route) : L * list action * result task_error unit :=
  (l, [Routed r], route_done x).

Definition executeTask (x : execution Env) (l : L) (task : TaskEnvelope)
    : L * list action * result task_error unit :=
  let taskType := Task.TaskType task in
  if String.eqb taskType "recover_tool_account_runtime" then routed x l RuntimeRecovery
  else if deploymentTask task then routed x l Deployment
  else if String.eqb taskType "takeover_tool_account_skills" then routed x l Takeover
  else match store_get l (Task.TaskID task) with
  | Err e => (l, [], Err (LedgerFailed e))
  | Ok found =>
      let has_status p := match found with Some e => p (Status e) | None => false end in
      if has_status deploymentStatus then (l, [], Err errDeploymentPending)
      else if managedStopTask task then routed x l ManagedStop
      else if requires_managed_startup task || has_status managedStartStatus then routed x l ManagedStartup
      else if String.eqb taskType "cleanup_resources" && negb (validateCleanupTask nodeID task)
      then (l, [], Err errSessionStopPending)
      else if String.eqb taskType "stop_tool_session" && negb (intent_recorded x)
      then (l, [], Err errSessionStopPending)
      else match found with
      | Some e =>
          if terminal (Status e) then
            let '(done, observed) := observeOldStopTask x task in
            match observed with
            | Err err => (l, done, Err err)
            | Ok _ => (l, done ++ [report_of e], report x)
            end
          else run_task x l task
      | None => run_task x l task
      end
  end.

(** [PollOnce]: the tasks of one batch in order; failures do not stop it. *)
Fixpoint PollOnce (batch : list (TaskEnvelope * execution Env)) (l : L)
    : L * list (string * list action) * list task_error :=
  match batch with
  | [] => (l, [], [])
  | (task, x) :: rest =>
      let '(l1, actions, r) := executeTask x l task in
      let '(l2, log, errors) := PollOnce rest l1 in
      (l2, (Task.TaskID task, actions) :: log, match r with Ok _ => errors | Err e => e :: errors end)
  end.

End Execution.
