(* ===== verification/WorkerFacts.v ===== *)
(** * What the worker guarantees

    Retries are spaced and bounded; the runtime context of a session is the
    node's own choice; a registration at the broker outlives a call only if the
    call admitted the session; and every report about a task repeats the one
    outcome the ledger holds.  [WorkerDemo] is the worker at work: a session
    start with a registration at the broker, and a task executed, reported, and
    polled again. *)

From S2P Require Import Prelude GoText GoTime GoJson GoUtf8 GoJsonValue GoJsonDecode GoJsonStruct.
From S2P Require Import GoBytes EgoProtocol EgoRelay EgoBroker EgoBrokerInv EgoDemo Ledger TaskStore LedgerFacts StartJournal Worker.
From Stdlib.Strings Require Import Ascii.
Import Broker(Broker).

(** ** Retry delays *)

Lemma double_delay_spec k n :
  0 ≤ k →
  Z.min (double_delay n (2 ^ k * second) maximumRetryDelay) maximumRetryDelay =
  Z.min (2 ^ (k + Z.of_nat n) * second) maximumRetryDelay.
Proof.
  revert k. induction n as [|n IH]; intros k Hk; cbn [double_delay]; [by rewrite Z.add_0_r|].
  destruct (Z.ltb_spec (2 ^ k * second) maximumRetryDelay) as [Hlt|Hge].
  - rewrite wrap_int64_id.
    + replace (2 ^ k * second * 2) with (2 ^ (k + 1) * second) by (rewrite Z.pow_add_r by lia; lia).
      rewrite IH by lia. do 3 f_equal. lia.
    + unfold is_int64, max_int64, maximumRetryDelay, second in *. nia.
  - assert (2 ^ k ≤ 2 ^ (k + Z.of_nat (S n))) by (apply Z.pow_le_mono_r; lia).
    unfold maximumRetryDelay, second in *. lia.
Qed.

Lemma retryDelay_closed failures interval :
  1 ≤ failures →
  retryDelay failures interval initialRetryDelay maximumRetryDelay =
  let d := Z.min (2 ^ (failures - 1) * second) maximumRetryDelay in
  if (0 <? interval) && (interval <? d) then interval else d.
Proof.
  intros Hf. unfold retryDelay. cbv zeta.
  pose proof (double_delay_spec 0 (Z.to_nat (failures - 1)) ltac:(lia)) as H.
  rewrite Z.add_0_l, Z2Nat.id in H by lia. change (2 ^ 0 * second) with initialRetryDelay in H.
  set (d := double_delay _ _ _) in *.
  replace (if maximumRetryDelay <? d then maximumRetryDelay else d) with (Z.min d maximumRetryDelay)
    by (destruct (Z.ltb_spec maximumRetryDelay d); lia).
  by rewrite H.
Qed.

Lemma retryDelay_bounds failures interval :
  1 ≤ failures →
  let d := retryDelay failures interval initialRetryDelay maximumRetryDelay in
  0 < d ≤ maximumRetryDelay ∧ (0 < interval → d ≤ interval).
Proof.
  intros Hf d. unfold d. rewrite retryDelay_closed by done. cbv zeta.
  assert (0 < 2 ^ (failures - 1)) by (apply Z.pow_pos_nonneg; lia).
  set (full := Z.min _ _). assert (0 < full ≤ maximumRetryDelay) by (unfold full, maximumRetryDelay, second; lia).
  destruct (Z.ltb_spec 0 interval), (Z.ltb_spec interval full); cbn [andb]; split_and!; lia.
Qed.

(** The delay before a retry doubles from one second with each failure, up
    to thirty seconds, and never exceeds the loop's own interval; the doubling
    does not overflow. *)
Theorem retry_delay_exact failures interval :
  1 ≤ failures →
  let d := retryDelay failures interval initialRetryDelay maximumRetryDelay in
  0 < d ≤ maximumRetryDelay ∧ (0 < interval → d ≤ interval) ∧
  d = (let full := Z.min (2 ^ (failures - 1) * second) maximumRetryDelay in
       if (0 <? interval) && (interval <? full) then interval else full).
Proof.
  intros Hf. destruct (retryDelay_bounds failures interval Hf) as [H1 H2].
  cbv zeta. split_and!; [apply H1|apply H1|done|by apply retryDelay_closed].
Qed.

Lemma retry_delay_witness : retryDelay 4 (60 * second) initialRetryDelay maximumRetryDelay = 8 * second.
Proof. destruct (retry_delay_exact 4 (60 * second) ltac:(lia)) as (_ & _ & ->). by vm_compute. Defined.

Lemma loop_delays interval delay failures outcomes :
  0 < interval → 0 ≤ failures → 0 ≤ delay ≤ interval →
  Forall (λ d, 0 ≤ d ≤ interval) (runOperationLoop interval false delay failures outcomes) ∧
  length (runOperationLoop interval false delay failures outcomes) = S (length outcomes).
Proof.
  intros Hi. revert delay failures. induction outcomes as [|o rest IH]; intros delay failures Hf Hd; cbn.
  { split; [|done]. constructor; [done|constructor]. }
  destruct o.
  - destruct (IH interval 0 ltac:(lia) ltac:(lia)) as [H1 H2]. split; [by constructor|by rewrite <- H2].
  - destruct (retryDelay_bounds (failures + 1) interval ltac:(lia)) as [Hp Hle].
    destruct (IH (retryDelay (failures + 1) interval initialRetryDelay maximumRetryDelay) (failures + 1)
      ltac:(lia) ltac:(lia)) as [H1 H2].
    split; [by constructor|by rewrite <- H2].
Qed.

(** C38: a loop never gives up and never stalls: whatever the operation returned
    so far, another turn follows, after a wait of at most the loop's
    interval. *)
Theorem loop_keeps_turning interval outcomes :
  0 < interval →
  let waits := runOperationLoop interval false 0 0 outcomes in
  length waits = S (length outcomes) ∧ Forall (λ d, 0 ≤ d ≤ interval) waits.
Proof. intros Hi. destruct (loop_delays interval 0 0 outcomes Hi) as [H1 H2]; [lia|lia|done]. Qed.

Lemma loop_keeps_turning_witness :
  let waits := runOperationLoop (5 * second) false 0 0 [false; false; false; false; true; false] in
  waits = [0; second; 2 * second; 4 * second; 5 * second; 5 * second; second] ∧
  Forall (λ d, 0 ≤ d ≤ 5 * second) waits.
Proof. split; [by vm_compute|]. apply loop_keeps_turning. unfold second. lia. Defined.

(** ** Payload maps *)

Lemma get_remove {A} k k' (m : list (string * A)) :
  get k (remove_key k' m) = if String.eqb k k' then None else get k m.
Proof.
  unfold remove_key. induction m as [|[j x] m IH]; cbn; [by destruct (String.eqb k k')|].
  destruct (String.eqb_spec j k') as [->|Hne]; cbn.
  - rewrite IH. destruct (String.eqb_spec k k') as [->|]; done.
  - rewrite IH. destruct (String.eqb_spec k j) as [->|]; [|done].
    by rewrite (proj2 (String.eqb_neq j k') Hne).
Qed.

Lemma get_put_all_other {A} k (l m : list (string * A)) :
  k ∉ map fst l → get k (put_all m l) = get k m.
Proof.
  revert m. induction l as [|[j x] l IH]; intros m; [done|]. intros [Hne Hin]%not_elem_of_cons.
  change (put_all m ((j, x) :: l)) with (put_all (put j x m) l). rewrite IH, get_put by done. by rewrite (proj2 (String.eqb_neq k j) Hne).
Qed.

Lemma get_put_all_in {A} k (x : A) l m :
  NoDup (map fst l) → (k, x) ∈ l → get k (put_all m l) = Some x.
Proof.
  revert m. induction l as [|[j y] l IH]; intros m; [by intros ? ?%not_elem_of_nil|].
  change (put_all m ((j, y) :: l)) with (put_all (put j y m) l).
  cbn [map fst]. intros [Hj Hn]%list.NoDup_cons [[= <- <-]|Hin]%elem_of_cons.
  - rewrite (get_put_all_other k l) by done. by rewrite get_put, String.eqb_refl.
  - by apply IH.
Qed.

Definition owned_keys : list string := "ego_browser_binding_id" :: "ego_browser_enabled" :: context_keys.

Lemma clear_put_all payload :
  clearEgoBrowserRuntimeContext payload =
  remove_key "ego_browser_binding_id"
    (put_all (put "ego_browser_enabled" (VBool false) payload) (map (λ k, (k, VStr "")) context_keys)).
Proof. done. Qed.

Lemma clear_get payload k :
  get k (clearEgoBrowserRuntimeContext payload) =
  if String.eqb k "ego_browser_binding_id" then None
  else if bool_decide (k ∈ context_keys) then Some (VStr "")
  else if String.eqb k "ego_browser_enabled" then Some (VBool false)
  else get k payload.
Proof.
  rewrite clear_put_all, get_remove. destruct (String.eqb k "ego_browser_binding_id"); [done|].
  assert (Hkeys : map fst (map (λ k, (k, VStr "")) context_keys) = context_keys) by done.
  case_bool_decide as Hin.
  - apply get_put_all_in; [by apply (bool_decide_unpack _); vm_compute|].
    by apply (list_elem_of_fmap_2 (λ k, (k, VStr ""))).
  - rewrite get_put_all_other by (by rewrite Hkeys). apply get_put.
Qed.

Lemma register_session b tokens id b' nonce created :
  RegisterToolSession b tokens id = (b', Ok (nonce, created)) →
  text_at (Broker.sessions b') id = nonce ∧
  (created = true → text_at (Broker.sessions b) id = "") ∧
  (∀ other, other ≠ id → text_at (Broker.sessions b') other = text_at (Broker.sessions b) other) ∧
  Broker.cfg b' = Broker.cfg b.
Proof.
  unfold RegisterToolSession. destruct (negb _); [done|]. destruct (negb _); [done|].
  destruct (dedicatedTaskSpace id); [|done]. destruct (Broker.closed b); [done|]. cbv zeta.
  destruct (String.eqb_spec (text_at (Broker.sessions b) id) "") as [Hs|Hs]; cbn [negb].
  - destruct (draw_nonce _ _) as [n|]; [|done]. intros [= <- <- <-]. cbn. unfold text_at in *.
    split_and!; [by rewrite lookup_insert_eq|done| |done].
    intros other Ho. by rewrite lookup_insert_ne.
  - by intros [= <- <- <-].
Qed.

(** the runtime context of a session is the node's choice.  Whatever a task
    payload contains, the keys of the context in the payload sent to the
    runtime are either all cleared or the node's configuration together with
    the nonce its broker holds for the session; the task's binding id never
    survives, and no other key is touched. *)
Theorem context_owned_by_node cfg admitted slot tokens payload operation slot' out applied :
  applyEgoBrowserRuntimeContext cfg admitted slot tokens payload operation = (slot', out, applied) →
  get "ego_browser_binding_id" out = None ∧
  (∀ k, k ∉ owned_keys → get k out = get k payload) ∧
  match applied with
  | Ok (Some r) =>
      EgoBrowserEnabled cfg = true ∧ admitted = true ∧
      toolSessionID r = string_at payload "session_id" ∧ ∃ b,
      slot' = RunningBroker b ∧ text_at (Broker.sessions b) (toolSessionID r) = nonce r ∧
      ∀ k v, (k, v) ∈ session_context cfg (Config.SocketPath (Broker.cfg b)) (nonce r)
                        ("agent-remote:" +:+ toolSessionID r) → get k out = Some v
  | _ =>
      get "ego_browser_enabled" out = Some (VBool false) ∧
      ∀ k, k ∈ context_keys → get k out = Some (VStr "")
  end.
Proof.
  unfold applyEgoBrowserRuntimeContext. cbv zeta. set (p := clearEgoBrowserRuntimeContext payload).
  assert (Hcleared : get "ego_browser_binding_id" p = None ∧
    (∀ k, k ∉ owned_keys → get k p = get k payload) ∧
    get "ego_browser_enabled" p = Some (VBool false) ∧
    ∀ k, k ∈ context_keys → get k p = Some (VStr "")).
  { unfold p. split_and!; [by rewrite clear_get| |by rewrite clear_get|].
    - intros k Hk. unfold owned_keys in Hk. rewrite !not_elem_of_cons in Hk.
      destruct Hk as (H1 & H2 & H3). rewrite clear_get, bool_decide_eq_false_2 by done.
      by rewrite (proj2 (String.eqb_neq _ _) H1), (proj2 (String.eqb_neq _ _) H2).
    - intros k Hk. rewrite clear_get, bool_decide_eq_true_2 by done.
      destruct (String.eqb_spec k "ego_browser_binding_id") as [->|]; [|done].
      exfalso. revert Hk. by apply (bool_decide_unpack _); vm_compute. }
  destruct Hcleared as (Hb & Ho & He & Hc).
  destruct (EgoBrowserEnabled cfg); cbn [negb]; [|by intros [= <- <- <-]].
  destruct admitted; cbn [negb]; [|by intros [= <- <- <-]].
  destruct slot as [|e|b]; [by intros [= <- <- <-]..|].
  destruct (non_empty _ && _); [by intros [= <- <- <-]|].
  destruct (start_operation operation); cbn [negb]; [|by intros [= <- <- <-]].
  assert (Hid : string_at p "session_id" = string_at payload "session_id").
  { unfold string_at. rewrite Ho; [done|]. by apply (bool_decide_unpack _); vm_compute. }
  destruct (String.eqb (string_at p "session_id") ""); [by intros [= <- <- <-]|].
  destruct (validTaskSpaceLabel _); cbn [negb]; [|by intros [= <- <- <-]].
  destruct (RegisterToolSession b tokens (string_at p "session_id")) as [b' [[nonce created]|e]] eqn:Hreg;
    [|by intros [= <- <- <-]].
  destruct (register_session _ _ _ _ _ _ Hreg) as (Hn & _ & _ & _).
  intros H. apply pair_equal_spec in H as [[<- <-]%pair_equal_spec <-].
  set (ctx := session_context _ _ _ _).
  assert (Hnd : NoDup (map fst ctx)) by (change (map fst ctx) with
    ["ego_browser_enabled"; "ego_browser_wrapper_path"; "ego_browser_broker_socket";
     "ego_browser_broker_nonce"; "ego_browser_protocol_version"; "ego_browser_wrapper_version";
     "ego_browser_skill_path"; "ego_browser_skill_version"; "ego_browser_skill_tree_sha256";
     "ego_browser_task_space"]; by apply (bool_decide_unpack _); vm_compute).
  assert (Hsub : ∀ k, k ∉ owned_keys → k ∉ map fst ctx).
  { intros k Hk Hin. apply Hk. revert Hin. unfold ctx, session_context, owned_keys, context_keys. cbn.
    rewrite !elem_of_cons, !elem_of_nil. tauto. }
  change (foldl (λ m f, put f.1 f.2 m) p ctx) with (put_all p ctx).
  split_and!.
  - rewrite get_put_all_other; [done|]. by apply (bool_decide_unpack _); vm_compute.
  - intros k Hk. rewrite get_put_all_other by (by apply Hsub). by apply Ho.
  - done.
  - done.
  - done.
  - exists b'. split_and!; [done|done|]. intros k v Hin. by apply get_put_all_in.
Qed.

(** ** Registrations at the broker *)

Lemma unregister_effect now b id n :
  let b' := (UnregisterToolSession now b id n).1 in
  (∀ other, other ≠ id → text_at (Broker.sessions b') other = text_at (Broker.sessions b) other) ∧
  (id ≠ "" → text_at (Broker.sessions b) id = n → text_at (Broker.sessions b') id = "").
Proof.
  unfold UnregisterToolSession. destruct (String.eqb_spec id "") as [->|Hid]; [by cbn|].
  unfold unregister_locked. cbv zeta. destruct (_ || _) eqn:E; cbn [fst].
  - split; [done|]. intros _ Hn. apply orb_true_iff in E as [E|E]; [by apply String.eqb_eq in E|].
    apply andb_true_iff in E as [E1 E2]. by rewrite Hn, String.eqb_refl in E2.
  - set (b1 := b <| _ := _ |> <| _ := _ |> <| _ := _ |>).
    pose proof (shrinks_close_relays (map snd (session_bindings b1 id)) ErrRevoked
      (clear_all now (map fst (session_bindings b1 id)) b1)) as H1.
    pose proof (shrinks_clear_all now (map fst (session_bindings b1 id)) b1) as H2.
    rewrite (shrinks_sessions _ _ _ H1), (shrinks_sessions _ _ _ H2). unfold b1, text_at. cbn. split.
    + intros other Ho. by rewrite lookup_delete_ne.
    + intros _ _. by rewrite lookup_delete_eq.
Qed.

Lemma authorize_effect b granted id n uid b' r :
  AuthorizeToolSessionPeer b granted id n uid = (b', r) →
  Broker.sessions b' = Broker.sessions b ∧ (r = Ok tt → Broker.peerUIDs b' !! id = Some uid).
Proof.
  unfold AuthorizeToolSessionPeer.
  destruct (negb _); [by intros [= <- <-]|]. destruct (_ || _); [by intros [= <- <-]|].
  destruct (negb _); [by intros [= <- <-]|]. destruct (is_some _) eqn:Hp.
  - intros [= <- <-]. split; [done|]. intros Hv. unfold VerifyToolSessionPeer in Hv. go_inv Hv.
    destruct (Broker.peerUIDs b !! id) as [u|]; [|done]. go_inv Hv. by apply Z.eqb_eq in Hguard3 as ->.
  - destruct granted; [|by intros [= <- <-]]. unfold record_peer.
    destruct (_ || _); [by intros [= <- <-]|]. destruct (Broker.peerUIDs b !! id) as [u|]; [done|].
    intros [= <- <-]. cbn. split; [done|]. intros _. by rewrite lookup_insert_eq.
Qed.

Lemma rollback_effect now b r :
  toolSessionID r ≠ "" → text_at (Broker.sessions b) (toolSessionID r) = nonce r →
  ∃ b', rollback now (RunningBroker b) (Some r) = RunningBroker b' ∧
    (∀ other, other ≠ toolSessionID r →
       text_at (Broker.sessions b') other = text_at (Broker.sessions b) other) ∧
    text_at (Broker.sessions b') (toolSessionID r) = if created r then "" else nonce r.
Proof.
  intros Hid Hn. cbn. destruct (created r); [|by exists b]. eexists. split; [done|].
  destruct (unregister_effect now b (toolSessionID r) (nonce r)) as [H1 H2]. auto.
Qed.

(** The uid is never root's. *)
Lemma uid_nonzero v uid : takeRuntimeUID v = Ok uid → uid ≠ 0.
Proof.
  destruct v as [v|]; [|done]. cbn. intros H. go_inv H. apply Ok_inj in H. subst.
  by apply negb_true_iff, Z.eqb_neq in Hguard.
Qed.

(** What happens to the registrations between two brokers when a call returns
    [res]. *)
Definition registration_change (c : helper_call) (payload : object) (b b' : Broker)
    (res : result task_failure object) (id : string) : Prop :=
  text_at (Broker.sessions b') id = text_at (Broker.sessions b) id ∨
  text_at (Broker.sessions b') id = "" ∧ is_ok res = false ∨
  text_at (Broker.sessions b) id = "" ∧ id = string_at payload "session_id" ∧
  is_ok res = true ∧ fresh_admission c = true ∧
  ∃ uid, uid ≠ 0 ∧ takeRuntimeUID (answered_uid c) = Ok uid ∧ Broker.peerUIDs b' !! id = Some uid.

Lemma finish_call_change c operation payload b0 b r slot res :
  start_operation operation = true → toolSessionID r = string_at payload "session_id" →
  toolSessionID r ≠ "" → text_at (Broker.sessions b) (toolSessionID r) = nonce r →
  (created r = true → text_at (Broker.sessions b0) (toolSessionID r) = "") →
  (created r = false → text_at (Broker.sessions b0) (toolSessionID r) = nonce r) →
  (∀ other, other ≠ toolSessionID r →
     text_at (Broker.sessions b) other = text_at (Broker.sessions b0) other) →
  finish_call c operation (RunningBroker b) (Some r) = (slot, res) →
  ∃ b', slot = RunningBroker b' ∧ ∀ id, registration_change c payload b0 b' res id.
Proof.
  intros Hop Hid Hne Hn Hnew Hold Hother. unfold finish_call. rewrite Hop.
  assert (Hback : ∃ b', rollback (called_at c) (RunningBroker b) (Some r) = RunningBroker b' ∧
    ∀ id, text_at (Broker.sessions b') id = text_at (Broker.sessions b0) id).
  { destruct (rollback_effect (called_at c) b r Hne Hn) as (b' & Hrb & H1 & H2). exists b'. split; [done|].
    intros id. destruct (decide (id = toolSessionID r)) as [->|Hi]; [|by rewrite H1, Hother].
    rewrite H2. destruct (created r); symmetry; auto. }
  destruct Hback as (bb & Hrb & Hsame).
  assert (Hunreg : ∀ b1, text_at (Broker.sessions b1) (toolSessionID r) = nonce r →
    (∀ other, other ≠ toolSessionID r →
       text_at (Broker.sessions b1) other = text_at (Broker.sessions b0) other) →
    ∀ e, ∃ b', unregister (called_at c) (RunningBroker b1) r = RunningBroker b' ∧
    ∀ id, registration_change c payload b0 b' (Err e) id).
  { intros b1 Hn1 Ho1 e. eexists. split; [done|]. intros id.
    destruct (unregister_effect (called_at c) b1 (toolSessionID r) (nonce r)) as [H1 H2].
    destruct (decide (id = toolSessionID r)) as [->|Hi]; [right; left; by auto|left].
    by rewrite H1, Ho1. }
  destruct (helper_answer c) as [answer|e].
  2: { intros [= <- <-]. exists bb. split; [done|]. intros id. by left. }
  destruct (fresh_admission c) eqn:Hfresh; cbn [negb andb].
  2: { intros [= <- <-]. exists bb. split; [done|]. intros id. by left. }
  destruct (takeRuntimeUID (answered_uid c)) as [uid|e] eqn:Huid.
  2: { intros [= <- <-]. by apply Hunreg. }
  unfold authorize.
  destruct (AuthorizeToolSessionPeer b (granted c) (toolSessionID r) (nonce r) uid) as [b1 a] eqn:Ha.
  destruct (authorize_effect _ _ _ _ _ _ _ Ha) as [Hs Hp]. destruct a as [[]|e].
  - intros [= <- <-]. exists b1. split; [done|]. intros id.
    destruct (decide (id = toolSessionID r)) as [->|Hi]; [|left; by rewrite Hs, Hother].
    destruct (created r) eqn:Hc.
    + right; right. split_and!; [by auto|done|done|done|].
      exists uid. split_and!; [by eapply uid_nonzero|done|by apply Hp].
    + left. by rewrite Hs, Hn, Hold.
  - intros [= <- <-]. apply Hunreg; by rewrite Hs.
Qed.

Lemma register_existing b tokens id b' n :
  RegisterToolSession b tokens id = (b', Ok (n, false)) → text_at (Broker.sessions b) id = n.
Proof.
  unfold RegisterToolSession. repeat (case_match; try done); by intros [= _ <-].
Qed.

Lemma register_fails b tokens id b' e : RegisterToolSession b tokens id = (b', Err e) → b' = b.
Proof. unfold RegisterToolSession. repeat (case_match; try done); by intros [= <- _]. Qed.

(** What applying the context does to the registrations. *)
Lemma apply_registration cfg admitted b tokens payload operation slot out applied :
  applyEgoBrowserRuntimeContext cfg admitted (RunningBroker b) tokens payload operation = (slot, out, applied) →
  ∃ b1, slot = RunningBroker b1 ∧
  match applied with
  | Ok (Some r) =>
      start_operation operation = true ∧ toolSessionID r = string_at payload "session_id" ∧
      toolSessionID r ≠ "" ∧ text_at (Broker.sessions b1) (toolSessionID r) = nonce r ∧
      (created r = true → text_at (Broker.sessions b) (toolSessionID r) = "") ∧
      (created r = false → text_at (Broker.sessions b) (toolSessionID r) = nonce r) ∧
      (∀ other, other ≠ toolSessionID r →
         text_at (Broker.sessions b1) other = text_at (Broker.sessions b) other)
  | _ => b1 = b
  end.
Proof.
  unfold applyEgoBrowserRuntimeContext. cbv zeta.
  assert (Hclear : string_at (clearEgoBrowserRuntimeContext payload) "session_id" = string_at payload "session_id").
  { unfold string_at. by rewrite clear_get. }
  destruct (negb _); [intros [= <- <- <-]; by exists b|].
  destruct (negb _); [intros [= <- <- <-]; by exists b|].
  destruct (_ && _); [intros [= <- <- <-]; by exists b|].
  destruct (start_operation operation); cbn [negb]; [|intros [= <- <- <-]; by exists b].
  rewrite Hclear. destruct (String.eqb_spec (string_at payload "session_id") "") as [|Hne];
    [intros [= <- <- <-]; by exists b|].
  destruct (negb _); [intros [= <- <- <-]; by exists b|].
  destruct (RegisterToolSession b tokens (string_at payload "session_id")) as [b1 [[n cr]|e]] eqn:Hreg;
    intros H; apply pair_equal_spec in H as [[<- <-]%pair_equal_spec <-]; exists b1; split; try done.
  - destruct (register_session _ _ _ _ _ _ Hreg) as (Hn & Hnew & Ho & _). cbn.
    split_and!; try done. intros ->. by eapply register_existing.
  - by eapply register_fails.
Qed.

(** a registration outlives the call that made it only if the session was
    admitted.  Whatever the helper answers, a tool session that was not
    registered at the broker and is afterwards was freshly admitted by a
    successful call, and its runtime uid, not root's, is the one recorded; an
    existing registration changes only by being removed after a failed call;
    no other session is touched. *)
Theorem registration_needs_admission cfg admitted managedStop c b operation payload slot sent res :
  callRuntimeHelper cfg admitted managedStop c (RunningBroker b) operation payload = (slot, sent, res) →
  ∃ b', slot = RunningBroker b' ∧ ∀ id, registration_change c payload b b' res id.
Proof.
  assert (Hsame : ∀ res, ∃ b', RunningBroker b = RunningBroker b' ∧ ∀ id, registration_change c payload b b' res id)
    by (intros r; exists b; split; [done|]; by left).
  assert (Hnone : ∀ slot res, finish_call c operation (RunningBroker b) None = (slot, res) →
    ∃ b', slot = RunningBroker b' ∧ ∀ id, registration_change c payload b b' res id).
  { intros s r. unfold finish_call. destruct (helper_answer c); [|by intros [= <- <-]].
    destruct (_ && _); by intros [= <- <-]. }
  unfold callRuntimeHelper. destruct (_ && _ && _); [by intros [= <- <- <-]|].
  destruct (isEgoBrowserContextOperation operation).
  2: { destruct (finish_call _ _ _ _) as [s r] eqn:Hf. intros [= <- <- <-]. by eapply Hnone. }
  destruct (applyEgoBrowserRuntimeContext _ _ _ _ _ _) as [[slot1 out] applied] eqn:Happ.
  destruct (apply_registration _ _ _ _ _ _ _ _ _ Happ) as (b1 & -> & Heff).
  destruct applied as [[r|]|e].
  - destruct Heff as (Hop & Hid & Hne & Hn & Hnew & Hold & Ho). destruct (prepared c) as [[]|e].
    + destruct (finish_call c operation (RunningBroker b1) (Some r)) as [s ans] eqn:Hf.
      intros H. apply pair_equal_spec in H as [[<- _]%pair_equal_spec <-]. by eapply finish_call_change.
    + intros H. apply pair_equal_spec in H as [[<- _]%pair_equal_spec <-].
      destruct (rollback_effect (called_at c) b1 r Hne Hn) as (b' & Hrb & H1 & H2).
      exists b'. split; [done|]. intros id. left.
      destruct (decide (id = toolSessionID r)) as [->|Hi]; [|by rewrite H1, Ho].
      rewrite H2. destruct (created r); symmetry; auto.
  - subst b1. destruct (finish_call _ _ _ _) as [s ans] eqn:Hf. intros [= <- <- <-]. by eapply Hnone.
  - subst b1. by intros [= <- <- <-].
Qed.

(** ** Reports *)

Definition is_report (a : action) : bool :=
  match a with Completed _ | FailedWith _ => true | _ => false end.

Lemma coded_storable code text :
  valid_utf8 (codes code) = true → valid_utf8 (codes text) = true → storable_object (coded code text).
Proof.
  intros Hc Ht. split_and!; [done| | |].
  - apply faithful_obj. by repeat constructor.
  - apply canonical_obj. split; repeat constructor.
  - unfold coded. cbn. unfold max_depth. lia.
Qed.

Lemma code_utf8 code known :
  Forall (λ s, valid_utf8 (codes s) = true) known → code ∈ known → valid_utf8 (codes code) = true.
Proof. rewrite list.Forall_forall. auto. Qed.

Lemma migration_error_storable taskType e o :
  accountMigrationTaskError taskType e = Some o → storable_object o.
Proof.
  unfold accountMigrationTaskError. destruct (negb _); [done|].
  destruct (has_code _ _); [intros [= <-]; by apply coded_storable|].
  destruct (helper_code e) as [code|]; [|done].
  destruct (String.eqb code "STATE_MIGRATION_PENDING" || _) eqn:Hc.
  - intros [= <-]. apply coded_storable; [|done].
    apply (code_utf8 _ ["STATE_MIGRATION_PENDING"; "STATE_COPY_PENDING"; "STATE_COPY_FAILED"; "STATE_MIGRATION_FAILED"]);
      [by repeat constructor|].
    apply orb_true_iff in Hc as [->%String.eqb_eq|[_ Hc%bool_decide_eq_true]%andb_true_iff]; [by left|by right].
  - destruct (String.eqb code "MIGRATION_PENDING"); [|done]. intros [= <-]. by apply coded_storable.
Qed.

Lemma receipt_error_storable taskType e o :
  configImportReceiptError taskType e = Some o → storable_object o.
Proof.
  unfold configImportReceiptError. destruct (negb _); [done|]. destruct (helper_code e) as [code|]; [|done].
  destruct (String.eqb_spec code "CONFIG_IMPORT_PENDING") as [->|].
  { intros [= <-]. by apply coded_storable. }
  destruct (String.eqb_spec code "CONFIG_IMPORT_FAILED") as [->|]; [|done].
  intros [= <-]. by apply coded_storable.
Qed.

Lemma safe_error_storable taskType e :
  valid_utf8 (codes (message e)) = true → storable_object (contentSafeTaskError taskType e).
Proof.
  intros Hm. unfold contentSafeTaskError. destruct (_ && _); [by apply coded_storable|].
  destruct (accountMigrationTaskError taskType e) eqn:E1; [by eapply migration_error_storable|].
  destruct (configImportReceiptError taskType e) eqn:E2; [by eapply receipt_error_storable|].
  destruct (isConfigImportOwnershipError taskType e); [by apply coded_storable|].
  destruct (String.eqb taskType _); by apply coded_storable.
Qed.

Section Reports.
Context {L Env : Type} `{DurableMap L Env} (nodeID id : string).

(** Answers whose texts came out of JSON, and a clock JSON can write. *)
Record sane (x : execution Env) : Prop := {
  sane_time : timely (save_env x);
  sane_result m : run_answer x = Ok m → storable_object m;
  sane_failure e : run_answer x = Err e → valid_utf8 (codes (message e)) = true;
  sane_refusal e : start_answer x = Some e → valid_utf8 (codes (message e)) = true
}.

(** The task has ended with [e]. *)
Definition ended (l : L) (e : Entry) : Prop := content l id = Some e ∧ terminal (Status e) = true.

(** Saving a terminal entry: what is reported is what the ledger holds. *)
Lemma settle_effect x l (e : Entry) done_ a l' actions r :
  sound l → sane x → TaskID e = id → valid_utf8 (codes id) = true → terminal (Status e) = true →
  report_of e = a →
  (∃ m, (Error e = None ∧ Result e = Some m ∨ Result e = None ∧ Error e = Some m) ∧ storable_object m) →
  settle x l e done_ a = (l', actions, r) →
  sound l' ∧
  (actions = done_ ∨ actions = done_ ++ [a] ∧ ∃ e', ended l' e' ∧ report_of e' = a).
Proof.
  intros Hl Hx Hid Hu Ht Ha (m & Hcases & Hm). unfold settle.
  assert (Hstatus : valid_utf8 (codes (Status e)) = true).
  { unfold terminal in Ht. apply orb_true_iff in Ht as [->%String.eqb_eq| ->%String.eqb_eq]; done. }
  assert (Had : admits (save_env x) e).
  { eapply admits_intro; [apply Hx|by rewrite Hid|done|done|done]. }
  destruct (keeps_fields (save_env x) e) as (H1 & H2 & H3 & H4).
  assert (Hrep : report_of (keeps (save_env x) e) = a).
  { rewrite <- Ha. unfold report_of. rewrite H2. destruct Hm as [Hne _].
    destruct Hcases as [[He Hr]|[Hr He]]; rewrite H3, H4 by (rewrite ?Hr, ?He; congruence); done. }
  assert (Hend : ∀ l1, replaced (content l) (TaskID e) (keeps (save_env x) e) (content l1) →
    ended l1 (keeps (save_env x) e)).
  { intros l1 Hrepl. split; [|by rewrite H2]. by rewrite Hrepl, Hid, String.eqb_refl. }
  destruct (in_doubt l) eqn:Hd.
  { rewrite save_doubt by done. intros [= <- <- _]. split; [done|]. by left. }
  destruct (save_stores (save_env x) l e Hl Hd Had) as (l1 & r1 & -> & Hl1 & Hout).
  destruct Hout as [(-> & _ & Hrepl)|[(-> & ->)|(-> & _ & Hrepl)]]; intros [= <- <- _]; (split; [done|]).
  - right. split; [done|]. eexists. split; [by apply Hend|done].
  - by left.
  - by left.
Qed.

(** One execution of the task, not handed to another handler. *)
Definition direct (actions : list action) : Prop := ∀ r, Routed r ∉ actions.

(** An execution of a task that ended with [e]: the task is not started again,
    its report is repeated, and only a stop is executed again, before its
    report. *)
Record repeats (e : Entry) (run : TaskEnvelope * list action) : Prop := {
  repeats_report a : a ∈ run.2 → is_report a = true →
    a = report_of e ∧ run.2 = if stop_type (Task.TaskType run.1) then [Executed; a] else [a];
  repeats_unstarted : Started ∉ run.2;
  repeats_executed : Executed ∈ run.2 → stop_type (Task.TaskType run.1) = true
}.

Lemma report_is e : is_report (report_of e) = true.
Proof. unfold report_of. by case_match. Qed.

Lemma repeats_nothing e task : repeats e (task, []).
Proof. by split; cbn; [intros a ?%not_elem_of_nil|intros ?%not_elem_of_nil|intros ?%not_elem_of_nil]. Qed.

Lemma execute_ended x l task e l' actions r :
  sound l → Task.TaskID task = id → ended l e →
  executeTask nodeID x l task = (l', actions, r) → direct actions →
  l' = l ∧ repeats e (task, actions).
Proof.
  intros Hl Hid [Hc Ht] Hrun Hdir. unfold executeTask in Hrun. cbv zeta in Hrun. rewrite Hid in Hrun.
  assert (Hroute : ∀ rt, routed x l rt = (l', actions, r) → False).
  { intros rt [= _ <- _]. by apply (Hdir rt), list_elem_of_here. }
  assert (Hnothing : ∀ err, (l, [], Err err) = (l', actions, r) → l' = l ∧ repeats e (task, actions)).
  { intros err [= <- <- _]. split; [done|apply repeats_nothing]. }
  pose proof (report_is e) as Hrep.
  destruct (String.eqb _ "recover_tool_account_runtime"); [by apply Hroute in Hrun|].
  destruct (deploymentTask task); [by apply Hroute in Hrun|].
  destruct (String.eqb _ "takeover_tool_account_skills"); [by apply Hroute in Hrun|].
  rewrite get_spec in Hrun by done. destruct (in_doubt l); [by eapply Hnothing|].
  rewrite Hc in Hrun. destruct (deploymentStatus (Status e)); [by eapply Hnothing|].
  destruct (managedStopTask task); [by apply Hroute in Hrun|].
  destruct (_ || _) in Hrun; [by apply Hroute in Hrun|].
  destruct (_ && _) in Hrun; [by eapply Hnothing|]. destruct (_ && _) in Hrun; [by eapply Hnothing|].
  rewrite Ht in Hrun. unfold observeOldStopTask in Hrun.
  destruct (stop_type (Task.TaskType task)) eqn:Hstop; [destruct (is_ok (run_answer x))|];
    injection Hrun as <- <- _; (split; [done|]); split; cbn [fst snd app]; rewrite ?Hstop; try done.
  - by intros a [->|[->|?%not_elem_of_nil]%elem_of_cons]%elem_of_cons.
  - intros [?|[Hs|?%not_elem_of_nil]%elem_of_cons]%elem_of_cons; [done|by rewrite <- Hs in Hrep|done].
  - by intros a [->|?%not_elem_of_nil]%elem_of_cons.
  - by intros [?|?%not_elem_of_nil]%elem_of_cons.
  - by intros a [->|?%not_elem_of_nil]%elem_of_cons.
  - intros [Hs|?%not_elem_of_nil]%elem_of_cons; [by rewrite <- Hs in Hrep|done].
  - intros [Hs|?%not_elem_of_nil]%elem_of_cons; [by rewrite <- Hs in Hrep|done].
Qed.

Lemma run_task_effect x l task l' actions r :
  sound l → sane x → valid_utf8 (codes id) = true → Task.TaskID task = id →
  run_task x l task = (l', actions, r) →
  sound l' ∧
  (Forall (λ a, is_report a = false) actions ∨
   ∃ pre e, actions = pre ++ [report_of e] ∧ Forall (λ a, is_report a = false) pre ∧ ended l' e).
Proof.
  intros Hl Hx Hu Hid. unfold run_task. cbv zeta.
  assert (Hsettle : ∀ (e : Entry) done_ a, TaskID e = id → terminal (Status e) = true → report_of e = a →
    (∃ m, (Error e = None ∧ Result e = Some m ∨ Result e = None ∧ Error e = Some m) ∧ storable_object m) →
    Forall (λ a, is_report a = false) done_ →
    settle x l e done_ a = (l', actions, r) →
    sound l' ∧ (Forall (λ a, is_report a = false) actions ∨
     ∃ pre e, actions = pre ++ [report_of e] ∧ Forall (λ a, is_report a = false) pre ∧ ended l' e)).
  { intros e done_ a H1 H2 H3 H4 H5 Hrun.
    destruct (settle_effect x l e done_ a l' actions r) as [Hl' [->|(-> & e' & He' & Hr)]]; try done.
    - split; [done|by left].
    - split; [done|]. right. exists done_, e'. by rewrite Hr. }
  destruct (start_answer x) as [e|] eqn:Hstart.
  - destruct (isConfigImportOwnershipError _ _).
    + apply Hsettle; [done|done|done| |by repeat constructor]. eexists. split; [right; by split|].
      apply safe_error_storable. by eapply sane_refusal.
    + intros [= <- <- _]. split; [done|]. left. by repeat constructor.
  - destruct (run_answer x) as [m|e] eqn:Hans.
    + apply Hsettle; [done|done|done| |by repeat constructor]. eexists. split; [left; by split|].
      by eapply sane_result.
    + destruct (_ || _).
      * intros [= <- <- _]. split; [done|]. left. by repeat constructor.
      * apply Hsettle; [done|done|done| |by repeat constructor]. eexists. split; [right; by split|].
        apply safe_error_storable. by eapply sane_failure.
Qed.

(** One execution, whatever the ledger holds. *)
Lemma execute_effect x l task l' actions r :
  sound l → sane x → valid_utf8 (codes id) = true → Task.TaskID task = id →
  executeTask nodeID x l task = (l', actions, r) → direct actions →
  sound l' ∧
  (Forall (λ a, is_report a = false) actions ∨
   ∃ pre e, actions = pre ++ [report_of e] ∧ Forall (λ a, is_report a = false) pre ∧ ended l' e).
Proof.
  intros Hl Hx Hu Hid Hrun Hdir. unfold executeTask in Hrun. cbv zeta in Hrun.
  assert (Hroute : ∀ rt, routed x l rt = (l', actions, r) → False).
  { intros rt [= _ <- _]. by apply (Hdir rt), list_elem_of_here. }
  assert (Hnothing : ∀ err, (l, [], Err err) = (l', actions, r) →
    sound l' ∧ (Forall (λ a, is_report a = false) actions ∨
     ∃ pre e, actions = pre ++ [report_of e] ∧ Forall (λ a, is_report a = false) pre ∧ ended l' e)).
  { intros err [= <- <- _]. split; [done|]. left. constructor. }
  destruct (String.eqb _ "recover_tool_account_runtime"); [by apply Hroute in Hrun|].
  destruct (deploymentTask task); [by apply Hroute in Hrun|].
  destruct (String.eqb _ "takeover_tool_account_skills"); [by apply Hroute in Hrun|].
  rewrite get_spec in Hrun by done. destruct (in_doubt l); [by eapply Hnothing|].
  destruct (match content l _ with Some e => deploymentStatus (Status e) | None => false end); [by eapply Hnothing|].
  destruct (managedStopTask task); [by apply Hroute in Hrun|].
  destruct (_ || _) in Hrun; [by apply Hroute in Hrun|].
  destruct (_ && _) in Hrun; [by eapply Hnothing|]. destruct (_ && _) in Hrun; [by eapply Hnothing|].
  rewrite Hid in Hrun. destruct (content l id) as [e|] eqn:Hc; [|by eapply run_task_effect].
  destruct (terminal (Status e)) eqn:Ht; [|by eapply run_task_effect].
  unfold observeOldStopTask in Hrun.
  destruct (stop_type _); [destruct (is_ok (run_answer x))|]; injection Hrun as <- <- _; (split; [done|]).
  - right. exists [Executed], e. split_and!; [done|by repeat constructor|done].
  - left. by repeat constructor.
  - right. exists [], e. split_and!; [done|constructor|done].
Qed.

(** Histories of one task: executions with any environment, none of which hands
    it to another handler, restarts, and whatever the node does with other
    tasks meanwhile. *)
Inductive task_history : L → list (TaskEnvelope * list action) → L → Prop :=
  | hist_nil l : task_history l [] l
  | hist_run x l task l1 actions r rest l2 :
      Task.TaskID task = id → sane x → executeTask nodeID x l task = (l1, actions, r) → direct actions →
      task_history l1 rest l2 → task_history l ((task, actions) :: rest) l2
  | hist_reopen l l1 rest l2 :
      store_reopen l = Ok l1 → task_history l1 rest l2 → task_history l rest l2
  | hist_elsewhere l l1 rest l2 :
      sound l1 → content l1 id = content l id → task_history l1 rest l2 → task_history l rest l2.

Lemma ended_history l runs l' e :
  task_history l runs l' → sound l → ended l e → ended l' e ∧ Forall (repeats e) runs.
Proof.
  induction 1 as [l|x l task l1 actions r rest l2 Hid Hx Hrun Hdir _ IH|l l1 rest l2 Ho _ IH|l l1 rest l2 Hl1 Hc _ IH];
    intros Hl He.
  - by split.
  - destruct (execute_ended _ _ _ _ _ _ _ Hl Hid He Hrun Hdir) as (-> & Hrep).
    destruct (IH Hl He) as [? ?]. split; [done|by constructor].
  - destruct (reopen_spec l Hl) as (l' & Ho' & Hl' & _ & Hc). rewrite Ho in Ho'. injection Ho' as ->.
    apply IH; [done|]. destruct He as [Hc' Ht]. split; [by rewrite Hc|done].
  - apply IH; [done|]. destruct He as [Hc' Ht]. split; [by rewrite Hc|done].
Qed.

(** C6: all reports about a task that the worker executes itself agree.  In every
    history of executions that are not handed to another handler (a runtime
    recovery, a deployment, a takeover, a managed stop or start), with answers
    of the host and the control plane whose texts come out of JSON, any failing
    write, any restarts and anything done with other tasks: a report is the
    last action of its execution, the ledger holds it from then on, and every
    later report repeats it.  A reported task is never started again, and only
    a stop or a cleanup is executed again: it is reported again only behind
    that execution, and with the outcome recorded first. *)
Theorem reports_agree l runs l' :
  valid_utf8 (codes id) = true → sound l → task_history l runs l' →
  ∀ pre task actions post a, runs = pre ++ (task, actions) :: post → a ∈ actions → is_report a = true →
  (∃ before, actions = before ++ [a]) ∧
  ∃ e, ended l' e ∧ report_of e = a ∧ Forall (repeats e) post.
Proof.
  intros Hu Hl Hh.
  induction Hh as [l|x l task l1 actions r rest l2 Hid Hx Hrun Hdir Hh IH|l l1 rest l2 Ho _ IH|l l1 rest l2 Hl1 _ _ IH];
    intros pre task' actions' post a Heq Hin Ha.
  - by destruct pre.
  - destruct (execute_effect _ _ _ _ _ _ Hl Hx Hu Hid Hrun Hdir) as [Hl1 Heff].
    destruct pre as [|run pre]; [|injection Heq as <- Heq; by eapply IH]. injection Heq as <- <- <-.
    destruct Heff as [Hsil|(before & e & -> & Hpre & He)].
    { rewrite list.Forall_forall in Hsil. by rewrite (Hsil a Hin) in Ha. }
    apply elem_of_app in Hin as [Hin|[->|?%not_elem_of_nil]%elem_of_cons]; [|split; [by exists before|]|done].
    { rewrite list.Forall_forall in Hpre. by rewrite (Hpre a Hin) in Ha. }
    exists e. destruct (ended_history _ _ _ _ Hh Hl1 He). by split_and!.
  - destruct (reopen_spec l Hl) as (l' & Ho' & Hl' & _). rewrite Ho in Ho'. injection Ho' as ->. by eapply IH.
  - by eapply IH.
Qed.

End Reports.

(** ** The worker at work *)

Module WorkerDemo.

Definition cfg : worker_config :=
  mkConfig true "/opt/wrapper" "1" "2" "/opt/skill" "3" "4" "/users" "/accounts" "/opt/claude".

Definition slot : broker_slot := RunningBroker EgoDemo.Demo.b0.

(** A payload that tries to choose its own nonce. *)
Definition payload : object :=
  [("ego_browser_binding_id", VStr "mine"); ("ego_browser_broker_nonce", VStr "mine");
   ("session_id", VStr "session-1"); ("tool_type", VStr "claude")].

Definition call (fresh : bool) : helper_call :=
  mkCall (Ok tt) [Some EgoDemo.Demo.token] (Ok tt) (Ok [("runtime_uid", VNum "1001"); ("status", VStr "running")])
    (Some (Float 1001 0)) fresh (Ok tt) 0.

Lemma context_witness :
  let '(s, out, applied) :=
    applyEgoBrowserRuntimeContext cfg true slot [Some EgoDemo.Demo.token] payload "start_session" in
  get "ego_browser_binding_id" out = None ∧ get "tool_type" out = Some (VStr "claude") ∧
  get "ego_browser_broker_nonce" out = Some (VStr EgoDemo.Demo.nonce).
Proof.
  destruct (applyEgoBrowserRuntimeContext cfg true slot [Some EgoDemo.Demo.token] payload "start_session")
    as [[s out] applied] eqn:E.
  destruct (context_owned_by_node _ _ _ _ _ _ _ _ _ E) as (H1 & H2 & H3).
  split; [exact H1|]. split; [apply H2; by apply (bool_decide_unpack _); vm_compute|].
  apply (f_equal (λ x, get "ego_browser_broker_nonce" x.1.2)) in E. cbn [fst snd] in E.
  rewrite <- E. vm_compute. reflexivity.
Defined.

(** A fresh admission keeps the registration, a repeated one rolls it back. *)
Lemma registration_witness :
  let '(s, sent, res) := callRuntimeHelper cfg true false (call true) slot "start_session" payload in
  let '(s', sent', res') := callRuntimeHelper cfg true false (call false) slot "start_session" payload in
  (∃ b, s = RunningBroker b ∧ text_at (Broker.sessions b) "session-1" = EgoDemo.Demo.nonce ∧
     registration_change (call true) payload EgoDemo.Demo.b0 b res "session-1") ∧
  (∃ b, s' = RunningBroker b ∧ text_at (Broker.sessions b) "session-1" = "").
Proof.
  destruct (callRuntimeHelper cfg true false (call true) slot "start_session" payload) as [[s sent] res] eqn:E1.
  destruct (callRuntimeHelper cfg true false (call false) slot "start_session" payload) as [[s' sent'] res'] eqn:E2.
  destruct (registration_needs_admission _ _ _ _ _ _ _ _ _ _ E1) as (b & -> & H1).
  destruct (registration_needs_admission _ _ _ _ _ _ _ _ _ _ E2) as (b' & -> & H2).
  assert (Hb : text_at (Broker.sessions b) "session-1" = EgoDemo.Demo.nonce).
  { apply (f_equal (λ x, match x.1.1 with RunningBroker b => text_at (Broker.sessions b) "session-1" | _ => "" end)) in E1.
    cbn [fst snd] in E1. rewrite <- E1. vm_compute. reflexivity. }
  assert (Hb' : text_at (Broker.sessions b') "session-1" = "").
  { apply (f_equal (λ x, match x.1.1 with RunningBroker b => text_at (Broker.sessions b) "session-1" | _ => "" end)) in E2.
    cbn [fst snd] in E2. rewrite <- E2. vm_compute. reflexivity. }
  split; [exists b; split; [reflexivity|]; split; [exact Hb|apply H1]|exists b'; split; [reflexivity|exact Hb']].
Defined.

(** ** One task, two polls *)

Definition task : TaskEnvelope :=
  Task.mk "task-9" "rec" 1 "node-1" "cleanup_resources" "task-9"
    [("runtime_backend", VStr "native"); ("session_ids", VArr [VStr "session-1"])].
Definition answer : object := [("status", VStr "prepared")].
Definition env : time * publish_io :=
  (1700000000 * second, mkPublish true true true true true true true true true true).
Definition run (result : object) : execution (time * publish_io) :=
  mkExecution (Ok tt) true None (Ok result) env true.

Definition empty : Ledger := mkLedger [] false None.
Definition later : Ledger := (executeTask "node-1" (run answer) empty task).1.1.

Lemma run_sane m : storable_object m → sane (run m).
Proof.
  intros Hm. split; cbn [run run_answer start_answer save_env]; [|by intros x [= <-]|done|done].
  cbn. unfold in_four_digit_years. vm_compute. split; congruence.
Qed.

Lemma answer_storable : storable_object answer.
Proof.
  split_and!; [done| | |].
  - apply faithful_obj. by repeat constructor.
  - apply canonical_obj. split; repeat constructor.
  - vm_compute. lia.
Qed.

Lemma two_polls :
  task_history "node-1" "task-9" empty
    [(task, [Started; Executed; Completed (Some answer)]); (task, [Executed; Completed (Some answer)])] later.
Proof.
  eapply hist_run with (x := run answer) (task := task);
    [done|by apply run_sane, answer_storable|vm_compute; reflexivity| |].
  { intros r Hr. repeat (apply elem_of_cons in Hr as [?|Hr]; [done|]). by apply not_elem_of_nil in Hr. }
  eapply hist_run with (x := run answer) (task := task);
    [done|by apply run_sane, answer_storable|vm_compute; reflexivity| |].
  { intros r Hr. repeat (apply elem_of_cons in Hr as [?|Hr]; [done|]). by apply not_elem_of_nil in Hr. }
  match goal with |- task_history _ _ ?l [] _ => replace l with later by (vm_compute; reflexivity) end.
  apply hist_nil.
Qed.

(** A cleanup is executed again before it is reported again. *)
Lemma reports_agree_witness :
  ∃ e, ended "task-9" later e ∧ report_of e = Completed (Some answer) ∧
       repeats e (task, [Executed; Completed (Some answer)]).
Proof.
  assert (Hl : sound empty) by (split; [split; constructor|done]).
  destruct (reports_agree "node-1" "task-9" empty _ later eq_refl Hl two_polls [] task
    [Started; Executed; Completed (Some answer)] [(task, [Executed; Completed (Some answer)])]
    (Completed (Some answer)) eq_refl) as [_ (e & He & Hr & Hall)];
    [by do 2 right; left|reflexivity|].
  exists e. split; [exact He|]. split; [exact Hr|]. inversion Hall; assumption.
Defined.

End WorkerDemo.
