(* ===== verification/DevicePayload.v ===== *)
(** * Device control: task payloads

    The payloads of the device-control tasks and their strict validation
    (src/internal/devicecontrol/activation.go), and the strict JSON object
    decoder of the activation files and the bridge frames
    (src/internal/devicecontrol/bridge.go: [decodeStrictJSONObject]). *)

From S2P Require Import Prelude GoText GoTime GoJson GoUtf8 GoJsonText GoJsonValue GoJsonDecode GoJsonStruct.
From Stdlib.Strings Require Import Ascii.

Abbreviation object := (list (string * value)) (only parsing).

(** ** Constants and patterns *)

Definition protocolVersion : Z := 1.
Definition maximumActivationManifestSize : Z := Z.shiftl 16 10.
Definition AuthorizationModePerApplicationApproval : string := "per_application_approval".
Definition AuthorizationModeSessionFullTrust : string := "session_full_trust".
Definition MaximumDeviceSessionGeneration : Z := Z.shiftl 1 63 - 1.
Definition MaximumActiveDeviceSessionGeneration : Z := MaximumDeviceSessionGeneration - 1.

Definition uuidPattern (s : string) : bool :=
  match_classes (replicate 8 is_hex ++ [is_dash] ++ replicate 4 is_hex ++ [is_dash] ++
                 [in_range "1" "5"] ++ replicate 3 is_hex ++ [is_dash] ++
                 [has_char "89ab"] ++ replicate 3 is_hex ++ [is_dash] ++ replicate 12 is_hex) s.

Definition resource_char (c : ascii) : bool := is_alnum c || has_char "._:-" c.

Definition resourcePattern (s : string) : bool :=
  (1 <=? len s) && (len s <=? 128) && all_chars resource_char s.

Definition requiredCapabilitiesV2 : list string :=
  ["adaptive_settle_v2"; "ax_state_v2"; "observation_mode_v2"].

Definition legacyCapabilitiesV2 : list string :=
  ["adaptive_settle_v2"; "ax_state_v2"; "clipboard_payload_v2"; "observation_mode_v2"].

Definition capabilitiesV2 : list string :=
  ["adaptive_settle_v2"; "application_launch_v1"; "ax_state_v2"; "clipboard_payload_v2";
   "global_clipboard_v1"; "observation_mode_v2"; "session_full_trust_v1"].

Definition ValidCapabilities (capabilities : list string) : bool :=
  bool_decide (capabilities = []) || bool_decide (capabilities = requiredCapabilitiesV2) ||
  bool_decide (capabilities = legacyCapabilitiesV2) || bool_decide (capabilities = capabilitiesV2).

Definition ValidCapabilitiesForAuthorization (mode : string) (policyVersion : Z) (capabilities : list string)
    : bool :=
  if negb (policyVersion =? 1) then false
  else if String.eqb mode AuthorizationModePerApplicationApproval then
    bool_decide (capabilities = []) || bool_decide (capabilities = requiredCapabilitiesV2) ||
    bool_decide (capabilities = legacyCapabilitiesV2)
  else if String.eqb mode AuthorizationModeSessionFullTrust then bool_decide (capabilities = capabilitiesV2)
  else false.

(** The new mode and policy version, and whether they are valid. *)
Definition normalizeAndValidateAuthorization (mode : string) (policyVersion : Z) (allowLegacyOmission : bool)
    : string * Z * bool :=
  let '(mode, policyVersion) :=
    if allowLegacyOmission && String.eqb mode "" && (policyVersion =? 0)
    then (AuthorizationModePerApplicationApproval, 1) else (mode, policyVersion) in
  (mode, policyVersion,
   (String.eqb mode AuthorizationModePerApplicationApproval || String.eqb mode AuthorizationModeSessionFullTrust) &&
   (policyVersion =? 1)).

(** ** Fields of the payload structs *)

Definition uint64_field {R} (name : string) (get : R → Z) (set : Z → R → R) : field R :=
  mkField name get set (λ z, Some (VNum (itoa z))) (λ current _ j, uint64_of_json current j).

(** A [[]string]: its elements, and what its backing array holds after them.
    Decoding an array reuses the backing array, so a null element keeps the
    string an earlier array left there. *)
Record strings := mkStrings { visible : list string; spare : list string }.

#[global] Instance strings_eq_dec : EqDecision strings.
Proof. solve_decision. Defined.

Definition no_strings : strings := mkStrings [] [].

Fixpoint items_of_json (backing : list string) (items : list json) : option (list string) :=
  match items with
  | [] => Some []
  | j :: rest =>
      s ← string_of_json (default "" (head backing)) j;
      l ← items_of_json (tail backing) rest;
      Some (s :: l)
  end.

Definition strings_of_json (current : strings) (j : json) : option strings :=
  match j with
  | JNull | JArr [] => Some no_strings
  | JArr items =>
      let backing := visible current ++ spare current in
      l ← items_of_json backing items;
      Some (mkStrings l (drop (length l) backing))
  | _ => None
  end.

(** A nil slice is encoded as null; [allocated] says that the field is never
    nil. *)
Definition strings_field {R} (allocated : bool) (name : string) (get : R → strings) (set : strings → R → R)
    : field R :=
  mkField name get set
    (λ s, Some (match visible s with
                | [] => if allocated then VArr [] else VNull
                | l => VArr (map VStr l)
                end))
    (λ current _ j, strings_of_json current j).

(** [DisallowUnknownFields], and exactly one value in the text. *)
Definition decode_known {R} (fields : list (field R)) (zero : R) (j : json) : option R :=
  struct_of_json (names fields) (assign_member fields) zero j.

(** [decodeStrict]: the payload encoded and decoded into the struct. *)
Definition decodeStrict {R} (fields : list (field R)) (zero : R) (payload : object) : option R :=
  if encodable (VObj payload) then
    j ← parse_json (print_value compact 0 (VObj payload));
    decode_known fields zero j
  else None.

(** The members of the outer object have different names. *)
Definition rejectDuplicateJSONObjectKeys (j : json) : bool :=
  match j with JObj fields => bool_decide (NoDup (map (λ f, f.1.1) fields)) | _ => false end.

Definition decodeStrictJSONObject {R} (fields : list (field R)) (zero : R) (data : string) : option R :=
  j ← parse_json data;
  if rejectDuplicateJSONObjectKeys j then decode_known fields zero j else None.

(** ** The payloads *)

Module Activation.
Record ActivatePayload := mk {
  ProtocolVersion : Z;
  AuthorizationMode : string;
  AuthorizationPolicyVersion : Z;
  UserID : string;
  DeviceID : string;
  ToolSessionID : string;
  DeviceSessionID : string;
  NodeID : string;
  Platform : string;
  Generation : Z;
  ExpiresAt : string;
  RuntimeBackend : string;
  RuntimeResourceID : string
}.

#[global] Instance eq_dec : EqDecision ActivatePayload.
Proof. solve_decision. Defined.

Definition fields : list (field ActivatePayload) := [
  int_field "protocol_version" ProtocolVersion (λ x r, r <| ProtocolVersion := x |>);
  str_field "authorization_mode" AuthorizationMode (λ x r, r <| AuthorizationMode := x |>);
  int_field "authorization_policy_version" AuthorizationPolicyVersion
    (λ x r, r <| AuthorizationPolicyVersion := x |>);
  str_field "user_id" UserID (λ x r, r <| UserID := x |>);
  str_field "device_id" DeviceID (λ x r, r <| DeviceID := x |>);
  str_field "tool_session_id" ToolSessionID (λ x r, r <| ToolSessionID := x |>);
  str_field "device_session_id" DeviceSessionID (λ x r, r <| DeviceSessionID := x |>);
  str_field "node_id" NodeID (λ x r, r <| NodeID := x |>);
  str_field "platform" Platform (λ x r, r <| Platform := x |>);
  uint64_field "generation" Generation (λ x r, r <| Generation := x |>);
  str_field "expires_at" ExpiresAt (λ x r, r <| ExpiresAt := x |>);
  str_field "runtime_backend" RuntimeBackend (λ x r, r <| RuntimeBackend := x |>);
  str_omit_field "runtime_resource_id" RuntimeResourceID (λ x r, r <| RuntimeResourceID := x |>)].

Definition zero : ActivatePayload := mk 0 "" 0 "" "" "" "" "" "" 0 "" "" "".
End Activation.
Export Activation(ActivatePayload).

Module Deactivation.
Record DeactivatePayload := mk {
  DeviceSessionID : string;
  ToolSessionID : string;
  Generation : Z
}.

#[global] Instance eq_dec : EqDecision DeactivatePayload.
Proof. solve_decision. Defined.

Definition fields : list (field DeactivatePayload) := [
  str_field "device_session_id" DeviceSessionID (λ x r, r <| DeviceSessionID := x |>);
  str_field "tool_session_id" ToolSessionID (λ x r, r <| ToolSessionID := x |>);
  uint64_field "generation" Generation (λ x r, r <| Generation := x |>)].

Definition zero : DeactivatePayload := mk "" "" 0.
End Deactivation.
Export Deactivation(DeactivatePayload).

Module Context_.
Record ContextPayload := mk {
  ProtocolVersion : Z;
  AuthorizationMode : string;
  AuthorizationPolicyVersion : Z;
  UserID : string;
  DeviceID : string;
  ToolSessionID : string;
  DeviceSessionID : string;
  NodeID : string;
  Platform : string;
  Generation : Z;
  LeaseUntil : string;
  Capabilities : strings
}.

#[global] Instance eq_dec : EqDecision ContextPayload.
Proof. solve_decision. Defined.

Definition fields : list (field ContextPayload) := [
  int_field "protocol_version" ProtocolVersion (λ x r, r <| ProtocolVersion := x |>);
  str_field "authorization_mode" AuthorizationMode (λ x r, r <| AuthorizationMode := x |>);
  int_field "authorization_policy_version" AuthorizationPolicyVersion
    (λ x r, r <| AuthorizationPolicyVersion := x |>);
  str_field "user_id" UserID (λ x r, r <| UserID := x |>);
  str_field "device_id" DeviceID (λ x r, r <| DeviceID := x |>);
  str_field "tool_session_id" ToolSessionID (λ x r, r <| ToolSessionID := x |>);
  str_field "device_session_id" DeviceSessionID (λ x r, r <| DeviceSessionID := x |>);
  str_field "node_id" NodeID (λ x r, r <| NodeID := x |>);
  str_field "platform" Platform (λ x r, r <| Platform := x |>);
  uint64_field "generation" Generation (λ x r, r <| Generation := x |>);
  str_field "lease_until" LeaseUntil (λ x r, r <| LeaseUntil := x |>);
  strings_field false "capabilities" Capabilities (λ x r, r <| Capabilities := x |>)].

Definition zero : ContextPayload := mk 0 "" 0 "" "" "" "" "" "" 0 "" no_strings.
End Context_.
Export Context_(ContextPayload).

(** ** Validation *)

(** The text of an error; the name in a UUID error depends on the order in
    which Go visits a map. *)
Inductive device_error :=
  | PayloadMalformed | BadProtocol | BadAuthorization | BadUUID | WrongNode | BadPlatform | BadGeneration
  | BadBackend | BadResource | BadExpiry | BadCapabilities | BadLease.

#[global] Instance device_error_eq_dec : EqDecision device_error.
Proof. solve_decision. Defined.

(** A future instant. *)
Definition future (text : string) (now : time) : bool :=
  match parse_rfc3339 text with Some t => after t now | None => false end.

Definition active_generation (g : Z) : bool := negb (g =? 0) && (g <=? MaximumActiveDeviceSessionGeneration).

Definition DecodeActivatePayload (payload : object) (expectedNodeID : string) (now : time)
    : result device_error ActivatePayload :=
  match decodeStrict Activation.fields Activation.zero payload with
  | None => Err PayloadMalformed
  | Some d =>
      require Activation.ProtocolVersion d =? protocolVersion orelse BadProtocol ;;
      let '(mode, policy, valid) := normalizeAndValidateAuthorization
        (Activation.AuthorizationMode d) (Activation.AuthorizationPolicyVersion d) true in
      let d := d <| Activation.AuthorizationMode := mode |>
                 <| Activation.AuthorizationPolicyVersion := policy |> in
      require valid orelse BadAuthorization ;;
      require forallb uuidPattern
        [Activation.UserID d; Activation.DeviceID d; Activation.ToolSessionID d;
         Activation.DeviceSessionID d; Activation.NodeID d] orelse BadUUID ;;
      require String.eqb (Activation.NodeID d) expectedNodeID orelse WrongNode ;;
      require String.eqb (Activation.Platform d) "macos" orelse BadPlatform ;;
      require active_generation (Activation.Generation d) orelse BadGeneration ;;
      require String.eqb (Activation.RuntimeBackend d) "native" ||
              String.eqb (Activation.RuntimeBackend d) "docker_sandbox" orelse BadBackend ;;
      require String.eqb (Activation.RuntimeResourceID d) "" ||
              resourcePattern (Activation.RuntimeResourceID d) orelse BadResource ;;
      require future (Activation.ExpiresAt d) now orelse BadExpiry ;;
      Ok d
  end.

Definition DecodeDeactivatePayload (payload : object) : result device_error DeactivatePayload :=
  match decodeStrict Deactivation.fields Deactivation.zero payload with
  | None => Err PayloadMalformed
  | Some d =>
      require uuidPattern (Deactivation.DeviceSessionID d) orelse BadUUID ;;
      require uuidPattern (Deactivation.ToolSessionID d) orelse BadUUID ;;
      require negb (Deactivation.Generation d =? 0) &&
              (Deactivation.Generation d <=? MaximumDeviceSessionGeneration) orelse BadGeneration ;;
      Ok d
  end.

Definition DecodeContextPayload (payload : object) (expectedNodeID : string) (now : time)
    : result device_error ContextPayload :=
  match decodeStrict Context_.fields Context_.zero payload with
  | None => Err PayloadMalformed
  | Some d =>
      require Context_.ProtocolVersion d =? protocolVersion orelse BadProtocol ;;
      let '(mode, policy, valid) := normalizeAndValidateAuthorization
        (Context_.AuthorizationMode d) (Context_.AuthorizationPolicyVersion d) true in
      let d := d <| Context_.AuthorizationMode := mode |>
                 <| Context_.AuthorizationPolicyVersion := policy |> in
      require valid orelse BadAuthorization ;;
      require forallb uuidPattern
        [Context_.UserID d; Context_.DeviceID d; Context_.ToolSessionID d;
         Context_.DeviceSessionID d; Context_.NodeID d] orelse BadUUID ;;
      require String.eqb expectedNodeID "" || String.eqb (Context_.NodeID d) expectedNodeID orelse WrongNode ;;
      require String.eqb (Context_.Platform d) "macos" && active_generation (Context_.Generation d)
        orelse BadGeneration ;;
      require ValidCapabilitiesForAuthorization (Context_.AuthorizationMode d)
        (Context_.AuthorizationPolicyVersion d) (visible (Context_.Capabilities d)) orelse BadCapabilities ;;
      match parse_rfc3339 (Context_.LeaseUntil d) with
      | Some lease =>
          require after lease now && negb (after lease (now + (5 * minute + 30 * second))) orelse BadLease ;;
          Ok d
      | None => Err BadLease
      end
  end.
