(* ===== verification/DeviceStore.v ===== *)
(** * Device control: activation files, session contexts and bridges

    The files a node keeps for device control and the manager of its local
    bridges, with the task handlers that change them:
    - activation files (src/internal/devicecontrol/activation.go: [Activate],
      [Deactivate], [loadManifest], [prepareRoot]);
    - the context file of a managed session, kept by the runtime helper
      (src/internal/runtimehelper/engine.go: [updateDeviceControlContext],
      [clearDeviceControlContext] and the functions they call);
    - [BridgeManager] (src/internal/devicecontrol/bridge.go);
    - the device-control cases of [executeKnownTask]
      (src/internal/worker/worker.go).

    Files are values of a map; what the host answers (errors of system calls,
    metadata of directories) is an input of each operation.  The file
    [<root>/<id>.json] is kept under the key [id]: identifiers are validated
    UUIDs, so different ones have different paths. *)

From S2P Require Import Prelude GoText GoTime GoJson GoUtf8 GoJsonText GoJsonValue GoJsonDecode GoJsonStruct.
From S2P Require Import Worker DevicePayload.
From Stdlib.Strings Require Import Ascii.

(** ** Files *)

Record disk_file := mkFile {
  regular : bool;          (* and not a symbolic link *)
  perm : Z;
  uid : Z;
  gid : Z;
  text : string
}.

#[global] Instance disk_file_eq_dec : EqDecision disk_file.
Proof. solve_decision. Defined.

(** No permission of group or others. *)
Definition private (p : Z) : bool := Z.land p 63 =? 0.

(** The outcome of reading a file: [NotExist] is [os.ErrNotExist]. *)
Inductive load_error := NotExist | LoadFailed.

#[global] Instance load_error_eq_dec : EqDecision load_error.
Proof. solve_decision. Defined.

(** The steps of replacing a file through a temporary one: creating it,
    setting its mode and owner, writing, syncing, closing and renaming it. *)
Record replace_io := mkReplace {
  create_ok : bool;
  chmod_ok : bool;
  chown_ok : bool;
  write_ok : bool;
  sync_ok : bool;
  close_ok : bool;
  rename_ok : bool;
  dir_sync_ok : bool
}.

Definition all_well : replace_io := mkReplace true true true true true true true true.

(** ** Activation files *)

Inductive store_error :=
  | RootUnusable | StaleGeneration | BindingChanged | FileUnreadable | WriteFailed | RemoveFailed
  | SessionMismatch.

#[global] Instance store_error_eq_dec : EqDecision store_error.
Proof. solve_decision. Defined.

(** What [os.Lstat] says of the root. *)
Inductive root_stat :=
  | RootMissing
  | RootStatError
  | RootInfo (is_dir is_symlink : bool) (perm : Z).

Definition prepareRoot (root : string) (st : root_stat) (mkdir_ok : bool) : bool :=
  if String.eqb root "" || negb (IsAbs root) then false
  else match st with
       | RootInfo is_dir is_symlink p => is_dir && negb is_symlink && private p
       | RootStatError => false
       | RootMissing => mkdir_ok
       end.

(** [json.MarshalIndent] of the payload and a newline. *)
Definition manifest_text (p : ActivatePayload) : string :=
  print_value indented 0 (encode_struct Activation.fields p) +:+ String (chr 10) "".

(** [read_ok]: opening, inspecting and reading the file raised no other error
    than its absence. *)
Definition loadManifest (read_ok : bool) (f : option disk_file) : result load_error ActivatePayload :=
  match f with
  | None => if read_ok then Err NotExist else Err LoadFailed
  | Some f =>
      require read_ok orelse LoadFailed ;;
      require regular f && private (perm f) && (len (text f) <=? maximumActivationManifestSize)
        orelse LoadFailed ;;
      match decodeStrictJSONObject Activation.fields Activation.zero (text f) with
      | Some p => Ok p
      | None => Err LoadFailed
      end
  end.

Abbreviation files := (gmap string disk_file) (only parsing).

(** The node's own user and group. *)
Definition manifest_file (owner group : Z) (p : ActivatePayload) : disk_file :=
  mkFile true 384 owner group (manifest_text p).

Record activation_io := mkActivationIO {
  root : string;
  root_state : root_stat;
  mkdir_ok : bool;
  read_ok : bool;
  replace : replace_io;
  remove_ok : bool;
  owner : Z;
  group : Z
}.

Definition replaced_ok (io : replace_io) : bool :=
  create_ok io && chmod_ok io && write_ok io && sync_ok io && close_ok io && rename_ok io.

Definition Activate (io : activation_io) (manifests : files) (payload : ActivatePayload)
    : files * result store_error unit :=
  if negb (prepareRoot (root io) (root_state io) (mkdir_ok io)) then (manifests, Err RootUnusable) else
  let id := Activation.DeviceSessionID payload in
  let store :=
    if replaced_ok (replace io)
    then (<[id := manifest_file (owner io) (group io) payload]> manifests, Ok tt)
    else (manifests, Err WriteFailed) in
  match loadManifest (read_ok io) (manifests !! id) with
  | Ok current =>
      if Activation.Generation payload <? Activation.Generation current then (manifests, Err StaleGeneration)
      else if Activation.Generation current =? Activation.Generation payload then
        (manifests, if bool_decide (current = payload) then Ok tt else Err BindingChanged)
      else store
  | Err NotExist => store
  | Err LoadFailed => (manifests, Err FileUnreadable)
  end.

Definition Deactivate (io : activation_io) (manifests : files) (payload : DeactivatePayload)
    : files * result store_error bool :=
  if negb (prepareRoot (root io) (root_state io) (mkdir_ok io)) then (manifests, Err RootUnusable) else
  let id := Deactivation.DeviceSessionID payload in
  match loadManifest (read_ok io) (manifests !! id) with
  | Err NotExist => (manifests, Ok false)
  | Err LoadFailed => (manifests, Err FileUnreadable)
  | Ok current =>
      if negb (String.eqb (Activation.ToolSessionID current) (Deactivation.ToolSessionID payload))
      then (manifests, Err SessionMismatch)
      else if Deactivation.Generation payload <? Activation.Generation current then (manifests, Ok false)
      else if remove_ok io then (delete id manifests, Ok true)
      else (manifests, Err RemoveFailed)
  end.

(** ** The context file of a managed session *)

Module Managed.
Record managedDeviceContext := mk {
  AuthorizationMode : string;
  AuthorizationPolicyVersion : Z;
  UserID : string;
  DeviceID : string;
  ToolSessionID : string;
  DeviceSessionID : string;
  NodeID : string;
  Platform : string;
  Generation : Z;
  NextSequence : Z;
  CurrentScreenshotGeneration : Z;
  CurrentStateGeneration : Z;
  Capabilities : strings;
  LeaseUntil : string
}.

#[global] Instance eq_dec : EqDecision managedDeviceContext.
Proof. solve_decision. Defined.

Definition fields : list (field managedDeviceContext) := [
  str_field "authorization_mode" AuthorizationMode (λ x r, r <| AuthorizationMode := x |>);
  int_field "authorization_policy_version" AuthorizationPolicyVersion
    (λ x r, r <| AuthorizationPolicyVersion := x |>);
  str_field "user_id" UserID (λ x r, r <| UserID := x |>);
  str_field "device_id" DeviceID (λ x r, r <| DeviceID := x |>);
  str_field "tool_session_id" ToolSessionID (λ x r, r <| ToolSessionID := x |>);
  str_field "device_session_id" DeviceSessionID (λ x r, r <| DeviceSessionID := x |>);
  str_field "node_id" NodeID (λ x r, r <| NodeID := x |>);
  str_field "platform" Platform (λ x r, r <| Platform := x |>);
  uint64_field "generation" Generation (λ x r, r <| Generation := x |>);
  uint64_field "next_sequence" NextSequence (λ x r, r <| NextSequence := x |>);
  uint64_field "current_screenshot_generation" CurrentScreenshotGeneration
    (λ x r, r <| CurrentScreenshotGeneration := x |>);
  uint64_field "current_state_generation" CurrentStateGeneration
    (λ x r, r <| CurrentStateGeneration := x |>);
  strings_field true "capabilities" Capabilities (λ x r, r <| Capabilities := x |>);
  str_field "lease_until" LeaseUntil (λ x r, r <| LeaseUntil := x |>)].

Definition zero : managedDeviceContext := mk "" 0 "" "" "" "" "" "" 0 0 0 0 no_strings "".
End Managed.
Export Managed(managedDeviceContext).

Record managedSessionContextSpec := mkSpec {
  SessionID : string;
  SpecUserID : string;
  DeviceControlProtocolVersion : Z;
  DeviceControlDirectory : string;
  RuntimeUID : Z;
  RuntimeGID : Z
}.

(** What [loadManagedSessionContextSpec] returns for a session. *)
Inductive spec_lookup := SpecMissing | SpecFailed | SpecFound (spec : managedSessionContextSpec).

(** What [os.Lstat] says of the directory of a session. *)
Inductive dir_stat := DirFailed | DirInfo (is_dir is_symlink : bool) (uid : Z).

Inductive context_error :=
  | PayloadRejected | SessionUnavailable | SessionDiffers | DirectoryUnsafe | ContextUnreadable
  | ContextStale | BindingDiffers | CapabilitiesDiffer | LeaseBackwards | ContextWriteFailed
  | ContextRemoveFailed.

#[global] Instance context_error_eq_dec : EqDecision context_error.
Proof. solve_decision. Defined.

(** The path of the context file.  The helper runs on Linux. *)
Definition validateDeviceControlContextPath (spec : managedSessionContextSpec) (st : dir_stat) : option string :=
  let directory := DeviceControlDirectory spec in
  if String.eqb directory "" || negb (String.eqb (Base directory) "device-control") then None
  else match st with
       | DirFailed => None
       | DirInfo is_dir is_symlink owner =>
           if is_dir && negb is_symlink && (owner =? 0) then Some (Join2 directory "context.json") else None
       end.

Definition loadManagedDeviceContext (readable : bool) (f : option disk_file) (spec : managedSessionContextSpec)
    : result load_error managedDeviceContext :=
  match f with
  | None => if readable then Err NotExist else Err LoadFailed
  | Some f =>
      require readable orelse LoadFailed ;;
      require regular f && private (perm f) && (len (text f) <=? 16 * 1024) orelse LoadFailed ;;
      require (uid f =? RuntimeUID spec) && (gid f =? RuntimeGID spec) orelse LoadFailed ;;
      match parse_json (text f) ≫= decode_known Managed.fields Managed.zero with
      | None => Err LoadFailed
      | Some c =>
          let c := if String.eqb (Managed.AuthorizationMode c) "" && (Managed.AuthorizationPolicyVersion c =? 0)
                   then c <| Managed.AuthorizationMode := AuthorizationModePerApplicationApproval |>
                          <| Managed.AuthorizationPolicyVersion := 1 |>
                   else c in
          require active_generation (Managed.Generation c) && negb (Managed.NextSequence c =? 0) &&
                  String.eqb (Managed.Platform c) "macos" &&
                  ValidCapabilitiesForAuthorization (Managed.AuthorizationMode c)
                    (Managed.AuthorizationPolicyVersion c) (visible (Managed.Capabilities c)) orelse LoadFailed ;;
          Ok c
      end
  end.

Definition context_text (c : managedDeviceContext) : string :=
  print_value indented 0 (encode_struct Managed.fields c) +:+ String (chr 10) "".

(** The file is replaced before its directory is synced. *)
Definition writeManagedDeviceContext (io : replace_io) (contexts : files) (path : string)
    (c : managedDeviceContext) (spec : managedSessionContextSpec) : files * result context_error unit :=
  if replaced_ok io && chown_ok io then
    (<[path := mkFile true 384 (RuntimeUID spec) (RuntimeGID spec) (context_text c)]> contexts,
     if dir_sync_ok io then Ok tt else Err ContextWriteFailed)
  else (contexts, Err ContextWriteFailed).

Definition sameDeviceControlBinding (left right : managedDeviceContext) : bool :=
  String.eqb (Managed.AuthorizationMode left) (Managed.AuthorizationMode right) &&
  (Managed.AuthorizationPolicyVersion left =? Managed.AuthorizationPolicyVersion right) &&
  String.eqb (Managed.UserID left) (Managed.UserID right) &&
  String.eqb (Managed.DeviceID left) (Managed.DeviceID right) &&
  String.eqb (Managed.ToolSessionID left) (Managed.ToolSessionID right) &&
  String.eqb (Managed.DeviceSessionID left) (Managed.DeviceSessionID right) &&
  String.eqb (Managed.NodeID left) (Managed.NodeID right) &&
  String.eqb (Managed.Platform left) (Managed.Platform right) &&
  (Managed.Generation left =? Managed.Generation right).

(** The context a payload asks for, and the one that continues [current]
    within its generation. *)
Definition fresh_context (d : ContextPayload) : managedDeviceContext :=
  Managed.mk (Context_.AuthorizationMode d) (Context_.AuthorizationPolicyVersion d) (Context_.UserID d)
    (Context_.DeviceID d) (Context_.ToolSessionID d) (Context_.DeviceSessionID d) (Context_.NodeID d)
    (Context_.Platform d) (Context_.Generation d) 1 0 0 (mkStrings (visible (Context_.Capabilities d)) [])
    (Context_.LeaseUntil d).

Definition lease_moves_back (current next : string) : bool :=
  match parse_rfc3339 current, parse_rfc3339 next with
  | Some t, Some t' => before t' t
  | _, _ => true
  end.

Definition continue_context (current c : managedDeviceContext) : result context_error managedDeviceContext :=
  require negb (Managed.Generation c <? Managed.Generation current) orelse ContextStale ;;
  if Managed.Generation current =? Managed.Generation c then
    require sameDeviceControlBinding current c orelse BindingDiffers ;;
    require bool_decide (visible (Managed.Capabilities current) = []) ||
            bool_decide (visible (Managed.Capabilities current) = visible (Managed.Capabilities c))
      orelse CapabilitiesDiffer ;;
    require negb (lease_moves_back (Managed.LeaseUntil current) (Managed.LeaseUntil c)) orelse LeaseBackwards ;;
    Ok (c <| Managed.NextSequence := Managed.NextSequence current |>
          <| Managed.CurrentScreenshotGeneration := Managed.CurrentScreenshotGeneration current |>
          <| Managed.CurrentStateGeneration := Managed.CurrentStateGeneration current |>)
  else Ok c.

Record context_io := mkContextIO {
  now_ : time;
  session_spec : spec_lookup;
  directory_stat : dir_stat;
  context_readable : bool;
  context_replace : replace_io;
  context_remove_ok : bool
}.

Definition updateDeviceControlContext (io : context_io) (contexts : files) (payload : object)
    : files * result context_error object :=
  match DecodeContextPayload payload "" (now_ io) with
  | Err _ => (contexts, Err PayloadRejected)
  | Ok d =>
      match session_spec io with
      | SpecMissing | SpecFailed => (contexts, Err SessionUnavailable)
      | SpecFound spec =>
          if negb ((DeviceControlProtocolVersion spec =? 1) &&
                   String.eqb (SessionID spec) (Context_.ToolSessionID d) &&
                   String.eqb (SpecUserID spec) (Context_.UserID d))
          then (contexts, Err SessionDiffers)
          else match validateDeviceControlContextPath spec (directory_stat io) with
          | None => (contexts, Err DirectoryUnsafe)
          | Some path =>
              match match loadManagedDeviceContext (context_readable io) (contexts !! path) spec with
                    | Ok current => continue_context current (fresh_context d)
                    | Err NotExist => Ok (fresh_context d)
                    | Err LoadFailed => Err ContextUnreadable
                    end with
              | Err e => (contexts, Err e)
              | Ok c =>
                  let '(contexts', written) :=
                    writeManagedDeviceContext (context_replace io) contexts path c spec in
                  (contexts',
                   match written with
                   | Err e => Err e
                   | Ok _ => Ok [("device_session_id", VStr (Managed.DeviceSessionID c));
                                 ("generation", VNum (itoa (Managed.Generation c)));
                                 ("status", VStr "updated");
                                 ("tool_session_id", VStr (Managed.ToolSessionID c))]
                   end)
              end
          end
      end
  end.

Module Clear.
Record clearDeviceControlContextPayload := mk {
  DeviceSessionID : string;
  ToolSessionID : string;
  Generation : Z;
  Inclusive : bool
}.

Definition fields : list (field clearDeviceControlContextPayload) := [
  str_field "device_session_id" DeviceSessionID (λ x r, r <| DeviceSessionID := x |>);
  str_field "tool_session_id" ToolSessionID (λ x r, r <| ToolSessionID := x |>);
  uint64_field "generation" Generation (λ x r, r <| Generation := x |>);
  bool_field "inclusive" Inclusive (λ x r, r <| Inclusive := x |>)].

Definition zero : clearDeviceControlContextPayload := mk "" "" 0 false.
End Clear.
Export Clear(clearDeviceControlContextPayload).

(** [DecodeDeactivatePayload] of the identifiers of a clear request. *)
Definition clear_target (d : clearDeviceControlContextPayload) : object :=
  [("device_session_id", VStr (Clear.DeviceSessionID d)); ("generation", VNum (itoa (Clear.Generation d)));
   ("tool_session_id", VStr (Clear.ToolSessionID d))].

Definition cleared (removed : bool) (bridge : option string) : object :=
  match bridge with Some path => [("bridge_socket_path", VStr path)] | None => [] end ++
  [("removed", VBool removed); ("status", VStr "cleared")].

Definition clearDeviceControlContext (io : context_io) (contexts : files) (payload : object)
    : files * result context_error object :=
  match decodeStrict Clear.fields Clear.zero payload with
  | None => (contexts, Err PayloadRejected)
  | Some d =>
      if negb (is_ok (DecodeDeactivatePayload (clear_target d))) then (contexts, Err PayloadRejected) else
      match session_spec io with
      | SpecMissing => (contexts, Ok (cleared false None))
      | SpecFailed => (contexts, Err SessionUnavailable)
      | SpecFound spec =>
          if negb ((DeviceControlProtocolVersion spec =? 1) &&
                   String.eqb (SessionID spec) (Clear.ToolSessionID d))
          then (contexts, Err SessionDiffers)
          else match validateDeviceControlContextPath spec (directory_stat io) with
          | None => (contexts, Err DirectoryUnsafe)
          | Some path =>
              let bridge := Some (Join2 (DeviceControlDirectory spec) "bridge.sock") in
              match loadManagedDeviceContext (context_readable io) (contexts !! path) spec with
              | Err NotExist => (contexts, Ok (cleared false bridge))
              | Err LoadFailed => (contexts, Err ContextUnreadable)
              | Ok current =>
                  if negb (String.eqb (Managed.ToolSessionID current) (Clear.ToolSessionID d) &&
                           String.eqb (Managed.DeviceSessionID current) (Clear.DeviceSessionID d))
                  then (contexts, Err BindingDiffers)
                  else if (Clear.Generation d <? Managed.Generation current) ||
                          (negb (Clear.Inclusive d) && (Managed.Generation current =? Clear.Generation d))
                  then (contexts, Ok (cleared false bridge))
                  else if context_remove_ok io then (delete path contexts, Ok (cleared true bridge))
                  else (contexts, Err ContextRemoveFailed)
              end
          end
      end
  end.

(** ** Bridges

    The sessions of [BridgeManager]; each stands for a listener that lives
    until the session is stopped or its activation expires. *)

Abbreviation bridges := (gmap (string * Z) ActivatePayload) (only parsing).

(** What [os.Lstat] says of the socket path. *)
Inductive socket_stat := SocketMissing | SocketStatFailed | SocketPresent (is_socket : bool).

Record bridge_io := mkBridgeIO {
  socket_dir : dir_stat;
  socket_state : socket_stat;
  socket_removed : bool;
  listening : bool;
  socket_chmod_ok : bool;
  start_time : time
}.

Inductive bridge_error := BadSocketPath | BridgeStale | SocketUnusable | BridgeExpired.

#[global] Instance bridge_error_eq_dec : EqDecision bridge_error.
Proof. solve_decision. Defined.

Definition validateBridgeSocketPath (path : string) (st : dir_stat) : bool :=
  IsAbs path && String.eqb (Base path) "bridge.sock" &&
  match st with DirFailed => false | DirInfo is_dir is_symlink _ => is_dir && negb is_symlink end.

Definition Stop (sessions : bridges) (key : string * Z) : bridges := delete key sessions.

(** Stops the sessions a condition selects. *)
Definition stop_where (selected : string * Z → ActivatePayload → bool) (sessions : bridges) : bridges :=
  foldl Stop sessions (map fst (List.filter (λ s, selected s.1 s.2) (map_to_list sessions))).

Definition shares_session (a : ActivatePayload) (current : ActivatePayload) : bool :=
  String.eqb (Activation.DeviceSessionID current) (Activation.DeviceSessionID a) ||
  String.eqb (Activation.ToolSessionID current) (Activation.ToolSessionID a).

Definition newer (a : ActivatePayload) (current : ActivatePayload) : bool :=
  String.eqb (Activation.DeviceSessionID current) (Activation.DeviceSessionID a) &&
  (Activation.Generation a <? Activation.Generation current).

Definition stopConflictingActivations (sessions : bridges) (a : ActivatePayload) : result bridge_error bridges :=
  require negb (existsb (λ s, newer a s.2) (map_to_list sessions)) orelse BridgeStale ;;
  Ok (stop_where (λ _, shares_session a) sessions).

Definition StopThrough (sessions : bridges) (deviceSessionID : string) (generation : Z) : bridges :=
  stop_where (λ key _, String.eqb key.1 deviceSessionID && (key.2 <=? generation)) sessions.

Definition StopToolSession (sessions : bridges) (toolSessionID : string) : bridges :=
  stop_where (λ _ a, String.eqb (Activation.ToolSessionID a) toolSessionID) sessions.

Definition StopAll (sessions : bridges) : bridges := stop_where (λ _ _, true) sessions.

Definition Start (io : bridge_io) (sessions : bridges) (a : ActivatePayload) (socketPath : string)
    : bridges * result bridge_error unit :=
  if negb (validateBridgeSocketPath socketPath (socket_dir io)) then (sessions, Err BadSocketPath) else
  match stopConflictingActivations sessions a with
  | Err e => (sessions, Err e)
  | Ok sessions =>
      if negb match socket_state io with
              | SocketMissing => true
              | SocketStatFailed => false
              | SocketPresent is_socket => is_socket && socket_removed io
              end
      then (sessions, Err SocketUnusable)
      else if negb (listening io && socket_chmod_ok io) then (sessions, Err SocketUnusable)
      else if negb (future (Activation.ExpiresAt a) (start_time io)) then (sessions, Err BridgeExpired)
      else (<[(Activation.DeviceSessionID a, Activation.Generation a) := a]> sessions, Ok tt)
  end.

(** ** The task handlers of the worker *)

Record device_state := mkDevice {
  manifests : files;
  contexts : files;
  sessions : bridges
}.

(** How far a call of the runtime helper got. *)
Inductive delivery := Undelivered | AnswerLost | Answered.

Definition callRuntimeHelperExact (d : delivery) (run : files → files * result context_error object)
    (contexts : files) : files * option object :=
  match d with
  | Undelivered => (contexts, None)
  | AnswerLost => ((run contexts).1, None)
  | Answered =>
      let '(contexts, r) := run contexts in
      (contexts, match r with Ok answer => Some answer | Err _ => None end)
  end.

Inductive handler_error :=
  | TaskRejected (e : device_error) | BackendRefused | HelperFailed | StoreFailed (e : store_error)
  | BridgePathMissing | BridgeFailed (e : bridge_error).

Record task_env := mkTaskEnv {
  NodeID_ : string;
  AllowedRuntimeBackends : list string;
  task_time : time;
  call : delivery;
  helper : context_io;
  storage : activation_io;
  bridge : bridge_io
}.

Definition clear_request (deviceSessionID toolSessionID : string) (generation : Z) (inclusive : bool) : object :=
  [("device_session_id", VStr deviceSessionID); ("generation", VNum (itoa generation));
   ("inclusive", VBool inclusive); ("tool_session_id", VStr toolSessionID)].

Definition activate_device_control (env : task_env) (s : device_state) (payload : object)
    : device_state * result handler_error object :=
  match DecodeActivatePayload payload (NodeID_ env) (task_time env) with
  | Err e => (s, Err (TaskRejected e))
  | Ok p =>
      if negb (requireBackend (AllowedRuntimeBackends env) (Activation.RuntimeBackend p))
      then (s, Err BackendRefused) else
      let request := clear_request (Activation.DeviceSessionID p) (Activation.ToolSessionID p)
                       (Activation.Generation p) false in
      let '(files1, answer) := callRuntimeHelperExact (call env)
        (λ c, clearDeviceControlContext (helper env) c request) (contexts s) in
      let s := s <| contexts := files1 |> in
      match answer with
      | None => (s, Err HelperFailed)
      | Some answer =>
          let '(files2, stored) := Activate (storage env) (manifests s) p in
          let s := s <| manifests := files2 |> in
          match stored with
          | Err e => (s, Err (StoreFailed e))
          | Ok _ =>
              match get "bridge_socket_path" answer with
              | Some (VStr path) =>
                  if String.eqb path "" then (s, Err BridgePathMissing) else
                  let '(live, started) := Start (bridge env) (sessions s) p path in
                  let s := s <| sessions := live |> in
                  match started with
                  | Err e => (s, Err (BridgeFailed e))
                  | Ok _ =>
                      (s, Ok [("device_session_id", VStr (Activation.DeviceSessionID p));
                              ("generation", VNum (itoa (Activation.Generation p)));
                              ("status", VStr "activated");
                              ("tool_session_id", VStr (Activation.ToolSessionID p))])
                  end
              | _ => (s, Err BridgePathMissing)
              end
          end
      end
  end.

Definition deactivate_device_control (env : task_env) (s : device_state) (payload : object)
    : device_state * result handler_error object :=
  match DecodeDeactivatePayload payload with
  | Err e => (s, Err (TaskRejected e))
  | Ok p =>
      let s := s <| sessions :=
        StopThrough (sessions s) (Deactivation.DeviceSessionID p) (Deactivation.Generation p) |> in
      let request := clear_request (Deactivation.DeviceSessionID p) (Deactivation.ToolSessionID p)
                       (Deactivation.Generation p) true in
      let '(files1, answer) := callRuntimeHelperExact (call env)
        (λ c, clearDeviceControlContext (helper env) c request) (contexts s) in
      let s := s <| contexts := files1 |> in
      match answer with
      | None => (s, Err HelperFailed)
      | Some _ =>
          let '(files2, removed) := Deactivate (storage env) (manifests s) p in
          let s := s <| manifests := files2 |> in
          match removed with
          | Err e => (s, Err (StoreFailed e))
          | Ok removed =>
              (s, Ok [("device_session_id", VStr (Deactivation.DeviceSessionID p));
                      ("generation", VNum (itoa (Deactivation.Generation p)));
                      ("removed", VBool removed); ("status", VStr "deactivated")])
          end
      end
  end.

(** The helper's answer becomes the task's result. *)
Definition update_device_control_context (env : task_env) (s : device_state) (payload : object)
    : device_state * result handler_error unit :=
  match DecodeContextPayload payload (NodeID_ env) (task_time env) with
  | Err e => (s, Err (TaskRejected e))
  | Ok p =>
      match decode_value (print_value compact 0 (encode_struct Context_.fields p)) with
      | Some (VObj request) =>
          let '(files1, answer) := callRuntimeHelperExact (call env)
            (λ c, updateDeviceControlContext (helper env) c request) (contexts s) in
          (s <| contexts := files1 |>,
           match answer with Some _ => Ok tt | None => Err HelperFailed end)
      | _ => (s, Err HelperFailed)
      end
  end.
