(* ===== verification/DeviceCodec.v ===== *)
(** * Device control: payloads and files read back

    What the strict decoders accept, and that activation and context files
    are read back as they were written. *)

From S2P Require Import Prelude GoText GoTime GoJson GoUtf8 GoJsonText GoJsonValue GoJsonDecode GoJsonStruct.
From S2P Require Import Worker DevicePayload DeviceStore.
From Stdlib.Strings Require Import Ascii.

#[local] Arguments parse_rfc3339 : simpl never.
#[local] Arguments uuidPattern : simpl never.
#[local] Arguments resourcePattern : simpl never.

(** ** Strict struct decoding *)

Lemma assign_fields_known {R} names (assign : string → string → json → R → option R) l r :
  Forall (λ f, is_some (match_field names f.1.1) = true) l →
  assign_fields names assign l r = assign_known names assign l r.
Proof.
  intros Hl. revert r. induction Hl as [|[[k raw] j] l Hk _ IH]; intros r; [done|].
  cbn [assign_fields assign_known fst snd] in *. destruct (match_field names k); [|done]. cbn [mbind option_bind].
  destruct (assign _ raw j r); cbn; [apply IH|done].
Qed.

(** The strict decoder reads what the lax one reads from a struct's own object. *)
Lemma known_carried {R} (fields : list (field R)) zero r :
  carried (encode_struct fields r) (λ _ _, decode_struct fields zero) r →
  carried (encode_struct fields r) (λ _ _, decode_known fields zero) r.
Proof.
  intros (Hf & Hd & Hdec). split_and!; [done|done|]. intros v' _ st d Hst Hs.
  pose proof (Hdec v' r st d Hst Hs) as Hlax.
  apply same_keys in Hs as (l & -> & _ & Hx). unfold decode_known, decode_struct in *. cbn [tree] in *.
  cbn [struct_of_json lax_struct_of_json] in *. rewrite assign_fields_known; [done|].
  apply list.Forall_forall. intros f (m & -> & Hm)%list_elem_of_fmap. cbn [fst].
  destruct (Hx m.1 m.2) as (y & (g & Hg & Hn & _)%encode_member & _); [by destruct m|].
  cbn [fst] in Hn. by rewrite <- Hn, match_field_name.
Qed.

Lemma known_inv {R} (P : R → Prop) (fields : list (field R)) zero dep j r :
  Forall (λ f, ∀ acc raw j' dep' x, P acc → decoded dep' j' →
    fdec f (fget f acc) raw j' = Some x → P (fset f x acc)) fields →
  P zero → decoded dep j → decode_known fields zero j = Some r → P r.
Proof.
  intros Hf Hz Hj. unfold decode_known. destruct Hj as [| | | | |dep l Hl]; cbn [struct_of_json]; try done.
  { by intros [= <-]. }
  revert zero Hz. induction Hl as [|[[k raw] y] l [_ Hy] _ IH]; intros acc Hacc; [by intros [= <-]|].
  cbn [assign_fields fst snd] in *. destruct (match_field (names fields) k) as [name|]; [|done].
  cbn [mbind option_bind]. destruct (assign_member fields name raw y acc) as [acc'|] eqn:E; [|done].
  cbn [mbind option_bind]. apply IH. clear IH. induction fields as [|f fs IHf]; cbn in E; [by injection E as <-|].
  apply list.Forall_cons in Hf as [Hf Hfs]. destruct (String.eqb name (fname f)); [|by apply IHf].
  destruct (fdec f _ _ _) as [x|] eqn:Ex; [|done]. injection E as <-. by eapply Hf.
Qed.

Lemma string_decoded current dep j s :
  valid_utf8 (codes current) = true → decoded dep j → string_of_json current j = Some s →
  valid_utf8 (codes s) = true.
Proof. by destruct 2; cbn; try done; intros [= <-]. Qed.

(** A struct field that is one text, among others. *)
Lemma text_decoded {R} (fields : list (field R)) zero (get : R → string) payload r :
  Forall (λ f, (∀ x acc, get (fset f x acc) = get acc) ∨
    ∀ acc raw j dep x, valid_utf8 (codes (get acc)) = true → decoded dep j →
      fdec f (fget f acc) raw j = Some x → valid_utf8 (codes (get (fset f x acc))) = true) fields →
  valid_utf8 (codes (get zero)) = true →
  decodeStrict fields zero payload = Some r → valid_utf8 (codes (get r)) = true.
Proof.
  intros Hf Hz. unfold decodeStrict. destruct (encodable (VObj payload)); [|done].
  destruct (parse_json _) as [j|] eqn:Hj; [|done]. cbn [mbind option_bind].
  apply (known_inv (λ r, valid_utf8 (codes (get r)) = true) _ _ max_depth);
    [|done|by eapply parse_json_decoded].
  eapply list.Forall_impl; [exact Hf|]. intros f [Hk|Hd] acc raw j' dep x Hacc Hj' Hx.
  - by rewrite Hk.
  - by eapply Hd.
Qed.

Ltac one_text := repeat (apply Forall_cons_2;
  [first [by left
         | right; cbn; intros ? ? ? ? ? ? ? ?; by eapply string_decoded]|]); apply Forall_nil_2.

Lemma uuid_text s : uuidPattern s = true → valid_utf8 (codes s) = true.
Proof.
  intros H. apply ascii_utf8. eapply classes_ascii; [|exact H]. cbn [replicate app].
  repeat (apply Forall_cons_2;
    [first [exact hex_ascii | intros c; by destruct c as [[] [] [] [] [] [] [] []]]|]). constructor.
Qed.

Lemma resource_text s : resourcePattern s = true → valid_utf8 (codes s) = true.
Proof.
  unfold resourcePattern. rewrite !andb_true_iff. intros [_ H]. apply ascii_utf8. revert H.
  apply all_chars_impl. intros c. by destruct c as [[] [] [] [] [] [] [] []].
Qed.

(** ** Well-formed activations and contexts *)

Record authorized (mode : string) (policy : Z) : Prop := {
  mode_known : mode = AuthorizationModePerApplicationApproval ∨ mode = AuthorizationModeSessionFullTrust;
  policy_known : policy = 1
}.

Record well_formed (node : string) (p : ActivatePayload) : Prop := {
  wf_protocol : Activation.ProtocolVersion p = 1;
  wf_authorization : authorized (Activation.AuthorizationMode p) (Activation.AuthorizationPolicyVersion p);
  wf_user : uuidPattern (Activation.UserID p) = true;
  wf_device : uuidPattern (Activation.DeviceID p) = true;
  wf_tool_session : uuidPattern (Activation.ToolSessionID p) = true;
  wf_device_session : uuidPattern (Activation.DeviceSessionID p) = true;
  wf_node_id : uuidPattern (Activation.NodeID p) = true;
  wf_node : Activation.NodeID p = node;
  wf_platform : Activation.Platform p = "macos";
  wf_generation : 0 < Activation.Generation p < MaximumDeviceSessionGeneration;
  wf_backend : Activation.RuntimeBackend p = "native" ∨ Activation.RuntimeBackend p = "docker_sandbox";
  wf_resource : Activation.RuntimeResourceID p = "" ∨ resourcePattern (Activation.RuntimeResourceID p) = true;
  wf_expiry : is_some (parse_rfc3339 (Activation.ExpiresAt p)) = true;
  wf_expiry_text : valid_utf8 (codes (Activation.ExpiresAt p)) = true
}.

Lemma normalize_authorized mode policy mode' policy' :
  normalizeAndValidateAuthorization mode policy true = (mode', policy', true) → authorized mode' policy'.
Proof.
  unfold normalizeAndValidateAuthorization. case_match. intros [= <- <- Hv].
  apply andb_true_iff in Hv as [Hm Hp%Z.eqb_eq]. split; [|done].
  apply orb_true_iff in Hm as [->%String.eqb_eq| ->%String.eqb_eq]; [by left|by right].
Qed.

Lemma uint64_nonneg current j z : uint64_of_json current j = Some z → 0 ≤ current → 0 ≤ z.
Proof.
  assert (∀ s acc v, digits_value acc s = Some v → 0 ≤ acc → 0 ≤ v) as Hd.
  { induction s as [|c s IH]; cbn; [by intros ? ? [= ->]|]. intros acc v. destruct (is_digit c) eqn:Hc; [|done].
    intros H Ha. eapply IH; [exact H|]. unfold is_digit, in_range in Hc. apply andb_true_iff in Hc as [Hc _].
    apply Z.leb_le in Hc. change (code "0") with 48 in Hc. lia. }
  destruct j as [| |literal| | |]; try done; [by intros [= ->]|]. intros H _.
  assert ((z' ← digits_value 0 literal; if z' <=? max_uint64 then Some z' else None) = Some z) as H'.
  { destruct literal as [|c s]; [done|]. destruct c as [[] [] [] [] [] [] [] []]; (exact H || done). }
  destruct (digits_value 0 literal) as [v|] eqn:E; [|done]. cbn in H'. case_match; [|done].
  injection H' as <-. by eapply Hd.
Qed.

Lemma DecodeActivate_wf payload node now p :
  DecodeActivatePayload payload node now = Ok p →
  well_formed node p ∧ future (Activation.ExpiresAt p) now = true.
Proof.
  unfold DecodeActivatePayload. destruct (decodeStrict _ _ payload) as [d|] eqn:Hd; [|done].
  assert (Htext : valid_utf8 (codes (Activation.ExpiresAt d)) = true).
  { eapply (text_decoded Activation.fields _ Activation.ExpiresAt); [one_text| |exact Hd]. done. }
  assert (Hgen : 0 ≤ Activation.Generation d).
  { unfold decodeStrict in Hd. destruct (encodable _); [|done].
    destruct (parse_json _) as [j|] eqn:Hj; [|done]. cbn [mbind option_bind] in Hd.
    apply (known_inv (λ r, 0 ≤ Activation.Generation r) Activation.fields Activation.zero max_depth j);
      [|done|by eapply parse_json_decoded|done].
    repeat (apply Forall_cons_2; [intros acc raw j' dep x Hacc _; cbn;
      first [done | intros Hx; by eapply uint64_nonneg]|]). constructor. }
  destruct (normalizeAndValidateAuthorization _ _ true) as [[mode policy] valid] eqn:Hn.
  intros H. go_inv H. apply Ok_inj in H as <-. cbn in *. subst valid.
  apply normalize_authorized in Hn.
  unfold active_generation, MaximumActiveDeviceSessionGeneration in *. reflect_bools.
  split; [|done]. rewrite !String.eqb_eq in *.
  constructor; cbn; try done.
  - lia.
  - unfold future in *. by destruct (parse_rfc3339 _).
Qed.

(** ** Activation files *)

Lemma carries_uint64 {R} name get set (r : R) :
  valid_utf8 (codes name) = true → 0 ≤ get r ≤ max_uint64 → carries r (uint64_field name get set).
Proof.
  intros Hn Hz. split; [done|]. intros v [= <-]. split_and!; [by apply number_itoa|done|].
  intros v' current st d Hst. inversion 1; subst. by apply uint_of_itoa.
Qed.

Lemma generation_uint64 g : 0 < g < MaximumDeviceSessionGeneration → 0 ≤ g ≤ max_uint64.
Proof. unfold MaximumDeviceSessionGeneration, max_uint64. change (Z.shiftl 1 63) with (2 ^ 63). lia. Qed.

Lemma authorized_text mode policy : authorized mode policy → valid_utf8 (codes mode) = true ∧ policy = 1.
Proof. by intros [[-> | ->] ->]. Qed.

Lemma activation_carried node p :
  well_formed node p →
  carried (encode_struct Activation.fields p) (λ _ _, decode_known Activation.fields Activation.zero) p.
Proof.
  intros [Hv Ha Hu Hd Ht Hs Hn _ Hp Hg Hb Hr _ He].
  apply uuid_text in Hu, Hd, Ht, Hs, Hn. apply authorized_text in Ha as [Ham Hap].
  apply generation_uint64 in Hg.
  assert (Hres : valid_utf8 (codes (Activation.RuntimeResourceID p)) = true)
    by (destruct Hr as [->|Hr]; [done|by apply resource_text]).
  assert (Hback : valid_utf8 (codes (Activation.RuntimeBackend p)) = true) by (by destruct Hb as [-> | ->]).
  assert (Hplat : valid_utf8 (codes (Activation.Platform p)) = true) by (by rewrite Hp).
  assert (Hint : ∀ z, z = 1 → 0 ≤ z ≤ max_int64) by (intros z ->; unfold max_int64; lia).
  apply known_carried, struct_carried.
  - solve_disjoint.
  - repeat (apply Forall_cons_2;
      [first [by apply carries_str|by apply carries_uint64|by apply carries_str_omit
             |apply carries_int; [done|by apply Hint]]|]); constructor.
  - unfold rebuild, present. destruct p; cbn in *.
    destruct (String.eqb_spec RuntimeResourceID ""); subst; done.
Qed.

Lemma activation_height p : (height (encode_struct Activation.fields p) ≤ 1)%nat.
Proof. apply struct_height. solve_heights. Qed.

Lemma max_depth_pos : (1 ≤ max_depth)%nat.
Proof. unfold max_depth. lia. Qed.

(** A strict object decoder reads the text of an object back. *)
Lemma strict_object_print {R} (fields : list (field R)) zero r st w :
  white_style st →
  carried (encode_struct fields r) (λ _ _, decode_known fields zero) r →
  (height (encode_struct fields r) ≤ 1)%nat → white w →
  decodeStrictJSONObject fields zero (print_value st 0 (encode_struct fields r) +:+ w) = Some r.
Proof.
  intros Hst (Hf & Hd & Hdec) Hh Hw. unfold decodeStrictJSONObject.
  rewrite parse_print; [|done|done|pose proof max_depth_pos; lia|done].
  cbn [mbind option_bind]. unfold encode_struct in Hd |- *. apply distinct_obj in Hd as [Hn _].
  cbn [tree rejectDuplicateJSONObjectKeys]. rewrite bool_decide_eq_true_2.
  - apply (Hdec (encode_struct fields r) r st 0%nat Hst). constructor.
  - by rewrite map_map.
Qed.

Lemma newline_white : white (String (chr 10) "").
Proof. done. Qed.

Definition fits (p : ActivatePayload) : bool := len (manifest_text p) <=? maximumActivationManifestSize.

(** An activation file is read back as the activation it was written for, if
    it is not larger than the reader allows. *)
Lemma loadManifest_file node p o g :
  well_formed node p →
  loadManifest true (Some (manifest_file o g p)) = if fits p then Ok p else Err LoadFailed.
Proof.
  intros Hp. unfold loadManifest, manifest_file, fits. cbn [regular perm text].
  change (private 384) with true. cbn [andb]. destruct (len (manifest_text p) <=? _); [|done].
  unfold manifest_text. rewrite strict_object_print; [done| | | |].
  - apply indented_white.
  - by eapply activation_carried.
  - apply activation_height.
  - apply newline_white.
Qed.

Lemma loadManifest_inv node ok p o g q :
  well_formed node p → loadManifest ok (Some (manifest_file o g p)) = Ok q → q = p ∧ fits p = true.
Proof.
  intros Hp. destruct ok; [|done]. rewrite (loadManifest_file node) by done.
  destruct (fits p); [|done]. by intros [= ->].
Qed.

(** ** Context files *)

Record proper_context (c : managedDeviceContext) : Prop := {
  pc_authorization : authorized (Managed.AuthorizationMode c) (Managed.AuthorizationPolicyVersion c);
  pc_user : uuidPattern (Managed.UserID c) = true;
  pc_device : uuidPattern (Managed.DeviceID c) = true;
  pc_tool_session : uuidPattern (Managed.ToolSessionID c) = true;
  pc_device_session : uuidPattern (Managed.DeviceSessionID c) = true;
  pc_node : uuidPattern (Managed.NodeID c) = true;
  pc_platform : Managed.Platform c = "macos";
  pc_generation : active_generation (Managed.Generation c) = true ∧ 0 ≤ Managed.Generation c;
  pc_sequence : 0 < Managed.NextSequence c ≤ max_uint64;
  pc_screenshot : 0 ≤ Managed.CurrentScreenshotGeneration c ≤ max_uint64;
  pc_state : 0 ≤ Managed.CurrentStateGeneration c ≤ max_uint64;
  pc_capabilities : ValidCapabilitiesForAuthorization (Managed.AuthorizationMode c)
    (Managed.AuthorizationPolicyVersion c) (visible (Managed.Capabilities c)) = true;
  pc_spare : spare (Managed.Capabilities c) = [];
  pc_lease : is_some (parse_rfc3339 (Managed.LeaseUntil c)) = true;
  pc_lease_text : valid_utf8 (codes (Managed.LeaseUntil c)) = true
}.

Lemma valid_capabilities_cases mode policy l :
  ValidCapabilitiesForAuthorization mode policy l = true →
  l = [] ∨ l = requiredCapabilitiesV2 ∨ l = legacyCapabilitiesV2 ∨ l = capabilitiesV2.
Proof. unfold ValidCapabilitiesForAuthorization. repeat case_match; try done; reflect_bools; tauto. Qed.

Lemma generation_bounds g : active_generation g = true → 0 ≤ g → 0 < g ≤ max_uint64.
Proof.
  unfold active_generation, MaximumActiveDeviceSessionGeneration, MaximumDeviceSessionGeneration, max_uint64.
  change (Z.shiftl 1 63) with (2 ^ 63). reflect_bools. lia.
Qed.

Lemma context_faithful c : proper_context c → faithful (encode_struct Managed.fields c).
Proof.
  intros [Ha Hu Hd Ht Hs Hn Hp [Hg Hg0] Hq Hs1 Hs2 Hc _ _ Hl].
  apply uuid_text in Hu, Hd, Ht, Hs, Hn. apply authorized_text in Ha as [Ham Hap].
  pose proof (generation_bounds _ Hg Hg0). apply faithful_obj.
  unfold encode_field. cbn. rewrite Hp, Hap.
  repeat (apply Forall_cons_2; [split; [done|]|]); try done; cbn [fst snd].
  all: try (apply number_itoa; unfold max_uint64 in *; lia).
  destruct (valid_capabilities_cases _ _ _ Hc) as [-> | [-> | [-> | ->]]]; apply faithful_arr;
    repeat (apply Forall_cons_2; [by vm_compute|]); constructor.
Qed.

Lemma context_height c : (height (encode_struct Managed.fields c) ≤ 2)%nat.
Proof.
  apply struct_height.
  repeat (apply Forall_cons_2; [intros v; cbn; repeat case_match; intros [= <-]; cbn; try lia|]);
    [|constructor].
  apply le_n_S, list_max_le, list.Forall_forall. intros h (m & -> & (x & -> & _)%list_elem_of_fmap)%list_elem_of_fmap.
  cbn. lia.
Qed.

(** Reading the members of a struct in the order they are written, when what
    a field reads may depend on the value it has. *)
Fixpoint reads_in_order {R} st d (r : R) (l : list (field R)) (acc : R) : Prop :=
  match l with
  | [] => True
  | f :: l' =>
      match fenc f (fget f r) with
      | Some v =>
          fdec f (fget f acc) (print_value st d v) (tree st d v) = Some (fget f r) ∧
          reads_in_order st d r l' (copy_field r acc f)
      | None => reads_in_order st d r l' acc
      end
  end.

Lemma decode_in_order {R} (fields : list (field R)) zero r st d :
  disjoint_fields fields → reads_in_order st (S d) r fields zero →
  decode_known fields zero (tree st d (encode_struct fields r)) = Some (rebuild fields zero r).
Proof.
  intros Hd. unfold decode_known, encode_struct, rebuild. cbn [tree struct_of_json].
  assert (∀ l acc, l ⊆ fields → reads_in_order st (S d) r l acc →
    assign_fields (names fields) (assign_member fields)
      (map (λ f : string * value, (f.1, print_value st (S d) f.2, tree st (S d) f.2)) (flat_map (encode_field r) l)) acc
    = Some (foldl (copy_field r) acc (List.filter (present r) l))) as H; [|intros Hr; by apply H].
  induction l as [|f l IH]; intros acc Hl; [done|]. cbn [reads_in_order flat_map List.filter].
  assert (Hf : f ∈ fields) by (apply Hl; by left).
  assert (Hsub : l ⊆ fields) by (intros x Hx; apply Hl; by right).
  unfold encode_field at 1, present at 1. destruct (fenc f (fget f r)) as [v|] eqn:Ev; [|by apply IH].
  intros [Hdec Hrest]. cbn [app map fst snd assign_fields is_some foldl].
  rewrite match_field_name by done. cbn [mbind option_bind].
  rewrite assign_member_field, Hdec by done. cbn [mbind option_bind]. by apply IH.
Qed.

Lemma context_disjoint : disjoint_fields Managed.fields.
Proof. solve_disjoint. Qed.

Lemma reads_carried {R} st d (r : R) f l acc :
  white_style st → carries r f → present r f = true → reads_in_order st d r l (copy_field r acc f) →
  reads_in_order st d r (f :: l) acc.
Proof.
  intros Hst [_ Hc] Hp Hl. cbn [reads_in_order]. unfold present in Hp.
  destruct (fenc f (fget f r)) as [v|]; [|done]. split; [|done].
  destruct (Hc v eq_refl) as (_ & _ & Hdec). by apply Hdec; [|constructor].
Qed.

Lemma reads_strings st d {R} name get set (r : R) l acc :
  get acc = no_strings → spare (get r) = [] →
  reads_in_order st d r l (copy_field r acc (strings_field true name get set)) →
  reads_in_order st d r (strings_field true name get set :: l) acc.
Proof.
  intros Ha Hs Hl. cbn [reads_in_order strings_field fenc fget fdec]. split; [|done]. rewrite Ha.
  destruct (get r) as [vis sp]. cbn in Hs |- *. subst sp.
  assert (Hitems : ∀ items, items_of_json [] (map (tree st (S d)) (map VStr items)) = Some items).
  { induction items as [|x items IH]; [done|]. cbn. by rewrite IH. }
  destruct vis as [|x vis]; [done|]. cbn.
  by rewrite (Hitems vis).
Qed.

Lemma context_decoded c :
  proper_context c →
  decode_known Managed.fields Managed.zero (tree indented 0 (encode_struct Managed.fields c)) = Some c.
Proof.
  intros [Ha Hu Hd Ht Hs Hn Hp [Hg Hg0] Hq Hs1 Hs2 _ Hsp _ Hl].
  apply uuid_text in Hu, Hd, Ht, Hs, Hn. apply authorized_text in Ha as [Ham Hap].
  pose proof (generation_bounds _ Hg Hg0) as Hgen.
  assert (Hpl : valid_utf8 (codes (Managed.Platform c)) = true) by (by rewrite Hp).
  assert (Hint : 0 ≤ Managed.AuthorizationPolicyVersion c ≤ max_int64) by (rewrite Hap; unfold max_int64; lia).
  rewrite decode_in_order; [by destruct c|apply context_disjoint|]. unfold Managed.fields.
  repeat (apply reads_carried;
    [apply indented_white|first [by apply carries_str|by apply carries_int|apply carries_uint64; [done|lia]]|done|]).
  apply reads_strings; [done|done|].
  apply reads_carried; [apply indented_white|by apply carries_str|done|done].
Qed.

Definition context_fits (c : managedDeviceContext) : bool := len (context_text c) <=? 16 * 1024.

(** A context file is read back as the context it was written for. *)
Lemma loadContext_file c spec :
  proper_context c →
  loadManagedDeviceContext true (Some (mkFile true 384 (RuntimeUID spec) (RuntimeGID spec) (context_text c))) spec =
  if context_fits c then Ok c else Err LoadFailed.
Proof.
  intros Hc. unfold loadManagedDeviceContext, context_fits. cbn [regular perm text uid gid].
  change (private 384) with true. rewrite !Z.eqb_refl. cbn [andb]. destruct (len (context_text c) <=? _); [|done].
  unfold context_text. rewrite parse_print; [|apply indented_white|by apply context_faithful| |apply newline_white].
  2: { pose proof (context_height c). unfold max_depth. lia. }
  cbn [mbind option_bind]. rewrite context_decoded by done.
  destruct Hc as [[Hm Hp] _ _ _ _ _ Hpl [Hg _] Hq _ _ Hcap _ _ _].
  assert (String.eqb (Managed.AuthorizationMode c) "" = false) as -> by (by destruct Hm as [-> | ->]).
  cbn [andb]. rewrite Hg, Hpl, Hcap, String.eqb_refl.
  assert ((Managed.NextSequence c =? 0) = false) as -> by (apply Z.eqb_neq; lia). done.
Qed.
