(* ===== verification/DeviceFacts.v ===== *)
(** * Device control: what the files and bridges promise

    The state of device control under every sequence of its task handlers,
    stops and restarts: files and bridges are well formed, a bridge is backed
    by the activation file of its device session, generations only move
    forward, and a deactivation leaves nothing of its generation behind. *)

From S2P Require Import Prelude GoText GoTime GoJson GoUtf8 GoJsonText GoJsonValue GoJsonDecode GoJsonStruct.
From S2P Require Import Worker DevicePayload DeviceStore DeviceCodec.
From Stdlib.Strings Require Import Ascii.

#[local] Arguments parse_rfc3339 : simpl never.
#[local] Arguments uuidPattern : simpl never.

(** ** Bridges *)

Lemma foldl_delete_lookup (keys : list (string * Z)) (m : gmap (string * Z) ActivatePayload) k a :
  foldl Stop m keys !! k = Some a ↔ m !! k = Some a ∧ k ∉ keys.
Proof.
  revert m. induction keys as [|k' keys IH]; intros m; cbn; [set_solver|].
  rewrite IH. unfold Stop. rewrite lookup_delete_Some, not_elem_of_cons. naive_solver.
Qed.

Lemma stop_where_lookup selected sessions k a :
  stop_where selected sessions !! k = Some a ↔ sessions !! k = Some a ∧ selected k a = false.
Proof.
  unfold stop_where. rewrite foldl_delete_lookup. split; intros [Hk Hn]; (split; [done|]).
  - destruct (selected k a) eqn:E; [|done]. destruct Hn. apply list_elem_of_fmap. exists (k, a).
    split; [done|]. apply list_elem_of_In, List.filter_In. split; [|done].
    by apply list_elem_of_In, elem_of_map_to_list.
  - intros ([k' a'] & -> & Hin)%list_elem_of_fmap. apply list_elem_of_In, List.filter_In in Hin as [Hin Hs].
    apply list_elem_of_In, elem_of_map_to_list in Hin. cbn in *. rewrite Hin in Hk. injection Hk as ->.
    by rewrite Hs in Hn.
Qed.

Lemma stop_where_subseteq selected sessions : stop_where selected sessions ⊆ sessions.
Proof. apply map_subseteq_spec. intros k a Hk. by apply stop_where_lookup in Hk as [Hk _]. Qed.

(** ** The invariant *)

(** The file of the device session [id] holds the activation [p]. *)
Definition holds (node : string) (m : gmap string disk_file) (id : string) (p : ActivatePayload) : Prop :=
  well_formed node p ∧ ∃ o g, m !! id = Some (manifest_file o g p).

Definition typed_files (node : string) (m : gmap string disk_file) : Prop :=
  ∀ id f, m !! id = Some f → ∃ p o g,
    f = manifest_file o g p ∧ well_formed node p ∧ Activation.DeviceSessionID p = id.

Definition typed_sessions (node : string) (live : gmap (string * Z) ActivatePayload) : Prop :=
  ∀ k a, live !! k = Some a →
    well_formed node a ∧ k = (Activation.DeviceSessionID a, Activation.Generation a).

Definition one_each (live : gmap (string * Z) ActivatePayload) : Prop :=
  ∀ k a k' a', live !! k = Some a → live !! k' = Some a' → shares_session a a' = true → k = k'.

Definition backed (node : string) (m : gmap string disk_file) (live : gmap (string * Z) ActivatePayload) : Prop :=
  ∀ k a, live !! k = Some a → ∃ p, holds node m (Activation.DeviceSessionID a) p ∧
    (a = p ∨ Activation.Generation a < Activation.Generation p).

Record device_inv (node : string) (s : device_state) : Prop := {
  inv_files : typed_files node (manifests s);
  inv_sessions : typed_sessions node (sessions s);
  inv_one : one_each (sessions s);
  inv_backed : backed node (manifests s) (sessions s)
}.

Lemma manifest_text_inj node p q :
  well_formed node p → well_formed node q → manifest_text p = manifest_text q → p = q.
Proof.
  intros Hp Hq Heq.
  assert (∀ r, well_formed node r →
    decodeStrictJSONObject Activation.fields Activation.zero (manifest_text r) = Some r) as H.
  { intros r Hr. apply strict_object_print; [apply indented_white|by eapply activation_carried|apply activation_height|apply newline_white]. }
  apply H in Hp. apply H in Hq. rewrite Heq in Hp. rewrite Hp in Hq. by injection Hq.
Qed.

Lemma holds_inj node m id p q : holds node m id p → holds node m id q → p = q.
Proof.
  intros (Hp & o & g & Hf) (Hq & o' & g' & Hf'). eapply (manifest_text_inj node); [done|done|].
  rewrite Hf in Hf'. apply (inj Some) in Hf'. by apply (f_equal text) in Hf'.
Qed.

(** What loading the file of a device session says. *)
Lemma load_typed node m id ok :
  typed_files node m →
  match loadManifest ok (m !! id) with
  | Ok q => holds node m id q ∧ Activation.DeviceSessionID q = id
  | Err NotExist => m !! id = None
  | Err LoadFailed => True
  end.
Proof.
  intros Hm. destruct (m !! id) as [f|] eqn:Hf.
  - destruct (Hm _ _ Hf) as (p & o & g & -> & Hp & Hid).
    destruct (loadManifest ok _) as [q|[]] eqn:Hl; [|destruct ok; [|done]|done].
    + destruct (loadManifest_inv node _ _ _ _ _ Hp Hl) as [-> _]. split; [|done]. split; [done|by exists o, g].
    + rewrite (loadManifest_file node) in Hl by done. by destruct (fits p).
  - cbn. by destruct ok.
Qed.

(** ** Activation *)

Lemma holds_insert node m id o g p : well_formed node p → holds node (<[id := manifest_file o g p]> m) id p.
Proof. intros Hp. split; [done|]. exists o, g. by rewrite lookup_insert_eq. Qed.

Lemma holds_insert_ne node m id id' f p :
  id ≠ id' → holds node (<[id' := f]> m) id p ↔ holds node m id p.
Proof. intros Hne. unfold holds. by rewrite lookup_insert_ne. Qed.

Lemma Activate_effect node io m p m' r :
  typed_files node m → well_formed node p → Activate io m p = (m', r) →
  (m' = m ∧ (r = Ok tt → holds node m (Activation.DeviceSessionID p) p)) ∨
  (r = Ok tt ∧ m' = <[Activation.DeviceSessionID p := manifest_file (owner io) (group io) p]> m ∧
   ∀ q, holds node m (Activation.DeviceSessionID p) q → Activation.Generation q < Activation.Generation p).
Proof.
  intros Hm Hp. unfold Activate. destruct (prepareRoot _ _ _); cbn [negb]; [|intros [= <- <-]; by left].
  pose proof (load_typed node m (Activation.DeviceSessionID p) (read_ok io) Hm) as Hl.
  destruct (loadManifest _ _) as [c|[]].
  - destruct Hl as (Hc & _).
    destruct (Z.ltb_spec (Activation.Generation p) (Activation.Generation c)) as [|Hle]; [intros [= <- <-]; by left|].
    destruct (Z.eqb_spec (Activation.Generation c) (Activation.Generation p)) as [|Hne].
    { intros [= <- <-]. left. split; [done|]. case_bool_decide; [by subst c|done]. }
    destruct (replaced_ok _); intros [= <- <-]; [|by left]. right. split_and!; [done|done|].
    intros q Hq. rewrite (holds_inj _ _ _ _ _ Hq Hc). lia.
  - destruct (replaced_ok _); intros [= <- <-]; [|by left]. right. split_and!; [done|done|].
    intros q (_ & o & g & Hq). by rewrite Hl in Hq.
  - intros [= <- <-]. by left.
Qed.

Lemma typed_insert node m o g p :
  typed_files node m → well_formed node p →
  typed_files node (<[Activation.DeviceSessionID p := manifest_file o g p]> m).
Proof.
  intros Hm Hp id f [[<- <-]|[_ Hf]]%lookup_insert_Some; [by exists p, o, g|by apply Hm].
Qed.

(** Sessions of other device sessions stay backed, those of the replaced one
    are older than the new activation. *)
Lemma backed_insert node m live o g p :
  well_formed node p → backed node m live →
  (∀ q, holds node m (Activation.DeviceSessionID p) q → Activation.Generation q < Activation.Generation p) →
  backed node (<[Activation.DeviceSessionID p := manifest_file o g p]> m) live.
Proof.
  intros Hp Hb Hold k a Hk. destruct (Hb k a Hk) as (q & Hq & Hcmp).
  destruct (decide (Activation.DeviceSessionID a = Activation.DeviceSessionID p)) as [Heq|Hne].
  - exists p. rewrite Heq in *. split; [by apply holds_insert|]. right. apply Hold in Hq.
    destruct Hcmp as [->|]; lia.
  - exists q. by rewrite holds_insert_ne.
Qed.

Lemma Activate_inv node io m live p m' r :
  typed_files node m → backed node m live → well_formed node p → Activate io m p = (m', r) →
  typed_files node m' ∧ backed node m' live ∧ (r = Ok tt → holds node m' (Activation.DeviceSessionID p) p).
Proof.
  intros Hm Hb Hp HA. destruct (Activate_effect node _ _ _ _ _ Hm Hp HA) as [[-> Hr]|(_ & -> & Hold)]; [done|].
  split_and!; [by apply typed_insert|by apply backed_insert|]. intros _. by apply holds_insert.
Qed.

(** ** Bridges under the invariant *)

Lemma sessions_shrink node m live live' :
  live' ⊆ live → typed_sessions node live ∧ one_each live ∧ backed node m live →
  typed_sessions node live' ∧ one_each live' ∧ backed node m live'.
Proof.
  rewrite map_subseteq_spec. intros Hsub (Ht & Ho & Hb). split_and!.
  - intros k a Hk. by apply Ht, Hsub.
  - intros k a k' a' Hk Hk'. by apply Ho; apply Hsub.
  - intros k a Hk. by eapply Hb, Hsub.
Qed.

Lemma shares_comm a b : shares_session a b = shares_session b a.
Proof.
  unfold shares_session. rewrite (String.eqb_sym (Activation.DeviceSessionID b)).
  by rewrite (String.eqb_sym (Activation.ToolSessionID b)).
Qed.

Lemma shares_refl a : shares_session a a = true.
Proof. unfold shares_session. by rewrite String.eqb_refl. Qed.

Lemma Start_effect io live a path live' r :
  Start io live a path = (live', r) →
  (r ≠ Ok tt ∧ live' ⊆ live) ∨
  (r = Ok tt ∧ future (Activation.ExpiresAt a) (start_time io) = true ∧
   live' = <[(Activation.DeviceSessionID a, Activation.Generation a) := a]>
             (stop_where (λ _, shares_session a) live)).
Proof.
  unfold Start. destruct (validateBridgeSocketPath _ _); cbn [negb]; [|intros [= <- <-]; by left].
  unfold stopConflictingActivations. destruct (negb (existsb _ _)); [|intros [= <- <-]; by left].
  destruct (negb _) eqn:E1; [intros [= <- <-]; left; split; [done|apply stop_where_subseteq]|].
  destruct (negb (listening io && _)); [intros [= <- <-]; left; split; [done|apply stop_where_subseteq]|].
  destruct (future _ _); cbn [negb]; intros [= <- <-]; [by right|].
  left. split; [done|apply stop_where_subseteq].
Qed.

Lemma Start_inv node m live a path io live' r :
  typed_sessions node live ∧ one_each live ∧ backed node m live →
  well_formed node a → holds node m (Activation.DeviceSessionID a) a →
  Start io live a path = (live', r) →
  typed_sessions node live' ∧ one_each live' ∧ backed node m live'.
Proof.
  intros Hinv Ha Hh HS. destruct (Start_effect _ _ _ _ _ _ HS) as [[_ Hsub]|(_ & _ & ->)].
  { by eapply sessions_shrink. }
  destruct (sessions_shrink _ _ _ _ (stop_where_subseteq (λ _, shares_session a) live) Hinv) as (Ht & Ho & Hb).
  assert (Hfree : ∀ k b, stop_where (λ _, shares_session a) live !! k = Some b → shares_session a b = false).
  { intros k b Hk. by apply stop_where_lookup in Hk as [_ Hk]. }
  split_and!.
  - intros k b [[<- <-]|[_ Hk]]%lookup_insert_Some; [done|by apply Ht].
  - intros k b k' b' [[<- <-]|[_ Hk]]%lookup_insert_Some [[<- <-]|[_ Hk']]%lookup_insert_Some Hsh.
    + done.
    + by rewrite (Hfree _ _ Hk') in Hsh.
    + rewrite shares_comm in Hsh. by rewrite (Hfree _ _ Hk) in Hsh.
    + by eapply Ho.
  - intros k b [[<- <-]|[_ Hk]]%lookup_insert_Some; [|by eapply Hb]. exists a. split; [done|by left].
Qed.

(** ** Deactivation *)

Lemma Deactivate_effect node io m d m' r :
  typed_files node m → Deactivate io m d = (m', r) →
  (m' = m ∧ r ≠ Ok true ∧
   (r = Ok false → ∀ q, holds node m (Deactivation.DeviceSessionID d) q →
      Deactivation.Generation d < Activation.Generation q)) ∨
  (r = Ok true ∧ m' = delete (Deactivation.DeviceSessionID d) m ∧
   ∃ q, holds node m (Deactivation.DeviceSessionID d) q ∧
     Activation.ToolSessionID q = Deactivation.ToolSessionID d ∧
     Activation.Generation q ≤ Deactivation.Generation d).
Proof.
  intros Hm. unfold Deactivate. destruct (prepareRoot _ _ _); cbn [negb]; [|intros [= <- <-]; by left].
  pose proof (load_typed node m (Deactivation.DeviceSessionID d) (read_ok io) Hm) as Hl.
  destruct (loadManifest _ _) as [c|[]].
  - destruct Hl as [Hc _].
    destruct (String.eqb_spec (Activation.ToolSessionID c) (Deactivation.ToolSessionID d)) as [Ht|]; cbn [negb];
      [|intros [= <- <-]; by left].
    destruct (Z.ltb_spec (Deactivation.Generation d) (Activation.Generation c)) as [Hlt|Hle].
    { intros [= <- <-]. left. split_and!; [done|done|]. intros _ q Hq. by rewrite (holds_inj _ _ _ _ _ Hq Hc). }
    destruct (remove_ok io); intros [= <- <-]; [|by left]. right. split_and!; [done|done|by exists c].
  - intros [= <- <-]. left. split_and!; [done|done|]. intros _ q (_ & o & g & Hq). by rewrite Hl in Hq.
  - intros [= <- <-]. by left.
Qed.

Lemma StopThrough_lookup live id g k a :
  StopThrough live id g !! k = Some a ↔ live !! k = Some a ∧ (k.1 = id → g < k.2).
Proof.
  unfold StopThrough. rewrite stop_where_lookup, andb_false_iff, String.eqb_neq, Z.leb_gt.
  destruct (decide (k.1 = id)); naive_solver.
Qed.

(** Removing the file of a device session whose bridges were stopped through
    the removed generation. *)
Lemma backed_delete node m live d q :
  typed_sessions node live → backed node m live →
  holds node m (Deactivation.DeviceSessionID d) q → Activation.Generation q ≤ Deactivation.Generation d →
  backed node (delete (Deactivation.DeviceSessionID d) m)
    (StopThrough live (Deactivation.DeviceSessionID d) (Deactivation.Generation d)).
Proof.
  intros Ht Hb Hq Hle k a [Hk Hkeep]%StopThrough_lookup. destruct (Ht k a Hk) as [_ ->]. cbn in Hkeep.
  destruct (Hb _ a Hk) as (p & Hp & Hcmp).
  destruct (decide (Activation.DeviceSessionID a = Deactivation.DeviceSessionID d)) as [Heq|Hne].
  - exfalso. specialize (Hkeep Heq). rewrite Heq in Hp. rewrite (holds_inj _ _ _ _ _ Hp Hq) in Hcmp.
    destruct Hcmp as [->|]; lia.
  - exists p. split; [|done]. destruct Hp as (Hw & o & g & Hf). split; [done|]. exists o, g.
    by rewrite lookup_delete_ne.
Qed.

(** ** Histories *)

(** What happens to device control.  A session's own process may rewrite its
    context file. *)
Inductive device_event :=
  | TaskActivate
  | TaskDeactivate (p : DeactivatePayload)
  | TaskUpdate
  | ToolSessionStopped
  | Shutdown
  | Restarted
  | ContextRewritten.

Inductive device_step (node : string) : device_state → device_event → device_state → Prop :=
  | step_activate env s payload :
      NodeID_ env = node →
      device_step node s TaskActivate (activate_device_control env s payload).1
  | step_deactivate env s payload p :
      DecodeDeactivatePayload payload = Ok p →
      device_step node s (TaskDeactivate p) (deactivate_device_control env s payload).1
  | step_update env s payload :
      device_step node s TaskUpdate (update_device_control_context env s payload).1
  | step_stop s id :
      device_step node s ToolSessionStopped (s <| sessions := StopToolSession (sessions s) id |>)
  | step_shutdown s : device_step node s Shutdown (s <| sessions := StopAll (sessions s) |>)
  | step_restart s : device_step node s Restarted (s <| sessions := ∅ |>)
  | step_rewrite s c : device_step node s ContextRewritten (s <| contexts := c |>).

Inductive device_history (node : string) : device_state → list device_event → device_state → Prop :=
  | history_nil s : device_history node s [] s
  | history_cons s e s1 es s2 :
      device_step node s e s1 → device_history node s1 es s2 → device_history node s (e :: es) s2.

Definition no_device : device_state := mkDevice ∅ ∅ ∅.

Definition device_reachable (node : string) (s : device_state) : Prop :=
  ∃ es, device_history node no_device es s.

Lemma no_device_inv node : device_inv node no_device.
Proof. split; intros ? ?; cbn; rewrite ?lookup_empty; try done. Qed.

Lemma inv_sessions_only node s live :
  device_inv node s → live ⊆ sessions s → device_inv node (s <| sessions := live |>).
Proof.
  intros [Hf Ht Ho Hb] Hsub.
  destruct (sessions_shrink node (manifests s) _ _ Hsub (conj Ht (conj Ho Hb))) as (? & ? & ?). done.
Qed.

(** The state before and after a task, seen from the activation files. *)
Lemma activate_files env s payload :
  (activate_device_control env s payload).1 = s <| contexts := contexts (activate_device_control env s payload).1 |> ∨
  ∃ p c, DecodeActivatePayload payload (NodeID_ env) (task_time env) = Ok p ∧
    let '(m, stored) := Activate (storage env) (manifests s) p in
    let s1 := s <| contexts := c |> <| manifests := m |> in
    (activate_device_control env s payload).1 = s1 ∨
    stored = Ok tt ∧ ∃ path, (activate_device_control env s payload).1 =
      s1 <| sessions := (Start (bridge env) (sessions s) p path).1 |>.
Proof.
  unfold activate_device_control. destruct (DecodeActivatePayload _ _ _) as [p|e]; [|left; by destruct s].
  destruct (negb _); [left; by destruct s|].
  destruct (callRuntimeHelperExact _ _ _) as [c [answer|]]; [|left; by destruct s].
  right. exists p, c. split; [done|]. cbn [manifests set].
  destruct (Activate _ _ _) as [m [[]|e]]; [|by left].
  destruct (get _ answer) as [[| | |path| | |]|]; try by left.
  destruct (String.eqb path ""); [by left|]. right. split; [done|]. exists path. cbn [sessions set].
  destruct (Start _ _ _ _) as [live [[]|e]]; done.
Qed.

Lemma step_inv node s e s' : device_inv node s → device_step node s e s' → device_inv node s'.
Proof.
  intros Hinv Hstep. destruct Hstep as [env s payload Hnode|env s payload d Hd|env s payload|s id|s|s|s c].
  - subst node. destruct (activate_files env s payload) as [->|(p & c & Hp & Hrun)].
    { by destruct Hinv. }
    apply DecodeActivate_wf in Hp as [Hp _]. destruct Hinv as [Hf Ht Ho Hb].
    destruct (Activate (storage env) (manifests s) p) as [m stored] eqn:HA.
    destruct (Activate_inv (NodeID_ env) _ _ _ _ _ _ Hf Hb Hp HA) as (Hf' & Hb' & Hh).
    destruct Hrun as [->|(-> & path & ->)]; [by split|].
    destruct (Start (bridge env) (sessions s) p path) as [live r] eqn:HS.
    destruct (Start_inv (NodeID_ env) m _ _ _ _ _ _ (conj Ht (conj Ho Hb')) Hp (Hh eq_refl) HS) as (? & ? & ?).
    by split.
  - unfold deactivate_device_control. rewrite Hd.
    pose proof (inv_sessions_only node s (StopThrough (sessions s) (Deactivation.DeviceSessionID d)
      (Deactivation.Generation d)) Hinv (stop_where_subseteq _ _)) as [Hf Ht Ho Hb].
    destruct (callRuntimeHelperExact _ _ _) as [c [answer|]]; [|by split]. cbn [manifests set] in *.
    destruct (Deactivate _ _ _) as [m r] eqn:HD.
    assert (device_inv node (mkDevice m c (StopThrough (sessions s) (Deactivation.DeviceSessionID d)
      (Deactivation.Generation d)))) as Hres; [|by destruct r].
    destruct (Deactivate_effect node _ _ _ _ _ Hf HD) as [(-> & _)|(_ & -> & q & Hq & _ & Hle)]; split; try done.
    + intros id f Hid. cbn in Hid. apply lookup_delete_Some in Hid as [_ Hid]. by apply Hf.
    + by eapply backed_delete; [apply Hinv|apply Hinv|..].
  - unfold update_device_control_context. destruct (DecodeContextPayload _ _ _) as [p|]; [|done].
    destruct (decode_value _) as [[| | | | |m|]|]; try done.
    destruct (callRuntimeHelperExact _ _ _) as [c answer]. by destruct Hinv.
  - apply inv_sessions_only; [done|apply stop_where_subseteq].
  - apply inv_sessions_only; [done|apply stop_where_subseteq].
  - apply inv_sessions_only; [done|apply map_empty_subseteq].
  - by destruct Hinv.
Qed.

Lemma history_inv node s es s' : device_history node s es s' → device_inv node s → device_inv node s'.
Proof. induction 1 as [|s e s1 es s2 Hs _ IH]; [done|]. intros Hi. by eapply IH, step_inv. Qed.

Lemma device_reachable_inv node s : device_reachable node s → device_inv node s.
Proof. intros (es & Hes). eapply history_inv; [done|apply no_device_inv]. Qed.

(** ** Theorems *)

(** C40: device control is well typed in every history.  Every activation file
    is the private file written for a valid activation of this node and lies
    under its own device session; every bridge serves a valid activation of
    this node and is filed under its device session and generation. *)
Theorem device_state_typed node s :
  device_reachable node s →
  (∀ id f, manifests s !! id = Some f → ∃ p o g,
     f = manifest_file o g p ∧ well_formed node p ∧ Activation.DeviceSessionID p = id) ∧
  (∀ k a, sessions s !! k = Some a →
     well_formed node a ∧ k = (Activation.DeviceSessionID a, Activation.Generation a)).
Proof. intros [Hf Ht _ _]%device_reachable_inv. done. Qed.

(** C4: a bridge is never without authority.  In every history, a device session
    has at most one bridge and so has a tool session, and the activation file
    of a bridge's device session holds the bridge's own activation or one of a
    later generation, also when a task failed half-way. *)
Theorem bridges_backed node s :
  device_reachable node s →
  (∀ k a k' a', sessions s !! k = Some a → sessions s !! k' = Some a' →
     Activation.DeviceSessionID a = Activation.DeviceSessionID a' ∨
     Activation.ToolSessionID a = Activation.ToolSessionID a' → k = k') ∧
  (∀ k a, sessions s !! k = Some a → ∃ p, holds node (manifests s) (Activation.DeviceSessionID a) p ∧
     (a = p ∨ Activation.Generation a < Activation.Generation p)).
Proof.
  intros [_ _ Ho Hb]%device_reachable_inv. split; [|done]. intros k a k' a' Hk Hk' Hsame.
  eapply Ho; [done|done|]. unfold shares_session. apply orb_true_iff. rewrite !String.eqb_eq.
  destruct Hsame; [by left|by right].
Qed.

(** One step: the file moves to a later generation, or is removed by a
    deactivation of at least its generation. *)
Lemma step_forward node s e s' id p :
  device_inv node s → device_step node s e s' → holds node (manifests s) id p →
  (∃ d, e = TaskDeactivate d ∧ Deactivation.DeviceSessionID d = id ∧
        Activation.Generation p ≤ Deactivation.Generation d) ∨
  ∃ q, holds node (manifests s') id q ∧ (q = p ∨ Activation.Generation p < Activation.Generation q).
Proof.
  intros Hinv Hstep Hh.
  assert (Hkeep : ∀ s1, manifests s1 = manifests s → ∃ q, holds node (manifests s1) id q ∧
    (q = p ∨ Activation.Generation p < Activation.Generation q)) by (intros s1 ->; eauto).
  destruct Hstep as [env s payload Hnode|env s payload d Hd|env s payload|s i|s|s|s c].
  - right. destruct (activate_files env s payload) as [->|(a & c & Ha & Hrun)]; [by apply Hkeep|].
    apply DecodeActivate_wf in Ha as [Ha _]. rewrite Hnode in Ha.
    destruct (Activate (storage env) (manifests s) a) as [m stored] eqn:HA.
    assert (manifests (activate_device_control env s payload).1 = m) as -> by (by destruct Hrun as [->|(_ & path & ->)]).
    destruct (Activate_effect node _ _ _ _ _ (inv_files _ _ Hinv) Ha HA) as [[-> _]|(_ & -> & Hold)]; [eauto|].
    destruct (decide (id = Activation.DeviceSessionID a)) as [->|Hne].
    + exists a. split; [by apply holds_insert|]. right. by apply Hold.
    + exists p. rewrite holds_insert_ne by done. eauto.
  - unfold deactivate_device_control. rewrite Hd.
    destruct (callRuntimeHelperExact _ _ _) as [c [answer|]]; [|right; by apply Hkeep]. cbn [manifests set].
    destruct (Deactivate _ _ _) as [m r] eqn:HD.
    destruct (Deactivate_effect node _ _ _ _ _ (inv_files _ _ Hinv) HD) as [(-> & _)|(_ & -> & q & Hq & _ & Hle)].
    { right. destruct r; by apply Hkeep. }
    destruct (decide (id = Deactivation.DeviceSessionID d)) as [->|Hne].
    + left. exists d. rewrite (holds_inj _ _ _ _ _ Hh Hq). done.
    + right. exists p. split; [|by left]. destruct Hh as (Hw & o & g & Hf). split; [done|]. exists o, g.
      destruct r; cbn; by rewrite lookup_delete_ne.
  - right. unfold update_device_control_context. destruct (DecodeContextPayload _ _ _) as [x|]; [|by apply Hkeep].
    destruct (decode_value _) as [[| | | | |m|]|]; try by apply Hkeep.
    destruct (callRuntimeHelperExact _ _ _) as [c answer]. by apply Hkeep.
  - right. by apply Hkeep.
  - right. by apply Hkeep.
  - right. by apply Hkeep.
  - right. by apply Hkeep.
Qed.

(** the generation of an activated device session never goes back.  Through
    any history of tasks, failures, stops and restarts without a deactivation
    of the session at its generation or later, its activation file keeps the
    very same activation or holds one of a later generation. *)
Theorem generation_forward node s es s' id p :
  device_reachable node s → device_history node s es s' →
  holds node (manifests s) id p →
  (∀ d, TaskDeactivate d ∈ es → Deactivation.DeviceSessionID d = id →
     Deactivation.Generation d < Activation.Generation p) →
  ∃ q, holds node (manifests s') id q ∧ (q = p ∨ Activation.Generation p < Activation.Generation q).
Proof.
  intros Hinv%device_reachable_inv Hh. revert p. induction Hh as [s|s e s1 es s2 Hstep _ IH]; intros p Hp Hno; [eauto|].
  destruct (step_forward node s e s1 id p Hinv Hstep Hp) as [(d & -> & Hid & Hle)|(q & Hq & Hcmp)].
  - specialize (Hno d ltac:(by left) Hid). lia.
  - destruct (IH (step_inv _ _ _ _ Hinv Hstep) q Hq) as (r & Hr & Hcmp').
    { intros d Hd Hid. specialize (Hno d ltac:(by right) Hid). destruct Hcmp as [->|]; lia. }
    exists r. split; [done|]. destruct Hcmp as [->|], Hcmp' as [->|]; (by left) || (right; lia).
Qed.
