(* ===== verification/DeviceContext.v ===== *)
(** * Device control: the context of a session, and what a task leaves behind

    What [updateDeviceControlContext] may do to a context, and the state a
    successful activation or deactivation task leaves in the three places
    that device control keeps: the session's context, the activation files
    and the bridges. *)

From S2P Require Import Prelude GoText GoTime GoJson GoUtf8 GoJsonText GoJsonValue GoJsonDecode GoJsonStruct.
From S2P Require Import Worker DevicePayload DeviceStore DeviceCodec DeviceFacts.
From Stdlib.Strings Require Import Ascii.

#[local] Arguments parse_rfc3339 : simpl never.
#[local] Arguments uuidPattern : simpl never.

(** ** Requests to the helper *)

Lemma decode_strict_same {R} (fields : list (field R)) zero r m :
  carried (encode_struct fields r) (λ _ _, decode_known fields zero) r →
  same (encode_struct fields r) (VObj m) → faithful (VObj m) →
  (height (VObj m) ≤ max_depth)%nat → decodeStrict fields zero m = Some r.
Proof.
  intros (_ & _ & Hdec) Hs Hf Hh. unfold decodeStrict. rewrite faithful_encodable by done.
  rewrite <- (string_app_nil (print_value compact 0 (VObj m))).
  rewrite parse_print; [|apply compact_white|done|done|done]. cbn [mbind option_bind].
  by apply (Hdec (VObj m) r compact 0%nat).
Qed.

Lemma clear_carried d :
  valid_utf8 (codes (Clear.DeviceSessionID d)) = true → valid_utf8 (codes (Clear.ToolSessionID d)) = true →
  0 ≤ Clear.Generation d ≤ max_uint64 →
  carried (encode_struct Clear.fields d) (λ _ _, decode_known Clear.fields Clear.zero) d.
Proof.
  intros H1 H2 H3. apply known_carried, struct_carried; [solve_disjoint| |by destruct d].
  repeat (apply Forall_cons_2; [first [by apply carries_str|by apply carries_uint64|by apply carries_bool]|]).
  constructor.
Qed.

Lemma clear_request_decoded ds ts g inclusive :
  uuidPattern ds = true → uuidPattern ts = true → 0 ≤ g ≤ max_uint64 →
  decodeStrict Clear.fields Clear.zero (clear_request ds ts g inclusive) = Some (Clear.mk ds ts g inclusive).
Proof.
  intros Hd%uuid_text Ht%uuid_text Hg. apply decode_strict_same.
  - by apply clear_carried.
  - unfold encode_struct, encode_field, clear_request. cbn.
    eapply (same_obj _ [_; _; _; _]).
    + repeat (apply Forall2_cons_2; [split; [done|constructor]|]). constructor.
    + rewrite list.Permutation_swap. apply (Permutation_cons_append [_; _; _]).
  - apply faithful_obj. repeat (apply Forall_cons_2; [split; [done|]; first [done|by apply number_itoa]|]). constructor.
  - unfold max_depth. cbn. lia.
Qed.

Lemma clear_target_valid d :
  uuidPattern (Clear.DeviceSessionID d) = true → uuidPattern (Clear.ToolSessionID d) = true →
  0 < Clear.Generation d ≤ MaximumDeviceSessionGeneration →
  DecodeDeactivatePayload (clear_target d) =
    Ok (Deactivation.mk (Clear.DeviceSessionID d) (Clear.ToolSessionID d) (Clear.Generation d)).
Proof.
  intros Hd Ht Hg.
  assert (Hu : 0 ≤ Clear.Generation d ≤ max_uint64).
  { unfold MaximumDeviceSessionGeneration, max_uint64 in *. change (Z.shiftl 1 63) with (2 ^ 63) in *. lia. }
  pose proof (uuid_text _ Hd) as Hd'. pose proof (uuid_text _ Ht) as Ht'.
  unfold DecodeDeactivatePayload.
  rewrite (decode_strict_same _ _ (Deactivation.mk (Clear.DeviceSessionID d) (Clear.ToolSessionID d) (Clear.Generation d))).
  - cbn [Deactivation.DeviceSessionID Deactivation.ToolSessionID Deactivation.Generation]. rewrite Hd, Ht.
    rewrite (proj2 (Z.eqb_neq _ 0)), (proj2 (Z.leb_le _ _)) by lia. done.
  - apply known_carried, struct_carried; [solve_disjoint| |done].
    repeat (apply Forall_cons_2; [first [by apply carries_str|by apply carries_uint64]|]). constructor.
  - unfold encode_struct, encode_field, clear_target. cbn. eapply (same_obj _ [_; _; _]).
    + repeat (apply Forall2_cons_2; [split; [done|constructor]|]). constructor.
    + constructor. apply list.Permutation_swap.
  - apply faithful_obj. repeat (apply Forall_cons_2; [split; [done|]; first [done|by apply number_itoa]|]). constructor.
  - unfold max_depth. cbn. lia.
Qed.

(** ** Clearing *)

(** The generation a context file still holds for a session. *)
Definition live_context (contexts : gmap string disk_file) (io : context_io) (c : managedDeviceContext) : Prop :=
  ∃ spec path, session_spec io = SpecFound spec ∧
    validateDeviceControlContextPath spec (directory_stat io) = Some path ∧
    loadManagedDeviceContext true (contexts !! path) spec = Ok c.

Lemma load_readable ok f spec c :
  loadManagedDeviceContext ok f spec = Ok c → loadManagedDeviceContext true f spec = Ok c.
Proof. destruct ok; [done|]. by destruct f. Qed.

Lemma clear_effect io contexts ds ts g inclusive contexts' answer :
  uuidPattern ds = true → uuidPattern ts = true → 0 < g ≤ MaximumDeviceSessionGeneration →
  clearDeviceControlContext io contexts (clear_request ds ts g inclusive) = (contexts', Ok answer) →
  ∀ c, live_context contexts' io c →
    live_context contexts io c ∧ Managed.DeviceSessionID c = ds ∧
    (g < Managed.Generation c ∨ (inclusive = false ∧ Managed.Generation c = g)).
Proof.
  intros Hd Ht Hg. assert (Hu : 0 ≤ g ≤ max_uint64).
  { unfold MaximumDeviceSessionGeneration, max_uint64 in *. change (Z.shiftl 1 63) with (2 ^ 63) in *. lia. }
  unfold clearDeviceControlContext. rewrite clear_request_decoded by done.
  rewrite clear_target_valid by done. cbn [is_ok negb Clear.ToolSessionID Clear.DeviceSessionID Clear.Generation Clear.Inclusive].
  destruct (session_spec io) as [| |spec] eqn:Hspec; [intros _ c (? & ? & Hs & _); by rewrite Hspec in Hs|done|].
  destruct (negb _); [done|].
  destruct (validateDeviceControlContextPath spec _) as [path|] eqn:Hpath; [|done].
  assert (Hlive : ∀ m c, live_context m io c → loadManagedDeviceContext true (m !! path) spec = Ok c).
  { intros m c (spec' & path' & Hs & Hp & Hl). rewrite Hspec in Hs. injection Hs as <-.
    rewrite Hpath in Hp. by injection Hp as <-. }
  destruct (loadManagedDeviceContext _ (contexts !! path) spec) as [current|[]] eqn:Hload.
  - destruct (String.eqb_spec (Managed.ToolSessionID current) ts); [|done].
    destruct (String.eqb_spec (Managed.DeviceSessionID current) ds); [|done]. cbn [andb negb].
    destruct (_ || _) eqn:Hkeep.
    + intros Heq c Hc. injection Heq as <- _. pose proof (Hlive _ _ Hc) as Hl.
      apply load_readable in Hload. rewrite Hload in Hl. injection Hl as <-. split_and!; [done|done|].
      apply orb_true_iff in Hkeep as [H%Z.ltb_lt|[Hi H%Z.eqb_eq]%andb_true_iff]; [by left|].
      right. split; [|done]. by destruct inclusive.
    + destruct (context_remove_ok io); [|done]. intros Heq c Hc. injection Heq as <- _.
      apply Hlive in Hc. by rewrite lookup_delete_eq in Hc.
  - intros Heq c Hc. injection Heq as <- _. apply Hlive in Hc.
    destruct (contexts !! path) as [f|]; [|done]. exfalso. clear -Hload.
    unfold loadManagedDeviceContext in Hload. repeat case_match; done.
  - done.
Qed.

(** ** What a successful task leaves behind *)

Lemma DecodeDeactivate_wf payload p :
  DecodeDeactivatePayload payload = Ok p →
  uuidPattern (Deactivation.DeviceSessionID p) = true ∧ uuidPattern (Deactivation.ToolSessionID p) = true ∧
  0 < Deactivation.Generation p ≤ MaximumDeviceSessionGeneration.
Proof.
  unfold DecodeDeactivatePayload. destruct (decodeStrict _ _ payload) as [d|] eqn:Hd; [|done].
  assert (Hgen : 0 ≤ Deactivation.Generation d).
  { unfold decodeStrict in Hd. destruct (encodable _); [|done].
    destruct (parse_json _) as [j|] eqn:Hj; [|done]. cbn [mbind option_bind] in Hd.
    apply (known_inv (λ r, 0 ≤ Deactivation.Generation r) Deactivation.fields Deactivation.zero max_depth j);
      [|done|by eapply parse_json_decoded|done].
    repeat (apply Forall_cons_2; [intros acc raw j' dep x Hacc _; cbn;
      first [done | intros Hx; by eapply uint64_nonneg]|]). constructor. }
  intros H. go_inv H. apply Ok_inj in H as <-. reflect_bools. split_and!; [done|done|lia|done].
Qed.

Lemma active_max g : 0 < g < MaximumDeviceSessionGeneration → 0 < g ≤ MaximumDeviceSessionGeneration.
Proof. lia. Qed.

Lemma helper_answered d run (m : gmap string disk_file) m' answer :
  callRuntimeHelperExact d run m = (m', Some answer) → run m = (m', Ok answer).
Proof. destruct d; cbn; [done|by destruct (run m)|]. destruct (run m) as [m1 [x|e]]; [|done]. by intros [= -> ->]. Qed.

(** C33: a deactivation task that reports success has revoked its device session
    through its generation everywhere: no bridge, no activation file and no
    readable session context of that generation or an earlier one is left, and
    it reports a removal exactly when there was such an activation. *)
Theorem deactivation_complete node env s payload p s' answer :
  device_reachable node s → DecodeDeactivatePayload payload = Ok p →
  deactivate_device_control env s payload = (s', Ok answer) →
  let id := Deactivation.DeviceSessionID p in
  let g := Deactivation.Generation p in
  (∀ k a, sessions s' !! k = Some a → Activation.DeviceSessionID a = id → g < Activation.Generation a) ∧
  (∀ q, holds node (manifests s') id q → g < Activation.Generation q) ∧
  (∀ c, live_context (contexts s') (helper env) c → g < Managed.Generation c) ∧
  (get "removed" answer = Some (VBool true) ↔
     ∃ q, holds node (manifests s) id q ∧ Activation.Generation q ≤ g).
Proof.
  intros Hinv%device_reachable_inv Hp. unfold deactivate_device_control. rewrite Hp.
  destruct (DecodeDeactivate_wf _ _ Hp) as (Hd & Ht & Hg).
  destruct (callRuntimeHelperExact _ _ _) as [c [cleared|]] eqn:Hcall; [|done]. apply helper_answered in Hcall.
  cbn [manifests set]. destruct (Deactivate _ _ _) as [m [removed|e]] eqn:HD; [|done].
  intros Heq. apply pair_equal_spec in Heq as [<- Heq]. apply Ok_inj in Heq as <-. cbn [sessions contexts manifests set const].
  split_and!.
  - intros k a [Hk Hkeep]%StopThrough_lookup Hid. destruct (inv_sessions _ _ Hinv k a Hk) as [_ ->]. by apply Hkeep.
  - intros q Hq. destruct (Deactivate_effect node _ _ _ _ _ (inv_files _ _ Hinv) HD)
      as [(-> & Hne & Hlt)|(_ & -> & _)].
    + destruct removed; [done|]. by apply Hlt.
    + destruct Hq as (_ & o & g & Hq). by rewrite lookup_delete_eq in Hq.
  - intros x Hx. destruct (clear_effect _ _ _ _ _ _ _ _ Hd Ht Hg Hcall x Hx) as (_ & _ & [?|[? _]]); done.
  - cbn. destruct (Deactivate_effect node _ _ _ _ _ (inv_files _ _ Hinv) HD)
      as [(-> & Hne & Hlt)|([= ->] & _ & q & Hq & _ & Hle)]; [|by split; [exists q|]].
    destruct removed; [done|]. split; [done|]. intros (q & Hq & Hle). specialize (Hlt eq_refl q Hq). lia.
Qed.

(** an activation task that reports success has replaced what was there: the
    activation file of the device session holds the activation, its bridge is
    the only one of the device session and of the tool session, and a context
    of the session that is still readable is the device session's own, of this
    generation or a later one. *)
Theorem activation_complete node env s payload p s' answer :
  device_reachable node s → NodeID_ env = node →
  DecodeActivatePayload payload node (task_time env) = Ok p →
  activate_device_control env s payload = (s', Ok answer) →
  holds node (manifests s') (Activation.DeviceSessionID p) p ∧
  sessions s' !! (Activation.DeviceSessionID p, Activation.Generation p) = Some p ∧
  (∀ k a, sessions s' !! k = Some a → shares_session p a = true → a = p) ∧
  (∀ c, live_context (contexts s') (helper env) c →
     Managed.DeviceSessionID c = Activation.DeviceSessionID p ∧
     Activation.Generation p ≤ Managed.Generation c).
Proof.
  intros Hinv%device_reachable_inv Hnode Hp. unfold activate_device_control. rewrite Hnode, Hp.
  destruct (DecodeActivate_wf _ _ _ _ Hp) as [Hw _].
  destruct (negb _); [done|].
  destruct (callRuntimeHelperExact _ _ _) as [c [cleared|]] eqn:Hcall; [|done]. apply helper_answered in Hcall.
  cbn [manifests set]. destruct (Activate _ _ _) as [m [[]|e]] eqn:HA; [|done].
  destruct (Activate_inv node _ _ _ _ _ _ (inv_files _ _ Hinv) (inv_backed _ _ Hinv) Hw HA) as (_ & _ & Hh).
  destruct (get _ cleared) as [[| | |path| | |]|]; try done. destruct (String.eqb path ""); [done|].
  cbn [sessions set]. destruct (Start _ _ _ _) as [live [[]|e]] eqn:HS; [|done].
  destruct (Start_effect _ _ _ _ _ _ HS) as [[? _]|(_ & _ & ->)]; [done|].
  intros Heq. apply pair_equal_spec in Heq as [<- _]. cbn [sessions contexts manifests set const]. split_and!.
  - by apply Hh.
  - by rewrite lookup_insert_eq.
  - intros k a [[_ <-]|[_ [_ Hk]%stop_where_lookup]]%lookup_insert_Some Hsh; [done|]. by rewrite Hk in Hsh.
  - intros x Hx. destruct (clear_effect _ _ _ _ _ _ _ _ (wf_device_session _ _ Hw) (wf_tool_session _ _ Hw)
      (active_max _ (wf_generation _ _ Hw)) Hcall x Hx) as (_ & Hid & Hcmp). split; [done|].
    destruct Hcmp as [?|[_ ?]]; lia.
Qed.

(** ** Updating a context *)

Lemma uint64_bound current j z : uint64_of_json current j = Some z → 0 ≤ current ≤ max_uint64 → 0 ≤ z ≤ max_uint64.
Proof.
  intros Hz Hc. split; [by eapply uint64_nonneg; [|apply Hc]|].
  destruct j as [| |literal| | |]; try done; [injection Hz as <-; lia|].
  assert (∀ o, (z' ← o; if z' <=? max_uint64 then Some z' else None) = Some z → z ≤ max_uint64) as H.
  { intros [v|]; cbn; [|done]. destruct (Z.leb_spec v max_uint64); [|done]. by intros [= <-]. }
  destruct literal as [|c l]; [exact (H (Some 0) Hz)|].
  destruct c as [[] [] [] [] [] [] [] []]; (done || exact (H _ Hz)).
Qed.

(** What a context that can be read satisfies, whoever wrote it. *)
Record readable_context (c : managedDeviceContext) : Prop := {
  rc_generation : 0 < Managed.Generation c ≤ max_uint64;
  rc_sequence : 0 < Managed.NextSequence c ≤ max_uint64;
  rc_screenshot : 0 ≤ Managed.CurrentScreenshotGeneration c ≤ max_uint64;
  rc_state : 0 ≤ Managed.CurrentStateGeneration c ≤ max_uint64
}.

Definition counters (c : managedDeviceContext) : Prop :=
  0 ≤ Managed.Generation c ≤ max_uint64 ∧ 0 ≤ Managed.NextSequence c ≤ max_uint64 ∧
  0 ≤ Managed.CurrentScreenshotGeneration c ≤ max_uint64 ∧ 0 ≤ Managed.CurrentStateGeneration c ≤ max_uint64.

Lemma load_readable_context ok f spec c :
  loadManagedDeviceContext ok f spec = Ok c → readable_context c.
Proof.
  unfold loadManagedDeviceContext. destruct f as [f|]; [|by destruct ok]. intros H. go_inv H.
  destruct (parse_json (text f)) as [j|] eqn:Hj; [|done]. cbn [mbind option_bind] in H.
  destruct (decode_known _ _ j) as [d|] eqn:Hd; [|done].
  assert (Hcnt : counters d).
  { apply (known_inv counters Managed.fields Managed.zero max_depth j);
      [|unfold counters, max_uint64; cbn; lia|by eapply parse_json_decoded|done].
    repeat (apply Forall_cons_2; [intros acc raw j' dep x (H1 & H2 & H3 & H4) _ Hx; cbn in Hx;
      unfold counters; cbn; refine (conj _ (conj _ (conj _ _))); first [done|by eapply uint64_bound]|]). constructor. }
  go_inv H. apply Ok_inj in H as <-. unfold active_generation in *. reflect_bools.
  destruct Hcnt as (Hc1 & Hc2 & Hc3 & Hc4). destruct (String.eqb _ "" && _); cbn in *; split; cbn; lia.
Qed.

Lemma DecodeContext_wf payload node now d :
  DecodeContextPayload payload node now = Ok d → proper_context (fresh_context d).
Proof.
  unfold DecodeContextPayload. destruct (decodeStrict _ _ payload) as [x|] eqn:Hd; [|done].
  assert (Htext : valid_utf8 (codes (Context_.LeaseUntil x)) = true).
  { eapply (text_decoded Context_.fields _ Context_.LeaseUntil); [one_text| |exact Hd]. done. }
  assert (Hgen : 0 ≤ Context_.Generation x).
  { unfold decodeStrict in Hd. destruct (encodable _); [|done].
    destruct (parse_json _) as [j|] eqn:Hj; [|done]. cbn [mbind option_bind] in Hd.
    apply (known_inv (λ r, 0 ≤ Context_.Generation r) Context_.fields Context_.zero max_depth j);
      [|done|by eapply parse_json_decoded|done].
    repeat (apply Forall_cons_2; [intros acc raw j' dep y Hacc _; cbn;
      first [done | intros Hx; by eapply uint64_nonneg]|]). constructor. }
  destruct (normalizeAndValidateAuthorization _ _ true) as [[mode policy] valid] eqn:Hn.
  intros H. go_inv H. cbn [Context_.LeaseUntil set const] in H.
  destruct (parse_rfc3339 (Context_.LeaseUntil x)) as [lease|] eqn:Hlease; [|by cbn in H].
  cbn in H. go_inv H. apply Ok_inj in H as <-. cbn in *. subst valid. apply normalize_authorized in Hn.
  reflect_bools. rewrite !String.eqb_eq in *.
  constructor; cbn; try done; try (unfold max_uint64; lia). by rewrite Hlease.
Qed.

(** [c] continues [current]: a later generation starts its counters afresh;
    within a generation the binding and the counters stay, capabilities are
    only added to none, and the lease does not move back. *)
Definition continues (current c : managedDeviceContext) : Prop :=
  (Managed.Generation current < Managed.Generation c ∧ Managed.NextSequence c = 1 ∧
   Managed.CurrentScreenshotGeneration c = 0 ∧ Managed.CurrentStateGeneration c = 0) ∨
  (Managed.Generation current = Managed.Generation c ∧ sameDeviceControlBinding current c = true ∧
   Managed.NextSequence c = Managed.NextSequence current ∧
   Managed.CurrentScreenshotGeneration c = Managed.CurrentScreenshotGeneration current ∧
   Managed.CurrentStateGeneration c = Managed.CurrentStateGeneration current ∧
   (visible (Managed.Capabilities current) = [] ∨
    visible (Managed.Capabilities current) = visible (Managed.Capabilities c)) ∧
   ∃ t t', parse_rfc3339 (Managed.LeaseUntil current) = Some t ∧
     parse_rfc3339 (Managed.LeaseUntil c) = Some t' ∧ t ≤ t').

Lemma continue_continues current d c :
  readable_context current → proper_context (fresh_context d) →
  continue_context current (fresh_context d) = Ok c → proper_context c ∧ continues current c.
Proof.
  intros Hr Hp. unfold continue_context. intros H. go_inv H. apply negb_true_iff, Z.ltb_ge in Hguard.
  destruct (Z.eqb_spec (Managed.Generation current) (Managed.Generation (fresh_context d))) as [Heq|Hne].
  - go_inv H. apply Ok_inj in H as <-. split.
    + destruct Hr as [_ Hq Hs1 Hs2]. destruct Hp. by split.
    + right. unfold lease_moves_back in *. cbn in *. split_and!; try done.
      * apply orb_true_iff in Hguard1 as [H%bool_decide_eq_true|H%bool_decide_eq_true]; [by left|by right].
      * destruct (parse_rfc3339 (Managed.LeaseUntil current)) as [t|]; [|done].
        destruct (parse_rfc3339 (Context_.LeaseUntil d)) as [t'|]; [|done].
        exists t, t'. unfold before in *. reflect_bools. done.
  - apply Ok_inj in H as <-. split; [done|]. left. cbn in *. split_and!; [lia|done..].
Qed.

(** an update cannot rewind a session's context.  Whatever the update asks
    for, if it changes the context of the session or reports success, what it
    wrote continues the context that could be read before: the sequence and
    state counters go on within a generation and restart only with a later
    one, the binding and negotiated capabilities are kept within a generation,
    and the lease never shortens; and the new context reads back when it is
    not larger than the reader allows. *)
Theorem context_sequence_kept io contexts payload contexts' r :
  updateDeviceControlContext io contexts payload = (contexts', r) →
  (contexts' ≠ contexts ∨ is_ok r = true) →
  ∃ c, proper_context c ∧ (context_fits c = true → live_context contexts' io c) ∧
    ∀ current, live_context contexts io current → continues current c.
Proof.
  unfold updateDeviceControlContext. intros Hrun Hdone.
  destruct (DecodeContextPayload _ _ _) as [d|] eqn:Hd; [|injection Hrun as <- <-; by destruct Hdone].
  apply DecodeContext_wf in Hd.
  destruct (session_spec io) as [| |spec] eqn:Hspec; [injection Hrun as <- <-; by destruct Hdone..|].
  destruct (negb _); [injection Hrun as <- <-; by destruct Hdone|].
  destruct (validateDeviceControlContextPath spec _) as [path|] eqn:Hpath;
    [|injection Hrun as <- <-; by destruct Hdone].
  assert (Hlive : ∀ m c, live_context m io c → loadManagedDeviceContext true (m !! path) spec = Ok c).
  { intros m c (spec' & path' & Hs & Hp & Hl). rewrite Hspec in Hs. injection Hs as <-.
    rewrite Hpath in Hp. by injection Hp as <-. }
  assert (Hwrite : ∀ c, proper_context c → (∀ current, live_context contexts io current → continues current c) →
    ∀ w, writeManagedDeviceContext (context_replace io) contexts path c spec = (contexts', w) →
    contexts' ≠ contexts ∨ is_ok w = true →
    ∃ c, proper_context c ∧ (context_fits c = true → live_context contexts' io c) ∧
      ∀ current, live_context contexts io current → continues current c).
  { intros c Hc Hcont w. unfold writeManagedDeviceContext. destruct (_ && _);
      intros Heq; injection Heq as <- <-; [|by intros []]. intros _. exists c. split_and!; [done| |done].
    intros Hf. exists spec, path. split_and!; [done|done|]. rewrite lookup_insert_eq, loadContext_file by done.
    by rewrite Hf. }
  destruct (match loadManagedDeviceContext _ _ _ with Ok _ => _ | Err _ => _ end) as [c|e] eqn:Hnext;
    [|injection Hrun as <- <-; by destruct Hdone].
  assert (proper_context c ∧ ∀ current, live_context contexts io current → continues current c) as [Hc Hcont].
  { destruct (loadManagedDeviceContext _ (contexts !! path) spec) as [current|[]] eqn:Hload.
    - pose proof (load_readable_context _ _ _ _ Hload) as Hr. apply load_readable in Hload.
      destruct (continue_continues _ _ _ Hr Hd Hnext) as [Hc Hcont]. split; [done|].
      intros x Hx%Hlive. rewrite Hload in Hx. by injection Hx as <-.
    - apply Ok_inj in Hnext as <-. split; [done|]. intros x Hx%Hlive. exfalso.
      destruct (contexts !! path) as [f|]; [|done]. clear -Hload. unfold loadManagedDeviceContext in Hload.
      repeat case_match; done.
    - done. }
  destruct (writeManagedDeviceContext _ _ _ _ _) as [m w] eqn:Hw. injection Hrun as -> Hr.
  eapply Hwrite; [done|done|done|]. destruct Hdone as [?|Hok]; [by left|right]. by destruct w; subst r.
Qed.
