(* ===== verification/DeviceRelay.v ===== *)
(** * Device control: the bridge protocol

    The local side of a device relay (src/internal/devicecontrol/bridge.go:
    [handle] and what it calls, up to the opaque copying of bytes) and the
    checks of [OpenDeviceRelay] (src/internal/api/client.go).

    A connection is the bytes its peer sends.  Each turn of
    [awaitRelayMaterial] is described by how long the server took, what it
    answered, how late the goroutine woke up and which ready case the
    [select] took; [ctx_end] is the instant the session's context is done,
    which is at the latest its deadline, the expiry of the activation. *)

From S2P Require Import Prelude GoText GoTime GoBytes GoJson GoUtf8 GoJsonText GoJsonValue GoJsonDecode GoJsonStruct.
From S2P Require Import EgoFraming DevicePayload DeviceStore DeviceCodec.
From Stdlib.Strings Require Import Ascii.

Definition bridgeProtocolVersion : Z := 1.
Definition maximumBridgeFrame : Z := 4096.
Definition relayMaterialRetry : duration := 100 * millisecond.

Definition hexDigestPattern : string → bool := hex64.

Module Hello.
Record bridgeHello := mk {
  ProtocolVersion : Z;
  UserID : string;
  DeviceID : string;
  ToolSessionID : string;
  DeviceSessionID : string;
  NodeID : string;
  Platform : string;
  Generation : Z;
  SPKISHA256 : string
}.

Definition fields : list (field bridgeHello) := [
  int_field "protocol_version" ProtocolVersion (λ x r, r <| ProtocolVersion := x |>);
  str_field "user_id" UserID (λ x r, r <| UserID := x |>);
  str_field "device_id" DeviceID (λ x r, r <| DeviceID := x |>);
  str_field "tool_session_id" ToolSessionID (λ x r, r <| ToolSessionID := x |>);
  str_field "device_session_id" DeviceSessionID (λ x r, r <| DeviceSessionID := x |>);
  str_field "node_id" NodeID (λ x r, r <| NodeID := x |>);
  str_field "platform" Platform (λ x r, r <| Platform := x |>);
  uint64_field "generation" Generation (λ x r, r <| Generation := x |>);
  str_field "spki_sha256" SPKISHA256 (λ x r, r <| SPKISHA256 := x |>)].

Definition zero : bridgeHello := mk 0 "" "" "" "" "" "" 0 "".
End Hello.
Export Hello(bridgeHello).

Module Material.
Record bridgeMaterial := mk {
  ProtocolVersion : Z;
  Generation : Z;
  PeerSPKISHA256 : string;
  ExporterContext : string
}.

Definition fields : list (field bridgeMaterial) := [
  int_field "protocol_version" ProtocolVersion (λ x r, r <| ProtocolVersion := x |>);
  uint64_field "generation" Generation (λ x r, r <| Generation := x |>);
  str_field "peer_spki_sha256" PeerSPKISHA256 (λ x r, r <| PeerSPKISHA256 := x |>);
  str_field "exporter_context" ExporterContext (λ x r, r <| ExporterContext := x |>)].

Definition zero : bridgeMaterial := mk 0 0 "" "".
End Material.
Export Material(bridgeMaterial).

(** ** Frames *)

Inductive relay_error :=
  | ReadFailed | BadFrame | HelloMismatch | RegistrationFailed | MaterialUnbound | MaterialIncomplete
  | MaterialExpiry | MaterialStatus | ContextDone | RelayRefused | FrameWriteFailed.

#[global] Instance relay_error_eq_dec : EqDecision relay_error.
Proof. solve_decision. Defined.

Definition readBridgeFrame {R} (fields : list (field R)) (zero : R) (input : bytes)
    : result relay_error (R * bytes) :=
  match ReadFull 4 input with
  | Err _ => Err ReadFailed
  | Ok (header, input) =>
      let length := uint32_of header in
      require negb (length =? 0) && (length <=? maximumBridgeFrame) orelse BadFrame ;;
      match ReadFull (Z.to_nat length) input with
      | Err _ => Err ReadFailed
      | Ok (data, rest) =>
          match decodeStrictJSONObject fields zero (String.string_of_list_byte data) with
          | Some v => Ok (v, rest)
          | None => Err BadFrame
          end
      end
  end.

(** A write that failed after [Some n] bytes, or wrote everything. *)
Definition wire (outcome : option nat) (data : bytes) : bytes :=
  match outcome with Some n => take n data | None => data end.

(** The bytes on the wire and the outcome. *)
Definition writeBridgeFrame {R} (fields : list (field R)) (v : R) (header_write body_write : option nat)
    : bytes * result relay_error unit :=
  let data := bytes_of_string (print_value compact 0 (encode_struct fields v)) in
  let length := Z.of_nat (length data) in
  if (length =? 0) || (maximumBridgeFrame <? length) then ([], Err BadFrame) else
  let header := wire header_write (put_uint32 length) in
  match header_write with
  | Some _ => (header, Err FrameWriteFailed)
  | None =>
      (header ++ wire body_write data,
       match body_write with Some _ => Err FrameWriteFailed | None => Ok tt end)
  end.

Definition validateBridgeHello (hello : bridgeHello) (a : ActivatePayload) : bool :=
  (Hello.ProtocolVersion hello =? bridgeProtocolVersion) &&
  String.eqb (Hello.UserID hello) (Activation.UserID a) &&
  String.eqb (Hello.DeviceID hello) (Activation.DeviceID a) &&
  String.eqb (Hello.ToolSessionID hello) (Activation.ToolSessionID a) &&
  String.eqb (Hello.DeviceSessionID hello) (Activation.DeviceSessionID a) &&
  String.eqb (Hello.NodeID hello) (Activation.NodeID a) &&
  String.eqb (Hello.Platform hello) (Activation.Platform a) &&
  (Hello.Generation hello =? Activation.Generation a) &&
  hexDigestPattern (Hello.SPKISHA256 hello).

(** ** Relay material *)

(** [DeviceRelayMaterialResponse.Data] *)
Record DeviceRelayMaterial := mkRelayMaterial {
  Status : string;
  Role : string;
  MaterialGeneration : Z;
  RelayPath : option string;
  RelayTicket : option string;
  PeerSPKI : option string;
  Exporter : option string;
  ExpiresAt : option string
}.

Record readyRelayMaterial := mkReady {
  relayPath : string;
  relayTicket : string;
  peerSPKI : string;
  exporterContext : string
}.

(** One turn of the loop; [answer] is [None] for a failed call. *)
Record relay_round := mkRound {
  took : duration;
  answer : option DeviceRelayMaterial;
  woke_late : duration;
  timer_first : bool
}.

(** What the loop does with an answer received at [now]: [None] to wait. *)
Definition judge (a : ActivatePayload) (now : time) (m : DeviceRelayMaterial)
    : option (result relay_error readyRelayMaterial) :=
  if negb (String.eqb (Role m) "proxy") || negb (MaterialGeneration m =? Activation.Generation a)
  then Some (Err MaterialUnbound)
  else if String.eqb (Status m) "ready" then
    match RelayPath m, RelayTicket m, PeerSPKI m, Exporter m, ExpiresAt m with
    | Some path, Some ticket, Some peer, Some exporter, Some expires =>
        if negb (hexDigestPattern peer) || negb (hexDigestPattern exporter) then Some (Err MaterialIncomplete) else
        match parse_rfc3339 expires, parse_rfc3339 (Activation.ExpiresAt a) with
        | Some e, Some limit =>
            if negb (after e now) || after e limit then Some (Err MaterialExpiry)
            else Some (Ok (mkReady path ticket peer exporter))
        | _, _ => Some (Err MaterialExpiry)
        end
    | _, _, _, _, _ => Some (Err MaterialIncomplete)
    end
  else if negb (String.eqb (Status m) "waiting") then Some (Err MaterialStatus)
  else None.

Section Await.
Context (ctx_end : time) (a : ActivatePayload) (rounds : nat → relay_round).

(** A call with a context that is done fails.  [None] when the fuel runs out;
    otherwise the instant the loop ended and its outcome. *)
Fixpoint awaitRelayMaterial (fuel : nat) (n : nat) (now : time)
    : option (time * result relay_error readyRelayMaterial) :=
  match fuel with
  | O => None
  | S fuel' =>
      if ctx_end <=? now then Some (now, Err RegistrationFailed) else
      let r := rounds n in
      let now := now + took r in
      match answer r with
      | None => Some (now, Err RegistrationFailed)
      | Some m =>
          match judge a now m with
          | Some outcome => Some (now, outcome)
          | None =>
              let now := now + relayMaterialRetry + woke_late r in
              if (ctx_end <=? now) && negb (timer_first r) then Some (now, Err ContextDone)
              else awaitRelayMaterial fuel' (S n) now
          end
      end
  end.
End Await.

(** ** One connection *)

Definition path_unreserved (c : ascii) : bool := is_alnum c || has_char "-_.~$&+=:@" c.

Definition upper_hex (z : Z) : ascii := if z <? 10 then chr (48 + z) else chr (55 + z).

(** [url.PathEscape] *)
Fixpoint PathEscape (s : string) : string :=
  match s with
  | "" => ""
  | String c rest =>
      if path_unreserved c then String c (PathEscape rest)
      else String "%" (String (upper_hex (code c / 16)) (String (upper_hex (code c mod 16)) (PathEscape rest)))
  end.

(** [OpenDeviceRelay]; [dials] says that the server URL can be used and the
    server accepts the ticket. *)
Definition OpenDeviceRelay (dials : bool) (deviceSessionID path ticket : string) : bool :=
  let expectedPath := "/api/v1/device-sessions/" +:+ PathEscape deviceSessionID +:+ "/relay" in
  String.eqb path expectedPath && negb (String.eqb ticket "") && dials.

Record connection := mkConnection {
  received : bytes;
  connected_at : time;
  session_end : time;
  server_rounds : nat → relay_round;
  relay_dials : bool;
  frame_header : option nat;
  frame_body : option nat
}.

(** The relay that was opened, if one was, the bytes written to the local
    peer, and the outcome up to the copying of bytes. *)
Definition handle (fuel : nat) (c : connection) (a : ActivatePayload)
    : option (option (string * string) * bytes * result relay_error unit) :=
  match readBridgeFrame Hello.fields Hello.zero (received c) with
  | Err e => Some (None, [], Err e)
  | Ok (hello, _) =>
      if negb (validateBridgeHello hello a) then Some (None, [], Err HelloMismatch) else
      match awaitRelayMaterial (session_end c) a (server_rounds c) fuel 0 (connected_at c) with
      | None => None
      | Some (_, Err e) => Some (None, [], Err e)
      | Some (_, Ok m) =>
          if negb (OpenDeviceRelay (relay_dials c) (Activation.DeviceSessionID a) (relayPath m) (relayTicket m))
          then Some (None, [], Err RelayRefused)
          else
            let '(written, r) := writeBridgeFrame Material.fields
              (Material.mk bridgeProtocolVersion (Activation.Generation a) (peerSPKI m) (exporterContext m))
              (frame_header c) (frame_body c) in
            Some (Some (relayPath m, relayTicket m), written, r)
      end
  end.

(** ** Facts *)

(** C39: waiting for relay material always ends.  Whatever the server answers, for
    however long, the loop stops after at most one request per retry interval
    that is left of the session, and two more. *)
Theorem relay_wait_ends ctx_end a rounds fuel n now :
  (∀ i, 0 ≤ took (rounds i) ∧ 0 ≤ woke_late (rounds i)) →
  (Z.to_nat ((ctx_end - now) / relayMaterialRetry) + 2 ≤ fuel)%nat →
  ∃ t r, awaitRelayMaterial ctx_end a rounds fuel n now = Some (t, r).
Proof.
  intros Hr. revert n now. induction fuel as [|fuel IH]; intros n now Hf; [lia|]. cbn [awaitRelayMaterial].
  destruct (Z.leb_spec ctx_end now) as [|Hlt]; [by eauto|].
  destruct (answer (rounds n)) as [m|]; [|by eauto]. destruct (judge _ _ m); [by eauto|].
  destruct (_ && _); [by eauto|]. destruct (Hr n) as [H1 H2].
  set (later := now + took (rounds n) + relayMaterialRetry + woke_late (rounds n)).
  assert (Hpos : 0 < relayMaterialRetry) by (unfold relayMaterialRetry, millisecond; lia).
  assert (Hlater : now + relayMaterialRetry ≤ later) by (unfold later; lia).
  assert (Hstep : (ctx_end - later) / relayMaterialRetry ≤ (ctx_end - now) / relayMaterialRetry - 1).
  { rewrite <- (Z.add_opp_r (_ / _) 1), <- (Z.div_add (ctx_end - now) (-1)) by lia. apply Z.div_le_mono; lia. }
  assert (H0 : 0 ≤ (ctx_end - now) / relayMaterialRetry) by (apply Z.div_pos; lia).
  destruct (Z.le_gt_cases ctx_end later) as [Hend|Hmore]; [|apply IH].
  - destruct fuel as [|fuel]; [lia|]. cbn [awaitRelayMaterial].
    destruct (Z.leb_spec ctx_end later); [by eauto|lia].
  - assert (0 ≤ (ctx_end - later) / relayMaterialRetry) by (apply Z.div_pos; lia). lia.
Qed.

(** Material that [judge] accepts. *)
Record granted (a : ActivatePayload) (now : time) (m : DeviceRelayMaterial) (ready : readyRelayMaterial) : Prop := {
  granted_role : Role m = "proxy";
  granted_status : Status m = "ready";
  granted_generation : MaterialGeneration m = Activation.Generation a;
  granted_path : RelayPath m = Some (relayPath ready);
  granted_ticket : RelayTicket m = Some (relayTicket ready);
  granted_peer : PeerSPKI m = Some (peerSPKI ready) ∧ hexDigestPattern (peerSPKI ready) = true;
  granted_exporter : Exporter m = Some (exporterContext ready) ∧ hexDigestPattern (exporterContext ready) = true;
  granted_expiry : ∃ text e limit, ExpiresAt m = Some text ∧ parse_rfc3339 text = Some e ∧
    parse_rfc3339 (Activation.ExpiresAt a) = Some limit ∧ now < e ≤ limit
}.

Lemma judge_granted a now m ready : judge a now m = Some (Ok ready) → granted a now m ready.
Proof.
  unfold judge. destruct (String.eqb_spec (Role m) "proxy"); [|done].
  destruct (Z.eqb_spec (MaterialGeneration m) (Activation.Generation a)); [|done]. cbn [negb orb].
  destruct (String.eqb_spec (Status m) "ready"); [|by destruct (negb _)].
  destruct (RelayPath m) as [path|] eqn:H1, (RelayTicket m) as [ticket|] eqn:H2, (PeerSPKI m) as [peer|] eqn:H3,
    (Exporter m) as [exporter|] eqn:H4, (ExpiresAt m) as [expires|] eqn:H5; try done.
  destruct (hexDigestPattern peer) eqn:Hp, (hexDigestPattern exporter) eqn:He; try done. cbn [negb orb].
  destruct (parse_rfc3339 expires) as [until|] eqn:Hx; [|done].
  destruct (parse_rfc3339 (Activation.ExpiresAt a)) as [limit|] eqn:Hl; [|done].
  destruct (_ || _) eqn:Hwin; [done|]. intros [= <-]. unfold after in *. reflect_bools.
  split; cbn; try done. by exists expires, until, limit.
Qed.

Lemma await_granted ctx_end a rounds fuel n now t ready :
  awaitRelayMaterial ctx_end a rounds fuel n now = Some (t, Ok ready) →
  ∃ i m, answer (rounds i) = Some m ∧ granted a t m ready.
Proof.
  revert n now. induction fuel as [|fuel IH]; intros n now; [done|]. cbn [awaitRelayMaterial].
  destruct (ctx_end <=? now); [done|]. destruct (answer (rounds n)) as [m|] eqn:Hm; [|done].
  destruct (judge _ _ m) as [o|] eqn:Hj; [|destruct (_ && _); [done|apply IH]].
  intros [= <- ->]. exists n, m. split; [done|]. by apply judge_granted.
Qed.

Lemma uuid_escape s : uuidPattern s = true → PathEscape s = s.
Proof.
  unfold uuidPattern. match goal with |- match_classes ?l s = true → _ => set (ps := l) end.
  assert (Hps : Forall (λ p : ascii → bool, ∀ c, p c = true → path_unreserved c = true) ps).
  { assert (Hhex : ∀ c, is_hex c = true → path_unreserved c = true)
      by (intros c; by destruct c as [[] [] [] [] [] [] [] []]).
    unfold ps. cbn [replicate app].
    repeat (apply Forall_cons_2; [first [exact Hhex | intros c; by destruct c as [[] [] [] [] [] [] [] []]]|]). constructor. }
  clearbody ps. revert s. induction Hps as [|p ps Hp _ IH]; intros [|c s]; cbn; try done.
  intros [Hc Hs]%andb_true_iff. rewrite Hp by done. by rewrite IH.
Qed.

Lemma material_carried g peer exporter :
  0 ≤ g ≤ max_uint64 → hexDigestPattern peer = true → hexDigestPattern exporter = true →
  let m := Material.mk bridgeProtocolVersion g peer exporter in
  carried (encode_struct Material.fields m) (λ _ _, decode_known Material.fields Material.zero) m.
Proof.
  assert (Hhex : ∀ s, hexDigestPattern s = true → valid_utf8 (codes s) = true).
  { intros s Hs. apply ascii_utf8. eapply classes_ascii; [|exact Hs].
    apply list.Forall_forall. intros p Hp%elem_of_replicate_inv. subst p. exact hex_ascii. }
  intros Hg Hp%Hhex He%Hhex. apply known_carried, struct_carried; [solve_disjoint| |done].
  repeat (apply Forall_cons_2; [first [by apply carries_str|by apply carries_uint64
    |apply carries_int; [done|unfold max_int64, bridgeProtocolVersion; cbn; lia]]|]). constructor.
Qed.

(** A frame that was written completely is read back. *)
Lemma frame_read_back {R} (fields : list (field R)) zero v h b written :
  carried (encode_struct fields v) (λ _ _, decode_known fields zero) v →
  (height (encode_struct fields v) ≤ 1)%nat →
  writeBridgeFrame fields v h b = (written, Ok tt) →
  readBridgeFrame fields zero written = Ok (v, []).
Proof.
  intros Hc Hh. unfold writeBridgeFrame. set (data := bytes_of_string _).
  destruct (_ || _) eqn:Hlen; [done|]. destruct h; [done|]. destruct b; [done|].
  intros Heq. apply pair_equal_spec in Heq as [<- _]. cbn [wire].
  apply orb_false_iff in Hlen as [H0 Hmax]. unfold readBridgeFrame.
  rewrite ReadFull_app by apply put_uint32_length. reflect_bools.
  rewrite uint32_roundtrip by (unfold maximumBridgeFrame, max_uint32 in *; lia).
  rewrite (proj2 (Z.eqb_neq _ 0)), (proj2 (Z.leb_le _ _)) by lia. cbn [negb andb].
  rewrite Nat2Z.id. rewrite <- (app_nil_r data) at 2. rewrite ReadFull_app by done.
  unfold data, bytes_of_string. rewrite String.string_of_list_byte_of_string.
  rewrite <- (string_app_nil (print_value compact 0 _)).
  rewrite strict_object_print; [done|apply compact_white|done|done|done].
Qed.

(** a relay is opened only for the peer and the generation the control plane
    activated.  If a connection leads to an open relay, the peer's first frame
    named exactly the activation's user, device, sessions, node, platform and
    generation with a certificate digest; the server granted, for this
    generation, a ticket that has not expired and does not outlive the
    activation; the relay is the device session's own; and a peer that was
    answered reads exactly the granted pins. *)
Theorem relay_opened_exact node fuel c a path ticket written r :
  well_formed node a →
  handle fuel c a = Some (Some (path, ticket), written, r) →
  (∃ hello rest, readBridgeFrame Hello.fields Hello.zero (received c) = Ok (hello, rest) ∧
     hello = Hello.mk 1 (Activation.UserID a) (Activation.DeviceID a) (Activation.ToolSessionID a)
       (Activation.DeviceSessionID a) (Activation.NodeID a) (Activation.Platform a) (Activation.Generation a)
       (Hello.SPKISHA256 hello) ∧ hexDigestPattern (Hello.SPKISHA256 hello) = true) ∧
  path = "/api/v1/device-sessions/" +:+ Activation.DeviceSessionID a +:+ "/relay" ∧ ticket ≠ "" ∧
  ∃ i m now ready, answer (server_rounds c i) = Some m ∧ granted a now m ready ∧
    relayPath ready = path ∧ relayTicket ready = ticket ∧
    (r = Ok tt → readBridgeFrame Material.fields Material.zero written =
       Ok (Material.mk 1 (Activation.Generation a) (peerSPKI ready) (exporterContext ready), [])).
Proof.
  intros Ha. unfold handle.
  destruct (readBridgeFrame _ _ (received c)) as [[hello rest]|] eqn:Hread; [|done].
  destruct (validateBridgeHello hello a) eqn:Hhello; [|done]. cbn [negb].
  destruct (awaitRelayMaterial _ _ _ _ _ _) as [[now [ready|]]|] eqn:Hwait; [|done..].
  destruct (await_granted _ _ _ _ _ _ _ _ Hwait) as (i & m & Hm & Hg).
  destruct (OpenDeviceRelay _ _ _ _) eqn:Hopen; [|done]. cbn [negb].
  destruct (writeBridgeFrame _ _ _ _) as [w out] eqn:Hw. intros [= <- <- <- <-].
  unfold OpenDeviceRelay in Hopen. rewrite uuid_escape in Hopen by apply Ha.
  rewrite !andb_true_iff, negb_true_iff, String.eqb_eq, String.eqb_neq in Hopen. destruct Hopen as [[Hpath Htick] _].
  split_and!; [|done|done|].
  - exists hello, rest. unfold validateBridgeHello in Hhello. destruct hello as [v u d t s n p g k]. cbn in *.
    rewrite !andb_true_iff, !String.eqb_eq, !Z.eqb_eq in Hhello. destruct_and!. subst. done.
  - exists i, m, now, ready. split_and!; [done|done|done|done|]. intros ->.
    destruct (granted_peer _ _ _ _ Hg) as [_ Hp]. destruct (granted_exporter _ _ _ _ Hg) as [_ He].
    eapply frame_read_back; [|apply struct_height; solve_heights|exact Hw].
    apply material_carried; [|done|done]. apply generation_uint64, Ha.
Qed.
