(* ===== verification/DeviceDemo.v ===== *)
(** * Device control: concrete runs

    A device session that is activated, given a context, activated again at a
    later generation and deactivated, with the theorems applied to these
    states, and a relay connection. *)

From S2P Require Import Prelude GoText GoTime GoBytes GoJson GoUtf8 GoJsonText GoJsonValue GoJsonDecode GoJsonStruct.
From S2P Require Import Worker DevicePayload DeviceStore DeviceCodec DeviceFacts DeviceContext DeviceRelay.
From Stdlib.Strings Require Import Ascii.

Module DeviceDemo.

Definition node := "123e4567-e89b-42d3-a456-426614174000".
Definition device_session := "223e4567-e89b-42d3-a456-426614174001".
Definition tool_session := "323e4567-e89b-42d3-a456-426614174002".
Definition user := "423e4567-e89b-42d3-a456-426614174003".
Definition device := "523e4567-e89b-42d3-a456-426614174004".

(** 2026-01-01T00:00:00Z *)
Definition start : time := 1767225600 * second.

Definition activate_payload (generation : string) : list (string * value) :=
  [("device_id", VStr device); ("device_session_id", VStr device_session);
   ("expires_at", VStr "2026-01-01T01:00:00Z"); ("generation", VNum generation); ("node_id", VStr node);
   ("platform", VStr "macos"); ("protocol_version", VNum "1"); ("runtime_backend", VStr "native");
   ("tool_session_id", VStr tool_session); ("user_id", VStr user)].

Definition activation (generation : Z) : ActivatePayload :=
  Activation.mk 1 AuthorizationModePerApplicationApproval 1 user device tool_session device_session node
    "macos" generation "2026-01-01T01:00:00Z" "native" "".

Definition deactivate_payload (generation : string) : list (string * value) :=
  [("device_session_id", VStr device_session); ("generation", VNum generation);
   ("tool_session_id", VStr tool_session)].

Definition context_payload (generation lease : string) : list (string * value) :=
  [("device_id", VStr device); ("device_session_id", VStr device_session); ("generation", VNum generation);
   ("lease_until", VStr lease); ("node_id", VStr node); ("platform", VStr "macos");
   ("protocol_version", VNum "1"); ("tool_session_id", VStr tool_session); ("user_id", VStr user)].

Definition spec : managedSessionContextSpec :=
  mkSpec tool_session user 1 "/srv/sessions/a/device-control" 1001 1001.

Definition helper_io : context_io :=
  mkContextIO start (SpecFound spec) (DirInfo true false 0) true all_well true.

Definition env : task_env :=
  mkTaskEnv node ["native"] start Answered helper_io
    (mkActivationIO "/var/lib/agent/device" (RootInfo true false 448) true true all_well true 0 0)
    (mkBridgeIO (DirInfo true false 0) SocketMissing true true true start).

Definition activated : device_state := (activate_device_control env no_device (activate_payload "3")).1.
Definition with_context : device_state :=
  (update_device_control_context env activated (context_payload "3" "2026-01-01T00:05:00Z")).1.
Definition reactivated : device_state := (activate_device_control env with_context (activate_payload "4")).1.
Definition deactivated : device_state := (deactivate_device_control env reactivated (deactivate_payload "5")).1.

Lemma first_activation : device_step node no_device TaskActivate activated.
Proof. exact (step_activate node env no_device (activate_payload "3") eq_refl). Qed.

Lemma first_update : device_step node activated TaskUpdate with_context.
Proof. exact (step_update node env activated (context_payload "3" "2026-01-01T00:05:00Z")). Qed.

Lemma second_activation : device_step node with_context TaskActivate reactivated.
Proof. exact (step_activate node env with_context (activate_payload "4") eq_refl). Qed.

Lemma activated_reachable : device_reachable node activated.
Proof. exists [TaskActivate]. eapply history_cons; [exact first_activation|]. constructor. Qed.

Lemma with_context_reachable : device_reachable node with_context.
Proof.
  exists [TaskActivate; TaskUpdate]. eapply history_cons; [exact first_activation|].
  eapply history_cons; [exact first_update|]. constructor.
Qed.

Lemma reactivation : device_history node with_context [TaskActivate] reactivated.
Proof. eapply history_cons; [exact second_activation|]. constructor. Qed.

Lemma reactivated_reachable : device_reachable node reactivated.
Proof.
  exists [TaskActivate; TaskUpdate; TaskActivate]. eapply history_cons; [exact first_activation|].
  eapply history_cons; [exact first_update|]. exact reactivation.
Qed.

Lemma activated_session : sessions activated !! (device_session, 3) = Some (activation 3).
Proof. by vm_compute. Qed.

Lemma typed_witness :
  sessions activated !! (device_session, 3) = Some (activation 3) ∧ well_formed node (activation 3).
Proof.
  split; [exact activated_session|].
  by apply (proj2 (device_state_typed node activated activated_reachable) _ _ activated_session).
Defined.

Lemma backed_witness :
  sessions activated !! (device_session, 3) = Some (activation 3) ∧
  ∃ p, holds node (manifests activated) device_session p ∧
    (activation 3 = p ∨ 3 < Activation.Generation p).
Proof.
  split; [exact activated_session|].
  exact (proj2 (bridges_backed node activated activated_reachable) _ _ activated_session).
Defined.

(** The file of the device session, read as the node reads it. *)
Lemma file_of (s : device_state) g :
  device_reachable node s →
  loadManifest true (manifests s !! device_session) = Ok (activation g) →
  holds node (manifests s) device_session (activation g).
Proof.
  intros Hs%device_reachable_inv Hl. pose proof (load_typed node (manifests s) device_session true (inv_files _ _ Hs)) as H.
  rewrite Hl in H. apply H.
Qed.

Lemma with_context_file : holds node (manifests with_context) device_session (activation 3).
Proof. apply file_of; [exact with_context_reachable|]. by vm_compute. Qed.

Lemma forward_witness :
  holds node (manifests with_context) device_session (activation 3) ∧
  ∃ q, holds node (manifests reactivated) device_session q ∧
    (q = activation 3 ∨ 3 < Activation.Generation q).
Proof.
  split; [exact with_context_file|].
  apply (generation_forward node with_context [TaskActivate] reactivated device_session (activation 3)).
  - exact with_context_reachable.
  - exact reactivation.
  - exact with_context_file.
  - by intros d [[=]|?%not_elem_of_nil]%elem_of_cons.
Defined.

(** A run by its outcome. *)
Lemma run_is {A B} (x : A * B) (b : B) : x.2 = b → x = (x.1, b).
Proof. destruct x. by intros <-. Qed.

Lemma deactivation_witness :
  ∃ answer, deactivate_device_control env reactivated (deactivate_payload "5") = (deactivated, Ok answer) ∧
    get "removed" answer = Some (VBool true) ∧
    (∀ k a, sessions deactivated !! k = Some a → Activation.DeviceSessionID a = device_session →
       5 < Activation.Generation a).
Proof.
  set (answer := [("device_session_id", VStr device_session); ("generation", VNum "5");
                  ("removed", VBool true); ("status", VStr "deactivated")]).
  assert (Hrun : deactivate_device_control env reactivated (deactivate_payload "5") = (deactivated, Ok answer)).
  { exact (run_is (deactivate_device_control env reactivated (deactivate_payload "5")) (Ok answer) ltac:(by vm_compute)). }
  exists answer. split_and!; [exact Hrun|done|].
  exact (proj1 (deactivation_complete node env reactivated (deactivate_payload "5")
    (Deactivation.mk device_session tool_session 5) deactivated answer reactivated_reachable
    ltac:(by vm_compute) Hrun)).
Defined.

Lemma activation_witness :
  sessions reactivated !! (device_session, 4) = Some (activation 4) ∧
  ∀ c, live_context (contexts reactivated) helper_io c → 4 ≤ Managed.Generation c.
Proof.
  set (answer := [("device_session_id", VStr device_session); ("generation", VNum "4");
                  ("status", VStr "activated"); ("tool_session_id", VStr tool_session)]).
  destruct (activation_complete node env with_context (activate_payload "4") (activation 4) reactivated answer)
    as (_ & Hs & _ & Hc).
  - exact with_context_reachable.
  - reflexivity.
  - by vm_compute.
  - exact (run_is (activate_device_control env with_context (activate_payload "4")) (Ok answer) ltac:(by vm_compute)).
  - split; [exact Hs|]. intros c Hlive. by apply (Hc c).
Defined.

(** A session that has used its first sequence numbers and gets a longer lease. *)
Definition used_context : managedDeviceContext :=
  Managed.mk AuthorizationModePerApplicationApproval 1 user device tool_session device_session node "macos" 3
    17 2 5 no_strings "2026-01-01T00:03:00Z".

Definition used_files : gmap string disk_file :=
  {["/srv/sessions/a/device-control/context.json" := mkFile true 384 1001 1001 (context_text used_context)]}.

Lemma used_live : live_context used_files helper_io used_context.
Proof. exists spec, "/srv/sessions/a/device-control/context.json". split_and!; by vm_compute. Qed.

Lemma device_context_witness :
  live_context used_files helper_io used_context ∧ ∃ c, proper_context c ∧ continues used_context c.
Proof.
  split; [exact used_live|].
  destruct (context_sequence_kept helper_io used_files (context_payload "3" "2026-01-01T00:05:00Z")
    (updateDeviceControlContext helper_io used_files (context_payload "3" "2026-01-01T00:05:00Z")).1
    (updateDeviceControlContext helper_io used_files (context_payload "3" "2026-01-01T00:05:00Z")).2)
    as (c & Hc & _ & Hcont).
  - apply surjective_pairing.
  - right. by vm_compute.
  - exists c. split; [exact Hc|]. exact (Hcont _ used_live).
Defined.

(** ** A relay connection *)

Definition digest := "aaaaaaaaaaaaaaaaaaaaaaaaaaaaaaaaaaaaaaaaaaaaaaaaaaaaaaaaaaaaaaaa".

Definition hello : bridgeHello :=
  Hello.mk 1 user device tool_session device_session node "macos" 3 digest.

Definition waiting : relay_round :=
  mkRound millisecond (Some (mkRelayMaterial "waiting" "proxy" 3 None None None None None)) 0 false.

Definition relay_path := "/api/v1/device-sessions/" +:+ device_session +:+ "/relay".

Definition ready : relay_round :=
  mkRound millisecond (Some (mkRelayMaterial "ready" "proxy" 3 (Some relay_path) (Some "ticket") (Some digest)
    (Some digest) (Some "2026-01-01T00:01:00Z"))) 0 false.

Definition rounds (n : nat) : relay_round := match n with 0%nat | 1%nat => waiting | _ => ready end.

Lemma wait_witness :
  (Z.to_nat ((start + second - start) / relayMaterialRetry) + 2 ≤ 12)%nat ∧
  ∃ t r, awaitRelayMaterial (start + second) (activation 3) (λ _, waiting) 12 0 start = Some (t, r).
Proof.
  split; [by apply Nat.leb_le; vm_compute|]. apply relay_wait_ends.
  - intros i. split; by vm_compute.
  - by apply Nat.leb_le; vm_compute.
Defined.

Definition peer : connection :=
  mkConnection (writeBridgeFrame Hello.fields hello None None).1 start (start + 10 * second) rounds true None None.

Definition relay_frame : bytes :=
  (writeBridgeFrame Material.fields (Material.mk 1 3 digest digest) None None).1.

Lemma relay_witness :
  handle 5 peer (activation 3) = Some (Some (relay_path, "ticket"), relay_frame, Ok tt) ∧
  ∃ i m now granted_, answer (rounds i) = Some m ∧ granted (activation 3) now m granted_.
Proof.
  assert (Hrun : handle 5 peer (activation 3) = Some (Some (relay_path, "ticket"), relay_frame, Ok tt)) by (by vm_compute).
  split; [exact Hrun|].
  destruct (relay_opened_exact node 5 peer (activation 3) relay_path "ticket" relay_frame (Ok tt)
    ltac:(apply with_context_file) Hrun) as (_ & _ & _ & i & m & now & r & Hm & Hg & _).
  exists i, m, now, r. exact (conj Hm Hg).
Defined.

(** ** An activation that cannot be taken back

    [expires_at] may have any number of fractional digits, and the activation
    file is written without a bound on its size; one with enough digits is
    larger than the reader allows, and neither a later activation nor a
    deactivation of its device session succeeds again. *)

Fixpoint zeros (n : nat) (rest : string) : string :=
  match n with O => rest | S n' => String "0" (zeros n' rest) end.

Definition long_payload : list (string * value) :=
  map (λ f, if String.eqb f.1 "expires_at"
            then (f.1, VStr ("2026-01-01T01:00:00." +:+ zeros (Z.to_nat 16384) "Z")) else f)
      (activate_payload "3").

Definition stuck : device_state := (activate_device_control env no_device long_payload).1.

Example oversized_activation_sticks :
  is_ok (activate_device_control env no_device long_payload).2 = true ∧
  (activate_device_control env stuck (activate_payload "4")).2 = Err (StoreFailed FileUnreadable) ∧
  (deactivate_device_control env stuck (deactivate_payload "5")).2 = Err (StoreFailed FileUnreadable).
Proof. split_and!; by vm_compute. Qed.
End DeviceDemo.
