(* ===== verification/Deployment.v ===== *)
(** * Skill deployments: identities, receipts and outcomes

    The identity of a deployment attempt and the receipts of its preparation
    and drain (src/internal/skillmanager/deployment.go,
    deployment_receipt.go, deployment_drain.go, deployment_json.go), and the
    results and observations exchanged with the server
    (src/internal/api/skill_deployment_result.go,
    skill_deployment_termination.go, skill_deployment_termination_json.go):
    validation, strict JSON decoding, and the checks of an answer. *)

From S2P Require Import Prelude GoText GoTime GoJson GoUtf8 GoJsonText GoJsonValue GoJsonDecode GoJsonStruct.
From S2P Require Import Manifest StartResult.
From Stdlib.Strings Require Import Ascii.

(** ** Strict decoding *)

(** Every name once at the outer level of an object. *)
Definition rejectReceiptDuplicates (j : json) : bool :=
  match j with JObj fields => bool_decide (NoDup (map (λ f, f.1.1) fields)) | _ => false end.

Definition decodeDeploymentFields {R} (fields : list (field R)) (current : R) (allowed : list string) (j : json)
    : option R :=
  if rejectReceiptDuplicates j && exact_members "" allowed j then decode_struct fields current j else None.

(** The same with every name once at every level. *)
Definition decodeDeploymentResultFields {R} (fields : list (field R)) (current : R) (allowed : list string)
    (j : json) : option R :=
  if no_duplicate_keys j && exact_members "" allowed j then decode_struct fields current j else None.

(** A pointer to a struct with its own decoder: null is nil. *)
Definition pointer_field {R A} (name : string) (get : R → option A) (set : option A → R → R)
    (enc : A → value) (dec : json → option A) : field R :=
  mkField name get set (λ o, Some (match o with Some x => enc x | None => VNull end))
    (λ _ _ j, match j with JNull => Some None | _ => x ← dec j; Some (Some x) end).

(** ** Identities *)

Module Deploy.
Record SkillDeploymentIdentity := mk {
  OperationID : string;
  AttemptID : string;
  TaskID : string;
  UserID : string;
  AccountID : string;
  NodeID : string;
  CheckpointID : string;
  PlanDigest : string;
  TreeDigest : string;
  RuntimeBackend : string
}.

#[global] Instance eq_dec : EqDecision SkillDeploymentIdentity.
Proof. solve_decision. Defined.

Definition fields : list (field SkillDeploymentIdentity) := [
  str_field "operation_id" OperationID (λ x r, r <| OperationID := x |>);
  str_field "attempt_id" AttemptID (λ x r, r <| AttemptID := x |>);
  str_field "task_id" TaskID (λ x r, r <| TaskID := x |>);
  str_field "user_id" UserID (λ x r, r <| UserID := x |>);
  str_field "account_id" AccountID (λ x r, r <| AccountID := x |>);
  str_field "node_id" NodeID (λ x r, r <| NodeID := x |>);
  str_field "checkpoint_id" CheckpointID (λ x r, r <| CheckpointID := x |>);
  str_field "plan_digest" PlanDigest (λ x r, r <| PlanDigest := x |>);
  str_field "tree_digest" TreeDigest (λ x r, r <| TreeDigest := x |>);
  str_field "runtime_backend" RuntimeBackend (λ x r, r <| RuntimeBackend := x |>)].

Definition zero : SkillDeploymentIdentity := mk "" "" "" "" "" "" "" "" "" "".

Definition binding_names : list string :=
  ["operation_id"; "attempt_id"; "task_id"; "user_id"; "account_id"; "node_id"; "checkpoint_id";
   "plan_digest"; "tree_digest"; "runtime_backend"].

Definition Validate (b : SkillDeploymentIdentity) : bool :=
  forallb validSkillUUID [OperationID b; AttemptID b; TaskID b; UserID b; AccountID b; NodeID b; CheckpointID b] &&
  String.eqb (RuntimeBackend b) "native" && contentDigestPattern (PlanDigest b) &&
  contentDigestPattern (TreeDigest b).
End Deploy.
Export Deploy(SkillDeploymentIdentity).

(** A plain (lax) struct member. *)
Definition binding_field {R} (get : R → SkillDeploymentIdentity) (set : SkillDeploymentIdentity → R → R) : field R :=
  sub_field "binding" get set (encode_struct Deploy.fields) (decode_struct Deploy.fields).

(** ** Preparation *)

Module Receipt.
Record DeploymentPreparation := mk {
  Version : Z;
  Binding : SkillDeploymentIdentity;
  InputDigest : string;
  DirectoryEpoch : Z;
  Generation : Z;
  HelperReceiptID : string
}.

#[global] Instance eq_dec : EqDecision DeploymentPreparation.
Proof. solve_decision. Defined.

Definition fields : list (field DeploymentPreparation) := [
  int_field "version" Version (λ x r, r <| Version := x |>);
  binding_field Binding (λ x r, r <| Binding := x |>);
  str_field "input_digest" InputDigest (λ x r, r <| InputDigest := x |>);
  int_field "directory_epoch" DirectoryEpoch (λ x r, r <| DirectoryEpoch := x |>);
  int_field "generation" Generation (λ x r, r <| Generation := x |>);
  str_field "helper_receipt_id" HelperReceiptID (λ x r, r <| HelperReceiptID := x |>)].

Definition zero : DeploymentPreparation := mk 0 Deploy.zero "" 0 0 "".

Definition names : list string :=
  ["version"; "binding"; "input_digest"; "directory_epoch"; "generation"; "helper_receipt_id"].

Definition ValidateBinding (r : DeploymentPreparation) : bool :=
  Deploy.Validate (Binding r) && (Version r =? 1) && contentDigestPattern (InputDigest r) &&
  (1 <=? DirectoryEpoch r) && (0 <=? Generation r) && validSkillUUID (HelperReceiptID r).

(** [UnmarshalJSON] *)
Definition of_json (j : json) : option DeploymentPreparation :=
  r ← decodeDeploymentFields fields zero names j;
  b ← raw_member j "binding";
  binding ← decodeDeploymentFields Deploy.fields (Binding r) Deploy.binding_names b.2;
  Some (r <| Binding := binding |>).
End Receipt.
Export Receipt(DeploymentPreparation).

Definition max_lease_attempt : Z := 2147483647.

Module Prepared.
Record SkillDeploymentPreparedResult := mk {
  LeaseAttempt : Z;
  Preparation : DeploymentPreparation
}.

#[global] Instance eq_dec : EqDecision SkillDeploymentPreparedResult.
Proof. solve_decision. Defined.

Definition fields : list (field SkillDeploymentPreparedResult) := [
  int_field "lease_attempt" LeaseAttempt (λ x r, r <| LeaseAttempt := x |>);
  sub_field "preparation" Preparation (λ x r, r <| Preparation := x |>)
    (encode_struct Receipt.fields) (λ _, Receipt.of_json)].

Definition zero : SkillDeploymentPreparedResult := mk 0 Receipt.zero.

Definition Validate (r : SkillDeploymentPreparedResult) : bool :=
  (1 <=? LeaseAttempt r) && (LeaseAttempt r <=? max_lease_attempt) && Receipt.ValidateBinding (Preparation r).

Definition of_json (j : json) : option SkillDeploymentPreparedResult :=
  r ← decodeDeploymentResultFields fields zero ["lease_attempt"; "preparation"] j;
  if Validate r then Some r else None.
End Prepared.
Export Prepared(SkillDeploymentPreparedResult).

Module ResultObs.
Record SkillDeploymentResultObservation := mk {
  Result : SkillDeploymentPreparedResult;
  Accepted : bool;
  CurrentLeaseAttempt : Z;
  TaskStatus : string
}.

#[global] Instance eq_dec : EqDecision SkillDeploymentResultObservation.
Proof. solve_decision. Defined.
End ResultObs.
Export ResultObs(SkillDeploymentResultObservation).

(** The server's envelope around an answer. *)
Record envelope (A : Type) := mkEnvelope {
  SchemaVersion : Z;
  EnvelopeStatus : string;
  Committed : option bool;
  error_count : nat;
  Data : A
}.
Arguments mkEnvelope {A} _ _ _ _ _.
Arguments SchemaVersion {A} e.
Arguments EnvelopeStatus {A} e.
Arguments Committed {A} e.
Arguments error_count {A} e.
Arguments Data {A} e.

(** The envelope of a read ([write] false) or a write has the expected status. *)
Definition deploymentTerminationEnvelope {A} (e : envelope A) (expected : string) (write : bool) : bool :=
  (SchemaVersion e =? 1) && String.eqb (EnvelopeStatus e) expected &&
  bool_decide (Committed e = Some write) && Nat.eqb (error_count e) 0.

(** [deploymentResult]: [response] is the decoded answer of the server,
    [None] a failed request. *)
Definition deploymentResult (result : SkillDeploymentPreparedResult) (inspect : bool)
    (response : option (envelope SkillDeploymentResultObservation)) : option SkillDeploymentResultObservation :=
  if negb (Prepared.Validate result) then None else
  match response with
  | None => None
  | Some e =>
      let o := Data e in
      if negb (deploymentTerminationEnvelope e (if inspect then "observed" else "confirmed") (negb inspect)) ||
         negb (bool_decide (ResultObs.Result o = result)) ||
         (ResultObs.CurrentLeaseAttempt o <? Prepared.LeaseAttempt result) ||
         (max_lease_attempt <? ResultObs.CurrentLeaseAttempt o) || negb inspect && negb (ResultObs.Accepted o)
      then None
      else if ResultObs.Accepted o then
        if negb (String.eqb (ResultObs.TaskStatus o) "succeeded") ||
           negb (ResultObs.CurrentLeaseAttempt o =? Prepared.LeaseAttempt result) then None else Some o
      else if bool_decide (ResultObs.TaskStatus o ∈ ["pending"; "leased"; "running"; "cancelled"; "expired"])
      then Some o else None
  end.

(** ** Termination *)

(** Whether a failure is retryable, and whether its code is known. *)
Definition deploymentFailureCode (c : string) : bool * bool :=
  if bool_decide (c ∈ ["NODE_UNAVAILABLE"; "TRANSFER_FAILED"; "QUOTA_EXCEEDED"; "DEPLOYMENT_INTERRUPTED"])
  then (true, true)
  else if bool_decide (c ∈ ["AUTHORIZATION_DENIED"; "SKILL_MANAGER_UNSUPPORTED"; "DEPLOYMENT_INPUT_INVALID";
                            "OPERATION_SUPERSEDED"])
  then (false, true) else (false, false).

Module Request.
Record SkillDeploymentTerminationRequest := mk {
  LeaseAttempt : Z;
  ErrorCode : string
}.

#[global] Instance eq_dec : EqDecision SkillDeploymentTerminationRequest.
Proof. solve_decision. Defined.

Definition fields : list (field SkillDeploymentTerminationRequest) := [
  int_field "lease_attempt" LeaseAttempt (λ x r, r <| LeaseAttempt := x |>);
  str_field "error_code" ErrorCode (λ x r, r <| ErrorCode := x |>)].

Definition zero : SkillDeploymentTerminationRequest := mk 0 "".

Definition Validate (r : SkillDeploymentTerminationRequest) : bool :=
  (deploymentFailureCode (ErrorCode r)).2 && (1 <=? LeaseAttempt r) && (LeaseAttempt r <=? max_lease_attempt).

Definition of_json (j : json) : option SkillDeploymentTerminationRequest :=
  r ← decodeDeploymentResultFields fields zero ["lease_attempt"; "error_code"] j;
  if Validate r then Some r else None.
End Request.
Export Request(SkillDeploymentTerminationRequest).

Module Intent_.
Record SkillDeploymentTerminationIntent := mk {
  Version : Z;
  IntentID : string;
  Binding : SkillDeploymentIdentity;
  Request_ : SkillDeploymentTerminationRequest;
  Outcome : string;
  ErrorCode : string;
  Retryable : bool
}.

#[global] Instance eq_dec : EqDecision SkillDeploymentTerminationIntent.
Proof. solve_decision. Defined.

Definition fields : list (field SkillDeploymentTerminationIntent) := [
  int_field "version" Version (λ x r, r <| Version := x |>);
  str_field "intent_id" IntentID (λ x r, r <| IntentID := x |>);
  binding_field Binding (λ x r, r <| Binding := x |>);
  sub_field "request" Request_ (λ x r, r <| Request_ := x |>)
    (encode_struct Request.fields) (λ _, Request.of_json);
  str_field "outcome" Outcome (λ x r, r <| Outcome := x |>);
  str_field "error_code" ErrorCode (λ x r, r <| ErrorCode := x |>);
  bool_field "retryable" Retryable (λ x r, r <| Retryable := x |>)].

Definition zero : SkillDeploymentTerminationIntent := mk 0 "" Deploy.zero Request.zero "" "" false.

Definition names : list string :=
  ["version"; "intent_id"; "binding"; "request"; "outcome"; "error_code"; "retryable"].

Definition Validate (i : SkillDeploymentTerminationIntent) : bool :=
  (Version i =? 1) && validSkillUUID (IntentID i) && Deploy.Validate (Binding i) &&
  Request.Validate (Request_ i) &&
  let '(retryable, _) := deploymentFailureCode (Request.ErrorCode (Request_ i)) in
  if String.eqb (Outcome i) "superseded" then
    String.eqb (ErrorCode i) "OPERATION_SUPERSEDED" && negb (Retryable i)
  else
    String.eqb (Outcome i) "failed" &&
    negb (String.eqb (Request.ErrorCode (Request_ i)) "OPERATION_SUPERSEDED") &&
    String.eqb (ErrorCode i) (Request.ErrorCode (Request_ i)) && Bool.eqb (Retryable i) retryable.

Definition of_json (j : json) : option SkillDeploymentTerminationIntent :=
  r ← decodeDeploymentResultFields fields zero names j;
  b ← raw_member j "binding";
  binding ← decodeDeploymentResultFields Deploy.fields (Binding r) Deploy.binding_names b.2;
  let r := r <| Binding := binding |> in
  if Validate r then Some r else None.
End Intent_.
Export Intent_(SkillDeploymentTerminationIntent).

Module Drain_.
Record DeploymentDrain := mk {
  Version : Z;
  Binding : SkillDeploymentIdentity;
  HelperReceiptID : string
}.

#[global] Instance eq_dec : EqDecision DeploymentDrain.
Proof. solve_decision. Defined.

Definition fields : list (field DeploymentDrain) := [
  int_field "version" Version (λ x r, r <| Version := x |>);
  binding_field Binding (λ x r, r <| Binding := x |>);
  str_field "helper_receipt_id" HelperReceiptID (λ x r, r <| HelperReceiptID := x |>)].

Definition zero : DeploymentDrain := mk 0 Deploy.zero "".

Definition names : list string := ["version"; "binding"; "helper_receipt_id"].

Definition Validate (r : DeploymentDrain) (expected : SkillDeploymentIdentity) : bool :=
  Deploy.Validate expected && (Version r =? 1) && bool_decide (Binding r = expected) &&
  validSkillUUID (HelperReceiptID r).

Definition of_json (j : json) : option DeploymentDrain :=
  r ← decodeDeploymentFields fields zero names j;
  b ← raw_member j "binding";
  binding ← decodeDeploymentFields Deploy.fields (Binding r) Deploy.binding_names b.2;
  Some (r <| Binding := binding |>).
End Drain_.
Export Drain_(DeploymentDrain).

Module Terminated.
Record SkillDeploymentTerminatedResult := mk {
  Intent : SkillDeploymentTerminationIntent;
  Drain : DeploymentDrain
}.

#[global] Instance eq_dec : EqDecision SkillDeploymentTerminatedResult.
Proof. solve_decision. Defined.

Definition fields : list (field SkillDeploymentTerminatedResult) := [
  sub_field "intent" Intent (λ x r, r <| Intent := x |>) (encode_struct Intent_.fields) (λ _, Intent_.of_json);
  sub_field "drain" Drain (λ x r, r <| Drain := x |>) (encode_struct Drain_.fields) (λ _, Drain_.of_json)].

Definition zero : SkillDeploymentTerminatedResult := mk Intent_.zero Drain_.zero.

Definition Validate (r : SkillDeploymentTerminatedResult) : bool :=
  Intent_.Validate (Intent r) && Drain_.Validate (Drain r) (Intent_.Binding (Intent r)).

Definition of_json (j : json) : option SkillDeploymentTerminatedResult :=
  r ← decodeDeploymentResultFields fields zero ["intent"; "drain"] j;
  if Validate r then Some r else None.
End Terminated.
Export Terminated(SkillDeploymentTerminatedResult).

Module TermObs.
Record SkillDeploymentTerminationObservation := mk {
  Result : SkillDeploymentTerminatedResult;
  Accepted : bool;
  CurrentLeaseAttempt : Z;
  TaskStatus : string
}.

#[global] Instance eq_dec : EqDecision SkillDeploymentTerminationObservation.
Proof. solve_decision. Defined.

Definition fields : list (field SkillDeploymentTerminationObservation) := [
  sub_field "result" Result (λ x r, r <| Result := x |>)
    (encode_struct Terminated.fields) (λ _, Terminated.of_json);
  bool_field "accepted" Accepted (λ x r, r <| Accepted := x |>);
  int_field "current_lease_attempt" CurrentLeaseAttempt (λ x r, r <| CurrentLeaseAttempt := x |>);
  str_field "task_status" TaskStatus (λ x r, r <| TaskStatus := x |>)].

Definition zero : SkillDeploymentTerminationObservation := mk Terminated.zero false 0 "".

Definition names : list string := ["result"; "accepted"; "current_lease_attempt"; "task_status"].

Definition of_json (j : json) : option SkillDeploymentTerminationObservation :=
  decodeDeploymentResultFields fields zero names j.
End TermObs.
Export TermObs(SkillDeploymentTerminationObservation).

(** ** Answers of the server about a termination *)

Definition RequestSkillDeploymentTermination (binding : SkillDeploymentIdentity)
    (request : SkillDeploymentTerminationRequest) (response : option (envelope SkillDeploymentTerminationIntent))
    : option SkillDeploymentTerminationIntent :=
  if negb (Deploy.Validate binding && Request.Validate request) then None else
  match response with
  | None => None
  | Some e =>
      if deploymentTerminationEnvelope e "drain_required" true &&
         bool_decide (Intent_.Binding (Data e) = binding) && bool_decide (Intent_.Request_ (Data e) = request) &&
         Intent_.Validate (Data e)
      then Some (Data e) else None
  end.

(** The lookup of an intent: absent, or an intent of this binding. *)
Definition GetSkillDeploymentTermination (binding : SkillDeploymentIdentity)
    (response : option (envelope (option SkillDeploymentTerminationIntent)))
    : option (option SkillDeploymentTerminationIntent) :=
  if negb (Deploy.Validate binding) then None else
  match response with
  | None => None
  | Some e =>
      if negb (deploymentTerminationEnvelope e "observed" false) then None else
      match Data e with
      | None => Some None
      | Some i =>
          if Intent_.Validate i && bool_decide (Intent_.Binding i = binding) then Some (Some i) else None
      end
  end.

Definition deploymentTerminationResult (result : SkillDeploymentTerminatedResult) (inspect : bool)
    (response : option (envelope SkillDeploymentTerminationObservation))
    : option SkillDeploymentTerminationObservation :=
  if negb (Terminated.Validate result) then None else
  match response with
  | None => None
  | Some e =>
      let o := Data e in
      if negb (deploymentTerminationEnvelope e (if inspect then "observed" else "confirmed") (negb inspect)) ||
         negb (bool_decide (TermObs.Result o = result)) ||
         (TermObs.CurrentLeaseAttempt o <? Request.LeaseAttempt (Intent_.Request_ (Terminated.Intent result))) ||
         (max_lease_attempt <? TermObs.CurrentLeaseAttempt o) || negb inspect && negb (TermObs.Accepted o)
      then None
      else if TermObs.Accepted o then
        let expected := if String.eqb (Intent_.Outcome (Terminated.Intent result)) "superseded"
                        then "cancelled" else "failed" in
        if String.eqb (TermObs.TaskStatus o) expected then Some o else None
      else if bool_decide (TermObs.TaskStatus o ∈ ["pending"; "leased"; "running"; "expired"])
      then Some o else None
  end.
