(* ===== verification/DeploymentCodec.v ===== *)
(** * Skill deployments: receipts and results read back

    Everything the deployment journal stores decodes to itself, through the
    strict decoders of its types and up to the order of members. *)

From S2P Require Import Prelude GoText GoTime GoJson GoUtf8 GoJsonText GoJsonValue GoJsonDecode GoJsonStruct.
From S2P Require Import Manifest StartResult Deployment.
From Stdlib.Strings Require Import Ascii.

(** ** Strict decoders on a struct's own object *)

Section Strict.
Context {R : Type} (fields : list (field R)).

(** The names the object of [r] has, and that none of its members is null. *)
Definition whole (allowed : list string) (r : R) : Prop :=
  allowed = map fst (flat_map (encode_field r) fields) ∧
  Forall (λ f, ∀ v, fenc f (fget f r) = Some v → nullish v = false) fields.

Lemma strict_exact allowed r st d v :
  distinct (encode_struct fields r) → whole allowed r → same (encode_struct fields r) v →
  no_duplicate_keys (tree st d v) = true ∧ rejectReceiptDuplicates (tree st d v) = true ∧
  exact_members "" allowed (tree st d v) = true.
Proof.
  intros Hd [-> Hnull] Hs. pose proof (same_distinct _ _ Hs Hd) as Hd'. split_and!.
  - by apply distinct_tree.
  - apply same_keys in Hs as (l & -> & _). apply distinct_obj in Hd' as [Hn _].
    cbn [tree rejectReceiptDuplicates]. apply bool_decide_eq_true. by rewrite map_map.
  - apply (exact_same st d "" _ _ _ Hs); [by apply distinct_obj in Hd as [Hn _]|done|].
    apply list.Forall_forall. intros m (f & Hin & <- & Hv)%encode_member.
    rewrite list.Forall_forall in Hnull. right. by apply (Hnull f Hin).
Qed.

Lemma result_fields_carried current allowed r :
  carried (encode_struct fields r) (λ _ _, decode_struct fields current) r → whole allowed r →
  carried (encode_struct fields r) (λ _ _, decodeDeploymentResultFields fields current allowed) r.
Proof.
  intros (Hf & Hd & Hdec) Hw. split_and!; [done|done|]. intros v' _ st d Hst Hs.
  destruct (strict_exact allowed r st d v' Hd Hw Hs) as (H1 & _ & H2).
  unfold decodeDeploymentResultFields. rewrite H1, H2. by apply (Hdec v' r).
Qed.

Lemma deployment_fields_carried current allowed r :
  carried (encode_struct fields r) (λ _ _, decode_struct fields current) r → whole allowed r →
  carried (encode_struct fields r) (λ _ _, decodeDeploymentFields fields current allowed) r.
Proof.
  intros (Hf & Hd & Hdec) Hw. split_and!; [done|done|]. intros v' _ st d Hst Hs.
  destruct (strict_exact allowed r st d v' Hd Hw Hs) as (_ & H1 & H2).
  unfold decodeDeploymentFields. rewrite H1, H2. by apply (Hdec v' r).
Qed.

(** The member of a field in an object that is the struct's up to order. *)
Lemma member_in (f : field R) r v l :
  f ∈ fields → fenc f (fget f r) = Some v → same (encode_struct fields r) (VObj l) →
  ∃ w, (fname f, w) ∈ l ∧ same v w.
Proof.
  intros Hf Hv Hs. apply same_obj_inv in Hs as (m & l' & [= <-] & Hm & Hp).
  assert (Hin : (fname f, v) ∈ flat_map (encode_field r) fields).
  { apply list_elem_of_In, in_flat_map. exists f. split; [by apply list_elem_of_In|].
    unfold encode_field. rewrite Hv. by left. }
  apply list_elem_of_lookup in Hin as [i Hi]. destruct (Forall2_lookup_l _ _ _ _ _ Hm Hi) as ([k w] & Hk & Heq & Hsame).
  cbn in Heq, Hsame. subst k. exists w. split; [|done]. rewrite <- Hp. by eapply list_elem_of_lookup_2.
Qed.

(** A decoder that then looks at the member [name] again. *)
Lemma member_carried (f : field R) r v :
  f ∈ fields → fenc f (fget f r) = Some v → distinct (encode_struct fields r) →
  ∀ v' st d, same (encode_struct fields r) v' →
  ∃ w, same v w ∧ raw_member (tree st d v') (fname f) = Some (print_value st (S d) w, tree st (S d) w).
Proof.
  intros Hf Hv Hd v' st d Hs. pose proof (same_distinct _ _ Hs Hd) as Hd'.
  destruct (same_keys _ _ Hs) as (l & -> & _). apply distinct_obj in Hd' as [Hn _].
  destruct (member_in f r v l Hf Hv Hs) as (w & Hin & Hsame). exists w. split; [done|].
  by apply raw_member_tree.
Qed.
End Strict.

Ltac not_null := repeat (apply Forall_cons_2; [cbn; intros ?; repeat case_match; by intros [= <-]|]); constructor.

Lemma validated_carried {A} v (dec : json → option A) (valid : A → bool) x :
  carried v (λ _ _, dec) x → valid x = true →
  carried v (λ _ _ j, y ← dec j; if valid y then Some y else None) x.
Proof.
  intros (Hf & Hd & Hdec) Hv. split_and!; [done|done|]. intros v' current st d Hst Hs.
  rewrite (Hdec v' current st d Hst Hs). cbn. by rewrite Hv.
Qed.

(** ** Texts *)

Lemma digest_text s : contentDigestPattern s = true → valid_utf8 (codes s) = true.
Proof.
  intros Hs. apply ascii_utf8. eapply classes_ascii; [|exact Hs].
  apply list.Forall_forall. intros p Hp%elem_of_replicate_inv. subst p. exact hex_ascii.
Qed.

Lemma failure_code_text c : (deploymentFailureCode c).2 = true → valid_utf8 (codes c) = true.
Proof.
  unfold deploymentFailureCode. case_bool_decide as H1; [|case_bool_decide as H2; [|done]]; intros _;
    [revert H1|revert H2]; rewrite !elem_of_cons, elem_of_nil; intros Hc;
    repeat destruct Hc as [->|Hc]; done.
Qed.

Lemma deploy_disjoint : disjoint_fields Deploy.fields.
Proof. solve_disjoint. Qed.

Lemma deploy_texts b :
  Deploy.Validate b = true →
  Forall (λ s, valid_utf8 (codes s) = true)
    [Deploy.OperationID b; Deploy.AttemptID b; Deploy.TaskID b; Deploy.UserID b; Deploy.AccountID b;
     Deploy.NodeID b; Deploy.CheckpointID b; Deploy.PlanDigest b; Deploy.TreeDigest b; Deploy.RuntimeBackend b].
Proof.
  unfold Deploy.Validate. rewrite !andb_true_iff, forallb_forall, String.eqb_eq.
  intros [[[Hids Hb] Hp] Ht]. rewrite Hb.
  do 7 (apply Forall_cons_2; [apply uuid_utf8, Hids; cbn; tauto|]).
  apply Forall_cons_2; [by apply digest_text|]. apply Forall_cons_2; [by apply digest_text|].
  by apply Forall_cons_2.
Qed.

Lemma deploy_carried b :
  Deploy.Validate b = true →
  carried (encode_struct Deploy.fields b) (λ current _, decode_struct Deploy.fields current) b.
Proof.
  intros Hb%deploy_texts. apply struct_carried_into; [apply deploy_disjoint| |].
  - decompose_Forall_hyps. repeat (apply Forall_cons_2; [by apply carries_str|]). constructor.
  - intros zero. by destruct b.
Qed.

Lemma deploy_whole b : whole Deploy.fields Deploy.binding_names b.
Proof. split; [by destruct b|]. not_null. Qed.

(** The binding, decoded once more and strictly. *)
Lemma binding_again {R} (fields : list (field R)) (get : R → SkillDeploymentIdentity) set r
    (dec : list (field SkillDeploymentIdentity) → SkillDeploymentIdentity → list string → json →
           option SkillDeploymentIdentity) :
  dec = decodeDeploymentFields ∨ dec = decodeDeploymentResultFields →
  binding_field get set ∈ fields → Deploy.Validate (get r) = true → distinct (encode_struct fields r) →
  ∀ v st d current, white_style st → same (encode_struct fields r) v →
  ∃ w, raw_member (tree st d v) "binding" = Some w ∧
       dec Deploy.fields current Deploy.binding_names w.2 = Some (get r).
Proof.
  intros Hdec Hin Hb Hd v st d current Hst Hs.
  destruct (member_carried fields (binding_field get set) r _ Hin eq_refl Hd v st d Hs) as (w & Hw & Hraw).
  exists (print_value st (S d) w, tree st (S d) w). split; [exact Hraw|]. cbn [snd].
  assert (Hc : carried (encode_struct Deploy.fields (get r)) (λ _ _, decode_struct Deploy.fields current) (get r)).
  { destruct (deploy_carried _ Hb) as (H1 & H2 & H3). split_and!; [done|done|]. intros. by apply H3. }
  destruct Hdec as [-> | ->].
  - destruct (deployment_fields_carried _ _ _ _ Hc (deploy_whole (get r))) as (_ & _ & H). by apply (H w current).
  - destruct (result_fields_carried _ _ _ _ Hc (deploy_whole (get r))) as (_ & _ & H). by apply (H w current).
Qed.

(** ** Preparations *)

(** The integers of a receipt are int64. *)
Definition receipt_width (r : DeploymentPreparation) : Prop :=
  Receipt.DirectoryEpoch r ≤ max_int64 ∧ Receipt.Generation r ≤ max_int64.

Lemma receipt_carried r :
  Receipt.ValidateBinding r = true → receipt_width r →
  carried (encode_struct Receipt.fields r) (λ _ _, Receipt.of_json) r.
Proof.
  unfold Receipt.ValidateBinding. rewrite !andb_true_iff, Z.eqb_eq, !Z.leb_le.
  intros [[[[[Hb Hv] Hi] He] Hg] Hid] [We Wg].
  assert (Hc : carried (encode_struct Receipt.fields r) (λ _ _, decode_struct Receipt.fields Receipt.zero) r).
  { apply struct_carried; [solve_disjoint| |by destruct r].
    apply Forall_cons_2; [apply carries_int; [done|unfold max_int64; lia]|].
    apply Forall_cons_2; [apply carries_sub; [done|by apply deploy_carried]|].
    apply Forall_cons_2; [apply carries_str; [done|by apply digest_text]|].
    apply Forall_cons_2; [apply carries_int; [done|lia]|].
    apply Forall_cons_2; [apply carries_int; [done|lia]|].
    apply Forall_cons_2; [apply carries_str; [done|by apply uuid_utf8]|]. constructor. }
  assert (Hw : whole Receipt.fields Receipt.names r) by (split; [by destruct r|]; not_null).
  destruct (deployment_fields_carried _ _ _ _ Hc Hw) as (Hf & Hd & Hdec).
  split_and!; [done|done|]. intros v current st d Hst Hs. unfold Receipt.of_json.
  rewrite (Hdec v current st d Hst Hs). cbn [mbind option_bind].
  destruct (binding_again Receipt.fields Receipt.Binding (λ x r, r <| Receipt.Binding := x |>) r
              (@decodeDeploymentFields _) ltac:(by left) ltac:(by right; left) Hb Hd v st d
              (Receipt.Binding r) Hst Hs) as (w & -> & Hw').
  cbn [mbind option_bind]. rewrite Hw'. by destruct r.
Qed.

Definition prepared_width (r : SkillDeploymentPreparedResult) : Prop :=
  receipt_width (Prepared.Preparation r).

Lemma prepared_carried r :
  Prepared.Validate r = true → prepared_width r →
  carried (encode_struct Prepared.fields r) (λ _ _, Prepared.of_json) r.
Proof.
  intros Hval Hw. pose proof Hval as Hv. unfold Prepared.Validate in Hv.
  rewrite !andb_true_iff, !Z.leb_le in Hv. destruct Hv as [[Ha Ha'] Hp].
  apply validated_carried; [|done]. apply result_fields_carried.
  - apply struct_carried; [solve_disjoint| |by destruct r].
    apply Forall_cons_2; [apply carries_int; [done|unfold max_lease_attempt, max_int64 in *; lia]|].
    apply Forall_cons_2; [apply carries_sub; [done|by apply receipt_carried]|]. constructor.
  - split; [by destruct r|]. not_null.
Qed.

(** ** Terminations *)

Lemma request_carried r :
  Request.Validate r = true → carried (encode_struct Request.fields r) (λ _ _, Request.of_json) r.
Proof.
  intros Hval. pose proof Hval as Hv. unfold Request.Validate in Hv.
  rewrite !andb_true_iff, !Z.leb_le in Hv. destruct Hv as [[Hc Ha] Ha'].
  apply validated_carried; [|done]. apply result_fields_carried.
  - apply struct_carried; [solve_disjoint| |by destruct r].
    apply Forall_cons_2; [apply carries_int; [done|unfold max_lease_attempt, max_int64 in *; lia]|].
    apply Forall_cons_2; [apply carries_str; [done|by apply failure_code_text]|]. constructor.
  - split; [by destruct r|]. not_null.
Qed.

Lemma intent_texts i :
  Intent_.Validate i = true →
  Intent_.Version i = 1 ∧ validSkillUUID (Intent_.IntentID i) = true ∧
  Deploy.Validate (Intent_.Binding i) = true ∧ Request.Validate (Intent_.Request_ i) = true ∧
  valid_utf8 (codes (Intent_.Outcome i)) = true ∧ valid_utf8 (codes (Intent_.ErrorCode i)) = true.
Proof.
  unfold Intent_.Validate. intros [[[[Hv Hid]%andb_true_iff Hb]%andb_true_iff Hr]%andb_true_iff Ho]%andb_true_iff.
  apply Z.eqb_eq in Hv. do 4 (split; [done|]).
  assert (Hcode : valid_utf8 (codes (Request.ErrorCode (Intent_.Request_ i))) = true).
  { apply failure_code_text. unfold Request.Validate in Hr.
    by apply andb_true_iff in Hr as [[Hr _]%andb_true_iff _]. }
  destruct (deploymentFailureCode _) as [re known].
  destruct (String.eqb_spec (Intent_.Outcome i) "superseded") as [Hs|_].
  - apply andb_true_iff in Ho as [Ho%String.eqb_eq _]. by rewrite Hs, Ho.
  - apply andb_true_iff in Ho as [[[Ho%String.eqb_eq _]%andb_true_iff He%String.eqb_eq]%andb_true_iff _].
    by rewrite Ho, He.
Qed.

Lemma intent_carried i :
  Intent_.Validate i = true → carried (encode_struct Intent_.fields i) (λ _ _, Intent_.of_json) i.
Proof.
  intros Hval. destruct (intent_texts i Hval) as (Hv & Hid & Hb & Hr & Ho & He).
  assert (Hc : carried (encode_struct Intent_.fields i) (λ _ _, decode_struct Intent_.fields Intent_.zero) i).
  { apply struct_carried; [solve_disjoint| |by destruct i].
    apply Forall_cons_2; [apply carries_int; [done|unfold max_int64; lia]|].
    apply Forall_cons_2; [apply carries_str; [done|by apply uuid_utf8]|].
    apply Forall_cons_2; [apply carries_sub; [done|by apply deploy_carried]|].
    apply Forall_cons_2; [apply carries_sub; [done|by apply request_carried]|].
    do 2 (apply Forall_cons_2; [by apply carries_str|]).
    apply Forall_cons_2; [by apply carries_bool|]. constructor. }
  assert (Hw : whole Intent_.fields Intent_.names i) by (split; [by destruct i|]; not_null).
  destruct (result_fields_carried _ _ _ _ Hc Hw) as (Hf & Hd & Hdec).
  split_and!; [done|done|]. intros v current st d Hst Hs. unfold Intent_.of_json.
  rewrite (Hdec v current st d Hst Hs). cbn [mbind option_bind].
  destruct (binding_again Intent_.fields Intent_.Binding (λ x r, r <| Intent_.Binding := x |>) i
              (@decodeDeploymentResultFields _) ltac:(by right) ltac:(by right; right; left) Hb Hd v st d
              (Intent_.Binding i) Hst Hs) as (w & -> & Hw').
  cbn [mbind option_bind]. rewrite Hw'. cbn [mbind option_bind]. cbv zeta.
  replace (i <| Intent_.Binding := Intent_.Binding i |>) with i by (by destruct i). by rewrite Hval.
Qed.

Lemma drain_carried r b :
  Drain_.Validate r b = true → carried (encode_struct Drain_.fields r) (λ _ _, Drain_.of_json) r.
Proof.
  unfold Drain_.Validate. rewrite !andb_true_iff, Z.eqb_eq, bool_decide_eq_true.
  intros [[[Hb Hv] <-] Hid].
  assert (Hc : carried (encode_struct Drain_.fields r) (λ _ _, decode_struct Drain_.fields Drain_.zero) r).
  { apply struct_carried; [solve_disjoint| |by destruct r].
    apply Forall_cons_2; [apply carries_int; [done|unfold max_int64; lia]|].
    apply Forall_cons_2; [apply carries_sub; [done|by apply deploy_carried]|].
    apply Forall_cons_2; [apply carries_str; [done|by apply uuid_utf8]|]. constructor. }
  assert (Hw : whole Drain_.fields Drain_.names r) by (split; [by destruct r|]; not_null).
  destruct (deployment_fields_carried _ _ _ _ Hc Hw) as (Hf & Hd & Hdec).
  split_and!; [done|done|]. intros v current st d Hst Hs. unfold Drain_.of_json.
  rewrite (Hdec v current st d Hst Hs). cbn [mbind option_bind].
  destruct (binding_again Drain_.fields Drain_.Binding (λ x r, r <| Drain_.Binding := x |>) r
              (@decodeDeploymentFields _) ltac:(by left) ltac:(by right; left) Hb Hd v st d
              (Drain_.Binding r) Hst Hs) as (w & -> & Hw').
  cbn [mbind option_bind]. rewrite Hw'. by destruct r.
Qed.

Lemma terminated_carried r :
  Terminated.Validate r = true →
  carried (encode_struct Terminated.fields r) (λ _ _, Terminated.of_json) r.
Proof.
  intros Hval. pose proof Hval as [Hi Hd]%andb_true_iff.
  apply validated_carried; [|done]. apply result_fields_carried.
  - apply struct_carried; [solve_disjoint| |by destruct r].
    apply Forall_cons_2; [apply carries_sub; [done|by apply intent_carried]|].
    apply Forall_cons_2; [apply carries_sub; [done|by eapply drain_carried]|]. constructor.
  - split; [by destruct r|]. not_null.
Qed.

Lemma termobs_carried o :
  Terminated.Validate (TermObs.Result o) = true → 0 ≤ TermObs.CurrentLeaseAttempt o ≤ max_int64 →
  valid_utf8 (codes (TermObs.TaskStatus o)) = true →
  carried (encode_struct TermObs.fields o) (λ _ _, TermObs.of_json) o.
Proof.
  intros Hr Hn Hs. apply result_fields_carried.
  - apply struct_carried; [solve_disjoint| |by destruct o].
    apply Forall_cons_2; [apply carries_sub; [done|by apply terminated_carried]|].
    apply Forall_cons_2; [by apply carries_bool|].
    apply Forall_cons_2; [by apply carries_int|].
    apply Forall_cons_2; [by apply carries_str|]. constructor.
  - split; [by destruct o|]. not_null.
Qed.

(** A pointer that is nil or to a value that is carried. *)
Lemma carries_pointer_to {R A} name get set enc dec r :
  valid_utf8 (codes name) = true →
  (∀ x, get r = Some x → carried (enc x) (λ _ _, dec) x ∧ nullish (enc x) = false) →
  carries r (@pointer_field R A name get set enc dec).
Proof.
  intros Hn Hx. split; [done|]. intros v [= <-]. cbn. destruct (get r) as [x|].
  - destruct (Hx x eq_refl) as [(Hf & Hd & Hdec) Hnull]. split_and!; [done|done|].
    intros v' current st d Hst Hs. pose proof (Hdec v' x st d Hst Hs) as Hy. apply same_nullish in Hs.
    rewrite Hnull in Hs. destruct v'; try done; cbn [tree] in *; by rewrite Hy.
  - split_and!; [done|done|]. intros v' current st d Hst. by inversion 1.
Qed.
