(* ===== verification/DeploymentPlan.v ===== *)
(** * Skill deployments: plans and inputs

    src/internal/skillmanager/deployment_plan.go, the deployment input of
    deployment.go and the receipt's check against it (deployment_receipt.go),
    with the strict decoders of deployment_json.go.  A deployment is pinned by
    two digests, of its plan and of its tree; the plan's digest does not
    depend on the order of its sources and nothing else shares it. *)

From stdpp Require Import sorting.
From S2P Require Import Prelude GoText GoTime GoJson GoUtf8 GoJsonText GoJsonValue GoJsonDecode GoJsonStruct.
From S2P Require Import Manifest ManifestCodec StartResult StartJournal Deployment.
From Stdlib.Strings Require Import Ascii.

(** ** Slices and optional integers *)

(** A slice, nil or not, of structs with a codec. *)
Definition slice_field {R A} (name : string) (get : R → option (list A)) (set : option (list A) → R → R)
    (enc : A → value) (dec : json → option A) : field R :=
  mkField name get set (λ o, Some (match o with Some l => VArr (map enc l) | None => VNull end))
    (λ _ _ j, match j with
              | JNull => Some None
              | JArr items => l ← mapM dec items; Some (Some l)
              | _ => None
              end).

(** A pointer to an int64, [omitempty]. *)
Definition int_pointer_omit_field {R} (name : string) (get : R → option Z) (set : option Z → R → R) : field R :=
  mkField name get set (λ o, match o with Some z => Some (VNum (itoa z)) | None => None end)
    (λ current _ j, match j with JNull => Some None | _ => z ← int_of_json 0 j; Some (Some z) end).

(** ** Plans *)

(** [^[a-z0-9][a-z0-9-]{0,63}$] *)
Definition snapshotSkillName (s : string) : bool :=
  match s with
  | "" => false
  | String c rest =>
      (is_lower c || is_digit c) && all_chars (λ c, is_lower c || is_digit c || has_char "-" c) rest &&
      (len rest <=? 63)
  end.

Module Source.
Record SkillDeploymentSource := mk {
  Origin : string;
  SourceID : string;
  RevisionID : string;
  ContentDigest : string;
  Name : string;
  Enabled : bool;
  InstallationEpoch : option Z
}.

#[global] Instance eq_dec : EqDecision SkillDeploymentSource.
Proof. solve_decision. Defined.

Definition fields : list (field SkillDeploymentSource) := [
  str_field "origin" Origin (λ x r, r <| Origin := x |>);
  str_field "source_id" SourceID (λ x r, r <| SourceID := x |>);
  str_field "revision_id" RevisionID (λ x r, r <| RevisionID := x |>);
  str_field "content_digest" ContentDigest (λ x r, r <| ContentDigest := x |>);
  str_field "name" Name (λ x r, r <| Name := x |>);
  bool_field "enabled" Enabled (λ x r, r <| Enabled := x |>);
  int_pointer_omit_field "installation_epoch" InstallationEpoch (λ x r, r <| InstallationEpoch := x |>)].

Definition zero : SkillDeploymentSource := mk "" "" "" "" "" false None.

(** The names the decoder requires, by the origin the object has. *)
Definition names (j : json) : option (list string) :=
  origin ← decode_struct [str_field "origin" (λ s, s) (λ x _, x)] "" j;
  Some (["origin"; "source_id"; "revision_id"; "content_digest"; "name"; "enabled"] ++
        if String.eqb origin "library" then ["installation_epoch"] else []).

Definition of_json (j : json) : option SkillDeploymentSource :=
  allowed ← names j; decodeDeploymentFields fields zero allowed j.

(** The checks of one source in [validate]. *)
Definition valid (s : SkillDeploymentSource) : bool :=
  validSkillUUID (SourceID s) && validSkillUUID (RevisionID s) && contentDigestPattern (ContentDigest s) &&
  snapshotSkillName (Name s) && negb (String.eqb (Name s) "ego-browser") &&
  negb (String.eqb (Name s) "agent-remote-device").

Definition valid_origin (s : SkillDeploymentSource) : bool :=
  if String.eqb (Origin s) "library" then
    match InstallationEpoch s with Some n => 1 <=? n | None => false end
  else String.eqb (Origin s) "account_local" && negb (is_some (InstallationEpoch s)).

Definition identity (s : SkillDeploymentSource) : string := Origin s +:+ ":" +:+ SourceID s.
End Source.
Export Source(SkillDeploymentSource).

Module Plan.
Record SkillDeploymentPlan := mk {
  Version : Z;
  UserID : string;
  OperationID : string;
  Generation : Z;
  AccountID : string;
  NodeID : string;
  ToolType : string;
  RuntimeBackend : string;
  Sources : option (list SkillDeploymentSource)
}.

#[global] Instance eq_dec : EqDecision SkillDeploymentPlan.
Proof. solve_decision. Defined.

Definition fields : list (field SkillDeploymentPlan) := [
  int_field "version" Version (λ x r, r <| Version := x |>);
  str_field "user_id" UserID (λ x r, r <| UserID := x |>);
  str_field "operation_id" OperationID (λ x r, r <| OperationID := x |>);
  int_field "generation" Generation (λ x r, r <| Generation := x |>);
  str_field "account_id" AccountID (λ x r, r <| AccountID := x |>);
  str_field "node_id" NodeID (λ x r, r <| NodeID := x |>);
  str_field "tool_type" ToolType (λ x r, r <| ToolType := x |>);
  str_field "runtime_backend" RuntimeBackend (λ x r, r <| RuntimeBackend := x |>);
  slice_field "sources" Sources (λ x r, r <| Sources := x |>) (encode_struct Source.fields) Source.of_json].

Definition zero : SkillDeploymentPlan := mk 0 "" "" 0 "" "" "" "" None.

Definition names : list string :=
  ["version"; "user_id"; "operation_id"; "generation"; "account_id"; "node_id"; "tool_type";
   "runtime_backend"; "sources"].

Definition of_json (j : json) : option SkillDeploymentPlan := decodeDeploymentFields fields zero names j.

(** The loop over the sources; [identities] and [seen] are its two maps. *)
Fixpoint validate_sources (l : list SkillDeploymentSource) (identities seen : gset string) : bool :=
  match l with
  | [] => true
  | s :: rest =>
      Source.valid s && negb (bool_decide (Source.identity s ∈ identities)) &&
      negb (Source.Enabled s && bool_decide (Source.Name s ∈ seen)) && Source.valid_origin s &&
      validate_sources rest ({[Source.identity s]} ∪ identities)
        (if Source.Enabled s then {[Source.Name s]} ∪ seen else seen)
  end.

Definition validate (p : SkillDeploymentPlan) : bool :=
  (Version p =? 1) && (0 <=? Generation p) && String.eqb (ToolType p) "claude" &&
  String.eqb (RuntimeBackend p) "native" &&
  match Sources p with
  | None => false
  | Some l => forallb validSkillUUID [UserID p; OperationID p; AccountID p; NodeID p] && validate_sources l ∅ ∅
  end.

(** The order of [Digest]: by origin, then by source. *)
Definition precedes (a b : SkillDeploymentSource) : bool :=
  if str_ltb (Source.Origin a) (Source.Origin b) then true
  else if str_ltb (Source.Origin b) (Source.Origin a) then false
  else negb (str_ltb (Source.SourceID b) (Source.SourceID a)).

Definition in_order (a b : SkillDeploymentSource) : Prop := precedes a b = true.

#[global] Instance in_order_dec : RelDecision in_order.
Proof. unfold in_order. intros a b. apply _. Defined.

Definition sorted_sources (l : list SkillDeploymentSource) : list SkillDeploymentSource := merge_sort in_order l.
End Plan.
Export Plan(SkillDeploymentPlan).

(** ** Digests *)

Section Digests.
Context (hex_sha256 : list Z → string).

(** [value] through JSON into a map, and the hash of the map's JSON. *)
Definition deploymentJSONDigest (v : value) : option string :=
  m ← payload_of v; Some (hex_sha256 (codes (print_value compact 0 (VObj m)))).

Definition plan_digest (p : SkillDeploymentPlan) : option string :=
  if Plan.validate p then
    deploymentJSONDigest (encode_struct Plan.fields (p <| Plan.Sources ::= option_map Plan.sorted_sources |>))
  else None.
End Digests.

(** ** Inputs *)

Module Member.
Record SkillDeploymentMember := mk {
  EntryName : string;
  StateID : string;
  StateEpoch : Z;
  CheckpointID : string
}.

#[global] Instance eq_dec : EqDecision SkillDeploymentMember.
Proof. solve_decision. Defined.

Definition fields : list (field SkillDeploymentMember) := [
  str_field "entry_name" EntryName (λ x r, r <| EntryName := x |>);
  str_field "state_id" StateID (λ x r, r <| StateID := x |>);
  int_field "state_epoch" StateEpoch (λ x r, r <| StateEpoch := x |>);
  str_field "checkpoint_id" CheckpointID (λ x r, r <| CheckpointID := x |>)].

Definition zero : SkillDeploymentMember := mk "" "" 0 "".

Definition of_json (j : json) : option SkillDeploymentMember :=
  decodeDeploymentFields fields zero ["entry_name"; "state_id"; "state_epoch"; "checkpoint_id"] j.
End Member.
Export Member(SkillDeploymentMember).

Record SkillDeployment := mkDeployment {
  Identity_ : SkillDeploymentIdentity;
  DirectoryEpoch : Z;
  Plan_ : SkillDeploymentPlan;
  Manifest_ : Manifest.Manifest;
  Items : option (list SkillDeploymentMember)
}.

(** The loop over the items; [selected] and [states] are its maps. *)
Fixpoint validate_items (entries : gmap string string) (items : list SkillDeploymentMember)
    (selected states : gset string) : option (gset string) :=
  match items with
  | [] => Some selected
  | i :: rest =>
      if bool_decide (Member.EntryName i ∈ selected) && validSkillUUID (Member.StateID i) &&
         validSkillUUID (Member.CheckpointID i) && (1 <=? Member.StateEpoch i) &&
         negb (bool_decide (Member.StateID i ∈ states)) &&
         bool_decide (entries !! Member.EntryName i = Some "directory") &&
         bool_decide (entries !! (Member.EntryName i +:+ "/SKILL.md") = Some "file")
      then validate_items entries rest (selected ∖ {[Member.EntryName i]}) ({[Member.StateID i]} ∪ states)
      else None
  end.

Definition enabled_names (p : SkillDeploymentPlan) : list string :=
  match Plan.Sources p with
  | Some l => map Source.Name (List.filter Source.Enabled l)
  | None => []
  end.

(** Later entries of a path replace earlier ones. *)
Definition entry_kinds (m : Manifest.Manifest) : gmap string string :=
  foldl (λ kinds e, <[Manifest.Path e := Manifest.Kind e]> kinds) ∅ (Manifest.Entries m).

Section Inputs.
Context (IsNormalString : string → bool) (hex_sha256 : list Z → string).

(** [SkillDeployment.Validate] *)
Definition validate_deployment (d : SkillDeployment) (expected : SkillDeploymentIdentity) : bool :=
  let b := Identity_ d in
  let p := Plan_ d in
  Deploy.Validate expected && bool_decide (b = expected) && (1 <=? DirectoryEpoch d) &&
  match Items d with
  | None => false
  | Some items =>
      String.eqb (Plan.OperationID p) (Deploy.OperationID b) && String.eqb (Plan.UserID p) (Deploy.UserID b) &&
      String.eqb (Plan.AccountID p) (Deploy.AccountID b) && String.eqb (Plan.NodeID p) (Deploy.NodeID b) &&
      String.eqb (Plan.RuntimeBackend p) (Deploy.RuntimeBackend b) &&
      bool_decide (plan_digest hex_sha256 p = Some (Deploy.PlanDigest b)) &&
      bool_decide (Manifest.Digest IsNormalString hex_sha256 (Manifest_ d) = Ok (Deploy.TreeDigest b)) &&
      match validate_items (entry_kinds (Manifest_ d)) items (list_to_set (enabled_names p)) ∅ with
      | Some omitted => bool_decide (omitted = ∅)
      | None => false
      end
  end.

(** The embedded identity comes first. *)
Definition deployment_value (d : SkillDeployment) : value :=
  VObj (flat_map (encode_field (Identity_ d)) Deploy.fields ++
        [("directory_epoch", VNum (itoa (DirectoryEpoch d)));
         ("plan", encode_struct Plan.fields (Plan_ d));
         ("manifest", manifest_value (Manifest_ d));
         ("items", match Items d with
                   | Some l => VArr (map (encode_struct Member.fields) l)
                   | None => VNull
                   end)]).

Definition InputDigest (d : SkillDeployment) : option string :=
  if validate_deployment d (Identity_ d) then deploymentJSONDigest hex_sha256 (deployment_value d) else None.

(** [DeploymentPreparation.Validate] *)
Definition validate_preparation (r : DeploymentPreparation) (input : SkillDeployment) : bool :=
  Receipt.ValidateBinding r &&
  match InputDigest input with
  | None => false
  | Some digest =>
      (Receipt.Version r =? 1) && bool_decide (Receipt.Binding r = Identity_ input) &&
      String.eqb (Receipt.InputDigest r) digest && (Receipt.DirectoryEpoch r =? DirectoryEpoch input) &&
      (Receipt.Generation r =? Plan.Generation (Plan_ input)) && validSkillUUID (Receipt.HelperReceiptID r)
  end.
End Inputs.
