(* ===== verification/DeploymentPlanFacts.v ===== *)
(** * What the digests of a deployment pin

    A plan's digest identifies the plan up to the order of its sources; a valid
    deployment input has exactly one member per enabled source. *)

From stdpp Require Import sorting.
From S2P Require Import Prelude GoText GoTime GoJson GoUtf8 GoJsonText GoJsonValue GoJsonDecode GoJsonStruct.
From S2P Require Import Manifest StartResult Ledger TaskStore LedgerFacts StartJournal StartJournalFacts.
From S2P Require Import Deployment DeploymentCodec DeploymentPlan.
From Stdlib.Strings Require Import Ascii.

(** ** Codecs of slices and optional integers *)

Lemma mapM_same {A} (enc : A → value) (dec : json → option A) st d l vs :
  white_style st → Forall (λ x, carried (enc x) (λ _ _, dec) x) l → Forall2 same (map enc l) vs →
  mapM dec (map (tree st d) vs) = Some l.
Proof.
  intros Hst Hl. revert vs. induction Hl as [|x l (_ & _ & Hx) _ IH]; cbn [map]; intros vs Hv.
  { apply Forall2_nil_inv_l in Hv as ->. done. }
  apply Forall2_cons_inv_l in Hv as (v & vs' & Hs & Hv & ->). cbn [map mapM].
  rewrite (Hx v x st d Hst Hs). cbn [mbind option_bind]. by rewrite IH.
Qed.

Lemma carries_slice {R A} name get set enc dec r :
  valid_utf8 (codes name) = true →
  (∀ l, get r = Some l → Forall (λ x, carried (enc x) (λ _ _, dec) x) l) →
  carries r (@slice_field R A name get set enc dec).
Proof.
  intros Hn Hl. split; [done|]. intros v [= <-]. cbn. destruct (get r) as [l|].
  - specialize (Hl l eq_refl). split_and!.
    + apply faithful_arr. apply list.Forall_forall. intros v (x & -> & Hx)%list_elem_of_fmap.
      rewrite list.Forall_forall in Hl. by destruct (Hl x Hx).
    + apply distinct_arr. apply list.Forall_forall. intros v (x & -> & Hx)%list_elem_of_fmap.
      rewrite list.Forall_forall in Hl. by destruct (Hl x Hx) as (_ & ? & _).
    + intros v' current st d Hst (vs & -> & Hs)%same_arr_inv. cbn [tree].
      by rewrite (mapM_same enc dec st (S d) l vs Hst Hl Hs).
  - split_and!; [done|done|]. intros v' current st d Hst. by inversion 1.
Qed.

Lemma carries_int_pointer {R} name get set (r : R) :
  valid_utf8 (codes name) = true → (∀ z, get r = Some z → 0 ≤ z ≤ max_int64) →
  carries r (int_pointer_omit_field name get set).
Proof.
  intros Hn Hz. split; [done|]. cbn. intros v. destruct (get r) as [z|]; [|done].
  specialize (Hz z eq_refl). intros [= <-]. split_and!; [|done|].
  - apply number_itoa. unfold max_int64, max_uint64 in *. lia.
  - intros v' current st d Hst. inversion 1; subst. cbn [tree]. by rewrite int_of_itoa.
Qed.

(** ** Sources and plans *)

Lemma name_text s : snapshotSkillName s = true → valid_utf8 (codes s) = true.
Proof.
  intros Hs. apply ascii_utf8. destruct s as [|c s]; [done|]. cbn in Hs.
  apply andb_true_iff in Hs as [[Hc Hs]%andb_true_iff _]. cbn [all_chars]. apply andb_true_iff. split.
  - revert Hc. by destruct c as [[] [] [] [] [] [] [] []].
  - eapply all_chars_impl; [|exact Hs]. intros b. by destruct b as [[] [] [] [] [] [] [] []].
Qed.

(** One member of an object, read on its own. *)
Lemma decode_member {R} (f : field R) zero st d l v x :
  (fname f, v) ∈ l → NoDup (map fst l) →
  (∀ k, k ∈ map fst l → k ≠ fname f → match_field [fname f] k = None) →
  (∀ current, fdec f current (print_value st (S d) v) (tree st (S d) v) = Some x) →
  decode_struct [f] zero (tree st d (VObj l)) = Some (fset f x zero).
Proof.
  intros Hin Hnd Hother Hdec. unfold decode_struct. cbn [tree lax_struct_of_json].
  assert (Hskip : ∀ l r, (∀ k, k ∈ map fst l → match_field [fname f] k = None) →
    assign_known (names [f]) (assign_member [f])
      (map (λ g, (g.1, print_value st (S d) g.2, tree st (S d) g.2)) l) r = Some r).
  { clear. induction l as [|[k w] l IH]; intros r Hk; [done|]. cbn [map assign_known fst snd names].
    rewrite (Hk k) by (by left). apply IH. intros k' Hk'. apply Hk. by right. }
  revert Hother. induction l as [|[k w] l IH]; intros Hother; [by apply not_elem_of_nil in Hin|].
  cbn [map fst] in Hnd. apply list.NoDup_cons in Hnd as [Hk Hnd].
  cbn [map assign_known fst snd names] in *. apply elem_of_cons in Hin as [[= <- <-]|Hin].
  - change [fname f] with (names [f]). rewrite match_field_name by (by left).
    cbn [assign_member]. rewrite String.eqb_refl, Hdec. cbn [mbind option_bind]. apply Hskip.
    intros k Hin. apply Hother; [by right|]. by intros ->.
  - rewrite Hother; [|by left|].
    + apply IH; [done|done|]. intros k' Hk'. apply Hother. by right.
    + intros ->. apply Hk. by apply (list_elem_of_fmap_2 fst _ (fname f, v)).
Qed.

Definition source_width (s : SkillDeploymentSource) : Prop :=
  ∀ n, Source.InstallationEpoch s = Some n → n ≤ max_int64.

Definition source_ok (s : SkillDeploymentSource) : bool := Source.valid s && Source.valid_origin s.

Lemma source_names s st d v :
  source_ok s = true → distinct (encode_struct Source.fields s) → same (encode_struct Source.fields s) v →
  Source.names (tree st d v) = Some (map fst (flat_map (encode_field s) Source.fields)).
Proof.
  intros [_ Ho]%andb_true_iff Hd Hs. pose proof (same_distinct _ _ Hs Hd) as Hdv.
  destruct (same_keys _ _ Hs) as (l & -> & Hk & _). apply distinct_obj in Hdv as [Hnd _].
  destruct (member_in Source.fields (str_field "origin" Source.Origin (λ x r, r <| Source.Origin := x |>)) s
              (VStr (Source.Origin s)) l ltac:(by left) eq_refl Hs) as (w & Hin & Hw).
  inversion Hw; subst.
  unfold Source.names.
  rewrite (decode_member (str_field "origin" (λ s : string, s) (λ x _, x)) "" st d l (VStr (Source.Origin s))
             (Source.Origin s)); [|done|done| |done].
  - cbn [mbind option_bind]. unfold Source.valid_origin in Ho. destruct s as [o si ri cd nm en ep]. cbn in Ho |- *.
    destruct (String.eqb o "library"); [by destruct ep|]. apply andb_true_iff in Ho as [_ Ho]. by destruct ep.
  - intros k Hkin Hne. rewrite Hk in Hkin.
    apply list_elem_of_fmap in Hkin as (m & -> & (f & Hf & Heq & _)%encode_member).
    rewrite <- Heq in *.
    assert (Hall : Forall (λ k, k ≠ "origin" → match_field ["origin"] k = None) (map fname Source.fields)).
    { repeat (apply Forall_cons_2; [intros Ho'; first [by destruct Ho' | by vm_compute]|]). constructor. }
    rewrite list.Forall_forall in Hall. apply Hall; [|done]. by apply list_elem_of_fmap_2.
Qed.

Lemma source_carried s :
  source_ok s = true → source_width s →
  carried (encode_struct Source.fields s) (λ _ _, Source.of_json) s.
Proof.
  intros Hok Hw. pose proof Hok as [Hv Ho]%andb_true_iff. unfold Source.valid in Hv.
  rewrite !andb_true_iff in Hv. destruct Hv as [[[[[H1 H2] H3] H4] _] _].
  assert (Hc : carried (encode_struct Source.fields s) (λ _ _, decode_struct Source.fields Source.zero) s).
  { apply struct_carried; [solve_disjoint| |by destruct s as [o si ri cd nm en []]].
    apply Forall_cons_2.
    { apply carries_str; [done|]. unfold Source.valid_origin in Ho.
      destruct (String.eqb_spec (Source.Origin s) "library") as [->|_]; [done|].
      by apply andb_true_iff in Ho as [->%String.eqb_eq _]. }
    do 2 (apply Forall_cons_2; [apply carries_str; [done|by apply uuid_utf8]|]).
    apply Forall_cons_2; [apply carries_str; [done|by apply digest_text]|].
    apply Forall_cons_2; [apply carries_str; [done|by apply name_text]|].
    apply Forall_cons_2; [by apply carries_bool|].
    apply Forall_cons_2; [|constructor]. apply carries_int_pointer; [done|]. intros z Hz.
    split; [|by apply Hw]. unfold Source.valid_origin in Ho. rewrite Hz in Ho.
    destruct (String.eqb _ _); [apply Z.leb_le in Ho; lia|by rewrite andb_false_r in Ho]. }
  pose proof Hc as (Hf & Hd & _). split_and!; [done|done|]. intros v current st d Hst Hs.
  unfold Source.of_json. rewrite (source_names s st d v Hok Hd Hs). cbn [mbind option_bind].
  assert (Hwhole : whole Source.fields (map fst (flat_map (encode_field s) Source.fields)) s)
    by (split; [done|]; not_null).
  destruct (deployment_fields_carried _ _ _ _ Hc Hwhole) as (_ & _ & Hdec). by apply (Hdec v s).
Qed.

(** What the loop over the sources checks, free of its order. *)
Lemma validate_sources_spec l ids seen :
  Plan.validate_sources l ids seen = true ↔
  Forall (λ s, source_ok s = true) l ∧
  NoDup (map Source.identity l) ∧ (∀ s, s ∈ l → Source.identity s ∉ ids) ∧
  NoDup (map Source.Name (List.filter Source.Enabled l)) ∧
  (∀ s, s ∈ l → Source.Enabled s = true → Source.Name s ∉ seen).
Proof.
  revert ids seen. induction l as [|s l IH]; intros ids seen; cbn [Plan.validate_sources].
  { split; [|done]. intros _. split_and!; try constructor; by intros s ?%not_elem_of_nil. }
  rewrite !andb_true_iff, IH, negb_true_iff, bool_decide_eq_false. cbn [map List.filter].
  rewrite list.Forall_cons, list.NoDup_cons. unfold source_ok at 2. rewrite andb_true_iff.
  assert (Hmem : ∀ (P : string → Prop) (f : SkillDeploymentSource → string) l,
    (∀ s, s ∈ l → P (f s)) ↔ (∀ k, k ∈ map f l → P k)).
  { clear. intros P f l. split; [by intros H k (s & -> & Hs)%list_elem_of_fmap; apply H|].
    intros H s Hs. by apply H, list_elem_of_fmap_2. }
  assert (Hid : (∀ s0, s0 ∈ l → Source.identity s0 ∉ ({[Source.identity s]} ∪ ids : gset string)) ↔
    ((Source.identity s ∉ map Source.identity l) ∧ ∀ s0, s0 ∈ l → Source.identity s0 ∉ ids)).
  { rewrite !(Hmem (λ k, k ∉ _) Source.identity). set_solver. }
  assert (Hen : ∀ seen' : gset string, (∀ s0, s0 ∈ l → Source.Enabled s0 = true → Source.Name s0 ∉ seen') ↔
    (∀ k, k ∈ map Source.Name (List.filter Source.Enabled l) → k ∉ seen')).
  { clear. intros seen'. split.
    - intros H k (s & -> & Hs)%list_elem_of_fmap. rewrite list_elem_of_In, List.filter_In in Hs.
      destruct Hs as [Hs He]. apply H; [by apply list_elem_of_In|done].
    - intros H s Hs He. apply H, list_elem_of_fmap_2, list_elem_of_In, List.filter_In.
      by rewrite <- list_elem_of_In. }
  assert (Hcons : ∀ P : SkillDeploymentSource → Prop,
    (∀ s0, s0 ∈ s :: l → P s0) ↔ (P s ∧ ∀ s0, s0 ∈ l → P s0)).
  { clear. intros P. setoid_rewrite elem_of_cons. naive_solver. }
  rewrite Hid, (Hcons (λ s0, Source.identity s0 ∉ ids)),
    (Hcons (λ s0, Source.Enabled s0 = true → Source.Name s0 ∉ seen)), !Hen.
  destruct (Source.Enabled s); cbn [andb map].
  - rewrite negb_true_iff, bool_decide_eq_false, list.NoDup_cons. set_solver.
  - naive_solver.
Qed.

Definition plan_ok (p : SkillDeploymentPlan) (l : list SkillDeploymentSource) : Prop :=
  Plan.Version p = 1 ∧ 0 ≤ Plan.Generation p ∧ Plan.ToolType p = "claude" ∧ Plan.RuntimeBackend p = "native" ∧
  Forall (λ s, validSkillUUID s = true) [Plan.UserID p; Plan.OperationID p; Plan.AccountID p; Plan.NodeID p] ∧
  Plan.Sources p = Some l ∧ Forall (λ s, source_ok s = true) l ∧
  NoDup (map Source.identity l) ∧ NoDup (map Source.Name (List.filter Source.Enabled l)).

Lemma plan_validate_spec p : Plan.validate p = true ↔ ∃ l, plan_ok p l.
Proof.
  unfold Plan.validate, plan_ok. rewrite !andb_true_iff, Z.eqb_eq, Z.leb_le, !String.eqb_eq.
  destruct (Plan.Sources p) as [l|]; [|naive_solver].
  rewrite andb_true_iff, forallb_forall, validate_sources_spec.
  setoid_rewrite <- list_elem_of_In. rewrite <- list.Forall_forall. split.
  - intros ([[[? ?] ?] ?] & ? & ? & ? & _ & ? & _). exists l. by split_and!.
  - intros (l' & ? & ? & ? & ? & ? & [= <-] & ? & ? & ?). by split_and!; try (set_solver).
Qed.

Definition plan_width (p : SkillDeploymentPlan) : Prop :=
  Plan.Generation p ≤ max_int64 ∧ ∀ l s, Plan.Sources p = Some l → s ∈ l → source_width s.

Lemma plan_carried p l :
  plan_ok p l → plan_width p → carried (encode_struct Plan.fields p) (λ _ _, Plan.of_json) p.
Proof.
  intros (Hv & Hg & Ht & Hb & Hids & Hl & Hsrc & _) [Wg Ws].
  apply deployment_fields_carried.
  - apply struct_carried; [solve_disjoint| |by destruct p].
    apply list.Forall_cons in Hids as [H1 Hids]. apply list.Forall_cons in Hids as [H2 Hids].
    apply list.Forall_cons in Hids as [H3 Hids]. apply list.Forall_cons in Hids as [H4 _].
    apply Forall_cons_2; [apply carries_int; [done|rewrite Hv; unfold max_int64; lia]|].
    do 2 (apply Forall_cons_2; [apply carries_str; [done|by apply uuid_utf8]|]).
    apply Forall_cons_2; [by apply carries_int|].
    do 2 (apply Forall_cons_2; [apply carries_str; [done|by apply uuid_utf8]|]).
    apply Forall_cons_2; [apply carries_str; [done|by rewrite Ht]|].
    apply Forall_cons_2; [apply carries_str; [done|by rewrite Hb]|].
    apply Forall_cons_2; [|constructor]. apply carries_slice; [done|]. intros l' Hl'.
    rewrite Hl in Hl'. injection Hl' as <-. rewrite list.Forall_forall in Hsrc |- *.
    intros s Hs. apply source_carried; [by apply Hsrc|by apply (Ws l)].
  - split; [by destruct p|].
    do 8 (apply Forall_cons_2; [by intros v [= <-]|]). apply Forall_cons_2; [|constructor].
    cbn. rewrite Hl. by intros v [= <-].
Qed.

Lemma plan_height p : (height (encode_struct Plan.fields p) ≤ 3)%nat.
Proof.
  apply struct_height. do 8 (apply Forall_cons_2; [intros v [= <-]; cbn; lia|]).
  apply Forall_cons_2; [|constructor]. cbn. intros v [= <-].
  destruct (Plan.Sources p) as [l|]; cbn [height]; [|lia]. apply le_n_S, list_max_le, list.Forall_forall.
  intros h (v & -> & (s & -> & _)%list_elem_of_fmap)%list_elem_of_fmap.
  apply struct_height. solve_heights.
Qed.

(** ** The order of the sources *)

Lemma precedes_cases a b :
  Plan.in_order a b ↔
  str_lt (Source.Origin a) (Source.Origin b) ∨
  Source.Origin a = Source.Origin b ∧ ¬ str_lt (Source.SourceID b) (Source.SourceID a).
Proof.
  unfold Plan.in_order, Plan.precedes.
  destruct (str_ltb (Source.Origin a) (Source.Origin b)) eqn:E1; [by split; auto|].
  destruct (str_ltb (Source.Origin b) (Source.Origin a)) eqn:E2.
  - split; [done|]. intros [H|[H _]]; unfold str_lt in *; [congruence|].
    rewrite H in E2. by destruct (irreflexivity str_lt (Source.Origin b)).
  - destruct (str_lt_cases (Source.Origin a) (Source.Origin b)) as [H|[H|H]]; unfold str_lt in *; try congruence.
    rewrite negb_true_iff. split; [intros Hf; right; split; [done|by rewrite Hf]|].
    intros [?|[_ Hf]]; [congruence|]. by destruct (str_ltb (Source.SourceID b) (Source.SourceID a)).
Qed.

#[local] Instance in_order_total : Total Plan.in_order.
Proof.
  intros a b. rewrite !precedes_cases.
  destruct (str_lt_cases (Source.Origin a) (Source.Origin b)) as [?|[Ho|?]]; [by auto| |by auto].
  destruct (str_lt_cases (Source.SourceID a) (Source.SourceID b)) as [Hl|[Heq|Hl]].
  - left. right. split; [done|]. intros H. apply (irreflexivity str_lt (Source.SourceID a)). by trans (Source.SourceID b).
  - left. right. split; [done|]. rewrite Heq. apply (irreflexivity str_lt).
  - right. right. split; [done|]. intros H. apply (irreflexivity str_lt (Source.SourceID a)). by trans (Source.SourceID b).
Qed.

#[local] Instance in_order_trans : Transitive Plan.in_order.
Proof.
  intros a b c. rewrite !precedes_cases. intros [H1|[H1 L1]] [H2|[H2 L2]].
  - left. by trans (Source.Origin b).
  - left. by rewrite <- H2.
  - left. by rewrite H1.
  - right. split; [congruence|]. intros Hca.
    destruct (str_lt_cases (Source.SourceID b) (Source.SourceID c)) as [Hbc|[Hbc|Hbc]]; [|by rewrite Hbc in L1|done].
    apply L1. by trans (Source.SourceID c).
Qed.

Lemma in_order_antisymm a b : Plan.in_order a b → Plan.in_order b a → Source.identity a = Source.identity b.
Proof.
  rewrite !precedes_cases. intros [H1|[H1 L1]] [H2|[H2 L2]].
  - destruct (irreflexivity str_lt (Source.Origin a)). by trans (Source.Origin b).
  - rewrite H2 in H1. by destruct (irreflexivity str_lt (Source.Origin a)).
  - rewrite H1 in H2. by destruct (irreflexivity str_lt (Source.Origin b)).
  - unfold Source.identity. rewrite H1. f_equal. f_equal.
    by destruct (str_lt_cases (Source.SourceID a) (Source.SourceID b)) as [?|[?|?]].
Qed.

Lemma NoDup_map_inj {A B} (f : A → B) l x y : NoDup (map f l) → x ∈ l → y ∈ l → f x = f y → x = y.
Proof.
  induction l as [|z l IH]; cbn; [by intros ? ?%not_elem_of_nil|].
  intros [Hz Hn]%list.NoDup_cons [->|Hx]%elem_of_cons [->|Hy]%elem_of_cons Heq; auto.
  - destruct Hz. rewrite Heq. by apply list_elem_of_fmap_2.
  - destruct Hz. rewrite <- Heq. by apply list_elem_of_fmap_2.
Qed.

Lemma sorted_sources_perm l l' :
  NoDup (map Source.identity l) → (l ≡ₚ l' ↔ Plan.sorted_sources l = Plan.sorted_sources l').
Proof.
  intros Hn. unfold Plan.sorted_sources. split.
  - intros Hp. apply (Sorted_unique_strong Plan.in_order).
    + intros x y. rewrite !merge_sort_Permutation, <- Hp. intros Hx Hy H1 H2.
      eapply NoDup_map_inj; [exact Hn|done..|]. by apply in_order_antisymm.
    + apply Sorted_merge_sort, _.
    + apply Sorted_merge_sort, _.
    + by rewrite !merge_sort_Permutation.
  - intros Heq. rewrite <- (merge_sort_Permutation Plan.in_order l), Heq. apply merge_sort_Permutation.
Qed.

(** ** Plan digests *)

Lemma payload_canon m :
  faithful (VObj m) → (height (VObj m) ≤ max_depth)%nat →
  ∃ p, payload_of (VObj m) = Some p ∧ VObj p = canon (VObj m).
Proof.
  intros Hf Hh. exists (put_all [] (map (λ f, (f.1, canon f.2)) m)). rewrite <- canon_obj. split; [|done].
  unfold payload_of, decode_value. rewrite <- (string_app_nil (print_value compact 0 (VObj m))).
  rewrite parse_print by (done || apply compact_white). cbn [mbind option_bind].
  by rewrite tree_value, canon_obj.
Qed.

(** A decoder that reads a value back reads it from its canonical text. *)
Lemma canonical_text_inj {A} (enc : A → value) (dec : json → option A) x y :
  carried (enc x) (λ _ _, dec) x → carried (enc y) (λ _ _, dec) y →
  (height (enc x) ≤ max_depth)%nat → (height (enc y) ≤ max_depth)%nat →
  print_value compact 0 (canon (enc x)) = print_value compact 0 (canon (enc y)) → x = y.
Proof.
  assert (Hparse : ∀ z, carried (enc z) (λ _ _, dec) z → (height (enc z) ≤ max_depth)%nat →
    (j ← parse_json (print_value compact 0 (canon (enc z))); dec j) = Some z).
  { intros z (Hf & Hd & Hdec) Hh. rewrite <- (string_app_nil (print_value compact 0 (canon (enc z)))).
    pose proof (canon_height (enc z)). rewrite parse_print by (by apply canon_faithful || apply compact_white || lia || done).
    cbn [mbind option_bind]. by apply (Hdec _ z), same_canon. }
  intros Hx Hy Wx Wy Heq. pose proof (Hparse x Hx Wx) as H1. rewrite Heq, (Hparse y Hy Wy) in H1. congruence.
Qed.

Definition sorted_plan (p : SkillDeploymentPlan) : SkillDeploymentPlan :=
  p <| Plan.Sources ::= option_map Plan.sorted_sources |>.

(** The text whose hash is the digest of [p]. *)
Definition plan_text (p : SkillDeploymentPlan) : string :=
  print_value compact 0 (canon (encode_struct Plan.fields (sorted_plan p))).

Lemma filter_perm {A} (f : A → bool) l l' : l ≡ₚ l' → List.filter f l ≡ₚ List.filter f l'.
Proof.
  induction 1 as [|x l l' _ IH|x y l|l1 l2 l3 _ IH1 _ IH2]; cbn [List.filter]; [done| | |by etrans].
  - case_match; [by apply perm_skip|done].
  - repeat case_match; (apply perm_swap || done).
Qed.

(** The same plan with its sources in another order. *)
Definition same_plan (p q : SkillDeploymentPlan) : Prop :=
  p <| Plan.Sources := None |> = q <| Plan.Sources := None |> ∧
  ∃ l l', Plan.Sources p = Some l ∧ Plan.Sources q = Some l' ∧ l ≡ₚ l'.

Lemma plan_ok_perm p q l l' :
  p <| Plan.Sources := None |> = q <| Plan.Sources := None |> → l ≡ₚ l' → Plan.Sources q = Some l' →
  plan_ok p l → plan_ok q l'.
Proof.
  intros Heq Hp Hq (H1 & H2 & H3 & H4 & H5 & _ & H6 & H7 & H8).
  destruct p, q. cbn in *. injection Heq as <- <- <- <- <- <- <- <-. split_and!; try done.
  - by rewrite <- Hp.
  - change (NoDup (Source.identity <$> l')). by rewrite <- Hp.
  - apply (filter_perm Source.Enabled) in Hp. change (NoDup (Source.Name <$> List.filter Source.Enabled l')).
    by rewrite <- Hp.
Qed.

Lemma sorted_plan_same p l : Plan.Sources p = Some l → same_plan p (sorted_plan p).
Proof.
  intros Hl. split; [by destruct p|]. exists l, (Plan.sorted_sources l). destruct p. cbn in *. subst.
  split_and!; [done|done|]. symmetry. apply merge_sort_Permutation.
Qed.

Lemma sorted_plan_ok p l :
  plan_ok p l → plan_width p → plan_ok (sorted_plan p) (Plan.sorted_sources l) ∧ plan_width (sorted_plan p).
Proof.
  intros Hok [Wg Ws]. pose proof Hok as (_ & _ & _ & _ & _ & Hl & _).
  assert (Hp : Plan.sorted_sources l ≡ₚ l) by apply merge_sort_Permutation.
  assert (Hs : Plan.Sources (sorted_plan p) = Some (Plan.sorted_sources l)) by (destruct p; cbn in *; by subst).
  split.
  - eapply plan_ok_perm; [|symmetry; exact Hp|exact Hs|exact Hok]. by destruct p.
  - split; [by destruct p|]. intros l' s Hl' Hin. rewrite Hs in Hl'. injection Hl' as <-.
    apply (Ws l); [done|]. by rewrite <- Hp.
Qed.

Lemma sorted_plan_eq p q l l' :
  plan_ok p l → plan_ok q l' → (sorted_plan p = sorted_plan q ↔ same_plan p q).
Proof.
  intros Hp Hq. pose proof Hp as (_ & _ & _ & _ & _ & Hl & _ & Hn & _).
  pose proof Hq as (_ & _ & _ & _ & _ & Hl' & _). unfold same_plan.
  rewrite Hl, Hl'. split.
  - intros Heq. split.
    + apply (f_equal (set Plan.Sources (λ _, None))) in Heq. by destruct p, q.
    + apply (f_equal Plan.Sources) in Heq. destruct p, q. cbn in *. subst. cbn in Heq.
      injection Heq as Heq. exists l, l'. split_and!; [done|done|]. by apply sorted_sources_perm.
  - intros (Heq & m & m' & [= <-] & [= <-] & Hperm). apply sorted_sources_perm in Hperm; [|done].
    destruct p, q. cbn in *. subst. unfold sorted_plan. cbn. rewrite Hperm.
    by injection Heq as -> -> -> -> -> -> -> ->.
Qed.

Section PlanDigest.
Context (hex_sha256 : list Z → string).

Lemma plan_digest_text p l :
  plan_ok p l → plan_width p → plan_digest hex_sha256 p = Some (hex_sha256 (codes (plan_text p))).
Proof.
  intros Hok Hw. unfold plan_digest. rewrite (proj2 (plan_validate_spec p)) by (by exists l).
  destruct (sorted_plan_ok p l Hok Hw) as [Hok' Hw']. destruct (plan_carried _ _ Hok' Hw') as (Hf & _).
  pose proof (plan_height (sorted_plan p)) as Hh. unfold deploymentJSONDigest.
  destruct (payload_canon _ Hf) as (m & Hm & Heq); [etrans; [exact Hh|unfold max_depth; lia]|].
  change (p <| Plan.Sources ::= _ |>) with (sorted_plan p). unfold encode_struct at 1. rewrite Hm.
  cbn [mbind option_bind]. unfold plan_text, encode_struct at 1. by rewrite Heq.
Qed.

(** C29: the digest of a deployment plan identifies it: reordering the sources
    keeps the digest, and any two valid plans with one digest are the same up
    to the order of their sources, unless their canonical texts are two
    different strings with the same SHA-256. *)
Theorem plan_digest_identifies p q d :
  plan_width p → plan_width q → plan_digest hex_sha256 p = Some d →
  (same_plan p q → plan_digest hex_sha256 q = Some d) ∧
  (plan_digest hex_sha256 q = Some d →
   same_plan p q ∨
   plan_text p ≠ plan_text q ∧ hex_sha256 (codes (plan_text p)) = hex_sha256 (codes (plan_text q))).
Proof.
  intros Wp Wq Hd. destruct (Plan.validate p) eqn:Hvp; [|by unfold plan_digest in Hd; rewrite Hvp in Hd].
  apply plan_validate_spec in Hvp as [l Hp]. rewrite (plan_digest_text p l Hp Wp) in Hd. apply (inj Some) in Hd. subst d. split.
  - intros Hs. pose proof Hs as (Heq & m & l' & Hm & Hl' & Hperm).
    pose proof Hp as (_ & _ & _ & _ & _ & Hl & _). rewrite Hl in Hm. injection Hm as <-.
    pose proof (plan_ok_perm p q l l' Heq Hperm Hl' Hp) as Hq.
    rewrite (plan_digest_text q l' Hq Wq). unfold plan_text.
    by rewrite (proj2 (sorted_plan_eq p q l l' Hp Hq) Hs).
  - intros Hdq. destruct (Plan.validate q) eqn:Hvq; [|by unfold plan_digest in Hdq; rewrite Hvq in Hdq].
    apply plan_validate_spec in Hvq as [l' Hq]. rewrite (plan_digest_text q l' Hq Wq) in Hdq.
    apply (inj Some) in Hdq. destruct (decide (plan_text p = plan_text q)) as [Heq|Hne]; [left|by right].
    apply (sorted_plan_eq p q l l' Hp Hq).
    destruct (sorted_plan_ok p l Hp Wp), (sorted_plan_ok q l' Hq Wq).
    eapply (canonical_text_inj (encode_struct Plan.fields) Plan.of_json); [by eapply plan_carried..| | |exact Heq];
      (etrans; [apply plan_height|unfold max_depth; lia]).
Qed.
End PlanDigest.

(** ** Members *)

Definition member_ok (entries : gmap string string) (i : SkillDeploymentMember) : Prop :=
  validSkillUUID (Member.StateID i) = true ∧ validSkillUUID (Member.CheckpointID i) = true ∧
  1 ≤ Member.StateEpoch i ∧ entries !! Member.EntryName i = Some "directory" ∧
  entries !! (Member.EntryName i +:+ "/SKILL.md") = Some "file".

(** Choosing [x] first and the names of [l] after it. *)
Lemma choose_within (x : string) l (selected : gset string) :
  x ∈ selected →
  (list_to_set l ⊆ selected ∖ {[x]} ↔ (x ∉ l) ∧ {[x]} ∪ list_to_set l ⊆ selected).
Proof. set_solver. Qed.

Lemma choose_fresh (x : string) l (used : gset string) :
  x ∉ used → ((list_to_set l : gset string) ## {[x]} ∪ used ↔ (x ∉ l) ∧ {[x]} ∪ list_to_set l ## used).
Proof. set_solver. Qed.

Lemma validate_items_spec entries items selected states omitted :
  validate_items entries items selected states = Some omitted ↔
  Forall (member_ok entries) items ∧ NoDup (map Member.EntryName items) ∧
  list_to_set (map Member.EntryName items) ⊆ selected ∧ NoDup (map Member.StateID items) ∧
  (list_to_set (map Member.StateID items) : gset string) ## states ∧
  omitted = selected ∖ list_to_set (map Member.EntryName items).
Proof.
  revert selected states. induction items as [|i items IH]; intros selected states; cbn [validate_items map list_to_set].
  { split.
    - intros [= <-]. split_and!; try constructor; set_solver.
    - intros (_ & _ & _ & _ & _ & ->). f_equal. set_solver. }
  rewrite list.Forall_cons, !list.NoDup_cons. unfold member_ok at 1.
  destruct (bool_decide (Member.EntryName i ∈ selected)) eqn:E1; cbn [andb].
  2: { apply bool_decide_eq_false in E1. split; [done|]. intros (_ & _ & Hs & _). destruct E1. set_solver. }
  apply bool_decide_eq_true in E1.
  case_match eqn:Ec.
  - rewrite !andb_true_iff, negb_true_iff, !bool_decide_eq_true, bool_decide_eq_false, Z.leb_le in Ec.
    destruct Ec as [[[[[H1 H2] H3] H4] H5] H6]. rewrite IH, choose_within, choose_fresh by done.
    rewrite (difference_difference_l_L selected). clear -H1 H2 H3 H4 H5 H6. tauto.
  - split; [done|]. intros (((H1 & H2 & H3 & H4 & H5) & _) & _ & _ & _ & Hd & _). exfalso.
    assert (Hfresh : Member.StateID i ∉ states).
    { intros Hin. by apply (Hd (Member.StateID i)); [apply elem_of_union_l, elem_of_singleton|]. }
    by rewrite H1, H2, (proj2 (Z.leb_le _ _) H3), (bool_decide_eq_true_2 _ H4), (bool_decide_eq_true_2 _ H5),
      (bool_decide_eq_false_2 _ Hfresh) in Ec.
Qed.

Lemma entry_kinds_lookup m path kind :
  entry_kinds m !! path = Some kind → ∃ e, e ∈ Manifest.Entries m ∧ Manifest.Path e = path ∧ Manifest.Kind e = kind.
Proof.
  unfold entry_kinds. generalize (Manifest.Entries m). intros l.
  assert (Hgen : ∀ kinds : gmap string string,
    foldl (λ kinds e, <[Manifest.Path e := Manifest.Kind e]> kinds) kinds l !! path = Some kind →
    kinds !! path = Some kind ∨ ∃ e, e ∈ l ∧ Manifest.Path e = path ∧ Manifest.Kind e = kind).
  { induction l as [|e l IH]; intros kinds; cbn [foldl]; [by left|].
    intros [Hk|(e' & He' & Hk)]%IH; [|right; exists e'; by split; [right|]].
    apply lookup_insert_Some in Hk as [[<- <-]|[_ Hk]]; [|by left]. right. exists e. by split; [left|]. }
  intros [H|H]%Hgen; [by rewrite lookup_empty in H|done].
Qed.

(** a deployment input that passes validation belongs to the expected
    attempt, its members are exactly the enabled sources of its plan, one
    each and with different states, and the tree has the directory and the
    SKILL.md of every member. *)
Theorem deployment_members IsNormalString hex_sha256 d b :
  validate_deployment IsNormalString hex_sha256 d b = true →
  Identity_ d = b ∧
  ∃ items, Items d = Some items ∧ map Member.EntryName items ≡ₚ enabled_names (Plan_ d) ∧
    NoDup (map Member.StateID items) ∧
    ∀ i, i ∈ items → ∃ dir skill,
      dir ∈ Manifest.Entries (Manifest_ d) ∧ skill ∈ Manifest.Entries (Manifest_ d) ∧
      Manifest.Path dir = Member.EntryName i ∧ Manifest.Kind dir = "directory" ∧
      Manifest.Path skill = Member.EntryName i +:+ "/SKILL.md" ∧ Manifest.Kind skill = "file".
Proof.
  unfold validate_deployment. cbv zeta. intros [[[_ Hb]%andb_true_iff _]%andb_true_iff H]%andb_true_iff.
  apply bool_decide_eq_true in Hb. split; [done|]. destruct (Items d) as [items|]; [|done].
  exists items. split; [done|].
  apply andb_true_iff in H as [[[_ Hplan]%andb_true_iff _]%andb_true_iff H].
  destruct (validate_items _ _ _ _) as [omitted|] eqn:Hv; [|done].
  apply bool_decide_eq_true in H. subst omitted.
  apply validate_items_spec in Hv as (Hall & Hn & Hsub & Hns & _ & Hom). split_and!; [|done|].
  - apply NoDup_Permutation; [done| |].
    + apply bool_decide_eq_true in Hplan. unfold plan_digest in Hplan.
      destruct (Plan.validate (Plan_ d)) eqn:Hp; [|done].
      apply plan_validate_spec in Hp as (l & _ & _ & _ & _ & _ & Hl & _ & _ & Hnames).
      unfold enabled_names. by rewrite Hl.
    + intros x. split; intros Hx.
      * specialize (Hsub x). rewrite !elem_of_list_to_set in Hsub. by apply Hsub.
      * destruct (decide (x ∈ map Member.EntryName items)) as [|Hne]; [done|exfalso].
        apply (not_elem_of_empty (C := gset string) x). rewrite Hom. apply elem_of_difference.
        by rewrite !elem_of_list_to_set.
  - intros i Hi. rewrite list.Forall_forall in Hall. destruct (Hall i Hi) as (_ & _ & _ & H1 & H2).
    apply entry_kinds_lookup in H1 as (dir & ? & ? & ?), H2 as (skill & ? & ? & ?). by exists dir, skill.
Qed.
