(* ===== verification/DeploymentJournal.v ===== *)
(** * The deployment journal

    src/internal/worker/deployment_journal.go, deployment_termination_journal.go
    and the journal operations of deployment_termination.go.  The entry of a
    deployment attempt in the task ledger goes from a proposed preparation to
    a confirmed one, or to a termination that is requested, revoked (the
    server's intent is recorded), drained and confirmed.  The journal works on
    any [TaskStore]. *)

From S2P Require Import Prelude GoText GoTime GoJson GoUtf8 GoJsonText GoJsonValue GoJsonDecode GoJsonStruct.
From S2P Require Import Manifest StartResult Ledger TaskStore StartJournal Deployment.
From Stdlib.Strings Require Import Ascii.

(** ** Errors

    A Go error is the list of the nodes of its tree in the order of
    [errors.Is] and [errors.As]: [errors.Join] appends, and wrapping adds no
    node a caller looks for.  [Other] is any error no caller tells apart. *)
Inductive cause :=
  | HTTPError (code : string)
  | errDeploymentPending
  | errDeploymentLeaseLost
  | errFinalizationPending
  | Canceled
  | DeadlineExceeded
  | HelperError (code : string)
  | OpError (network : string)          (* a net.OpError is a net.Error too *)
  | NetError
  | LedgerError (e : ledger_error)
  | Other.

#[global] Instance cause_eq_dec : EqDecision cause.
Proof. solve_decision. Defined.

Definition error : Type := list cause.

Definition conflict : error := [LedgerError ErrConflict].

Definition deploymentPreparedPending : string := "deployment_prepared_pending".
Definition deploymentPreparedConfirmed : string := "deployment_prepared_confirmed".
Definition deploymentTerminationRequested : string := "deployment_termination_requested".
Definition deploymentTerminationRevoked : string := "deployment_termination_revoked".
Definition deploymentTerminationDrained : string := "deployment_termination_drained".
Definition deploymentTerminationConfirmed : string := "deployment_termination_confirmed".

Definition deployment_task_id (b : SkillDeploymentIdentity) : string :=
  "prepare_account_skills:" +:+ Deploy.AttemptID b.

(** ** Records *)

Module DepRecord.
Record deploymentRecord := mk {
  SchemaVersion : Z;
  Result : SkillDeploymentPreparedResult
}.

#[global] Instance eq_dec : EqDecision deploymentRecord.
Proof. solve_decision. Defined.

Definition fields : list (field deploymentRecord) := [
  int_field "schema_version" SchemaVersion (λ x r, r <| SchemaVersion := x |>);
  sub_field "result" Result (λ x r, r <| Result := x |>)
    (encode_struct Prepared.fields) (λ _, Prepared.of_json)].

Definition zero : deploymentRecord := mk 0 Prepared.zero.

Definition binding (r : deploymentRecord) : SkillDeploymentIdentity :=
  Receipt.Binding (Prepared.Preparation (Result r)).
End DepRecord.
Export DepRecord(deploymentRecord).

Record deploymentEntry := mkDeploymentEntry { dentry : Entry; drecord : deploymentRecord }.

Module TermRecord.
Record deploymentTerminationRecord := mk {
  SchemaVersion : Z;
  Binding : SkillDeploymentIdentity;
  Request_ : SkillDeploymentTerminationRequest;
  Preparation : option SkillDeploymentPreparedResult;
  Intent : option SkillDeploymentTerminationIntent;
  Drain : option DeploymentDrain;
  Confirmation : option SkillDeploymentTerminationObservation
}.

#[global] Instance eq_dec : EqDecision deploymentTerminationRecord.
Proof. solve_decision. Defined.

Definition fields : list (field deploymentTerminationRecord) := [
  int_field "schema_version" SchemaVersion (λ x r, r <| SchemaVersion := x |>);
  binding_field Binding (λ x r, r <| Binding := x |>);
  sub_field "request" Request_ (λ x r, r <| Request_ := x |>)
    (encode_struct Request.fields) (λ _, Request.of_json);
  pointer_field "preparation" Preparation (λ x r, r <| Preparation := x |>)
    (encode_struct Prepared.fields) Prepared.of_json;
  pointer_field "intent" Intent (λ x r, r <| Intent := x |>)
    (encode_struct Intent_.fields) Intent_.of_json;
  pointer_field "drain" Drain (λ x r, r <| Drain := x |>)
    (encode_struct Drain_.fields) Drain_.of_json;
  pointer_field "confirmation" Confirmation (λ x r, r <| Confirmation := x |>)
    (encode_struct TermObs.fields) TermObs.of_json].

Definition zero : deploymentTerminationRecord := mk 0 Deploy.zero Request.zero None None None None.

Definition names : list string :=
  ["schema_version"; "binding"; "request"; "preparation"; "intent"; "drain"; "confirmation"].
End TermRecord.
Export TermRecord(deploymentTerminationRecord).

Record deploymentTerminationEntry := mkTermination { tentry : Entry; trecord : deploymentTerminationRecord }.

Definition deploymentTerminationStatus (status : string) : bool :=
  bool_decide (status ∈ [deploymentTerminationRequested; deploymentTerminationRevoked;
                         deploymentTerminationDrained; deploymentTerminationConfirmed]).

Definition validTerminationObservation (o : SkillDeploymentTerminationObservation)
    (result : SkillDeploymentTerminatedResult) : bool :=
  Terminated.Validate result && bool_decide (TermObs.Result o = result) &&
  (Request.LeaseAttempt (Intent_.Request_ (Terminated.Intent result)) <=? TermObs.CurrentLeaseAttempt o) &&
  (TermObs.CurrentLeaseAttempt o <=? 2147483647) &&
  let outcome := Intent_.Outcome (Terminated.Intent result) in
  if TermObs.Accepted o then
    String.eqb outcome "failed" && String.eqb (TermObs.TaskStatus o) "failed" ||
    String.eqb outcome "superseded" && String.eqb (TermObs.TaskStatus o) "cancelled"
  else bool_decide (TermObs.TaskStatus o ∈ ["pending"; "leased"; "running"; "expired"]).

(** The parts of [status]: each pointer is nil or consistent with the rest. *)
Definition valid_preparation (r : deploymentTerminationRecord) : bool :=
  match TermRecord.Preparation r with
  | Some p => Prepared.Validate p &&
              bool_decide (Receipt.Binding (Prepared.Preparation p) = TermRecord.Binding r)
  | None => true
  end.

Definition valid_intent (r : deploymentTerminationRecord) : bool :=
  match TermRecord.Intent r with
  | Some i => Intent_.Validate i && bool_decide (Intent_.Binding i = TermRecord.Binding r) &&
              bool_decide (Intent_.Request_ i = TermRecord.Request_ r)
  | None => true
  end.

Definition valid_drain (r : deploymentTerminationRecord) : bool :=
  match TermRecord.Drain r with
  | Some d => is_some (TermRecord.Intent r) && Drain_.Validate d (TermRecord.Binding r)
  | None => true
  end.

Definition valid_confirmation (r : deploymentTerminationRecord) : bool :=
  match TermRecord.Confirmation r, TermRecord.Intent r, TermRecord.Drain r with
  | None, _, _ => true
  | Some o, Some i, Some d => validTerminationObservation o (Terminated.mk i d) && TermObs.Accepted o
  | Some _, _, _ => false
  end.

(** [status] *)
Definition termination_status (r : deploymentTerminationRecord) : option string :=
  if (TermRecord.SchemaVersion r =? 1) && Deploy.Validate (TermRecord.Binding r) &&
     Request.Validate (TermRecord.Request_ r) && valid_preparation r && valid_intent r &&
     valid_drain r && valid_confirmation r
  then Some (match TermRecord.Confirmation r, TermRecord.Drain r, TermRecord.Intent r with
             | Some _, _, _ => deploymentTerminationConfirmed
             | _, Some _, _ => deploymentTerminationDrained
             | _, _, Some _ => deploymentTerminationRevoked
             | _, _, _ => deploymentTerminationRequested
             end)
  else None.

(** ** Entries *)

Definition decodeDeploymentEntry (e : Entry) : result error deploymentEntry :=
  require bool_decide (Status e ∈ [deploymentPreparedPending; deploymentPreparedConfirmed]) &&
          negb (is_some (Error e)) orelse [Other] ;;
  match result_json e with
  | None => Err [Other]
  | Some j =>
      require exactJournalFields j ["schema_version"; "result"] orelse [Other] ;;
      match decode_struct DepRecord.fields DepRecord.zero j with
      | None => Err [Other]
      | Some r =>
          require (DepRecord.SchemaVersion r =? 1) && Prepared.Validate (DepRecord.Result r) &&
                  String.eqb (TaskID e) (deployment_task_id (DepRecord.binding r)) orelse [Other] ;;
          Ok (mkDeploymentEntry e r)
      end
  end.

Definition decodeDeploymentTermination (e : Entry) : result error deploymentTerminationEntry :=
  require deploymentTerminationStatus (Status e) && negb (is_some (Error e)) orelse [errDeploymentPending] ;;
  match result_json e with
  | None => Err [Other]
  | Some j =>
      require exactJournalFields j TermRecord.names orelse [errDeploymentPending] ;;
      require match raw_member j "binding" with
              | Some (_, b) => exactJournalFields b Deploy.binding_names
              | None => false
              end orelse [errDeploymentPending] ;;
      match decode_struct TermRecord.fields TermRecord.zero j with
      | None => Err [Other]
      | Some r =>
          require bool_decide (termination_status r = Some (Status e)) &&
                  String.eqb (TaskID e) (deployment_task_id (TermRecord.Binding r))
            orelse [errDeploymentPending] ;;
          Ok (mkTermination e r)
      end
  end.

Definition samePreparedProposal (a b : option SkillDeploymentPreparedResult) : bool :=
  match a, b with None, None => true | Some x, Some y => bool_decide (x = y) | _, _ => false end.

(** What was recorded stays as it is. *)
Definition keeps_pointer {A} `{EqDecision A} (old next : option A) : bool :=
  match old, next with
  | None, _ => true
  | Some x, Some y => bool_decide (x = y)
  | Some _, None => false
  end.

Definition terminationAdvance (old next : deploymentTerminationRecord) : bool :=
  bool_decide (TermRecord.Binding old = TermRecord.Binding next) &&
  samePreparedProposal (TermRecord.Preparation old) (TermRecord.Preparation next) &&
  keeps_pointer (TermRecord.Intent old) (TermRecord.Intent next) &&
  keeps_pointer (TermRecord.Drain old) (TermRecord.Drain next) &&
  keeps_pointer (TermRecord.Confirmation old) (TermRecord.Confirmation next) &&
  (is_some (TermRecord.Intent old) || is_some (TermRecord.Intent next) ||
   String.eqb (Request.ErrorCode (TermRecord.Request_ old)) (Request.ErrorCode (TermRecord.Request_ next)) &&
   (Request.LeaseAttempt (TermRecord.Request_ old) <=? Request.LeaseAttempt (TermRecord.Request_ next))).

(** ** Operations *)

Section Journal.
Context {L Env : Type} `{TaskStore L Env}.

Definition of_ledger {A} (r : result ledger_error A) : result error A :=
  match r with Ok a => Ok a | Err e => Err [LedgerError e] end.

(** The nodes an error adds to [errors.Join]. *)
Definition causes {A} (r : result error A) : error := match r with Ok _ => [] | Err e => e end.

Definition load_deployment (l : L) (taskID : string) : result error (option deploymentEntry) :=
  found ← of_ledger (store_get l taskID);
  match found with
  | None => Ok None
  | Some e => d ← decodeDeploymentEntry e; Ok (Some d)
  end.

(** Whether [propose_deployment] may replace [previous]. *)
Definition supersedes_deployment (previous : deploymentEntry) (result : SkillDeploymentPreparedResult)
    (observation : option SkillDeploymentResultObservation) : bool :=
  let before := DepRecord.Result (drecord previous) in
  String.eqb (Status (dentry previous)) deploymentPreparedPending &&
  match observation with
  | None => false
  | Some o =>
      negb (ResultObs.Accepted o) && bool_decide (ResultObs.Result o = before) &&
      (ResultObs.CurrentLeaseAttempt o =? Prepared.LeaseAttempt result) &&
      (Prepared.LeaseAttempt before <? Prepared.LeaseAttempt result) &&
      bool_decide (Prepared.Preparation result = Prepared.Preparation before) &&
      (String.eqb (ResultObs.TaskStatus o) "leased" || String.eqb (ResultObs.TaskStatus o) "running")
  end.

(** The operations write with one compare-and-swap and may read the entry again
    afterwards.  Other goroutines can replace it in between, so the two parts
    are separate. *)

Definition write_proposal (env : Env) (l : L) (taskID : string) (r : deploymentRecord)
    (expected : option Entry) : L * result error unit :=
  match payload_of (encode_struct DepRecord.fields r) with
  | None => (l, Err [Other])
  | Some payload =>
      let '(l', swapped) :=
        store_swap env l expected (mkEntry taskID deploymentPreparedPending (Some payload) None zero_time) in
      (l', of_ledger swapped)
  end.

(** [propose], up to the write; a proposal made again writes nothing. *)
Definition put_proposal (env : Env) (l : L) (taskID : string) (proposal : SkillDeploymentPreparedResult)
    (previous : option deploymentEntry) (observation : option SkillDeploymentResultObservation) : L * result error unit :=
  let r := DepRecord.mk 1 proposal in
  if negb (Prepared.Validate proposal && String.eqb taskID (deployment_task_id (DepRecord.binding r)))
  then (l, Err [errDeploymentPending])
  else match previous with
  | None => write_proposal env l taskID r None
  | Some p =>
      if negb (String.eqb (TaskID (dentry p)) taskID) then (l, Err conflict)
      else if bool_decide (drecord p = r) then (l, Ok tt)
      else if negb (supersedes_deployment p proposal observation) then (l, Err conflict)
      else write_proposal env l taskID r (Some (dentry p))
  end.

(** [propose], the entry as it is found afterwards. *)
Definition read_proposal (l : L) (taskID : string) (proposal : SkillDeploymentPreparedResult)
    (previous : option deploymentEntry) : result error (option deploymentEntry) :=
  let r := DepRecord.mk 1 proposal in
  let again := match previous with Some p => bool_decide (drecord p = r) | None => false end in
  if again then
    match load_deployment l taskID with
    | Ok (Some current) => if bool_decide (drecord current = r) then Ok (Some current) else Err conflict
    | found => Err (conflict ++ causes found)
    end
  else load_deployment l taskID.

(** [propose] *)
Definition propose_deployment (env : Env) (l : L) (taskID : string) (proposal : SkillDeploymentPreparedResult)
    (previous : option deploymentEntry) (observation : option SkillDeploymentResultObservation)
    : L * result error (option deploymentEntry) :=
  let '(l', put) := put_proposal env l taskID proposal previous observation in
  (l', match put with Ok _ => read_proposal l' taskID proposal previous | Err x => Err x end).

(** [confirm], up to the write; [false] when another entry was found. *)
Definition put_confirmation (env : Env) (l : L) (previous : deploymentEntry)
    (observation : SkillDeploymentResultObservation) : L * result error bool :=
  let before := DepRecord.Result (drecord previous) in
  if negb (ResultObs.Accepted observation && bool_decide (ResultObs.Result observation = before) &&
           String.eqb (ResultObs.TaskStatus observation) "succeeded" &&
           (ResultObs.CurrentLeaseAttempt observation =? Prepared.LeaseAttempt before))
  then (l, Err conflict)
  else if String.eqb (Status (dentry previous)) deploymentPreparedConfirmed then (l, Ok true)
  else if negb (String.eqb (Status (dentry previous)) deploymentPreparedPending) then (l, Err conflict)
  else
    let confirmed := (dentry previous) <| Status := deploymentPreparedConfirmed |> in
    let '(l', swapped) := store_swap env l (Some (dentry previous)) confirmed in
    (l', match swapped with
         | Ok _ => Ok true
         | Err ErrConflict => Ok false
         | Err x => Err [LedgerError x]
         end).

(** [confirm], when another entry was found: it may be the confirmed one. *)
Definition read_confirmation (l : L) (previous : deploymentEntry) : result error unit :=
  match load_deployment l (TaskID (dentry previous)) with
  | Err x => Err x
  | Ok (Some current) =>
      if bool_decide (drecord current = drecord previous) &&
         String.eqb (Status (dentry current)) deploymentPreparedConfirmed
      then Ok tt else Err conflict
  | Ok None => Err conflict
  end.

(** [confirm] *)
Definition confirm_deployment (env : Env) (l : L) (previous : deploymentEntry)
    (observation : SkillDeploymentResultObservation) : L * result error unit :=
  let '(l', put) := put_confirmation env l previous observation in
  (l', match put with
       | Ok true => Ok tt
       | Ok false => read_confirmation l' previous
       | Err x => Err x
       end).

(** Whether the record may replace the entry [previous]; the errors otherwise. *)
Definition may_replace (previous : Entry) (r : deploymentTerminationRecord) : result error unit :=
  require String.eqb (TaskID previous) (deployment_task_id (TermRecord.Binding r)) orelse conflict ;;
  if deploymentTerminationStatus (Status previous) then
    match decodeDeploymentTermination previous with
    | Err x => Err (conflict ++ x)
    | Ok old => require terminationAdvance (trecord old) r orelse conflict ;; Ok tt
    end
  else
    match decodeDeploymentEntry previous with
    | Err x => Err (conflict ++ x)
    | Ok old =>
        require String.eqb (Status (dentry old)) deploymentPreparedPending &&
                bool_decide (TermRecord.Preparation r = Some (DepRecord.Result (drecord old)))
          orelse conflict ;; Ok tt
    end.

(** Reading back what was written; a concurrent successor is not taken for it. *)
Definition read_back (l : L) (taskID : string) (r : deploymentTerminationRecord)
    : result error deploymentTerminationEntry :=
  match store_get l taskID with
  | Err x => Err (conflict ++ [LedgerError x])
  | Ok None => Err conflict
  | Ok (Some current) =>
      decoded ← decodeDeploymentTermination current;
      require String.eqb (print_value compact 0 (encode_struct TermRecord.fields (trecord decoded)))
                         (print_value compact 0 (encode_struct TermRecord.fields r)) orelse conflict ;;
      Ok decoded
  end.

(** [saveTermination], up to the write. *)
Definition put_termination (env : Env) (l : L) (previous : option Entry) (r : deploymentTerminationRecord)
    : L * result error unit :=
  match termination_status r with
  | None => (l, Err [errDeploymentPending])
  | Some status =>
      match match previous with Some p => may_replace p r | None => Ok tt end with
      | Err x => (l, Err x)
      | Ok _ =>
          match payload_of (encode_struct TermRecord.fields r) with
          | None => (l, Err [Other])
          | Some payload =>
              let taskID := deployment_task_id (TermRecord.Binding r) in
              let '(l', swapped) :=
                store_swap env l previous (mkEntry taskID status (Some payload) None zero_time) in
              (l', of_ledger swapped)
          end
      end
  end.

Definition saveTermination (env : Env) (l : L) (previous : option Entry) (r : deploymentTerminationRecord)
    : L * result error deploymentTerminationEntry :=
  let '(l', put) := put_termination env l previous r in
  (l', match put with
       | Ok _ => read_back l' (deployment_task_id (TermRecord.Binding r)) r
       | Err x => Err x
       end).

(** The record [beginTermination] saves. *)
Definition begun (binding : SkillDeploymentIdentity) (request : SkillDeploymentTerminationRequest)
    (intent : option SkillDeploymentTerminationIntent) (previous : option deploymentEntry)
    : deploymentTerminationRecord :=
  TermRecord.mk 1 binding request (option_map (λ p, DepRecord.Result (drecord p)) previous) intent None None.

Definition beginTermination (env : Env) (l : L) (binding : SkillDeploymentIdentity)
    (request : SkillDeploymentTerminationRequest) (intent : option SkillDeploymentTerminationIntent)
    (previous : option deploymentEntry) : L * result error deploymentTerminationEntry :=
  saveTermination env l (option_map dentry previous) (begun binding request intent previous).

Definition restoreConfirmedPreparation (env : Env) (l : L) (pending : deploymentTerminationEntry)
    (observed : SkillDeploymentResultObservation) : L * result error unit :=
  match TermRecord.Preparation (trecord pending) with
  | None => (l, Err conflict)
  | Some prepared =>
      if negb (String.eqb (Status (tentry pending)) deploymentTerminationRequested &&
               bool_decide (ResultObs.Result observed = prepared) && ResultObs.Accepted observed &&
               String.eqb (ResultObs.TaskStatus observed) "succeeded" &&
               (ResultObs.CurrentLeaseAttempt observed =? Prepared.LeaseAttempt prepared))
      then (l, Err conflict)
      else match payload_of (encode_struct DepRecord.fields (DepRecord.mk 1 prepared)) with
      | None => (l, Err [Other])
      | Some payload =>
          let '(l', swapped) :=
            store_swap env l (Some (tentry pending))
              (mkEntry (TaskID (tentry pending)) deploymentPreparedConfirmed (Some payload) None zero_time) in
          (l', of_ledger swapped)
      end
  end.

End Journal.
