(* ===== verification/DeploymentJournalFacts.v ===== *)
(** * What the deployment journal guarantees

    Proved for every durable map, hence for the ledger.  Whatever calls are
    made in whatever order, with stale views of the entry and failing writes,
    a deployment attempt has one outcome: a confirmed preparation stays
    confirmed, and once the server's intent to end the attempt is recorded it
    can only be drained and confirmed as ended. *)

From S2P Require Import Prelude GoText GoTime GoJson GoUtf8 GoJsonText GoJsonValue GoJsonDecode GoJsonStruct.
From S2P Require Import Manifest StartResult Ledger TaskStore LedgerFacts StartJournal StartJournalFacts.
From S2P Require Import Deployment DeploymentCodec DeploymentJournal.
From Stdlib.Strings Require Import Ascii.

(** ** Objects in entries *)

(** A struct that is read back from its object can be stored. *)
Lemma struct_payload {R} (fields : list (field R)) zero r n :
  carried (encode_struct fields r) (λ _ _, decode_struct fields zero) r →
  (height (encode_struct fields r) ≤ n)%nat → (n ≤ 10)%nat → flat_map (encode_field r) fields ≠ [] →
  ∃ m, payload_of (encode_struct fields r) = Some m ∧
    same (encode_struct fields r) (VObj m) ∧ storable_object m.
Proof.
  intros (Hf & Hd & _) Hh Hn Hne.
  destruct (payload_same _ Hf Hd) as (m & Hp & Hs & Hfm & Hc & Hhm).
  { etrans; [exact Hh|]. unfold max_depth. lia. }
  exists m. split_and!; [done|done|]. split_and!; [|done|done|].
  - intros ->. apply same_keys in Hs as (l & [= <-] & Hk & _). apply Permutation_nil in Hk.
    by destruct (flat_map (encode_field r) fields).
  - unfold encode_struct in Hh. unfold max_depth. lia.
Qed.

(** The entry of a stored struct: its JSON, its exact names, and the struct. *)
Lemma stored_struct {R} (fields : list (field R)) zero r e m allowed :
  carried (encode_struct fields r) (λ _ _, decode_struct fields zero) r →
  allowed = map fst (flat_map (encode_field r) fields) →
  Result e = Some m → same (encode_struct fields r) (VObj m) → storable_object m →
  let j := tree compact 0 (VObj m) in
  result_json e = Some j ∧ exactJournalFields j allowed = true ∧ decode_struct fields zero j = Some r.
Proof.
  intros (_ & Hd & Hdec) -> Hm Hs (_ & Hf & _ & Hh) j. split_and!.
  - apply result_json_tree; [done|done|lia].
  - pose proof (same_distinct _ _ Hs Hd) as Hdm. apply distinct_obj in Hdm as [Hnd _].
    destruct (same_keys _ _ Hs) as (m' & [= <-] & Hk & _). by apply exact_journal_tree.
  - by apply (Hdec _ zero).
Qed.

(** ** Preparations *)

Lemma receipt_height r : (height (encode_struct Receipt.fields r) ≤ 2)%nat.
Proof.
  apply struct_height. solve_heights.
Qed.

Lemma prepared_height r : (height (encode_struct Prepared.fields r) ≤ 3)%nat.
Proof.
  apply struct_height. apply Forall_cons_2; [intros v [= <-]; cbn; lia|].
  apply Forall_cons_2; [intros v [= <-]; apply receipt_height|constructor].
Qed.

Definition dep_writable (r : deploymentRecord) : Prop :=
  DepRecord.SchemaVersion r = 1 ∧ Prepared.Validate (DepRecord.Result r) = true ∧
  prepared_width (DepRecord.Result r).

Lemma dep_carried r :
  dep_writable r →
  carried (encode_struct DepRecord.fields r) (λ _ _, decode_struct DepRecord.fields DepRecord.zero) r.
Proof.
  intros (Hs & Hv & Hw). apply struct_carried; [solve_disjoint| |by destruct r].
  apply Forall_cons_2; [apply carries_int; [done|rewrite Hs; unfold max_int64; lia]|].
  apply Forall_cons_2; [apply carries_sub; [done|by apply prepared_carried]|]. constructor.
Qed.

Lemma dep_height r : (height (encode_struct DepRecord.fields r) ≤ 4)%nat.
Proof.
  apply struct_height. apply Forall_cons_2; [intros v [= <-]; cbn; lia|].
  apply Forall_cons_2; [intros v [= <-]; apply prepared_height|constructor].
Qed.

Lemma dep_payload r :
  dep_writable r →
  ∃ m, payload_of (encode_struct DepRecord.fields r) = Some m ∧
    same (encode_struct DepRecord.fields r) (VObj m) ∧ storable_object m.
Proof.
  intros Hw. apply (struct_payload _ DepRecord.zero _ 4); [by apply dep_carried|apply dep_height|lia|by destruct r].
Qed.

Definition dep_status (s : string) : Prop := s = deploymentPreparedPending ∨ s = deploymentPreparedConfirmed.

Lemma decode_dep_spec e p :
  decodeDeploymentEntry e = Ok p ↔
  dentry p = e ∧ dep_status (Status e) ∧ Error e = None ∧
  DepRecord.SchemaVersion (drecord p) = 1 ∧ Prepared.Validate (DepRecord.Result (drecord p)) = true ∧
  TaskID e = deployment_task_id (DepRecord.binding (drecord p)) ∧
  ∃ j, result_json e = Some j ∧ exactJournalFields j ["schema_version"; "result"] = true ∧
       decode_struct DepRecord.fields DepRecord.zero j = Some (drecord p).
Proof.
  unfold decodeDeploymentEntry, dep_status. split.
  - intros Hd. go_inv Hd. apply andb_true_iff in Hguard as [Hst He].
    rewrite bool_decide_eq_true, !elem_of_cons, elem_of_nil in Hst.
    destruct (Error e) eqn:Ee; [done|]. destruct (result_json e) as [j|] eqn:Ej; [|done]. go_inv Hd.
    destruct (decode_struct _ _ j) as [r|] eqn:Er; [|done]. go_inv Hd. apply Ok_inj in Hd. subst p.
    rewrite !andb_true_iff, Z.eqb_eq, String.eqb_eq in Hguard0. destruct Hguard0 as [[? ?] ?].
    split_and!; try done; [naive_solver|]. by exists j.
  - intros (<- & Hst & He & Hv & Hp & Hid & j & Hj & Hn & Hr).
    rewrite bool_decide_eq_true_2 by (rewrite !elem_of_cons, elem_of_nil; naive_solver).
    rewrite He, Hj, Hn, Hr. cbn [is_some negb andb]. rewrite Hv, Hp, Hid, String.eqb_refl. by destruct p.
Qed.

Lemma decode_dep_written r e m :
  dep_writable r → dep_status (Status e) → Error e = None → TaskID e = deployment_task_id (DepRecord.binding r) →
  Result e = Some m → same (encode_struct DepRecord.fields r) (VObj m) → storable_object m →
  decodeDeploymentEntry e = Ok (mkDeploymentEntry e r).
Proof.
  intros Hw Hst He Hid Hm Hs Hobj. apply decode_dep_spec. cbn [dentry drecord]. pose proof Hw as (H1 & H2 & _).
  split_and!; try done. exists (tree compact 0 (VObj m)).
  apply (stored_struct _ _ r _ _ _ (dep_carried r Hw)); done.
Qed.

(** ** Terminations *)

Definition term_width (r : deploymentTerminationRecord) : Prop :=
  ∀ p, TermRecord.Preparation r = Some p → prepared_width p.

Definition term_writable (r : deploymentTerminationRecord) (status : string) : Prop :=
  termination_status r = Some status ∧ term_width r.

Lemma termination_status_spec r status :
  termination_status r = Some status →
  TermRecord.SchemaVersion r = 1 ∧ Deploy.Validate (TermRecord.Binding r) = true ∧
  Request.Validate (TermRecord.Request_ r) = true ∧
  (∀ p, TermRecord.Preparation r = Some p →
     Prepared.Validate p = true ∧ Receipt.Binding (Prepared.Preparation p) = TermRecord.Binding r) ∧
  (∀ i, TermRecord.Intent r = Some i →
     Intent_.Validate i = true ∧ Intent_.Binding i = TermRecord.Binding r ∧
     Intent_.Request_ i = TermRecord.Request_ r) ∧
  (∀ d, TermRecord.Drain r = Some d →
     is_some (TermRecord.Intent r) = true ∧ Drain_.Validate d (TermRecord.Binding r) = true) ∧
  (∀ o, TermRecord.Confirmation r = Some o → ∃ i d,
     TermRecord.Intent r = Some i ∧ TermRecord.Drain r = Some d ∧
     validTerminationObservation o (Terminated.mk i d) = true ∧ TermObs.Accepted o = true) ∧
  deploymentTerminationStatus status = true.
Proof.
  unfold termination_status. case_match eqn:Hc; [|done]. rewrite !andb_true_iff, Z.eqb_eq in Hc.
  destruct Hc as [[[[[[H1 H2] H3] H4] H5] H6] H7]. intros Hst.
  refine (conj H1 (conj H2 (conj H3 (conj _ (conj _ (conj _ (conj _ _))))))).
  - intros p Hp. unfold valid_preparation in H4. rewrite Hp, andb_true_iff, bool_decide_eq_true in H4. done.
  - intros i Hi. unfold valid_intent in H5. rewrite Hi, !andb_true_iff, !bool_decide_eq_true in H5. tauto.
  - intros d Hd. unfold valid_drain in H6. rewrite Hd, andb_true_iff in H6. done.
  - intros o Ho. unfold valid_confirmation in H7. rewrite Ho in H7.
    destruct (TermRecord.Intent r) as [i|]; [|done]. destruct (TermRecord.Drain r) as [d|]; [|done].
    apply andb_true_iff in H7. by exists i, d.
  - apply (inj Some) in Hst. subst status.
    destruct (TermRecord.Confirmation r), (TermRecord.Drain r), (TermRecord.Intent r); reflexivity.
Qed.

Lemma observation_fits o result :
  validTerminationObservation o result = true →
  Terminated.Validate (TermObs.Result o) = true ∧ 0 ≤ TermObs.CurrentLeaseAttempt o ≤ max_int64 ∧
  valid_utf8 (codes (TermObs.TaskStatus o)) = true.
Proof.
  unfold validTerminationObservation. cbv zeta. rewrite !andb_true_iff, bool_decide_eq_true, !Z.leb_le.
  intros [[[[Hv <-] Hlo] Hhi] Hs]. split; [done|]. split.
  - apply andb_true_iff in Hv as [Hi _]. apply intent_texts in Hi as (_ & _ & _ & Hr & _).
    unfold Request.Validate in Hr. rewrite !andb_true_iff, !Z.leb_le in Hr. unfold max_int64. lia.
  - destruct (TermObs.Accepted o).
    + apply orb_true_iff in Hs as [[_ ->%String.eqb_eq]%andb_true_iff|[_ ->%String.eqb_eq]%andb_true_iff]; done.
    + rewrite bool_decide_eq_true, !elem_of_cons, elem_of_nil in Hs. by destruct Hs as [->|[->|[->|[->|[]]]]].
Qed.

Lemma term_carried r status :
  term_writable r status →
  carried (encode_struct TermRecord.fields r) (λ _ _, decode_struct TermRecord.fields TermRecord.zero) r.
Proof.
  intros [(Hs & Hb & Hr & Hp & Hi & Hd & Hc & _)%termination_status_spec Hw].
  apply struct_carried; [solve_disjoint| |by destruct r].
  apply Forall_cons_2; [apply carries_int; [done|rewrite Hs; unfold max_int64; lia]|].
  apply Forall_cons_2; [apply carries_sub; [done|by apply deploy_carried]|].
  apply Forall_cons_2; [apply carries_sub; [done|by apply request_carried]|].
  apply Forall_cons_2; [apply carries_pointer_to; [done|]|].
  { intros p Hpp. split; [|done]. apply prepared_carried; [by apply Hp|by apply Hw]. }
  apply Forall_cons_2; [apply carries_pointer_to; [done|]|].
  { intros i Hii. split; [|done]. apply intent_carried. by apply Hi. }
  apply Forall_cons_2; [apply carries_pointer_to; [done|]|].
  { intros d Hdd. split; [|done]. eapply drain_carried. by apply Hd. }
  apply Forall_cons_2; [apply carries_pointer_to; [done|]|constructor].
  intros o Ho. split; [|done]. destruct (Hc o Ho) as (i & d & _ & _ & (? & ? & ?)%observation_fits & _).
  by apply termobs_carried.
Qed.

Lemma pointer_height {R A} name (get : R → option A) set enc dec r n v :
  (∀ x, (height (enc x) ≤ n)%nat) →
  fenc (pointer_field name get set enc dec) (fget (pointer_field name get set enc dec) r) = Some v →
  (height v ≤ n)%nat.
Proof. intros Hn [= <-]. destruct (get r); [apply Hn|cbn; lia]. Qed.

Lemma intent_height i : (height (encode_struct Intent_.fields i) ≤ 2)%nat.
Proof. apply struct_height. solve_heights. Qed.

Lemma drain_height r : (height (encode_struct Drain_.fields r) ≤ 2)%nat.
Proof. apply struct_height. solve_heights. Qed.

Lemma terminated_height r : (height (encode_struct Terminated.fields r) ≤ 3)%nat.
Proof.
  apply struct_height. apply Forall_cons_2; [intros v [= <-]; apply intent_height|].
  apply Forall_cons_2; [intros v [= <-]; apply drain_height|constructor].
Qed.

Lemma termobs_height o : (height (encode_struct TermObs.fields o) ≤ 4)%nat.
Proof.
  apply struct_height. apply Forall_cons_2; [intros v [= <-]; apply terminated_height|].
  repeat (apply Forall_cons_2; [intros v [= <-]; cbn; lia|]). constructor.
Qed.

Lemma term_height r : (height (encode_struct TermRecord.fields r) ≤ 5)%nat.
Proof.
  apply struct_height. do 3 (apply Forall_cons_2; [intros v [= <-]; cbn; lia|]).
  apply Forall_cons_2; [intros v; apply pointer_height; intros x; etrans; [apply prepared_height|lia]|].
  apply Forall_cons_2; [intros v; apply pointer_height; intros x; etrans; [apply intent_height|lia]|].
  apply Forall_cons_2; [intros v; apply pointer_height; intros x; etrans; [apply drain_height|lia]|].
  apply Forall_cons_2; [intros v; apply pointer_height; apply termobs_height|constructor].
Qed.

Lemma term_payload r status :
  term_writable r status →
  ∃ m, payload_of (encode_struct TermRecord.fields r) = Some m ∧
    same (encode_struct TermRecord.fields r) (VObj m) ∧ storable_object m.
Proof.
  intros Hw. apply (struct_payload _ TermRecord.zero _ 5);
    [by eapply term_carried|apply term_height|lia|by destruct r].
Qed.

Lemma decode_term_spec e p :
  decodeDeploymentTermination e = Ok p ↔
  tentry p = e ∧ Error e = None ∧ termination_status (trecord p) = Some (Status e) ∧
  TaskID e = deployment_task_id (TermRecord.Binding (trecord p)) ∧
  ∃ j, result_json e = Some j ∧ exactJournalFields j TermRecord.names = true ∧
       (∃ w b, raw_member j "binding" = Some (w, b) ∧ exactJournalFields b Deploy.binding_names = true) ∧
       decode_struct TermRecord.fields TermRecord.zero j = Some (trecord p).
Proof.
  unfold decodeDeploymentTermination. split.
  - intros Hd. go_inv Hd. apply andb_true_iff in Hguard as [Hst He].
    destruct (Error e) eqn:Ee; [done|]. destruct (result_json e) as [j|] eqn:Ej; [|done]. go_inv Hd.
    destruct (raw_member j "binding") as [[w b]|] eqn:Eb; [|done].
    destruct (decode_struct _ _ j) as [r|] eqn:Er; [|done]. go_inv Hd. apply Ok_inj in Hd. subst p.
    rewrite andb_true_iff, bool_decide_eq_true, String.eqb_eq in Hguard1. destruct Hguard1 as [? ?].
    split_and!; try done. exists j. split_and!; try done. by exists w, b.
  - intros (<- & He & Hst & Hid & j & Hj & Hn & (w & b & Hb & Hbn) & Hr).
    pose proof (termination_status_spec _ _ Hst) as (_ & _ & _ & _ & _ & _ & _ & Hs).
    rewrite Hs, He, Hj, Hn, Hb, Hbn, Hr. cbn [is_some negb andb].
    rewrite Hst, bool_decide_eq_true_2, Hid, String.eqb_refl by done. by destruct p.
Qed.

Lemma decode_term_written r e m :
  term_writable r (Status e) → Error e = None → TaskID e = deployment_task_id (TermRecord.Binding r) →
  Result e = Some m → same (encode_struct TermRecord.fields r) (VObj m) → storable_object m →
  decodeDeploymentTermination e = Ok (mkTermination e r).
Proof.
  intros Hw He Hid Hm Hs Hobj. apply decode_term_spec. cbn [tentry trecord]. pose proof Hw as [Hst _].
  split_and!; try done. exists (tree compact 0 (VObj m)).
  pose proof (term_carried r _ Hw) as Hc.
  destruct (stored_struct _ _ r e m TermRecord.names Hc ltac:(by destruct r) Hm Hs Hobj) as (H1 & H2 & H3).
  split_and!; [done|done| |done]. pose proof Hc as (_ & Hd & _).
  destruct (member_carried TermRecord.fields (binding_field TermRecord.Binding (λ x r, r <| TermRecord.Binding := x |>)) r
              _ ltac:(by right; left) eq_refl Hd (VObj m) compact 0 Hs) as (w & Hw' & Hraw).
  exists (print_value compact 1 w), (tree compact 1 w). split; [exact Hraw|].
  apply termination_status_spec in Hst as (_ & Hb & _). destruct (deploy_carried _ Hb) as (_ & Hbd & _).
  pose proof (same_distinct _ _ Hw' Hbd) as Hwd.
  destruct (same_keys _ _ Hw') as (bm & -> & Hbk & _). apply distinct_obj in Hwd as [Hbn _].
  apply exact_journal_tree; [done|]. rewrite Hbk. by destruct (TermRecord.Binding r).
Qed.

(** ** The width of what was decoded *)

Lemma int_member_width current j z : current ≤ max_int64 → int_of_json current j = Some z → z ≤ max_int64.
Proof.
  intros Hc. destruct j; cbn [int_of_json]; try done; [by intros [= <-]|].
  destruct (int_literal _) as [n|]; [|done]. cbn [mbind option_bind].
  destruct ((- 2 ^ 63 <=? n) && (n <=? max_int64)) eqn:E; [|done]. intros [= <-].
  apply andb_true_iff in E as [_ E]. by apply Z.leb_le in E.
Qed.

Lemma receipt_decoded st d v r : faithful v → Receipt.of_json (tree st d v) = Some r → receipt_width r.
Proof.
  intros Hf. unfold Receipt.of_json.
  destruct (decodeDeploymentFields Receipt.fields _ _ _) as [r0|] eqn:E; [|done]. cbn [mbind option_bind].
  destruct (raw_member _ _) as [w|]; [|done]. cbn [mbind option_bind].
  destruct (decodeDeploymentFields Deploy.fields _ _ _) as [b|]; [|done].
  intros [= <-]. enough (receipt_width r0) by (by destruct r0).
  unfold decodeDeploymentFields in E. destruct (_ && _); [|done].
  revert E. apply (decode_struct_inv receipt_width); [|by split; cbn; unfold max_int64; lia|done].
  repeat (apply Forall_cons_2; [intros acc x y [H1 H2] Hx Hdec|]); [..|constructor]; try done.
  - split; [|done]. cbn. cbn in Hdec, H1. eapply int_member_width; [exact H1|exact Hdec].
  - split; [done|]. cbn. cbn in Hdec, H2. eapply int_member_width; [exact H2|exact Hdec].
Qed.

Lemma prepared_decoded st d v r : faithful v → Prepared.of_json (tree st d v) = Some r → prepared_width r.
Proof.
  intros Hf. unfold Prepared.of_json, decodeDeploymentResultFields. destruct (_ && _); [|done].
  destruct (decode_struct Prepared.fields Prepared.zero (tree st d v)) as [r0|] eqn:E; [|done]. cbn [mbind option_bind].
  destruct (Prepared.Validate r0); [|done]. intros [= <-].
  revert E. apply (decode_struct_inv prepared_width);
    [|by unfold prepared_width; split; cbn; unfold max_int64; lia|done].
  repeat (apply Forall_cons_2; [intros acc x y Hacc Hx Hdec|]); [..|constructor]; try done.
  cbn in Hdec. unfold prepared_width. cbn. by eapply receipt_decoded.
Qed.

Lemma dep_decoded st d v r :
  faithful v → decode_struct DepRecord.fields DepRecord.zero (tree st d v) = Some r →
  prepared_width (DepRecord.Result r).
Proof.
  intros Hf. apply (decode_struct_inv (λ r, prepared_width (DepRecord.Result r)));
    [|by unfold prepared_width; split; cbn; unfold max_int64; lia|done].
  repeat (apply Forall_cons_2; [intros acc x y Hacc Hx Hdec|]); [..|constructor]; try done.
  cbn in Hdec |- *. by eapply prepared_decoded.
Qed.

Lemma term_decoded st d v r :
  faithful v → decode_struct TermRecord.fields TermRecord.zero (tree st d v) = Some r → term_width r.
Proof.
  intros Hf. apply (decode_struct_inv term_width); [|done|done].
  repeat (apply Forall_cons_2; [intros acc x y Hacc Hx Hdec|]); [..|constructor]; try done.
  intros p Hp. cbn in Hp. subst y. cbn in Hdec. destruct x; cbn [tree] in Hdec; try done;
    (destruct (Prepared.of_json _) as [q|] eqn:Eq in Hdec; [|done]); injection Hdec as <-;
    exact (prepared_decoded _ _ _ _ Hx Eq).
Qed.

(** ** Phases of a deployment attempt *)

Inductive deployment_phase :=
  | NotStarted
  | Proposed (r : deploymentRecord)
  | Deployed (r : deploymentRecord)
  | Ending (t : deploymentTerminationRecord)
  | Alien.

Inductive deployment_advances : deployment_phase → deployment_phase → Prop :=
  | dadv_same p : deployment_advances p p
  | dadv_propose r : deployment_advances NotStarted (Proposed r)
  | dadv_supersede r r' :
      Prepared.Preparation (DepRecord.Result r') = Prepared.Preparation (DepRecord.Result r) →
      Prepared.LeaseAttempt (DepRecord.Result r) < Prepared.LeaseAttempt (DepRecord.Result r') →
      deployment_advances (Proposed r) (Proposed r')
  | dadv_confirm r : deployment_advances (Proposed r) (Deployed r)
  | dadv_end t : deployment_advances NotStarted (Ending t)
  | dadv_end_proposed r t :
      TermRecord.Preparation t = Some (DepRecord.Result r) → TermRecord.Binding t = DepRecord.binding r →
      deployment_advances (Proposed r) (Ending t)
  | dadv_end_further t t' : terminationAdvance t t' = true → deployment_advances (Ending t) (Ending t')
  | dadv_restore t r :
      TermRecord.Intent t = None → TermRecord.Preparation t = Some (DepRecord.Result r) →
      TermRecord.Binding t = DepRecord.binding r → deployment_advances (Ending t) (Deployed r).

Definition deployment_phase_of (e : option Entry) : deployment_phase :=
  match e with
  | None => NotStarted
  | Some e =>
      if deploymentTerminationStatus (Status e) then
        match decodeDeploymentTermination e with Ok t => Ending (trecord t) | Err _ => Alien end
      else
        match decodeDeploymentEntry e with
        | Ok p => if String.eqb (Status e) deploymentPreparedPending
                  then Proposed (drecord p) else Deployed (drecord p)
        | Err _ => Alien
        end
  end.

Lemma dep_not_ending s : dep_status s → deploymentTerminationStatus s = false.
Proof. by intros [-> | ->]. Qed.

Lemma task_id_text b : Deploy.Validate b = true → valid_utf8 (codes (deployment_task_id b)) = true.
Proof.
  unfold Deploy.Validate. rewrite !andb_true_iff, forallb_forall. intros [[[Hids _] _] _].
  apply ascii_utf8. unfold deployment_task_id. rewrite all_chars_app. apply andb_true_iff. split; [done|].
  apply uuid_ascii, Hids. by right; left.
Qed.

Lemma phase_ending e t :
  decodeDeploymentTermination e = Ok t → deployment_phase_of (Some e) = Ending (trecord t).
Proof.
  intros Hd. unfold deployment_phase_of. pose proof Hd as (_ & _ & Hs & _)%decode_term_spec.
  apply termination_status_spec in Hs as (_ & _ & _ & _ & _ & _ & _ & ->). by rewrite Hd.
Qed.

Lemma phase_dep e p :
  decodeDeploymentEntry e = Ok p →
  deployment_phase_of (Some e) =
    if String.eqb (Status e) deploymentPreparedPending then Proposed (drecord p) else Deployed (drecord p).
Proof.
  intros Hd. unfold deployment_phase_of. pose proof Hd as (_ & Hs & _)%decode_dep_spec.
  by rewrite (dep_not_ending _ Hs), Hd.
Qed.

Section Journal.
Context {L Env : Type} `{DurableMap L Env}.

(** Entries some earlier read returned, possibly out of date. *)
Definition dep_known (p : deploymentEntry) : Prop :=
  decodeDeploymentEntry (dentry p) = Ok p ∧ proper (dentry p).

Definition term_known (t : deploymentTerminationEntry) : Prop :=
  decodeDeploymentTermination (tentry t) = Ok t ∧ proper (tentry t).

Definition deployment_phase_at (l : L) (id : string) : deployment_phase := deployment_phase_of (content l id).

Definition deployment_forward (l l' : L) : Prop :=
  sound l' ∧ ∀ k, deployment_advances (deployment_phase_at l k) (deployment_phase_at l' k).

Lemma deployment_forward_refl l : sound l → deployment_forward l l.
Proof. intros Hl. split; [done|]. intros k. constructor. Qed.

Lemma swap_deployment_forward env l x e :
  sound l → admits env e → (∀ y, x = Some y → proper y) →
  deployment_advances (deployment_phase_of x) (deployment_phase_of (Some (keeps env e))) →
  deployment_forward l (store_swap env l x e).1.
Proof. intros. apply (swap_moves deployment_phase_of deployment_advances); try done. constructor. Qed.

(** The object of a decoded entry. *)
Lemma result_object e j :
  proper e → result_json e = Some j → j ≠ JNull → ∃ m, Result e = Some m ∧ storable_object m ∧
    j = tree compact 0 (VObj m).
Proof.
  intros Hp Hj Hn. destruct (Result e) as [m|] eqn:E.
  - exists m. pose proof (proper_object e m Hp E) as Hobj. split_and!; [done|done|].
    destruct Hobj as (_ & Hf & _ & Hh). rewrite (result_json_tree _ m) in Hj by (done || lia). congruence.
  - unfold result_json in Hj. rewrite E in Hj. vm_compute in Hj. congruence.
Qed.

Lemma exact_not_null j allowed : exactJournalFields j allowed = true → allowed ≠ [] → j ≠ JNull.
Proof. intros Hx Hne ->. by destruct allowed. Qed.

Lemma dep_known_facts p :
  dep_known p →
  dep_writable (drecord p) ∧ TaskID (dentry p) = deployment_task_id (DepRecord.binding (drecord p)) ∧
  Error (dentry p) = None ∧ dep_status (Status (dentry p)) ∧
  ∃ m, Result (dentry p) = Some m ∧ storable_object m.
Proof.
  intros [(_ & Hs & He & Hv & Hp & Hid & j & Hj & Hn & Hr)%decode_dep_spec Hpr].
  destruct (result_object _ _ Hpr Hj (exact_not_null _ _ Hn ltac:(done))) as (m & Hm & Hobj & ->).
  split_and!; try done; [|by exists m]. split_and!; try done. destruct Hobj as (_ & Hf & _).
  by eapply dep_decoded.
Qed.

Lemma term_known_facts t :
  term_known t →
  term_writable (trecord t) (Status (tentry t)) ∧
  TaskID (tentry t) = deployment_task_id (TermRecord.Binding (trecord t)).
Proof.
  intros [(_ & He & Hst & Hid & j & Hj & Hn & _ & Hr)%decode_term_spec Hpr].
  destruct (result_object _ _ Hpr Hj (exact_not_null _ _ Hn ltac:(done))) as (m & Hm & Hobj & ->).
  split; [|done]. split; [done|]. destruct Hobj as (_ & Hf & _). by eapply term_decoded.
Qed.

(** ** Entries written *)

Lemma dep_entry env r id status m :
  timely env → dep_writable r → id = deployment_task_id (DepRecord.binding r) → dep_status status →
  same (encode_struct DepRecord.fields r) (VObj m) → storable_object m →
  let e := mkEntry id status (Some m) None zero_time in
  admits env e ∧ decodeDeploymentEntry (keeps env e) = Ok (mkDeploymentEntry (keeps env e) r) ∧
  Status (keeps env e) = status.
Proof.
  intros Ht Hw Hid Hs Hsame Hm e. destruct (keeps_fields env e) as (H1 & H2 & H3 & H4).
  assert (Result (keeps env e) = Some m) as Hres by (apply H3; cbn; intros [= ->]; by destruct Hm).
  split_and!; [| |done].
  - eapply admits_intro; [done| | |by left|done].
    + subst id. apply task_id_text. destruct Hw as (_ & Hv & _).
      unfold Prepared.Validate, Receipt.ValidateBinding in Hv. rewrite !andb_true_iff in Hv. tauto.
    + by destruct Hs as [-> | ->].
  - apply (decode_dep_written r _ m); try done; [by rewrite H2|by rewrite H4|rewrite H1; exact Hid].
Qed.

Lemma term_entry env r status m :
  timely env → term_writable r status →
  same (encode_struct TermRecord.fields r) (VObj m) → storable_object m →
  let e := mkEntry (deployment_task_id (TermRecord.Binding r)) status (Some m) None zero_time in
  admits env e ∧ decodeDeploymentTermination (keeps env e) = Ok (mkTermination (keeps env e) r).
Proof.
  intros Ht Hw Hsame Hm e. destruct (keeps_fields env e) as (H1 & H2 & H3 & H4).
  assert (Result (keeps env e) = Some m) as Hres by (apply H3; cbn; intros [= ->]; by destruct Hm).
  pose proof Hw as [(_ & Hb & _ & _ & _ & _ & _ & Hs)%termination_status_spec _]. split.
  - eapply admits_intro; [done|by apply task_id_text| |by left|done]. cbn.
    unfold deploymentTerminationStatus in Hs. rewrite bool_decide_eq_true, !elem_of_cons, elem_of_nil in Hs.
    by destruct Hs as [->|[->|[->|[->|[]]]]].
  - apply (decode_term_written r _ m); try done; [by rewrite H2|by rewrite H4].
Qed.

(** ** The operations move entries forward *)

Lemma write_proposal_forward env l id r x :
  sound l → timely env → dep_writable r → id = deployment_task_id (DepRecord.binding r) →
  (∀ y, x = Some y → proper y) → deployment_advances (deployment_phase_of x) (Proposed r) →
  deployment_forward l (write_proposal env l id r x).1.
Proof.
  intros Hl Ht Hw Hid Hx Hadv. unfold write_proposal. destruct (dep_payload r Hw) as (m & -> & Hs & Hm).
  destruct (dep_entry env r id deploymentPreparedPending m Ht Hw Hid ltac:(by left) Hs Hm) as (Ha & Hd & Hst).
  pose proof (swap_deployment_forward env l x _ Hl Ha Hx) as Hf.
  rewrite (phase_dep _ _ Hd), Hst in Hf. specialize (Hf Hadv).
  by destruct (store_swap env l x _) as [l' r'].
Qed.

(** The arguments of [propose_deployment] that come from outside. *)
Definition sane_deployment (env : Env) (p : SkillDeploymentPreparedResult) (prev : option deploymentEntry) : Prop :=
  timely env ∧ prepared_width p ∧ ∀ q, prev = Some q → dep_known q.

Lemma supersedes_deployment_spec p r obs :
  supersedes_deployment p r obs = true →
  Status (dentry p) = deploymentPreparedPending ∧
  Prepared.Preparation r = Prepared.Preparation (DepRecord.Result (drecord p)) ∧
  Prepared.LeaseAttempt (DepRecord.Result (drecord p)) < Prepared.LeaseAttempt r.
Proof.
  unfold supersedes_deployment. cbv zeta. intros [Hs Hx]%andb_true_iff. apply String.eqb_eq in Hs.
  destruct obs as [o|]; [|done]. rewrite !andb_true_iff, Z.ltb_lt, !bool_decide_eq_true in Hx. tauto.
Qed.

Lemma dep_known_phase p : dep_known p → Status (dentry p) = deploymentPreparedPending →
  deployment_phase_of (Some (dentry p)) = Proposed (drecord p).
Proof. intros [Hd _] Hs. rewrite (phase_dep _ _ Hd), Hs. done. Qed.

Lemma propose_put env l id r prev obs :
  (propose_deployment env l id r prev obs).1 = (put_proposal env l id r prev obs).1.
Proof. unfold propose_deployment. by destruct (put_proposal env l id r prev obs). Qed.

Lemma confirm_put env l p o : (confirm_deployment env l p o).1 = (put_confirmation env l p o).1.
Proof. unfold confirm_deployment. by destruct (put_confirmation env l p o). Qed.

Lemma save_put env l prev r : (saveTermination env l prev r).1 = (put_termination env l prev r).1.
Proof. unfold saveTermination. by destruct (put_termination env l prev r). Qed.

Lemma propose_deployment_forward env l id r prev obs :
  sound l → sane_deployment env r prev → deployment_forward l (propose_deployment env l id r prev obs).1.
Proof.
  intros Hl (Ht & Hw & Hprev). rewrite propose_put. unfold put_proposal. cbv zeta. set (rec := DepRecord.mk 1 r).
  destruct (_ && _) eqn:Hv; cbn [negb]; [|by apply deployment_forward_refl].
  apply andb_true_iff in Hv as [Hv Hid%String.eqb_eq]. assert (Hwr : dep_writable rec) by done.
  destruct prev as [p|]; [|apply write_proposal_forward; try done; constructor].
  specialize (Hprev p eq_refl). destruct (String.eqb _ _); cbn [negb]; [|by apply deployment_forward_refl].
  destruct (bool_decide (drecord p = rec)); [by apply deployment_forward_refl|].
  destruct (supersedes_deployment p r obs) eqn:Hsup; cbn [negb]; [|by apply deployment_forward_refl].
  apply supersedes_deployment_spec in Hsup as (Hst & Heq & Hlt). apply write_proposal_forward; try done.
  - intros y [= <-]. by destruct Hprev.
  - rewrite dep_known_phase by done. by constructor.
Qed.

Lemma confirmed_dep_entry env p :
  timely env → dep_known p →
  let e := (dentry p) <| Status := deploymentPreparedConfirmed |> in
  admits env e ∧ deployment_phase_of (Some (keeps env e)) = Deployed (drecord p).
Proof.
  intros Ht Hk e. destruct (dep_known_facts p Hk) as (Hw & Hid & He & Hst & m & Hm & Hobj).
  destruct (keeps_fields env e) as (H1 & H2 & H3 & H4). destruct Hk as [Hd Hp].
  assert (Hres : Result (keeps env e) = Result (dentry p)).
  { apply H3. cbn. rewrite Hm. intros [= ->]. by destruct Hobj. }
  assert (Herr : Error (keeps env e) = None) by (rewrite H4; [done|cbn; by rewrite He]).
  split; [eapply admits_intro; [done|exact (proper_text (dentry p) Hp)|done|by left|done]|].
  apply decode_dep_spec in Hd as (_ & _ & _ & Hv & Hpr & Hid' & j & Hj & Hn & Hr).
  rewrite (phase_dep (keeps env e) (mkDeploymentEntry (keeps env e) (drecord p))); [by rewrite H2|].
  apply decode_dep_spec. cbn [dentry drecord]. split_and!; try done; [rewrite H2; by right|by rewrite H1|].
  exists j. split_and!; try done. unfold result_json in *. by rewrite Hres.
Qed.

Lemma confirm_deployment_forward env l p o :
  sound l → timely env → dep_known p → deployment_forward l (confirm_deployment env l p o).1.
Proof.
  intros Hl Ht Hk. rewrite confirm_put. unfold put_confirmation. cbv zeta.
  destruct (_ && _); cbn [negb]; [|by apply deployment_forward_refl].
  destruct (String.eqb (Status (dentry p)) deploymentPreparedConfirmed); [by apply deployment_forward_refl|].
  destruct (String.eqb_spec (Status (dentry p)) deploymentPreparedPending) as [Hs|]; cbn [negb];
    [|by apply deployment_forward_refl].
  destruct (confirmed_dep_entry env p Ht Hk) as [Ha Hph].
  assert (Hf : deployment_forward l (store_swap env l (Some (dentry p))
                 ((dentry p) <| Status := deploymentPreparedConfirmed |>)).1).
  { apply swap_deployment_forward; try done; [by intros y [= <-]; destruct Hk|].
    rewrite Hph, dep_known_phase by done. constructor. }
  by destruct (store_swap _ _ _ _) as [l' x].
Qed.

Lemma may_replace_advances y r status :
  proper y → termination_status r = Some status → may_replace y r = Ok tt →
  deployment_advances (deployment_phase_of (Some y)) (Ending r).
Proof.
  intros Hy Hst Hr. unfold may_replace in Hr. go_inv Hr.
  destruct (deploymentTerminationStatus (Status y)).
  - destruct (decodeDeploymentTermination y) as [old|] eqn:Ed; [|done]. go_inv Hr.
    rewrite (phase_ending _ _ Ed). by constructor.
  - destruct (decodeDeploymentEntry y) as [old|] eqn:Ed; [|done]. go_inv Hr.
    pose proof Ed as (He & _)%decode_dep_spec. rewrite He in *.
    apply andb_true_iff in Hguard0 as [Hs Hp]. apply bool_decide_eq_true in Hp.
    rewrite (phase_dep _ _ Ed), Hs. constructor; [done|].
    apply termination_status_spec in Hst as (_ & _ & _ & Hpr & _). by apply Hpr in Hp as [_ <-].
Qed.

Lemma saveTermination_forward env l prev r :
  sound l → timely env → term_width r → (∀ y, prev = Some y → proper y) →
  deployment_forward l (saveTermination env l prev r).1.
Proof.
  intros Hl Ht Hw Hprev. rewrite save_put. unfold put_termination.
  destruct (termination_status r) as [status|] eqn:Hst; [|by apply deployment_forward_refl].
  destruct (match prev with Some p => may_replace p r | None => Ok tt end) as [[]|x] eqn:Hm;
    [|by apply deployment_forward_refl].
  destruct (term_payload r status (conj Hst Hw)) as (m & -> & Hs & Hobj).
  destruct (term_entry env r status m Ht (conj Hst Hw) Hs Hobj) as (Ha & Hd). cbv zeta.
  pose proof (swap_deployment_forward env l prev _ Hl Ha Hprev) as Hf. rewrite (phase_ending _ _ Hd) in Hf.
  assert (Hadv : deployment_advances (deployment_phase_of prev) (Ending r)).
  { destruct prev as [y|]; [|constructor]. eapply may_replace_advances; [by apply Hprev|done|done]. }
  specialize (Hf Hadv). by destruct (store_swap _ _ _ _) as [l' x].
Qed.

Lemma requested_no_intent r : termination_status r = Some deploymentTerminationRequested → TermRecord.Intent r = None.
Proof.
  unfold termination_status. case_match; [|done]. intros Hs%(inj Some).
  by destruct (TermRecord.Confirmation r), (TermRecord.Drain r), (TermRecord.Intent r).
Qed.

Lemma restore_forward env l t o :
  sound l → timely env → term_known t → deployment_forward l (restoreConfirmedPreparation env l t o).1.
Proof.
  intros Hl Ht Hk. unfold restoreConfirmedPreparation.
  destruct (TermRecord.Preparation (trecord t)) as [p|] eqn:Hp; [|by apply deployment_forward_refl].
  destruct (_ && _) eqn:Hc; cbn [negb]; [|by apply deployment_forward_refl].
  do 4 apply andb_true_iff in Hc as [Hc _]. apply String.eqb_eq in Hc.
  destruct (term_known_facts t Hk) as [[Hst Hw] Hid]. rewrite Hc in Hst.
  pose proof Hst as (_ & _ & _ & Hpr & _)%termination_status_spec. destruct (Hpr p Hp) as [Hv Hb].
  assert (Hwr : dep_writable (DepRecord.mk 1 p)) by (split_and!; [done|done|by apply Hw]).
  destruct (dep_payload _ Hwr) as (m & -> & Hs & Hm).
  destruct (dep_entry env _ (TaskID (tentry t)) deploymentPreparedConfirmed m Ht Hwr) as (Ha & Hd & Hs').
  { rewrite Hid. unfold DepRecord.binding. cbn. by rewrite Hb. }
  { by right. }
  { done. }
  { done. }
  assert (Hf : deployment_forward l (store_swap env l (Some (tentry t))
    (mkEntry (TaskID (tentry t)) deploymentPreparedConfirmed (Some m) None zero_time)).1).
  { apply swap_deployment_forward; try done; [by intros y [= <-]; destruct Hk|].
    rewrite (phase_dep _ _ Hd), Hs'. destruct Hk as [Hdt _]. rewrite (phase_ending _ _ Hdt).
    change (String.eqb deploymentPreparedConfirmed deploymentPreparedPending) with false. cbv iota.
    constructor; [by apply requested_no_intent|done|done]. }
  by destruct (store_swap _ _ _ _) as [l' x].
Qed.

(** ** Histories *)

(** One call of the journal, with any view of the entry some earlier call
    read, or a restart of the node. *)
Inductive deployment_step : L → L → Prop :=
  | dstep_propose env l id r prev obs :
      sane_deployment env r prev → deployment_step l (propose_deployment env l id r prev obs).1
  | dstep_confirm env l p o :
      timely env → dep_known p → deployment_step l (confirm_deployment env l p o).1
  | dstep_save env l prev r :
      timely env → term_width r → (∀ y, prev = Some y → proper y) →
      deployment_step l (saveTermination env l prev r).1
  | dstep_restore env l t o :
      timely env → term_known t → deployment_step l (restoreConfirmedPreparation env l t o).1
  | dstep_reopen l l' : store_reopen l = Ok l' → deployment_step l l'.

Lemma deployment_step_forward l l' : sound l → deployment_step l l' → deployment_forward l l'.
Proof.
  intros Hl Hs. destruct Hs as [| | | |l l' Ho];
    [by apply propose_deployment_forward|by apply confirm_deployment_forward|
     by apply saveTermination_forward|by apply restore_forward|].
  destruct (reopen_spec l Hl) as (l1 & Ho' & Hl1 & _ & Hc). rewrite Ho in Ho'. injection Ho' as ->.
  split; [done|]. intros k. unfold deployment_phase_at. rewrite Hc. constructor.
Qed.

Definition phase_binding (p : deployment_phase) : option SkillDeploymentIdentity :=
  match p with
  | Proposed r | Deployed r => Some (DepRecord.binding r)
  | Ending t => Some (TermRecord.Binding t)
  | NotStarted | Alien => None
  end.

Definition phase_proposal (p : deployment_phase) : option SkillDeploymentPreparedResult :=
  match p with
  | Proposed r | Deployed r => Some (DepRecord.Result r)
  | Ending t => TermRecord.Preparation t
  | NotStarted | Alien => None
  end.

(** What a termination keeps of an earlier one that has the intent. *)
Definition ends_as (t t' : deploymentTerminationRecord) : Prop :=
  TermRecord.Binding t' = TermRecord.Binding t ∧ TermRecord.Preparation t' = TermRecord.Preparation t ∧
  TermRecord.Intent t' = TermRecord.Intent t ∧
  (∀ d, TermRecord.Drain t = Some d → TermRecord.Drain t' = Some d) ∧
  (∀ o, TermRecord.Confirmation t = Some o → TermRecord.Confirmation t' = Some o).

(** What every later phase keeps of a phase. *)
Record outcome_kept (p q : deployment_phase) : Prop := {
  kept_deployed r : p = Deployed r → q = p;
  kept_ending t i : p = Ending t → TermRecord.Intent t = Some i → ∃ t', q = Ending t' ∧ ends_as t t';
  kept_binding b : phase_binding p = Some b → phase_binding q = Some b;
  kept_proposal x : phase_proposal p = Some x → ∃ y, phase_proposal q = Some y ∧
    Prepared.Preparation y = Prepared.Preparation x ∧ Prepared.LeaseAttempt x ≤ Prepared.LeaseAttempt y;
  kept_unprepared t : p = Ending t → TermRecord.Preparation t = None →
    ∃ t', q = Ending t' ∧ TermRecord.Preparation t' = None
}.

Lemma keeps_pointer_spec {A} `{EqDecision A} (x y : option A) :
  keeps_pointer x y = true ↔ ∀ a, x = Some a → y = Some a.
Proof.
  destruct x as [a|], y as [b|]; cbn; rewrite ?bool_decide_eq_true; naive_solver.
Qed.

Lemma termination_advance_spec t t' :
  terminationAdvance t t' = true →
  TermRecord.Binding t' = TermRecord.Binding t ∧ TermRecord.Preparation t' = TermRecord.Preparation t ∧
  (∀ i, TermRecord.Intent t = Some i → TermRecord.Intent t' = Some i) ∧
  (∀ d, TermRecord.Drain t = Some d → TermRecord.Drain t' = Some d) ∧
  (∀ o, TermRecord.Confirmation t = Some o → TermRecord.Confirmation t' = Some o).
Proof.
  unfold terminationAdvance. rewrite !andb_true_iff, bool_decide_eq_true, !keeps_pointer_spec.
  intros [[[[[Hb Hp] Hi] Hd] Hc] _]. split_and!; try done.
  unfold samePreparedProposal in Hp. destruct (TermRecord.Preparation t), (TermRecord.Preparation t'); try done.
  apply bool_decide_eq_true in Hp. by subst.
Qed.

Lemma ends_as_refl t : ends_as t t.
Proof. by split_and!. Qed.

Lemma advances_kept p q : deployment_advances p q → outcome_kept p q.
Proof.
  destruct 1 as [p|r|r r' Hp Hlt|r|t|r t Hp Hb|t t' Ha|t r Hi Hp Hb]; split; try done; cbn.
  - intros t i -> Hi. exists t. split; [done|apply ends_as_refl].
  - intros x Hx. exists x. split_and!; [done|done|lia].
  - intros t ->. by exists t.
  - intros b [= <-]. unfold DepRecord.binding. by rewrite Hp.
  - intros x [= <-]. eexists. split_and!; [done|done|lia].
  - intros x [= <-]. eexists. split_and!; [done|done|lia].
  - intros b [= <-]. by rewrite Hb.
  - intros x [= <-]. eexists. split_and!; [done|done|lia].
  - intros t0 i [= <-] Hi. exists t'. split; [done|].
    destruct (termination_advance_spec _ _ Ha) as (? & ? & Hint & ? & ?). split_and!; try done.
    by rewrite Hi, (Hint i).
  - intros b [= <-]. by destruct (termination_advance_spec _ _ Ha) as (-> & _).
  - intros x Hx. exists x. destruct (termination_advance_spec _ _ Ha) as (_ & -> & _). split_and!; [done|done|lia].
  - intros t0 [= <-] Hp. exists t'. destruct (termination_advance_spec _ _ Ha) as (_ & -> & _). done.
  - intros t0 i [= <-] Hi'. congruence.
  - intros b [= <-]. by rewrite Hb.
  - intros x Hx. rewrite Hp in Hx. injection Hx as <-. eexists. split_and!; [done|done|lia].
  - intros t0 [= <-] Hp'. congruence.
Qed.

#[global] Instance outcome_kept_trans : Transitive outcome_kept.
Proof.
  intros p q s H1 H2. split.
  - intros r ->. pose proof (kept_deployed _ _ H1 r eq_refl) as ->. by apply (kept_deployed _ _ H2 r).
  - intros t i -> Hi. destruct (kept_ending _ _ H1 t i eq_refl Hi) as (t' & -> & E1 & E2 & E3 & E4 & E5).
    destruct (kept_ending _ _ H2 t' i eq_refl) as (t'' & -> & F1 & F2 & F3 & F4 & F5); [congruence|].
    exists t''. split; [done|]. split_and!; [congruence|congruence|congruence|by auto|by auto].
  - intros b Hb. by apply (kept_binding _ _ H2), (kept_binding _ _ H1).
  - intros x Hx. destruct (kept_proposal _ _ H1 x Hx) as (y & Hy & E1 & E2).
    destruct (kept_proposal _ _ H2 y Hy) as (z & Hz & F1 & F2). exists z. split_and!; [done|congruence|lia].
  - intros t -> Hp. destruct (kept_unprepared _ _ H1 t eq_refl Hp) as (t' & -> & Hp').
    destruct (kept_unprepared _ _ H2 t' eq_refl Hp') as (t'' & -> & Hp''). by exists t''.
Qed.

(** C7: a deployment attempt has one outcome.  After any history of proposals,
    confirmations, terminations and restored confirmations, made with possibly
    outdated views of the entries and failing at any point, and of restarts:
    a confirmed preparation is confirmed still; an attempt whose termination
    intent is recorded is ending still, with the same intent and proposal and
    with the drain and the confirmation that were recorded; the identity never
    changes; and a proposal is only replaced by one of the same preparation
    under a later lease. *)
Theorem deployment_outcome_kept l l' id :
  sound l → rtc deployment_step l l' → outcome_kept (deployment_phase_at l id) (deployment_phase_at l' id).
Proof.
  intros Hl Hs. induction Hs as [l|l1 l2 l3 Hstep _ IH].
  { apply advances_kept. constructor. }
  destruct (deployment_step_forward l1 l2 Hl Hstep) as [Hl2 Hadv].
  etrans; [apply advances_kept, Hadv|by apply IH].
Qed.
End Journal.
