(* ===== verification/Programs.v ===== *)
(** * Programs over a store and the outside

    The worker's longer operations alternate between the journal and calls to
    the server and the helper.  They are state-and-error computations over the
    store and the outside world; every call is kept with the store as it was
    when the call was made.  [obeys scope I p Q] says that [p], started where
    [I] holds of the store, only takes steps of the journal and only for tasks
    in [scope], makes every call where the store justifies it, and ends with
    [Q] when it succeeds. *)

From S2P Require Import Prelude Ledger TaskStore.

(** The world answers calls, shows the clock and the file system to a write
    of the store, and ends contexts. *)
Class Outside {Call : Type} (reply : Call → Type) (X W Env : Type) := {
  ask : ∀ c : Call, W → W * result X (reply c);
  clock : W → W * Env;
  done_ctx : W → W * option X
}.

(** What the other goroutines of the process do to the store at some moment. *)
Class Interference (L W : Type) := interrupts : W → L → W * L.

(** ** Computations *)

Record host (Call L W : Type) := mkHost { store : L; world : W; trace : list (Call * L) }.
Arguments mkHost {Call L W} _ _ _.
Arguments store {Call L W} h.
Arguments world {Call L W} h.
Arguments trace {Call L W} h.

Definition prog (Call X L W A : Type) : Type := host Call L W → host Call L W * result X A.

Section Computations.
Context {Call : Type} {reply : Call → Type} {X L W Env : Type} `{Outside Call reply X W Env}.

#[global] Instance prog_ret : MRet (prog Call X L W) := λ A a h, (h, Ok a).
#[global] Instance prog_bind : MBind (prog Call X L W) := λ A B f p h,
  match p h with (h', Ok a) => f a h' | (h', Err e) => (h', Err e) end.

Definition fail {A} (e : X) : prog Call X L W A := λ h, (h, Err e).

(** The error as a value. *)
Definition try {A} (p : prog Call X L W A) : prog Call X L W (result X A) := λ h, let '(h', r) := p h in (h', Ok r).

Definition of_result {A} (r : result X A) : prog Call X L W A := λ h, (h, r).

Definition perform (c : Call) : prog Call X L W (reply c) := λ h,
  let '(w, r) := ask c (world h) in (mkHost (store h) w (trace h ++ [(c, store h)]), r).

(** [ctx.Err()] *)
Definition stopped : prog Call X L W (option X) := λ h,
  let '(w, x) := done_ctx (world h) in (mkHost (store h) w (trace h), Ok x).

Definition live : prog Call X L W unit :=
  ended ← stopped; match ended with Some x => fail x | None => mret tt end.

Definition journal {A} (op : Env → L → L * result X A) : prog Call X L W A := λ h,
  let '(w, env) := clock (world h) in
  let '(l, r) := op env (store h) in (mkHost l w (trace h), r).

Definition read_journal {A} (op : L → result X A) : prog Call X L W A := λ h, (h, op (store h)).

(** A call whose failure or invalid answer is the error [e]. *)
Definition expect {A} (e : X) (valid : A → bool) (p : prog Call X L W A) : prog Call X L W A :=
  r ← try p;
  match r with
  | Ok a => if valid a then mret a else fail e
  | Err _ => fail e
  end.

(** [defer]: [last] runs after [p], whatever came of it, and its own outcome
    is ignored. *)
Definition finally {A B} (p : prog Call X L W A) (last : prog Call X L W B) : prog Call X L W A :=
  r ← try p; _ ← try last; of_result r.

(** Something else that changes the world only. *)
Definition aside {A} (f : W → W * A) : prog Call X L W A := λ h,
  let '(w, a) := f (world h) in (mkHost (store h) w (trace h), Ok a).

Definition require_that (b : bool) (e : X) : prog Call X L W unit := if b then mret tt else fail e.

(** A step on a store that is shared: the other goroutines run first. *)
Definition interrupted `{Interference L W} : prog Call X L W unit := λ h,
  let '(w, l) := interrupts (world h) (store h) in (mkHost l w (trace h), Ok tt).

Definition shared `{Interference L W} {A} (p : prog Call X L W A) : prog Call X L W A := _ ← interrupted; p.
End Computations.

(** ** The program logic *)

Section Logic.
Context {Call : Type} {reply : Call → Type} {X L W Env : Type}.
Context `{DurableMap L Env} `{Outside Call reply X W Env}.

(** What the world is relied on for: the clock shows a year JSON can hold, and
    answers have their Go types. *)
Class RealWorld (typed : ∀ c, reply c → Prop) : Prop := {
  clock_timely w : timely (clock w).2;
  replies_typed c w a : (ask c w).2 = Ok a → typed c a
}.

(** [good] is an invariant of the store that every step keeps. *)
Context {Step : L → L → Prop} {justified : Call → L → Prop} {typed : ∀ c, reply c → Prop} {good : L → Prop}.
Context (good_step : ∀ l l', good l → Step l l' → good l') `{!RealWorld typed}.

Abbreviation program := (prog Call X L W).

(** Started in one state of the host. *)
Definition obeys_at {A} (scope : string → Prop) (I : L → Prop) (p : program A) (Q : L → A → Prop)
    (h : host Call L W) : Prop :=
  ∀ h' r, good (store h) → I (store h) → p h = (h', r) →
  good (store h') ∧ rtc Step (store h) (store h') ∧
  (∀ k, ¬ scope k → content (store h') k = content (store h) k) ∧
  (∃ calls, trace h' = trace h ++ calls ∧ Forall (λ c, justified c.1 c.2) calls) ∧
  (∀ a, r = Ok a → Q (store h') a).

Definition obeys {A} (scope : string → Prop) (I : L → Prop) (p : program A) (Q : L → A → Prop) : Prop :=
  ∀ h, obeys_at scope I p Q h.

Section Rules.
Context {A B : Type} (scope : string → Prop).

Lemma obeys_ret I (a : A) Q : (∀ l, good l → I l → Q l a) → obeys scope I (mret a) Q.
Proof.
  intros HQ h h' r Hl HI [= <- <-]. split_and!; [done|constructor|done| |].
  - exists []. by rewrite app_nil_r.
  - intros b [= <-]. by apply HQ.
Qed.

Lemma obeys_fail I e (Q : L → A → Prop) : obeys scope I (fail e) Q.
Proof.
  intros h h' r Hl HI [= <- <-]. split_and!; [done|constructor|done| |done]. exists []. by rewrite app_nil_r.
Qed.

(** The second part may rely on how the first one went. *)
Lemma obeys_bind_at I (p : program A) Q (f : A → program B) R h :
  obeys_at scope I p Q h → (∀ h1 a, p h = (h1, Ok a) → obeys_at scope (λ l, Q l a) (f a) R h1) →
  obeys_at scope I (p ≫= f) R h.
Proof.
  intros Hp Hf h' r Hl HI Hrun. unfold mbind, prog_bind in Hrun.
  destruct (p h) as [h1 [a|e]] eqn:E.
  - destruct (Hp _ _ Hl HI E) as (Hl1 & Hs1 & Hc1 & (c1 & Ht1 & Hj1) & HQ).
    destruct (Hf _ _ eq_refl _ _ Hl1 (HQ a eq_refl) Hrun) as (Hl2 & Hs2 & Hc2 & (c2 & Ht2 & Hj2) & HR).
    split_and!; [done|by etrans|by intros k Hk; rewrite Hc2, Hc1| |done].
    exists (c1 ++ c2). rewrite Ht2, Ht1, app_assoc. split; [done|]. by apply Forall_app.
  - injection Hrun as <- <-. destruct (Hp _ _ Hl HI E) as (? & ? & ? & ? & _). by split_and!.
Qed.

Lemma obeys_bind I (p : program A) Q (f : A → program B) R :
  obeys scope I p Q → (∀ a, obeys scope (λ l, Q l a) (f a) R) → obeys scope I (p ≫= f) R.
Proof. intros Hp Hf h. eapply obeys_bind_at; [apply Hp|]. intros h1 a _. apply Hf. Qed.

Lemma obeys_weaken (I I' : L → Prop) (p : program A) (Q Q' : L → A → Prop) :
  obeys scope I p Q → (∀ l, good l → I' l → I l) → (∀ l a, good l → Q l a → Q' l a) → obeys scope I' p Q'.
Proof.
  intros Hp HI HQ h h' r Hl Hi Hrun. destruct (Hp _ _ _ Hl (HI _ Hl Hi) Hrun) as (? & ? & ? & ? & Hq).
  split_and!; try done. intros a Ha. apply HQ; [done|by apply Hq].
Qed.

(** Facts of the precondition that are not about the store. *)
Lemma obeys_pure (P : Prop) (I : L → Prop) (p : program A) Q :
  (∀ l, I l → P) → (P → obeys scope I p Q) → obeys scope I p Q.
Proof. intros HP Hp h h' r Hl HI Hrun. by apply (Hp (HP _ HI) h). Qed.

(** Afterwards nothing is known of the store when the attempt failed. *)
Lemma obeys_try I (p : program A) Q :
  obeys scope I p Q → obeys scope I (try p) (λ l r, ∀ a, r = Ok a → Q l a).
Proof.
  intros Hp h h' r Hl HI Hrun. unfold try in Hrun. destruct (p h) as [h1 x] eqn:E. injection Hrun as <- <-.
  destruct (Hp _ _ _ Hl HI E) as (? & ? & ? & ? & HQ). split_and!; try done. by intros a [= <-].
Qed.

Lemma obeys_result I (x : result X A) Q :
  (∀ l a, good l → I l → x = Ok a → Q l a) → obeys scope I (of_result x) Q.
Proof.
  intros HQ h h' r Hl HI [= <- <-]. split_and!; [done|constructor|done| |].
  - exists []. by rewrite app_nil_r.
  - intros a ->. by apply HQ.
Qed.

Lemma obeys_read I (op : L → result X A) Q :
  (∀ l a, good l → I l → op l = Ok a → Q l a) → obeys scope I (read_journal op) Q.
Proof.
  intros HQ h h' r Hl HI [= <- <-]. split_and!; [done|constructor|done| |].
  - exists []. by rewrite app_nil_r.
  - intros a Ha. by apply HQ.
Qed.

(** One operation of the journal. *)
Lemma obeys_journal I (op : Env → L → L * result X A) Q :
  (∀ env l l' r, timely env → good l → I l → op env l = (l', r) →
     Step l l' ∧ (∀ k, ¬ scope k → content l' k = content l k) ∧ ∀ a, r = Ok a → Q l' a) →
  obeys scope I (journal op) Q.
Proof.
  intros Hop h h' r Hl HI Hrun. unfold journal in Hrun.
  pose proof (clock_timely (world h)) as Ht. destruct (clock (world h)) as [w env]. cbn [snd] in Ht.
  destruct (op env (store h)) as [l x] eqn:E. injection Hrun as <- <-. cbn [store trace].
  destruct (Hop _ _ _ _ Ht Hl HI E) as (Hs & Hc & HQ).
  split_and!; [by eapply good_step|by apply rtc_once|done| |done]. exists []. by rewrite app_nil_r.
Qed.

Lemma obeys_scope (scope' : string → Prop) I (p : program A) Q :
  (∀ k, scope' k → scope k) → obeys scope' I p Q → obeys scope I p Q.
Proof.
  intros Hsub Hp h h' r Hl HI Hrun. destruct (Hp _ _ _ Hl HI Hrun) as (? & ? & Hc & ? & ?).
  split_and!; try done. intros k Hk. apply Hc. by intros ?%Hsub.
Qed.

Lemma obeys_aside I (f : W → W * A) : obeys scope I (aside f) (λ l _, I l).
Proof.
  intros h h' r Hl HI Hrun. unfold aside in Hrun. destruct (f (world h)) as [w x].
  injection Hrun as <- <-. cbn [store trace]. split_and!; [done|constructor|done| |by intros a _].
  exists []. by rewrite app_nil_r.
Qed.
End Rules.

Section Calls.
Context (scope : string → Prop).

Lemma obeys_perform (I : L → Prop) c :
  (∀ l, good l → I l → justified c l) → obeys scope I (perform c) (λ l a, I l ∧ typed c a).
Proof.
  intros Hj h h' r Hl HI Hrun. unfold perform in Hrun. destruct (ask c (world h)) as [w x] eqn:E.
  injection Hrun as <- <-. cbn [store trace]. split_and!; [done|constructor|done| |].
  - exists [(c, store h)]. split; [done|]. apply Forall_singleton. by apply Hj.
  - intros a ->. split; [done|]. apply (replies_typed c (world h)). by rewrite E.
Qed.

Lemma obeys_stopped (I : L → Prop) : obeys scope I stopped (λ l _, I l).
Proof.
  intros h h' r Hl HI Hrun. unfold stopped in Hrun. destruct (done_ctx (world h)) as [w x].
  injection Hrun as <- <-. cbn [store trace]. split_and!; [done|constructor|done| |by intros a _].
  exists []. by rewrite app_nil_r.
Qed.

Lemma obeys_live (I : L → Prop) : obeys scope I live (λ l _, I l).
Proof.
  eapply obeys_bind; [apply obeys_stopped|]. intros [x|]; [apply obeys_fail|]. by apply obeys_ret.
Qed.

Lemma obeys_require (I : L → Prop) b e : obeys scope I (require_that b e) (λ l _, I l ∧ b = true).
Proof. destruct b; [by apply obeys_ret|apply obeys_fail]. Qed.

Lemma obeys_expect {A} I (p : program A) Q e valid :
  obeys scope I p Q → obeys scope I (expect e valid p) (λ l a, Q l a ∧ valid a = true).
Proof.
  intros Hp. unfold expect. eapply obeys_bind; [by apply obeys_try|]. intros [a|x]; cbn.
  - destruct (valid a) eqn:E; [|apply obeys_fail]. apply obeys_ret. intros l _ HQ. split; [by apply HQ|done].
  - apply obeys_fail.
Qed.

(** A call made whatever came of [p]. *)
Lemma obeys_finally {A} I (p : program A) Q c :
  (∀ l, justified c l) → obeys scope I p Q → obeys scope I (finally p (perform c)) Q.
Proof.
  intros Hj Hp h h' r Hl HI Hrun. unfold finally, mbind, prog_bind, try, perform, of_result in Hrun.
  destruct (p h) as [h1 x] eqn:E. destruct (ask c (world h1)) as [w y]. injection Hrun as <- <-.
  destruct (Hp _ _ _ Hl HI E) as (? & ? & ? & (calls & Ht & Hc) & HQ). cbn [store trace].
  split_and!; try done. exists (calls ++ [(c, store h1)]). rewrite Ht, (assoc_L (++)). split; [done|].
  apply Forall_app. split; [done|]. by apply Forall_singleton.
Qed.

(** ** Rules for the first step of a sequence *)

Lemma obeys_guard {A} I b e (f : unit → program A) Q :
  (b = true → obeys scope I (f tt) Q) → obeys scope I (require_that b e ≫= f) Q.
Proof.
  intros Hf. destruct b; [exact (Hf eq_refl)|]. intros h h' r Hl HI [= <- <-].
  split_and!; [done|constructor|done| |done]. exists []. by rewrite app_nil_r.
Qed.

Lemma obeys_then_live {A} I (f : unit → program A) Q : obeys scope I (f tt) Q → obeys scope I (live ≫= f) Q.
Proof. intros Hf. eapply obeys_bind; [apply obeys_live|]. intros []. exact Hf. Qed.

Lemma obeys_then_aside {A B} I (g : W → W * B) (f : B → program A) Q :
  (∀ b, obeys scope I (f b) Q) → obeys scope I (aside g ≫= f) Q.
Proof. intros Hf. eapply obeys_bind; [apply obeys_aside|]. exact Hf. Qed.

Lemma obeys_then_stopped {A} I (f : option X → program A) Q :
  (∀ x, obeys scope I (f x) Q) → obeys scope I (stopped ≫= f) Q.
Proof. intros Hf. eapply obeys_bind; [apply obeys_stopped|]. exact Hf. Qed.

Lemma obeys_then_call {A} I c (f : reply c → program A) Q :
  (∀ l, good l → I l → justified c l) → (∀ a, typed c a → obeys scope I (f a) Q) →
  obeys scope I (perform c ≫= f) Q.
Proof.
  intros Hj Hf. eapply obeys_bind; [by apply obeys_perform|]. intros a. cbn beta.
  apply (obeys_pure _ (typed c a)); [by intros l [_ ?]|]. intros Ht.
  eapply obeys_weaken; [by apply Hf|by intros l _ [? _]|done].
Qed.

(** An attempt at a call, whatever came of it. *)
Lemma obeys_then_try {A} I c (f : result X (reply c) → program A) Q :
  (∀ l, good l → I l → justified c l) → (∀ a, obeys scope I (f a) Q) →
  obeys scope I (try (perform c) ≫= f) Q.
Proof.
  intros Hj Hf h h' r Hl HI Hrun. unfold mbind, prog_bind, try, perform in Hrun.
  destruct (ask c (world h)) as [w x]. set (h1 := mkHost _ w _) in *.
  destruct (Hf x h1 h' r Hl HI Hrun) as (? & ? & ? & (calls & Ht & Hc) & HQ). cbn [store trace] in *.
  split_and!; try done. exists ((c, store h) :: calls). rewrite Ht. subst h1. cbn [trace].
  rewrite <- (assoc_L (++)). split; [done|]. constructor; [by apply Hj|done].
Qed.
End Calls.

(** ** Shared stores

    The other goroutines take steps of the journal too, so between two steps of
    a computation only what their steps keep is known of the store. *)

Section Sharing.
Context `{!Interference L W}.

(** The other goroutines leave the entry of the task alone. *)
Definition untouched (k : string) : Prop :=
  ∀ w l, sound l → content (interrupts w l).2 k = content l k.

(** What a scope leaves out is left alone. *)
Definition covers (scope : string → Prop) : Prop :=
  ∀ k w l, ¬ scope k → sound l → content (interrupts w l).2 k = content l k.

(** [J] held at some moment since [good] began to hold, and the task's entry is
    the same still if the other goroutines leave it alone. *)
Definition since (k : string) (J : L → Prop) (l : L) : Prop :=
  ∃ seen, good seen ∧ J seen ∧ rtc Step seen l ∧ (untouched k → content l k = content seen k).

Lemma since_now k (J : L → Prop) l : good l → J l → since k J l.
Proof. intros Hl HJ. exists l. by split_and!. Qed.

Lemma since_step k J l l' :
  since k J l → rtc Step l l' → (untouched k → content l' k = content l k) → since k J l'.
Proof.
  intros (seen & Hg & HJ & Hs & Hc) Hs' Hc'. exists seen. split_and!; [done|done|by etrans|].
  intros Hu. by rewrite Hc', Hc.
Qed.

Lemma since_weaken k (J J' : L → Prop) l : (∀ l, good l → J l → J' l) → since k J l → since k J' l.
Proof. intros HJ (seen & Hg & Hj & Hs & Hc). exists seen. split_and!; auto. Qed.

Lemma since_since k J l : since k (since k J) l → since k J l.
Proof. intros (seen & _ & HJ & Hs & Hc). by eapply since_step. Qed.

(** Facts that are not about the store held then, so they hold. *)
Lemma since_pure k (J : L → Prop) (P : Prop) l : (∀ l, J l → P) → since k J l → P.
Proof. intros HP (seen & _ & HJ & _). by eapply HP. Qed.

(** Facts that every step keeps hold still. *)
Lemma since_lasting k (J : L → Prop) l :
  (∀ l l', good l → Step l l' → J l → J l') → since k J l → J l.
Proof.
  intros HJ (seen & Hg & Hj & Hs & _). induction Hs as [|l1 l2 l3 Hstep _ IH]; [done|].
  apply IH; [by eapply good_step|by eapply HJ].
Qed.

Context (good_sound : ∀ l, good l → sound l) (others_step : ∀ w l, good l → rtc Step l (interrupts w l).2).

Lemma good_steps l l' : good l → rtc Step l l' → good l'.
Proof. intros Hl Hs. induction Hs as [|l1 l2 l3 Hstep _ IH]; [done|]. apply IH. by eapply good_step. Qed.

(** What the other goroutines do not take back. *)
Definition undisturbed (I : L → Prop) : Prop := ∀ w l, good l → I l → I (interrupts w l).2.

Lemma settled_since k J : undisturbed (since k J).
Proof.
  intros w l Hl HJ. eapply since_step; [done|by apply others_step|]. intros Hu. by apply Hu, good_sound.
Qed.

Lemma obeys_interrupted scope I : covers scope → undisturbed I → obeys scope I interrupted (λ l _, I l).
Proof.
  intros Hcov Hset h h' r Hl HI Hrun. unfold interrupted in Hrun.
  pose proof (others_step (world h) (store h) Hl) as Hs. pose proof (Hset (world h) (store h) Hl HI) as HI'.
  assert (Hc : ∀ k', ¬ scope k' → content (interrupts (world h) (store h)).2 k' = content (store h) k').
  { intros k' Hk. by apply Hcov, good_sound. }
  destruct (interrupts (world h) (store h)) as [w l]. injection Hrun as <- <-. cbn [store trace] in *.
  split_and!; [by eapply good_steps|done|done| |by intros []].
  exists []. by rewrite app_nil_r.
Qed.

Lemma obeys_shared {A} scope I (p : program A) Q :
  covers scope → undisturbed I → obeys scope I p Q → obeys scope I (shared p) Q.
Proof. intros Hcov Hset Hp. eapply obeys_bind; [by apply obeys_interrupted|]. intros u. exact Hp. Qed.

(** What another computation did to other tasks only. *)
Lemma since_frame k J l l' (scope : string → Prop) :
  since k J l → rtc Step l l' → (∀ k', ¬ scope k' → content l' k' = content l k') →
  (untouched k → ¬ scope k) → since k J l'.
Proof. intros HJ Hs Hf Hk. eapply since_step; [done|done|]. intros Hu. by apply Hf, Hk. Qed.
End Sharing.
End Logic.
