(* ===== verification/DeploymentRun.v ===== *)
(** * Running a deployment

    src/internal/worker/deployment_termination.go, deployment_confirmation.go,
    deployment_preparation.go, deployment_execution.go and deployment_task.go:
    the calls to the server and to the helper, in order, between the
    operations of the journal.  A run is a state-and-error computation over
    the ledger and the outside world; every call is kept with the ledger as it
    was when the call was made.  The poll of tasks, the recovery of deployments
    and the worker's other loops are goroutines over one ledger
    (src/internal/worker/worker.go): before every call and every operation of
    the ledger, and between the write of an operation and its reading back, the
    others may have changed the ledger ([shared]). *)

From S2P Require Import TaskLease Worker.
From S2P Require Import Prelude GoText GoTime GoJson GoUtf8 GoJsonText GoJsonValue GoJsonDecode GoJsonStruct.
From S2P Require Import Manifest StartResult Ledger TaskStore StartJournal Programs.
From S2P Require Import Deployment DeploymentPlan DeploymentJournal.
From Stdlib.Strings Require Import Ascii.

(** ** The outside *)

(** Calls of the client (src/internal/api) and of the helper. *)
Inductive call :=
  | GetTermination (b : SkillDeploymentIdentity)
  | RequestTermination (b : SkillDeploymentIdentity) (r : SkillDeploymentTerminationRequest)
  | InspectTermination (r : SkillDeploymentTerminatedResult)
  | ConfirmTermination (r : SkillDeploymentTerminatedResult)
  | InspectDeployment (r : SkillDeploymentPreparedResult)
  | ConfirmDeployment (r : SkillDeploymentPreparedResult)
  | GetDeployment (b : SkillDeploymentIdentity) (attempt : Z)
  | PrepareDeployment (operation : string) (input : SkillDeployment)
  | DrainDeployment (operation : string) (b : SkillDeploymentIdentity).

Definition reply (c : call) : Type :=
  match c with
  | GetTermination _ => option SkillDeploymentTerminationIntent
  | RequestTermination _ _ => SkillDeploymentTerminationIntent
  | InspectTermination _ | ConfirmTermination _ => SkillDeploymentTerminationObservation
  | InspectDeployment _ | ConfirmDeployment _ => SkillDeploymentResultObservation
  | GetDeployment _ _ => SkillDeployment
  | PrepareDeployment _ _ => DeploymentPreparation
  | DrainDeployment _ _ => DeploymentDrain
  end.

Record SkillDeploymentLease := mkLease {
  LeaseIdentity : SkillDeploymentIdentity;
  LeaseAttempt : Z;
  LeaseTiming : taskLeaseTiming
}.

Definition validateDeploymentRequest (binding : SkillDeploymentIdentity) (attempt : Z) : bool :=
  Deploy.Validate binding && (1 <=? attempt) && (attempt <=? 2147483647).

(** The client's check of an answer of the lease endpoint; [None] is a failed
    request. *)
Definition RenewSkillDeploymentLease (binding : SkillDeploymentIdentity) (attempt : Z)
    (response : option (envelope SkillDeploymentLease)) : option SkillDeploymentLease :=
  if negb (validateDeploymentRequest binding attempt) then None else
  match response with
  | None => None
  | Some e =>
      let lease := Data e in
      let t := LeaseTiming lease in
      let lasts := time_sub (LeaseUntil t) (ServerTime t) in
      if (Deployment.SchemaVersion e =? 1) && String.eqb (EnvelopeStatus e) "leased" &&
         bool_decide (Committed e = Some false) && Nat.eqb (error_count e) 0 &&
         bool_decide (LeaseIdentity lease = binding) && (LeaseAttempt lease =? attempt) &&
         negb (ServerTime t =? zero_time) && negb (LeaseUntil t =? zero_time) &&
         (0 <? lasts) && (lasts <=? maximum_lease) && (0 <? RenewAfterMilliseconds t) &&
         (RenewAfterMilliseconds t <? Z.quot lasts millisecond)
      then Some lease else None
  end.

(** What happens around one leased run: its renewals and timing, the error of
    the last renewal, and what ended its context if something did. *)
Record lease_env := mkLeaseEnv {
  leased : lease_run;
  renewalErr : error;
  cancellation : cause
}.

(** A leased run: the given renewal callback runs on every answer of the lease
    endpoint. *)
Class Leases (W : Type) :=
  lease_around : SkillDeploymentIdentity → Z → (option (envelope SkillDeploymentLease) → option taskLeaseTiming) →
                 W → W * lease_env.

(** ** Tasks *)

Module TaskPayload.
Record payload := mk {
  ProtocolVersion : Z;
  UserID : string;
  OperationID : string;
  AccountID : string;
  AttemptID : string;
  TaskID : string;
  CheckpointID : string;
  TreeDigest : string;
  PlanDigest : string;
  RuntimeBackend : string
}.

Definition fields : list (field payload) := [
  int_field "protocol_version" ProtocolVersion (λ x r, r <| ProtocolVersion := x |>);
  str_field "user_id" UserID (λ x r, r <| UserID := x |>);
  str_field "operation_id" OperationID (λ x r, r <| OperationID := x |>);
  str_field "tool_account_id" AccountID (λ x r, r <| AccountID := x |>);
  str_field "attempt_id" AttemptID (λ x r, r <| AttemptID := x |>);
  str_field "task_record_id" TaskID (λ x r, r <| TaskID := x |>);
  str_field "checkpoint_id" CheckpointID (λ x r, r <| CheckpointID := x |>);
  str_field "tree_digest" TreeDigest (λ x r, r <| TreeDigest := x |>);
  str_field "plan_digest" PlanDigest (λ x r, r <| PlanDigest := x |>);
  str_field "runtime_backend" RuntimeBackend (λ x r, r <| RuntimeBackend := x |>)].

Definition zero : payload := mk 0 "" "" "" "" "" "" "" "" "".
End TaskPayload.

(** [decodeDeploymentTask].  Exactly the ten members, none nil, so that no
    member is unknown to the decoder. *)
Definition decodeDeploymentTask (task : TaskEnvelope) (nodeID : string) : option SkillDeploymentIdentity :=
  let m := Task.Payload task in
  if Nat.eqb (length m) 10 &&
     forallb (λ name, match get name m with Some VNull | None => false | _ => true end) (names TaskPayload.fields) &&
     encodable (VObj m)
  then
    j ← parse_json (print_value compact 0 (VObj m));
    p ← decode_struct TaskPayload.fields TaskPayload.zero j;
    let b := Deploy.mk (TaskPayload.OperationID p) (TaskPayload.AttemptID p) (TaskPayload.TaskID p)
               (TaskPayload.UserID p) (TaskPayload.AccountID p) nodeID (TaskPayload.CheckpointID p)
               (TaskPayload.PlanDigest p) (TaskPayload.TreeDigest p) (TaskPayload.RuntimeBackend p) in
    if Deploy.Validate b && (TaskPayload.ProtocolVersion p =? 1) && String.eqb (Task.NodeID task) nodeID &&
       String.eqb (Task.TaskRecordID task) (Deploy.TaskID b) &&
       String.eqb (Task.TaskType task) "prepare_account_skills" &&
       String.eqb (Task.TaskID task) (deployment_task_id b) &&
       String.eqb (Task.IdempotencyKey task) (Task.TaskID task) &&
       (1 <=? Task.LeaseAttempt task) && (Task.LeaseAttempt task <=? 2147483647)
    then Some b else None
  else None.

(** ** Computations *)

Section Computations.
Context {L Env W : Type} `{TaskStore L Env} `{!Outside reply error W Env} `{!Leases W} `{!Interference L W}.

#[local] Abbreviation prog := (prog call error L W).

(** Every step is taken on the shared ledger. *)
#[local] Abbreviation perform c := (shared (Programs.perform c)).
#[local] Abbreviation journal op := (shared (Programs.journal op)).
#[local] Abbreviation read_journal op := (shared (Programs.read_journal op)).

Definition pending_error : error := [errDeploymentPending].

(** A call whose failure or invalid answer is [errDeploymentPending]. *)
#[local] Abbreviation expect := (expect pending_error).

(** The recovery loops: every entry is tried, the failures are joined. *)
Fixpoint for_each (body : Entry → prog unit) (es : list Entry) (failures : list error) : prog unit :=
  match es with
  | [] => match failures with [] => mret tt | _ => fail (concat failures) end
  | e :: rest =>
      ended ← stopped;
      match ended with
      | Some x => fail x
      | None =>
          r ← try (body e);
          for_each body rest (failures ++ match r with Ok _ => [] | Err x => [x] end)
      end
  end.

(** ** Operations of the journal

    The writes and the readings back of DeploymentJournal, one after the
    other. *)

Definition run_save (previous : option Entry) (r : deploymentTerminationRecord) : prog deploymentTerminationEntry :=
  _ ← journal (λ env l, put_termination env l previous r);
  read_journal (λ l, read_back l (deployment_task_id (TermRecord.Binding r)) r).

Definition run_begin (binding : SkillDeploymentIdentity) (request : SkillDeploymentTerminationRequest)
    (intent : option SkillDeploymentTerminationIntent) (previous : option deploymentEntry)
    : prog deploymentTerminationEntry :=
  run_save (option_map dentry previous) (begun binding request intent previous).

Definition run_propose (taskID : string) (proposal : SkillDeploymentPreparedResult)
    (previous : option deploymentEntry) (observation : option SkillDeploymentResultObservation)
    : prog (option deploymentEntry) :=
  _ ← journal (λ env l, put_proposal env l taskID proposal previous observation);
  read_journal (λ l, read_proposal l taskID proposal previous).

Definition run_confirm (previous : deploymentEntry) (observation : SkillDeploymentResultObservation) : prog unit :=
  stored ← journal (λ env l, put_confirmation env l previous observation);
  if stored : bool then mret tt else read_journal (λ l, read_confirmation l previous).

(** ** Terminations *)

(** Before the intent is known: whether a competing success was restored. *)
Definition restored_success (pending : deploymentTerminationEntry) : prog bool :=
  match TermRecord.Preparation (trecord pending) with
  | None => mret false
  | Some p =>
      observed ← expect (λ o, bool_decide (ResultObs.Result o = p)) (perform (InspectDeployment p));
      if ResultObs.Accepted observed then
        _ ← journal (λ env l, restoreConfirmedPreparation env l pending observed); mret true
      else mret false
  end.

(** The intent of the server, found or requested; [None] after a restored
    success. *)
Definition find_intent (pending : deploymentTerminationEntry) : prog (option SkillDeploymentTerminationIntent) :=
  let record := trecord pending in
  found ← perform (GetTermination (TermRecord.Binding record));
  match found with
  | Some intent => mret (Some intent)
  | None =>
      restored ← restored_success pending;
      if restored : bool then mret None else
      requested ← perform (RequestTermination (TermRecord.Binding record) (TermRecord.Request_ record));
      if bool_decide (Intent_.Request_ requested = TermRecord.Request_ record) then mret (Some requested)
      else fail pending_error
  end.

(** The first stage, up to a recorded intent; [None] ends the run. *)
Definition revoke_stage (pending : deploymentTerminationEntry)
    : prog (option (deploymentTerminationEntry * deploymentTerminationRecord)) :=
  let record := trecord pending in
  match TermRecord.Intent record with
  | Some _ => mret (Some (pending, record))
  | None =>
      intent ← find_intent pending;
      match intent with
      | None => mret None
      | Some i =>
          if negb (Intent_.Validate i && bool_decide (Intent_.Binding i = TermRecord.Binding record))
          then fail pending_error
          else
            let record := record <| TermRecord.Intent := Some i |> <| TermRecord.Request_ := Intent_.Request_ i |> in
            saved ← run_save (Some (tentry pending)) record;
            mret (Some (saved, record))
      end
  end.

(** The second stage, up to a recorded drain. *)
Definition drain_stage (pending : deploymentTerminationEntry) (record : deploymentTerminationRecord)
    : prog (deploymentTerminationEntry * deploymentTerminationRecord) :=
  match TermRecord.Drain record with
  | Some _ => mret (pending, record)
  | None =>
      let b := TermRecord.Binding record in
      drain ← perform (DrainDeployment ("deployment-drain:" +:+ Deploy.TaskID b) b);
      if negb (Drain_.Validate drain b) then fail pending_error
      else
        let record := record <| TermRecord.Drain := Some drain |> in
        saved ← run_save (Some (tentry pending)) record;
        mret (saved, record)
  end.

(** The last stage: the server accepts the termination. *)
Definition confirm_stage (pending : deploymentTerminationEntry) (record : deploymentTerminationRecord)
    (ended : SkillDeploymentTerminatedResult) : prog unit :=
  observed ← expect (λ o, validTerminationObservation o ended) (perform (InspectTermination ended));
  match TermRecord.Confirmation record with
  | Some c => if bool_decide (observed = c) then mret tt else fail pending_error
  | None =>
      accepted ←
        (if TermObs.Accepted observed then mret observed
         else expect (λ o, validTerminationObservation o ended && TermObs.Accepted o)
                (perform (ConfirmTermination ended)));
      _ ← run_save (Some (tentry pending)) (record <| TermRecord.Confirmation := Some accepted |>);
      mret tt
  end.

(** The last stage has an intent and a drain; without them the Go code would
    dereference nil. *)
Definition resumeDeploymentTermination (pending : deploymentTerminationEntry) : prog unit :=
  revoked ← revoke_stage pending;
  match revoked with
  | None => mret tt
  | Some (pending, record) =>
      '(pending, record) ← drain_stage pending record;
      match TermRecord.Intent record, TermRecord.Drain record with
      | Some i, Some d => confirm_stage pending record (Terminated.mk i d)
      | _, _ => fail [Other]
      end
  end.

Definition resume_entry (nodeID : string) (e : Entry) : prog unit :=
  pending ← of_result (decodeDeploymentTermination e);
  if negb (String.eqb (Deploy.NodeID (TermRecord.Binding (trecord pending))) nodeID) then fail pending_error
  else resumeDeploymentTermination pending.

Definition recoverDeploymentTerminations (nodeID : string) : prog unit :=
  requested ← read_journal (λ l, of_ledger (store_list l deploymentTerminationRequested));
  revoked ← read_journal (λ l, of_ledger (store_list l deploymentTerminationRevoked));
  drained ← read_journal (λ l, of_ledger (store_list l deploymentTerminationDrained));
  for_each (resume_entry nodeID) (requested ++ revoked ++ drained) [].

(** ** Confirmations *)

Definition inspect_entry (nodeID : string) (e : Entry) : prog unit :=
  pending ← of_result (decodeDeploymentEntry e);
  let binding := DepRecord.binding (drecord pending) in
  let proposal := DepRecord.Result (drecord pending) in
  if negb (String.eqb (Deploy.NodeID binding) nodeID) then fail pending_error
  else
    intent ← expect (λ _, true) (perform (GetTermination binding));
    match intent with
    | Some i =>
        _ ← run_begin binding (Intent_.Request_ i) (Some i) (Some pending); mret tt
    | None =>
        observed ← expect (λ o, bool_decide (ResultObs.Result o = proposal)) (perform (InspectDeployment proposal));
        if ResultObs.Accepted observed then run_confirm pending observed
        else mret tt
    end.

Definition inspectPendingDeployments (nodeID : string) : prog unit :=
  es ← read_journal (λ l, of_ledger (store_list l deploymentPreparedPending));
  for_each (inspect_entry nodeID) es [].

Definition recoverDeploymentConfirmations (nodeID : string) : prog unit :=
  inspection ← try (inspectPendingDeployments nodeID);
  termination ← try (recoverDeploymentTerminations nodeID);
  if is_ok inspection && is_ok termination then mret tt else fail pending_error.

(** ** Preparation *)

Section Preparation.
Context (IsNormalString : string → bool) (hex_sha256 : list Z → string).

(** The renewal callback. *)
Definition renew_deployment (binding : SkillDeploymentIdentity) (attempt : Z)
    (response : option (envelope SkillDeploymentLease)) : option taskLeaseTiming :=
  match RenewSkillDeploymentLease binding attempt response with
  | Some x => if bool_decide (LeaseIdentity x = binding) && (LeaseAttempt x =? attempt)
              then Some (LeaseTiming x) else None
  | None => None
  end.

(** Whether [withTaskLease] gets as far as the work. *)
Definition work_begins (r : lease_run) : bool :=
  has_work r && negb (cancelled_before r) && negb (cancelled_after_first r) && is_ok (renewTaskBudget (first r)).

(** [withTaskLease] around [work], whose own error it passes on. *)
Definition under_lease (env : lease_env) (outcome : result error unit) : result error unit :=
  match withTaskLease ((leased env) <| TaskLease.work := match outcome with Ok _ => Ok tt | Err _ => Err WorkFailed end |>) with
  | Ok _ => Ok tt
  | Err Lost => Err [errDeploymentLeaseLost]
  | Err TaskLease.Cancelled => Err [cancellation env]
  | Err NoWork => Err [Other]
  | Err WorkFailed => outcome
  end.

(** The work under the lease: [Ok r] after the server accepted the proposal,
    [r] being the outcome of recording that. *)
Definition deployment_work (taskID : string) (binding : SkillDeploymentIdentity) (attempt : Z)
    (previous : option deploymentEntry) (observation : option SkillDeploymentResultObservation)
    : prog (result error unit) :=
  input ← perform (GetDeployment binding attempt);
  if negb (validate_deployment IsNormalString hex_sha256 input binding) then fail [Other] else
  prepared ← perform (PrepareDeployment ("deployment-prepare:" +:+ Deploy.TaskID binding) input);
  if negb (validate_preparation IsNormalString hex_sha256 prepared input) then fail [Other] else
  ended ← stopped;
  match ended with
  | Some x => fail x
  | None =>
      let proposal := Prepared.mk attempt prepared in
      saved ← run_propose taskID proposal previous observation;
      match saved with
      | None => fail [Other]    (* a proposal that was stored is found again: no entry is ever removed *)
      | Some pending =>
          let wanted := DepRecord.Result (drecord pending) in
          answer ← try (perform (ConfirmDeployment wanted));
          match answer with
          | Err x => fail (pending_error ++ x)
          | Ok confirmed =>
              if negb (ResultObs.Accepted confirmed && bool_decide (ResultObs.Result confirmed = wanted) &&
                       String.eqb (ResultObs.TaskStatus confirmed) "succeeded" &&
                       (ResultObs.CurrentLeaseAttempt confirmed =? attempt))
              then fail pending_error
              else try (run_confirm pending confirmed)
          end
      end
  end.

(** The leased part of [prepareDeployment]. *)
Definition prepare_leased (taskID : string) (binding : SkillDeploymentIdentity) (attempt : Z)
    (previous : option deploymentEntry) (observation : option SkillDeploymentResultObservation) : prog unit :=
  env ← aside (lease_around binding attempt (renew_deployment binding attempt));
  outcome ←
    (if work_begins (leased env) then try (deployment_work taskID binding attempt previous observation)
     else mret (Err []));
  match outcome with
  | Ok saved => of_result saved     (* accepted: the receipt wins over the lease *)
  | Err x =>
      let err := causes (under_lease env (Err x)) in
      fail (if bool_decide (errDeploymentLeaseLost ∈ err) then err ++ renewalErr env else err)
  end.

Definition valid_run (taskID : string) (binding : SkillDeploymentIdentity) (attempt : Z) : bool :=
  Deploy.Validate binding && (1 <=? attempt) && (attempt <=? 2147483647) &&
  String.eqb taskID (deployment_task_id binding).

Definition prepareDeployment (taskID : string) (binding : SkillDeploymentIdentity) (attempt : Z) : prog unit :=
  if negb (valid_run taskID binding attempt) then fail pending_error else
  previous ← read_journal (λ l, load_deployment l taskID);
  match previous with
  | None => prepare_leased taskID binding attempt None None
  | Some p =>
      let proposal := DepRecord.Result (drecord p) in
      if negb (bool_decide (DepRecord.binding (drecord p) = binding)) then fail pending_error else
      observed ← expect (λ o, bool_decide (ResultObs.Result o = proposal)) (perform (InspectDeployment proposal));
      if ResultObs.Accepted observed then run_confirm p observed
      else if String.eqb (Status (dentry p)) deploymentPreparedConfirmed ||
              negb (ResultObs.CurrentLeaseAttempt observed =? attempt) ||
              negb (bool_decide (ResultObs.TaskStatus observed ∈ ["leased"; "running"]))
      then fail pending_error
      else prepare_leased taskID binding attempt (Some p) (Some observed)
  end.

(** ** Execution *)

(** The first node an [errors.As] finds. *)
Definition as_cause {A} (f : cause → option A) (err : error) : option A := head (omap f err).

Definition http_code (c : cause) : option string := match c with HTTPError code => Some code | _ => None end.
Definition helper_code (c : cause) : option string := match c with HelperError code => Some code | _ => None end.
Definition op_network (c : cause) : option string := match c with OpError network => Some network | _ => None end.
Definition net_error (c : cause) : option unit :=
  match c with OpError _ | NetError | DeadlineExceeded => Some tt | _ => None end.

Definition deploymentFailureReason (err : error) : string :=
  match as_cause http_code err with
  | Some code =>
      if String.eqb code "ACCOUNT_NOT_AVAILABLE" then "AUTHORIZATION_DENIED"
      else if Request.Validate (Request.mk 1 code) then code
      else if String.eqb code "DEPLOYMENT_REVOKED" then "DEPLOYMENT_INTERRUPTED"
      else ""
  | None =>
      if bool_decide (errDeploymentLeaseLost ∈ err) || bool_decide (Canceled ∈ err) ||
         bool_decide (DeadlineExceeded ∈ err) then "DEPLOYMENT_INTERRUPTED"
      else if bool_decide (as_cause helper_code err = Some "SKILL_DEPLOYMENT_UNAVAILABLE") then "NODE_UNAVAILABLE"
      else if bool_decide (as_cause op_network err = Some "unix") then "NODE_UNAVAILABLE"
      else if is_some (as_cause net_error err) then "TRANSFER_FAILED"
      else ""
  end.

(** An entry that is ending: a later poll attempt renews the request first. *)
Definition run_ending (e : Entry) (binding : SkillDeploymentIdentity) (attempt : Z) : prog unit :=
  pending ← expect (λ p, bool_decide (TermRecord.Binding (trecord p) = binding))
              (of_result (decodeDeploymentTermination e));
  let record := trecord pending in
  pending ←
    (if String.eqb (Status (tentry pending)) deploymentTerminationRequested &&
        (Request.LeaseAttempt (TermRecord.Request_ record) <? attempt)
     then
       intent ← perform (GetTermination binding);
       let record := match intent with
                     | Some i => record <| TermRecord.Intent := Some i |> <| TermRecord.Request_ := Intent_.Request_ i |>
                     | None => record <| TermRecord.Request_ ::= set Request.LeaseAttempt (λ _, attempt) |>
                     end in
       run_save (Some (tentry pending)) record
     else mret pending);
  resumeDeploymentTermination pending.

(** After a failed preparation: a definite failure asks for the termination. *)
Definition end_failed (taskID : string) (binding : SkillDeploymentIdentity) (attempt : Z) (err : error) : prog unit :=
  previous ← try (read_journal (λ l, load_deployment l taskID));
  match previous with
  | Err x => fail (err ++ x)
  | Ok previous =>
      if match previous with
         | Some p => String.eqb (Status (dentry p)) deploymentPreparedConfirmed
         | None => false
         end then fail err
      else
        let code := deploymentFailureReason err in
        if String.eqb code "" then fail err else
        saved ← try (run_begin binding (Request.mk attempt code) None previous);
        match saved with
        | Err x => fail (err ++ x)
        | Ok pending =>
            ended ← stopped;
            if is_some ended then fail err else resumeDeploymentTermination pending
        end
  end.

(** An attempt that is not ending. *)
Definition run_started (taskID : string) (binding : SkillDeploymentIdentity) (attempt : Z) : prog unit :=
  previous ← read_journal (λ l, load_deployment l taskID);
  if match previous with
     | Some p => negb (bool_decide (DepRecord.binding (drecord p) = binding))
     | None => false
     end then fail pending_error
  else if match previous with
     | Some p => String.eqb (Status (dentry p)) deploymentPreparedConfirmed
     | None => false
     end then prepareDeployment taskID binding attempt
  else
    intent ← perform (GetTermination binding);
    match intent with
    | Some i =>
        pending ← run_begin binding (Intent_.Request_ i) (Some i) previous;
        resumeDeploymentTermination pending
    | None =>
        prepared ← try (prepareDeployment taskID binding attempt);
        match prepared with
        | Ok _ => mret tt
        | Err err => end_failed taskID binding attempt err
        end
    end.

Definition runDeployment (taskID : string) (binding : SkillDeploymentIdentity) (attempt : Z) : prog unit :=
  if negb (valid_run taskID binding attempt) then fail pending_error else
  ended ← stopped;
  match ended with
  | Some x => fail x
  | None =>
      found ← read_journal (λ l, of_ledger (store_get l taskID));
      match found with
      | Some e =>
          if deploymentTerminationStatus (Status e) then run_ending e binding attempt else run_started taskID binding attempt
      | None => run_started taskID binding attempt
      end
  end.
Definition executeDeployment (nodeID : string) (AllowedRuntimeBackends : list string) (task : TaskEnvelope) : prog unit :=
  match decodeDeploymentTask task nodeID with
  | None => fail pending_error
  | Some binding =>
      if negb (requireBackend AllowedRuntimeBackends (Deploy.RuntimeBackend binding)) then fail pending_error
      else expect (λ _, true) (runDeployment (Task.TaskID task) binding (Task.LeaseAttempt task))
  end.
End Preparation.
End Computations.
