(* ===== verification/DeploymentRunFacts.v ===== *)
(** * What running a deployment guarantees

    The rules of Programs, applied to the computations of DeploymentRun while
    other goroutines write the same ledger ([Neighbours]: by the rules of the
    journal).  They give the write-ahead order of every run: the server and the
    helper hear of an outcome only after the ledger held it.  [DeploymentDemo]
    runs a task that is prepared and confirmed, one whose helper cannot be
    reached and which is ended, and one that the recovery races. *)

From S2P Require Import TaskLease Worker.
From S2P Require Import Prelude GoText GoTime GoJson GoUtf8 GoJsonText GoJsonValue GoJsonPrint GoJsonDecode GoJsonStruct.
From S2P Require Import Manifest StartResult Ledger TaskStore LedgerFacts StartJournal StartJournalFacts.
From S2P Require Import Deployment DeploymentCodec DeploymentPlan DeploymentPlanFacts DeploymentJournal.
From S2P Require Import DeploymentJournalFacts DeploymentRun.
From S2P Require Import Programs.
From Stdlib.Strings Require Import Ascii.

(** The integers in the helper's receipts are int64. *)
Definition reply_width (c : call) : reply c → Prop :=
  match c with PrepareDeployment _ _ => receipt_width | _ => λ _, True end.

Lemma decode_task_id task nodeID b :
  decodeDeploymentTask task nodeID = Some b →
  Deploy.Validate b = true ∧ Deploy.NodeID b = nodeID ∧ Task.TaskID task = deployment_task_id b.
Proof.
  unfold decodeDeploymentTask. cbv zeta. destruct (_ && encodable _); [|done].
  destruct (parse_json _) as [j|]; [|done]. cbn [mbind option_bind].
  destruct (decode_struct _ _ j) as [p|]; [|done]. cbn [mbind option_bind].
  destruct (_ && (Task.LeaseAttempt task <=? 2147483647)) eqn:E; [|done]. intros [= <-].
  rewrite !andb_true_iff, !String.eqb_eq in E. naive_solver.
Qed.

(** The record of an entry that is ending is one of the journal. *)
Lemma ending_status e t : deployment_phase_of (Some e) = Ending t → ∃ status, termination_status t = Some status.
Proof.
  unfold deployment_phase_of. destruct (deploymentTerminationStatus (Status e)); [|by repeat case_match].
  destruct (decodeDeploymentTermination e) as [d|] eqn:Hd; [|done]. intros [= <-].
  apply decode_term_spec in Hd as (_ & _ & Hs & _). by eexists.
Qed.

(** The branch [if negb b] of a run. *)
Ltac guard_in H :=
  match type of H with
  | context [if negb ?b then _ else _] => let E := fresh "Hguard" in destruct b eqn:E; cbn [negb] in H
  end.

Section Logic.
Context {L Env W : Type} `{DurableMap L Env} `{!Outside reply error W Env} `{!Leases W} `{!Interference L W}.
Context `{!RealWorld reply_width}.

(** ** The shared ledger *)

(** A step of the node's ledger: an operation of the deployment journal, or
    anything that leaves the entries of deployments as they are. *)
Inductive node_step : L → L → Prop :=
  | node_deployment l l' : deployment_step l l' → node_step l l'
  | node_elsewhere l l' :
      sound l' → (∀ b, content l' (deployment_task_id b) = content l (deployment_task_id b)) → node_step l l'.

Lemma node_step_sound (l l' : L) : sound l → node_step l l' → sound l'.
Proof. intros Hl Hs. destruct Hs as [l l' Hs|]; [by destruct (deployment_step_forward _ _ Hl Hs)|done]. Qed.

(** The phase of the attempt of [b]. *)
Definition phase (l : L) (b : SkillDeploymentIdentity) : deployment_phase := deployment_phase_at l (deployment_task_id b).

Lemma node_step_kept (l l' : L) b : sound l → node_step l l' → outcome_kept (phase l b) (phase l' b).
Proof.
  intros Hl Hs. destruct Hs as [l l' Hs|l l' _ Hc]; apply advances_kept.
  - by apply (deployment_step_forward _ _ Hl Hs).
  - unfold phase, deployment_phase_at. rewrite Hc. constructor.
Qed.

Lemma node_steps_kept (l l' : L) b : sound l → rtc node_step l l' → outcome_kept (phase l b) (phase l' b).
Proof.
  intros Hl Hs. induction Hs as [|l1 l2 l3 Hstep _ IH]; [apply advances_kept; constructor|].
  etrans; [by apply node_step_kept|]. apply IH. by eapply node_step_sound.
Qed.

(** The other goroutines keep the rules of the journal: they take steps of the
    node's ledger only. *)
Class Neighbours : Prop :=
  others_step w l : sound l → rtc node_step l (interrupts w l).2.

Context `{!Neighbours}.

(** When a call may be made.  The first three look at the server's side and
    change nothing. *)
Definition justified (c : call) (l : L) : Prop :=
  match c with
  | GetTermination _ | InspectDeployment _ | GetDeployment _ _ => True
  | RequestTermination b q =>
      ∃ t, phase l b = Ending t ∧ TermRecord.Binding t = b ∧ TermRecord.Request_ t = q
  | DrainDeployment _ b =>
      ∃ t i, phase l b = Ending t ∧ TermRecord.Binding t = b ∧ TermRecord.Intent t = Some i
  | InspectTermination x | ConfirmTermination x =>
      ∃ t, phase l (Intent_.Binding (Terminated.Intent x)) = Ending t ∧
           TermRecord.Intent t = Some (Terminated.Intent x) ∧ TermRecord.Drain t = Some (Terminated.Drain x)
  | ConfirmDeployment p =>
      ∃ r, DepRecord.Result r = p ∧
        (phase l (DepRecord.binding r) = Proposed r ∨ phase l (DepRecord.binding r) = Deployed r)
  | PrepareDeployment _ input =>
      phase l (Identity_ input) = NotStarted ∨ ∃ r, phase l (Identity_ input) = Proposed r
  end.

(** The attempt a call is about. *)
Definition about (c : call) : SkillDeploymentIdentity :=
  match c with
  | GetTermination b | RequestTermination b _ | GetDeployment b _ | DrainDeployment _ b => b
  | InspectTermination x | ConfirmTermination x => Intent_.Binding (Terminated.Intent x)
  | InspectDeployment p | ConfirmDeployment p => DepRecord.binding (DepRecord.mk 1 p)
  | PrepareDeployment _ input => Identity_ input
  end.

(** The task of a call. *)
Definition called (c : call) : string := deployment_task_id (about c).

(** Calls whose justification no goroutine can take back. *)
Definition lasting (c : call) : bool :=
  match c with
  | GetTermination _ | InspectDeployment _ | GetDeployment _ _
  | DrainDeployment _ _ | InspectTermination _ | ConfirmTermination _ => true
  | RequestTermination _ _ | ConfirmDeployment _ | PrepareDeployment _ _ => false
  end.

Lemma justified_phase c (l l' : L) :
  content l' (called c) = content l (called c) → justified c l → justified c l'.
Proof.
  unfold called. intros Hc. assert (Hp : ∀ b, about c = b → phase l' b = phase l b).
  { intros b <-. unfold phase, deployment_phase_at. by rewrite Hc. }
  destruct c; cbn in *; try done; try (rewrite Hp; done).
  intros (x & <- & Hx). exists x. split; [done|]. by rewrite (Hp (DepRecord.binding x)).
Qed.

Lemma justified_kept c (l l' : L) :
  sound l → rtc node_step l l' → lasting c = true → justified c l → justified c l'.
Proof.
  intros Hl Hs. pose proof (node_steps_kept _ _ (about c) Hl Hs) as Hk. destruct c; try done; cbn in *; intros _.
  - intros (t & Ht & Hi & Hd). destruct (kept_ending _ _ Hk t _ Ht Hi) as (t' & Ht' & _ & _ & Hi' & Hd' & _).
    exists t'. split_and!; [done|congruence|by apply Hd'].
  - intros (t & Ht & Hi & Hd). destruct (kept_ending _ _ Hk t _ Ht Hi) as (t' & Ht' & _ & _ & Hi' & Hd' & _).
    exists t'. split_and!; [done|congruence|by apply Hd'].
  - intros (t & i & Ht & Hb & Hi). destruct (kept_ending _ _ Hk t _ Ht Hi) as (t' & Ht' & Hb' & _ & Hi' & _ & _).
    exists t', i. split_and!; [done|congruence|congruence].
Qed.

#[local] Abbreviation program := (prog call error L W).

Section Begun.
(** The ledger at which a run began. *)
Context (start : L).

(** What is known of the ledger throughout the run. *)
Definition running (l : L) : Prop := sound l ∧ rtc node_step start l.

Lemma running_step l l' : running l → node_step l l' → running l'.
Proof. intros [Hl Hs] Hstep. split; [by eapply node_step_sound|by eapply rtc_r]. Qed.

Lemma running_sound l : running l → sound l.
Proof. by intros [? _]. Qed.

Lemma running_others w l : running l → rtc node_step l (interrupts w l).2.
Proof. intros [? _]. by apply others_step. Qed.

#[local] Abbreviation since := (since (W := W) (Step := node_step) (good := running)).

#[local] Abbreviation undisturbed := (undisturbed (W := W) (good := running)).

Lemma running_since k J : undisturbed (since k J).
Proof. apply (settled_since running_sound running_others). Qed.

Lemma settled_any : undisturbed (λ _, True).
Proof. done. Qed.

(** What the ledger held when the run last looked, before a call. *)
Definition backed (c : call) (l : L) : Prop := since (called c) (justified c) l.

#[local] Abbreviation obeys :=
  (obeys (W := W) (X := error) (Step := node_step) (justified := backed) (good := running)).

Lemma obeys_op {A} scope k J (op : Env → L → L * result error A) Q :
  covers (W := W) scope →
  (∀ env l l' r, timely env → sound l → since k J l → op env l = (l', r) →
     deployment_step l l' ∧ (∀ k, ¬ scope k → content l' k = content l k) ∧ ∀ a, r = Ok a → Q l' a) →
  obeys scope (since k J) (shared (journal op)) Q.
Proof.
  intros Hcov Hop. apply (obeys_shared running_step running_sound running_others); [done|apply running_since|].
  apply (obeys_journal running_step). intros env l l' r Ht [Hl _] HJ Hrun.
  destruct (Hop env l l' r Ht Hl HJ Hrun) as (Hs & ? & ?). split_and!; [by constructor|done|done].
Qed.

Lemma obeys_look {A} scope (I : L → Prop) (op : L → result error A) (Q : L → A → Prop) :
  covers (W := W) scope → undisturbed I → (∀ l a, running l → I l → op l = Ok a → Q l a) →
  obeys scope I (shared (read_journal op)) Q.
Proof.
  intros Hcov Hset Hop. apply (obeys_shared running_step running_sound running_others); [done|done|]. by apply obeys_read.
Qed.

Lemma obeys_call scope k J (c : call) :
  covers (W := W) scope → called c = k → (∀ l, running l → J l → justified c l) →
  obeys scope (since k J) (shared (perform c)) (λ l a, since k J l ∧ reply_width c a).
Proof.
  intros Hcov <- HJ. apply (obeys_shared running_step running_sound running_others); [done|apply running_since|].
  apply obeys_perform. intros l _. by apply since_weaken.
Qed.

(** A call that needs no justification. *)
Lemma obeys_ask scope k J (c : call) :
  covers (W := W) scope → (∀ l, justified c l) →
  obeys scope (since k J) (shared (perform c)) (λ l a, since k J l ∧ reply_width c a).
Proof.
  intros Hcov HJ. apply (obeys_shared running_step running_sound running_others); [done|apply running_since|].
  apply obeys_perform. intros l Hl _. by apply since_now.
Qed.

(** Nothing is known of the ledger at first. *)
Lemma obeys_first {A} scope k (p : program A) Q :
  obeys scope (since k (λ _, True)) p Q → obeys scope (λ _, True) p Q.
Proof. intros Hp. eapply obeys_weaken; [exact Hp| |done]. intros l Hl _. by apply since_now. Qed.

(** Facts of the entry that are not about the ledger. *)
Lemma obeys_fact {A} scope k J (P : Prop) (p : program A) Q :
  (∀ l, J l → P) → (P → obeys scope (since k J) p Q) → obeys scope (since k J) p Q.
Proof. intros HP. apply obeys_pure. intros l. by apply since_pure. Qed.

(** ** Operations of the journal *)

(** The task of [b], and what the other goroutines do besides. *)
Definition task_scope (id : string) : string → Prop := λ k, untouched (W := W) (L := L) k → k = id.

Definition task_of (b : SkillDeploymentIdentity) : string → Prop := task_scope (deployment_task_id b).

Lemma task_scope_covers id : covers (W := W) (task_scope id).
Proof.
  intros k w l Hk Hl. apply dec_stable. intros Hne. apply Hk. intros Hu. by destruct (Hne (Hu w l Hl)).
Qed.

Lemma task_scope_not id k : ¬ task_scope id k → k ≠ id.
Proof. intros Hk ->. by apply Hk. Qed.

Lemma task_covers b : covers (W := W) (task_of b).
Proof. apply task_scope_covers. Qed.

Lemma task_not b k : ¬ task_of b k → k ≠ deployment_task_id b.
Proof. apply task_scope_not. Qed.

#[local] Hint Resolve task_covers task_not : core.

(** The entry of the ledger at some moment. *)
Definition current_term (t : deploymentTerminationEntry) (l : L) : Prop :=
  content l (deployment_task_id (TermRecord.Binding (trecord t))) = Some (tentry t) ∧ term_known t.

Definition current_dep (p : deploymentEntry) (l : L) : Prop :=
  content l (deployment_task_id (DepRecord.binding (drecord p))) = Some (dentry p) ∧ dep_known p.

(** The attempt has an outcome that is recorded for good. *)
Definition concluded (l : L) (b : SkillDeploymentIdentity) : Prop :=
  (∃ r, phase l b = Deployed r ∧ DepRecord.binding r = b) ∨
  (∃ t o, phase l b = Ending t ∧ TermRecord.Binding t = b ∧ TermRecord.Confirmation t = Some o).

Lemma current_phase l t : current_term t l → phase l (TermRecord.Binding (trecord t)) = Ending (trecord t).
Proof. intros [Hc [Hd _]]. unfold phase, deployment_phase_at. rewrite Hc. by apply phase_ending. Qed.

Lemma current_dep_phase l p :
  current_dep p l →
  phase l (DepRecord.binding (drecord p)) =
    if String.eqb (Status (dentry p)) deploymentPreparedPending then Proposed (drecord p) else Deployed (drecord p).
Proof. intros [Hc [Hd _]]. unfold phase, deployment_phase_at. rewrite Hc. by apply phase_dep. Qed.

Lemma put_effect env (l : L) prev r l' x :
  timely env → sound l → term_width r → (∀ y, prev = Some y → proper y) →
  put_termination env l prev r = (l', x) →
  deployment_step l l' ∧ (∀ k, k ≠ deployment_task_id (TermRecord.Binding r) → content l' k = content l k) ∧
  (x = Ok tt → is_some (termination_status r) = true).
Proof.
  intros Ht Hl Hw Hprev Hrun. split.
  { pose proof (dstep_save env l prev r Ht Hw Hprev) as Hs. by rewrite save_put, Hrun in Hs. }
  unfold put_termination in Hrun.
  destruct (termination_status r) as [status|] eqn:Hst; [|by injection Hrun as <- <-].
  destruct (match prev with Some p => may_replace p r | None => Ok tt end) as [[]|err]; [|by injection Hrun as <- <-].
  destruct (term_payload r status (conj Hst Hw)) as (m & Hp & Hs & Hobj). rewrite Hp in Hrun.
  destruct (term_entry env r status m Ht (conj Hst Hw) Hs Hobj) as (Ha & Hd). cbv zeta in Hrun.
  set (e := mkEntry _ status _ _ _) in *. destruct (store_swap env l prev e) as [l1 y] eqn:Hswap.
  injection Hrun as <- <-. split; [by apply (swap_frame _ _ _ _ _ _ Hl Ha Hprev Hswap)|done].
Qed.

(** Structs that print alike are alike. *)
Lemma printed_term r r' status status' :
  term_writable r status → term_writable r' status' →
  print_value compact 0 (encode_struct TermRecord.fields r) = print_value compact 0 (encode_struct TermRecord.fields r') →
  r = r'.
Proof.
  intros Hw Hw' Heq. destruct (term_carried r _ Hw) as (Hf & _ & Hd). destruct (term_carried r' _ Hw') as (Hf' & _ & Hd').
  assert (Hh : ∀ x, (height (encode_struct TermRecord.fields x) ≤ max_depth)%nat).
  { intros x. etrans; [apply term_height|]. unfold max_depth. lia. }
  pose proof (parse_printed compact 0 _ ltac:(done) Hf (Hh r)) as Hp. rewrite Heq in Hp.
  rewrite (parse_printed compact 0 _ ltac:(done) Hf' (Hh r')) in Hp. apply (inj Some) in Hp.
  pose proof (Hd _ TermRecord.zero compact 0%nat ltac:(done) (same_refl _)) as He1.
  pose proof (Hd' _ TermRecord.zero compact 0%nat ltac:(done) (same_refl _)) as He2.
  rewrite <- Hp in He1. congruence.
Qed.

Lemma read_back_found l r saved :
  sound l → is_some (termination_status r) = true → term_width r →
  read_back l (deployment_task_id (TermRecord.Binding r)) r = Ok saved → trecord saved = r ∧ current_term saved l.
Proof.
  intros Hl Hst Hw. unfold read_back. rewrite get_spec by done. destruct (in_doubt l); [done|].
  destruct (content l _) as [e|] eqn:Hc; [|done]. intros Hrun. apply bind_Ok_inv in Hrun as (d & Hd & Hrun).
  go_inv Hrun. apply Ok_inj in Hrun. subst d. apply String.eqb_eq in Hguard.
  pose proof Hd as (He & _ & Hsd & Hid & _)%decode_term_spec. destruct (content_proper l _ _ Hl Hc) as [Hp Htask].
  assert (Hk : term_known saved) by (unfold term_known; by rewrite He).
  destruct (termination_status r) as [status|] eqn:Hs; [|done].
  destruct (term_known_facts saved Hk) as [Hws _].
  pose proof (printed_term _ _ _ status Hws ltac:(done) Hguard) as Heq. split; [done|]. split; [|done]. by rewrite Heq, He.
Qed.

Lemma restore_effect env (l : L) t o l' x :
  timely env → sound l → term_known t → restoreConfirmedPreparation env l t o = (l', x) →
  deployment_step l l' ∧
  (∀ k, k ≠ deployment_task_id (TermRecord.Binding (trecord t)) → content l' k = content l k) ∧
  (x = Ok tt → concluded l' (TermRecord.Binding (trecord t))).
Proof.
  intros Ht Hl Hk Hrun. split.
  { pose proof (dstep_restore env l t o Ht Hk) as Hs. by rewrite Hrun in Hs. }
  unfold restoreConfirmedPreparation in Hrun.
  destruct (TermRecord.Preparation (trecord t)) as [p|] eqn:Hp; [|by injection Hrun as <- <-].
  destruct (term_known_facts t Hk) as [[Hst Hw] Hid].
  pose proof Hst as (_ & _ & _ & Hpr & _)%termination_status_spec. destruct (Hpr p Hp) as [Hv Hb].
  assert (Hwr : dep_writable (DepRecord.mk 1 p)) by (split_and!; [done|done|by apply Hw]).
  destruct (dep_payload _ Hwr) as (m & Hpay & Hs & Hm). rewrite Hpay in Hrun.
  guard_in Hrun; [|by injection Hrun as <- <-].
  destruct (dep_entry env _ (TaskID (tentry t)) deploymentPreparedConfirmed m Ht Hwr) as (Ha & Hd & Hs');
    [by rewrite Hid; unfold DepRecord.binding; cbn; rewrite Hb|by right|done|done|].
  set (e := mkEntry _ _ _ _ _) in *. destruct (store_swap env l (Some (tentry t)) e) as [l1 y] eqn:Hswap.
  injection Hrun as <- <-.
  assert (Hprev : ∀ y, Some (tentry t) = Some y → proper y) by (intros z [= <-]; by destruct Hk).
  split; [intros k Hne; apply (swap_frame _ _ _ _ _ _ Hl Ha Hprev Hswap); by rewrite <- Hid in Hne|].
  destruct y as [[]|]; [|done]. intros _. left. exists (DepRecord.mk 1 p).
  destruct (swap_written _ _ _ _ _ Hl Ha Hprev Hswap) as (_ & _ & Hc').
  change (TaskID e) with (TaskID (tentry t)) in Hc'. rewrite Hid in Hc'. split; [|done].
  unfold phase, deployment_phase_at. by rewrite Hc', (phase_dep _ _ Hd), Hs'.
Qed.

Lemma load_dep_found l id p :
  sound l → load_deployment l id = Ok (Some p) →
  id = deployment_task_id (DepRecord.binding (drecord p)) ∧ current_dep p l.
Proof.
  intros Hl. unfold load_deployment. rewrite get_spec by done. destruct (in_doubt l); [done|]. cbn.
  destruct (content l id) as [e|] eqn:Hc; [|done]. intros H'. apply bind_Ok_inv in H' as (d & Hd & Heq).
  apply Ok_inj in Heq. injection Heq as <-.
  pose proof Hd as (He & _ & _ & _ & _ & Hid & _)%decode_dep_spec. subst e.
  destruct (content_proper l id _ Hl Hc) as [Hp Hid']. rewrite Hid in Hid'. split; [done|].
  rewrite <- Hid' in Hc. by split.
Qed.

Lemma load_dep_absent l id :
  sound l → load_deployment l id = Ok None → content l id = None.
Proof.
  intros Hl. unfold load_deployment. rewrite get_spec by done. destruct (in_doubt l); [done|]. cbn.
  destruct (content l id) as [e|]; [|done]. intros H'. by apply bind_Ok_inv in H' as (d & Hd & Heq).
Qed.

(** A confirmed preparation is one for good. *)
Lemma deployed_kept (l l' : L) b r :
  sound l → rtc node_step l l' → phase l b = Deployed r → phase l' b = Deployed r.
Proof. intros Hl Hs Hr. by rewrite (kept_deployed _ _ (node_steps_kept _ _ b Hl Hs) r Hr). Qed.

Lemma put_confirmation_effect env (l : L) p o l' x :
  timely env → sound l → since (deployment_task_id (DepRecord.binding (drecord p))) (current_dep p) l →
  put_confirmation env l p o = (l', x) →
  deployment_step l l' ∧
  (∀ k, k ≠ deployment_task_id (DepRecord.binding (drecord p)) → content l' k = content l k) ∧
  (x = Ok true → concluded l' (DepRecord.binding (drecord p))).
Proof.
  intros Ht Hl (seen & [Hseen _] & Hcur & Hsteps & _) Hrun. pose proof Hcur as [_ Hk]. split.
  { pose proof (dstep_confirm env l p o Ht Hk) as Hs. by rewrite confirm_put, Hrun in Hs. }
  unfold put_confirmation in Hrun. cbv zeta in Hrun. guard_in Hrun; [|by injection Hrun as <- <-].
  destruct (String.eqb_spec (Status (dentry p)) deploymentPreparedConfirmed) as [Hs|_].
  { injection Hrun as <- <-. split; [done|]. intros _. left. exists (drecord p). split; [|done].
    apply (deployed_kept seen); [done|done|]. by rewrite (current_dep_phase _ _ Hcur), Hs. }
  destruct (String.eqb_spec (Status (dentry p)) deploymentPreparedPending) as [Hs|]; cbn [negb] in Hrun;
    [|by injection Hrun as <- <-].
  destruct (confirmed_dep_entry env p Ht Hk) as [Ha Hph]. set (e := (dentry p) <| Status := _ |>) in *.
  assert (Hprev : ∀ y, Some (dentry p) = Some y → proper y) by (intros z [= <-]; by destruct Hk).
  destruct (dep_known_facts p Hk) as (_ & Hid & _).
  destruct (store_swap env l (Some (dentry p)) e) as [l1 y] eqn:Hswap. injection Hrun as <- <-.
  pose proof (swap_frame _ _ _ _ _ _ Hl Ha Hprev Hswap) as Hframe.
  change (TaskID e) with (TaskID (dentry p)) in Hframe. rewrite Hid in Hframe. split; [done|].
  destruct y as [[]|[]]; try done. intros _. left. exists (drecord p). split; [|done].
  destruct (swap_written _ _ _ _ _ Hl Ha Hprev Hswap) as (_ & _ & Hc').
  change (TaskID e) with (TaskID (dentry p)) in Hc'. rewrite Hid in Hc'.
  unfold phase, deployment_phase_at. by rewrite Hc'.
Qed.

Lemma read_confirmation_found l p :
  sound l → dep_known p → read_confirmation l p = Ok tt → concluded l (DepRecord.binding (drecord p)).
Proof.
  intros Hl Hk. unfold read_confirmation. destruct (dep_known_facts p Hk) as (_ & -> & _).
  destruct (load_deployment l _) as [[c|]|] eqn:Hload; try done.
  destruct (_ && _) eqn:Hw; [|done]. apply andb_true_iff in Hw as [Hr Hst]. intros _.
  apply bool_decide_eq_true in Hr. apply String.eqb_eq in Hst.
  destruct (load_dep_found _ _ _ Hl Hload) as [_ Hcc]. apply current_dep_phase in Hcc.
  rewrite Hr, Hst in Hcc. left. by exists (drecord p).
Qed.

(** An outcome is one for good. *)
Lemma concluded_kept (l l' : L) b : sound l → rtc node_step l l' → concluded l b → concluded l' b.
Proof.
  intros Hl Hs [(r & Hr & Hb)|(t & o & Ht & Hb & Ho)].
  - left. exists r. split; [|done]. by apply (deployed_kept l).
  - right. assert (Hi : ∃ i, TermRecord.Intent t = Some i).
    { unfold phase, deployment_phase_at in Ht. destruct (content l _) as [e|]; [|done].
      apply ending_status in Ht as (status & (_ & _ & _ & _ & _ & _ & Hc & _)%termination_status_spec).
      destruct (Hc o Ho) as (i & _ & Hi & _). by exists i. }
    destruct Hi as [i Hi].
    destruct (kept_ending _ _ (node_steps_kept _ _ b Hl Hs) t i Ht Hi) as (t' & Ht' & Hb' & _ & _ & _ & Hc).
    exists t', o. split_and!; [done|congruence|by apply Hc].
Qed.

(** ** The operations in a run *)

Lemma obeys_save b k J prev r :
  k = deployment_task_id b → TermRecord.Binding r = b →
  (∀ l, J l → term_width r ∧ ∀ y, prev = Some y → proper y) →
  obeys (task_of b) (since k J) (run_save prev r) (λ l saved, since k (current_term saved) l ∧ trecord saved = r).
Proof.
  intros -> Hb HJ. apply (obeys_fact _ _ J (term_width r ∧ ∀ y, prev = Some y → proper y)); [done|]. intros [Hw Hprev].
  unfold run_save. rewrite Hb.
  eapply obeys_bind with (Q := λ l _, since (deployment_task_id b) (λ _, is_some (termination_status r) = true) l).
  - apply obeys_op; [done|]. intros env l l' x Ht Hl (seen & Hrun' & _ & Hs & _) Hrun.
    destruct (put_effect _ _ _ _ _ _ Ht Hl Hw Hprev Hrun) as (Hstep & Hf & Hq). rewrite Hb in Hf.
    split_and!; [done|by eauto|]. intros [] ->. apply since_now; [|by apply Hq].
    eapply (running_step l); [|by constructor]. split; [done|]. destruct Hrun' as [_ Hstart]. by etrans.
  - intros []. apply (obeys_fact _ _ _ (is_some (termination_status r) = true)); [done|]. intros Hst.
    apply obeys_look; [done|apply running_since|]. intros l saved Hl _ Hread. rewrite <- Hb in Hread.
    destruct (read_back_found l r saved) as [Hr Hc]; try done; [by apply running_sound|]. split; [|done].
    by apply since_now.
Qed.

(** A record that is [t]'s with other marks, written over [t]'s entry. *)
Lemma obeys_update k J t r :
  k = deployment_task_id (TermRecord.Binding (trecord t)) →
  TermRecord.Binding r = TermRecord.Binding (trecord t) →
  TermRecord.Preparation r = TermRecord.Preparation (trecord t) →
  (∀ l, J l → current_term t l) →
  obeys (task_of (TermRecord.Binding (trecord t))) (since k J) (run_save (Some (tentry t)) r)
    (λ l saved, since k (current_term saved) l ∧ trecord saved = r).
Proof.
  intros Hk Hb Hp HI. apply obeys_save; [done|done|]. intros l [_ Hkn]%HI. split.
  - destruct (term_known_facts t Hkn) as [[_ Hw] _]. intros p Hpr. apply Hw. by rewrite <- Hp.
  - intros y [= <-]. by destruct Hkn.
Qed.

Lemma obeys_confirm b p o :
  DepRecord.binding (drecord p) = b →
  obeys (task_of b) (since (deployment_task_id b) (current_dep p)) (run_confirm p o) (λ l _, concluded l b).
Proof.
  intros <-. apply (obeys_fact _ _ _ (dep_known p)); [by intros l [_ ?]|]. intros Hk.
  unfold run_confirm. eapply obeys_bind with
    (Q := λ l stored, running l ∧ (stored = true → concluded l (DepRecord.binding (drecord p)))).
  - apply obeys_op; [done|]. intros env l l' x Ht Hl Hsince Hrun.
    destruct (put_confirmation_effect _ _ _ _ _ _ Ht Hl Hsince Hrun) as (Hstep & Hf & Hq).
    split_and!; [done|by eauto|]. intros stored ->. split; [|by intros ->; apply Hq].
    destruct Hsince as (seen & [_ Hseen] & _ & Hs & _). eapply (running_step l); [|by constructor]. split; [done|by etrans].
  - intros [|]; [apply obeys_ret; intros l _ [_ Hq]; by apply Hq|].
    eapply obeys_weaken with (I := λ _, True) (Q := λ l _, concluded l (DepRecord.binding (drecord p))); [|done|done].
    apply obeys_look; [done|done|]. intros l [] Hl _. apply read_confirmation_found; [by apply running_sound|done].
Qed.

(** ** Terminations *)

(** The binding of an entry in hand. *)
#[local] Abbreviation bound t := (TermRecord.Binding (trecord t)).

(** [t] was the entry of its task. *)
Definition held_term (t : deploymentTerminationEntry) (l : L) : Prop :=
  since (deployment_task_id (TermRecord.Binding (trecord t))) (current_term t) l.

Lemma restored_obeys t :
  obeys (task_of (bound t)) (held_term t) (restored_success t)
    (λ l restored, if restored then concluded l (bound t) else held_term t l).
Proof.
  unfold restored_success. destruct (TermRecord.Preparation (trecord t)) as [p|]; [|by apply obeys_ret].
  eapply obeys_bind; [apply obeys_expect, (obeys_ask _ _ _ (InspectDeployment p)); done|]. intros o. cbn beta.
  eapply obeys_weaken with (I := held_term t); [|by intros l _ [[? _] _]|by intros l a _ Hq; exact Hq].
  destruct (ResultObs.Accepted o); [|by apply obeys_ret].
  apply (obeys_fact _ _ _ (term_known t)); [by intros l [_ ?]|]. intros Hk.
  eapply obeys_bind with (Q := λ l _, concluded l (bound t)); [|intros []; by apply obeys_ret].
  apply obeys_op; [done|]. intros env l l' x Ht Hl _ Hrun.
  destruct (restore_effect _ _ _ _ _ _ Ht Hl Hk Hrun) as (Hs & Hf & Hq). split_and!; [done|by eauto|].
  intros [] ->. by apply Hq.
Qed.

Lemma find_intent_obeys t :
  obeys (task_of (bound t)) (held_term t) (find_intent t)
    (λ l found, match found with Some _ => held_term t l | None => concluded l (bound t) end).
Proof.
  unfold find_intent. cbv zeta. eapply obeys_bind; [apply (obeys_ask _ _ _ (GetTermination _)); done|].
  intros [i|]; cbn beta; [apply obeys_ret; by intros l _ [Hc _]|].
  eapply obeys_bind.
  { eapply obeys_weaken; [apply restored_obeys|by intros l _ [Hc _]|by intros l a _ Hq; exact Hq]. }
  intros [|]; [by apply obeys_ret|]. eapply obeys_bind.
  - apply (obeys_call _ _ _ (RequestTermination _ _)); [done|done|]. intros l _ Hc. exists (trecord t).
    by rewrite (current_phase l t Hc).
  - intros i. case_bool_decide; [|apply obeys_fail]. apply obeys_ret. by intros l _ [Hc _].
Qed.

(** A stage that leaves an entry with the record [r]. *)
Definition staged (b : SkillDeploymentIdentity) (t : deploymentTerminationEntry)
    (r : deploymentTerminationRecord) (l : L) : Prop :=
  since (deployment_task_id b) (λ l, current_term t l ∧ trecord t = r ∧ TermRecord.Binding r = b ∧
                                     ∃ i, TermRecord.Intent r = Some i) l.

(** What is known of an entry just saved. *)
Lemma staged_intro b t r l i :
  TermRecord.Binding r = b → TermRecord.Intent r = Some i →
  since (deployment_task_id b) (current_term t) l ∧ trecord t = r → staged b t r l.
Proof. intros Hb Hi [Hs Hr]. eapply since_weaken; [|exact Hs]. intros l' _ Hc. split_and!; eauto. Qed.

Lemma revoke_obeys t :
  obeys (task_of (bound t)) (held_term t) (revoke_stage t)
    (λ l out, match out with
              | Some (t', r) => staged (bound t) t' r l
              | None => concluded l (bound t)
              end).
Proof.
  unfold revoke_stage. cbv zeta. destruct (TermRecord.Intent (trecord t)) as [i|] eqn:Hi.
  { apply obeys_ret. intros l _ Hc. by eapply staged_intro. }
  eapply obeys_bind; [apply find_intent_obeys|]. intros [i|]; [|by apply obeys_ret].
  destruct (_ && _); cbn [negb]; [|apply obeys_fail]. eapply obeys_bind.
  - apply obeys_update; [done|by destruct (trecord t)|by destruct (trecord t)|done].
  - intros saved. apply obeys_ret. intros l _ Hq. apply (staged_intro _ _ _ _ i); [by destruct (trecord t)..|exact Hq].
Qed.

Lemma drain_obeys b t r :
  obeys (task_of b) (staged b t r) (drain_stage t r)
    (λ l out, staged b out.1 out.2 l ∧ ∃ d, TermRecord.Drain out.2 = Some d).
Proof.
  unfold drain_stage. destruct (TermRecord.Drain r) as [d|] eqn:Hd; [apply obeys_ret; by eauto|].
  apply (obeys_fact _ _ _ (trecord t = r ∧ TermRecord.Binding r = b ∧ ∃ i, TermRecord.Intent r = Some i)).
  { by intros l (_ & ? & ? & ?). }
  intros (<- & <- & i & Hi). cbv zeta. eapply obeys_bind.
  { apply (obeys_call _ _ _ (DrainDeployment _ _)); [done|done|]. intros l _ (Hc & _). exists (trecord t), i.
    by rewrite (current_phase l t Hc). }
  intros d. destruct (Drain_.Validate d _); cbn [negb]; [|apply obeys_fail].
  eapply obeys_weaken with (I := staged (bound t) t (trecord t)); [|by intros l _ [? _]|by intros l a _ Hq; exact Hq].
  eapply obeys_bind.
  - apply obeys_update; [done|by destruct (trecord t)|by destruct (trecord t)|by intros l (Hc & _)].
  - intros saved. apply obeys_ret. intros l _ Hq. cbn [fst snd]. split; [|exists d; by destruct (trecord t)].
    apply (staged_intro _ _ _ _ i); [by destruct (trecord t)..|exact Hq].
Qed.

Lemma confirm_stage_obeys b t r i d :
  TermRecord.Intent r = Some i → TermRecord.Drain r = Some d →
  obeys (task_of b) (staged b t r) (confirm_stage t r (Terminated.mk i d)) (λ l _, concluded l b).
Proof.
  intros Hi Hd. apply (obeys_fact _ _ _ (trecord t = r ∧ TermRecord.Binding r = b ∧ Intent_.Binding i = b)).
  { intros l ([_ Hk] & Hr & Hb & _). split_and!; [done|done|].
    destruct (term_known_facts t Hk) as [[(_ & _ & _ & _ & Hint & _)%termination_status_spec _] _].
    rewrite Hr in Hint. destruct (Hint i Hi) as (_ & -> & _). done. }
  intros (<- & <- & Hib).
  assert (Hjust : ∀ c, c = InspectTermination (Terminated.mk i d) ∨ c = ConfirmTermination (Terminated.mk i d) →
    obeys (task_of (bound t)) (staged (bound t) t (trecord t)) (shared (perform c))
      (λ l a, staged (bound t) t (trecord t) l ∧ reply_width c a)).
  { intros c Hc. apply obeys_call; [done|destruct Hc as [->| ->]; unfold called; cbn; by rewrite Hib|].
    intros l _ (Hcur & _). destruct Hc as [->| ->]; exists (trecord t); cbn; by rewrite Hib, (current_phase l t Hcur). }
  unfold confirm_stage. eapply obeys_bind; [apply obeys_expect, (Hjust (InspectTermination _)); by left|].
  intros o. eapply obeys_weaken with (I := staged (bound t) t (trecord t));
    [|by intros l _ [[? _] _]|by intros l a _ Hq; exact Hq].
  destruct (TermRecord.Confirmation (trecord t)) as [c|] eqn:Hco.
  - case_bool_decide; [|apply obeys_fail]. apply obeys_ret. intros l _ (seen & [Hseen _] & (Hc & _) & Hs & _).
    apply (concluded_kept seen); [done|done|]. right. exists (trecord t), c. by rewrite (current_phase seen t Hc).
  - eapply obeys_bind with (Q := λ l _, staged (bound t) t (trecord t) l).
    + destruct (TermObs.Accepted o); [by apply obeys_ret|].
      eapply obeys_weaken; [apply obeys_expect, (Hjust (ConfirmTermination _)); by right|done|]. by intros l a _ [[? _] _].
    + intros accepted. eapply obeys_bind.
      * apply obeys_update; [done|by destruct (trecord t)|by destruct (trecord t)|by intros l (Hc & _)].
      * intros saved. apply obeys_ret. intros l _ [(seen & [Hseen _] & Hc & Hs & _) Hr].
        apply (concluded_kept seen); [done|done|]. right. exists (trecord saved), accepted.
        apply current_phase in Hc. rewrite Hr in Hc |- *. by destruct (trecord t).
Qed.

Lemma resume_obeys t :
  obeys (task_of (bound t)) (held_term t) (resumeDeploymentTermination t) (λ l _, concluded l (bound t)).
Proof.
  unfold resumeDeploymentTermination. eapply obeys_bind; [apply revoke_obeys|].
  intros [[t' r]|]; [|by apply obeys_ret]. eapply obeys_bind; [apply drain_obeys|]. intros [t'' r'']. cbn [fst snd].
  destruct (TermRecord.Intent r'') as [i|] eqn:Hi; [|apply obeys_fail].
  destruct (TermRecord.Drain r'') as [d|] eqn:Hd; [|apply obeys_fail].
  eapply obeys_weaken; [by apply confirm_stage_obeys|by intros l _ [Hs _]|done].
Qed.

(** ** Recovery loops *)

Definition anywhere : string → Prop := λ _, True.

Lemma anywhere_covers : covers (W := W) (L := L) anywhere.
Proof. intros k w l Hk. by destruct Hk. Qed.

#[local] Hint Resolve anywhere_covers running_since settled_any : core.

(** The entry was in the ledger. *)
Definition seen_entry (e : Entry) (l : L) : Prop := since (TaskID e) (λ l, content l (TaskID e) = Some e) l.

Lemma seen_untouched e l : seen_entry e l → untouched (W := W) (L := L) (TaskID e) → content l (TaskID e) = Some e.
Proof. intros (seen & _ & He & _ & Hc) Hu. by rewrite Hc. Qed.

(** Two entries of one task are only listed when another goroutine replaced
    one of them in between. *)
Definition apart (e f : Entry) : Prop := TaskID e = TaskID f → ¬ untouched (W := W) (L := L) (TaskID e).

Lemma apart_app l k :
  ForallOrdPairs apart l → ForallOrdPairs apart k → (∀ e f, e ∈ l → f ∈ k → apart e f) →
  ForallOrdPairs apart (l ++ k).
Proof.
  intros Hl Hk Hlk. induction Hl as [|e l He _ IH]; [done|]. cbn. constructor.
  - apply Forall_app. split; [done|]. apply list.Forall_forall. intros f Hf. apply Hlk; [by left|done].
  - apply IH. intros e' f He' Hf. apply Hlk; [by right|done].
Qed.

Lemma apart_unique es : NoDup (map TaskID es) → ForallOrdPairs apart es.
Proof.
  induction es as [|e es IH]; [constructor|]. cbn. intros [Hnew Hn]%list.NoDup_cons. constructor; [|by apply IH].
  apply list.Forall_forall. intros f Hf Heq. destruct Hnew. rewrite Heq. by apply list_elem_of_fmap_2.
Qed.

(** Entries that were in the ledger. *)
Definition listed (es : list Entry) (l : L) : Prop :=
  ForallOrdPairs apart es ∧ Forall (λ e, seen_entry e l) es.

Lemma for_each_obeys body es failures :
  (∀ e, obeys (task_scope (TaskID e)) (seen_entry e) (body e) (λ _ _, True)) →
  obeys anywhere (listed es) (for_each body es failures) (λ _ _, True).
Proof.
  intros Hbody. revert failures. induction es as [|e es IH]; intros failures; cbn [for_each].
  { destruct failures; [by apply obeys_ret|apply obeys_fail]. }
  eapply obeys_bind; [apply obeys_stopped|]. intros [x|]; [apply obeys_fail|].
  eapply obeys_bind with (Q := λ l _, listed es l); [|intros r; apply IH].
  intros h h' r Hl [Hn Hall] Hrun. inversion Hn as [|? ? Hnew Hn']; subst.
  apply list.Forall_cons in Hall as [He Hall].
  destruct (obeys_try _ _ _ _ (Hbody e) h h' r Hl He Hrun) as (Hl' & Hsteps & Hframe & Hcalls & _).
  split_and!; [done|done|by intros k []|done|]. intros a _. split; [done|].
  rewrite list.Forall_forall in Hall, Hnew |- *. intros e' He'.
  eapply since_frame; [by apply Hall|done|exact Hframe|].
  intros Hu Hscope. apply (Hnew e' He'); [by rewrite (Hscope Hu)|]. by rewrite <- (Hscope Hu).
Qed.

Lemma resume_entry_obeys nodeID e :
  obeys (task_scope (TaskID e)) (seen_entry e) (resume_entry nodeID e) (λ _ _, True).
Proof.
  unfold resume_entry. eapply obeys_bind with
    (Q := λ l t, since (TaskID e) (current_term t) l ∧ TaskID e = deployment_task_id (TermRecord.Binding (trecord t))).
  - apply obeys_result. intros l t _ Hseen Hd.
    pose proof Hd as (He & _ & _ & Hid & _)%decode_term_spec. split; [|done].
    eapply since_weaken; [|exact Hseen]. intros l' [Hl' _] Hc. cbn in Hc. rewrite Hid in Hc.
    destruct (content_proper l' _ _ Hl' Hc) as [Hp _]. split; [by rewrite Hc, He|]. by split; rewrite He.
  - intros t. destruct (String.eqb _ nodeID); cbn [negb]; [|apply obeys_fail].
    apply (obeys_pure _ (TaskID e = deployment_task_id (TermRecord.Binding (trecord t)))); [by intros l [_ ?]|].
    intros ->. eapply obeys_weaken; [apply resume_obeys|by intros l _ [? _]|done].
Qed.

(** A listing, with the status of its entries. *)
Definition held (es : list Entry) (status : string) (l : L) : Prop :=
  NoDup (map TaskID es) ∧ Forall (λ e, Status e = status ∧ seen_entry e l) es.

Lemma held_settled es status : undisturbed (held es status).
Proof.
  intros w l Hl [Hn Hall]. split; [done|]. eapply list.Forall_impl; [exact Hall|]. intros e [Hs He].
  split; [done|]. by apply running_since.
Qed.

Lemma settled_and (I J : L → Prop) : undisturbed I → undisturbed J → undisturbed (λ l, I l ∧ J l).
Proof. intros HI HJ w l Hl [? ?]. split; [by apply HI|by apply HJ]. Qed.

Lemma list_held l status es : running l → of_ledger (store_list l status) = Ok es → held es status l.
Proof.
  intros Hl Hrun. pose proof Hl as [Hsound _].
  destruct (in_doubt l) eqn:Hd; [by rewrite list_doubt in Hrun|].
  destruct (list_spec l status Hsound Hd) as (out & Hout & Hnd & Hmem). rewrite Hout in Hrun.
  apply Ok_inj in Hrun. subst es. split; [done|]. apply list.Forall_forall. intros e [? ?]%Hmem. split; [done|].
  by apply since_now.
Qed.

Lemma held_listed es status l : held es status l → listed es l.
Proof.
  intros [Hn Hall]. split; [by apply apart_unique|]. eapply list.Forall_impl; [exact Hall|]. by intros e [_ ?].
Qed.

Lemma held_status es status l e : held es status l → e ∈ es → Status e = status.
Proof. intros [_ Hall] He. rewrite list.Forall_forall in Hall. by apply Hall. Qed.

(** Listings of different statuses together. *)
Lemma listed_app l es fs :
  listed es l → listed fs l → (∀ e f, e ∈ es → f ∈ fs → Status e ≠ Status f) → listed (es ++ fs) l.
Proof.
  intros [Hn1 Hall1] [Hn2 Hall2] Hne. split; [|by apply Forall_app]. apply apart_app; [done|done|].
  intros e f He Hf Heq Hu. rewrite list.Forall_forall in Hall1, Hall2. apply (Hne e f He Hf).
  pose proof (seen_untouched e l (Hall1 e He) Hu) as Hce.
  pose proof (seen_untouched f l (Hall2 f Hf) ltac:(by rewrite <- Heq)) as Hcf. rewrite <- Heq in Hcf. congruence.
Qed.

Lemma terminations_obey nodeID :
  obeys anywhere (λ _, True) (recoverDeploymentTerminations nodeID) (λ _ _, True).
Proof.
  unfold recoverDeploymentTerminations.
  eapply obeys_bind with (Q := λ l es, held es deploymentTerminationRequested l).
  { apply obeys_look; [done|done|]. intros l es Hl _. by apply list_held. }
  intros es1. eapply obeys_bind with (Q := λ l es, held es1 deploymentTerminationRequested l ∧
                                                   held es deploymentTerminationRevoked l).
  { apply obeys_look; [done|apply held_settled|]. intros l es Hl Hes1 Hr. split; [done|by apply list_held]. }
  intros es2. eapply obeys_bind with (Q := λ l es, listed (es1 ++ es2 ++ es) l).
  { apply obeys_look; [done|apply settled_and; apply held_settled|]. intros l es Hl [Hes1 Hes2] Hes3%list_held; [|done].
    apply listed_app; [by eapply held_listed|apply listed_app; [by eapply held_listed..|]|].
    - intros e f He Hf. by rewrite (held_status _ _ _ _ Hes2 He), (held_status _ _ _ _ Hes3 Hf).
    - intros e f He [Hf|Hf]%elem_of_app; rewrite (held_status _ _ _ _ Hes1 He);
        [by rewrite (held_status _ _ _ _ Hes2 Hf)|by rewrite (held_status _ _ _ _ Hes3 Hf)]. }
  intros es3. apply for_each_obeys. apply resume_entry_obeys.
Qed.

(** ** Preparations *)

Lemma obeys_begin b k J q intent previous :
  k = deployment_task_id b → (∀ l p, J l → previous = Some p → dep_known p) →
  obeys (task_of b) (since k J) (run_begin b q intent previous)
    (λ l saved, held_term saved l ∧ TermRecord.Binding (trecord saved) = b).
Proof.
  intros Hk HJ. unfold run_begin.
  eapply obeys_weaken; [apply (obeys_save b k J)| |]; [done|done| |done|].
  - intros l Hl. destruct previous as [p|]; [|by split; [intros p|intros y]].
    pose proof (HJ l p Hl eq_refl) as Hkn. destruct (dep_known_facts p Hkn) as ((_ & _ & Hw) & _). split.
    + by intros x [= <-].
    + intros y [= <-]. by destruct Hkn.
  - intros l saved _ [Hc Hr]. unfold held_term. rewrite Hr. cbn. by rewrite <- Hk.
Qed.

Lemma write_proposal_eq env (l : L) id r prev m :
  payload_of (encode_struct DepRecord.fields r) = Some m →
  write_proposal env l id r prev =
    let '(l', x) := store_swap env l prev (mkEntry id deploymentPreparedPending (Some m) None zero_time) in
    (l', of_ledger x).
Proof. intros Hm. unfold write_proposal. by rewrite Hm. Qed.

Lemma write_effect env (l : L) id r prev l' x :
  timely env → sound l → dep_writable r → id = deployment_task_id (DepRecord.binding r) →
  (∀ y, prev = Some y → proper y) → write_proposal env l id r prev = (l', x) →
  (∀ k, k ≠ id → content l' k = content l k) ∧ (x = Ok tt → phase l' (DepRecord.binding r) = Proposed r).
Proof.
  intros Ht Hl Hwr Hid Hy Hrun.
  destruct (dep_payload _ Hwr) as (m & Hp & Hs & Hm). rewrite (write_proposal_eq _ _ _ _ _ m Hp) in Hrun.
  destruct (dep_entry env _ id deploymentPreparedPending m Ht Hwr Hid ltac:(by left) Hs Hm) as (Ha & Hd & Hst).
  set (e := mkEntry _ _ _ _ _) in *. destruct (store_swap env l prev e) as [l1 y] eqn:Hswap. injection Hrun as <- <-.
  split; [exact (swap_frame _ _ _ _ _ _ Hl Ha Hy Hswap)|]. destruct y as [[]|]; [|done]. intros _.
  destruct (swap_written _ _ _ _ _ Hl Ha Hy Hswap) as (_ & _ & Hc).
  change (TaskID e) with id in Hc. unfold phase, deployment_phase_at. by rewrite <- Hid, Hc, (phase_dep _ _ Hd), Hst.
Qed.

(** Whether the proposal is the one that is in hand already. *)
Definition made_again (r : SkillDeploymentPreparedResult) (prev : option deploymentEntry) : bool :=
  match prev with Some p => bool_decide (drecord p = DepRecord.mk 1 r) | None => false end.

Lemma put_proposal_effect env (l : L) id r prev obs l' x :
  timely env → sound l → sane_deployment env r prev → put_proposal env l id r prev obs = (l', x) →
  deployment_step l l' ∧ (∀ k, k ≠ id → content l' k = content l k) ∧
  (x = Ok tt → id = deployment_task_id (DepRecord.binding (DepRecord.mk 1 r)) ∧
     (made_again r prev = true ∨ phase l' (DepRecord.binding (DepRecord.mk 1 r)) = Proposed (DepRecord.mk 1 r))).
Proof.
  intros Ht Hl Hsane Hrun. split.
  { pose proof (dstep_propose env l id r prev obs Hsane) as Hs. by rewrite propose_put, Hrun in Hs. }
  destruct Hsane as (_ & Hw & Hprev). unfold put_proposal in Hrun. cbv zeta in Hrun.
  guard_in Hrun; [|by injection Hrun as <- <-]. apply andb_true_iff in Hguard as [Hv Hid%String.eqb_eq].
  assert (Hwrite : ∀ y, (∀ z, y = Some z → proper z) → write_proposal env l id (DepRecord.mk 1 r) y = (l', x) →
    (∀ k, k ≠ id → content l' k = content l k) ∧
    (x = Ok tt → id = deployment_task_id (DepRecord.binding (DepRecord.mk 1 r)) ∧
       (made_again r prev = true ∨ phase l' (DepRecord.binding (DepRecord.mk 1 r)) = Proposed (DepRecord.mk 1 r)))).
  { intros y Hy Hwr. assert (Hwd : dep_writable (DepRecord.mk 1 r)) by done.
    destruct (write_effect env l id (DepRecord.mk 1 r) y l' x Ht Hl Hwd Hid Hy Hwr) as [Hf Hq].
    split; [exact Hf|]. intros Hx. split; [exact Hid|]. right. exact (Hq Hx). }
  revert Hwrite Hrun. generalize (write_proposal env l id (DepRecord.mk 1 r)). intros write Hwrite Hrun.
  destruct prev as [q|]; [|by apply (Hwrite None)].
  guard_in Hrun; [|by injection Hrun as <- <-].
  destruct (bool_decide (drecord q = DepRecord.mk 1 r)) eqn:Hsame.
  { injection Hrun as <- <-. split; [done|]. intros _. split; [done|]. by left. }
  guard_in Hrun; [|by injection Hrun as <- <-]. apply (Hwrite (Some (dentry q))); [|done].
  intros y [= <-]. by destruct (Hprev q eq_refl).
Qed.

(** The entry found after a proposal: it may be a later one, but of the same
    attempt. *)
Lemma read_proposal_found (l : L) r prev p :
  sound l → read_proposal l (deployment_task_id (DepRecord.binding (DepRecord.mk 1 r))) r prev = Ok (Some p) →
  current_dep p l ∧ (made_again r prev = true → DepRecord.binding (drecord p) = DepRecord.binding (DepRecord.mk 1 r)).
Proof.
  intros Hl. unfold read_proposal. cbv zeta. fold (made_again r prev). destruct (made_again r prev).
  - destruct (load_deployment l _) as [[c|]|] eqn:Hload; try done. case_bool_decide as Hr; [|done]. intros [= <-].
    destruct (load_dep_found _ _ _ Hl Hload) as [_ Hc]. split; [done|]. intros _. by rewrite Hr.
  - intros Hload. by destruct (load_dep_found _ _ _ Hl Hload).
Qed.

Lemma propose_obeys b J r prev obs :
  DepRecord.binding (DepRecord.mk 1 r) = b → prepared_width r → (∀ l q, J l → prev = Some q → dep_known q) →
  obeys (task_of b) (since (deployment_task_id b) J) (run_propose (deployment_task_id b) r prev obs)
    (λ l saved, ∀ p, saved = Some p → since (deployment_task_id b) (current_dep p) l ∧ DepRecord.binding (drecord p) = b).
Proof.
  intros Hb Hw HJ. apply (obeys_fact _ _ J (∀ q, prev = Some q → dep_known q)); [by eauto|]. intros Hprev.
  unfold run_propose. eapply obeys_bind with
    (Q := λ l _, since (deployment_task_id b) (λ l, made_again r prev = true ∨ phase l b = Proposed (DepRecord.mk 1 r)) l).
  - apply obeys_op; [done|]. intros env l l' x Ht Hl (seen & [_ Hseen] & _ & Hs & _) Hrun.
    destruct (put_proposal_effect env l _ r prev obs l' x Ht Hl ltac:(done) Hrun) as (Hstep & Hf & Hq).
    split_and!; [done|by eauto|]. intros [] ->. destruct (Hq eq_refl) as [_ Hor]. rewrite Hb in Hor.
    apply since_now; [|done]. eapply (running_step l); [|by constructor]. split; [done|by etrans].
  - intros []. apply obeys_look; [done|apply running_since|].
    intros l saved Hl (seen & [Hseen _] & Hor & Hs & _) Hread p ->.
    rewrite <- Hb in Hread. destruct (read_proposal_found l r prev p (running_sound _ Hl) Hread) as [Hc Hagain].
    assert (Hpb : DepRecord.binding (drecord p) = b).
    { destruct Hor as [Hmade|Hp]; [by rewrite Hagain|].
      assert (Hid : phase l (DepRecord.binding (drecord p)) = phase l b).
      { rewrite Hb in Hread. unfold read_proposal in Hread. cbv zeta in Hread. fold (made_again r prev) in Hread.
        unfold phase. f_equal. destruct (made_again r prev).
        - by rewrite Hagain, Hb.
        - by destruct (load_dep_found _ _ _ (running_sound _ Hl) Hread) as [-> _]. }
      pose proof (current_dep_phase _ _ Hc) as Hph. rewrite Hid in Hph.
      pose proof (kept_binding _ _ (node_steps_kept _ _ b Hseen Hs) b) as Hk. rewrite Hp, Hph in Hk.
      cbn in Hk. specialize (Hk (f_equal Some Hb)). destruct (String.eqb _ _) in Hk; by injection Hk. }
    split; [|done]. by apply since_now.
Qed.

(** The entry a preparation starts from. *)
Definition startable (b : SkillDeploymentIdentity) (previous : option deploymentEntry) (l : L) : Prop :=
  match previous with
  | None => content l (deployment_task_id b) = None
  | Some p => current_dep p l ∧ DepRecord.binding (drecord p) = b ∧
              Status (dentry p) = deploymentPreparedPending
  end.

Lemma startable_justified b previous l op input :
  startable b previous l → Identity_ input = b → justified (PrepareDeployment op input) l.
Proof.
  intros Hs Hb. cbn. rewrite Hb. destruct previous as [p|].
  - destruct Hs as (Hc & <- & Hst). right. exists (drecord p). by rewrite (current_dep_phase _ _ Hc), Hst.
  - left. unfold phase, deployment_phase_at. by rewrite Hs.
Qed.

Lemma startable_known b previous l p : startable b previous l → previous = Some p → dep_known p.
Proof. intros Hl ->. by destruct Hl as [[_ ?] _]. Qed.

Section Preparations.
Context (IsNormalString : string → bool) (hex_sha256 : list Z → string).

(** The server is told of the entry that was found. *)
Lemma confirm_call_obeys b p :
  DepRecord.binding (drecord p) = b →
  obeys (task_of b) (since (deployment_task_id b) (current_dep p))
    (shared (perform (ConfirmDeployment (DepRecord.Result (drecord p)))))
    (λ l a, since (deployment_task_id b) (current_dep p) l ∧
            reply_width (ConfirmDeployment (DepRecord.Result (drecord p))) a).
Proof.
  intros <-. apply obeys_call; [done|done|]. intros l _ Hc. exists (drecord p). split; [done|].
  rewrite (current_dep_phase _ _ Hc). destruct (String.eqb _ _); [by left|by right].
Qed.

Lemma work_obeys b n previous observation :
  obeys (task_of b) (since (deployment_task_id b) (startable b previous))
    (deployment_work IsNormalString hex_sha256 (deployment_task_id b) b n previous observation)
    (λ l r, r = Ok tt → concluded l b).
Proof.
  unfold deployment_work. eapply obeys_bind; [apply (obeys_ask _ _ _ (GetDeployment b n)); done|].
  intros input. eapply obeys_weaken with (I := since (deployment_task_id b) (startable b previous));
    [|by intros l _ [? _]|by intros l a _ Hq; exact Hq].
  destruct (validate_deployment _ _ input b) eqn:Hv; cbn [negb]; [|apply obeys_fail].
  assert (Hb : Identity_ input = b).
  { unfold validate_deployment in Hv. cbv zeta in Hv. apply andb_true_iff in Hv as [[[_ Hv]%andb_true_iff _]%andb_true_iff _].
    by apply bool_decide_eq_true in Hv. }
  eapply obeys_bind; [apply (obeys_call _ _ _ (PrepareDeployment _ input)); [done|by unfold called; cbn; rewrite Hb|]|].
  { intros l _ Hs. by eapply startable_justified. }
  intros prepared. apply (obeys_pure _ (receipt_width prepared)); [by intros l [_ ?]|]. intros Hw.
  eapply obeys_weaken with (I := since (deployment_task_id b) (startable b previous));
    [|by intros l _ [? _]|by intros l a _ Hq; exact Hq].
  destruct (validate_preparation _ _ prepared input) eqn:Hp; cbn [negb]; [|apply obeys_fail].
  eapply obeys_bind; [apply obeys_stopped|]. intros [x|]; [apply obeys_fail|]. cbv zeta.
  assert (Hpb : Receipt.Binding prepared = b).
  { unfold validate_preparation in Hp. apply andb_true_iff in Hp as [_ Hp].
    destruct (InputDigest _ _ input); [|done]. rewrite !andb_true_iff, bool_decide_eq_true in Hp. naive_solver. }
  eapply obeys_bind; [apply propose_obeys; [done|done|by intros l q Hs; eapply startable_known]|].
  intros [pending|]; [|apply obeys_fail].
  apply (obeys_pure _ (DepRecord.binding (drecord pending) = b));
    [intros l Hq; by destruct (Hq _ eq_refl)|]. intros Hpend.
  eapply obeys_weaken with (I := since (deployment_task_id b) (current_dep pending));
    [|intros l _ Hq; by destruct (Hq _ eq_refl)|by intros l a _ Hq; exact Hq].
  eapply obeys_bind; [apply obeys_try, confirm_call_obeys; done|].
  intros [confirmed|x]; [|apply obeys_fail]. destruct (_ && _); cbn [negb]; [|apply obeys_fail].
  eapply obeys_weaken; [apply obeys_try, (obeys_confirm b); done|by intros l _ Hq; destruct (Hq confirmed eq_refl)|].
  intros l r _ Hq ->. by apply (Hq tt).
Qed.

Lemma prepare_leased_obeys b n previous observation :
  obeys (task_of b) (since (deployment_task_id b) (startable b previous))
    (prepare_leased IsNormalString hex_sha256 (deployment_task_id b) b n previous observation)
    (λ l _, concluded l b).
Proof.
  unfold prepare_leased. eapply obeys_bind; [apply obeys_aside|]. intros env. cbn beta.
  eapply obeys_bind with (Q := λ l r, ∀ a, r = Ok a → a = Ok tt → concluded l b).
  { destruct (work_begins (leased env)); [apply obeys_try, work_obeys|by apply obeys_ret]. }
  intros [saved|x]; [|apply obeys_fail]. apply obeys_result. intros l [] _ Hq ->. by apply (Hq (Ok tt)).
Qed.

Lemma valid_run_task taskID b n : valid_run taskID b n = true → taskID = deployment_task_id b.
Proof. unfold valid_run. rewrite !andb_true_iff, String.eqb_eq. tauto. Qed.

(** What loading the entry of [b] finds. *)
Definition loaded (b : SkillDeploymentIdentity) (previous : option deploymentEntry) (l : L) : Prop :=
  match previous with
  | None => content l (deployment_task_id b) = None
  | Some p => current_dep p l ∧ deployment_task_id b = deployment_task_id (DepRecord.binding (drecord p))
  end.

Lemma obeys_load b :
  obeys (task_of b) (λ _, True) (shared (read_journal (λ l, load_deployment l (deployment_task_id b))))
    (λ l previous, since (deployment_task_id b) (loaded b previous) l).
Proof.
  apply obeys_look; [done|done|]. intros l [p|] Hl _ Hload; (apply since_now; [done|]).
  - by destruct (load_dep_found _ _ _ (running_sound _ Hl) Hload).
  - apply load_dep_absent; [by apply running_sound|done].
Qed.

Lemma loaded_known b previous l p : loaded b previous l → previous = Some p → dep_known p.
Proof. intros Hl ->. by destruct Hl as [[_ ?] _]. Qed.

Lemma prepare_obeys b n :
  obeys (task_of b) (λ _, True) (prepareDeployment IsNormalString hex_sha256 (deployment_task_id b) b n)
    (λ l _, concluded l b).
Proof.
  unfold prepareDeployment. destruct (valid_run _ _ _); cbn [negb]; [|apply obeys_fail].
  eapply obeys_bind; [apply obeys_load|]. intros [p|]; [|exact (prepare_leased_obeys b n None None)]. cbv zeta.
  case_bool_decide as Hb; cbn [negb]; [|apply obeys_fail].
  eapply obeys_weaken with (I := since (deployment_task_id b) (current_dep p));
    [|intros l _; apply since_weaken; by intros l' _ [? _]|by intros l a _ Hq; exact Hq].
  eapply obeys_bind; [apply obeys_expect, (obeys_ask _ _ _ (InspectDeployment _)); done|]. intros o. cbn beta.
  eapply obeys_weaken with (I := since (deployment_task_id b) (current_dep p));
    [|by intros l _ [[? _] _]|by intros l a _ Hq; exact Hq].
  destruct (ResultObs.Accepted o); [by apply obeys_confirm|].
  destruct (_ || _ || _) eqn:Hg; [apply obeys_fail|]. apply orb_false_iff in Hg as [[Hs _]%orb_false_iff _].
  eapply obeys_weaken; [apply prepare_leased_obeys| |done].
  intros l _. apply since_weaken. intros l' _ Hc. split_and!; [done|done|]. destruct Hc as [_ Hk].
  destruct (dep_known_facts p Hk) as (_ & _ & _ & [?|Hst] & _); [done|]. by rewrite Hst in Hs.
Qed.

(** ** Execution *)

Lemma resume_saved b t :
  obeys (task_of b) (λ l, held_term t l ∧ TermRecord.Binding (trecord t) = b) (resumeDeploymentTermination t)
    (λ l _, concluded l b).
Proof.
  apply (obeys_pure _ (TermRecord.Binding (trecord t) = b)); [by intros l [_ ?]|]. intros <-.
  eapply obeys_weaken; [apply resume_obeys|by intros l _ [? _]|done].
Qed.

Lemma run_ending_obeys e b n :
  TaskID e = deployment_task_id b → obeys (task_of b) (seen_entry e) (run_ending e b n) (λ l _, concluded l b).
Proof.
  intros Hid. unfold run_ending. eapply obeys_bind.
  { apply obeys_expect, (obeys_result _ _ _ (λ l t, held_term t l)). intros l t _ Hseen Hd.
    pose proof Hd as (He & _ & _ & Hid' & _)%decode_term_spec. unfold held_term. rewrite <- Hid'.
    eapply since_weaken; [|exact Hseen]. intros l' [Hl' _] Hc. cbn in Hc.
    destruct (content_proper l' _ _ Hl' Hc) as [Hp _]. split; [by rewrite <- Hid', Hc, He|]. by split; rewrite He. }
  intros t. cbv zeta beta. apply (obeys_pure _ (TermRecord.Binding (trecord t) = b)).
  { intros l [_ Hb]. by apply bool_decide_eq_true in Hb. }
  intros <-. eapply obeys_bind; [|intros t'; apply resume_saved].
  destruct (_ && _); [|apply obeys_ret; by intros l _ [? _]].
  eapply obeys_weaken with (I := held_term t); [|by intros l _ [? _]|by intros l a _ Hq; exact Hq].
  eapply obeys_bind; [apply (obeys_ask _ _ _ (GetTermination _)); done|]. intros intent.
  eapply obeys_weaken; [apply (obeys_update (deployment_task_id (bound t)) (current_term t) t)| |].
  - done.
  - by destruct intent, (trecord t).
  - by destruct intent, (trecord t).
  - done.
  - by intros l _ [? _].
  - intros l saved _ [Hc Hr]. unfold held_term. rewrite Hr. by destruct intent, (trecord t).
Qed.

Lemma end_failed_obeys b n err :
  obeys (task_of b) (λ _, True) (end_failed (deployment_task_id b) b n err) (λ l _, concluded l b).
Proof.
  unfold end_failed. eapply obeys_bind; [apply obeys_try, obeys_load|]. intros [previous|x]; [|apply obeys_fail].
  eapply obeys_weaken with (I := since (deployment_task_id b) (loaded b previous));
    [|intros l _ Hq; by apply Hq|by intros l a _ Hq; exact Hq].
  destruct (match previous with Some p => _ | None => false end); [apply obeys_fail|]. cbv zeta.
  destruct (String.eqb _ ""); [apply obeys_fail|].
  eapply obeys_bind; [apply obeys_try, obeys_begin; [done|by intros l p; apply loaded_known]|].
  intros [t|x]; [|apply obeys_fail]. eapply obeys_bind; [apply obeys_stopped|]. intros ended.
  destruct (is_some ended); [apply obeys_fail|].
  eapply obeys_weaken; [apply resume_saved|intros l _ Hq; by apply Hq|done].
Qed.

Lemma run_started_obeys b n :
  obeys (task_of b) (λ _, True) (run_started IsNormalString hex_sha256 (deployment_task_id b) b n)
    (λ l _, concluded l b).
Proof.
  unfold run_started. eapply obeys_bind; [apply obeys_load|]. intros previous.
  destruct (match previous with Some p => negb _ | None => false end); [apply obeys_fail|].
  destruct (match previous with Some p => _ | None => false end).
  { eapply obeys_weaken; [apply prepare_obeys|done|done]. }
  eapply obeys_bind; [apply (obeys_ask _ _ _ (GetTermination _)); done|]. intros [i|].
  - eapply obeys_weaken with (I := since (deployment_task_id b) (loaded b previous));
      [|by intros l _ [? _]|by intros l a _ Hq; exact Hq].
    eapply obeys_bind; [apply obeys_begin; [done|by intros l p; apply loaded_known]|intros t; apply resume_saved].
  - eapply obeys_bind.
    { apply obeys_try. eapply obeys_weaken; [apply prepare_obeys|done|by intros l a _ Hq; exact Hq]. }
    intros [[]|err]; [apply obeys_ret; intros l _ Hq; by apply (Hq tt)|].
    eapply obeys_weaken; [apply end_failed_obeys|done|done].
Qed.

Lemma run_obeys taskID b n :
  obeys (task_of b) (λ _, True) (runDeployment IsNormalString hex_sha256 taskID b n) (λ l _, concluded l b).
Proof.
  unfold runDeployment. destruct (valid_run taskID b n) eqn:Hv; cbn [negb]; [|apply obeys_fail].
  apply valid_run_task in Hv as ->. eapply obeys_bind; [apply obeys_stopped|]. intros [x|]; [apply obeys_fail|].
  eapply obeys_bind with
    (Q := λ l found, ∀ e, found = Some e → seen_entry e l ∧ TaskID e = deployment_task_id b).
  { apply obeys_look; [done|done|]. intros l found Hl _ Hget e ->. pose proof Hl as [Hsound _].
    rewrite get_spec in Hget by done. destruct (in_doubt l); [done|]. apply Ok_inj in Hget.
    destruct (content_proper l _ _ Hsound Hget) as [_ Hid]. split; [|done]. apply since_now; [done|]. by rewrite Hid. }
  intros [e|]; [|eapply obeys_weaken; [apply run_started_obeys|done|done]].
  apply (obeys_pure _ (TaskID e = deployment_task_id b)); [intros l Hq; by apply Hq|]. intros Hid.
  destruct (deploymentTerminationStatus (Status e)).
  - eapply obeys_weaken; [by apply run_ending_obeys|intros l _ Hq; by apply Hq|done].
  - eapply obeys_weaken; [apply run_started_obeys|done|done].
Qed.
End Preparations.

Lemma inspect_entry_obeys nodeID e :
  obeys (task_scope (TaskID e)) (seen_entry e) (inspect_entry nodeID e) (λ _ _, True).
Proof.
  unfold inspect_entry. eapply obeys_bind with
    (Q := λ l p, since (TaskID e) (current_dep p) l ∧ TaskID e = deployment_task_id (DepRecord.binding (drecord p))).
  { apply obeys_result. intros l p _ Hseen Hd.
    pose proof Hd as (He & _ & _ & _ & _ & Hid & _)%decode_dep_spec. split; [|done].
    eapply since_weaken; [|exact Hseen]. intros l' [Hl' _] Hc. cbn in Hc. rewrite Hid in Hc.
    destruct (content_proper l' _ _ Hl' Hc) as [Hp _]. split; [by rewrite Hc, He|]. by split; rewrite He. }
  intros p. cbv zeta. destruct (String.eqb _ nodeID); cbn [negb]; [|apply obeys_fail].
  apply (obeys_pure _ (TaskID e = deployment_task_id (DepRecord.binding (drecord p)))); [by intros l [_ ?]|].
  intros ->. fold (task_of (DepRecord.binding (drecord p))).
  eapply obeys_weaken with (I := since (deployment_task_id (DepRecord.binding (drecord p))) (current_dep p));
    [|by intros l _ [? _]|by intros l a _ Hq; exact Hq].
  eapply obeys_bind; [apply obeys_expect, (obeys_ask _ _ _ (GetTermination _)); done|]. intros intent. cbn beta.
  eapply obeys_weaken with (I := since (deployment_task_id (DepRecord.binding (drecord p))) (current_dep p));
    [|by intros l _ [[? _] _]|by intros l a _ Hq; exact Hq].
  destruct intent as [i|].
  - eapply obeys_bind; [apply obeys_begin; [done|]|intros t; by apply obeys_ret]. by intros l q [_ Hk] [= <-].
  - eapply obeys_bind; [apply obeys_expect, (obeys_ask _ _ _ (InspectDeployment _)); done|]. intros o. cbn beta.
    destruct (ResultObs.Accepted o); [|by apply obeys_ret].
    eapply obeys_weaken; [by apply obeys_confirm|by intros l _ [[? _] _]|done].
Qed.

Lemma recovery_obeys nodeID :
  obeys anywhere (λ _, True) (recoverDeploymentConfirmations nodeID) (λ _ _, True).
Proof.
  unfold recoverDeploymentConfirmations. eapply obeys_bind.
  { apply obeys_try. unfold inspectPendingDeployments. eapply obeys_bind.
    - apply obeys_look; [done|done|]. intros l es Hl _ Hr. eapply held_listed. exact (list_held _ _ _ Hl Hr).
    - intros es. apply for_each_obeys. apply inspect_entry_obeys. }
  intros r1. eapply obeys_bind.
  { eapply obeys_weaken; [apply obeys_try, terminations_obey|done|done]. }
  intros r2. destruct (_ && _); [by apply obeys_ret|apply obeys_fail].
Qed.

Lemma execute_obeys IsNormalString hex_sha256 nodeID backends task :
  obeys (task_scope (Task.TaskID task)) (λ _, True)
    (executeDeployment IsNormalString hex_sha256 nodeID backends task)
    (λ l _, ∃ b, decodeDeploymentTask task nodeID = Some b ∧ concluded l b).
Proof.
  unfold executeDeployment. destruct (decodeDeploymentTask task nodeID) as [b|] eqn:Hb; [|apply obeys_fail].
  destruct (requireBackend _ _); cbn [negb]; [|apply obeys_fail].
  destruct (decode_task_id _ _ _ Hb) as (_ & _ & ->). eapply obeys_weaken.
  - apply obeys_expect, run_obeys.
  - done.
  - intros l [] _ [Hc _]. by exists b.
Qed.
End Begun.

(** C8: the deployment worker writes ahead.  Whatever the server, the helper,
    the clock and the file system answer, and whatever the other goroutines do
    to the shared ledger in between, as long as they keep the rules of the
    journal: executing a deployment task or a round of recovery only moves the
    journal through its operations, and makes every call on the ground of what
    it found in the ledger after it began.  A termination is requested only
    when the request was recorded, the helper drains only when the server's
    intent was recorded, the end of the attempt is reported only when intent
    and drain were, a preparation is reported only when it was proposed, and
    the helper prepares an attempt only when it was neither ending nor
    confirmed; looking at the server's side needs no record.  Intent and drain
    are recorded for good, so the ledger holds them when the call is made; and
    if no other goroutine touches the task, the ledger holds whatever justifies
    the call. *)
Theorem deployment_write_ahead IsNormalString hex_sha256 nodeID backends task (h h' : host call L W) r :
  sound (store h) →
  executeDeployment IsNormalString hex_sha256 nodeID backends task h = (h', r) ∨
    recoverDeploymentConfirmations nodeID h = (h', r) →
  rtc node_step (store h) (store h') ∧
  ∃ calls, trace h' = trace h ++ calls ∧ ∀ c l, (c, l) ∈ calls →
    (∃ seen, rtc node_step (store h) seen ∧ rtc node_step seen l ∧ justified c seen) ∧
    (lasting c = true ∨ untouched (W := W) (L := L) (called c) → justified c l).
Proof.
  intros Hl Hrun.
  assert (Hob : rtc node_step (store h) (store h') ∧
    ∃ calls, trace h' = trace h ++ calls ∧ Forall (λ c, backed (store h) c.1 c.2) calls).
  { destruct Hrun as [Hrun|Hrun].
    - by destruct (execute_obeys (store h) _ _ _ _ _ h h' r ltac:(by split) I Hrun) as (_ & ? & _ & ? & _).
    - by destruct (recovery_obeys (store h) _ h h' r ltac:(by split) I Hrun) as (_ & ? & _ & ? & _). }
  destruct Hob as (Hs & calls & Ht & Hj). split; [done|]. exists calls. split; [done|].
  intros c l Hin. rewrite list.Forall_forall in Hj. destruct (Hj _ Hin) as (seen & [Hseen Hstart] & Hjust & Hsteps & Hc).
  split; [by exists seen|]. intros [Hlast|Hu]; [by apply (justified_kept c seen)|].
  apply (justified_phase c seen); [by apply Hc|done].
Qed.

(** C31: a deployment task is reported done only when its outcome is settled on
    disk: the attempt of the task is confirmed as prepared, or its end is
    recorded with the server's acceptance.  No other task's entry is changed,
    unless another goroutine changes it. *)
Theorem deployment_done_settled IsNormalString hex_sha256 nodeID backends task (h h' : host call L W) :
  sound (store h) →
  executeDeployment IsNormalString hex_sha256 nodeID backends task h = (h', Ok tt) →
  (∃ b, decodeDeploymentTask task nodeID = Some b ∧ Task.TaskID task = deployment_task_id b ∧
        concluded (store h') b) ∧
  ∀ k, k ≠ Task.TaskID task → untouched (W := W) (L := L) k → content (store h') k = content (store h) k.
Proof.
  intros Hl Hrun.
  destruct (execute_obeys (store h) _ _ _ _ _ h h' _ ltac:(by split) I Hrun) as (_ & _ & Hf & _ & Hq).
  destruct (Hq tt eq_refl) as (b & Hb & Hc). split.
  - exists b. by destruct (decode_task_id _ _ _ Hb) as (_ & _ & ?).
  - intros k Hk Hu. apply Hf. intros Hscope. by apply Hk, Hscope.
Qed.
End Logic.

(** ** Failures *)

Lemma renewal_error_lost r e : renewTaskBudget r = Err e → e = Lost.
Proof. unfold renewTaskBudget. cbv zeta. by repeat case_match; intros [= <-]. Qed.

(** Work that did not begin leaves the outcome to the lease. *)
Lemma lease_not_begun env x y :
  work_begins (leased env) = false → under_lease env (Err x) = under_lease env (Err y) ∧
  is_ok (under_lease env (Err x)) = false.
Proof.
  unfold work_begins, under_lease, withTaskLease. destruct (leased env) as [hw cb f ca ti cf cl w fi]. cbn.
  destruct hw; cbn; [|done]. destruct cb; cbn; [done|]. destruct ca; cbn; [done|].
  destruct (renewTaskBudget f) as [b|e] eqn:E; [done|]. by rewrite (renewal_error_lost f e E).
Qed.

(** every reason the worker gives for ending a failed attempt is one the
    protocol knows, so the termination it starts is accepted by the journal;
    errors it cannot classify give none. *)
Theorem failure_reason_known err attempt :
  1 ≤ attempt ≤ 2147483647 →
  deploymentFailureReason err = "" ∨
  Request.Validate (Request.mk attempt (deploymentFailureReason err)) = true.
Proof.
  intros [H1 H2]. unfold Request.Validate. cbn [Request.ErrorCode Request.LeaseAttempt].
  rewrite (proj2 (Z.leb_le 1 attempt)), (proj2 (Z.leb_le attempt max_lease_attempt)) by done.
  rewrite !andb_true_r. unfold deploymentFailureReason. destruct (as_cause http_code err) as [code|].
  - destruct (String.eqb code "ACCOUNT_NOT_AVAILABLE"); [by right|].
    destruct (Request.Validate (Request.mk 1 code)) eqn:Hv.
    + right. unfold Request.Validate in Hv. cbn [Request.ErrorCode] in Hv.
      by apply andb_true_iff in Hv as [[Hv _]%andb_true_iff _].
    + destruct (String.eqb code "DEPLOYMENT_REVOKED"); [by right|by left].
  - repeat case_match; (by left) || (by right).
Qed.

(** ** Deployments at work *)

Module DeploymentDemo.

Definition digest : string := "e3b0c44298fc1c149afbf4c8996fb92427ae41e4649b934ca495991b7852b855".
Definition sha (_ : list Z) : string := digest.
Definition normal (_ : string) : bool := true.

Definition uuid (c : string) : string :=
  c +:+ c +:+ c +:+ c +:+ c +:+ c +:+ c +:+ c +:+ "-1111-1111-1111-111111111111".

Definition binding : SkillDeploymentIdentity :=
  Deploy.mk (uuid "1") (uuid "2") (uuid "3") (uuid "4") (uuid "5") (uuid "6") (uuid "7") digest digest "native".

(** Two sources, one of them enabled. *)
Definition alpha : SkillDeploymentSource :=
  Source.mk "library" (uuid "a") (uuid "b") digest "alpha" true (Some 1).
Definition beta : SkillDeploymentSource :=
  Source.mk "account_local" (uuid "c") (uuid "d") digest "beta" false None.

Definition plan_with (l : list SkillDeploymentSource) : SkillDeploymentPlan :=
  Plan.mk 1 (uuid "4") (uuid "1") 7 (uuid "5") (uuid "6") "claude" "native" (Some l).

Definition tree_manifest : Manifest.Manifest := Manifest.mkManifest 1 [
  Manifest.mkEntry "alpha" "directory" 493 0 "" "" "" "";
  Manifest.mkEntry "alpha/SKILL.md" "file" 420 0 digest "" "text" ""].

Definition input : SkillDeployment :=
  mkDeployment binding 2 (plan_with [alpha; beta]) tree_manifest
    (Some [Member.mk "alpha" (uuid "e") 1 (uuid "f")]).

Definition receipt : DeploymentPreparation := Receipt.mk 1 binding digest 2 7 (uuid "8").
Definition drained : DeploymentDrain := Drain_.mk 1 binding (uuid "9").

(** Whether the helper can be reached, and whether the recovery loop is about
    to end the attempt, some moments after it finds a proposal. *)
Record surroundings := mkSurroundings { works : bool; ending : option nat }.

(** A server that accepts what it is told, and asks for the end it is asked
    for. *)
Definition intent_of (b : SkillDeploymentIdentity) (q : SkillDeploymentTerminationRequest)
    : SkillDeploymentTerminationIntent :=
  Intent_.mk 1 (uuid "0") b q "failed" (Request.ErrorCode q) (deploymentFailureCode (Request.ErrorCode q)).1.

Definition answer_to (c : call) (w : surroundings) : result error (reply c) :=
  match c return result error (reply c) with
  | GetTermination b => Ok None
  | RequestTermination b q => Ok (intent_of b q)
  | InspectTermination x => Ok (TermObs.mk x false 3 "running")
  | ConfirmTermination x => Ok (TermObs.mk x true 3 "failed")
  | InspectDeployment p => Ok (ResultObs.mk p true (Prepared.LeaseAttempt p) "succeeded")
  | ConfirmDeployment p => Ok (ResultObs.mk p true (Prepared.LeaseAttempt p) "succeeded")
  | GetDeployment b n => Ok input
  | PrepareDeployment op i => if works w then Ok receipt else Err [OpError "unix"]
  | DrainDeployment op b => Ok drained
  end.

Definition env : time * publish_io := (1700000000 * second, mkPublish true true true true true true true true true true).

Definition lease_of (b : SkillDeploymentIdentity) (n : Z)
    (renew : option (envelope SkillDeploymentLease) → option taskLeaseTiming) : lease_env :=
  mkLeaseEnv
    (mkRun true false (mkRenewal 0 (renew (Some (mkEnvelope 1 "leased" (Some false) 0
                          (mkLease b n (mkTiming 0 (60 * second) 20000))))) second)
       false [] false false (Ok tt) (5 * second)) [] Canceled.

#[local] Instance demo_world : Outside reply error surroundings (time * publish_io) := {
  ask c w := (w, answer_to c w);
  clock w := (w, env);
  done_ctx w := (w, None)
}.

#[local] Instance demo_leases : Leases surroundings := λ b n renew w, (w, lease_of b n renew).

(** What the recovery loop does between two steps of the run. *)
#[local] Instance demo_others : Interference Ledger surroundings := λ w l,
  match ending w, load_deployment l (deployment_task_id binding) with
  | Some (S n), Ok (Some _) => (mkSurroundings (works w) (Some n), l)
  | Some 0%nat, Ok (Some p) =>
      let q := Request.mk 3 "TRANSFER_FAILED" in
      (mkSurroundings (works w) None, (beginTermination env l binding q (Some (intent_of binding q)) (Some p)).1)
  | _, _ => (w, l)
  end.

Lemma env_timely : timely (L := Ledger) env.
Proof. vm_compute. split; congruence. Qed.

#[local] Instance demo_neighbours : Neighbours (L := Ledger) (W := surroundings).
Proof.
  intros w l Hl. cbn. unfold interrupts, demo_others. destruct (ending w) as [[|n]|]; [|by repeat case_match|done].
  destruct (load_deployment l _) as [[p|]|] eqn:Hload; try done. cbn [snd].
  destruct (load_dep_found _ _ _ Hl Hload) as [_ [_ Hk]]. destruct (dep_known_facts p Hk) as ((_ & _ & Hw) & _).
  apply rtc_once, node_deployment. apply dstep_save; [exact env_timely|by intros x [= <-]|].
  intros y [= <-]. by destruct Hk.
Qed.

#[local] Instance demo_real : RealWorld (L := Ledger) (W := surroundings) reply_width.
Proof.
  split.
  - intros w. exact env_timely.
  - intros c w a. destruct c; try done. cbn. destruct (works w); [|done]. intros Ha. apply Ok_inj in Ha. subst a.
    split; vm_compute; congruence.
Qed.

Definition task : TaskEnvelope :=
  Task.mk ("prepare_account_skills:" +:+ uuid "2") (uuid "3") 3 (uuid "6") "prepare_account_skills"
    ("prepare_account_skills:" +:+ uuid "2")
    [("attempt_id", VStr (uuid "2")); ("checkpoint_id", VStr (uuid "7")); ("operation_id", VStr (uuid "1"));
     ("plan_digest", VStr digest); ("protocol_version", VNum "1"); ("runtime_backend", VStr "native");
     ("task_record_id", VStr (uuid "3")); ("tool_account_id", VStr (uuid "5")); ("tree_digest", VStr digest);
     ("user_id", VStr (uuid "4"))].

Definition begin (w : surroundings) : host call Ledger surroundings := mkHost (mkLedger [] false None) w [].

Definition run_in (w : surroundings) : host call Ledger surroundings * result error unit :=
  executeDeployment normal sha (uuid "6") ["native"] task (begin w).

(** Undisturbed, with a helper that works and one that cannot be reached. *)
Definition run (w : bool) := run_in (mkSurroundings w None).

(** The recovery loop ends the attempt while its preparation is confirmed. *)
Definition raced := run_in (mkSurroundings true (Some 1%nat)).

Lemma empty_ledger_sound w : sound (store (begin w)).
Proof. split; [split; constructor|done]. Qed.

Lemma run_succeeds : (run true).2 = Ok tt ∧ (run false).2 = Ok tt.
Proof. split; vm_compute; reflexivity. Qed.

Lemma run_outcome w : run w = ((run w).1, Ok tt).
Proof.
  assert (Hr : (run w).2 = Ok tt) by (destruct w; [exact (proj1 run_succeeds)|exact (proj2 run_succeeds)]).
  rewrite <- Hr. apply surjective_pairing.
Qed.

(** Both runs end with a settled attempt. *)
Lemma deployment_done_witness :
  (∃ r, deployment_phase_at (store (run true).1) (Task.TaskID task) = Deployed r) ∧
  ∃ b, decodeDeploymentTask task (uuid "6") = Some b ∧ concluded (store (run false).1) b.
Proof.
  split; [eexists; vm_compute; reflexivity|].
  destruct (deployment_done_settled normal sha (uuid "6") ["native"] task (begin (mkSurroundings false None)) (run false).1
              (empty_ledger_sound _) (run_outcome false)) as [(b & Hb & _ & Hc) _].
  by exists b.
Defined.

(** The calls of the failed run, in order. *)
Definition call_names (cs : list (call * Ledger)) : list string :=
  map (λ c, match c.1 with
            | GetTermination _ => "get" | RequestTermination _ _ => "request"
            | InspectTermination _ => "inspect-end" | ConfirmTermination _ => "confirm-end"
            | InspectDeployment _ => "inspect" | ConfirmDeployment _ => "confirm"
            | GetDeployment _ _ => "input" | PrepareDeployment _ _ => "prepare" | DrainDeployment _ _ => "drain"
            end) cs.

(** The ledger when the server was told of the preparation. *)
Definition confirmed_at (cs : list (call * Ledger)) : option Ledger :=
  head (omap (λ c, match c.1 with ConfirmDeployment _ => Some c.2 | _ => None end) cs).

Definition is_ending (p : deployment_phase) : bool := match p with Ending _ => true | _ => false end.

(** In the disturbed run the attempt is ending already when the preparation is
    confirmed; what justified the call was there before. *)
Lemma deployment_write_ahead_witness :
  call_names (trace (run false).1) = ["get"; "input"; "prepare"; "get"; "request"; "drain"; "inspect-end"; "confirm-end"] ∧
  call_names (trace raced.1) = ["get"; "input"; "prepare"; "confirm"] ∧
  option_map (λ l, is_ending (phase l binding)) (confirmed_at (trace raced.1)) = Some true ∧
  ∀ c l, (c, l) ∈ trace raced.1 →
    ∃ seen, rtc node_step (store (begin (mkSurroundings true (Some 1%nat)))) seen ∧ rtc node_step seen l ∧ justified c seen.
Proof.
  split; [vm_compute; reflexivity|]. split; [vm_compute; reflexivity|].
  split; [vm_compute; reflexivity|].
  destruct (deployment_write_ahead normal sha (uuid "6") ["native"] task (begin (mkSurroundings true (Some 1%nat))) raced.1 raced.2
              (empty_ledger_sound _) (or_introl (surjective_pairing raced))) as [_ (calls & -> & H)].
  intros c l Hin. exact (proj1 (H c l Hin)).
Defined.

(** The disturbed run leaves the attempt to its end, and someone who saw no
    entry cannot begin another one. *)
Definition stale_begin : Ledger :=
  (saveTermination env (store raced.1) None (begun binding (Request.mk 4 "NODE_UNAVAILABLE") None None)).1.

Lemma raced_sound : sound (store raced.1).
Proof.
  destruct (execute_obeys (store (begin (mkSurroundings true (Some 1%nat)))) normal sha (uuid "6") ["native"] task
              (begin (mkSurroundings true (Some 1%nat))) raced.1 raced.2) as [[? _] _];
    [by split; [apply empty_ledger_sound|]|done|apply surjective_pairing|done].
Qed.

Lemma deployment_outcome_witness :
  ∃ t t' i, deployment_phase_at (store raced.1) (Task.TaskID task) = Ending t ∧ TermRecord.Intent t = Some i ∧
    deployment_phase_at stale_begin (Task.TaskID task) = Ending t' ∧ TermRecord.Intent t' = Some i.
Proof.
  assert (Hs : rtc deployment_step (store raced.1) stale_begin).
  { apply rtc_once, dstep_save; [exact env_timely|by intros p|by intros y]. }
  assert (Hph : ∃ t i, deployment_phase_at (store raced.1) (Task.TaskID task) = Ending t ∧ TermRecord.Intent t = Some i)
    by (do 2 eexists; split; vm_compute; reflexivity).
  destruct Hph as (t & i & Ht & Hi).
  destruct (kept_ending _ _ (deployment_outcome_kept _ _ (Task.TaskID task) raced_sound Hs) t i Ht Hi)
    as (t' & Ht' & _ & _ & Hi' & _). exists t, t', i. split_and!; [exact Ht|exact Hi|exact Ht'|by rewrite Hi'].
Defined.

Lemma plan_width_demo l : l ⊆ [alpha; beta] → plan_width (plan_with l).
Proof.
  intros Hl. split; [by vm_compute|]. intros l' s [= <-] Hs. apply Hl in Hs.
  intros n. apply elem_of_cons in Hs as [->|Hs]; [intros [= <-]; by vm_compute|].
  apply elem_of_cons in Hs as [->|Hs]; [done|by apply not_elem_of_nil in Hs].
Qed.

(** Swapping the sources keeps the digest. *)
Lemma plan_digest_witness :
  plan_digest sha (plan_with [alpha; beta]) = Some digest ∧
  plan_digest sha (plan_with [beta; alpha]) = Some digest.
Proof.
  assert (Hd : plan_digest sha (plan_with [alpha; beta]) = Some digest) by (vm_compute; reflexivity).
  split; [exact Hd|].
  destruct (plan_digest_identifies sha (plan_with [alpha; beta]) (plan_with [beta; alpha]) digest) as [H _];
    [apply plan_width_demo; set_solver|apply plan_width_demo; set_solver|exact Hd|].
  apply H. split; [done|]. exists [alpha; beta], [beta; alpha]. split_and!; [done|done|apply perm_swap].
Defined.

Lemma deployment_members_witness :
  Identity_ input = binding ∧ enabled_names (Plan_ input) = ["alpha"].
Proof.
  destruct (deployment_members normal sha input binding) as [Hb _]; [vm_compute; reflexivity|].
  split; [exact Hb|vm_compute; reflexivity].
Defined.

Lemma failure_reason_witness :
  Request.Validate (Request.mk 3 (deploymentFailureReason [OpError "unix"])) = true.
Proof.
  destruct (failure_reason_known [OpError "unix"] 3) as [H|H]; [lia|vm_compute in H; congruence|exact H].
Defined.

End DeploymentDemo.
