(* ===== verification/Finalization.v ===== *)
(** * Finalized captures of skill sessions

    The record of a stopped session's capture
    (src/internal/skillmanager/journal.go, journal_json.go,
    system_releases.go), the receipts the server gives for its upload and its
    publication (finalization_receipt.go) and the acknowledgement that tells
    the helper what the server holds (finalization_acknowledgement.go):
    validation, the strict decoders and the order of states. *)

From S2P Require Import Prelude GoText GoTime GoJson GoUtf8 GoJsonText GoJsonValue GoJsonDecode GoJsonStruct.
From S2P Require Import Manifest ManifestCodec StartResult Ledger DevicePayload Deployment.
From Stdlib.Strings Require Import Ascii.

(** ** Strict decoders *)

(** An int64 member that is left out when it is zero. *)
Definition int_omit_field {R} (name : string) (get : R → Z) (set : Z → R → R) : field R :=
  mkField name get set (λ z, if z =? 0 then None else Some (VNum (itoa z))) (λ current _ j, int_of_json current j).

(** A [time.Time]; null leaves it as it is. *)
Definition time_of_json (current : time) (j : json) : option time :=
  match j with
  | JNull => Some current
  | JStr s => parse_strict_rfc3339 s
  | _ => None
  end.

Definition time_field {R} (name : string) (get : R → time) (set : time → R → R) : field R :=
  mkField name get set (λ t, Some (VStr (format_rfc3339 t))) (λ current _ j, time_of_json current j).

(** A pointer to a bool. *)
Definition bool_pointer_field {R} (name : string) (get : R → option bool) (set : option bool → R → R) : field R :=
  mkField name get set (λ o, Some (match o with Some b => VBool b | None => VNull end))
    (λ _ _ j, match j with JNull => Some None | JBool b => Some (Some b) | _ => None end).

Definition has_member (j : json) (name : string) : bool := is_some (raw_member j name).

Definition has_value (j : json) (name : string) : bool :=
  match raw_member j name with Some (_, v) => negb (is_null v) | None => false end.

(** [decodeJournalFields]: exact names, none of them null or twice. *)
Definition decodeJournalFields {R} (fields : list (field R)) (zero : R) (required optional : list string)
    (data : string) : option R :=
  j ← validateJSONObject data (required ++ optional);
  if rejectReceiptDuplicates j && forallb (has_member j) required then decode_known fields zero j else None.

(** [decodeFinalizationFields]: every name once, null only where it is allowed. *)
Definition decodeFinalizationFields {R} (fields : list (field R)) (zero : R) (required nullable : list string)
    (j : json) : option R :=
  if rejectReceiptDuplicates j &&
     Nat.eqb (length (keys_of j)) (length required + length nullable) &&
     forallb (has_value j) required && forallb (has_member j) nullable
  then decode_struct fields zero j else None.

(** ** System releases *)

Module Pins.
Record EgoBrowserRelease := mkEgo { Version : string; Commit : string; TreeSHA256 : string }.
Record DeviceSkillRelease := mkDevice { NodeReleaseVersion : string; ProtocolVersion : Z }.
Record SystemReleasePins := mk { EgoBrowser : EgoBrowserRelease; Device : DeviceSkillRelease }.

#[global] Instance ego_eq_dec : EqDecision EgoBrowserRelease.
Proof. solve_decision. Defined.
#[global] Instance device_eq_dec : EqDecision DeviceSkillRelease.
Proof. solve_decision. Defined.
#[global] Instance eq_dec : EqDecision SystemReleasePins.
Proof. solve_decision. Defined.

Definition no_ego : EgoBrowserRelease := mkEgo "" "" "".
Definition no_device : DeviceSkillRelease := mkDevice "" 0.
Definition zero : SystemReleasePins := mk no_ego no_device.

Definition ego_fields : list (field EgoBrowserRelease) := [
  str_field "version" Version (λ x r, r <| Version := x |>);
  str_field "commit" Commit (λ x r, r <| Commit := x |>);
  str_field "tree_sha256" TreeSHA256 (λ x r, r <| TreeSHA256 := x |>)].

Definition device_fields : list (field DeviceSkillRelease) := [
  str_field "node_release_version" NodeReleaseVersion (λ x r, r <| NodeReleaseVersion := x |>);
  int_field "protocol_version" ProtocolVersion (λ x r, r <| ProtocolVersion := x |>)].

Definition fields : list (field SystemReleasePins) := [
  sub_field "ego_browser" EgoBrowser (λ x r, r <| EgoBrowser := x |>)
    (encode_struct ego_fields) (decode_known ego_fields);
  sub_field "device" Device (λ x r, r <| Device := x |>)
    (encode_struct device_fields) (decode_known device_fields)].

Definition skillReleaseVersion (s : string) : bool :=
  match s with
  | "" => false
  | String c rest =>
      let letter c := is_digit c || is_lower c || in_range "A" "Z" c in
      letter c && all_chars (λ c, letter c || has_char "._+-" c) rest && (len rest <=? 63)
  end.

Definition skillReleaseCommit (s : string) : bool := match_classes (replicate 40 is_hex) s.

Definition Validate (p : SystemReleasePins) : bool :=
  skillReleaseVersion (Version (EgoBrowser p)) && skillReleaseCommit (Commit (EgoBrowser p)) &&
  contentDigestPattern (TreeSHA256 (EgoBrowser p)) &&
  (bool_decide (Device p = no_device) ||
   skillReleaseVersion (NodeReleaseVersion (Device p)) && (ProtocolVersion (Device p) =? 1)).
End Pins.
Export Pins(SystemReleasePins).

(** ** Captures *)

Module Snapshot.
Record SnapshotBinding := mk {
  UserID : string;
  AccountID : string;
  NodeID : string;
  SessionID : string;
  SnapshotID : string;
  DirectoryEpoch : Z;
  LibraryGeneration : Z;
  InitialTreeDigest : string;
  TaskID : string;
  PreparationDigest : string;
  SystemReleases : SystemReleasePins
}.

#[global] Instance eq_dec : EqDecision SnapshotBinding.
Proof. solve_decision. Defined.

(** [omitzero] *)
Definition pins_field : field SnapshotBinding :=
  mkField "system_releases" SystemReleases (λ x r, r <| SystemReleases := x |>)
    (λ p, if bool_decide (p = Pins.zero) then None else Some (encode_struct Pins.fields p))
    (λ current _ j, decode_known Pins.fields current j).

Definition fields : list (field SnapshotBinding) := [
  str_field "user_id" UserID (λ x r, r <| UserID := x |>);
  str_field "account_id" AccountID (λ x r, r <| AccountID := x |>);
  str_field "node_id" NodeID (λ x r, r <| NodeID := x |>);
  str_field "session_id" SessionID (λ x r, r <| SessionID := x |>);
  str_field "snapshot_id" SnapshotID (λ x r, r <| SnapshotID := x |>);
  int_field "directory_epoch" DirectoryEpoch (λ x r, r <| DirectoryEpoch := x |>);
  int_field "library_generation" LibraryGeneration (λ x r, r <| LibraryGeneration := x |>);
  str_field "initial_tree_digest" InitialTreeDigest (λ x r, r <| InitialTreeDigest := x |>);
  str_omit_field "task_id" TaskID (λ x r, r <| TaskID := x |>);
  str_omit_field "preparation_digest" PreparationDigest (λ x r, r <| PreparationDigest := x |>);
  pins_field].

Definition zero : SnapshotBinding := mk "" "" "" "" "" 0 0 "" "" "" Pins.zero.

Definition required : list string :=
  ["user_id"; "account_id"; "node_id"; "session_id"; "snapshot_id"; "directory_epoch"; "library_generation";
   "initial_tree_digest"].

(** [UnmarshalJSON] *)
Definition of_text (data : string) : option SnapshotBinding :=
  decodeJournalFields fields zero required ["task_id"; "preparation_digest"; "system_releases"] data.

Definition Validate (b : SnapshotBinding) : bool :=
  forallb validSkillUUID [UserID b; AccountID b; NodeID b; SessionID b; SnapshotID b] &&
  (0 <? DirectoryEpoch b) && (0 <=? LibraryGeneration b) && contentDigestPattern (InitialTreeDigest b) &&
  (String.eqb (TaskID b) "" && String.eqb (PreparationDigest b) "" ||
   validSkillUUID (TaskID b) && contentDigestPattern (PreparationDigest b)) &&
  (bool_decide (SystemReleases b = Pins.zero) || Pins.Validate (SystemReleases b)).
End Snapshot.
Export Snapshot(SnapshotBinding).

Module Capture.
Record FinalizationRecord := mk {
  Version : Z;
  ObjectsVersion : Z;
  Binding : SnapshotBinding;
  TreeDigest : string;
  Unclean : bool;
  State : string
}.

#[global] Instance eq_dec : EqDecision FinalizationRecord.
Proof. solve_decision. Defined.

Definition fields : list (field FinalizationRecord) := [
  int_field "version" Version (λ x r, r <| Version := x |>);
  int_omit_field "objects_version" ObjectsVersion (λ x r, r <| ObjectsVersion := x |>);
  mkField "binding" Binding (λ x r, r <| Binding := x |>) (λ b, Some (encode_struct Snapshot.fields b))
    (λ _ raw _, Snapshot.of_text raw);
  str_field "tree_digest" TreeDigest (λ x r, r <| TreeDigest := x |>);
  bool_field "unclean" Unclean (λ x r, r <| Unclean := x |>);
  str_field "state" State (λ x r, r <| State := x |>)].

Definition zero : FinalizationRecord := mk 0 0 Snapshot.zero "" false "".

(** [UnmarshalJSON] *)
Definition of_text (data : string) : option FinalizationRecord :=
  decodeJournalFields fields zero ["version"; "binding"; "tree_digest"; "unclean"; "state"] ["objects_version"] data.

Definition validFinalizationState (state : string) (unclean : bool) : bool :=
  bool_decide (state ∈ ["local_durable"; "upload_pending"; "detached"]) ||
  (if unclean then String.eqb state "persisted_unclean"
   else bool_decide (state ∈ ["persisted"; "published"; "conflicted"])).

Definition allowedFinalizationTransition (current next : string) (unclean : bool) : bool :=
  validFinalizationState next unclean &&
  (if String.eqb current "local_durable" then String.eqb next "upload_pending"
   else if String.eqb current "upload_pending" then String.eqb next "persisted" || String.eqb next "persisted_unclean"
   else if String.eqb current "persisted" then bool_decide (next ∈ ["published"; "conflicted"; "detached"])
   else if String.eqb current "persisted_unclean" then String.eqb next "detached"
   else false).

Definition Validate (r : FinalizationRecord) : bool :=
  Snapshot.Validate (Binding r) && (Version r =? 1) && (0 <=? ObjectsVersion r) && (ObjectsVersion r <=? 1) &&
  contentDigestPattern (TreeDigest r) && validFinalizationState (State r) (Unclean r).

Definition CanDeleteSession (r : FinalizationRecord) : bool :=
  (Version r =? 1) && validFinalizationState (State r) (Unclean r) &&
  bool_decide (State r ∈ ["published"; "conflicted"; "detached"]).
End Capture.
Export Capture(FinalizationRecord).

Definition SameFinalizationInput (first second : FinalizationRecord) : bool :=
  bool_decide (first <| Capture.State := "" |> = second <| Capture.State := "" |>).

(** ** Receipts *)

Module Input.
Record FinalizationInput := mk {
  SnapshotID : string;
  SessionID : string;
  IdempotencyKey : string;
  TreeDigest : string;
  Unclean : bool
}.

#[global] Instance eq_dec : EqDecision FinalizationInput.
Proof. solve_decision. Defined.

(** [^[!-~]{1,128}$] *)
Definition finalizationKey (s : string) : bool :=
  all_chars (in_range "!" "~") s && (1 <=? len s) && (len s <=? 128).

Definition Validate (i : FinalizationInput) : bool :=
  validSkillUUID (SnapshotID i) && validSkillUUID (SessionID i) && finalizationKey (IdempotencyKey i) &&
  contentDigestPattern (TreeDigest i).
End Input.
Export Input(FinalizationInput).

Module FinReceipt.
Record FinalizationReceipt := mk {
  ID : string;
  SnapshotID : string;
  IncomingDigest : string;
  Unclean : bool;
  Status : string;
  CheckpointID : option string;
  UploadID : string;
  UploadAttempt : Z;
  UploadStatus : string;
  ExpiresAt : time
}.

#[global] Instance eq_dec : EqDecision FinalizationReceipt.
Proof. solve_decision. Defined.

Definition fields : list (field FinalizationReceipt) := [
  str_field "id" ID (λ x r, r <| ID := x |>);
  str_field "snapshot_id" SnapshotID (λ x r, r <| SnapshotID := x |>);
  str_field "incoming_digest" IncomingDigest (λ x r, r <| IncomingDigest := x |>);
  bool_field "unclean" Unclean (λ x r, r <| Unclean := x |>);
  str_field "status" Status (λ x r, r <| Status := x |>);
  str_pointer_field "checkpoint_id" CheckpointID (λ x r, r <| CheckpointID := x |>);
  str_field "upload_id" UploadID (λ x r, r <| UploadID := x |>);
  int_field "upload_attempt" UploadAttempt (λ x r, r <| UploadAttempt := x |>);
  str_field "upload_status" UploadStatus (λ x r, r <| UploadStatus := x |>);
  time_field "expires_at" ExpiresAt (λ x r, r <| ExpiresAt := x |>)].

Definition zero : FinalizationReceipt := mk "" "" "" false "" None "" 0 "" zero_time.

Definition required : list string :=
  ["id"; "snapshot_id"; "incoming_digest"; "unclean"; "status"; "upload_id"; "upload_attempt"; "upload_status";
   "expires_at"].

(** [UnmarshalJSON] *)
Definition of_json (j : json) : option FinalizationReceipt :=
  decodeFinalizationFields fields zero required ["checkpoint_id"] j.

(** [validate] *)
Definition valid (view : FinalizationReceipt) (i : FinalizationInput) : bool :=
  Input.Validate i &&
  validSkillUUID (ID view) && String.eqb (SnapshotID view) (Input.SnapshotID i) &&
  String.eqb (IncomingDigest view) (Input.TreeDigest i) && Bool.eqb (Unclean view) (Input.Unclean i) &&
  validSkillUUID (UploadID view) && (0 <? UploadAttempt view) && negb (ExpiresAt view =? zero_time) &&
  (if String.eqb (Status view) "upload_pending" then
     negb (is_some (CheckpointID view)) &&
     (String.eqb (UploadStatus view) "staged" || String.eqb (UploadStatus view) "expired")
   else
     String.eqb (UploadStatus view) "committed" &&
     match CheckpointID view with
     | None => false
     | Some checkpoint =>
         validSkillUUID checkpoint &&
         (if bool_decide (Status view ∈ ["persisted"; "published"; "conflicted"]) then negb (Unclean view)
          else if String.eqb (Status view) "persisted_unclean" then Unclean view
          else String.eqb (Status view) "detached")
     end).

Definition follows (view previous : FinalizationReceipt) : bool :=
  String.eqb (ID view) (ID previous) && (UploadAttempt previous <=? UploadAttempt view) &&
  Bool.eqb (UploadAttempt view =? UploadAttempt previous) (String.eqb (UploadID view) (UploadID previous)) &&
  match CheckpointID previous with
  | None => true
  | Some checkpoint =>
      bool_decide (CheckpointID view = Some checkpoint) && String.eqb (UploadID view) (UploadID previous)
  end.

Definition ValidateReceipt (view : FinalizationReceipt) (i : FinalizationInput)
    (previous : option FinalizationReceipt) : bool :=
  valid view i &&
  match previous with
  | None => true
  | Some p => valid p i && follows view p
  end.
End FinReceipt.
Export FinReceipt(FinalizationReceipt).

Module Publication_.
Record PublicationReceipt := mk {
  ID : string;
  FinalizationID : string;
  Attempt : Z;
  Status : string;
  Reason : option string;
  ResultCheckpointID : option string;
  ConflictCount : Z
}.

#[global] Instance eq_dec : EqDecision PublicationReceipt.
Proof. solve_decision. Defined.

Definition fields : list (field PublicationReceipt) := [
  str_field "id" ID (λ x r, r <| ID := x |>);
  str_field "finalization_id" FinalizationID (λ x r, r <| FinalizationID := x |>);
  int_field "attempt" Attempt (λ x r, r <| Attempt := x |>);
  str_field "status" Status (λ x r, r <| Status := x |>);
  str_pointer_field "reason" Reason (λ x r, r <| Reason := x |>);
  str_pointer_field "result_checkpoint_id" ResultCheckpointID (λ x r, r <| ResultCheckpointID := x |>);
  int_field "conflict_count" ConflictCount (λ x r, r <| ConflictCount := x |>)].

Definition zero : PublicationReceipt := mk "" "" 0 "" None None 0.

(** [UnmarshalJSON] *)
Definition of_json (j : json) : option PublicationReceipt :=
  decodeFinalizationFields fields zero ["id"; "finalization_id"; "attempt"; "status"; "conflict_count"]
    ["reason"; "result_checkpoint_id"] j.

(** [^[a-z][a-z0-9_]{0,95}$] *)
Definition publicationReason (s : string) : bool :=
  match s with
  | "" => false
  | String c rest => is_lower c && all_chars (λ c, is_lower c || is_digit c || has_char "_" c) rest && (len rest <=? 95)
  end.

(** The decision is consistent with how the session ended. *)
Definition consistent (view : PublicationReceipt) (unclean : bool) : bool :=
  if String.eqb (Status view) "published" then
    negb unclean && negb (is_some (Reason view)) && (ConflictCount view =? 0) &&
    match ResultCheckpointID view with Some c => validSkillUUID c | None => false end
  else if String.eqb (Status view) "conflicted" then
    negb unclean && negb (is_some (Reason view)) && (0 <? ConflictCount view) && negb (is_some (ResultCheckpointID view))
  else if String.eqb (Status view) "detached" then
    match Reason view with
    | Some reason =>
        (ConflictCount view =? 0) && negb (is_some (ResultCheckpointID view)) &&
        (negb unclean || String.eqb reason "unclean")
    | None => false
    end
  else if String.eqb (Status view) "superseded" then
    negb unclean && is_some (Reason view) && negb (is_some (ResultCheckpointID view))
  else false.

Definition ValidateReceipt (view : PublicationReceipt) (i : FinalizationInput) (retained : FinalizationReceipt) : bool :=
  FinReceipt.valid retained i &&
  is_some (FinReceipt.CheckpointID retained) && validSkillUUID (ID view) &&
  String.eqb (FinalizationID view) (FinReceipt.ID retained) && (0 <? Attempt view) && (0 <=? ConflictCount view) &&
  match Reason view with Some reason => publicationReason reason | None => true end &&
  consistent view (Input.Unclean i).
End Publication_.
Export Publication_(PublicationReceipt).

(** ** Acknowledgements *)

Module Ack.
Record FinalizationAcknowledgement := mk {
  Version : Z;
  Capture : FinalizationRecord;
  Receipt : FinalizationReceipt;
  Publication : option PublicationReceipt
}.

#[global] Instance eq_dec : EqDecision FinalizationAcknowledgement.
Proof. solve_decision. Defined.

(** [Input]: what the upload of a capture is identified by. *)
Definition input_of (c : FinalizationRecord) : FinalizationInput :=
  Input.mk (Snapshot.SnapshotID (Capture.Binding c)) (Snapshot.SessionID (Capture.Binding c))
    ("skill-finalization:" +:+ Snapshot.SnapshotID (Capture.Binding c)) (Capture.TreeDigest c) (Capture.Unclean c).

Definition Validate (ack : FinalizationAcknowledgement) : bool :=
  let i := input_of (Capture ack) in
  (Version ack =? 1) && (Capture.ObjectsVersion (Capture ack) =? 1) && Capture.Validate (Capture ack) &&
  FinReceipt.ValidateReceipt (Receipt ack) i None &&
  match Publication ack with
  | Some p => Publication_.ValidateReceipt p i (Receipt ack)
  | None => true
  end.

(** The state of the capture that the receipts prove. *)
Definition State (ack : FinalizationAcknowledgement) : option string :=
  if Validate ack then
    Some (match Publication ack with
          | Some p =>
              if negb (String.eqb (Publication_.Status p) "superseded") then Publication_.Status p
              else if negb (is_some (FinReceipt.CheckpointID (Receipt ack))) then "upload_pending"
              else if Capture.Unclean (Capture ack) then "persisted_unclean" else "persisted"
          | None =>
              if negb (is_some (FinReceipt.CheckpointID (Receipt ack))) then "upload_pending"
              else if Capture.Unclean (Capture ack) then "persisted_unclean" else "persisted"
          end)
  else None.

Definition Follows (ack previous : FinalizationAcknowledgement) : bool :=
  Validate ack && Validate previous && SameFinalizationInput (Capture ack) (Capture previous) &&
  FinReceipt.ValidateReceipt (Receipt ack) (input_of (Capture ack)) (Some (Receipt previous)) &&
  match Publication previous with
  | Some p => bool_decide (Publication ack = Some p)
  | None => true
  end.
End Ack.
Export Ack(FinalizationAcknowledgement).
