(* ===== verification/FinalizationJournal.v ===== *)
(** * The journal of finalization transfers (src/internal/worker/finalization_journal.go)

    One entry per snapshot: the capture that is being transferred, the
    server's receipt of its upload and the decision on its publication.  The
    journal is written over [TaskStore]; [save] refuses another capture, a
    receipt that does not follow the recorded one and another publication. *)

From S2P Require Import Prelude GoText GoTime GoJson GoUtf8 GoJsonText GoJsonValue GoJsonDecode GoJsonStruct.
From S2P Require Import Manifest StartResult Ledger TaskStore StartJournal Deployment DeploymentJournal Finalization.
From Stdlib.Strings Require Import Ascii.

Definition finalizationTransferStatus : string := "skill_finalization_transfer".

Module Transfer.
Record finalizationTransferRecord := mk {
  SchemaVersion : Z;
  Capture : FinalizationRecord;
  Receipt : option FinalizationReceipt;
  Publication : option PublicationReceipt
}.

#[global] Instance eq_dec : EqDecision finalizationTransferRecord.
Proof. solve_decision. Defined.

Definition fields : list (field finalizationTransferRecord) := [
  int_field "schema_version" SchemaVersion (λ x r, r <| SchemaVersion := x |>);
  mkField "capture" Capture (λ x r, r <| Capture := x |>) (λ c, Some (encode_struct Capture.fields c))
    (λ _ raw _, Capture.of_text raw);
  pointer_field "receipt" Receipt (λ x r, r <| Receipt := x |>) (encode_struct FinReceipt.fields) FinReceipt.of_json;
  pointer_field "publication" Publication (λ x r, r <| Publication := x |>)
    (encode_struct Publication_.fields) Publication_.of_json].

Definition zero : finalizationTransferRecord := mk 0 Capture.zero None None.

Definition record_names : list string := ["schema_version"; "capture"; "receipt"; "publication"].

(** The snapshot whose entry the record is. *)
Definition id (r : finalizationTransferRecord) : string := Snapshot.SnapshotID (Capture.Binding (Capture r)).

Definition validate (r : finalizationTransferRecord) : bool :=
  (SchemaVersion r =? 1) && (Capture.ObjectsVersion (Capture r) =? 1) && Capture.Validate (Capture r) &&
  match Receipt r with
  | Some x => FinReceipt.ValidateReceipt x (Ack.input_of (Capture r)) None
  | None => true
  end &&
  match Publication r with
  | Some p =>
      match Receipt r with
      | Some x => Publication_.ValidateReceipt p (Ack.input_of (Capture r)) x
      | None => false
      end
  | None => true
  end.
End Transfer.
Export Transfer(finalizationTransferRecord).

Record finalizationTransferEntry := mkTransferEntry {
  fentry : Entry;
  frecord : finalizationTransferRecord
}.

(** The part of [load] after the entry was found. *)
Definition decode_transfer (e : Entry) (capture : FinalizationRecord) : result error finalizationTransferEntry :=
  require String.eqb (TaskID e) (Snapshot.SnapshotID (Capture.Binding capture)) &&
          String.eqb (Status e) finalizationTransferStatus && bool_decide (Error e = None) orelse [Other] ;;
  match result_json e with
  | None => Err [Other]
  | Some j =>
      require exactJournalFields j Transfer.record_names orelse [Other] ;;
      match decode_struct Transfer.fields Transfer.zero j with
      | None => Err [Other]
      | Some r =>
          require Transfer.validate r orelse [Other] ;;
          require SameFinalizationInput (Transfer.Capture r) capture orelse [Other] ;;
          Ok (mkTransferEntry e r)
      end
  end.

Section Journal.
Context {L Env : Type} `{TaskStore L Env}.

(** [load] *)
Definition load_transfer (l : L) (capture : FinalizationRecord) : result error (option finalizationTransferEntry) :=
  found ← of_ledger (store_get l (Snapshot.SnapshotID (Capture.Binding capture)));
  match found with
  | None => Ok None
  | Some e => d ← decode_transfer e capture; Ok (Some d)
  end.

(** Whether [save] may replace [previous] by the record. *)
Definition may_follow (previous : finalizationTransferEntry) (r : finalizationTransferRecord) : result error unit :=
  let old := frecord previous in
  require SameFinalizationInput (Transfer.Capture old) (Transfer.Capture r) orelse conflict ;;
  _ ← match Transfer.Receipt old with
      | None => Ok tt
      | Some before =>
          match Transfer.Receipt r with
          | None => Err conflict
          | Some x =>
              require FinReceipt.ValidateReceipt x (Ack.input_of (Transfer.Capture r)) (Some before) orelse [Other] ;;
              Ok tt
          end
      end;
  require negb (is_some (Transfer.Publication old)) ||
          bool_decide (Transfer.Publication old = Transfer.Publication r) orelse conflict ;;
  Ok tt.

(** [save]; a saved entry is read back. *)
Definition save_transfer (env : Env) (l : L) (previous : option finalizationTransferEntry)
    (r : finalizationTransferRecord) : L * result error (option finalizationTransferEntry) :=
  if negb (Transfer.validate r) then (l, Err [Other]) else
  match match previous with Some p => may_follow p r | None => Ok tt end with
  | Err x => (l, Err x)
  | Ok _ =>
      match payload_of (encode_struct Transfer.fields r) with
      | None => (l, Err [Other])
      | Some payload =>
          let e := mkEntry (Transfer.id r) finalizationTransferStatus (Some payload) None zero_time in
          let '(l', swapped) := store_swap env l (option_map fentry previous) e in
          match swapped with
          | Err x => (l', Err [LedgerError x])
          | Ok _ => (l', load_transfer l' (Transfer.Capture r))
          end
      end
  end.

End Journal.
