(* ===== verification/FinalizationCodec.v ===== *)
(** * Captures and receipts read back

    Every valid capture, receipt and publication, written to JSON and read by
    its strict decoder, is the same again. *)

From S2P Require Import Prelude GoText GoTime GoJson GoUtf8 GoJsonText GoJsonValue GoJsonDecode GoJsonStruct GoJsonPrint.
From S2P Require Import Manifest ManifestCodec StartResult Ledger LedgerFacts DevicePayload DeviceCodec.
From S2P Require Import Deployment DeploymentCodec Finalization.
From Stdlib.Strings Require Import Ascii.

(** ** Fields *)

Lemma time_utf8 t : valid_utf8 (codes (format_rfc3339 t)) = true.
Proof. apply plain_utf8, format_plain. Qed.

Lemma carries_time {R} name get set (r : R) :
  valid_utf8 (codes name) = true → in_four_digit_years (get r) → carries r (time_field name get set).
Proof.
  intros Hn Ht. split; [done|]. intros v [= <-]. split_and!; [apply time_utf8|done|].
  intros v' current st d Hst. inversion 1; subst. cbn [time_field fdec tree time_of_json].
  by apply parse_strict_format.
Qed.

Lemma carries_int_omit {R} name get set (r : R) :
  valid_utf8 (codes name) = true → 0 ≤ get r ≤ max_int64 → carries r (int_omit_field name get set).
Proof.
  intros Hn Hz. split; [done|]. cbn. intros v. destruct (get r =? 0); [done|]. intros [= <-]. split_and!.
  - apply number_itoa. unfold max_int64, max_uint64 in *. lia.
  - done.
  - intros v' current st d Hst. inversion 1; subst. by apply int_of_itoa.
Qed.

(** ** Strict decoders *)

(** The names of the written members, and those that are always written. *)
Lemma written_names {R} (fields : list (field R)) r allowed :
  forallb (λ n, bool_decide (n ∈ allowed)) (names fields) = true →
  map fst (flat_map (encode_field r) fields) ⊆ allowed.
Proof.
  rewrite forallb_forall. intros Ha n (m & -> & (f & Hf & <- & _)%encode_member)%list_elem_of_fmap.
  specialize (Ha (fname f)). rewrite bool_decide_eq_true in Ha. apply Ha, list_elem_of_In. by apply list_elem_of_fmap_2.
Qed.

Lemma always_written {R} (fields : list (field R)) r required :
  forallb (λ n, existsb (λ f, String.eqb (fname f) n && present r f) fields) required = true →
  required ⊆ map fst (flat_map (encode_field r) fields).
Proof.
  rewrite forallb_forall. intros Hr n Hn%list_elem_of_In. apply Hr, existsb_exists in Hn as (f & Hf & Hb).
  apply andb_true_iff in Hb as [<-%String.eqb_eq Hp]. rewrite encode_keys.
  apply list_elem_of_fmap_2, list_elem_of_In, List.filter_In. by split.
Qed.

(** None of the members with these names is written as null. *)
Lemma never_null {R} (fields : list (field R)) r (required : list string) :
  forallb (λ f, negb (bool_decide (fname f ∈ required)) ||
                match fenc f (fget f r) with Some v => negb (nullish v) | None => true end) fields = true →
  Forall (λ m, m.1 ∈ required → nullish m.2 = false) (flat_map (encode_field r) fields).
Proof.
  rewrite forallb_forall. intros Hn. apply list.Forall_forall. intros m (f & Hf & <- & Hv)%encode_member Hin.
  apply list_elem_of_In in Hf. specialize (Hn f Hf). rewrite bool_decide_eq_true_2, Hv in Hn by done.
  cbn [negb orb] in Hn. by apply negb_true_iff in Hn.
Qed.

Lemma known_carried_into {R} (fields : list (field R)) r :
  disjoint_fields fields → Forall (carries r) fields → (∀ zero, rebuild fields zero r = r) →
  carried (encode_struct fields r) (λ current _, decode_known fields current) r.
Proof.
  intros Hd Hc Hb. destruct (struct_carried fields r r Hd Hc (Hb r)) as (Hf & Hdist & _).
  split_and!; [done|done|]. intros v' current st d Hst Hs.
  pose proof (struct_carried fields current r Hd Hc (Hb current)) as Hcur.
  destruct (known_carried fields current r Hcur) as (_ & _ & Hdec). by apply (Hdec v' current).
Qed.

Section Decoders.
Context {R : Type} (fields : list (field R)) (zero r : R).
Hypothesis Hc : carried (encode_struct fields r) (λ _ _, decode_struct fields zero) r.

Abbreviation written := (flat_map (encode_field r) fields).

Lemma outer_keys st d v :
  same (encode_struct fields r) v →
  rejectReceiptDuplicates (tree st d v) = true ∧ keys_of (tree st d v) ≡ₚ map fst written ∧
  ∀ name, name ∈ map fst written → has_member (tree st d v) name = true ∧
    (Forall (λ m, m.1 = name → nullish m.2 = false) written → has_value (tree st d v) name = true).
Proof.
  intros Hs. destruct Hc as (_ & Hd & _). pose proof (same_distinct _ _ Hs Hd) as Hd'.
  destruct (same_keys _ _ Hs) as (l & -> & Hk & Hx). apply distinct_obj in Hd' as [Hn _]. split_and!.
  - cbn [tree rejectReceiptDuplicates]. apply bool_decide_eq_true. by rewrite map_map.
  - cbn [tree keys_of]. rewrite map_map. cbn. by rewrite remove_dups_id.
  - intros name Hin. rewrite <- Hk in Hin. apply list_elem_of_fmap in Hin as ([k x] & -> & Hin). cbn [fst].
    unfold has_member, has_value. rewrite (raw_member_tree st d l k x) by done. split; [done|].
    intros Hnull. destruct (Hx k x Hin) as (y & Hy & Hyx). rewrite list.Forall_forall in Hnull.
    specialize (Hnull _ Hy eq_refl). cbn in Hnull. rewrite <- (same_nullish _ _ Hyx) in Hnull. by destruct x.
Qed.

Lemma journal_carried required optional :
  map fst written ⊆ required ++ optional → required ⊆ map fst written →
  Forall (λ m, nullish m.2 = false) written → (height (encode_struct fields r) ≤ max_depth)%nat →
  carried (encode_struct fields r) (λ _ raw _, decodeJournalFields fields zero required optional raw) r.
Proof.
  intros Hall Hreq Hnull Hh. destruct Hc as (Hf & Hd & _). split_and!; [done|done|].
  intros v current st d Hst Hs. unfold decodeJournalFields.
  rewrite (validate_object st d (required ++ optional) written v); try done.
  - cbn [mbind option_bind]. destruct (outer_keys st d v Hs) as (-> & _ & Hm).
    assert (forallb (has_member (tree st d v)) required = true) as ->.
    { apply forallb_forall. intros name Hname%list_elem_of_In. by apply Hm, Hreq. }
    destruct (known_carried fields zero r Hc) as (_ & _ & Hdec). by apply (Hdec v zero).
  - etrans; [by apply same_height|done].
  - by eapply same_faithful.
Qed.

Lemma strict_fields_carried required nullable :
  map fst written ≡ₚ required ++ nullable →
  Forall (λ m, m.1 ∈ required → nullish m.2 = false) written →
  carried (encode_struct fields r) (λ _ _, decodeFinalizationFields fields zero required nullable) r.
Proof.
  intros Hp Hnull. destruct Hc as (Hf & Hd & Hdec). split_and!; [done|done|].
  intros v current st d Hst Hs. unfold decodeFinalizationFields. destruct (outer_keys st d v Hs) as (-> & Hk & Hm).
  assert (length (keys_of (tree st d v)) = (length required + length nullable)%nat) as ->.
  { by rewrite Hk, Hp, length_app. }
  rewrite Nat.eqb_refl. cbn [andb].
  assert (forallb (has_value (tree st d v)) required = true) as ->.
  { apply forallb_forall. intros name Hname%list_elem_of_In. apply Hm.
    - rewrite Hp. apply elem_of_app. by left.
    - eapply list.Forall_impl; [exact Hnull|]. intros m Hx Hm1. apply Hx. by rewrite Hm1. }
  assert (forallb (has_member (tree st d v)) nullable = true) as ->.
  { apply forallb_forall. intros name Hname%list_elem_of_In. apply Hm. rewrite Hp. apply elem_of_app. by right. }
  by apply (Hdec v zero).
Qed.
End Decoders.

(** ** Captures *)

Lemma skill_uuid_text s : validSkillUUID s = true → valid_utf8 (codes s) = true.
Proof. intros Hs. by apply ascii_utf8, uuid_ascii. Qed.

Lemma version_text s : Pins.skillReleaseVersion s = true → valid_utf8 (codes s) = true.
Proof.
  intros Hs. apply ascii_utf8. destruct s as [|c s]; [done|]. cbn in *.
  apply andb_true_iff in Hs as [[Hc Hs]%andb_true_iff _]. apply andb_true_iff. split.
  - revert Hc. clear. by destruct c as [[] [] [] [] [] [] [] []].
  - revert Hs. apply all_chars_impl. clear. intros c. by destruct c as [[] [] [] [] [] [] [] []].
Qed.

Lemma commit_text s : Pins.skillReleaseCommit s = true → valid_utf8 (codes s) = true.
Proof.
  intros Hs. apply ascii_utf8. eapply classes_ascii; [|exact Hs]. apply list.Forall_replicate. exact hex_ascii.
Qed.

Lemma pins_carried p :
  Pins.Validate p = true → carried (encode_struct Pins.fields p) (λ current _, decode_known Pins.fields current) p.
Proof.
  unfold Pins.Validate. rewrite !andb_true_iff, orb_true_iff, bool_decide_eq_true, andb_true_iff, Z.eqb_eq.
  intros [[[Hv Hc] Ht] Hd].
  assert (He : carried (encode_struct Pins.ego_fields (Pins.EgoBrowser p))
                 (λ current _, decode_known Pins.ego_fields current) (Pins.EgoBrowser p)).
  { apply known_carried_into; [solve_disjoint| |by destruct (Pins.EgoBrowser p)].
    apply version_text in Hv. apply commit_text in Hc. apply digest_text in Ht.
    do 3 (apply Forall_cons_2; [by apply carries_str|]). constructor. }
  assert (Hdev : carried (encode_struct Pins.device_fields (Pins.Device p))
                   (λ current _, decode_known Pins.device_fields current) (Pins.Device p)).
  { apply known_carried_into; [solve_disjoint| |by destruct (Pins.Device p)].
    apply Forall_cons_2; [apply carries_str; [done|]|apply Forall_cons_2; [apply carries_int; [done|]|constructor]].
    - destruct Hd as [->|[Hd%version_text _]]; [done|exact Hd].
    - destruct Hd as [->|[_ ->]]; unfold max_int64; cbn; lia. }
  apply known_carried_into; [solve_disjoint| |by destruct p].
  repeat (apply Forall_cons_2; [by apply carries_sub|]). constructor.
Qed.

(** The integers are int64. *)
Definition binding_width (b : SnapshotBinding) : Prop :=
  Snapshot.DirectoryEpoch b ≤ max_int64 ∧ Snapshot.LibraryGeneration b ≤ max_int64.

Lemma pins_height p : (height (encode_struct Pins.fields p) ≤ 2)%nat.
Proof.
  apply struct_height. repeat (apply Forall_cons_2; [intros v [= <-]; apply struct_height; solve_heights|]). constructor.
Qed.

Lemma binding_height b : (height (encode_struct Snapshot.fields b) ≤ 3)%nat.
Proof.
  apply struct_height. unfold Snapshot.fields, Snapshot.pins_field. do 10 (apply Forall_cons_2;
    [intros v; cbn; repeat case_match; intros [= <-]; cbn; lia|]).
  apply Forall_cons_2; [|constructor]. cbn [fenc fget]. intros v. case_bool_decide; [done|]. intros [= <-].
  etrans; [apply pins_height|lia].
Qed.

Lemma binding_carried b :
  Snapshot.Validate b = true → binding_width b →
  carried (encode_struct Snapshot.fields b) (λ _ raw _, Snapshot.of_text raw) b.
Proof.
  unfold Snapshot.Validate. rewrite !andb_true_iff, !orb_true_iff, !andb_true_iff, forallb_forall, !String.eqb_eq.
  rewrite Z.ltb_lt, Z.leb_le, bool_decide_eq_true.
  intros [[[[[Hids He] Hg] Ht] Htask] Hpins] [We Wg].
  assert (Htexts : valid_utf8 (codes (Snapshot.TaskID b)) = true ∧ valid_utf8 (codes (Snapshot.PreparationDigest b)) = true).
  { destruct Htask as [[-> ->]|[H1 H2]]; [done|]. split; [by apply skill_uuid_text|by apply digest_text]. }
  destruct Htexts as [Htt Hpt].
  assert (Hc : carried (encode_struct Snapshot.fields b) (λ _ _, decode_struct Snapshot.fields Snapshot.zero) b).
  { apply struct_carried; [solve_disjoint| |].
    - do 5 (apply Forall_cons_2; [apply carries_str; [done|apply skill_uuid_text, Hids; cbn; tauto]|]).
      do 2 (apply Forall_cons_2; [apply carries_int; [done|lia]|]).
      apply Forall_cons_2; [apply carries_str; [done|by apply digest_text]|].
      do 2 (apply Forall_cons_2; [by apply carries_str_omit|]). apply Forall_cons_2; [|constructor].
      split; [done|]. cbn [Snapshot.pins_field fenc fget fdec]. intros v. case_bool_decide as Hz; [done|].
      intros [= <-]. destruct Hpins as [|Hp]; [done|]. by apply pins_carried.
    - unfold rebuild, present. destruct b as [? ? ? ? ? ? ? ? task prep pins]. cbn.
      destruct (String.eqb_spec task ""), (String.eqb_spec prep ""); subst; cbn;
        case_bool_decide; subst; done. }
  unfold Snapshot.of_text. apply journal_carried; [done|..].
  - by apply written_names.
  - by apply always_written.
  - apply list.Forall_forall. intros m (f & Hf & _ & Hv)%encode_member. unfold Snapshot.fields in Hf.
    repeat (apply elem_of_cons in Hf as [->|Hf]; [revert Hv; cbn; repeat case_match; by intros [= <-]|]).
    by apply not_elem_of_nil in Hf.
  - etrans; [apply binding_height|]. unfold max_depth. lia.
Qed.

Definition capture_width (c : FinalizationRecord) : Prop := binding_width (Capture.Binding c).

Lemma capture_height c : (height (encode_struct Capture.fields c) ≤ 4)%nat.
Proof.
  apply struct_height. unfold Capture.fields.
  do 2 (apply Forall_cons_2; [intros v; cbn; repeat case_match; intros [= <-]; cbn; lia|]).
  apply Forall_cons_2; [intros v [= <-]; apply binding_height|].
  repeat (apply Forall_cons_2; [intros v; cbn; intros [= <-]; cbn; lia|]). constructor.
Qed.

Lemma state_text s u : Capture.validFinalizationState s u = true → valid_utf8 (codes s) = true.
Proof.
  unfold Capture.validFinalizationState. rewrite orb_true_iff, bool_decide_eq_true. intros [Hs|Hs].
  - by repeat (apply elem_of_cons in Hs as [->|Hs]; [done|]); apply not_elem_of_nil in Hs.
  - destruct u; [by apply String.eqb_eq in Hs as ->|]. apply bool_decide_eq_true in Hs.
    by repeat (apply elem_of_cons in Hs as [->|Hs]; [done|]); apply not_elem_of_nil in Hs.
Qed.

Lemma capture_carried c :
  Capture.Validate c = true → capture_width c →
  carried (encode_struct Capture.fields c) (λ _ raw _, Capture.of_text raw) c.
Proof.
  unfold Capture.Validate. rewrite !andb_true_iff, Z.eqb_eq, !Z.leb_le.
  intros [[[[[Hb Hv] Ho] Ho'] Ht] Hs] Hw.
  assert (Hc : carried (encode_struct Capture.fields c) (λ _ _, decode_struct Capture.fields Capture.zero) c).
  { apply struct_carried; [solve_disjoint| |].
    - apply Forall_cons_2; [apply carries_int; [done|rewrite Hv; unfold max_int64; lia]|].
      apply Forall_cons_2; [apply carries_int_omit; [done|unfold max_int64; lia]|].
      apply Forall_cons_2; [split; [done|]; intros v [= <-]; by apply binding_carried|].
      apply Forall_cons_2; [apply carries_str; [done|by apply digest_text]|].
      apply Forall_cons_2; [by apply carries_bool|].
      apply Forall_cons_2; [apply carries_str; [done|by eapply state_text]|]. constructor.
    - unfold rebuild, present. destruct c as [v o b t u s]. cbn. by destruct (Z.eqb_spec o 0); subst. }
  unfold Capture.of_text. apply journal_carried; [done|..].
  - by apply written_names.
  - by apply always_written.
  - apply list.Forall_forall. intros m (f & Hf & _ & Hm)%encode_member. unfold Capture.fields in Hf.
    repeat (apply elem_of_cons in Hf as [->|Hf]; [revert Hm; cbn; repeat case_match; by intros [= <-]|]).
    by apply not_elem_of_nil in Hf.
  - etrans; [apply capture_height|]. unfold max_depth. lia.
Qed.

(** ** Receipts and publications *)

(** The attempt is an int64 and the expiry is in a year JSON can hold. *)
Definition upload_width (x : FinalizationReceipt) : Prop :=
  FinReceipt.UploadAttempt x ≤ max_int64 ∧ in_four_digit_years (FinReceipt.ExpiresAt x).

Definition publication_width (p : PublicationReceipt) : Prop :=
  Publication_.Attempt p ≤ max_int64 ∧ Publication_.ConflictCount p ≤ max_int64.

Lemma receipt_status x i :
  FinReceipt.valid x i = true →
  valid_utf8 (codes (FinReceipt.Status x)) = true ∧ valid_utf8 (codes (FinReceipt.UploadStatus x)) = true ∧
  ∀ c, FinReceipt.CheckpointID x = Some c → valid_utf8 (codes c) = true.
Proof.
  unfold FinReceipt.valid. rewrite !andb_true_iff. intros [_ Hs].
  destruct (String.eqb_spec (FinReceipt.Status x) "upload_pending") as [->|_].
  - apply andb_true_iff in Hs as [Hc Hu]. apply orb_true_iff in Hu as [Hu%String.eqb_eq|Hu%String.eqb_eq]; rewrite Hu.
    all: split_and!; [done|done|]; by destruct (FinReceipt.CheckpointID x).
  - apply andb_true_iff in Hs as [->%String.eqb_eq Hs]. destruct (FinReceipt.CheckpointID x) as [c|]; [|done].
    apply andb_true_iff in Hs as [Hc Hs]. split_and!; [|done|intros c' [= <-]; by apply skill_uuid_text].
    case_bool_decide as Hin.
    + by repeat (apply elem_of_cons in Hin as [->|Hin]; [done|]); apply not_elem_of_nil in Hin.
    + destruct (String.eqb_spec (FinReceipt.Status x) "persisted_unclean") as [->|_]; [done|].
      by apply String.eqb_eq in Hs as ->.
Qed.

Lemma finalization_receipt_carried x i :
  FinReceipt.valid x i = true → upload_width x →
  carried (encode_struct FinReceipt.fields x) (λ _ _, FinReceipt.of_json) x.
Proof.
  intros Hv [Wa Wt]. destruct (receipt_status x i Hv) as (Hst & Hus & Hck).
  unfold FinReceipt.valid in Hv. rewrite !andb_true_iff, !String.eqb_eq, Z.ltb_lt in Hv.
  destruct Hv as [[[[[[[[Hi Hid] Hsn] Hd] _] Hup] Ha] _] _].
  unfold Input.Validate in Hi. rewrite !andb_true_iff in Hi. destruct Hi as [[[Hs _] _] Hdig].
  rewrite <- Hsn in Hs. rewrite <- Hd in Hdig.
  apply skill_uuid_text in Hid, Hs, Hup. apply digest_text in Hdig.
  unfold FinReceipt.of_json. apply strict_fields_carried.
  - apply struct_carried; [solve_disjoint| |by destruct x].
    do 3 (apply Forall_cons_2; [by apply carries_str|]).
    apply Forall_cons_2; [by apply carries_bool|]. apply Forall_cons_2; [by apply carries_str|].
    apply Forall_cons_2; [by apply carries_pointer|]. apply Forall_cons_2; [by apply carries_str|].
    apply Forall_cons_2; [apply carries_int; [done|lia]|]. apply Forall_cons_2; [by apply carries_str|].
    apply Forall_cons_2; [by apply carries_time|]. constructor.
  - rewrite encode_keys. vm_compute. solve_Permutation.
  - by apply never_null.
Qed.

Lemma reason_text s : Publication_.publicationReason s = true → valid_utf8 (codes s) = true.
Proof.
  intros Hs. apply ascii_utf8. destruct s as [|c s]; [done|]. cbn in *.
  apply andb_true_iff in Hs as [[Hc Hs]%andb_true_iff _]. apply andb_true_iff. split.
  - revert Hc. clear. by destruct c as [[] [] [] [] [] [] [] []].
  - revert Hs. apply all_chars_impl. clear. intros c. by destruct c as [[] [] [] [] [] [] [] []].
Qed.

Lemma consistent_texts p u :
  Publication_.consistent p u = true →
  valid_utf8 (codes (Publication_.Status p)) = true ∧
  ∀ c, Publication_.ResultCheckpointID p = Some c → valid_utf8 (codes c) = true.
Proof.
  unfold Publication_.consistent.
  destruct (String.eqb_spec (Publication_.Status p) "published") as [->|_].
  { rewrite !andb_true_iff. intros [_ Hc]. split; [done|]. intros c Heq. rewrite Heq in Hc. by apply skill_uuid_text. }
  destruct (String.eqb_spec (Publication_.Status p) "conflicted") as [->|_].
  { rewrite !andb_true_iff. intros [_ Hc]. split; [done|]. intros c Heq. by rewrite Heq in Hc. }
  destruct (String.eqb_spec (Publication_.Status p) "detached") as [->|_].
  { destruct (Publication_.Reason p); [|done]. rewrite !andb_true_iff. intros [[_ Hc] _]. split; [done|].
    intros c Heq. by rewrite Heq in Hc. }
  destruct (String.eqb_spec (Publication_.Status p) "superseded") as [->|_]; [|done].
  rewrite !andb_true_iff. intros [_ Hc]. split; [done|]. intros c Heq. by rewrite Heq in Hc.
Qed.

Lemma publication_carried p i x :
  Publication_.ValidateReceipt p i x = true → publication_width p →
  carried (encode_struct Publication_.fields p) (λ _ _, Publication_.of_json) p.
Proof.
  unfold Publication_.ValidateReceipt. rewrite !andb_true_iff, String.eqb_eq, Z.ltb_lt, Z.leb_le.
  intros [[[[[[[Hx _] Hid] Hf] Ha] Hn] Hr] [Hst Hck]%consistent_texts] [Wa Wn].
  assert (Hfid : valid_utf8 (codes (Publication_.FinalizationID p)) = true).
  { rewrite Hf. unfold FinReceipt.valid in Hx. rewrite !andb_true_iff in Hx. apply skill_uuid_text. tauto. }
  assert (Hre : ∀ s, Publication_.Reason p = Some s → valid_utf8 (codes s) = true).
  { intros s Heq. rewrite Heq in Hr. by apply reason_text. }
  apply skill_uuid_text in Hid. unfold Publication_.of_json. apply strict_fields_carried.
  - apply struct_carried; [solve_disjoint| |by destruct p].
    do 2 (apply Forall_cons_2; [by apply carries_str|]).
    apply Forall_cons_2; [apply carries_int; [done|lia]|]. apply Forall_cons_2; [by apply carries_str|].
    do 2 (apply Forall_cons_2; [by apply carries_pointer|]).
    apply Forall_cons_2; [apply carries_int; [done|lia]|]. constructor.
  - rewrite encode_keys. vm_compute. solve_Permutation.
  - by apply never_null.
Qed.

Lemma receipt_flat x : (height (encode_struct FinReceipt.fields x) ≤ 1)%nat.
Proof. apply struct_height. solve_heights. Qed.

Lemma publication_flat p : (height (encode_struct Publication_.fields p) ≤ 1)%nat.
Proof. apply struct_height. solve_heights. Qed.
