(* ===== verification/FinalizationJournalFacts.v ===== *)
(** * What the journal of finalization transfers guarantees

    Proved for every durable map, hence for the ledger.  Whatever saves are
    made in whatever order, with stale views of the entry and failing writes,
    a snapshot has one capture, its upload only moves forward, a retained
    checkpoint and the decision on its publication stay, and the state the
    helper is told to acknowledge only moves along the allowed transitions. *)

From S2P Require Import Prelude GoText GoTime GoJson GoUtf8 GoJsonText GoJsonValue GoJsonDecode GoJsonStruct.
From S2P Require Import Manifest StartResult Ledger TaskStore LedgerFacts StartJournal StartJournalFacts DeviceCodec.
From S2P Require Import Deployment DeploymentCodec DeploymentJournal DeploymentJournalFacts.
From S2P Require Import Finalization FinalizationJournal FinalizationCodec.
From Stdlib.Strings Require Import Ascii.

(** ** Records in entries *)

(** The numbers are int64 and the expiry is in a year JSON can hold. *)
Definition transfer_width (r : finalizationTransferRecord) : Prop :=
  capture_width (Transfer.Capture r) ∧
  (∀ x, Transfer.Receipt r = Some x → upload_width x) ∧
  (∀ p, Transfer.Publication r = Some p → publication_width p).

Definition transfer_writable (r : finalizationTransferRecord) : Prop :=
  Transfer.validate r = true ∧ transfer_width r.

Lemma transfer_validate_spec r :
  Transfer.validate r = true ↔
  Transfer.SchemaVersion r = 1 ∧ Capture.ObjectsVersion (Transfer.Capture r) = 1 ∧
  Capture.Validate (Transfer.Capture r) = true ∧
  (∀ x, Transfer.Receipt r = Some x → FinReceipt.valid x (Ack.input_of (Transfer.Capture r)) = true) ∧
  (∀ p, Transfer.Publication r = Some p → ∃ x, Transfer.Receipt r = Some x ∧
     Publication_.ValidateReceipt p (Ack.input_of (Transfer.Capture r)) x = true).
Proof.
  unfold Transfer.validate, FinReceipt.ValidateReceipt. rewrite !andb_true_iff, !Z.eqb_eq.
  destruct (Transfer.Receipt r) as [x|], (Transfer.Publication r) as [p|]; rewrite ?andb_true_r.
  all: split; [intros [[[[? ?] ?] ?] ?]; split_and!; naive_solver|].
  all: intros (? & ? & ? & Hx & Hp); split_and!; try done; try (by apply Hx).
  - by destruct (Hp p eq_refl) as (? & [= <-] & ?).
  - by destruct (Hp p eq_refl) as (? & ? & ?).
Qed.

Lemma transfer_carried r :
  transfer_writable r →
  carried (encode_struct Transfer.fields r) (λ _ _, decode_struct Transfer.fields Transfer.zero) r.
Proof.
  intros [(Hv & _ & Hc & Hx & Hp)%transfer_validate_spec (Wc & Wx & Wp)].
  apply struct_carried; [solve_disjoint| |by destruct r].
  apply Forall_cons_2; [apply carries_int; [done|rewrite Hv; unfold max_int64; lia]|].
  apply Forall_cons_2; [split; [done|]; intros v [= <-]; by apply capture_carried|].
  apply Forall_cons_2; [apply carries_pointer_to; [done|]|].
  { intros x Hr. split; [|done]. eapply finalization_receipt_carried; [by apply Hx|by apply Wx]. }
  apply Forall_cons_2; [apply carries_pointer_to; [done|]|constructor].
  intros p Hr. split; [|done]. destruct (Hp p Hr) as (x & _ & Hpx).
  eapply publication_carried; [exact Hpx|by apply Wp].
Qed.

Lemma transfer_height r : (height (encode_struct Transfer.fields r) ≤ 5)%nat.
Proof.
  apply struct_height. apply Forall_cons_2; [intros v [= <-]; cbn; lia|].
  apply Forall_cons_2; [intros v [= <-]; apply capture_height|].
  apply Forall_cons_2; [intros v; apply pointer_height; intros x; etrans; [apply receipt_flat|lia]|].
  apply Forall_cons_2; [intros v; apply pointer_height; intros x; etrans; [apply publication_flat|lia]|constructor].
Qed.

Lemma transfer_payload r :
  transfer_writable r →
  ∃ m, payload_of (encode_struct Transfer.fields r) = Some m ∧
    same (encode_struct Transfer.fields r) (VObj m) ∧ storable_object m.
Proof.
  intros Hw. apply (struct_payload _ Transfer.zero _ 5);
    [by apply transfer_carried|apply transfer_height|lia|by destruct r].
Qed.

(** ** Inputs *)

Lemma same_input_refl a : SameFinalizationInput a a = true.
Proof. by apply bool_decide_eq_true_2. Qed.

Lemma same_input_trans a b c :
  SameFinalizationInput a b = true → SameFinalizationInput b c = true → SameFinalizationInput a c = true.
Proof. unfold SameFinalizationInput. rewrite !bool_decide_eq_true. by intros -> ->. Qed.

Lemma same_input_sym a b : SameFinalizationInput a b = true → SameFinalizationInput b a = true.
Proof. unfold SameFinalizationInput. by rewrite !bool_decide_eq_true. Qed.

Lemma same_input_spec a b :
  SameFinalizationInput a b = true ↔
  Capture.Version a = Capture.Version b ∧ Capture.ObjectsVersion a = Capture.ObjectsVersion b ∧
  Capture.Binding a = Capture.Binding b ∧ Capture.TreeDigest a = Capture.TreeDigest b ∧
  Capture.Unclean a = Capture.Unclean b.
Proof.
  unfold SameFinalizationInput. rewrite bool_decide_eq_true. destruct a, b; cbn. naive_solver.
Qed.

Lemma same_input_of a b : SameFinalizationInput a b = true → Ack.input_of a = Ack.input_of b.
Proof. rewrite same_input_spec. unfold Ack.input_of. by intros (_ & _ & -> & -> & ->). Qed.

(** ** Decoded entries *)

Lemma decode_transfer_spec e c p :
  decode_transfer e c = Ok p ↔
  fentry p = e ∧ Status e = finalizationTransferStatus ∧ Error e = None ∧
  Transfer.validate (frecord p) = true ∧ SameFinalizationInput (Transfer.Capture (frecord p)) c = true ∧
  TaskID e = Transfer.id (frecord p) ∧
  ∃ j, result_json e = Some j ∧ exactJournalFields j Transfer.record_names = true ∧
       decode_struct Transfer.fields Transfer.zero j = Some (frecord p).
Proof.
  assert (Hid : ∀ r, SameFinalizationInput (Transfer.Capture r) c = true →
                     Transfer.id r = Snapshot.SnapshotID (Capture.Binding c)).
  { intros r (_ & _ & Hb & _)%same_input_spec. unfold Transfer.id. by rewrite Hb. }
  unfold decode_transfer. split.
  - intros Hd. go_inv Hd. rewrite !andb_true_iff, !String.eqb_eq, bool_decide_eq_true in Hguard.
    destruct Hguard as [[Ht Hs] He]. destruct (result_json e) as [j|] eqn:Ej; [|done]. go_inv Hd.
    destruct (decode_struct _ _ j) as [r|] eqn:Er; [|done]. go_inv Hd. apply Ok_inj in Hd. subst p.
    split_and!; try done; [by rewrite Ht, <- (Hid r)|]. by exists j.
  - intros (<- & Hs & He & Hv & Hc & Ht & j & Hj & Hn & Hr).
    rewrite Ht, (Hid _ Hc), String.eqb_refl, Hs, He, Hj, Hn, Hr, Hv, Hc. by destruct p.
Qed.

Lemma decode_transfer_written r c e m :
  transfer_writable r → SameFinalizationInput (Transfer.Capture r) c = true →
  Status e = finalizationTransferStatus → Error e = None → TaskID e = Transfer.id r →
  Result e = Some m → same (encode_struct Transfer.fields r) (VObj m) → storable_object m →
  decode_transfer e c = Ok (mkTransferEntry e r).
Proof.
  intros Hw Hc Hst He Hid Hm Hs Hobj. apply decode_transfer_spec. cbn [fentry frecord]. pose proof Hw as [Hv _].
  split_and!; try done. exists (tree compact 0 (VObj m)).
  by apply (stored_struct _ _ r _ _ _ (transfer_carried r Hw)).
Qed.

(** ** What one save keeps *)

(** What a receipt keeps of an earlier one. *)
Record receipt_kept (x y : FinalizationReceipt) : Prop := {
  rk_id : FinReceipt.ID y = FinReceipt.ID x;
  rk_attempt : FinReceipt.UploadAttempt x ≤ FinReceipt.UploadAttempt y;
  rk_checkpoint c : FinReceipt.CheckpointID x = Some c →
    FinReceipt.CheckpointID y = Some c ∧ FinReceipt.UploadID y = FinReceipt.UploadID x ∧
    FinReceipt.UploadAttempt y = FinReceipt.UploadAttempt x
}.

Lemma follows_kept x y : FinReceipt.follows y x = true → receipt_kept x y.
Proof.
  unfold FinReceipt.follows. rewrite !andb_true_iff, String.eqb_eq, Z.leb_le.
  intros [[[Hid Ha] Hb] Hc]. split; [done|done|]. intros c Hx. rewrite Hx in Hc.
  apply andb_true_iff in Hc as [Hy%bool_decide_eq_true Hu]. rewrite Hu in Hb.
  apply eqb_prop, Z.eqb_eq in Hb. by apply String.eqb_eq in Hu.
Qed.

#[local] Instance receipt_kept_order : PreOrder receipt_kept.
Proof.
  split.
  - intros x. by split.
  - intros x y z [A1 A2 A3] [B1 B2 B3]. split; [congruence|lia|]. intros c Hx.
    destruct (A3 c Hx) as (Hy & ? & ?). destruct (B3 c Hy) as (? & ? & ?). split_and!; congruence.
Qed.

(** What the record of a snapshot keeps of an earlier one. *)
Record record_kept (r r' : finalizationTransferRecord) : Prop := {
  kept_capture : SameFinalizationInput (Transfer.Capture r) (Transfer.Capture r') = true;
  kept_receipt x : Transfer.Receipt r = Some x → ∃ y, Transfer.Receipt r' = Some y ∧ receipt_kept x y;
  kept_publication p : Transfer.Publication r = Some p → Transfer.Publication r' = Some p
}.

#[export] Instance record_kept_order : PreOrder record_kept.
Proof.
  split.
  - intros r. split; [apply same_input_refl|by eexists|done].
  - intros r s t [A1 A2 A3] [B1 B2 B3]. split.
    + by eapply same_input_trans.
    + intros x Hx. destruct (A2 x Hx) as (y & Hy & Hxy). destruct (B2 y Hy) as (z & Hz & Hyz).
      exists z. split; [done|by etrans].
    + auto.
Qed.

Lemma may_follow_kept p r : may_follow p r = Ok tt → record_kept (frecord p) r.
Proof.
  unfold may_follow. cbv zeta. intros Hf. go_inv Hf. split; [done| |].
  - intros x Hx. rewrite Hx in Hrun. destruct (Transfer.Receipt r) as [y|]; [|done]. go_inv Hrun.
    exists y. split; [done|]. apply follows_kept. unfold FinReceipt.ValidateReceipt in Hguard1.
    rewrite !andb_true_iff in Hguard1. tauto.
  - intros q Hq. rewrite Hq in Hguard0. by apply bool_decide_eq_true in Hguard0.
Qed.

(** ** States the helper is told *)

Definition ack_of (r : finalizationTransferRecord) (x : FinalizationReceipt) : FinalizationAcknowledgement :=
  Ack.mk 1 (Transfer.Capture r) x (Transfer.Publication r).

(** The state the receipts of a record prove, when there is one. *)
Definition proven_state (r : finalizationTransferRecord) : option string :=
  x ← Transfer.Receipt r; Ack.State (ack_of r x).

(** How the state of a capture may change in the course of its transfer. *)
Definition state_moves (unclean : bool) : string → string → Prop :=
  rtc (λ s t, Capture.allowedFinalizationTransition s t unclean = true).

Lemma ack_valid r x :
  Transfer.validate r = true → Transfer.Receipt r = Some x → Ack.Validate (ack_of r x) = true.
Proof.
  intros (_ & Ho & Hc & Hx & Hp)%transfer_validate_spec Hr. unfold Ack.Validate. cbn.
  rewrite Ho, Hc. unfold FinReceipt.ValidateReceipt. rewrite (Hx x Hr). cbn.
  destruct (Transfer.Publication r) as [p|] eqn:E; [|done].
  destruct (Hp p eq_refl) as (y & Hy & Hv). rewrite Hr in Hy. by injection Hy as <-.
Qed.

(** Whether the server holds the checkpoint, and how its publication was decided. *)
Definition state_of (unclean retained : bool) (decision : option string) : string :=
  match decision with
  | Some status => if negb (String.eqb status "superseded") then status
                   else if retained then (if unclean then "persisted_unclean" else "persisted") else "upload_pending"
  | None => if retained then (if unclean then "persisted_unclean" else "persisted") else "upload_pending"
  end.

Lemma proven_state_of r x :
  Transfer.validate r = true → Transfer.Receipt r = Some x →
  proven_state r = Some (state_of (Capture.Unclean (Transfer.Capture r)) (is_some (FinReceipt.CheckpointID x))
                           (option_map Publication_.Status (Transfer.Publication r))).
Proof.
  intros Hv Hx. unfold proven_state. rewrite Hx. cbn [mbind option_bind]. unfold Ack.State.
  rewrite (ack_valid r x) by done. cbn. unfold state_of.
  destruct (Transfer.Publication r) as [p|]; cbn; [destruct (String.eqb _ _); cbn; [|done]|].
  all: by destruct (FinReceipt.CheckpointID x).
Qed.

(** The decisions on the publication of a session that ended so. *)
Lemma decision_moves p i x :
  Publication_.ValidateReceipt p i x = true →
  is_some (FinReceipt.CheckpointID x) = true ∧
  (Publication_.Status p = "superseded" ∨
   Capture.allowedFinalizationTransition (if Input.Unclean i then "persisted_unclean" else "persisted")
     (Publication_.Status p) (Input.Unclean i) = true).
Proof.
  unfold Publication_.ValidateReceipt. rewrite !andb_true_iff. intros [[[[[[[_ Hc] _] _] _] _] _] Hs].
  split; [done|]. unfold Publication_.consistent in Hs.
  destruct (String.eqb_spec (Publication_.Status p) "published") as [->|_].
  { right. destruct (Input.Unclean i); [done|reflexivity]. }
  destruct (String.eqb_spec (Publication_.Status p) "conflicted") as [->|_].
  { right. destruct (Input.Unclean i); [done|reflexivity]. }
  destruct (String.eqb_spec (Publication_.Status p) "detached") as [->|_].
  { right. destruct (Input.Unclean i); reflexivity. }
  left. by destruct (String.eqb_spec (Publication_.Status p) "superseded").
Qed.

Lemma retained_moves (u a b : bool) :
  (a = true → b = true) → state_moves u (state_of u a None) (state_of u b None).
Proof.
  intros Hab. destruct a, b; try reflexivity; [by discriminate Hab|]. apply rtc_once. by destruct u.
Qed.

Lemma decided_moves (u a b : bool) (status : string) :
  (a = true → b = true) → b = true →
  status = "superseded" ∨
    Capture.allowedFinalizationTransition (if u then "persisted_unclean" else "persisted") status u = true →
  state_moves u (state_of u a None) (state_of u b (Some status)).
Proof.
  intros Hab -> Hs. unfold state_moves.
  transitivity (state_of u true None); [apply (retained_moves u a true); by intros|].
  unfold state_of. destruct (String.eqb_spec status "superseded") as [->|Hne]; [reflexivity|].
  destruct Hs as [|Hs]; [done|]. apply rtc_once. exact Hs.
Qed.

Definition decision_of (r : finalizationTransferRecord) : option string :=
  option_map Publication_.Status (Transfer.Publication r).

Lemma record_decision r x status :
  Transfer.validate r = true → Transfer.Receipt r = Some x → decision_of r = Some status →
  let u := Capture.Unclean (Transfer.Capture r) in
  is_some (FinReceipt.CheckpointID x) = true ∧ (status = "superseded" ∨
    Capture.allowedFinalizationTransition (if u then "persisted_unclean" else "persisted") status u = true).
Proof.
  intros (_ & _ & _ & _ & Hp)%transfer_validate_spec Hx Hd. unfold decision_of in Hd.
  destruct (Transfer.Publication r) as [p|]; [|done]. injection Hd as <-.
  destruct (Hp p eq_refl) as (y & Hy & Hv). rewrite Hx in Hy. injection Hy as <-. by apply decision_moves in Hv.
Qed.

(** A record that keeps another proves a state reached from the other's. *)
Lemma kept_moves r r' s :
  Transfer.validate r = true → Transfer.validate r' = true → record_kept r r' → proven_state r = Some s →
  ∃ s', proven_state r' = Some s' ∧ state_moves (Capture.Unclean (Transfer.Capture r)) s s'.
Proof.
  intros Hv Hv' [Hc Hr Hp] Hs. destruct (Transfer.Receipt r) as [x|] eqn:Ex;
    [|unfold proven_state in Hs; by rewrite Ex in Hs].
  destruct (Hr x eq_refl) as (y & Ey & [_ _ Hck]).
  rewrite (proven_state_of r x) in Hs by done. injection Hs as <-.
  rewrite (proven_state_of r' y) by done. eexists. split; [reflexivity|].
  apply same_input_spec in Hc as (_ & _ & _ & _ & Hu). rewrite <- Hu.
  assert (Hchk : is_some (FinReceipt.CheckpointID x) = true → is_some (FinReceipt.CheckpointID y) = true).
  { destruct (FinReceipt.CheckpointID x) as [c|]; [|done]. intros _. by destruct (Hck c eq_refl) as (-> & _). }
  pose proof (record_decision r' y) as Hd'. unfold decision_of in Hd'. rewrite <- Hu in Hd'.
  destruct (Transfer.Publication r) as [p|] eqn:Epub.
  - rewrite (Hp p eq_refl). destruct (record_decision r x (Publication_.Status p)) as [Hxc _]; try done.
    { unfold decision_of. by rewrite Epub. }
    rewrite Hxc, (Hchk Hxc). reflexivity.
  - destruct (Transfer.Publication r') as [p|]; [|by apply retained_moves].
    destruct (Hd' (Publication_.Status p)) as [Hyc Hst]; [done..|]. by apply decided_moves.
Qed.

(** ** Phases of a transfer *)

Inductive transfer_phase :=
  | Untouched
  | Moving (r : finalizationTransferRecord)
  | Foreign.

Definition transfer_phase_of (e : option Entry) : transfer_phase :=
  match e with
  | None => Untouched
  | Some e =>
      match j ← result_json e; decode_struct Transfer.fields Transfer.zero j with
      | Some r => match decode_transfer e (Transfer.Capture r) with Ok p => Moving (frecord p) | Err _ => Foreign end
      | None => Foreign
      end
  end.

Lemma phase_moving e c p : decode_transfer e c = Ok p → transfer_phase_of (Some e) = Moving (frecord p).
Proof.
  intros (He & Hs & Herr & Hv & Hc & Ht & j & Hj & Hn & Hr)%decode_transfer_spec.
  unfold transfer_phase_of. rewrite Hj. cbn [mbind option_bind]. rewrite Hr.
  replace (decode_transfer e (Transfer.Capture (frecord p))) with (Ok (E:=error) p); [done|].
  symmetry. apply decode_transfer_spec. split_and!; try done; [apply same_input_refl|]. by exists j.
Qed.

Lemma moving_valid e r : transfer_phase_of (Some e) = Moving r → decode_transfer e (Transfer.Capture r) = Ok (mkTransferEntry e r).
Proof.
  unfold transfer_phase_of. destruct (result_json e ≫= _) as [r0|]; [|done].
  destruct (decode_transfer e (Transfer.Capture r0)) as [p|] eqn:E; [|done]. intros [= <-].
  apply decode_transfer_spec in E as (He & Hs & Herr & Hv & Hc & Ht & Hj). apply decode_transfer_spec.
  cbn. split_and!; try done; apply same_input_refl.
Qed.

Inductive transfer_advances : transfer_phase → transfer_phase → Prop :=
  | tadv_same p : transfer_advances p p
  | tadv_begin r : transfer_advances Untouched (Moving r)
  | tadv_further r r' : record_kept r r' → transfer_advances (Moving r) (Moving r').

Section Journal.
Context {L Env : Type} `{DurableMap L Env}.

Definition transfer_at (l : L) (id : string) : transfer_phase := transfer_phase_of (content l id).

(** Entries some earlier read returned, possibly out of date. *)
Definition transfer_known (p : finalizationTransferEntry) : Prop :=
  transfer_phase_of (Some (fentry p)) = Moving (frecord p) ∧ proper (fentry p).

Definition transfer_forward (l l' : L) : Prop :=
  sound l' ∧ ∀ k, transfer_advances (transfer_at l k) (transfer_at l' k).

Lemma transfer_forward_refl l : sound l → transfer_forward l l.
Proof. intros Hl. split; [done|]. intros k. constructor. Qed.

Lemma id_text r : Transfer.validate r = true → valid_utf8 (codes (Transfer.id r)) = true.
Proof.
  intros (_ & _ & Hc & _)%transfer_validate_spec. unfold Capture.Validate, Snapshot.Validate in Hc.
  rewrite !andb_true_iff, forallb_forall in Hc. apply skill_uuid_text. apply Hc. cbn. tauto.
Qed.

Lemma transfer_entry env r m :
  timely env → transfer_writable r →
  same (encode_struct Transfer.fields r) (VObj m) → storable_object m →
  let e := mkEntry (Transfer.id r) finalizationTransferStatus (Some m) None zero_time in
  admits env e ∧ ∀ c, SameFinalizationInput (Transfer.Capture r) c = true →
    decode_transfer (keeps env e) c = Ok (mkTransferEntry (keeps env e) r).
Proof.
  intros Ht Hw Hsame Hm e. destruct (keeps_fields env e) as (H1 & H2 & H3 & H4).
  assert (Result (keeps env e) = Some m) as Hres by (apply H3; cbn; intros [= ->]; by destruct Hm).
  split.
  - eapply admits_intro; [done|by apply id_text, Hw|done|by left|done].
  - intros c Hc. apply (decode_transfer_written r c _ m); try done; by rewrite ?H1, ?H2, ?H4.
Qed.

(** What a save does to the store, and what it returns. *)
Lemma save_transfer_forward env l previous r :
  sound l → timely env → transfer_width r → (∀ p, previous = Some p → transfer_known p) →
  transfer_forward l (save_transfer env l previous r).1.
Proof.
  intros Hl Ht Hw Hprev. unfold save_transfer.
  destruct (Transfer.validate r) eqn:Hv; cbn [negb]; [|by apply transfer_forward_refl].
  destruct (match previous with Some p => may_follow p r | None => Ok tt end) as [[]|x] eqn:Hm;
    [|by apply transfer_forward_refl].
  destruct (transfer_payload r (conj Hv Hw)) as (m & -> & Hs & Hobj).
  destruct (transfer_entry env r m Ht (conj Hv Hw) Hs Hobj) as (Ha & Hd). cbv zeta.
  specialize (Hd _ (same_input_refl _)).
  pose proof (swap_moves transfer_phase_of transfer_advances env l (option_map fentry previous) _
                (λ p, tadv_same p) Hl Ha) as Hf.
  destruct (store_swap env l _ _) as [l' [[]|err]]; cbn [fst] in *; apply Hf; clear Hf.
  all: try (intros y Hy; destruct previous as [p|]; [|done]; injection Hy as <-; by apply Hprev).
  all: rewrite (phase_moving _ _ _ Hd); destruct previous as [p|]; [|constructor].
  all: cbn [option_map]; destruct (Hprev p eq_refl) as [-> _]; constructor; by apply may_follow_kept.
Qed.

(** ** Histories *)

(** One save, with any view of the entry some earlier load returned, or a
    restart of the node. *)
Inductive transfer_step : L → L → Prop :=
  | tstep_save env l previous r :
      timely env → transfer_width r → (∀ p, previous = Some p → transfer_known p) →
      transfer_step l (save_transfer env l previous r).1
  | tstep_reopen l l' : store_reopen l = Ok l' → transfer_step l l'.

Lemma transfer_step_forward l l' : sound l → transfer_step l l' → transfer_forward l l'.
Proof.
  intros Hl Hs. destruct Hs as [|l l' Ho]; [by apply save_transfer_forward|].
  destruct (reopen_spec l Hl) as (l1 & Ho' & Hl1 & _ & Hc). rewrite Ho in Ho'. injection Ho' as ->.
  split; [done|]. intros k. unfold transfer_at. rewrite Hc. constructor.
Qed.

(** C10: a snapshot has one transfer.  After any history of saves, made with
    possibly outdated views of the entries and failing at any point, and of
    restarts, a snapshot that had a record has one still: of the same capture;
    with a receipt of the same finalization whose upload attempt has not gone
    back, and whose retained checkpoint and upload are the same; with the same
    decision on the publication.  And the state that the receipts prove to the
    helper has only moved along the transitions the helper's own journal
    allows. *)
Theorem transfer_record_kept l l' id r :
  sound l → rtc transfer_step l l' → transfer_at l id = Moving r →
  ∃ r', transfer_at l' id = Moving r' ∧ record_kept r r' ∧
        ∀ s, proven_state r = Some s →
          ∃ s', proven_state r' = Some s' ∧ state_moves (Capture.Unclean (Transfer.Capture r)) s s'.
Proof.
  intros Hl Hs Hr.
  enough (∃ r', transfer_at l' id = Moving r' ∧ record_kept r r') as (r' & Hr' & Hk).
  { exists r'. split_and!; [done|done|]. intros s. apply kept_moves; [| |done].
    - unfold transfer_at in Hr. destruct (content l id); [|done].
      by apply moving_valid, decode_transfer_spec in Hr as (_ & _ & _ & ? & _).
    - unfold transfer_at in Hr'. destruct (content l' id); [|done].
      by apply moving_valid, decode_transfer_spec in Hr' as (_ & _ & _ & ? & _). }
  revert r Hr. induction Hs as [l|l1 l2 l3 Hstep _ IH]; intros r Hr; [by exists r|].
  destruct (transfer_step_forward l1 l2 Hl Hstep) as [Hl2 Hadv]. specialize (Hadv id). rewrite Hr in Hadv.
  assert (∃ r2, transfer_at l2 id = Moving r2 ∧ record_kept r r2) as (r2 & Hr2 & Hk2).
  { inversion Hadv; subst; by eexists. }
  destruct (IH Hl2 r2 Hr2) as (r' & Hr' & Hk'). exists r'. split; [done|by etrans].
Qed.
End Journal.
