(* ===== verification/FinalizationWire.v ===== *)
(** * What the worker exchanges about finalizations

    The payloads of the finalization endpoints and the client's checks of
    their answers (src/internal/api/skill_finalization.go,
    skill_finalization_file.go, skill_termination.go, skill_capture_pending.go,
    skill_reclamation.go), the inventory of retained sessions
    (src/internal/skillmanager/finalization_inventory.go, capture_failure.go),
    the authorization to reclaim content (reclamation.go) and the helper's
    observation of a session (src/internal/runtimehelper/skill_reconciliation.go). *)

From S2P Require Import Prelude GoText GoTime GoJson GoUtf8 GoJsonText GoJsonValue GoJsonDecode GoJsonStruct.
From S2P Require Import Manifest ManifestCodec StartResult Ledger DevicePayload Deployment Finalization.
From Stdlib.Strings Require Import Ascii.

(** ** Observed sessions *)

Module Failure.
Record CaptureFailure := mk { Binding : SnapshotBinding; Unclean : bool; Code : string }.

Definition fields : list (field CaptureFailure) := [
  mkField "binding" Binding (λ x r, r <| Binding := x |>) (λ b, Some (encode_struct Snapshot.fields b))
    (λ _ raw _, Snapshot.of_text raw);
  bool_field "unclean" Unclean (λ x r, r <| Unclean := x |>);
  str_field "code" Code (λ x r, r <| Code := x |>)].

Definition zero : CaptureFailure := mk Snapshot.zero false "".

Definition Validate (r : CaptureFailure) : bool :=
  Snapshot.Validate (Binding r) && validSkillUUID (Snapshot.TaskID (Binding r)) &&
  bool_decide (Code r ∈ ["quota_exceeded"; "insufficient_storage"; "portability_error"; "capture_failed"]).

(** [UnmarshalJSON] *)
Definition of_json (j : json) : option CaptureFailure :=
  r ← decodeFinalizationFields fields zero ["binding"; "unclean"; "code"] [] j;
  if Validate r then Some r else None.
End Failure.
Export Failure(CaptureFailure).

Module Observed.
Record SkillSessionObservation := mk {
  SessionID : string;
  State : string;
  Record_ : option FinalizationRecord;
  Pending : option CaptureFailure
}.

Definition bound (b : SnapshotBinding) (nodeID sessionID : string) : bool :=
  String.eqb (Snapshot.NodeID b) nodeID && String.eqb (Snapshot.SessionID b) sessionID.

Definition Validate (r : SkillSessionObservation) (nodeID sessionID : string) : bool :=
  validSkillUUID nodeID && validSkillUUID sessionID && String.eqb (SessionID r) sessionID &&
  (if bool_decide (State r ∈ ["not_started"; "running"]) then negb (is_some (Record_ r)) && negb (is_some (Pending r))
   else if String.eqb (State r) "capture_pending" then
     negb (is_some (Record_ r)) &&
     match Pending r with
     | Some p => Failure.Validate p && bound (Failure.Binding p) nodeID sessionID
     | None => false
     end
   else if String.eqb (State r) "finalized" then
     negb (is_some (Pending r)) &&
     match Record_ r with
     | Some c => Capture.Validate c && bound (Capture.Binding c) nodeID sessionID
     | None => false
     end
   else false).
End Observed.
Export Observed(SkillSessionObservation).

(** ** The inventory of retained sessions *)

Module Inventory.
Record FinalizationInventoryItem := mkItem {
  SessionID : string;
  Record_ : option FinalizationRecord;
  Code : string
}.

(** [Items] is [None] for a nil slice. *)
Record FinalizationPage := mkPage {
  Items : option (list FinalizationInventoryItem);
  NextCursor : string;
  InvalidNames : bool
}.

Definition FinalizationPageLimit : nat := 16.

Definition ValidateFinalizationCursor (cursor : string) : bool := String.eqb cursor "" || validSkillUUID cursor.

Definition valid_item (nodeID : string) (item : FinalizationInventoryItem) : bool :=
  match Record_ item with
  | Some r =>
      String.eqb (Code item) "" && Capture.Validate r &&
      String.eqb (Snapshot.SessionID (Capture.Binding r)) (SessionID item) &&
      String.eqb (Snapshot.NodeID (Capture.Binding r)) nodeID
  | None =>
      bool_decide (Code item ∈ ["not_finalized"; "invalid_retained_state"; "unsupported_backend";
                                "reclamation_pending"; "content_reclaimed"])
  end.

(** The items in order after [previous]; the last session seen. *)
Fixpoint valid_items (nodeID previous : string) (items : list FinalizationInventoryItem) : option string :=
  match items with
  | [] => Some previous
  | item :: rest =>
      if validSkillUUID (SessionID item) && str_ltb previous (SessionID item) && valid_item nodeID item
      then valid_items nodeID (SessionID item) rest else None
  end.

Definition Validate (page : FinalizationPage) (cursor nodeID : string) : bool :=
  ValidateFinalizationCursor cursor && validSkillUUID nodeID &&
  match Items page with
  | None => false
  | Some items =>
      Nat.leb (length items) FinalizationPageLimit &&
      match valid_items nodeID cursor items with
      | None => false
      | Some previous =>
          String.eqb (NextCursor page) "" ||
          Nat.eqb (length items) FinalizationPageLimit && String.eqb (NextCursor page) previous
      end
  end.
End Inventory.
Export Inventory(FinalizationPage).

(** ** The authorization to reclaim content *)

Module Authority.
Record ReclamationAuthorization := mk {
  Version : Z;
  RequestID : string;
  NodeID : string;
  UserID : string;
  AccountID : string;
  SessionID : string;
  SnapshotID : string;
  FinalizationID : string;
  CheckpointID : string;
  TreeDigest : string;
  Unclean : bool;
  PublicationID : string;
  PublicationAttempt : Z;
  PublicationStatus : string;
  VerifiedAt : time;
  ExpiresAt : time
}.

Definition fields : list (field ReclamationAuthorization) := [
  int_field "version" Version (λ x r, r <| Version := x |>);
  str_field "request_id" RequestID (λ x r, r <| RequestID := x |>);
  str_field "node_id" NodeID (λ x r, r <| NodeID := x |>);
  str_field "user_id" UserID (λ x r, r <| UserID := x |>);
  str_field "account_id" AccountID (λ x r, r <| AccountID := x |>);
  str_field "session_id" SessionID (λ x r, r <| SessionID := x |>);
  str_field "snapshot_id" SnapshotID (λ x r, r <| SnapshotID := x |>);
  str_field "finalization_id" FinalizationID (λ x r, r <| FinalizationID := x |>);
  str_field "checkpoint_id" CheckpointID (λ x r, r <| CheckpointID := x |>);
  str_field "tree_digest" TreeDigest (λ x r, r <| TreeDigest := x |>);
  bool_field "unclean" Unclean (λ x r, r <| Unclean := x |>);
  str_field "publication_id" PublicationID (λ x r, r <| PublicationID := x |>);
  int_field "publication_attempt" PublicationAttempt (λ x r, r <| PublicationAttempt := x |>);
  str_field "publication_status" PublicationStatus (λ x r, r <| PublicationStatus := x |>);
  time_field "verified_at" VerifiedAt (λ x r, r <| VerifiedAt := x |>);
  time_field "expires_at" ExpiresAt (λ x r, r <| ExpiresAt := x |>)].

Definition zero : ReclamationAuthorization :=
  mk 0 "" "" "" "" "" "" "" "" "" false "" 0 "" zero_time zero_time.

(** [UnmarshalJSON] *)
Definition of_json (j : json) : option ReclamationAuthorization :=
  decodeFinalizationFields fields zero (names fields) [] j.

Definition terminal (status : string) : bool := bool_decide (status ∈ ["published"; "conflicted"; "detached"]).

(** The publication is the acknowledged one, perhaps resolved, or a later one. *)
Definition match_publication (a : ReclamationAuthorization) (p : PublicationReceipt) : bool :=
  (0 <? PublicationAttempt a) && (Publication_.Attempt p <=? PublicationAttempt a) &&
  Bool.eqb (PublicationAttempt a =? Publication_.Attempt p) (String.eqb (PublicationID a) (Publication_.ID p)) &&
  (negb (PublicationAttempt a =? Publication_.Attempt p) ||
   String.eqb (PublicationStatus a) (Publication_.Status p) ||
   String.eqb (Publication_.Status p) "conflicted" && String.eqb (PublicationStatus a) "published").

Definition match_input (a : ReclamationAuthorization) (ack : FinalizationAcknowledgement) : bool :=
  let b := Capture.Binding (Ack.Capture ack) in
  String.eqb (NodeID a) (Snapshot.NodeID b) && String.eqb (UserID a) (Snapshot.UserID b) &&
  String.eqb (AccountID a) (Snapshot.AccountID b) && String.eqb (SessionID a) (Snapshot.SessionID b) &&
  String.eqb (SnapshotID a) (Snapshot.SnapshotID b) && String.eqb (FinalizationID a) (FinReceipt.ID (Ack.Receipt ack)) &&
  bool_decide (FinReceipt.CheckpointID (Ack.Receipt ack) = Some (CheckpointID a)) &&
  String.eqb (TreeDigest a) (Capture.TreeDigest (Ack.Capture ack)) &&
  Bool.eqb (Unclean a) (Capture.Unclean (Ack.Capture ack)).

Definition Match (a : ReclamationAuthorization) (ack : FinalizationAcknowledgement) : bool :=
  match Ack.State ack, Ack.Publication ack with
  | Some state, Some p =>
      terminal state &&
      forallb validSkillUUID [RequestID a; NodeID a; UserID a; AccountID a; SessionID a; SnapshotID a;
                              FinalizationID a; CheckpointID a; PublicationID a] &&
      (Version a =? 1) && negb (VerifiedAt a =? zero_time) && (time_sub (ExpiresAt a) (VerifiedAt a) =? 60 * second) &&
      match_publication a p && terminal (PublicationStatus a) &&
      (negb (Unclean a) || String.eqb (PublicationStatus a) "detached") &&
      match_input a ack
  | _, _ => false
  end.
End Authority.
Export Authority(ReclamationAuthorization).

(** ** Payloads and answers of the endpoints *)

(** [skillTermination] and [skillCapturePending]: the stopped runtime, with the
    digest of its content or the reason why there is none. *)
Record stoppedRuntime := mkStopped {
  StoppedSession : string;
  StoppedTask : string;
  StoppedTree : string;
  StoppedEpoch : Z;
  StoppedGeneration : Z;
  StoppedOutcome : string;
  StoppedUnclean : bool
}.

#[global] Instance stopped_eq_dec : EqDecision stoppedRuntime.
Proof. solve_decision. Defined.

Definition stopped_runtime (b : SnapshotBinding) (outcome : string) (unclean : bool) : stoppedRuntime :=
  mkStopped (Snapshot.SessionID b) (Snapshot.TaskID b) (Snapshot.InitialTreeDigest b) (Snapshot.DirectoryEpoch b)
    (Snapshot.LibraryGeneration b) outcome unclean.

(** [outcome] is "incoming_digest" or "capture_error". *)
Definition stopped_fields (outcome : string) : list (field stoppedRuntime) := [
  str_field "session_id" StoppedSession (λ x r, r <| StoppedSession := x |>);
  str_field "task_id" StoppedTask (λ x r, r <| StoppedTask := x |>);
  str_field "initial_tree_digest" StoppedTree (λ x r, r <| StoppedTree := x |>);
  int_field "directory_epoch" StoppedEpoch (λ x r, r <| StoppedEpoch := x |>);
  int_field "library_generation" StoppedGeneration (λ x r, r <| StoppedGeneration := x |>);
  str_field outcome StoppedOutcome (λ x r, r <| StoppedOutcome := x |>);
  bool_field "unclean" StoppedUnclean (λ x r, r <| StoppedUnclean := x |>)].

(** [UnmarshalJSON]: all names, none null. *)
Definition stopped_of_json (outcome : string) (j : json) : option stoppedRuntime :=
  if no_duplicate_keys j then
    decodeFinalizationFields (stopped_fields outcome) (mkStopped "" "" "" 0 0 "" false)
      (names (stopped_fields outcome)) [] j
  else None.

Definition observed_stop (payload : stoppedRuntime) (e : envelope stoppedRuntime) : bool :=
  (SchemaVersion e =? 1) && bool_decide (Committed e = Some true) && String.eqb (EnvelopeStatus e) "stopped" &&
  Nat.eqb (error_count e) 0 && bool_decide (Data e = payload).

(** The check of [finalizationRequest]. *)
Definition finalization_answer (i : FinalizationInput) (previous : option FinalizationReceipt)
    (e : envelope FinalizationReceipt) : bool :=
  let view := Data e in
  (SchemaVersion e =? 1) && String.eqb (EnvelopeStatus e) (FinReceipt.Status view) &&
  bool_decide (Committed e = Some (negb (String.eqb (FinReceipt.Status view) "upload_pending"))) &&
  Nat.eqb (error_count e) 0 && FinReceipt.ValidateReceipt view i previous.

(** The check of [PublishSkillFinalization]. *)
Definition publication_answer (i : FinalizationInput) (retained : FinalizationReceipt)
    (e : envelope PublicationReceipt) : bool :=
  let view := Data e in
  (SchemaVersion e =? 1) && bool_decide (Committed e = Some true) &&
  String.eqb (EnvelopeStatus e) (Publication_.Status view) && Nat.eqb (error_count e) 0 &&
  Publication_.ValidateReceipt view i retained.

Record finalizationFileReceipt := mkFileReceipt { FileUpload : string; FileDigest : string; FileCreated : bool }.

Definition file_receipt_fields : list (field finalizationFileReceipt) := [
  str_field "upload_id" FileUpload (λ x r, r <| FileUpload := x |>);
  str_field "digest" FileDigest (λ x r, r <| FileDigest := x |>);
  bool_field "created" FileCreated (λ x r, r <| FileCreated := x |>)].

(** [UnmarshalJSON] *)
Definition file_receipt_of_json (j : json) : option finalizationFileReceipt :=
  if no_duplicate_keys j then
    decodeFinalizationFields file_receipt_fields (mkFileReceipt "" "" false) (names file_receipt_fields) [] j
  else None.

(** The check of [PutSkillFinalizationFile]. *)
Definition file_answer (upload : FinalizationReceipt) (entry : Manifest.Entry) (verified : bool)
    (e : envelope finalizationFileReceipt) : bool :=
  verified && (SchemaVersion e =? 1) && String.eqb (EnvelopeStatus e) "upload_pending" &&
  bool_decide (Committed e = Some false) && Nat.eqb (error_count e) 0 &&
  String.eqb (FileUpload (Data e)) (FinReceipt.UploadID upload) &&
  String.eqb (FileDigest (Data e)) (Manifest.SHA256 entry).

Definition maxSkillCaptureBytes : Z := 64 * 2 ^ 20.

(** The body of [BeginSkillFinalization]. *)
Definition begin_value (i : FinalizationInput) (m : Manifest.Manifest) : value :=
  VObj [("session_id", VStr (Input.SessionID i)); ("idempotency_key", VStr (Input.IdempotencyKey i));
        ("manifest", manifest_value m); ("unclean", VBool (Input.Unclean i))].

Definition begin_body (i : FinalizationInput) (m : Manifest.Manifest) : string := print_value compact 0 (begin_value i m).

(** The answer of the reclamation endpoint: an envelope and [retryable]. *)
Definition reclamation_answer (ack : FinalizationAcknowledgement) (challenge : string)
    (e : envelope ReclamationAuthorization) (retryable : option bool) : bool :=
  (SchemaVersion e =? 1) && String.eqb (EnvelopeStatus e) "reclaimable" && bool_decide (Committed e = Some true) &&
  bool_decide (retryable = Some false) && Nat.eqb (error_count e) 0 &&
  String.eqb (Authority.RequestID (Data e)) challenge && Authority.Match (Data e) ack.
