(* ===== verification/FinalizationTransfer.v ===== *)
(** * Transferring and reclaiming finalizations

    src/internal/worker/finalization_transfer.go, finalization_objects.go,
    finalization_recovery.go, finalization_reclamation.go and
    managed_admission_recovery.go, with the client functions they call
    (src/internal/api/skill_finalization.go, skill_finalization_file.go,
    skill_termination.go, skill_capture_pending.go, skill_reclamation.go and
    src/internal/runtimehelper/finalization_reclamation_client.go): the calls
    to the server and to the helper, in order, between the operations of the
    journal.  The calls of the client are the requests it sends; its checks of
    the answers are part of the computations. *)

From S2P Require Import Prelude GoText GoTime GoJson GoUtf8 GoJsonText GoJsonValue GoJsonDecode GoJsonStruct.
From S2P Require Import Manifest ManifestCodec SkillUpload StartResult Ledger TaskStore StartJournal.
From S2P Require Import Deployment DeploymentJournal Programs Finalization FinalizationJournal FinalizationWire.
From Stdlib.Strings Require Import Ascii.

(** ** The outside *)

(** How the transport read a file while it was sent, and the answer. *)
Record file_exchange := mkExchange {
  reads : list upload_read;
  acknowledged : envelope finalizationFileReceipt
}.

(** A frame of the reclamation exchange with the helper. *)
Inductive reclamation_frame :=
  | Authorize (challenge : string) (ack : option FinalizationAcknowledgement)
  | Reclaimed (record : option FinalizationRecord).

Inductive call :=
  (* requests to the server *)
  | PostTermination (snapshot : string) (payload : stoppedRuntime)
  | PostCapturePending (snapshot : string) (payload : stoppedRuntime)
  | PostFinalization (i : FinalizationInput) (m : Manifest.Manifest)
  | GetFinalization (finalization : string)
  | PutFile (finalization upload : string) (entry : Manifest.Entry)
  | PostComplete (finalization upload : string)
  | PostPublish (finalization : string)
  | GetReclamation (finalization challenge : string)
  (* the helper *)
  | HoldSkillFinalization (operation : string) (b : SnapshotBinding)
  | ReleaseHold
  | ReadSkillFinalization (operation : string) (b : SnapshotBinding)
  | OpenSkillFinalizationObjects (operation : string) (c : FinalizationRecord)
  | OpenObject (digest : string)
  | CloseObjects
  | AcknowledgeSkillFinalization (operation : string) (ack : FinalizationAcknowledgement)
  | CleanupFinalizedSkillSession (operation : string) (c : FinalizationRecord)
  | ListSkillFinalizations (operation nodeID cursor : string)
  | ReconcileSkillSession (operation nodeID sessionID : string)
  | DrainUnadmittedSkillSession (operation nodeID sessionID : string)
  | RequestReclamation (operation : string) (c : FinalizationRecord)
  | SendAuthorization (a : ReclamationAuthorization)
  | ResumeReclamation (operation nodeID sessionID : string)
  (* the browser broker *)
  | VerifyToolSessionPeer (sessionID nonce : string) (uid : Z)
  | UnregisterToolSession (sessionID nonce : string).

Definition reply (c : call) : Type :=
  match c with
  | PostTermination _ _ | PostCapturePending _ _ => envelope stoppedRuntime
  | PostFinalization _ _ | GetFinalization _ | PostComplete _ _ => envelope FinalizationReceipt
  | PutFile _ _ _ => file_exchange
  | PostPublish _ => envelope PublicationReceipt
  | GetReclamation _ _ => envelope ReclamationAuthorization * option bool
  | HoldSkillFinalization _ _ => bool * FinalizationRecord    (* whether there is a hold *)
  | ReadSkillFinalization _ _ => FinalizationRecord * Manifest.Manifest
  | OpenSkillFinalizationObjects _ _ => bool                  (* whether there is a reader *)
  | OpenObject _ => bool * Manifest.Entry                     (* whether there is a file *)
  | AcknowledgeSkillFinalization _ _ | CleanupFinalizedSkillSession _ _ => FinalizationRecord
  | ListSkillFinalizations _ _ _ => FinalizationPage
  | ReconcileSkillSession _ _ _ | DrainUnadmittedSkillSession _ _ _ => SkillSessionObservation
  | RequestReclamation _ _ | SendAuthorization _ | ResumeReclamation _ _ _ => reclamation_frame
  | ReleaseHold | CloseObjects | VerifyToolSessionPeer _ _ _ | UnregisterToolSession _ _ => unit
  end.

Record managedRuntimeAdmission := mkAdmission { nonce : string; uid : Z }.

(** The rest of the process: its clock and the admissions it remembers. *)
Class Process (W : Type) := {
  now : W → W * time;
  granted : W → W * gmap string managedRuntimeAdmission;
  grant : gmap string managedRuntimeAdmission → W → W * unit
}.

Section Computations.
Context (IsNormalString : string → bool) (hex_sha256 : list Z → string).
Context {L Env W : Type} `{TaskStore L Env} `{!Outside reply error W Env} `{!Process W}.

#[local] Abbreviation prog := (prog call error L W).

Definition finalization_pending : error := [errFinalizationPending].

(** ** The client *)

Definition ObserveSkillTermination (c : FinalizationRecord) : prog unit :=
  _ ← require_that (Capture.Validate c && (Capture.ObjectsVersion c =? 1) &&
                    validSkillUUID (Snapshot.TaskID (Capture.Binding c))) [Other];
  let payload := stopped_runtime (Capture.Binding c) (Capture.TreeDigest c) (Capture.Unclean c) in
  e ← perform (PostTermination (Snapshot.SnapshotID (Capture.Binding c)) payload);
  require_that (observed_stop payload e) [Other].

Definition ObserveSkillCapturePending (c : CaptureFailure) : prog unit :=
  _ ← require_that (Failure.Validate c && validSkillUUID (Snapshot.TaskID (Failure.Binding c))) [Other];
  let payload := stopped_runtime (Failure.Binding c) (Failure.Code c) (Failure.Unclean c) in
  e ← perform (PostCapturePending (Snapshot.SnapshotID (Failure.Binding c)) payload);
  require_that (observed_stop payload e) [Other].

(** The checked answer of [finalizationRequest]. *)
Definition finalization_view (i : FinalizationInput) (previous : option FinalizationReceipt)
    (e : envelope FinalizationReceipt) : prog FinalizationReceipt :=
  _ ← require_that (finalization_answer i previous e) [Other]; mret (Data e).

Definition digest_of (m : Manifest.Manifest) : option string :=
  match Manifest.Digest IsNormalString hex_sha256 m with Ok d => Some d | Err _ => None end.

Definition BeginSkillFinalization (i : FinalizationInput) (m : Manifest.Manifest)
    (previous : option FinalizationReceipt) : prog FinalizationReceipt :=
  _ ← require_that (Input.Validate i &&
        match previous with Some p => FinReceipt.ValidateReceipt p i None | None => true end &&
        bool_decide (digest_of m = Some (Input.TreeDigest i)) &&
        (len (begin_body i m) <=? maxSkillCaptureBytes)) [Other];
  e ← perform (PostFinalization i m);
  finalization_view i previous e.

Definition GetSkillFinalization (i : FinalizationInput) (previous : FinalizationReceipt) : prog FinalizationReceipt :=
  _ ← require_that (FinReceipt.ValidateReceipt previous i None) [Other];
  e ← perform (GetFinalization (FinReceipt.ID previous));
  finalization_view i (Some previous) e.

Definition CompleteSkillFinalization (i : FinalizationInput) (previous : FinalizationReceipt) : prog FinalizationReceipt :=
  _ ← require_that (FinReceipt.ValidateReceipt previous i None) [Other];
  e ← perform (PostComplete (FinReceipt.ID previous) (FinReceipt.UploadID previous));
  view ← finalization_view i (Some previous) e;
  _ ← require_that (negb (String.eqb (FinReceipt.Status view) "upload_pending") &&
        String.eqb (FinReceipt.UploadID view) (FinReceipt.UploadID previous) &&
        (FinReceipt.UploadAttempt view =? FinReceipt.UploadAttempt previous)) [Other];
  mret view.

Definition PublishSkillFinalization (i : FinalizationInput) (retained : FinalizationReceipt) : prog PublicationReceipt :=
  _ ← require_that (FinReceipt.ValidateReceipt retained i None && is_some (FinReceipt.CheckpointID retained)) [Other];
  e ← perform (PostPublish (FinReceipt.ID retained));
  _ ← require_that (publication_answer i retained e) [Other];
  mret (Data e).

(** The reader confirms the stream while the transport sends it. *)
Definition PutSkillFinalizationFile (i : FinalizationInput) (upload : FinalizationReceipt) (entry : Manifest.Entry)
    : prog unit :=
  _ ← require_that (FinReceipt.ValidateReceipt upload i None && String.eqb (FinReceipt.Status upload) "upload_pending" &&
        String.eqb (FinReceipt.UploadStatus upload) "staged") [Other];
  match upload_reader IsNormalString entry with
  | None => fail [Other]
  | Some reader =>
      x ← perform (PutFile (FinReceipt.ID upload) (FinReceipt.UploadID upload) entry);
      let sent := (transmit hex_sha256 reader (reads x)).1 in
      require_that (file_answer upload entry (verified sent) (acknowledged x)) [Other]
  end.

(** [AuthorizeSkillReclamationChallenge]; the time of the request counts
    against the authorization. *)
Definition AuthorizeSkillReclamationChallenge (challenge : string) (ack : FinalizationAcknowledgement)
    : prog ReclamationAuthorization :=
  _ ← require_that (is_some (Ack.Publication ack) &&
        match Ack.State ack with Some state => Authority.terminal state | None => false end) [Other];
  _ ← require_that (validSkillUUID challenge) [Other];
  started ← aside now;
  '(e, retryable) ← perform (GetReclamation (FinReceipt.ID (Ack.Receipt ack)) challenge);
  _ ← require_that (reclamation_answer ack challenge e retryable) [Other];
  let deadline := started + time_sub (Authority.ExpiresAt (Data e)) (Authority.VerifiedAt (Data e)) in
  finished ← aside now;
  ended ← stopped;
  _ ← require_that ((finished <? deadline) && negb (is_some ended)) [Other];
  mret (Data e).

(** ** Objects *)

Definition finalizationObjectReaderRefresh : duration := 10 * 60 * second.

Record finalizationObjectSource := mkSource { capture : FinalizationRecord; opened : time }.

(** Open a reader of the capture; the time is that before the call. *)
Definition open_reader (c : FinalizationRecord) : prog time :=
  _ ← live;
  started ← aside now;
  present ← perform (OpenSkillFinalizationObjects ("finalization-objects:" +:+ Snapshot.SnapshotID (Capture.Binding c)) c);
  _ ← require_that present [Other];
  mret started.

Definition openFinalizationObjectSource (c : FinalizationRecord) : prog finalizationObjectSource :=
  started ← open_reader c; mret (mkSource c started).

(** [refresh]: the next reader is held before the current one is closed. *)
Definition refresh (s : finalizationObjectSource) : prog finalizationObjectSource :=
  started ← open_reader (capture s);
  _ ← try (perform CloseObjects);
  mret (s <| opened := started |>).

Definition Open (s : finalizationObjectSource) (digest : string)
    : prog (finalizationObjectSource * (bool * Manifest.Entry)) :=
  _ ← live;
  t ← aside now;
  s ← (if finalizationObjectReaderRefresh <=? time_sub t (opened s) then refresh s else mret s);
  found ← perform (OpenObject digest);
  mret (s, found).

(** The loop of [uploadFinalizationObjects]: every content once. *)
Fixpoint upload_entries (i : FinalizationInput) (upload : FinalizationReceipt) (s : finalizationObjectSource)
    (seen : gset string) (entries : list Manifest.Entry) : prog unit :=
  match entries with
  | [] => mret tt
  | entry :: rest =>
      if negb (String.eqb (Manifest.Kind entry) "file") || bool_decide (Manifest.SHA256 entry ∈ seen)
      then upload_entries i upload s seen rest
      else
        _ ← live;
        '(s, (present, actual)) ← Open s (Manifest.SHA256 entry);
        _ ← require_that (present && bool_decide (actual = entry)) [Other];
        _ ← PutSkillFinalizationFile i upload entry;
        upload_entries i upload s ({[Manifest.SHA256 entry]} ∪ seen) rest
  end.

Definition uploadFinalizationObjects (c : FinalizationRecord) (m : Manifest.Manifest) (upload : FinalizationReceipt)
    : prog unit :=
  s ← openFinalizationObjectSource c;
  finally (upload_entries (Ack.input_of c) upload s ∅ (Manifest.Entries m)) (perform CloseObjects).

(** ** Acknowledgements *)

Definition finalizationPublicationOutcome (p : PublicationReceipt) : bool :=
  negb (String.eqb (Publication_.Status p) "superseded").

Definition acknowledgeTransferredFinalization (record : finalizationTransferRecord) : prog unit :=
  match Transfer.Receipt record with
  | None => fail [Other]
  | Some receipt =>
      let ack := Ack.mk 1 (Transfer.Capture record) receipt (Transfer.Publication record) in
      match Ack.State ack with
      | None => fail [Other]
      | Some target =>
          confirmed ← perform (AcknowledgeSkillFinalization ("finalization-ack:" +:+ Transfer.id record) ack);
          _ ← require_that (Capture.Validate confirmed && SameFinalizationInput confirmed (Transfer.Capture record) &&
                            String.eqb (Capture.State confirmed) target) [Other];
          match Transfer.Publication record with
          | None => mret tt
          | Some p =>
              _ ← require_that (finalizationPublicationOutcome p) [Other];
              cleaned ← perform (CleanupFinalizedSkillSession ("finalization-cleanup:" +:+ Transfer.id record) confirmed);
              require_that (bool_decide (cleaned = confirmed)) [Other]
          end
      end
  end.

Definition acknowledgeTransferProgress (record : finalizationTransferRecord) (current : FinalizationRecord) : prog unit :=
  if Capture.CanDeleteSession current then mret tt else acknowledgeTransferredFinalization record.

(** ** One transfer *)

(** [journal.save]; a saved record is found again. *)
Definition save_record (previous : option finalizationTransferEntry) (r : finalizationTransferRecord)
    : prog finalizationTransferEntry :=
  saved ← journal (λ env l, save_transfer env l previous r);
  match saved with Some e => mret e | None => fail [Other] end.

Definition saveFinalizationReceipt (previous : finalizationTransferEntry) (receipt : FinalizationReceipt)
    : prog finalizationTransferEntry :=
  save_record (Some previous) ((frecord previous) <| Transfer.Receipt := Some receipt |>).

(** The recorded transfer of a capture, begun if there is none. *)
Definition begin_transfer (c : FinalizationRecord) : prog finalizationTransferEntry :=
  found ← read_journal (λ l, load_transfer l c);
  match found with
  | Some e => mret e
  | None => save_record None (Transfer.mk 1 c None None)
  end.

(** What the server holds of a recorded upload. *)
Definition inspect_upload (c : FinalizationRecord) (previous : finalizationTransferEntry)
    : prog finalizationTransferEntry :=
  match Transfer.Receipt (frecord previous) with
  | None => _ ← ObserveSkillTermination c; mret previous
  | Some receipt =>
      view ← GetSkillFinalization (Ack.input_of c) receipt;
      previous ← saveFinalizationReceipt previous view;
      _ ← acknowledgeTransferProgress (frecord previous) c;
      mret previous
  end.

Definition held_checkpoint (r : finalizationTransferRecord) : bool :=
  match Transfer.Receipt r with Some x => is_some (FinReceipt.CheckpointID x) | None => false end.

(** The upload under the hold of the content. *)
Definition upload_held (c : FinalizationRecord) (previous : finalizationTransferEntry) : prog finalizationTransferEntry :=
  let i := Ack.input_of c in
  '(original, manifest) ← perform (ReadSkillFinalization ("finalization-manifest:" +:+ Input.SnapshotID i) (Capture.Binding c));
  _ ← require_that (bool_decide (digest_of manifest = Some (Capture.TreeDigest c)) && SameFinalizationInput original c) [Other];
  _ ← live;
  view ← BeginSkillFinalization i manifest (Transfer.Receipt (frecord previous));
  previous ← saveFinalizationReceipt previous view;
  _ ← acknowledgeTransferProgress (frecord previous) c;
  if is_some (FinReceipt.CheckpointID view) then mret previous else
  _ ← uploadFinalizationObjects c manifest view;
  _ ← live;
  completed ← CompleteSkillFinalization i view;
  _ ← require_that (is_some (FinReceipt.CheckpointID completed) &&
        String.eqb (FinReceipt.UploadID completed) (FinReceipt.UploadID view) &&
        (FinReceipt.UploadAttempt completed =? FinReceipt.UploadAttempt view)) [Other];
  previous ← saveFinalizationReceipt previous completed;
  _ ← acknowledgeTransferProgress (frecord previous) c;
  mret previous.

(** The publication of the retained checkpoint. *)
Definition publish_retained (c : FinalizationRecord) (previous : finalizationTransferEntry) : prog unit :=
  _ ← live;
  match Transfer.Receipt (frecord previous) with
  | None => fail [Other]     (* the Go code would dereference nil *)
  | Some receipt =>
      publication ← PublishSkillFinalization (Ack.input_of c) receipt;
      let record := (frecord previous) <| Transfer.Publication := Some publication |> in
      _ ← journal (λ env l, save_transfer env l (Some previous) record);
      acknowledgeTransferredFinalization record
  end.

(** The part of [transferFinalization] that keeps the hold, if it took one. *)
Definition upload_and_publish (c : FinalizationRecord) (previous : finalizationTransferEntry) : prog unit :=
  if held_checkpoint (frecord previous) then publish_retained c previous else
  '(present, held) ← perform (HoldSkillFinalization ("finalization-hold:" +:+ Snapshot.SnapshotID (Capture.Binding c))
                                (Capture.Binding c));
  _ ← require_that present [Other];
  finally
    (_ ← require_that (SameFinalizationInput held c) [Other];
     previous ← upload_held c previous;
     publish_retained c previous)
    (perform ReleaseHold).

Definition transferFinalization (c : FinalizationRecord) : prog unit :=
  _ ← require_that (Capture.Validate c && (Capture.ObjectsVersion c =? 1)) [Other];
  _ ← live;
  previous ← begin_transfer c;
  if is_some (Transfer.Publication (frecord previous)) then acknowledgeTransferredFinalization (frecord previous)
  else
    previous ← inspect_upload c previous;
    upload_and_publish c previous.

(** ** Reclamation *)

(** [exchangeSkillReclamation] of a capture: the helper may ask for an
    authorization of its live challenge. *)
Definition reclaim_exchange (operation : string) (expected : FinalizationRecord) : prog FinalizationRecord :=
  frame ← perform (RequestReclamation operation expected);
  frame ←
    match frame with
    | Reclaimed _ => mret frame
    | Authorize challenge ack =>
        match ack with
        | None => fail [Other]
        | Some ack =>
            _ ← require_that (validSkillUUID challenge && Ack.Validate ack &&
                              SameFinalizationInput (Ack.Capture ack) expected &&
                              bool_decide (Ack.State ack = Some (Capture.State expected))) [Other];
            authority ← AuthorizeSkillReclamationChallenge challenge ack;
            _ ← live;
            _ ← require_that (String.eqb (Authority.RequestID authority) challenge && Authority.Match authority ack) [Other];
            perform (SendAuthorization authority)
        end
    end;
  ended ← stopped;
  match frame with
  | Reclaimed (Some r) =>
      _ ← require_that (Capture.Validate r && Capture.CanDeleteSession r && (Capture.ObjectsVersion r =? 1) &&
                        negb (is_some ended)) [Other];
      mret r
  | _ => fail [Other]
  end.

Definition ReclaimSkillFinalization (operation : string) (c : FinalizationRecord) : prog FinalizationRecord :=
  _ ← require_that (Capture.Validate c && Capture.CanDeleteSession c && (Capture.ObjectsVersion c =? 1)) [Other];
  r ← reclaim_exchange operation c;
  _ ← require_that (bool_decide (r = c)) [Other];
  mret r.

(** [ResumeSkillReclamation]: no authorization can be asked for. *)
Definition ResumeSkillReclamation (operation nodeID sessionID : string) : prog FinalizationRecord :=
  _ ← require_that (validSkillUUID nodeID && validSkillUUID sessionID) [Other];
  frame ← perform (ResumeReclamation operation nodeID sessionID);
  ended ← stopped;
  match frame with
  | Reclaimed (Some r) =>
      _ ← require_that (Capture.Validate r && Capture.CanDeleteSession r && (Capture.ObjectsVersion r =? 1) &&
                        negb (is_some ended)) [Other];
      _ ← require_that (Observed.bound (Capture.Binding r) nodeID sessionID) [Other];
      mret r
  | _ => fail [Other]
  end.

Definition reclaimTransferredFinalization (c : FinalizationRecord) : prog unit :=
  saved ← expect finalization_pending (λ _, true) (read_journal (λ l, load_transfer l c));
  match saved with
  | Some e =>
      match Transfer.Receipt (frecord e), Transfer.Publication (frecord e) with
      | Some receipt, Some p =>
          match Ack.State (Ack.mk 1 (Transfer.Capture (frecord e)) receipt (Some p)) with
          | None => fail finalization_pending
          | Some state =>
              let c := c <| Capture.State := state |> in
              _ ← require_that (Capture.CanDeleteSession c) finalization_pending;
              _ ← expect finalization_pending (λ r, bool_decide (r = c))
                    (ReclaimSkillFinalization ("finalization-reclaim:" +:+ Snapshot.SnapshotID (Capture.Binding c)) c);
              mret tt
          end
      | _, _ => fail finalization_pending
      end
  | None => fail finalization_pending
  end.

Definition resumeFinalizationReclamation (nodeID sessionID : string) : prog unit :=
  _ ← expect finalization_pending
        (λ r, Capture.Validate r && Capture.CanDeleteSession r && (Capture.ObjectsVersion r =? 1) &&
              Observed.bound (Capture.Binding r) nodeID sessionID)
        (ResumeSkillReclamation ("finalization-resume:" +:+ sessionID) nodeID sessionID);
  mret tt.

(** ** Sessions the worker admitted *)

(** [forget] *)
Definition forget (sessionID : string) : prog unit :=
  m ← aside granted;
  _ ← match m !! sessionID with
      | Some a => try (perform (UnregisterToolSession sessionID (nonce a)))
      | None => mret (Ok tt)
      end;
  aside (grant (delete sessionID m)).

Fixpoint forget_ended (items : list Inventory.FinalizationInventoryItem) : prog unit :=
  match items with
  | [] => mret tt
  | item :: rest =>
      _ ← (if is_some (Inventory.Record_ item) ||
              bool_decide (Inventory.Code item ∈ ["reclamation_pending"; "content_reclaimed"])
           then forget (Inventory.SessionID item) else mret tt);
      forget_ended rest
  end.

(** [managedFinalizationReader.ListSkillFinalizations], under the gate. *)
Definition managed_list (operation nodeID cursor : string) : prog FinalizationPage :=
  _ ← live;
  page ← perform (ListSkillFinalizations operation nodeID cursor);
  _ ← require_that (Inventory.Validate page cursor nodeID) [Other];
  _ ← forget_ended (default [] (Inventory.Items page));
  mret page.

(** Whether the broker still knows the peer of an admitted session. *)
Definition admitted (sessionID : string) : prog bool :=
  m ← aside granted;
  match m !! sessionID with
  | Some a => r ← try (perform (VerifyToolSessionPeer sessionID (nonce a) (uid a))); mret (is_ok r)
  | None => mret false
  end.

(** [managedFinalizationReader.ReconcileSkillSession]: a session that runs
    without an admission is drained. *)
Definition managed_reconcile (operation nodeID sessionID : string) : prog SkillSessionObservation :=
  _ ← live;
  o ← perform (ReconcileSkillSession operation nodeID sessionID);
  _ ← require_that (Observed.Validate o nodeID sessionID) [Other];
  o ← (if String.eqb (Observed.State o) "running" then
         known ← admitted sessionID;
         if known : bool then mret o
         else
           o ← perform (DrainUnadmittedSkillSession "finalization-admission-drain" nodeID sessionID);
           _ ← require_that (Observed.Validate o nodeID sessionID) [Other];
           mret o
       else mret o);
  _ ← (if bool_decide (Observed.State o ∈ ["finalized"; "capture_pending"; "not_started"])
       then forget sessionID else mret tt);
  mret o.

(** ** Recovery *)

(** The capture of an item that has none in the inventory; [Ok None] when
    there is nothing to transfer, and whether the session stays pending. *)
Definition reconcile_item (nodeID sessionID : string) : prog (option FinalizationRecord * bool) :=
  observation ← try (managed_reconcile "finalization-reconcile" nodeID sessionID);
  match observation with
  | Ok o =>
      if negb (Observed.Validate o nodeID sessionID) then mret (None, true) else
      match Observed.Pending o with
      | Some failure => _ ← try (ObserveSkillCapturePending failure); mret (None, true)
      | None => mret (Observed.Record_ o, false)
      end
  | Err _ => mret (None, true)
  end.

(** Transfer and reclaim one capture; whether it stays pending. *)
Definition transfer_item (c : FinalizationRecord) : prog bool :=
  transferred ← try (transferFinalization c);
  match transferred with
  | Err _ => mret true
  | Ok _ => reclaimed ← try (reclaimTransferredFinalization c); mret (negb (is_ok reclaimed))
  end.

(** One item of the page; whether it stays pending. *)
Definition recover_item (nodeID : string) (item : Inventory.FinalizationInventoryItem) : prog bool :=
  match Inventory.Record_ item with
  | Some c => transfer_item c
  | None =>
      let code := Inventory.Code item in
      if String.eqb code "content_reclaimed" then mret false
      else if String.eqb code "reclamation_pending" then
        resumed ← try (resumeFinalizationReclamation nodeID (Inventory.SessionID item)); mret (negb (is_ok resumed))
      else if negb (String.eqb code "not_finalized") then mret true
      else
        '(found, pending) ← reconcile_item nodeID (Inventory.SessionID item);
        match found with
        | Some c => transfer_item c
        | None => mret pending
        end
  end.

(** Every item is tried; the error is that of an ended context. *)
Fixpoint recover_items (nodeID : string) (items : list Inventory.FinalizationInventoryItem) (pending : bool)
    : prog (result error bool) :=
  match items with
  | [] => mret (Ok pending)
  | item :: rest =>
      ended ← stopped;
      match ended with
      | Some x => mret (Err x)
      | None => p ← recover_item nodeID item; recover_items nodeID rest (pending || p)
      end
  end.

(** [recoverFinalizationPage]: the next cursor and the outcome. *)
Definition recoverFinalizationPage (nodeID cursor : string) : prog (string * result error unit) :=
  listed ← try (managed_list "finalization-inventory" nodeID cursor);
  match listed with
  | Err _ => mret (cursor, Err finalization_pending)
  | Ok page =>
      if negb (Inventory.Validate page cursor nodeID) then mret (cursor, Err finalization_pending) else
      outcome ← recover_items nodeID (default [] (Inventory.Items page)) (Inventory.InvalidNames page);
      match outcome with
      | Err x => mret (cursor, Err x)
      | Ok pending => mret (Inventory.NextCursor page, if pending : bool then Err finalization_pending else Ok tt)
      end
  end.

(** The operation the worker retries, once it holds the coordinator; it keeps
    the cursor. *)
Definition finalizationRecoveryOperation (nodeID cursor : string) : prog (string * result error unit) :=
  ended ← stopped;
  match ended with
  | Some _ => mret (cursor, Err finalization_pending)
  | None =>
      '(next, outcome) ← recoverFinalizationPage nodeID cursor;
      mret (next, match outcome with Ok _ => Ok tt | Err _ => Err finalization_pending end)
  end.
End Computations.
