(* ===== verification/FinalizationTransferFacts.v ===== *)
(** * What a transfer guarantees

    The write-ahead order of every run, whatever the server and the helper
    answer: an upload is published only when the ledger holds the checkpoint,
    the helper is told only what the ledger holds, and content is cleaned up or
    reclaimed only after the decision on its publication was recorded, or to
    resume a reclamation that the helper reports as begun.
    [FinalizationDemo] runs a capture that is uploaded, published and
    acknowledged, then found again by the recovery loop, which reclaims its
    content, and a file that is cut on its way to the server. *)

From S2P Require Import Prelude GoText GoTime GoJson GoUtf8 GoJsonText GoJsonValue GoJsonDecode GoJsonStruct.
From S2P Require Import Manifest ManifestCodec SkillContent SkillUpload StartResult Ledger TaskStore LedgerFacts.
From S2P Require Import StartJournal StartJournalFacts Deployment DeploymentCodec DeploymentJournal DeploymentJournalFacts.
From S2P Require Import Programs Finalization FinalizationJournal FinalizationCodec FinalizationJournalFacts.
From S2P Require Import FinalizationWire FinalizationTransfer.
From Stdlib.Strings Require Import Ascii.

(** The integers of answers are int64, and expiries in years JSON can hold. *)
Definition item_width (item : Inventory.FinalizationInventoryItem) : Prop :=
  ∀ c, Inventory.Record_ item = Some c → capture_width c.

Definition reply_width (c : call) : reply c → Prop :=
  match c with
  | PostFinalization _ _ | GetFinalization _ | PostComplete _ _ => λ e, upload_width (Data e)
  | PostPublish _ => λ e, publication_width (Data e)
  | ListSkillFinalizations _ _ _ => λ page, ∀ items, Inventory.Items page = Some items → Forall item_width items
  | ReconcileSkillSession _ _ _ | DrainUnadmittedSkillSession _ _ _ =>
      λ o, ∀ c, Observed.Record_ o = Some c → capture_width c
  | _ => λ _, True
  end.

Definition snapshot_of (c : FinalizationRecord) : string := Snapshot.SnapshotID (Capture.Binding c).

Lemma same_snapshot a b : SameFinalizationInput a b = true → snapshot_of a = snapshot_of b.
Proof. unfold snapshot_of. by intros (_ & _ & -> & _)%same_input_spec. Qed.

Lemma same_width a b : SameFinalizationInput a b = true → capture_width b → capture_width a.
Proof. unfold capture_width. by intros (_ & _ & -> & _)%same_input_spec. Qed.

Section Logic.
Context (IsNormalString : string → bool) (hex_sha256 : list Z → string).
Context {L Env W : Type} `{DurableMap L Env} `{!Outside reply error W Env} `{!Process W} `{!RealWorld reply_width}.

Abbreviation digest_of := (digest_of IsNormalString hex_sha256).

(** The publication of the record is decided, for good. *)
Definition decided (l : L) (c : FinalizationRecord) (state : string) : Prop :=
  ∃ r p, transfer_at l (snapshot_of c) = Moving r ∧ SameFinalizationInput (Transfer.Capture r) c = true ∧
    Transfer.Publication r = Some p ∧ proven_state r = Some state ∧ Authority.terminal state = true.

(** When a call may be made; [reported] are the sessions of which the helper
    itself said that the reclamation of their content has begun. *)
Definition justified (reported : string → Prop) (c : call) (l : L) : Prop :=
  match c with
  | PostTermination snapshot payload =>
      ∃ r, transfer_at l snapshot = Moving r ∧ Transfer.Receipt r = None ∧
        payload = stopped_runtime (Capture.Binding (Transfer.Capture r)) (Capture.TreeDigest (Transfer.Capture r))
                    (Capture.Unclean (Transfer.Capture r))
  | PostFinalization i m =>
      ∃ r, transfer_at l (Input.SnapshotID i) = Moving r ∧ Ack.input_of (Transfer.Capture r) = i ∧
        held_checkpoint r = false ∧ digest_of m = Some (Input.TreeDigest i)
  | GetFinalization f =>
      ∃ id r x, transfer_at l id = Moving r ∧ Transfer.Receipt r = Some x ∧ FinReceipt.ID x = f ∧
        Transfer.Publication r = None
  | PutFile f upload _ | PostComplete f upload =>
      ∃ id r x, transfer_at l id = Moving r ∧ Transfer.Receipt r = Some x ∧ FinReceipt.ID x = f ∧
        FinReceipt.UploadID x = upload ∧ FinReceipt.CheckpointID x = None
  | PostPublish f =>
      ∃ id r x, transfer_at l id = Moving r ∧ Transfer.Receipt r = Some x ∧ FinReceipt.ID x = f ∧
        is_some (FinReceipt.CheckpointID x) = true ∧ Transfer.Publication r = None
  | AcknowledgeSkillFinalization _ ack =>
      ∃ r x, transfer_at l (snapshot_of (Ack.Capture ack)) = Moving r ∧ Transfer.Receipt r = Some x ∧ ack = ack_of r x
  | CleanupFinalizedSkillSession _ c | RequestReclamation _ c => decided l c (Capture.State c)
  | GetReclamation _ _ => ∃ c state, decided l c state
  | SendAuthorization a =>
      ∃ c state, decided l c state ∧ Authority.SnapshotID a = snapshot_of c ∧
        Authority.SessionID a = Snapshot.SessionID (Capture.Binding c) ∧
        Authority.TreeDigest a = Capture.TreeDigest c ∧ Authority.Unclean a = Capture.Unclean c
  | ResumeReclamation _ _ sessionID => reported sessionID
  (* what a recorded decision has no part in: the inventory and the state of a
     session, its admission at the broker, a capture that failed, and the hold
     and the reading of a capture *)
  | ListSkillFinalizations _ _ _ | ReconcileSkillSession _ _ _ | DrainUnadmittedSkillSession _ _ _
  | VerifyToolSessionPeer _ _ _ | UnregisterToolSession _ _ | PostCapturePending _ _
  | HoldSkillFinalization _ _ | ReleaseHold | ReadSkillFinalization _ _
  | OpenSkillFinalizationObjects _ _ | OpenObject _ | CloseObjects => True
  end.

Section Reported.
Context (reported : string → Prop).

#[local] Abbreviation justified := (justified reported).

#[local] Abbreviation program := (prog call error L W).

#[local] Abbreviation obeys := (obeys (W := W) (X := error) (Step := transfer_step) (good := sound) (justified := justified)).

Lemma transfer_step_sound (l l' : L) : sound l → transfer_step l l' → sound l'.
Proof. intros Hl Hs. by destruct (transfer_step_forward _ _ Hl Hs). Qed.

Lemma obeys_transfer {A} scope I (op : Env → L → L * result error A) Q :
  (∀ env l l' r, timely env → sound l → I l → op env l = (l', r) →
     transfer_step l l' ∧ (∀ k, ¬ scope k → content l' k = content l k) ∧ ∀ a, r = Ok a → Q l' a) →
  obeys scope I (journal op) Q.
Proof. apply (obeys_journal transfer_step_sound). Qed.

Lemma obeys_transfer_call scope I (c : call) :
  (∀ l, sound l → I l → justified c l) → obeys scope I (perform c) (λ l a, I l ∧ reply_width c a).
Proof. apply obeys_perform. Qed.

Lemma call_then {A} scope I (c : call) (f : reply c → program A) Q :
  (∀ l, sound l → I l → justified c l) → (∀ a, reply_width c a → obeys scope I (f a) Q) →
  obeys scope I (perform c ≫= f) Q.
Proof. apply obeys_then_call. Qed.

Lemma try_then {A} scope I (c : call) (f : result error (reply c) → program A) Q :
  (∀ l, sound l → I l → justified c l) → (∀ a, obeys scope I (f a) Q) → obeys scope I (try (perform c) ≫= f) Q.
Proof. apply obeys_then_try. Qed.

(** The first call of a sequence. *)
#[local] Ltac then_call := cbv beta zeta; match goal with |- context [perform ?c ≫= ?f] => apply (call_then _ _ c f) end.
#[local] Ltac then_try := cbv beta zeta; match goal with |- context [try (perform ?c) ≫= ?f] => apply (try_then _ _ c f) end.

(** ** The journal, on an entry that is up to date *)

Definition transfer_of (c : FinalizationRecord) : string → Prop := λ k, k = snapshot_of c.

Definition current (c : FinalizationRecord) (l : L) (e : finalizationTransferEntry) : Prop :=
  content l (snapshot_of c) = Some (fentry e) ∧ transfer_known e ∧
  SameFinalizationInput (Transfer.Capture (frecord e)) c = true.

(** The record of the capture is [r]. *)
Definition recorded (c : FinalizationRecord) (r : finalizationTransferRecord) (l : L) : Prop :=
  transfer_at l (snapshot_of c) = Moving r ∧ SameFinalizationInput (Transfer.Capture r) c = true.

Lemma current_recorded c l e : current c l e → recorded c (frecord e) l.
Proof. intros (Hc & [Hk _] & Hs). split; [|done]. unfold transfer_at. by rewrite Hc. Qed.

Lemma recorded_valid c r l : recorded c r l → Transfer.validate r = true.
Proof.
  intros [Hr _]. unfold transfer_at in Hr. destruct (content l _); [|done].
  by apply moving_valid, decode_transfer_spec in Hr as (_ & _ & _ & ? & _).
Qed.

Lemma transfer_load_found l c e : sound l → load_transfer l c = Ok (Some e) → current c l e.
Proof.
  intros Hl. unfold load_transfer. rewrite get_spec by done. destruct (in_doubt l); [done|]. cbn.
  fold (snapshot_of c). destruct (content l (snapshot_of c)) as [x|] eqn:Hc; [|done].
  intros Hr. apply bind_Ok_inv in Hr as (d & Hd & Heq). apply Ok_inj in Heq. injection Heq as <-.
  pose proof (phase_moving _ _ _ Hd) as Hph. apply decode_transfer_spec in Hd as (He & _ & _ & _ & Hs & _). subst x.
  destruct (content_proper l _ _ Hl Hc) as [Hp _]. by split_and!.
Qed.

Lemma transfer_load_absent l c : sound l → load_transfer l c = Ok None → content l (snapshot_of c) = None.
Proof.
  intros Hl. unfold load_transfer. rewrite get_spec by done. destruct (in_doubt l); [done|]. cbn.
  fold (snapshot_of c). destruct (content l (snapshot_of c)) as [x|] eqn:Hc; [|done].
  intros Hr. by apply bind_Ok_inv in Hr as (d & Hd & Heq).
Qed.

Lemma transfer_save_effect env l previous r l' x :
  timely env → sound l → transfer_width r → (∀ p, previous = Some p → transfer_known p) →
  save_transfer env l previous r = (l', x) →
  transfer_step l l' ∧ (∀ k, k ≠ Transfer.id r → content l' k = content l k) ∧
  ∀ saved, x = Ok saved → ∃ e, saved = Some e ∧ frecord e = r ∧ current (Transfer.Capture r) l' e ∧
    Transfer.validate r = true.
Proof.
  intros Ht Hl Hw Hprev Hrun. split.
  { pose proof (tstep_save env l previous r Ht Hw Hprev) as Hs. by rewrite Hrun in Hs. }
  unfold save_transfer in Hrun. destruct (Transfer.validate r) eqn:Hv; cbn [negb] in Hrun; [|by injection Hrun as <- <-].
  destruct (match previous with Some p => may_follow p r | None => Ok tt end) as [[]|err];
    [|by injection Hrun as <- <-].
  destruct (transfer_payload r (conj Hv Hw)) as (m & Hp & Hs & Hobj). rewrite Hp in Hrun.
  destruct (transfer_entry env r m Ht (conj Hv Hw) Hs Hobj) as (Ha & Hd). cbv zeta in Hrun.
  set (e := mkEntry _ _ _ _ _) in *.
  assert (Hx : ∀ y, option_map fentry previous = Some y → proper y).
  { intros y Hy. destruct previous as [p|]; [|done]. injection Hy as <-. by apply Hprev. }
  destruct (store_swap env l _ e) as [l1 [[]|err]] eqn:Hswap; injection Hrun as <- <-;
    (split; [exact (swap_frame _ _ _ _ _ _ Hl Ha Hx Hswap)|]); [|done].
  intros saved Hsv. destruct (swap_written _ _ _ _ _ Hl Ha Hx Hswap) as (Hl1 & Hdb & Hc).
  change (TaskID e) with (snapshot_of (Transfer.Capture r)) in Hc.
  assert (Hload : load_transfer l1 (Transfer.Capture r) = Ok (Some (mkTransferEntry (keeps env e) r))).
  { unfold load_transfer. rewrite get_spec, Hdb by done. unfold snapshot_of in Hc. rewrite Hc. cbn.
    rewrite (Hd _ (same_input_refl _)). done. }
  rewrite Hload in Hsv. apply Ok_inj in Hsv. subst saved. eexists. split_and!; [done|done| |done].
  by apply transfer_load_found.
Qed.

(** A record of the capture [c], written over an entry that is known. *)
Lemma obeys_transfer_save c (I : L → Prop) previous r :
  SameFinalizationInput (Transfer.Capture r) c = true →
  (∀ l, I l → transfer_width r ∧ ∀ p, previous = Some p → transfer_known p) →
  obeys (transfer_of c) I (save_record previous r) (λ l e, frecord e = r ∧ current c l e).
Proof.
  intros Hc HI. unfold save_record. eapply obeys_bind with
    (Q := λ l saved, ∃ e, saved = Some e ∧ frecord e = r ∧ current c l e).
  - apply obeys_transfer. intros env l l' x Ht Hl Hi Hrun. destruct (HI l Hi) as [Hw Hprev].
    destruct (transfer_save_effect _ _ _ _ _ _ Ht Hl Hw Hprev Hrun) as (Hs & Hf & Hq).
    split_and!; [done|intros k Hk; apply Hf; intros ->; apply Hk; exact (same_snapshot _ _ Hc)|].
    intros saved Hsv. destruct (Hq saved Hsv) as (e & -> & Hr & (He1 & He2 & He3) & _). exists e.
    split_and!; [done|done|]. split_and!; [by rewrite <- (same_snapshot _ _ Hc)|done|].
    by rewrite Hr.
  - intros saved. cbn beta. destruct saved as [e|]; [|apply obeys_fail]. apply obeys_ret.
    by intros l _ (e' & [= <-] & ?).
Qed.

(** ** The client *)

(** A computation that only makes calls keeps what is known of the store. *)
Definition keeps_store {A} (I : L → Prop) (p : program A) (facts : A → Prop) : Prop :=
  ∀ scope, obeys scope I p (λ l a, I l ∧ facts a).

Lemma observe_keeps (I : L → Prop) c :
  (∀ l, sound l → I l → justified (PostTermination (snapshot_of c)
     (stopped_runtime (Capture.Binding c) (Capture.TreeDigest c) (Capture.Unclean c))) l) →
  keeps_store I (ObserveSkillTermination c) (λ _, True).
Proof.
  intros Hj scope. apply obeys_guard. intros _. then_call; [exact Hj|]. intros e _.
  eapply obeys_weaken; [apply obeys_require|by intros l _ Hi; exact Hi|]. by intros l a _ [? _].
Qed.

Lemma view_keeps I i previous e :
  upload_width (Data e) →
  keeps_store I (finalization_view i previous e) (λ v, upload_width v ∧ FinReceipt.ValidateReceipt v i previous = true).
Proof.
  intros Hw scope. apply obeys_guard. unfold finalization_answer. rewrite !andb_true_iff. intros [_ Hv].
  apply obeys_ret. by intros l _ Hi.
Qed.

Lemma begin_keeps (I : L → Prop) i m previous :
  (∀ l, sound l → I l → digest_of m = Some (Input.TreeDigest i) → justified (PostFinalization i m) l) →
  keeps_store I (BeginSkillFinalization IsNormalString hex_sha256 i m previous)
    (λ v, upload_width v ∧ FinReceipt.ValidateReceipt v i previous = true).
Proof.
  intros Hj scope. apply obeys_guard. rewrite !andb_true_iff, bool_decide_eq_true. intros [[_ Hd] _].
  then_call; [by intros l Hl Hi; apply Hj|]. intros e Hw. by apply view_keeps.
Qed.

Lemma get_keeps (I : L → Prop) i x :
  (∀ l, sound l → I l → justified (GetFinalization (FinReceipt.ID x)) l) →
  keeps_store I (GetSkillFinalization i x)
    (λ v, upload_width v ∧ FinReceipt.ValidateReceipt v i (Some x) = true).
Proof.
  intros Hj scope. apply obeys_guard. intros _. then_call; [exact Hj|]. intros e Hw. by apply view_keeps.
Qed.

Lemma complete_keeps (I : L → Prop) i x :
  (∀ l, sound l → I l → justified (PostComplete (FinReceipt.ID x) (FinReceipt.UploadID x)) l) →
  keeps_store I (CompleteSkillFinalization i x)
    (λ v, upload_width v ∧ FinReceipt.ValidateReceipt v i (Some x) = true).
Proof.
  intros Hj scope. apply obeys_guard. intros _. then_call; [exact Hj|]. intros e Hw.
  eapply obeys_bind; [by apply view_keeps|]. intros v. cbn beta. apply obeys_guard. intros _. by apply obeys_ret.
Qed.

Lemma publish_keeps (I : L → Prop) i x :
  (∀ l, sound l → I l → is_some (FinReceipt.CheckpointID x) = true → justified (PostPublish (FinReceipt.ID x)) l) →
  keeps_store I (PublishSkillFinalization i x)
    (λ p, publication_width p ∧ Publication_.ValidateReceipt p i x = true).
Proof.
  intros Hj scope. apply obeys_guard. rewrite andb_true_iff. intros [_ Hc].
  then_call; [by intros l Hl Hi; apply Hj|]. intros e Hw. apply obeys_guard.
  unfold publication_answer. rewrite !andb_true_iff. intros [_ Hv]. apply obeys_ret. by intros l _ Hi.
Qed.

Lemma put_keeps (I : L → Prop) i x entry :
  (∀ l, sound l → I l → justified (PutFile (FinReceipt.ID x) (FinReceipt.UploadID x) entry) l) →
  keeps_store I (PutSkillFinalizationFile IsNormalString hex_sha256 i x entry) (λ _, True).
Proof.
  intros Hj scope. apply obeys_guard. intros _. destruct (upload_reader _ entry) as [reader|]; [|apply obeys_fail].
  then_call; [exact Hj|]. intros e _. eapply obeys_weaken; [apply obeys_require|by intros l _ Hi; exact Hi|].
  by intros l a _ [? _].
Qed.

(** ** Objects *)

Lemma open_reader_keeps (I : L → Prop) c : keeps_store I (open_reader c) (λ _, True).
Proof.
  intros scope. apply obeys_then_live, obeys_then_aside. intros t. then_call; [done|].
  intros present _. apply obeys_guard. intros _. by apply obeys_ret.
Qed.

Lemma Open_keeps (I : L → Prop) s d : keeps_store I (Open s d) (λ _, True).
Proof.
  intros scope. apply obeys_then_live, obeys_then_aside. intros t.
  eapply obeys_bind with (Q := λ l _, I l).
  - destruct (_ <=? _); [|by apply obeys_ret].
    eapply obeys_bind; [apply (open_reader_keeps I (capture s) scope)|]. intros started. cbn beta.
    eapply obeys_weaken with (I := I); [|by intros l _ [? _]|by intros l a _ Hq; exact Hq].
    then_try; [done|]. intros a. by apply obeys_ret.
  - intros s'. cbn beta. then_call; [done|]. intros found _. by apply obeys_ret.
Qed.

Lemma upload_entries_keeps (I : L → Prop) i x entries :
  (∀ l entry, sound l → I l → justified (PutFile (FinReceipt.ID x) (FinReceipt.UploadID x) entry) l) →
  ∀ s seen, keeps_store I (upload_entries IsNormalString hex_sha256 i x s seen entries) (λ _, True).
Proof.
  intros Hj. induction entries as [|entry rest IH]; intros s seen scope; cbn [upload_entries]; [by apply obeys_ret|].
  destruct (_ || _); [apply IH|]. apply obeys_then_live.
  eapply obeys_bind; [apply (Open_keeps I s _ scope)|]. intros [s' [present actual]]. cbn beta.
  eapply obeys_weaken with (I := I); [|by intros l _ [? _]|by intros l a _ Hq; exact Hq].
  apply obeys_guard. intros _.
  eapply obeys_bind; [apply (put_keeps I i x entry); by intros; apply Hj|]. intros u. cbn beta.
  eapply obeys_weaken with (I := I); [apply IH|by intros l _ [? _]|done].
Qed.

Lemma upload_keeps (I : L → Prop) c m x :
  (∀ l entry, sound l → I l → justified (PutFile (FinReceipt.ID x) (FinReceipt.UploadID x) entry) l) →
  keeps_store I (uploadFinalizationObjects IsNormalString hex_sha256 c m x) (λ _, True).
Proof.
  intros Hj scope. unfold uploadFinalizationObjects, openFinalizationObjectSource.
  eapply obeys_bind with (Q := λ l _, I l).
  - eapply obeys_bind; [apply (open_reader_keeps I c scope)|]. intros t. cbn beta. apply obeys_ret. by intros l _ [? _].
  - intros s. cbn beta. apply obeys_finally; [done|]. by apply upload_entries_keeps.
Qed.

(** ** Acknowledgements *)

(** The decision on the publication of a recorded transfer that stands. *)
Lemma decided_recorded c r x p l :
  recorded c r l → Transfer.Receipt r = Some x → Transfer.Publication r = Some p →
  finalizationPublicationOutcome p = true → decided l c (Publication_.Status p).
Proof.
  intros Hc Hx Hp Hout. pose proof (recorded_valid _ _ _ Hc) as Hv. destruct Hc as [Hc Hs]. exists r, p.
  unfold finalizationPublicationOutcome in Hout.
  split_and!; [done|done|done|rewrite (proven_state_of r x), Hp by done; cbn; by rewrite Hout|].
  pose proof (record_decision _ x (Publication_.Status p) Hv Hx) as [_ Hd]; [unfold decision_of; by rewrite Hp|].
  apply negb_true_iff, String.eqb_neq in Hout. destruct Hd as [|Hd]; [done|].
  unfold Authority.terminal. apply bool_decide_eq_true_2. destruct (Capture.Unclean _); cbn in Hd.
  - apply andb_true_iff in Hd as [_ ->%String.eqb_eq]. set_solver.
  - apply andb_true_iff in Hd as [_ Hd]. by apply bool_decide_eq_true in Hd.
Qed.

Lemma ack_state r x :
  Transfer.Receipt r = Some x → Ack.State (ack_of r x) = proven_state r.
Proof. intros Hx. unfold proven_state. by rewrite Hx. Qed.

(** The record was acknowledged and its publication, if decided, stands. *)
Lemma acknowledge_obeys scope (I : L → Prop) c r :
  (∀ l, I l → recorded c r l) →
  obeys scope I (acknowledgeTransferredFinalization r)
    (λ l _, I l ∧ ∀ p, Transfer.Publication r = Some p → finalizationPublicationOutcome p = true).
Proof.
  intros HI. unfold acknowledgeTransferredFinalization. destruct (Transfer.Receipt r) as [x|] eqn:Hx; [|apply obeys_fail].
  cbv zeta. fold (ack_of r x). rewrite (ack_state r x) by done.
  destruct (proven_state r) as [target|] eqn:Ht; [|apply obeys_fail].
  then_call.
  { intros l _ [Hc Hs]%HI. exists r, x. cbn [ack_of Ack.Capture]. split_and!; [|done|done].
    by rewrite (same_snapshot _ c Hs). }
  intros confirmed _. apply obeys_guard. rewrite !andb_true_iff, String.eqb_eq. intros [[_ Hs] Hst].
  destruct (Transfer.Publication r) as [p|] eqn:Hp; [|by apply obeys_ret; intros l _ Hc].
  apply obeys_guard. intros Hout. then_call.
  { intros l _ Hc%HI. destruct (decided_recorded c r x p l Hc Hx Hp Hout) as (r' & p' & H1 & H2 & H3 & H4 & H5).
    assert (r' = r) as -> by (destruct Hc as [Hc _]; congruence). rewrite Ht in H4. injection H4 as H4.
    exists r, p'. rewrite (same_snapshot confirmed c) by (eapply same_input_trans; [exact Hs|done]).
    rewrite Hst, H4. split_and!; try done; [by apply same_input_sym|by rewrite Ht, H4]. }
  intros cleaned _. eapply obeys_weaken; [apply obeys_require|by intros l _ Hi; exact Hi|].
  intros l [] _ [Hc _]. split; [done|]. by intros q [= <-].
Qed.

Lemma progress_obeys scope c (I : L → Prop) r :
  (∀ l, I l → recorded c r l) → obeys scope I (acknowledgeTransferProgress r c) (λ l _, I l).
Proof.
  intros HI. unfold acknowledgeTransferProgress. destruct (Capture.CanDeleteSession c); [by apply obeys_ret|].
  eapply obeys_weaken; [by apply (acknowledge_obeys scope I c)|done|]. by intros l a _ [? _].
Qed.

(** ** One transfer *)

Section Transfer.
Context (c : FinalizationRecord) (Hc : capture_width c).

(** The entry is up to date and its publication is not decided. *)
Definition undecided (e : finalizationTransferEntry) (l : L) : Prop :=
  current c l e ∧ Transfer.Publication (frecord e) = None.

Lemma undecided_recorded e l : undecided e l → recorded c (frecord e) l.
Proof. intros [Hcur _]. by apply current_recorded. Qed.

Lemma current_width l e : current c l e → capture_width (Transfer.Capture (frecord e)).
Proof. intros (_ & _ & Hs). by eapply same_width. Qed.

Lemma begin_obeys : obeys (transfer_of c) (λ _, True) (begin_transfer c) (λ l e, current c l e).
Proof.
  unfold begin_transfer. eapply obeys_bind with
    (Q := λ l found, match found with Some e => current c l e | None => True end).
  - apply obeys_read. intros l [e|] Hl _ Hload; [by apply transfer_load_found|done].
  - intros [e|]; cbn beta; [by apply obeys_ret|].
    eapply obeys_weaken; [apply (obeys_transfer_save c (λ _, True)); [apply same_input_refl|]|done|by intros l e _ [_ ?]].
    intros l _. split; [by split_and!|done].
Qed.

(** The answer of the server replaces the recorded receipt. *)
Lemma receipt_obeys e view :
  upload_width view →
  obeys (transfer_of c) (undecided e) (saveFinalizationReceipt e view)
    (λ l e', undecided e' l ∧ Transfer.Receipt (frecord e') = Some view).
Proof.
  intros Hv. unfold saveFinalizationReceipt.
  apply (obeys_pure _ (SameFinalizationInput (Transfer.Capture (frecord e)) c = true ∧
                       Transfer.Publication (frecord e) = None)).
  { by intros l [(_ & _ & ?) ?]. }
  intros [Hs Hp]. eapply obeys_weaken.
  - apply (obeys_transfer_save c (undecided e)); [exact Hs|]. intros l [Hcur _]. split.
    + split_and!; [by eapply same_width|by intros x [= <-]|]. cbn. intros p Hq. by rewrite Hp in Hq.
    + intros p [= <-]. apply Hcur.
  - by intros l _ Hi.
  - intros l e' _ [He' Hcur]. unfold undecided. rewrite He'. cbn. by split_and!.
Qed.

(** What every call about the recorded upload relies on. *)
Lemma undecided_receipt e l x :
  undecided e l → Transfer.Receipt (frecord e) = Some x →
  ∃ id r, transfer_at l id = Moving r ∧ Transfer.Receipt r = Some x ∧ Transfer.Publication r = None.
Proof.
  intros Hu Hx. exists (snapshot_of c), (frecord e). split_and!; [by apply undecided_recorded|done|apply Hu].
Qed.

(** The recorded receipt, if any, can be written again. *)
Definition sized (e : finalizationTransferEntry) : Prop :=
  ∀ x, Transfer.Receipt (frecord e) = Some x → upload_width x.

Lemma inspect_obeys e :
  obeys (transfer_of c) (undecided e) (inspect_upload c e) (λ l e', undecided e' l ∧ sized e').
Proof.
  unfold inspect_upload. destruct (Transfer.Receipt (frecord e)) as [x|] eqn:Hx.
  - eapply obeys_bind.
    { apply (get_keeps (undecided e)). intros l _ Hu.
      destruct (undecided_receipt e l x Hu Hx) as (id & r & ? & ? & ?). by exists id, r, x. }
    intros view. cbn beta. apply (obeys_pure _ (upload_width view)); [by intros l (_ & ? & _)|]. intros Hw.
    eapply obeys_bind.
    { eapply obeys_weaken; [by apply (receipt_obeys e view)|by intros l _ [? _]|by intros l a _ Hq; exact Hq]. }
    intros e'. cbn beta. eapply obeys_bind.
    { apply (progress_obeys _ c _ (frecord e')). intros l [Hu _]. by apply undecided_recorded. }
    intros u. apply obeys_ret. intros l _ [Hu Hr]. split; [done|]. intros y Hy. rewrite Hr in Hy. by injection Hy as <-.
  - eapply obeys_bind.
    { apply (observe_keeps (undecided e)). intros l _ Hu. exists (frecord e).
      pose proof (undecided_recorded _ _ Hu) as [Hm Hs]. split_and!; [done|done|].
      apply same_input_spec in Hs as (_ & _ & -> & -> & ->). done. }
    intros u. apply obeys_ret. intros l _ [Hu _]. split; [done|]. intros y Hy. by rewrite Hx in Hy.
Qed.
(** The checkpoint is held by the server. *)
Definition retained (e : finalizationTransferEntry) (l : L) : Prop :=
  undecided e l ∧ held_checkpoint (frecord e) = true ∧ sized e.

(** Saved and reported progress of the upload. *)
Lemma progress_saved e view (I : L → Prop) (f : finalizationTransferEntry → program finalizationTransferEntry) Q :
  upload_width view → (∀ l, I l → undecided e l) →
  (∀ e', obeys (transfer_of c) (λ l, undecided e' l ∧ Transfer.Receipt (frecord e') = Some view) (f e') Q) →
  obeys (transfer_of c) I
    (previous ← saveFinalizationReceipt e view;
     _ ← acknowledgeTransferProgress (frecord previous) c; f previous) Q.
Proof.
  intros Hw HI Hf. eapply obeys_bind.
  { eapply obeys_weaken; [by apply (receipt_obeys e view)|by intros l _ Hi; apply HI|by intros l a _ Hq; exact Hq]. }
  intros e'. cbn beta. eapply obeys_bind.
  { apply (progress_obeys _ c _ (frecord e')). intros l [Hu _]. by apply undecided_recorded. }
  intros u. cbn beta. apply Hf.
Qed.

Lemma saved_retained e view l :
  upload_width view → is_some (FinReceipt.CheckpointID view) = true → undecided e l →
  Transfer.Receipt (frecord e) = Some view → retained e l.
Proof.
  intros Hw Hck Hu Hr. split_and!; [done|unfold held_checkpoint; by rewrite Hr|].
  intros y Hy. rewrite Hr in Hy. by injection Hy as <-.
Qed.

Lemma upload_held_obeys e :
  obeys (transfer_of c) (λ l, undecided e l ∧ held_checkpoint (frecord e) = false)
    (upload_held IsNormalString hex_sha256 c e) (λ l e', retained e' l).
Proof.
  unfold upload_held. cbv zeta. then_call; [done|]. intros [original manifest] _. apply obeys_guard.
  rewrite andb_true_iff, bool_decide_eq_true. intros [Hd _]. apply obeys_then_live.
  eapply obeys_bind.
  { apply (begin_keeps (λ l, undecided e l ∧ held_checkpoint (frecord e) = false)). intros l _ [Hu Hh] Hdig.
    pose proof (undecided_recorded _ _ Hu) as [Hm Hs]. exists (frecord e). by rewrite (same_input_of _ c Hs). }
  intros view. cbn beta. apply (obeys_pure _ (upload_width view)); [by intros l (_ & ? & _)|]. intros Hw.
  apply progress_saved; [done|by intros l [[? _] _]|]. intros e1.
  destruct (is_some (FinReceipt.CheckpointID view)) eqn:Hck.
  { apply obeys_ret. intros l _ [Hu Hr]. by apply (saved_retained e1 view). }
  assert (Hput : ∀ l, undecided e1 l ∧ Transfer.Receipt (frecord e1) = Some view →
            ∃ id r x, transfer_at l id = Moving r ∧ Transfer.Receipt r = Some x ∧ FinReceipt.ID x = FinReceipt.ID view ∧
              FinReceipt.UploadID x = FinReceipt.UploadID view ∧ FinReceipt.CheckpointID x = None).
  { intros l [Hu Hr]. destruct (undecided_receipt e1 l view Hu Hr) as (id & r & ? & ? & ?).
    exists id, r, view. split_and!; try done. by destruct (FinReceipt.CheckpointID view). }
  eapply obeys_bind; [apply (upload_keeps (λ l, undecided e1 l ∧ Transfer.Receipt (frecord e1) = Some view));
                      by intros l entry _ Hi; apply Hput|].
  intros u. cbn beta. apply obeys_then_live. eapply obeys_bind.
  { apply (complete_keeps (λ l, (undecided e1 l ∧ Transfer.Receipt (frecord e1) = Some view) ∧ True)).
    intros l _ [Hi _]. by apply Hput. }
  intros completed. cbn beta. apply (obeys_pure _ (upload_width completed)); [by intros l (_ & ? & _)|]. intros Hwc.
  apply obeys_guard. rewrite !andb_true_iff. intros [[Hck' _] _].
  apply progress_saved; [done|by intros l [[[? _] _] _]|]. intros e2. apply obeys_ret.
  intros l _ [Hu Hr]. by apply (saved_retained e2 completed).
Qed.

(** The decision stands and is recorded. *)
Definition transfer_settled (l : L) : Prop :=
  ∃ r p, transfer_at l (snapshot_of c) = Moving r ∧ SameFinalizationInput (Transfer.Capture r) c = true ∧
    Transfer.Publication r = Some p ∧ finalizationPublicationOutcome p = true.

Lemma acknowledge_settles r p scope (I : L → Prop) :
  Transfer.Publication r = Some p → (∀ l, I l → recorded c r l) →
  obeys scope I (acknowledgeTransferredFinalization r) (λ l _, transfer_settled l).
Proof.
  intros Hp HI. eapply obeys_weaken; [by apply (acknowledge_obeys scope I c r)|done|].
  intros l a _ [Hi Hout]. destruct (HI l Hi) as [Hm Hs]. exists r, p. split_and!; [done|done|done|by apply Hout].
Qed.

Lemma publish_obeys e :
  obeys (transfer_of c) (retained e) (publish_retained c e) (λ l _, transfer_settled l).
Proof.
  unfold publish_retained. apply obeys_then_live.
  destruct (Transfer.Receipt (frecord e)) as [x|] eqn:Hx; [|apply obeys_fail].
  eapply obeys_bind.
  { apply (publish_keeps (retained e)). intros l _ [Hu _] Hck.
    destruct (undecided_receipt e l x Hu Hx) as (id & r & ? & ? & ?). by exists id, r, x. }
  intros p. cbn beta zeta. set (record := (frecord e) <| Transfer.Publication := Some p |>).
  eapply obeys_bind with (Q := λ l _, recorded c record l).
  - apply obeys_transfer. intros env l l' res Ht Hl (((Hcur & Hp) & _ & Hsz) & Hwp & _) Hrun.
    pose proof Hcur as (_ & Hk & Hs).
    destruct (transfer_save_effect env l (Some e) record l' res Ht Hl) as (Hstep & Hf & Hq); [|by intros q [= <-]|done|].
    { split_and!; [by eapply same_width| |by intros q [= <-]]. cbn. intros y Hy. by apply Hsz. }
    split_and!; [done|intros k Hne; apply Hf; intros ->; apply Hne; exact (same_snapshot _ _ Hs)|].
    intros saved Hsv. destruct (Hq saved Hsv) as (e' & _ & He' & Hcur' & _).
    apply current_recorded in Hcur' as [Hm Hs']. split; [|exact Hs].
    rewrite He' in Hm. by rewrite <- (same_snapshot _ _ Hs).
  - intros saved. cbn beta. by apply (acknowledge_settles record p).
Qed.
Lemma upload_and_publish_obeys e :
  obeys (transfer_of c) (λ l, undecided e l ∧ sized e) (upload_and_publish IsNormalString hex_sha256 c e)
    (λ l _, transfer_settled l).
Proof.
  unfold upload_and_publish. destruct (held_checkpoint (frecord e)) eqn:Hh.
  { eapply obeys_weaken; [apply publish_obeys|by intros l _ [? ?]|done]. }
  then_call; [done|]. intros [present held] _. apply obeys_guard. intros _. apply obeys_finally; [done|].
  apply obeys_guard. intros _. eapply obeys_bind.
  - eapply obeys_weaken; [apply upload_held_obeys|by intros l _ [? _]|by intros l a _ Hq; exact Hq].
  - intros e'. cbn beta. apply publish_obeys.
Qed.

Lemma transfer_obeys :
  obeys (transfer_of c) (λ _, True) (transferFinalization IsNormalString hex_sha256 c) (λ l _, transfer_settled l).
Proof.
  unfold transferFinalization. apply obeys_guard. intros _. apply obeys_then_live.
  eapply obeys_bind; [apply begin_obeys|]. intros e. cbn beta.
  destruct (Transfer.Publication (frecord e)) as [p|] eqn:Hp; cbn [is_some].
  - apply (acknowledge_settles (frecord e) p); [done|]. intros l. apply current_recorded.
  - eapply obeys_bind.
    + eapply obeys_weaken; [apply (inspect_obeys e)|by intros l _ Hi|by intros l a _ Hq; exact Hq].
    + intros e'. cbn beta. apply upload_and_publish_obeys.
Qed.
End Transfer.

(** ** Reclamation *)

Lemma authorize_keeps (I : L → Prop) challenge ack :
  (∀ l, sound l → I l → justified (GetReclamation (FinReceipt.ID (Ack.Receipt ack)) challenge) l) →
  keeps_store I (AuthorizeSkillReclamationChallenge challenge ack) (λ a, Authority.Match a ack = true).
Proof.
  intros Hj scope. apply obeys_guard. intros _. apply obeys_guard. intros _. apply obeys_then_aside. intros started.
  then_call; [exact Hj|]. intros [e retryable] _. apply obeys_guard. unfold reclamation_answer.
  rewrite !andb_true_iff. intros [_ Hm]. cbv zeta. apply obeys_then_aside. intros finished.
  apply obeys_then_stopped. intros ended. apply obeys_guard. intros _. by apply obeys_ret.
Qed.

(** An authorization that matches an acknowledgement is about its capture. *)
Lemma match_about a ack c :
  Authority.Match a ack = true → SameFinalizationInput (Ack.Capture ack) c = true →
  Authority.SnapshotID a = snapshot_of c ∧ Authority.SessionID a = Snapshot.SessionID (Capture.Binding c) ∧
  Authority.TreeDigest a = Capture.TreeDigest c ∧ Authority.Unclean a = Capture.Unclean c.
Proof.
  unfold Authority.Match. destruct (Ack.State ack); [|done]. destruct (Ack.Publication ack); [|done].
  rewrite !andb_true_iff. intros [_ Hm]. unfold Authority.match_input in Hm. cbv zeta in Hm.
  rewrite !andb_true_iff, !String.eqb_eq in Hm. destruct_and? Hm.
  unfold snapshot_of. intros (_ & _ & <- & <- & <-)%same_input_spec. split_and!; [done|done|done|by apply eqb_prop].
Qed.

Lemma reclaim_exchange_obeys scope operation c :
  obeys scope (λ l, decided l c (Capture.State c)) (reclaim_exchange operation c) (λ _ _, True).
Proof.
  unfold reclaim_exchange. then_call; [by intros l _ Hd|]. intros frame _.
  eapply obeys_bind with (Q := λ _ _, True).
  - destruct frame as [challenge [ack|]|r]; [|apply obeys_fail|by apply obeys_ret].
    apply obeys_guard. rewrite !andb_true_iff. intros [[_ Hs] _].
    eapply obeys_bind.
    { apply (authorize_keeps (λ l, decided l c (Capture.State c))). intros l _ Hd. by exists c, (Capture.State c). }
    intros authority. cbn beta. apply obeys_then_live. apply obeys_guard. rewrite andb_true_iff. intros [_ Hm].
    eapply obeys_weaken; [apply (obeys_transfer_call _ (λ l, decided l c (Capture.State c)) (SendAuthorization authority))
                         |by intros l _ [? _]|done].
    intros l _ Hd. exists c, (Capture.State c). split; [done|]. by apply (match_about _ ack).
  - intros f. cbn beta. apply obeys_then_stopped. intros ended. destruct f as [|[r|]]; try apply obeys_fail.
    apply obeys_guard. intros _. by apply obeys_ret.
Qed.

Lemma reclaim_obeys scope c :
  obeys scope (λ _, True) (reclaimTransferredFinalization c) (λ _ _, True).
Proof.
  unfold reclaimTransferredFinalization. eapply obeys_bind with
    (Q := λ l saved, ∀ e, saved = Some e → recorded c (frecord e) l).
  { eapply obeys_weaken; [apply obeys_expect, (obeys_read _ (λ _, True))|done|].
    - intros l a Hl _ Hload. exact (λ e Heq, current_recorded _ _ _ (transfer_load_found l c e Hl (eq_trans Hload (f_equal _ Heq)))).
    - by intros l a _ [Hq _]. }
  intros [e|]; cbn beta; [|apply obeys_fail].
  destruct (Transfer.Receipt (frecord e)) as [x|] eqn:Hx; [|apply obeys_fail].
  destruct (Transfer.Publication (frecord e)) as [p|] eqn:Hp; [|apply obeys_fail].
  replace (Ack.mk 1 _ x (Some p)) with (ack_of (frecord e) x) by (unfold ack_of; by rewrite Hp).
  rewrite (ack_state _ x Hx). destruct (proven_state (frecord e)) as [state|] eqn:Hst; [|apply obeys_fail].
  cbv zeta. set (c' := c <| Capture.State := state |>). apply obeys_guard. intros Hcan.
  eapply obeys_bind with (Q := λ _ _, True); [|intros r; by apply obeys_ret].
  eapply obeys_weaken; [apply obeys_expect with (Q := λ _ _, True)|by intros l _ Hi; exact Hi|done].
  apply obeys_guard. intros _. eapply obeys_bind with (Q := λ _ _, True).
  - eapply obeys_weaken; [apply reclaim_exchange_obeys| |done].
    intros l _ Hrec. destruct (Hrec e eq_refl) as [Hm Hs]. exists (frecord e), p. split_and!.
    + exact Hm.
    + apply (same_input_trans _ c); [done|]. apply same_input_spec. by destruct c.
    + done.
    + exact Hst.
    + unfold Capture.CanDeleteSession in Hcan. rewrite !andb_true_iff in Hcan. apply Hcan.
  - intros r. cbn beta. apply obeys_guard. intros _. by apply obeys_ret.
Qed.

(** ** Recovery *)

(** A computation that makes its calls wherever it starts. *)
Definition free {A} (p : program A) (facts : A → Prop) : Prop :=
  ∀ scope, obeys scope (λ _, True) p (λ _ a, facts a).

Lemma obeys_attempt {A B} scope (p : program A) (facts : A → Prop) (f : result error A → program B) Q :
  obeys scope (λ _, True) p (λ _ a, facts a) →
  (∀ r, (∀ a, r = Ok a → facts a) → obeys scope (λ _, True) (f r) Q) →
  obeys scope (λ _, True) (try p ≫= f) Q.
Proof.
  intros Hp Hf. eapply obeys_bind; [by apply obeys_try|]. intros r. cbn beta.
  apply (obeys_pure _ (∀ a, r = Ok a → facts a)); [done|]. intros Hr.
  eapply obeys_weaken; [by apply Hf|done|done].
Qed.

Lemma forget_free sessionID : free (forget sessionID) (λ _, True).
Proof.
  intros scope. apply obeys_then_aside. intros m. eapply obeys_bind with (Q := λ _ _, True).
  - destruct (m !! sessionID) as [a|]; [|by apply obeys_ret].
    eapply obeys_weaken; [apply obeys_try, (obeys_transfer_call _ (λ _, True) (UnregisterToolSession _ _)); done|done|done].
  - intros r. cbn beta. eapply obeys_weaken; [apply obeys_aside|by intros l _ Hi; exact Hi|done].
Qed.

Lemma forget_ended_free items : free (forget_ended items) (λ _, True).
Proof.
  intros scope. induction items as [|item rest IH]; cbn [forget_ended]; [by apply obeys_ret|].
  eapply obeys_bind with (Q := λ _ _, True).
  - destruct (_ || _); [apply forget_free|by apply obeys_ret].
  - intros u. exact IH.
Qed.

Definition page_width (page : FinalizationPage) : Prop :=
  ∀ items, Inventory.Items page = Some items → Forall item_width items.

Lemma managed_list_free operation nodeID cursor : free (managed_list operation nodeID cursor) page_width.
Proof.
  intros scope. apply obeys_then_live. then_call; [done|]. intros page Hw. apply obeys_guard. intros _.
  eapply obeys_bind; [apply forget_ended_free|]. intros u. by apply obeys_ret.
Qed.

Definition observation_width (o : SkillSessionObservation) : Prop :=
  ∀ c, Observed.Record_ o = Some c → capture_width c.

Lemma admitted_free sessionID : free (admitted sessionID) (λ _, True).
Proof.
  intros scope. apply obeys_then_aside. intros m. destruct (m !! sessionID); [|by apply obeys_ret].
  then_try; [done|]. intros r. by apply obeys_ret.
Qed.

Lemma managed_reconcile_free operation nodeID sessionID :
  free (managed_reconcile operation nodeID sessionID) observation_width.
Proof.
  intros scope. apply obeys_then_live. then_call; [done|]. intros o Hw. apply obeys_guard. intros _.
  eapply obeys_bind with (Q := λ _ o, observation_width o).
  - destruct (String.eqb _ "running"); [|by apply obeys_ret].
    eapply obeys_bind; [apply admitted_free|]. intros [|]; [by apply obeys_ret|]. cbv beta.
    eapply obeys_weaken with (I := λ _, True); [|done|by intros l a _ Hq; exact Hq].
    then_call; [done|]. intros o' Hw'. apply obeys_guard. intros _. by apply obeys_ret.
  - intros o'. cbn beta. eapply obeys_bind with (Q := λ _ _, observation_width o').
    + apply (obeys_pure _ (observation_width o')); [done|]. intros Ho.
      eapply obeys_weaken with (I := λ _, True) (Q := λ _ _, True); [|done|done].
      case_bool_decide; [apply forget_free|by apply obeys_ret].
    + intros u. apply obeys_ret. by intros l _ Ho.
Qed.

Lemma pending_free failure : free (ObserveSkillCapturePending failure) (λ _, True).
Proof.
  intros scope. apply obeys_guard. intros _. then_call; [done|]. intros e _.
  eapply obeys_weaken; [apply obeys_require|by intros l _ Hi; exact Hi|done].
Qed.

Lemma reconcile_item_free nodeID sessionID :
  free (reconcile_item nodeID sessionID) (λ out, ∀ c, out.1 = Some c → capture_width c).
Proof.
  intros scope. eapply obeys_attempt; [apply managed_reconcile_free|]. intros [o|x] Ho; [|by apply obeys_ret].
  destruct (Observed.Validate o _ _); cbn [negb]; [|by apply obeys_ret].
  destruct (Observed.Pending o) as [failure|].
  - eapply obeys_attempt; [apply pending_free|]. intros r _. by apply obeys_ret.
  - apply obeys_ret. intros l _ _. cbn [fst]. by apply Ho.
Qed.

Lemma any_scope {A} sc I (p : program A) Q : obeys sc I p Q → obeys (λ _, True) I p Q.
Proof. by apply obeys_scope. Qed.

Lemma transfer_item_obeys c :
  capture_width c → obeys (λ _, True) (λ _, True) (transfer_item IsNormalString hex_sha256 c) (λ _ _, True).
Proof.
  intros Hc. unfold transfer_item. eapply obeys_attempt with (facts := λ _, True).
  { eapply obeys_weaken; [eapply any_scope, (transfer_obeys c Hc)|done|done]. }
  intros [u|x] _; [|by apply obeys_ret]. eapply obeys_attempt with (facts := λ _, True); [apply reclaim_obeys|].
  intros r _. by apply obeys_ret.
Qed.

Lemma resume_free nodeID sessionID :
  reported sessionID → free (resumeFinalizationReclamation nodeID sessionID) (λ _, True).
Proof.
  intros Hrep scope. eapply obeys_bind with (Q := λ _ _, True); [|intros r; by apply obeys_ret].
  eapply obeys_weaken; [apply obeys_expect with (Q := λ _ _, True)|by intros l _ Hi; exact Hi|done].
  apply obeys_guard. intros _. then_call; [done|]. intros frame _. apply obeys_then_stopped. intros ended.
  destruct frame as [|[r|]]; try apply obeys_fail. apply obeys_guard. intros _. apply obeys_guard. intros _.
  by apply obeys_ret.
Qed.

(** An item that begins a reclamation again is one the helper reports. *)
Definition item_reported (item : Inventory.FinalizationInventoryItem) : Prop :=
  Inventory.Record_ item = None → Inventory.Code item = "reclamation_pending" → reported (Inventory.SessionID item).

Lemma recover_item_obeys nodeID item :
  item_width item → item_reported item →
  obeys (λ _, True) (λ _, True) (recover_item IsNormalString hex_sha256 nodeID item) (λ _ _, True).
Proof.
  intros Hw Hrep. unfold recover_item. destruct (Inventory.Record_ item) as [c|] eqn:Hr.
  { by apply transfer_item_obeys, Hw. }
  cbv zeta. destruct (String.eqb _ "content_reclaimed"); [by apply obeys_ret|].
  destruct (String.eqb_spec (Inventory.Code item) "reclamation_pending") as [Hcode|_].
  { eapply obeys_attempt; [by apply resume_free, Hrep|]. intros r _. by apply obeys_ret. }
  destruct (String.eqb _ "not_finalized"); cbn [negb]; [|by apply obeys_ret].
  eapply obeys_bind; [apply reconcile_item_free|]. intros [[c|] pending]; cbn beta; [|by apply obeys_ret].
  apply (obeys_pure _ (capture_width c)); [by intros l Hq; apply (Hq c)|]. intros Hc.
  eapply obeys_weaken; [by apply transfer_item_obeys|done|done].
Qed.

Lemma recover_items_obeys nodeID items pending :
  Forall item_width items → Forall item_reported items →
  obeys (λ _, True) (λ _, True) (recover_items IsNormalString hex_sha256 nodeID items pending) (λ _ _, True).
Proof.
  intros Hw Hrep. revert pending. induction Hrep as [|item rest Hi _ IH]; intros pending; cbn [recover_items];
    [by apply obeys_ret|]. apply list.Forall_cons in Hw as [Hwi Hw]. specialize (IH Hw).
  apply obeys_then_stopped. intros [x|]; [by apply obeys_ret|].
  eapply obeys_bind; [by apply recover_item_obeys|]. intros p. apply IH.
Qed.

End Reported.

(** What the helper answers to the listing of a recovery that begins at [w]. *)
Definition listing (nodeID cursor : string) (w : W) : result error FinalizationPage :=
  (ask (ListSkillFinalizations "finalization-inventory" nodeID cursor) (done_ctx w).1).2.

(** The sessions the answer reports as being reclaimed. *)
Definition reclaiming (answer : result error FinalizationPage) (sessionID : string) : Prop :=
  ∃ page items item, answer = Ok page ∧ Inventory.Items page = Some items ∧ item ∈ items ∧
    Inventory.Record_ item = None ∧ Inventory.Code item = "reclamation_pending" ∧
    Inventory.SessionID item = sessionID.

Lemma managed_list_answer nodeID cursor (h h' : host call L W) page :
  managed_list "finalization-inventory" nodeID cursor h = (h', Ok page) → listing nodeID cursor (world h) = Ok page.
Proof.
  unfold managed_list, live, listing. unfold mbind at 1, prog_bind at 1. unfold mbind at 1, prog_bind at 1.
  unfold stopped. destruct (done_ctx (world h)) as [w [x|]]; [done|]. cbn.
  unfold mbind at 1, prog_bind at 1. unfold perform. cbn [world store trace].
  destruct (ask _ w) as [w' [p|x]]; [|done]. cbn. unfold mbind at 1, prog_bind at 1.
  unfold require_that. destruct (Inventory.Validate p _ _); [|done].
  unfold mbind, prog_bind. cbn. destruct (forget_ended _ _) as [h1 [u|x]]; [|done]. by intros [= _ <-].
Qed.

Lemma finalization_recovery_obeys nodeID cursor (h : host call L W) :
  obeys_at (Step := transfer_step) (good := sound)
    (justified := justified (reclaiming (listing nodeID cursor (done_ctx (world h)).1)))
    (λ _, True) (λ _, True) (finalizationRecoveryOperation IsNormalString hex_sha256 nodeID cursor) (λ _ _, True) h.
Proof.
  unfold finalizationRecoveryOperation. set (rep := reclaiming _).
  apply obeys_bind_at with (Q := λ _ _, True); [apply obeys_stopped|].
  intros h0 [x|] Hstop; [by apply obeys_ret|].
  assert (Hw : world h0 = (done_ctx (world h)).1).
  { unfold stopped in Hstop. destruct (done_ctx (world h)) as [w o]. by injection Hstop as <- _. }
  apply obeys_bind_at with (Q := λ _ _, True); [|intros h1 [next outcome] _; by apply obeys_ret].
  unfold recoverFinalizationPage.
  apply obeys_bind_at with (Q := λ _ listed, ∀ page, listed = Ok page → page_width page);
    [apply obeys_try, managed_list_free|].
  intros h1 [page|x] Hlist; [|by apply obeys_ret]. cbn beta.
  assert (Hrep : ∀ items, Inventory.Items page = Some items → Forall (item_reported rep) items).
  { unfold try in Hlist. destruct (managed_list _ _ _ h0) as [h2 y] eqn:E. injection Hlist as <- ->.
    apply managed_list_answer in E. rewrite Hw in E. intros items Hi. apply list.Forall_forall.
    intros item Hin Hr Hc. by exists page, items, item. }
  intros h2 r Hl Hpage. revert h2 r Hl Hpage.
  assert (Hob : obeys (Step := transfer_step) (good := sound) (justified := justified rep) (λ _, True) (λ l, page_width page)
    (if negb (Inventory.Validate page cursor nodeID) then mret (cursor, Err finalization_pending) else
      outcome ← recover_items IsNormalString hex_sha256 nodeID (default [] (Inventory.Items page)) (Inventory.InvalidNames page);
      match outcome with
      | Err x => mret (cursor, Err x)
      | Ok pending => mret (Inventory.NextCursor page, if pending : bool then Err finalization_pending else Ok tt)
      end) (λ _ _, True)).
  { destruct (Inventory.Validate page _ _); cbn [negb]; [|by apply obeys_ret].
    apply (obeys_pure _ (page_width page)); [done|]. intros Hpage.
    eapply obeys_bind with (Q := λ _ _, True); [|intros [pending|x]; by apply obeys_ret].
    eapply obeys_weaken; [apply (recover_items_obeys rep)|done|done];
      (destruct (Inventory.Items page) as [items|] eqn:Hi; [|constructor]); [by apply (Hpage items)|by apply Hrep]. }
  intros h2 r Hl Hpage. apply (Hob h1 h2 r Hl). by apply Hpage.
Qed.

(** ** What runs guarantee *)

(** C9: whatever the server, the helper and the clock answer, a transfer and the
    recovery loop only move the journal forward, and make every call where the
    ledger justifies it: a capture is announced, its manifest sent and its files
    uploaded only for a recorded capture; a publication is asked for only when
    the ledger holds the checkpoint of the same finalization; the helper is
    told exactly what the ledger holds; and a session is cleaned up, and the
    reclamation of its content begun and authorized, only for the state that a
    recorded decision on the publication proves.  A reclamation is resumed
    without a look at the ledger, but only for a session of which the helper
    has just reported, in the very listing of this recovery, that its
    reclamation had begun; a transfer resumes none. *)
Theorem transfer_write_ahead h h' reported :
  sound (store h) →
  (∃ c r, capture_width c ∧ transferFinalization IsNormalString hex_sha256 c h = (h', r) ∧ reported = (λ _, False)) ∨
  (∃ nodeID cursor r, finalizationRecoveryOperation IsNormalString hex_sha256 nodeID cursor h = (h', r) ∧
     reported = reclaiming (listing nodeID cursor (done_ctx (world h)).1)) →
  rtc transfer_step (store h) (store h') ∧
  ∃ calls, trace h' = trace h ++ calls ∧ ∀ c l, (c, l) ∈ calls → justified reported c l.
Proof.
  intros Hl Hrun.
  enough (rtc transfer_step (store h) (store h') ∧
          ∃ calls, trace h' = trace h ++ calls ∧ Forall (λ c, justified reported c.1 c.2) calls) as (Hs & calls & Ht & Hj).
  { split; [done|]. exists calls. split; [done|]. intros c l Hin. rewrite list.Forall_forall in Hj. by apply (Hj (c, l)). }
  destruct Hrun as [(c & r & Hw & Hrun & ->)|(nodeID & cursor & r & Hrun & ->)].
  - by destruct (transfer_obeys (λ _, False) c Hw h h' r Hl I Hrun) as (_ & ? & _ & ? & _).
  - by destruct (finalization_recovery_obeys nodeID cursor h h' r Hl I Hrun) as (_ & ? & _ & ? & _).
Qed.

(** C32: a transfer that succeeds leaves a decision on the publication that
    stands, recorded for this very capture, and has touched no other snapshot. *)
Theorem transfer_done_settled c h h' :
  sound (store h) → capture_width c →
  transferFinalization IsNormalString hex_sha256 c h = (h', Ok tt) →
  transfer_settled c (store h') ∧ ∀ id, id ≠ snapshot_of c → content (store h') id = content (store h) id.
Proof.
  intros Hl Hw Hrun. destruct (transfer_obeys (λ _, False) c Hw h h' (Ok tt) Hl I Hrun) as (_ & _ & Hf & _ & Hq).
  split; [by apply (Hq tt)|exact Hf].
Qed.
End Logic.

(** ** A finalization at work *)

Module FinalizationDemo.

Definition digest : string := "e3b0c44298fc1c149afbf4c8996fb92427ae41e4649b934ca495991b7852b855".
Definition sha (_ : list Z) : string := digest.
Definition normal (_ : string) : bool := true.

Definition uuid (c : string) : string :=
  c +:+ c +:+ c +:+ c +:+ c +:+ c +:+ c +:+ c +:+ "-1111-1111-1111-111111111111".

Definition binding : SnapshotBinding :=
  Snapshot.mk (uuid "1") (uuid "2") (uuid "3") (uuid "4") (uuid "5") 2 7 digest (uuid "6") digest Pins.zero.

Definition capture : FinalizationRecord := Capture.mk 1 1 binding digest false "local_durable".

Definition file : Manifest.Entry := Manifest.mkEntry "alpha/SKILL.md" "file" 420 3 digest "" "text" "".

Definition manifest : Manifest.Manifest := Manifest.mkManifest 1 [
  Manifest.mkEntry "alpha" "directory" 493 0 "" "" "" ""; file].

Definition expiry : time := 1700003600 * second.

(** The receipt of the staged upload, and of the retained one. *)
Definition staged : FinalizationReceipt :=
  FinReceipt.mk (uuid "7") (uuid "5") digest false "upload_pending" None (uuid "8") 1 "staged" expiry.
Definition kept : FinalizationReceipt :=
  FinReceipt.mk (uuid "7") (uuid "5") digest false "persisted" (Some (uuid "9")) (uuid "8") 1 "committed" expiry.
Definition published : PublicationReceipt :=
  Publication_.mk (uuid "a") (uuid "7") 1 "published" None (Some (uuid "b")) 0.

(** The transport reads "abc" in two pieces. *)
Definition whole : list upload_read :=
  [mkRead 512 [97; 98] Continues; mkRead 512 [99] Continues; mkRead 512 [] AtEOF].
Definition cut : list upload_read := [mkRead 512 [97; 98] AtEOF].

Definition authorization (challenge : string) : ReclamationAuthorization :=
  Authority.mk 1 challenge (uuid "3") (uuid "1") (uuid "2") (uuid "4") (uuid "5") (uuid "7") (uuid "9") digest false
    (uuid "a") 1 "published" expiry (expiry + 60 * second).

Definition told (c : FinalizationRecord) (state : option string) : FinalizationRecord :=
  c <| Capture.State := default "" state |>.

Definition page : FinalizationPage :=
  Inventory.mkPage (Some [Inventory.mkItem (uuid "4") (Some capture) ""]) "" false.

Definition answer_to (c : call) : result error (reply c) :=
  match c return result error (reply c) with
  | PostTermination _ p | PostCapturePending _ p => Ok (mkEnvelope 1 "stopped" (Some true) 0 p)
  | PostFinalization _ _ => Ok (mkEnvelope 1 "upload_pending" (Some false) 0 staged)
  | GetFinalization _ | PostComplete _ _ => Ok (mkEnvelope 1 "persisted" (Some true) 0 kept)
  | PutFile _ u e => Ok (mkExchange whole (mkEnvelope 1 "upload_pending" (Some false) 0
                                             (mkFileReceipt u (Manifest.SHA256 e) true)))
  | PostPublish _ => Ok (mkEnvelope 1 "published" (Some true) 0 published)
  | GetReclamation _ n => Ok (mkEnvelope 1 "reclaimable" (Some true) 0 (authorization n), Some false)
  | HoldSkillFinalization _ _ => Ok (true, capture)
  | ReadSkillFinalization _ _ => Ok (capture, manifest)
  | OpenSkillFinalizationObjects _ _ => Ok true
  | OpenObject _ => Ok (true, file)
  | AcknowledgeSkillFinalization _ ack => Ok (told (Ack.Capture ack) (Ack.State ack))
  | CleanupFinalizedSkillSession _ c => Ok c
  | ListSkillFinalizations _ _ _ => Ok page
  | ReconcileSkillSession _ _ s | DrainUnadmittedSkillSession _ _ s => Ok (Observed.mk s "not_started" None None)
  | RequestReclamation _ c => Ok (Authorize (uuid "c") (Some (Ack.mk 1 capture kept (Some published))))
  | SendAuthorization _ | ResumeReclamation _ _ _ => Ok (Reclaimed (Some (told capture (Some "published"))))
  | ReleaseHold | CloseObjects | VerifyToolSessionPeer _ _ _ | UnregisterToolSession _ _ => Ok tt
  end.

Definition env : time * publish_io := (1700000000 * second, mkPublish true true true true true true true true true true).

#[local] Instance demo_world : Outside reply error () (time * publish_io) := {
  ask c w := (w, answer_to c);
  clock w := (w, env);
  done_ctx w := (w, None)
}.

#[local] Instance demo_process : Process () := {
  now w := (w, 1700000000 * second);
  granted w := (w, ∅);
  grant _ w := (w, tt)
}.

Lemma demo_capture_width : capture_width capture.
Proof. split; vm_compute; congruence. Qed.

Lemma receipts_width : upload_width staged ∧ upload_width kept ∧ publication_width published.
Proof. unfold upload_width, publication_width, in_four_digit_years. split_and!; vm_compute; congruence. Qed.

#[local] Instance demo_real : RealWorld (L := Ledger) (W := ()) reply_width.
Proof.
  split.
  - intros w. cbn. unfold in_four_digit_years. vm_compute. split; congruence.
  - destruct receipts_width as (H1 & H2 & H3).
    intros c w a. destruct c; try done; intros Ha; apply Ok_inj in Ha; subst a; try done.
    intros items [= <-]. apply Forall_singleton. intros c [= <-]. exact demo_capture_width.
Qed.

Definition start : host call Ledger () := mkHost (mkLedger [] false None) tt [].

Definition transferred : host call Ledger () * result error unit := transferFinalization normal sha capture start.

Lemma no_transfers_sound : sound (store start).
Proof. split; [split; constructor|done]. Qed.

Lemma transfer_succeeds : transferred.2 = Ok tt.
Proof. vm_compute. reflexivity. Qed.

Lemma transfer_outcome : transferred = (transferred.1, Ok tt).
Proof. rewrite (surjective_pairing transferred) at 1. by rewrite transfer_succeeds. Qed.

(** The calls of a run, in order. *)
Definition call_name (c : call) : string :=
  match c with
  | PostTermination _ _ => "stopped" | PostCapturePending _ _ => "pending" | PostFinalization _ _ => "begin"
  | GetFinalization _ => "get" | PutFile _ _ _ => "put" | PostComplete _ _ => "complete" | PostPublish _ => "publish"
  | GetReclamation _ _ => "authority" | HoldSkillFinalization _ _ => "hold" | ReleaseHold => "release"
  | ReadSkillFinalization _ _ => "manifest" | OpenSkillFinalizationObjects _ _ => "objects"
  | OpenObject _ => "object" | CloseObjects => "close" | AcknowledgeSkillFinalization _ _ => "ack"
  | CleanupFinalizedSkillSession _ _ => "cleanup" | ListSkillFinalizations _ _ _ => "list"
  | ReconcileSkillSession _ _ _ => "reconcile" | DrainUnadmittedSkillSession _ _ _ => "drain"
  | RequestReclamation _ _ => "reclaim" | SendAuthorization _ => "send" | ResumeReclamation _ _ _ => "resume"
  | VerifyToolSessionPeer _ _ _ => "verify" | UnregisterToolSession _ _ => "unregister"
  end.

Definition call_names (cs : list (call * Ledger)) : list string := map (λ c, call_name c.1) cs.

Lemma transfer_write_ahead_witness :
  call_names (trace transferred.1) =
    ["stopped"; "hold"; "manifest"; "begin"; "ack"; "objects"; "object"; "put"; "close"; "complete"; "ack"; "publish";
     "ack"; "cleanup"; "release"] ∧
  ∃ calls, trace transferred.1 = trace start ++ calls ∧ ∀ c l, (c, l) ∈ calls → justified normal sha (λ _, False) c l.
Proof.
  split; [vm_compute; reflexivity|].
  destruct (transfer_write_ahead normal sha start transferred.1 (λ _, False) no_transfers_sound) as [_ H]; [|exact H].
  left. exists capture, (Ok tt). split; [exact demo_capture_width|]. split; [exact transfer_outcome|reflexivity].
Defined.

Lemma transfer_done_witness : transfer_settled capture (store transferred.1).
Proof.
  exact (proj1 (transfer_done_settled normal sha capture start transferred.1 no_transfers_sound
                  demo_capture_width transfer_outcome)).
Defined.

(** The recovery loop finds the settled transfer and reclaims its content. *)
Definition recovered : host call Ledger () * result error (string * result error unit) :=
  finalizationRecoveryOperation normal sha (uuid "3") "" transferred.1.

Lemma recovery_reclaims :
  recovered.2 = Ok ("", Ok tt) ∧
  call_names (skipn 15 (trace recovered.1)) = ["list"; "ack"; "cleanup"; "reclaim"; "authority"; "send"].
Proof. split; vm_compute; reflexivity. Qed.

Lemma transferred_sound : sound (store transferred.1).
Proof.
  by destruct (transfer_obeys normal sha (λ _, False) capture demo_capture_width start transferred.1 (Ok tt)
                 no_transfers_sound I transfer_outcome).
Qed.

Lemma transfer_kept_witness :
  ∃ r r', transfer_at (store transferred.1) (uuid "5") = Moving r ∧
          transfer_at (store recovered.1) (uuid "5") = Moving r' ∧ record_kept r r'.
Proof.
  assert (Hs : rtc transfer_step (store transferred.1) (store recovered.1)).
  { destruct recovered as [h r] eqn:E.
    by destruct (finalization_recovery_obeys normal sha (uuid "3") "" transferred.1 h r transferred_sound I E) as (_ & ? & _). }
  destruct (transfer_at (store transferred.1) (uuid "5")) as [|r|] eqn:Hr; [vm_compute in Hr; congruence| |vm_compute in Hr; congruence].
  destruct (transfer_record_kept _ _ (uuid "5") r transferred_sound Hs Hr) as (r' & Hr' & Hk & _).
  exists r, r'. split; [reflexivity|]. split; [exact Hr'|exact Hk].
Defined.

(** A file that ends early is not verified. *)
Lemma upload_exact_witness :
  upload normal sha file cut = Some (false, []) ∧
  is_ok (VerifyContent normal sha file [97; 98; 99]) = true.
Proof.
  split; [vm_compute; reflexivity|].
  refine (proj2 (upload_exact normal sha file whole true [97; 98; 99] _) eq_refl). vm_compute. reflexivity.
Defined.

End FinalizationDemo.
