(* ===== verification/NodeExport.v ===== *)
(** * Permissions to export a snapshot

    The original identity of a snapshot, the server's permission to read it
    and its continuation (src/internal/skillmanager/node_export.go,
    node_export_renewal.go), and the client's checks of the two endpoints
    (src/internal/api/skill_node_export.go, skill_node_export_renewal.go). *)

From S2P Require Import Prelude GoText GoTime GoJson GoUtf8 GoJsonText GoJsonValue GoJsonDecode GoJsonStruct.
From S2P Require Import Manifest ManifestCodec StartResult Ledger DevicePayload Deployment Finalization.
From Stdlib.Strings Require Import Ascii.

Module ExportBinding.
Record NodeExportBinding := mk {
  SnapshotID : string;
  SessionID : string;
  UserID : string;
  AccountID : string;
  NodeID : string;
  TaskID : string;
  LibraryGeneration : Z;
  DirectoryEpoch : Z;
  InitialTreeDigest : string
}.

#[global] Instance eq_dec : EqDecision NodeExportBinding.
Proof. solve_decision. Defined.

Definition fields : list (field NodeExportBinding) := [
  str_field "snapshot_id" SnapshotID (λ x r, r <| SnapshotID := x |>);
  str_field "session_id" SessionID (λ x r, r <| SessionID := x |>);
  str_field "user_id" UserID (λ x r, r <| UserID := x |>);
  str_field "account_id" AccountID (λ x r, r <| AccountID := x |>);
  str_field "node_id" NodeID (λ x r, r <| NodeID := x |>);
  str_field "task_id" TaskID (λ x r, r <| TaskID := x |>);
  int_field "library_generation" LibraryGeneration (λ x r, r <| LibraryGeneration := x |>);
  int_field "directory_epoch" DirectoryEpoch (λ x r, r <| DirectoryEpoch := x |>);
  str_field "initial_tree_digest" InitialTreeDigest (λ x r, r <| InitialTreeDigest := x |>)].

Definition zero : NodeExportBinding := mk "" "" "" "" "" "" 0 0 "".

Definition Validate (b : NodeExportBinding) : bool :=
  forallb validSkillUUID [SnapshotID b; SessionID b; UserID b; AccountID b; NodeID b; TaskID b] &&
  (0 <=? LibraryGeneration b) && (1 <=? DirectoryEpoch b) && contentDigestPattern (InitialTreeDigest b).

(** [UnmarshalJSON] *)
Definition of_json (j : json) : option NodeExportBinding :=
  b ← decodeFinalizationFields fields zero (names fields) [] j;
  if Validate b then Some b else None.

(** [ExportBinding]: the public part of a snapshot's binding. *)
Definition of_snapshot (b : SnapshotBinding) : NodeExportBinding :=
  mk (Snapshot.SnapshotID b) (Snapshot.SessionID b) (Snapshot.UserID b) (Snapshot.AccountID b) (Snapshot.NodeID b)
    (Snapshot.TaskID b) (Snapshot.LibraryGeneration b) (Snapshot.DirectoryEpoch b) (Snapshot.InitialTreeDigest b).
End ExportBinding.
Export ExportBinding(NodeExportBinding).

Module Permission.
Record NodeExportPermission := mk {
  Binding : NodeExportBinding;
  DeviceID : string;
  SSHKeyID : string;
  ExpiresAt : time;
  RecheckSeconds : Z;
  IncomingDigest : option string;
  Unclean : option bool
}.

#[global] Instance eq_dec : EqDecision NodeExportPermission.
Proof. solve_decision. Defined.

Definition fields : list (field NodeExportPermission) := [
  sub_field "binding" Binding (λ x r, r <| Binding := x |>) (encode_struct ExportBinding.fields)
    (λ _ j, ExportBinding.of_json j);
  str_field "device_id" DeviceID (λ x r, r <| DeviceID := x |>);
  str_field "ssh_key_id" SSHKeyID (λ x r, r <| SSHKeyID := x |>);
  time_field "expires_at" ExpiresAt (λ x r, r <| ExpiresAt := x |>);
  int_field "recheck_seconds" RecheckSeconds (λ x r, r <| RecheckSeconds := x |>);
  str_pointer_field "incoming_digest" IncomingDigest (λ x r, r <| IncomingDigest := x |>);
  bool_pointer_field "unclean" Unclean (λ x r, r <| Unclean := x |>)].

Definition zero : NodeExportPermission := mk ExportBinding.zero "" "" zero_time 0 None None.

Definition Validate (p : NodeExportPermission) : bool :=
  ExportBinding.Validate (Binding p) && validSkillUUID (DeviceID p) && validSkillUUID (SSHKeyID p) &&
  negb (ExpiresAt p =? zero_time) && (1 <=? RecheckSeconds p) && (RecheckSeconds p <=? 10) &&
  match IncomingDigest p with
  | Some d => is_some (Unclean p) && contentDigestPattern d
  | None => true
  end.

(** [UnmarshalJSON] *)
Definition of_json (j : json) : option NodeExportPermission :=
  p ← decodeFinalizationFields fields zero ["binding"; "device_id"; "ssh_key_id"; "expires_at"; "recheck_seconds"]
        ["incoming_digest"; "unclean"] j;
  if Validate p then Some p else None.

(** A fact the server may have reported agrees with what was observed. *)
Definition agrees {A} `{EqDecision A} (fact : option A) (seen : A) : bool :=
  match fact with Some x => bool_decide (x = seen) | None => true end.

Definition MatchExport (p : NodeExportPermission) (binding : NodeExportBinding) (digest : string) (unclean : bool)
    : bool :=
  Validate p && bool_decide (binding = Binding p) && contentDigestPattern digest &&
  agrees (IncomingDigest p) digest && agrees (Unclean p) unclean.

Definition MatchCapture (p : NodeExportPermission) (r : FinalizationRecord) : bool :=
  Validate p && Capture.Validate r && (Capture.ObjectsVersion r =? 1) &&
  MatchExport p (ExportBinding.of_snapshot (Capture.Binding r)) (Capture.TreeDigest r) (Capture.Unclean r).
End Permission.
Export Permission(NodeExportPermission).

(** ** Grants *)

(** [^[A-Za-z0-9_=-]+\.[0-9a-f]{64}$] *)
Definition nodeExportGrantPattern (s : string) : bool :=
  match split_on "." s with
  | [credential; tag] =>
      non_empty credential &&
      all_chars (λ c, is_digit c || is_lower c || in_range "A" "Z" c || has_char "_=-" c) credential &&
      match_classes (replicate 64 is_hex) tag
  | _ => false
  end.

Definition ValidNodeExportGrantShape (grant : string) : bool := (len grant <=? 4096) && nodeExportGrantPattern grant.

Module Renewal.
Record NodeExportRenewal := mk {
  PreviousGrantDigest : string;
  Grant : string;
  Permission_ : NodeExportPermission
}.

Definition fields : list (field NodeExportRenewal) := [
  str_field "previous_grant_digest" PreviousGrantDigest (λ x r, r <| PreviousGrantDigest := x |>);
  str_field "grant" Grant (λ x r, r <| Grant := x |>);
  sub_field "permission" Permission_ (λ x r, r <| Permission_ := x |>) (encode_struct Permission.fields)
    (λ _ j, Permission.of_json j)].

Definition zero : NodeExportRenewal := mk "" "" Permission.zero.

(** [UnmarshalJSON] *)
Definition of_json (j : json) : option NodeExportRenewal :=
  r ← decodeFinalizationFields fields zero (names fields) [] j;
  if contentDigestPattern (PreviousGrantDigest r) && ValidNodeExportGrantShape (Grant r) &&
     Permission.Validate (Permission_ r) then Some r else None.

Definition MatchPrevious (hex_sha256 : list Z → string) (r : NodeExportRenewal) (previous : string) : bool :=
  ValidNodeExportGrantShape previous && ValidNodeExportGrantShape (Grant r) && Permission.Validate (Permission_ r) &&
  String.eqb (PreviousGrantDigest r) (hex_sha256 (codes previous)).
End Renewal.
Export Renewal(NodeExportRenewal).

(** ** The endpoints *)

(** Who asks: the node's configuration and the forced command of the SSH key. *)
Record Identity := mkIdentity { NodeID : string; SnapshotID : string; DeviceID : string; SSHKeyID : string }.

Definition matchesIdentity (p : NodeExportPermission) (i : Identity) : bool :=
  String.eqb (ExportBinding.NodeID (Permission.Binding p)) (NodeID i) &&
  String.eqb (ExportBinding.SnapshotID (Permission.Binding p)) (SnapshotID i) &&
  String.eqb (Permission.DeviceID p) (DeviceID i) && String.eqb (Permission.SSHKeyID p) (SSHKeyID i).

(** [newNodeExportRequest] sends nothing for a malformed identity or grant. *)
Definition valid_export_request (i : Identity) (grant : string) : bool :=
  forallb validSkillUUID [NodeID i; SnapshotID i; DeviceID i; SSHKeyID i] && ValidNodeExportGrantShape grant.

(** The strict envelope of both answers. *)
Definition error_members : list (field string) := [mkField "code" id (λ x _, x) (λ s, Some (VStr s))
  (λ current _ j, match j with JStr s => Some s | JNull => Some current | _ => None end)].

Definition error_list (j : json) : option nat :=
  match j with
  | JArr items => if forallb (λ e, is_some (decode_struct error_members "" e)) items then Some (length items) else None
  | _ => None
  end.

Definition envelope_names : list string := ["schema_version"; "status"; "committed"; "data"; "errors"].

(** [decodeNodeExportEnvelope]; [data] decodes the answer itself. *)
Definition decodeNodeExportEnvelope {R} (data : json → option R) (j : json) : option (envelope R) :=
  if no_duplicate_keys j && forallb (has_value j) envelope_names &&
     forallb (λ name,
       bool_decide (name ∈ envelope_names) ||
       (if String.eqb name "operation_id" then negb (has_value j name)
        else if String.eqb name "retryable" then
          match raw_member j name with Some (_, JBool false) => true | _ => false end
        else false)) (keys_of j)
  then
    '(_, version) ← raw_member j "schema_version"; version ← int_of_json 0 version;
    '(_, status) ← raw_member j "status"; status ← match status with JStr s => Some s | _ => None end;
    '(_, committed) ← raw_member j "committed"; committed ← match committed with JBool b => Some b | _ => None end;
    '(_, answer) ← raw_member j "data"; answer ← data answer;
    '(_, errors) ← raw_member j "errors"; count ← error_list errors;
    Some (mkEnvelope version status (Some committed) count answer)
  else None.

Definition authorized_envelope {R} (e : envelope R) : bool :=
  (SchemaVersion e =? 1) && String.eqb (EnvelopeStatus e) "authorized" && bool_decide (Committed e = Some false) &&
  Nat.eqb (error_count e) 0.

(** [VerifyNodeExport]: the checked answer; [None] is a failed request. *)
Definition VerifyNodeExport (i : Identity) (grant : string) (response : option (envelope NodeExportPermission))
    : option NodeExportPermission :=
  if negb (valid_export_request i grant) then None else
  e ← response;
  if authorized_envelope e && Permission.Validate (Data e) && matchesIdentity (Data e) i then Some (Data e) else None.

(** [RenewNodeExport] *)
Definition RenewNodeExport (hex_sha256 : list Z → string) (i : Identity) (grant : string)
    (response : option (envelope NodeExportRenewal)) : option NodeExportRenewal :=
  if negb (valid_export_request i grant) then None else
  e ← response;
  if authorized_envelope e && Renewal.MatchPrevious hex_sha256 (Data e) grant &&
     matchesIdentity (Renewal.Permission_ (Data e)) i then Some (Data e) else None.
