(* ===== verification/ExportStream.v ===== *)
(** * The export stream (src/internal/skillexport/stream.go, recovery.go)

    A snapshot is sent as a magic number, a framed header with the manifest,
    the content of every distinct file in the order of their digests, each
    closed by a marker, and a framed footer.  [WriteSnapshot] writes it from a
    source, [RelaySnapshot] copies it from one connection to another while it
    verifies every byte; both hold the footer back to the very end.

    A computation works on a wire: the bytes still to be read (and whether
    they end in an error instead of EOF), the bytes written, how many more the
    output accepts, and the authorization checks that were granted, each with
    the number of bytes written by then. *)

From S2P Require Import Prelude GoText GoTime GoJson GoUtf8 GoJsonText GoJsonValue GoJsonDecode GoJsonStruct.
From S2P Require Import Manifest ManifestCodec SkillContent StartResult Ledger DevicePayload Deployment Finalization NodeExport.
From Stdlib.Strings Require Import Ascii.

(** ** The wire *)

(** What an authorization is checked against: the facts of a header. *)
Record Observation := mkObservation {
  ObservedBinding : NodeExportBinding;
  ObservedDigest : string;
  ObservedUnclean : bool
}.

#[global] Instance observation_eq_dec : EqDecision Observation.
Proof. solve_decision. Defined.

(** The context and the authorization of the connection. *)
Class ExportWorld (W : Type) := {
  ctx_ended : W → W * bool;
  authorize : Observation → bool → W → W * bool     (* whether a fresh proof is required *)
}.

Record wire (W : Type) := mkWire {
  incoming : list Z;
  torn : bool;
  outgoing : list Z;
  room : option nat;
  granted : list (Observation * bool * nat);
  world : W
}.
Arguments mkWire {W} _ _ _ _ _ _.
Arguments incoming {W} w.
Arguments torn {W} w.
Arguments outgoing {W} w.
Arguments room {W} w.
Arguments granted {W} w.
Arguments world {W} w.

Definition stream (W A : Type) : Type := wire W → wire W * option A.

Section Computations.
Context {W : Type} `{ExportWorld W}.

#[global] Instance stream_ret : MRet (stream W) := λ A a w, (w, Some a).
#[global] Instance stream_bind : MBind (stream W) := λ A B f p w,
  match p w with (w', Some a) => f a w' | (w', None) => (w', None) end.

Definition refuse {A} : stream W A := λ w, (w, None).

Definition of_option {A} (x : option A) : stream W A := λ w, (w, x).

Definition require_stream (b : bool) : stream W unit := if b then mret tt else refuse.

(** [io.ReadFull] and [io.CopyN] from the connection. *)
Definition read_full (n : nat) : stream W (list Z) := λ w,
  let w' := mkWire (drop n (incoming w)) (torn w) (outgoing w) (room w) (granted w) (world w) in
  if (n <=? length (incoming w))%nat then (w', Some (take n (incoming w))) else (w', None).

(** The end of the connection is reached, without an error. *)
Definition at_eof : stream W unit := λ w,
  match incoming w with [] => if torn w then (w, None) else (w, Some tt) | _ => (w, None) end.

(** A write that the output cuts short fails. *)
Definition write (data : list Z) : stream W unit := λ w,
  let put out left := mkWire (incoming w) (torn w) out left (granted w) (world w) in
  match room w with
  | None => (put (outgoing w ++ data) None, Some tt)
  | Some n =>
      if (length data <=? n)%nat then (put (outgoing w ++ data) (Some (n - length data)%nat), Some tt)
      else (put (outgoing w ++ take n data) (Some 0%nat), None)
  end.

(** [ctx.Err()] *)
Definition alive : stream W unit := λ w,
  let '(s, ended) := ctx_ended (world w) in
  (mkWire (incoming w) (torn w) (outgoing w) (room w) (granted w) s, if ended then None else Some tt).

Definition check (o : Observation) (force : bool) : stream W unit := λ w,
  let '(s, ok) := authorize o force (world w) in
  (mkWire (incoming w) (torn w) (outgoing w) (room w)
     (granted w ++ if ok then [(o, force, length (outgoing w))] else []) s,
   if ok then Some tt else None).

(** Another action of the world. *)
Definition act {A} (f : W → W * option A) : stream W A := λ w,
  let '(s, a) := f (world w) in (mkWire (incoming w) (torn w) (outgoing w) (room w) (granted w) s, a).
End Computations.

(** ** Frames *)

Definition be32 (n : Z) : list Z :=
  [n / 2 ^ 24 mod 256; n / 2 ^ 16 mod 256; n / 2 ^ 8 mod 256; n mod 256].

Definition be32_value (bs : list Z) : Z := foldl (λ acc b, acc * 256 + b) 0 bs.

Definition text_of (bs : list Z) : string := foldr (λ b s, String (chr b) s) "" bs.

Definition frame (text : string) : list Z := be32 (len text) ++ codes text.

(** One object with exactly these names, none null and none twice, decoded
    from its text or its tree. *)
Definition exportObject {R} (names : list string) (decode : string → json → option R) (text : string) : option R :=
  j ← parse_json text;
  if rejectReceiptDuplicates j && exact_members "" names j then decode text j else None.

(** A struct without a decoder of its own. *)
Definition plain_struct {R} (fields : list (field R)) (zero : R) (_ : string) (j : json) : option R :=
  decode_struct fields zero j.

Section Frames.
Context {W : Type} `{ExportWorld W}.

(** [writeFrame] of a marshalled value. *)
Definition writeFrame (text : string) (maximum : Z) : stream W unit :=
  _ ← require_stream ((0 <? len text) && (len text <=? maximum));
  _ ← write (be32 (len text));
  write (codes text).

(** [readExportFrame]: a frame with [exportObject]. *)
Definition readExportFrame {R} (decode : string → json → option R) (maximum : Z) (names : list string) : stream W R :=
  size ← read_full 4;
  let n := be32_value size in
  _ ← require_stream (negb (n =? 0) && (n <=? maximum));
  data ← read_full (Z.to_nat n);
  of_option (exportObject names decode (text_of data)).
End Frames.

(** ** Headers *)

Definition maxManifestBytes : Z := 64 * 2 ^ 20.
Definition MaxExpandedBytes : Z := max_int64.
Definition MaxEntries : Z := 100000.
Definition footer_bytes : Z := 4096.

(** [Magic] *)
Definition Magic : list Z := codes "ARSKEX" ++ [0; 1].

Module Header.
Record Header := mk {
  Version : Z;
  Binding : NodeExportBinding;
  TreeDigest : string;
  Unclean : bool;
  Manifest_ : Manifest.Manifest;
  FileObjects : Z
}.

Definition fields : list (field Header) := [
  int_field "version" Version (λ x r, r <| Version := x |>);
  sub_field "binding" Binding (λ x r, r <| Binding := x |>) (encode_struct ExportBinding.fields)
    (λ _ j, ExportBinding.of_json j);
  str_field "tree_digest" TreeDigest (λ x r, r <| TreeDigest := x |>);
  bool_field "unclean" Unclean (λ x r, r <| Unclean := x |>);
  mkField "manifest" Manifest_ (λ x r, r <| Manifest_ := x |>) (λ m, Some (manifest_value m))
    (λ _ raw _, manifest_of_text raw);
  int_field "file_objects" FileObjects (λ x r, r <| FileObjects := x |>)].

Definition zero : Header := mk 0 ExportBinding.zero "" false (mkManifest 0 []) 0.

Definition observed (h : Header) : Observation := mkObservation (Binding h) (TreeDigest h) (Unclean h).

Definition text (h : Header) : string := print_value compact 0 (encode_struct fields h).
End Header.
Export Header(Header).

Module Footer.
Record completion := mk { Version : Z; TreeDigest : string; FileObjects : Z; Complete : bool }.

#[global] Instance eq_dec : EqDecision completion.
Proof. solve_decision. Defined.

Definition fields : list (field completion) := [
  int_field "version" Version (λ x r, r <| Version := x |>);
  str_field "tree_digest" TreeDigest (λ x r, r <| TreeDigest := x |>);
  int_field "file_objects" FileObjects (λ x r, r <| FileObjects := x |>);
  bool_field "complete" Complete (λ x r, r <| Complete := x |>)].

Definition zero : completion := mk 0 "" 0 false.

Definition text (c : completion) : string := print_value compact 0 (encode_struct fields c).
End Footer.
Export Footer(completion).

(** The loop of [exportObjects]. *)
Fixpoint collect_objects (entries : list Manifest.Entry) (total : Z) (objects : gmap string Manifest.Entry)
    : option (gmap string Manifest.Entry) :=
  match entries with
  | [] => Some objects
  | entry :: rest =>
      if negb (String.eqb (Manifest.Kind entry) "file") then collect_objects rest total objects
      else if (MaxExpandedBytes - total <? Manifest.Size entry) || (Manifest.Size entry <? 0) then None
      else if match objects !! Manifest.SHA256 entry with
              | Some prior => negb (Manifest.Size prior =? Manifest.Size entry) ||
                              negb (String.eqb (Manifest.ContentKind prior) (Manifest.ContentKind entry))
              | None => false
              end then None
      else collect_objects rest (total + Manifest.Size entry) (<[Manifest.SHA256 entry := entry]> objects)
  end.

Definition sha_le (a b : Manifest.Entry) : Prop := str_ltb (Manifest.SHA256 b) (Manifest.SHA256 a) = false.

#[global] Instance sha_le_dec : RelDecision sha_le.
Proof. unfold sha_le. intros a b. apply _. Defined.

Definition exportObjects (m : Manifest.Manifest) : option (list Manifest.Entry) :=
  if MaxEntries <? Z.of_nat (length (Manifest.Entries m)) then None else
  objects ← collect_objects (Manifest.Entries m) 0 ∅;
  Some (merge_sort sha_le (map snd (map_to_list objects))).

Section Snapshots.
Context (IsNormalString : string → bool) (hex_sha256 : list Z → string).

Definition digest_of (m : Manifest.Manifest) : option string :=
  match Manifest.Digest IsNormalString hex_sha256 m with Ok d => Some d | Err _ => None end.

Definition validateHeader (h : Header) : option (list Manifest.Entry) :=
  if negb ((Header.Version h =? 1) && ExportBinding.Validate (Header.Binding h)) then None else
  if negb (bool_decide (digest_of (Header.Manifest_ h) = Some (Header.TreeDigest h))) then None else
  objects ← exportObjects (Header.Manifest_ h);
  if Z.of_nat (length objects) =? Header.FileObjects h then Some objects else None.

(** [SnapshotHeader] *)
Definition SnapshotHeader (binding : NodeExportBinding) (m : Manifest.Manifest) (unclean : bool) : option Header :=
  digest ← digest_of m;
  objects ← exportObjects m;
  let h := Header.mk 1 binding digest unclean m (Z.of_nat (length objects)) in
  _ ← validateHeader h;
  Some h.

Definition footer_of (h : Header) (objects : list Manifest.Entry) : completion :=
  Footer.mk 1 (Header.TreeDigest h) (Z.of_nat (length objects)) true.

Context {W : Type} `{ExportWorld W}.

(** [copyExportObject]: [src] is what the source still gives, [ends] whether
    it ends in EOF.  The bytes are written, then verified; how the copy is
    cut makes no difference to the verifier. *)
Definition copyExportObject (entry : Manifest.Entry) (src : list Z) (ends : bool) : stream W unit :=
  _ ← alive;
  verifier ← of_option (match NewContentVerifier IsNormalString entry with Ok v => Some v | Err _ => None end);
  let size := Z.to_nat (Manifest.Size entry) in
  _ ← write (take size src);
  _ ← require_stream ((size <=? length src)%nat);
  _ ← require_stream (Nat.eqb (length (drop size src)) 0 && ends);
  _ ← require_stream (is_ok (Finish hex_sha256 (Write verifier (take size src)).1));
  alive.

(** ** Writing *)

(** The source of a snapshot: opening the content of an entry gives its bytes
    and whether they end in EOF; closing it may fail. *)
Record export_source := mkSource {
  open_entry : Manifest.Entry → W → W * option (list Z * bool);
  close_entry : Manifest.Entry → W → W * option unit;
  verify_source : W → W * option unit
}.

Fixpoint write_objects (source : export_source) (objects : list Manifest.Entry) : stream W unit :=
  match objects with
  | [] => mret tt
  | entry :: rest =>
      '(content, ends) ← act (open_entry source entry);
      copied ← (λ w, let '(w', r) := copyExportObject entry content ends w in (w', Some (is_some r)));
      closed ← (λ w, let '(w', r) := act (close_entry source entry) w in (w', Some (is_some r)));
      _ ← require_stream (copied && closed);
      _ ← write [1];
      write_objects source rest
  end.

Definition WriteSnapshot (h : Header) (source : export_source) : stream W unit :=
  objects ← of_option (validateHeader h);
  _ ← write Magic;
  _ ← writeFrame (Header.text h) maxManifestBytes;
  _ ← write_objects source objects;
  _ ← act (verify_source source);
  _ ← alive;
  writeFrame (Footer.text (footer_of h objects)) footer_bytes.

(** ** Relaying *)

Definition header_names : list string := ["version"; "binding"; "tree_digest"; "unclean"; "manifest"; "file_objects"].
Definition footer_names : list string := ["version"; "tree_digest"; "file_objects"; "complete"].

(** The bytes of one object, as the limited reader of the connection gives
    them. *)
Definition limited (n : nat) : stream W (list Z) := λ w,
  (mkWire (drop n (incoming w)) (torn w) (outgoing w) (room w) (granted w) (world w), Some (take n (incoming w))).

Fixpoint relay_objects (o : Observation) (objects : list Manifest.Entry) : stream W unit :=
  match objects with
  | [] => mret tt
  | entry :: rest =>
      _ ← check o false;
      content ← limited (Z.to_nat (Manifest.Size entry));
      _ ← copyExportObject entry content true;
      marker ← read_full 1;
      _ ← require_stream (bool_decide (marker = [1]));
      _ ← check o false;
      _ ← write [1];
      relay_objects o rest
  end.

Definition RelaySnapshot : stream W unit :=
  magic ← read_full (length Magic);
  _ ← require_stream (bool_decide (magic = Magic));
  h ← readExportFrame (plain_struct Header.fields Header.zero) maxManifestBytes header_names;
  objects ← of_option (validateHeader h);
  let o := Header.observed h in
  _ ← check o true;
  _ ← write Magic;
  _ ← writeFrame (Header.text h) maxManifestBytes;
  _ ← relay_objects o objects;
  footer ← readExportFrame (plain_struct Footer.fields Footer.zero) footer_bytes footer_names;
  _ ← require_stream (bool_decide (footer = footer_of h objects));
  _ ← at_eof;
  _ ← check o true;
  _ ← alive;
  writeFrame (Footer.text footer) footer_bytes.
End Snapshots.
