(* ===== verification/ExportStreamFacts.v ===== *)
(** * The export stream: what reaches the output

    A Hoare logic for computations on a wire that may stop at any write: a
    triple says what holds at the end and, whatever happens, at the point
    where the computation stops.  With it, the relay's output is a prefix of a
    canonical stream whose footer appears only behind verified content and a
    fresh authorization. *)

From S2P Require Import Prelude GoText GoTime GoJson GoUtf8 GoJsonText GoJsonValue GoJsonDecode GoJsonStruct.
From S2P Require Import Manifest ManifestCodec SkillContent StartResult Ledger DevicePayload Deployment Finalization NodeExport.
From S2P Require Import ExportStream.
From Stdlib.Strings Require Import Ascii.

(** ** The canonical stream *)

Definition head (h : Header) : list Z := Magic ++ frame (Header.text h).

Definition body (contents : list (list Z)) : list Z := concat (map (λ c, c ++ [1]) contents).

Definition snapshot_bytes (h : Header) (objects : list Manifest.Entry) (contents : list (list Z)) : list Z :=
  head h ++ body contents ++ frame (Footer.text (footer_of h objects)).

Lemma body_snoc done c : body (done ++ [c]) = body done ++ c ++ [1].
Proof. unfold body. rewrite map_app, concat_app. cbn. by rewrite app_nil_r. Qed.

(** ** Triples *)

Section Triples.
Context {W : Type} `{ExportWorld W}.

Definition triple {A} (P : wire W → Prop) (p : stream W A) (Q : A → wire W → Prop) (E : wire W → Prop) : Prop :=
  ∀ w, P w → match p w with (w', Some a) => Q a w' | (w', None) => E w' end.

Lemma triple_bind {A B} P (p : stream W A) R (f : A → stream W B) Q E :
  triple P p R E → (∀ a, triple (R a) (f a) Q E) → triple P (p ≫= f) Q E.
Proof.
  intros Hp Hf w Hw. specialize (Hp w Hw). unfold mbind, stream_bind.
  destruct (p w) as [w1 [a|]]; [exact (Hf a w1 Hp)|exact Hp].
Qed.

Lemma triple_pre {A} (P P' : wire W → Prop) (p : stream W A) Q E :
  (∀ w, P w → P' w) → triple P' p Q E → triple P p Q E.
Proof. intros Hpre Hp w Hw. by apply Hp, Hpre. Qed.

(** What depends only on the output, its room aside, and on the grants. *)
Definition output_only (P : wire W → Prop) : Prop :=
  ∀ w w', outgoing w' = outgoing w → granted w' = granted w → P w → P w'.

(** The parts that leave the output alone. *)
Lemma triple_keep {A} P (p : stream W A) :
  (∀ w, outgoing (p w).1 = outgoing w ∧ granted (p w).1 = granted w) → output_only P →
  triple P p (λ _, P) P.
Proof.
  intros Hp Hd w Hw. destruct (Hp w) as [Ho Hg]. destruct (p w) as [w' [a|]]; cbn in *; by apply (Hd w).
Qed.

Lemma triple_require P b E : (∀ w, P w → E w) → triple P (require_stream b) (λ _ w, P w ∧ b = true) E.
Proof. intros HE w Hw. destruct b; cbn; auto. Qed.

Lemma triple_option {A} P (x : option A) E : (∀ w, P w → E w) → triple P (of_option x) (λ a w, P w ∧ x = Some a) E.
Proof. intros HE w Hw. destruct x; cbn; auto. Qed.

(** A write that is cut short leaves a prefix. *)
Lemma triple_write out gr data :
  triple (λ w, outgoing w = out ∧ granted w = gr) (write data)
    (λ _ w, outgoing w = out ++ data ∧ granted w = gr)
    (λ w, ∃ k, outgoing w = out ++ take k data ∧ granted w = gr).
Proof.
  intros w [<- <-]. unfold write. destruct (room w) as [n|]; [|done].
  destruct (length data <=? n)%nat; [done|]. by exists n.
Qed.

Lemma triple_check out gr o force :
  triple (λ w, outgoing w = out ∧ granted w = gr) (check o force)
    (λ _ w, outgoing w = out ∧ granted w = gr ++ [(o, force, length out)])
    (λ w, outgoing w = out ∧ granted w = gr).
Proof.
  intros w [<- <-]. unfold check. destruct (authorize _ _ _) as [s []]; cbn; [done|]. by rewrite app_nil_r.
Qed.

Lemma triple_weaken {A} P (p : stream W A) (Q Q' : A → wire W → Prop) (E E' : wire W → Prop) :
  triple P p Q E → (∀ a w, Q a w → Q' a w) → (∀ w, E w → E' w) → triple P p Q' E'.
Proof.
  intros Hp HQ HE w Hw. specialize (Hp w Hw). destruct (p w) as [w' [a|]]; auto.
Qed.
End Triples.

(** ** The relay *)

Section Relay.
Context (IsNormalString : string → bool) (hex_sha256 : list Z → string).
Context {W : Type} `{ExportWorld W}.

#[local] Abbreviation validateHeader := (ExportStream.validateHeader IsNormalString hex_sha256).

Definition verified (e : Manifest.Entry) (content : list Z) : Prop :=
  is_ok (VerifyContent IsNormalString hex_sha256 e content) = true.

(** The output stands at [out], and the grants are [gr]. *)
Definition standing (out : list Z) (gr : list (Observation * bool * nat)) (w : wire W) : Prop :=
  outgoing w = out ∧ granted w = gr.

(** Some contents were sent whole and verified, and perhaps a part of the
    next one; the header was sent on a fresh authorization, and every byte of
    content after a check made at its beginning. *)
Definition sending (h : Header) (objects : list Manifest.Entry) (w : wire W) : Prop :=
  ∃ sent rest contents part,
    objects = sent ++ rest ∧ Forall2 verified sent contents ∧
    outgoing w = head h ++ body contents ++ part ∧
    match rest with
    | [] => part = []
    | e :: _ => (length part ≤ Z.to_nat (Manifest.Size e))%nat ∧
        (part ≠ [] → (Header.observed h, false, length (head h ++ body contents)) ∈ granted w)
    end.

(** Every content was sent and verified, and an authorization proved afresh
    behind the last of them, before the footer began. *)
Definition closing (h : Header) (objects : list Manifest.Entry) (contents : list (list Z)) (w : wire W) : Prop :=
  Forall2 verified objects contents ∧
  (Header.observed h, true, length (head h ++ body contents)) ∈ granted w ∧
  outgoing w `prefix_of` snapshot_bytes h objects contents.

(** What the receiver has seen, wherever a relay stops. *)
Definition gated (w : wire W) : Prop :=
  outgoing w = [] ∨
  ∃ h objects, validateHeader h = Some objects ∧ (Header.observed h, true, 0%nat) ∈ granted w ∧
    (outgoing w `prefix_of` head h ∨ sending h objects w ∨ ∃ contents, closing h objects contents w).

Lemma verify_copy e v src ends size :
  NewContentVerifier IsNormalString e = Ok v →
  (size <=? length src)%nat = true → Nat.eqb (length (drop size src)) 0 && ends = true →
  is_ok (Finish hex_sha256 (Write v (take size src)).1) = true →
  length src = size ∧ verified e src.
Proof.
  intros Hv Hs Hd Hf. rewrite Nat.leb_le in Hs. apply andb_true_iff in Hd as [Hd _].
  rewrite Nat.eqb_eq, length_drop in Hd. assert (length src = size) as <- by lia. split; [done|].
  rewrite firstn_all in Hf. unfold verified. etransitivity; [symmetry|exact Hf].
  apply (finish_consumed IsNormalString hex_sha256 e v _ src Hv), (Write_consumed e v [] src).
  by apply (new_consumed IsNormalString).
Qed.

Lemma triple_alive out gr E : (∀ w, standing out gr w → E w) → triple (standing out gr) alive (λ _, standing out gr) E.
Proof. intros HE w Hw. unfold alive. destruct (ctx_ended _) as [s []]; [by apply HE|done]. Qed.

(** The common part of [copyExportObject] and [sendObject]. *)
Definition copy_content (v : ContentVerifier) (size : nat) (src : list Z) (ends : bool) : stream W unit :=
  _ ← write (take size src);
  _ ← require_stream ((size <=? length src)%nat);
  _ ← require_stream (Nat.eqb (length (drop size src)) 0 && ends);
  _ ← require_stream (is_ok (Finish hex_sha256 (Write v (take size src)).1));
  alive.

Lemma triple_content e v src ends out gr E :
  NewContentVerifier IsNormalString e = Ok v →
  (∀ k w, standing (out ++ take k (take (Z.to_nat (Manifest.Size e)) src)) gr w → E w) →
  triple (standing out gr) (copy_content v (Z.to_nat (Manifest.Size e)) src ends)
    (λ _ w, standing (out ++ src) gr w ∧ length src = Z.to_nat (Manifest.Size e) ∧ verified e src) E.
Proof.
  intros Ev HE. set (size := Z.to_nat (Manifest.Size e)) in *.
  assert (H1 : ∀ w, standing (out ++ take size src) gr w → E w).
  { intros w Hw. apply (HE size). by rewrite take_take, Nat.min_id. }
  unfold copy_content. eapply triple_bind.
  { eapply triple_weaken; [apply triple_write|by intros ? w Hw; exact Hw|]. intros w [k Hk]. by apply (HE k). }
  intros []. eapply triple_bind; [by apply triple_require|]. intros [].
  eapply triple_bind; [by apply triple_require; intros w [Hw _]; apply H1|]. intros [].
  eapply triple_bind; [by apply triple_require; intros w [[Hw _] _]; apply H1|]. intros [].
  intros w [[[Hw Hs] Hd] Hf]. destruct (verify_copy e v src ends size Ev Hs Hd Hf) as [Hl Hver].
  assert (Htake : take size src = src) by (rewrite <- Hl; apply firstn_all).
  rewrite Htake in *. pose proof (triple_alive (out ++ src) gr E H1 w Hw) as Ha.
  destruct (alive w) as [w' [[]|]]; [by split_and!|done].
Qed.

Lemma triple_verifier e out gr E :
  (∀ w, standing out gr w → E w) →
  triple (standing out gr) (of_option (match NewContentVerifier IsNormalString e with Ok v => Some v | Err _ => None end))
    (λ v w, standing out gr w ∧ NewContentVerifier IsNormalString e = Ok v) E.
Proof.
  intros HE w Hw. destruct (NewContentVerifier IsNormalString e) as [v|]; cbn; [by split|by apply HE].
Qed.

Lemma triple_copy e src ends out gr E :
  (∀ k w, standing (out ++ take k (take (Z.to_nat (Manifest.Size e)) src)) gr w → E w) →
  triple (standing out gr) (copyExportObject IsNormalString hex_sha256 e src ends)
    (λ _ w, standing (out ++ src) gr w ∧ length src = Z.to_nat (Manifest.Size e) ∧ verified e src) E.
Proof.
  intros HE. assert (H0 : ∀ w, standing out gr w → E w) by (intros w Hw; apply (HE 0%nat); by rewrite app_nil_r).
  unfold copyExportObject. eapply triple_bind; [by apply triple_alive|]. intros [].
  eapply triple_bind; [by apply triple_verifier|]. intros v w [Hw Ev]. by apply (triple_content e v src ends out gr E).
Qed.

#[local] Abbreviation first_grant h := (Header.observed h, true, 0%nat).

Lemma sending_part h objects sent e rest contents part gr w :
  objects = sent ++ e :: rest → Forall2 verified sent contents →
  (length part ≤ Z.to_nat (Manifest.Size e))%nat →
  (part ≠ [] → (Header.observed h, false, length (head h ++ body contents)) ∈ gr) → first_grant h ∈ gr →
  standing (head h ++ body contents ++ part) gr w → first_grant h ∈ granted w ∧ sending h objects w.
Proof.
  intros Hobj Hv Hl Hg H0 [Ho <-]. split; [done|]. exists sent, (e :: rest), contents, part. by split_and!.
Qed.

Lemma triple_limited out gr n E :
  triple (standing out gr) (limited n) (λ src w, standing out gr w ∧ (length src ≤ n)%nat) E.
Proof. intros w Hw. split; [done|]. rewrite length_take. lia. Qed.

Lemma triple_read out gr n E :
  (∀ w, standing out gr w → E w) → triple (standing out gr) (read_full n) (λ _, standing out gr) E.
Proof. intros HE w Hw. unfold read_full. destruct (n <=? length (incoming w))%nat; [done|by apply HE]. Qed.

Lemma triple_relay_objects h objects rest sent contents gr :
  objects = sent ++ rest → Forall2 verified sent contents → first_grant h ∈ gr →
  triple (standing (head h ++ body contents) gr)
    (relay_objects IsNormalString hex_sha256 (Header.observed h) rest)
    (λ _ w, ∃ contents', Forall2 verified objects contents' ∧ outgoing w = head h ++ body contents' ∧
                         first_grant h ∈ granted w)
    (λ w, first_grant h ∈ granted w ∧ sending h objects w).
Proof.
  revert sent contents gr. induction rest as [|e rest IH]; intros sent contents gr Hobj Hv H0.
  { intros w [Ho Hg]. exists contents. rewrite app_nil_r in Hobj. subst sent. by rewrite Hg. }
  cbn [relay_objects]. set (o := Header.observed h). set (g := (o, false, length (head h ++ body contents))).
  assert (Hpart : ∀ gr' part w, gr ⊆ gr' → (length part ≤ Z.to_nat (Manifest.Size e))%nat →
    (part ≠ [] → g ∈ gr') → standing ((head h ++ body contents) ++ part) gr' w →
    first_grant h ∈ granted w ∧ sending h objects w).
  { intros gr' part w Hsub Hl Hg Hw. apply (sending_part h objects sent e rest contents part gr'); auto.
    by rewrite (assoc_L (++)). }
  assert (Hgr : gr ⊆ gr ++ [g]) by set_solver.
  eapply triple_bind.
  { eapply triple_weaken; [apply triple_check|intros ? w Hw; exact Hw|].
    intros w Hw. apply (Hpart gr []); [done|cbn; lia|done|by rewrite app_nil_r]. }
  intros []. eapply triple_bind; [apply triple_limited|]. intros src w [Hw Hl]. revert w Hw.
  eapply triple_bind.
  { apply triple_copy. intros k w Hw. apply (Hpart (gr ++ [g]) _ w Hgr) in Hw; [done| |set_solver].
    rewrite !length_take. lia. }
  intros [] w [Hw [Hsize Hver]]. revert w Hw.
  assert (Hsrc : ∀ gr' w, gr ++ [g] ⊆ gr' → standing ((head h ++ body contents) ++ src) gr' w →
    first_grant h ∈ granted w ∧ sending h objects w).
  { intros gr' w Hsub Hw. apply (Hpart gr' src); [set_solver|lia|set_solver|done]. }
  eapply triple_bind; [by apply triple_read; intros; apply (Hsrc (gr ++ [g]))|].
  intros marker. eapply triple_bind; [by apply triple_require; intros; apply (Hsrc (gr ++ [g]))|].
  intros [] w [Hw _]. revert w Hw. eapply triple_bind.
  { eapply triple_weaken; [apply triple_check|intros ? w Hw; exact Hw|]. intros w Hw. by apply (Hsrc (gr ++ [g])). }
  intros []. eapply triple_bind.
  { eapply triple_weaken; [apply triple_write|intros ? w Hw; exact Hw|]. intros w [[|k] Hw].
    - rewrite app_nil_r in Hw. revert Hw. apply Hsrc. set_solver.
    - destruct Hw as [Ho Hg]. split; [rewrite Hg; set_solver|].
      exists (sent ++ [e]), rest, (contents ++ [src]), []. cbn [take] in Ho. rewrite take_nil in Ho. split_and!.
      + by rewrite <- (assoc_L (++)).
      + by apply Forall2_app; [|constructor].
      + by rewrite Ho, body_snoc, app_nil_r, <- !(assoc_L (++)).
      + destruct rest; [done|]. split; [cbn; lia|done]. }
  intros []. specialize (IH (sent ++ [e]) (contents ++ [src])).
  eapply triple_pre; [|apply IH].
  - intros w [Ho Hg]. split; [by rewrite Ho, body_snoc, <- !(assoc_L (++))|exact Hg].
  - by rewrite <- (assoc_L (++)).
  - by apply Forall2_app; [|constructor].
  - set_solver.
Qed.

Lemma triple_frame {R} (decode : string → json → option R) maximum names out gr E :
  (∀ w, standing out gr w → E w) →
  triple (standing out gr) (readExportFrame decode maximum names) (λ _, standing out gr) E.
Proof.
  intros HE. unfold readExportFrame. eapply triple_bind; [by apply triple_read|]. intros size.
  eapply triple_bind; [by apply triple_require|]. intros [] w [Hw _]. revert w Hw.
  eapply triple_bind; [by apply triple_read|]. intros data.
  eapply triple_weaken; [by apply triple_option| |done]. by intros ? w [Hw _].
Qed.

(** A frame appears as its bytes, or is cut short. *)
Lemma triple_writeFrame text maximum out gr (E : wire W → Prop) :
  (∀ w part, part `prefix_of` frame text → standing (out ++ part) gr w → E w) →
  triple (standing out gr) (writeFrame text maximum) (λ _, standing (out ++ frame text) gr) E.
Proof.
  intros HE. assert (Hnil : ∀ w, standing out gr w → E w).
  { intros w Hw. apply (HE w []); [apply prefix_nil|by rewrite app_nil_r]. }
  unfold writeFrame. eapply triple_bind; [by apply triple_require|]. intros [] w [Hw _]. revert w Hw.
  eapply triple_bind.
  { eapply triple_weaken; [apply triple_write|intros ? w Hw; exact Hw|]. intros w [k Hw].
    apply (HE w (take k (be32 (len text)))); [|exact Hw].
    unfold frame. apply prefix_app_r, prefix_take. }
  intros []. eapply triple_weaken; [apply triple_write| |].
  - intros ? w Hw. unfold frame, standing. by rewrite (assoc_L (++)).
  - intros w [k Hw]. apply (HE w (be32 (len text) ++ take k (codes text))).
    + unfold frame. apply prefix_app, prefix_take.
    + unfold standing. by rewrite (assoc_L (++)).
Qed.

(** The relay behind the last object. *)
Definition relay_end (h : Header) (objects : list Manifest.Entry) : stream W unit :=
  footer ← readExportFrame (plain_struct Footer.fields Footer.zero) footer_bytes footer_names;
  _ ← require_stream (bool_decide (footer = footer_of h objects));
  _ ← at_eof;
  _ ← check (Header.observed h) true;
  _ ← alive;
  writeFrame (Footer.text footer) footer_bytes.

Lemma triple_relay_end h objects contents gr :
  validateHeader h = Some objects → Forall2 verified objects contents → first_grant h ∈ gr →
  triple (standing (head h ++ body contents) gr) (relay_end h objects)
    (λ _ w, first_grant h ∈ granted w ∧ closing h objects contents w ∧ outgoing w = snapshot_bytes h objects contents)
    gated.
Proof.
  intros Hval Hv H0.
  assert (Hsent : ∀ w, standing (head h ++ body contents) gr w → gated w).
  { intros w [Ho Hg]. right. exists h, objects. split_and!; [done|by rewrite Hg|]. right; left.
    exists objects, [], contents, []. by rewrite !app_nil_r. }
  unfold relay_end. eapply triple_bind; [by apply triple_frame|]. intros footer.
  eapply triple_bind; [by apply triple_require|]. intros [] w [Hw Heq%bool_decide_eq_true]. revert w Hw. subst footer.
  eapply triple_bind.
  { intros w Hw. unfold at_eof. instantiate (1 := λ _, standing (head h ++ body contents) gr).
    destruct (incoming w); [destruct (torn w)|]; (exact Hw || by apply Hsent). }
  intros []. eapply triple_bind; [eapply triple_weaken; [apply triple_check|intros ? w Hw; exact Hw|exact Hsent]|].
  set (gr' := gr ++ _).
  assert (Hclose : ∀ w part, part `prefix_of` frame (Footer.text (footer_of h objects)) →
    standing ((head h ++ body contents) ++ part) gr' w → first_grant h ∈ granted w ∧ closing h objects contents w).
  { intros w part Hp [Ho Hg]. rewrite Hg. split; [set_solver|]. split_and!; [done|rewrite Hg; set_solver|].
    rewrite Ho. unfold snapshot_bytes. rewrite <- (assoc_L (++)). by do 2 apply prefix_app. }
  assert (Hgate : ∀ w part, part `prefix_of` frame (Footer.text (footer_of h objects)) →
    standing ((head h ++ body contents) ++ part) gr' w → gated w).
  { intros w part Hp Hw. destruct (Hclose w part Hp Hw) as [Hg Hc]. right. exists h, objects. split_and!; eauto. }
  intros []. eapply triple_bind.
  { apply triple_alive. intros w Hw. apply (Hgate w []); [apply prefix_nil|by rewrite app_nil_r]. }
  intros []. eapply triple_weaken; [by apply triple_writeFrame|intros [] w Hw|done].
  destruct (Hclose w _ (reflexivity _) Hw) as [Hg Hc]. split_and!; [done|done|].
  destruct Hw as [-> _]. unfold snapshot_bytes. by rewrite <- (assoc_L (++)).
Qed.

Lemma triple_relay gr :
  triple (standing [] gr) (RelaySnapshot IsNormalString hex_sha256)
    (λ _ w', ∃ h objects contents, validateHeader h = Some objects ∧ first_grant h ∈ granted w' ∧
       closing h objects contents w' ∧ outgoing w' = snapshot_bytes h objects contents) gated.
Proof.
  assert (Hnil : ∀ gr' w, standing [] gr' w → gated w) by (intros gr' w1 [Ho _]; by left).
  unfold RelaySnapshot. eapply triple_bind; [by apply triple_read; intros; eapply Hnil|]. intros magic.
  eapply triple_bind; [by apply triple_require; intros; eapply Hnil|]. intros [] w1 [Hw _]. revert w1 Hw.
  eapply triple_bind; [by apply triple_frame; intros; eapply Hnil|]. intros h.
  eapply triple_bind; [by apply triple_option; intros; eapply Hnil|]. intros objects w1 [Hw Hval]. revert w1 Hw.
  eapply triple_bind.
  { eapply triple_weaken; [apply triple_check|intros ? w1 Hw; exact Hw|]. intros w1 Hw. by eapply Hnil. }
  set (gr1 := gr ++ [first_grant h]). assert (H0 : first_grant h ∈ gr1) by set_solver.
  assert (Hhead : ∀ w part, part `prefix_of` head h → standing part gr1 w → gated w).
  { intros w1 part Hp [Ho Hg]. right. exists h, objects. split_and!; [done|by rewrite Hg|left; by rewrite Ho]. }
  assert (Hsend : ∀ w, first_grant h ∈ granted w ∧ sending h objects w → gated w).
  { intros w1 [Hg Hs]. right. exists h, objects. auto. }
  intros []. eapply triple_bind.
  { eapply triple_weaken; [apply triple_write|intros ? w1 Hw; exact Hw|]. intros w1 [k Hw].
    apply (Hhead w1 (take k Magic)); [|exact Hw]. unfold head. apply prefix_app_r, prefix_take. }
  intros []. eapply triple_bind.
  { apply triple_writeFrame. intros w1 part Hp Hw. apply (Hhead w1 (Magic ++ part)); [|exact Hw].
    unfold head. by apply prefix_app. }
  intros []. eapply triple_bind.
  { eapply triple_pre; [|eapply triple_weaken; [by apply (triple_relay_objects h objects objects [] [] gr1)| |exact Hsend]].
    - intros w1 [Ho Hg]. split; [by rewrite Ho, app_nil_r|exact Hg].
    - intros ? w1 Hw. exact Hw. }
  intros [] w1 (contents & Hv & Ho & Hg).
  apply (triple_weaken _ _ _ _ _ _ (triple_relay_end h objects contents _ Hval Hv Hg)); [|done|by split].
  intros ? w2 Hend. exists h, objects, contents. tauto.
Qed.

Lemma relay_ends_gated w : outgoing w = [] → gated (RelaySnapshot IsNormalString hex_sha256 w).1.
Proof.
  intros Hempty. specialize (triple_relay (granted w) w (conj Hempty eq_refl)) as Ht.
  destruct (RelaySnapshot _ _ w) as [w' [u|]]; [|exact Ht]. destruct Ht as (h & objects & contents & Hv & H0 & Hc & Ho).
  right. exists h, objects. split_and!; eauto.
Qed.

(** C13: the relay of an exported snapshot never shows more than it has
    verified, for every input, every authorization server and every output
    that stops accepting bytes: what the receiver has is empty, or a part of
    the magic number and the header after an authorization proved afresh for
    exactly the facts of that valid header, or whole verified contents in the
    order of the objects with at most one more begun under a check made at its
    beginning, or a prefix of the complete stream with every content verified
    and a fresh authorization proved behind the last content and before the
    first byte of the footer.  A relay that succeeds has written exactly the
    complete stream. *)
Theorem relay_gated w :
  outgoing w = [] →
  let '(w', r) := RelaySnapshot IsNormalString hex_sha256 w in
  gated w' ∧
  (r = Some tt → ∃ h objects contents, validateHeader h = Some objects ∧ closing h objects contents w' ∧
                                       outgoing w' = snapshot_bytes h objects contents).
Proof.
  intros Hempty. specialize (triple_relay (granted w) w (conj Hempty eq_refl)) as Ht.
  destruct (RelaySnapshot _ _ w) as [w' [[]|]]; [|by split].
  destruct Ht as (h & objects & contents & Hv & H0 & Hc & Ho). split; [|by exists h, objects, contents].
  right. exists h, objects. split_and!; eauto.
Qed.
End Relay.
