(* ===== verification/ExportRoundTrip.v ===== *)
(** * The export stream: what is written is relayed

    Frames are read back, headers and footers decode to themselves, and a
    snapshot written from a faithful source passes the relay byte for byte. *)

From S2P Require Import Prelude GoText GoTime GoJson GoUtf8 GoJsonText GoJsonValue GoJsonDecode GoJsonStruct GoJsonPrint.
From S2P Require Import Manifest ManifestFacts ManifestCodec SkillContent StartResult Ledger DevicePayload.
From S2P Require Import Deployment DeploymentCodec Finalization FinalizationCodec NodeExport ExportStream ExportStreamFacts.
From Stdlib.Strings Require Import Ascii.

(** ** Frames *)

Lemma chr_code c : chr (code c) = c.
Proof. unfold chr, code. by rewrite N2Z.id, ascii_N_embedding. Qed.

Lemma text_of_codes s : text_of (codes s) = s.
Proof. unfold text_of. induction s as [|c s IH]; [done|]. cbn [codes foldr]. by rewrite chr_code, IH. Qed.

Lemma be32_round n : 0 ≤ n < 2 ^ 32 → be32_value (be32 n) = n.
Proof.
  intros Hn. unfold be32_value, be32. cbn [foldl]. change (2 ^ 24) with 16777216. change (2 ^ 16) with 65536.
  change (2 ^ 8) with 256. change (2 ^ 32) with 4294967296 in Hn. Z.to_euclidean_division_equations. lia.
Qed.

Lemma frame_app text rest : frame text ++ rest = be32 (len text) ++ codes text ++ rest.
Proof. unfold frame. by rewrite <- (assoc_L (++)). Qed.

(** A struct whose object is whole is read back from its frame. *)
Lemma object_read {R} (fields : list (field R)) names (decode : string → json → option R) r :
  carried (encode_struct fields r) (λ _, decode) r → whole fields names r →
  (height (encode_struct fields r) ≤ max_depth)%nat →
  exportObject names decode (print_value compact 0 (encode_struct fields r)) = Some r.
Proof.
  intros (Hf & Hd & Hdec) Hw Hh. unfold exportObject. rewrite parse_printed by done || exact compact_white.
  cbn [mbind option_bind]. destruct (strict_exact fields names r compact 0 _ Hd Hw (same_refl _)) as (_ & -> & ->).
  by apply (Hdec _ r compact 0%nat compact_white (same_refl _)).
Qed.

(** ** Headers and footers *)

(** The integers of a binding are int64. *)
Definition export_binding_width (b : NodeExportBinding) : Prop :=
  ExportBinding.LibraryGeneration b ≤ max_int64 ∧ ExportBinding.DirectoryEpoch b ≤ max_int64.

Lemma export_binding_carried b :
  ExportBinding.Validate b = true → export_binding_width b →
  carried (encode_struct ExportBinding.fields b) (λ _ _, ExportBinding.of_json) b.
Proof.
  intros Hv [Wl We]. pose proof Hv as Hv'. unfold ExportBinding.Validate in Hv'. cbn [forallb] in Hv'.
  rewrite !andb_true_iff, !Z.leb_le in Hv'.
  destruct Hv' as [[[(H1 & H2 & H3 & H4 & H5 & H6 & _) Hl] He] Hd].
  apply skill_uuid_text in H1, H2, H3, H4, H5, H6. apply digest_text in Hd.
  assert (Hc : carried (encode_struct ExportBinding.fields b)
    (λ _ _, decodeFinalizationFields ExportBinding.fields ExportBinding.zero (names ExportBinding.fields) []) b).
  { apply strict_fields_carried.
    - apply struct_carried; [solve_disjoint| |by destruct b].
      do 6 (apply Forall_cons_2; [by apply carries_str|]).
      do 2 (apply Forall_cons_2; [apply carries_int; [done|lia]|]).
      apply Forall_cons_2; [by apply carries_str|]. constructor.
    - rewrite encode_keys. vm_compute. solve_Permutation.
    - by apply never_null. }
  destruct Hc as (Hf & Hdist & Hdec). split_and!; [done|done|]. intros v current st d Hst Hs.
  unfold ExportBinding.of_json. rewrite (Hdec v current st d Hst Hs). cbn [mbind option_bind]. by rewrite Hv.
Qed.

Lemma entries_max_small : MaxEntries ≤ max_int64.
Proof. vm_compute. congruence. Qed.

Section Headers.
Context (IsNormalString : string → bool) (hex_sha256 : list Z → string).
Hypothesis Hhex : ∀ bs, contentDigestPattern (hex_sha256 bs) = true.

#[local] Abbreviation validateHeader := (ExportStream.validateHeader IsNormalString hex_sha256).

Lemma digest_of_valid m d :
  digest_of IsNormalString hex_sha256 m = Some d → Validate IsNormalString m = Ok tt ∧ contentDigestPattern d = true.
Proof.
  unfold digest_of, Manifest.Digest. destruct (Manifest.Validate IsNormalString m) as [[]|]; [|done].
  cbn. intros [= <-]. split; [done|apply Hhex].
Qed.

Lemma validateHeader_inv h objects :
  validateHeader h = Some objects →
  Header.Version h = 1 ∧ ExportBinding.Validate (Header.Binding h) = true ∧
  digest_of IsNormalString hex_sha256 (Header.Manifest_ h) = Some (Header.TreeDigest h) ∧
  exportObjects (Header.Manifest_ h) = Some objects ∧ Header.FileObjects h = Z.of_nat (length objects).
Proof.
  unfold ExportStream.validateHeader. intros Hv.
  destruct (Header.Version h =? 1) eqn:E1; [|done]. destruct (ExportBinding.Validate _) eqn:E2; [|done].
  cbn [andb negb] in Hv. case_bool_decide as E3; [|done]. cbn [negb] in Hv.
  destruct (exportObjects _) as [l|]; [|done]. cbn in Hv. destruct (_ =? _) eqn:E4 in Hv; [|done].
  injection Hv as <-. rewrite Z.eqb_eq in E1, E4. by split_and!.
Qed.

Lemma collect_bound entries total objects objects' :
  collect_objects entries total objects = Some objects' → (size objects' ≤ length entries + size objects)%nat.
Proof.
  revert total objects. induction entries as [|e l IH]; intros total objects; cbn [collect_objects].
  { intros [= <-]. cbn. lia. }
  destruct (negb (String.eqb _ _)); [intros Hc%IH; cbn [length]; lia|].
  destruct ((_ <? _) || _); [done|]. destruct (match _ !! _ with Some _ => _ | None => _ end); [done|].
  intros Hc%IH. cbn [length]. rewrite map_size_insert in Hc. destruct (objects !! _); cbn in Hc; lia.
Qed.

Lemma exportObjects_few m objects : exportObjects m = Some objects → Z.of_nat (length objects) ≤ MaxEntries.
Proof.
  unfold exportObjects. destruct (MaxEntries <? _) eqn:El; [done|]. apply Z.ltb_ge in El.
  destruct (collect_objects _ _ _) as [g|] eqn:E; [|done]. cbn. intros [= <-].
  apply collect_bound in E. rewrite map_size_empty in E.
  rewrite (Permutation_length (merge_sort_Permutation sha_le _)), length_map, length_map_to_list. lia.
Qed.

(** A valid header is read back from its text, through the frame's strict
    decoder. *)
Lemma header_read h objects :
  validateHeader h = Some objects → export_binding_width (Header.Binding h) → unsigned_modes (Header.Manifest_ h) →
  exportObject header_names (plain_struct Header.fields Header.zero) (Header.text h) = Some h.
Proof.
  intros (Hver & Hb & [Hm Hd%DeploymentCodec.digest_text]%digest_of_valid & Hobj & Hn)%validateHeader_inv Hw Hu.
  pose proof (exportObjects_few _ _ Hobj). pose proof entries_max_small.
  assert (Hc : carried (encode_struct Header.fields h) (λ _ _, decode_struct Header.fields Header.zero) h).
  { apply struct_carried; [solve_disjoint| |by destruct h].
    apply Forall_cons_2; [apply carries_int; [done|unfold max_int64; lia]|].
    apply Forall_cons_2; [apply carries_sub; [done|]|].
    { destruct (export_binding_carried _ Hb Hw) as (Hf & Hdis & Hdec). split_and!; [done|done|].
      intros v current st d Hst Hs. by apply (Hdec v current). }
    apply Forall_cons_2; [by apply carries_str|]. apply Forall_cons_2; [by apply carries_bool|].
    apply Forall_cons_2.
    { split; [done|]. intros v [= <-].
      destruct (manifest_carried (Header.Manifest_ h) (valid_manifest_text _ _ Hm Hu)) as (Hf & Hdis & Hdec).
      split_and!; [done|done|]. intros v' current st d Hst Hs. by apply (Hdec v' current). }
    apply Forall_cons_2; [apply carries_int; [done|lia]|]. constructor. }
  assert (Hwhole : whole Header.fields header_names h) by (split; [by destruct h|]; not_null).
  apply object_read; [done|done|]. transitivity 4%nat; [|unfold max_depth; lia].
  apply struct_height. repeat (apply Forall_cons_2; [intros v [= <-]|]); try (cbn; lia); [|constructor].
  apply manifest_height.
Qed.

Lemma footer_read h objects :
  validateHeader h = Some objects →
  exportObject footer_names (plain_struct Footer.fields Footer.zero) (Footer.text (footer_of h objects)) =
    Some (footer_of h objects).
Proof.
  intros (Hver & _ & [_ Hd%DeploymentCodec.digest_text]%digest_of_valid & Hobj & Hn)%validateHeader_inv.
  pose proof (exportObjects_few _ _ Hobj). pose proof entries_max_small. set (c := footer_of h objects).
  assert (Hc : carried (encode_struct Footer.fields c) (λ _ _, decode_struct Footer.fields Footer.zero) c).
  { apply struct_carried; [solve_disjoint| |done].
    apply Forall_cons_2; [apply carries_int; [done|cbn; unfold max_int64; lia]|].
    apply Forall_cons_2; [by apply carries_str|]. apply Forall_cons_2; [apply carries_int; [done|cbn; lia]|].
    apply Forall_cons_2; [by apply carries_bool|]. constructor. }
  assert (Hwhole : whole Footer.fields footer_names c) by (split; [done|]; not_null).
  apply object_read; [done|done|]. transitivity 2%nat; [|unfold max_depth; lia].
  apply struct_height. solve_heights.
Qed.
Lemma text_nonempty {R} (fields : list (field R)) r : 0 < len (print_value compact 0 (encode_struct fields r)).
Proof.
  unfold encode_struct. cbn [print_value]. unfold print_list. destruct (map _ _); rewrite len_app; change (len "{") with 1.
  - pose proof (len_nonneg "}"). lia.
  - pose proof (len_nonneg (newline compact 1 +:+ join ("," +:+ newline compact 1) (s :: l) +:+ newline compact 0 +:+ "}")).
    lia.
Qed.

(** A footer fits in its frame. *)
Lemma footer_fits h objects : validateHeader h = Some objects → 0 < len (Footer.text (footer_of h objects)) ≤ footer_bytes.
Proof.
  intros (_ & _ & [_ Hd]%digest_of_valid & _)%validateHeader_inv. split; [apply text_nonempty|].
  unfold contentDigestPattern, hex64 in Hd. apply match_classes_length in Hd. rewrite length_replicate in Hd.
  pose proof (quote_len (Header.TreeDigest h)) as Hq. unfold len at 2 in Hq. rewrite Hd in Hq.
  pose proof (itoa_len (Z.of_nat (length objects))) as Hn. unfold Footer.text, footer_of.
  unfold encode_struct, Footer.fields, encode_field, str_field, int_field, bool_field.
  cbn [flat_map app fenc fget fname
       Footer.Version Footer.TreeDigest Footer.FileObjects Footer.Complete].
  cbn [print_value map fst snd]. unfold print_list. cbn [join newline space compact]. unfold footer_bytes.
  revert Hq Hn. generalize (quote (Header.TreeDigest h)) (itoa (Z.of_nat (length objects))). intros q n Hq Hn.
  rewrite !len_app.
  repeat match goal with |- context [len ?s] =>
    let v := eval vm_compute in (len s) in
    lazymatch v with Z0 => change (len s) with v | Zpos _ => change (len s) with v end end.
  lia.
Qed.
End Headers.

(** ** Runs that meet no obstacle *)

Section Runs.
Context (IsNormalString : string → bool) (hex_sha256 : list Z → string).
Context {W : Type} `{ExportWorld W}.

#[local] Abbreviation validateHeader := (ExportStream.validateHeader IsNormalString hex_sha256).
#[local] Abbreviation verified := (ExportStreamFacts.verified IsNormalString hex_sha256).

(** From the input [i] and output [o], with a connection that is whole and an
    output that takes everything, the computation answers [a]. *)
Definition goes {A} (p : stream W A) (i i' o o' : list Z) (a : A) : Prop :=
  ∀ gr s, ∃ gr' s', p (mkWire i false o None gr s) = (mkWire i' false o' None gr' s', Some a).

Lemma goes_ret {A} (a : A) i o : goes (mret a) i i o o a.
Proof. intros gr s. by exists gr, s. Qed.

Lemma goes_bind {A B} (p : stream W A) (f : A → stream W B) i i1 i2 o o1 o2 a b :
  goes p i i1 o o1 a → goes (f a) i1 i2 o1 o2 b → goes (p ≫= f) i i2 o o2 b.
Proof.
  intros Hp Hf gr s. destruct (Hp gr s) as (gr1 & s1 & E1). destruct (Hf gr1 s1) as (gr2 & s2 & E2).
  exists gr2, s2. unfold mbind, stream_bind. by rewrite E1.
Qed.

Lemma goes_require b i o : b = true → goes (require_stream b) i i o o tt.
Proof. intros -> gr s. by exists gr, s. Qed.

Lemma goes_option {A} (x : option A) a i o : x = Some a → goes (of_option x) i i o o a.
Proof. intros -> gr s. by exists gr, s. Qed.

Lemma goes_write data i o : goes (write data) i i o (o ++ data) tt.
Proof. intros gr s. by exists gr, s. Qed.

Lemma goes_read data i o n : length data = n → goes (read_full n) (data ++ i) i o o data.
Proof.
  intros <- gr s. exists gr, s. unfold read_full. cbn [incoming].
  rewrite length_app, (proj2 (Nat.leb_le _ _)) by lia. by rewrite take_app_length, drop_app_length.
Qed.

Lemma goes_limited data i o n : length data = n → goes (limited n) (data ++ i) i o o data.
Proof.
  intros <- gr s. exists gr, s. unfold limited. cbn [incoming]. by rewrite take_app_length, drop_app_length.
Qed.

Lemma goes_eof o : goes at_eof [] [] o o tt.
Proof. intros gr s. by exists gr, s. Qed.

Lemma goes_writeFrame text maximum i o :
  0 < len text ≤ maximum → goes (writeFrame text maximum) i i o (o ++ frame text) tt.
Proof.
  intros Hl. unfold writeFrame, frame. eapply goes_bind; [apply goes_require|].
  { apply andb_true_iff. by rewrite Z.ltb_lt, Z.leb_le. }
  rewrite (assoc_L (++)). eapply goes_bind; apply goes_write.
Qed.

Lemma goes_readFrame {R} (decode : string → json → option R) maximum names text r i o :
  0 < len text ≤ maximum → maximum < 2 ^ 32 →
  exportObject names decode text = Some r →
  goes (readExportFrame decode maximum names) (frame text ++ i) i o o r.
Proof.
  intros Hl Hm Hr. rewrite frame_app. unfold readExportFrame. eapply goes_bind; [by apply goes_read|].
  cbn beta zeta. rewrite be32_round by lia. eapply goes_bind; [apply goes_require|].
  { apply andb_true_iff. rewrite negb_true_iff, Z.eqb_neq, Z.leb_le. lia. }
  eapply goes_bind; [apply goes_read|apply goes_option; by rewrite text_of_codes].
  unfold len. by rewrite codes_length, Nat2Z.id.
Qed.

(** No context ends, and the authorization of [o] is never refused. *)
Class Calm (o : Observation) : Prop := {
  calm_ctx s : (ctx_ended s).2 = false;
  calm_authorize force s : (authorize o force s).2 = true
}.
Context (ob : Observation) `{!Calm ob}.

Lemma goes_alive i o : goes alive i i o o tt.
Proof.
  intros gr s. unfold alive. cbn [world]. pose proof (calm_ctx s) as Hs. destruct (ctx_ended s) as [s' b].
  cbn in Hs. subst b. by exists gr, s'.
Qed.

Lemma goes_check force i o : goes (check ob force) i i o o tt.
Proof.
  intros gr s. unfold check. cbn [world]. pose proof (calm_authorize force s) as Hs.
  destruct (authorize ob force s) as [s' b]. cbn in Hs. subst b. by eexists _, s'.
Qed.

Lemma verified_verifier e c :
  verified e c →
  length c = Z.to_nat (Manifest.Size e) ∧
  ∃ v, NewContentVerifier IsNormalString e = Ok v ∧ is_ok (Finish hex_sha256 (Write v c).1) = true.
Proof.
  unfold ExportStreamFacts.verified. intros Hv. split.
  - unfold VerifyContent in Hv. destruct (validateEntry _ _); [|done]. cbn [mbind result_bind] in Hv.
    destruct (String.eqb _ "file" && (_ =? _)) eqn:E; [|done].
    apply andb_true_iff in E as [_ ->%Z.eqb_eq]. by rewrite Nat2Z.id.
  - destruct (NewContentVerifier IsNormalString e) as [v|] eqn:Ev.
    + exists v. split; [done|]. rewrite <- Hv.
      apply (finish_consumed IsNormalString hex_sha256 e v _ c Ev), (Write_consumed e v [] c).
      by apply (new_consumed IsNormalString).
    + unfold VerifyContent in Hv. unfold NewContentVerifier in Ev.
      destruct (validateEntry _ _); [|done]. cbn [mbind result_bind] in *. by destruct (String.eqb _ "file").
Qed.

Lemma goes_copy e c i o : verified e c → goes (copyExportObject IsNormalString hex_sha256 e c true) i i o (o ++ c) tt.
Proof.
  intros (Hl & v & Hv & Hf)%verified_verifier. unfold copyExportObject. rewrite <- Hl, firstn_all, drop_all.
  eapply goes_bind; [apply goes_alive|]. eapply goes_bind; [apply (goes_option _ v); by rewrite Hv|].
  cbn zeta. eapply goes_bind; [apply goes_write|]. eapply goes_bind; [apply goes_require, Nat.leb_refl|].
  eapply goes_bind; [by apply goes_require|]. eapply goes_bind; [by apply goes_require|]. apply goes_alive.
Qed.

Lemma goes_relay_objects objects contents i o :
  Forall2 verified objects contents →
  goes (relay_objects IsNormalString hex_sha256 ob objects) (body contents ++ i) i o (o ++ body contents) tt.
Proof.
  intros Hv. revert o. induction Hv as [|e c objects contents Hv _ IH]; intros o; cbn [relay_objects].
  { rewrite app_nil_r. apply goes_ret. }
  change (body (c :: contents)) with ((c ++ [1]) ++ body contents). rewrite <- !(assoc_L (++)).
  pose proof (verified_verifier e c Hv) as [Hl _].
  eapply goes_bind; [apply goes_check|]. eapply goes_bind; [by apply goes_limited|].
  eapply goes_bind; [by apply goes_copy|]. eapply goes_bind; [by apply (goes_read [1])|].
  eapply goes_bind; [by apply goes_require|]. eapply goes_bind; [apply goes_check|].
  eapply goes_bind; [apply goes_write|]. rewrite !(assoc_L (++)). apply IH.
Qed.
End Runs.

(** ** Writer and relay together *)

Section Snapshot.
Context (IsNormalString : string → bool) (hex_sha256 : list Z → string).
Context {W : Type} `{ExportWorld W}.

#[local] Abbreviation validateHeader := (ExportStream.validateHeader IsNormalString hex_sha256).
#[local] Abbreviation verified := (ExportStreamFacts.verified IsNormalString hex_sha256).

(** The source gives the content of every object, whole. *)
Record gives (source : export_source) (objects : list Manifest.Entry) (content : Manifest.Entry → list Z) : Prop := {
  gives_open e s : e ∈ objects → (open_entry source e s).2 = Some (content e, true);
  gives_close e s : (close_entry source e s).2 = Some tt;
  gives_verify s : (verify_source (W := W) source s).2 = Some tt
}.

Lemma goes_act {A} (f : W → W * option A) a i o : (∀ s, (f s).2 = Some a) → goes (act f) i i o o a.
Proof.
  intros Hf gr s. unfold act. cbn [world]. specialize (Hf s). destruct (f s) as [s' x]. cbn in Hf. subst x. by exists gr, s'.
Qed.

(** A computation whose failure is noted instead of propagated. *)
Lemma goes_noted {A} (p : stream W A) i i' o o' a :
  goes p i i' o o' a → goes (λ w, let '(w', r) := p w in (w', Some (is_some r))) i i' o o' true.
Proof. intros Hp gr s. destruct (Hp gr s) as (gr' & s' & ->). by exists gr', s'. Qed.

Context (ob : Observation) `{!Calm ob}.

Lemma goes_write_objects source objects content rest i o :
  gives source objects content → rest ⊆ objects → Forall (λ e, verified e (content e)) rest →
  goes (write_objects IsNormalString hex_sha256 source rest) i i o (o ++ body (map content rest)) tt.
Proof.
  intros Hs Hsub Hv. revert o. induction Hv as [|e rest Hv _ IH]; intros o; cbn [write_objects map].
  { rewrite app_nil_r. apply goes_ret. }
  change (body (content e :: ?l)) with ((content e ++ [1]) ++ body l). rewrite <- !(assoc_L (++)).
  eapply goes_bind; [apply (goes_act _ (content e, true)); intros; apply Hs; set_solver|].
  eapply goes_bind; [by eapply goes_noted, (goes_copy _ _ ob)|].
  eapply goes_bind; [eapply goes_noted, (goes_act _ tt); intros; apply Hs|].
  eapply goes_bind; [by apply goes_require|]. eapply goes_bind; [apply goes_write|].
  rewrite !(assoc_L (++)). apply IH. set_solver.
Qed.

Lemma frame_bounds : maxManifestBytes < 2 ^ 32 ∧ footer_bytes < 2 ^ 32.
Proof. done. Qed.
End Snapshot.

Section RoundTrip.
Context (IsNormalString : string → bool) (hex_sha256 : list Z → string).
Context {W : Type} `{ExportWorld W}.

(** C23: exporting a snapshot is transparent end to end.  With a valid header
    whose text fits in its frame, a source that gives a verified content for
    every object, and authorizations and contexts that hold, [WriteSnapshot]
    succeeds with exactly the canonical stream of the header and the contents,
    and [RelaySnapshot], given that stream, decodes header and footer to the
    same values, passes every check and writes the very same bytes. *)
Theorem snapshot_relayed h objects source content i :
  (∀ bs, contentDigestPattern (hex_sha256 bs) = true) →
  validateHeader IsNormalString hex_sha256 h = Some objects →
  export_binding_width (Header.Binding h) → unsigned_modes (Header.Manifest_ h) →
  len (Header.text h) ≤ maxManifestBytes →
  gives source objects content →
  Forall (λ e, ExportStreamFacts.verified IsNormalString hex_sha256 e (content e)) objects →
  Calm (Header.observed h) →
  let bytes := snapshot_bytes h objects (map content objects) in
  goes (WriteSnapshot IsNormalString hex_sha256 h source) i i [] bytes tt ∧
  goes (RelaySnapshot IsNormalString hex_sha256) bytes [] [] bytes tt.
Proof.
  intros Hhex Hval Hw Hu Hlen Hsrc Hver Hcalm bytes.
  pose proof (footer_fits _ _ Hhex h objects Hval) as Hfoot.
  pose proof (text_nonempty Header.fields h : 0 < len (Header.text h)) as Hpos.
  pose proof (header_read _ _ Hhex h objects Hval Hw Hu) as Hhead.
  pose proof (footer_read _ _ Hhex h objects Hval) as Hclose. destruct frame_bounds as [Hb1 Hb2].
  assert (Hvs : Forall2 (ExportStreamFacts.verified IsNormalString hex_sha256) objects (map content objects)).
  { by apply Forall2_fmap_r, Forall_Forall2_diag. }
  assert (Hbytes : bytes = (((Magic ++ frame (Header.text h)) ++ body (map content objects)) ++
                            frame (Footer.text (footer_of h objects)))).
  { unfold bytes, snapshot_bytes, head. by rewrite !(assoc_L (++)). }
  split.
  - rewrite Hbytes. unfold WriteSnapshot. eapply goes_bind; [by apply goes_option|].
    eapply goes_bind; [apply goes_write|]. eapply goes_bind; [by apply goes_writeFrame|].
    eapply goes_bind; [by eapply (goes_write_objects _ _ (Header.observed h))|].
    eapply goes_bind; [apply goes_act; intros; apply Hsrc|].
    eapply goes_bind; [apply (goes_alive (Header.observed h))|]. by apply goes_writeFrame.
  - unfold bytes at 1, snapshot_bytes, head. rewrite Hbytes, <- !(assoc_L (++)).
    unfold RelaySnapshot. eapply goes_bind; [by apply goes_read|]. eapply goes_bind; [by apply goes_require, bool_decide_eq_true|].
    eapply goes_bind; [by apply goes_readFrame|]. eapply goes_bind; [by apply goes_option|]. cbn zeta.
    eapply goes_bind; [by apply goes_check|]. eapply goes_bind; [apply goes_write|].
    eapply goes_bind; [by apply goes_writeFrame|].
    eapply goes_bind; [by apply goes_relay_objects|].
    rewrite <- (app_nil_r (frame (Footer.text _))) at 1.
    eapply goes_bind; [by apply goes_readFrame|].
    eapply goes_bind; [by apply goes_require, bool_decide_eq_true|]. eapply goes_bind; [apply goes_eof|].
    eapply goes_bind; [by apply goes_check|]. eapply goes_bind; [apply (goes_alive (Header.observed h))|].
    rewrite !(assoc_L (++)). by apply goes_writeFrame.
Qed.
End RoundTrip.
