(* ===== verification/ExportAuthorization.v ===== *)
(** * The authorization of an export (src/internal/skillexport/authorization.go)

    A connection starts with a permission of the server and keeps it alive:
    every check is answered from the current window, or by one new request at
    a time once half of the window has passed, a fresh proof is required, or
    the ticker asks.  A window is measured from the start of the request that
    gave it.  The operations on [exportAuthorization] are the regions that hold
    [mu]; calls of [check], [refresh] and [observe] from any number of
    goroutines, the ticker, the expiry watcher and the parent context are
    interleaved by a step relation with a clock. *)

From S2P Require Import Prelude GoText GoTime GoJson.
From S2P Require Import Manifest StartResult Finalization NodeExport ExportStream.

(** ** The locked regions *)

Record exportAuthorization := mkAuthorization {
  identity : Identity;
  grant : string;
  initial : NodeExportPermission;
  current : NodeExportPermission;
  observed : option Observation;
  validUntil : time;
  refreshAt : time;
  cancelled : bool
}.

Definition cancel (a : exportAuthorization) : exportAuthorization := a <| cancelled := true |>.

Definition setWindow (started : time) (p : NodeExportPermission) (a : exportAuthorization) : exportAuthorization :=
  let interval := wrap_int64 (Permission.RecheckSeconds p * second) in
  let limit := started + interval in
  let limit := if before (Permission.ExpiresAt p) limit then Permission.ExpiresAt p else limit in
  a <| validUntil := limit |> <| refreshAt := started + Z.quot (time_sub limit started) 2 |>.

(** [newExportAuthorization] *)
Definition newExportAuthorization (i : Identity) (grant : string) (p : NodeExportPermission) (started : time)
    : exportAuthorization :=
  setWindow started p (mkAuthorization i grant p p None 0 0 false).

Definition validLocked (now : time) (a : exportAuthorization) : exportAuthorization * bool :=
  if cancelled a || negb (before now (validUntil a)) then (cancel a, false) else (a, true).

Definition matches (p : NodeExportPermission) (o : Observation) : bool :=
  Permission.MatchExport p (ObservedBinding o) (ObservedDigest o) (ObservedUnclean o).

(** The locked region of [observe]: the first facts are kept for good. *)
Definition observe_locked (o : Observation) (a : exportAuthorization) : exportAuthorization * bool :=
  match observed a with
  | None => if matches (initial a) o && matches (current a) o then (a <| observed := Some o |>, true) else (cancel a, false)
  | Some seen => if bool_decide (seen = o) then (a, true) else (cancel a, false)
  end.

(** [None] is an error. *)
Definition needsRefresh (force : bool) (now : time) (a : exportAuthorization) : exportAuthorization * option bool :=
  match validLocked now a with
  | (a, true) => (a, Some (force || negb (before now (refreshAt a))))
  | (a, false) => (a, None)
  end.

(** What the authority answered: it renews grants, or it only verifies. *)
Inductive authority_answer :=
  | RenewedAnswer (r : option NodeExportRenewal)
  | VerifiedAnswer (p : option NodeExportPermission).

Section Authority.
Context (hex_sha256 : list Z → string).

(** The permission, the next grant and whether it was renewed. *)
Definition nextPermission (grant : string) (answer : authority_answer) : option (NodeExportPermission * string * bool) :=
  match answer with
  | RenewedAnswer r =>
      r ← r;
      if Renewal.MatchPrevious hex_sha256 r grant then Some (Renewal.Permission_ r, Renewal.Grant r, true) else None
  | VerifiedAnswer p => p ← p; Some (p, grant, false)
  end.

(** A fact the server reported is still there. *)
Definition kept {A} `{EqDecision A} (before after : option A) : bool :=
  match before with Some x => bool_decide (after = Some x) | None => true end.

(** The rest of [verify] behind the answer of the authority; the clock is read
    at [n1], [n2] and [n3]. *)
Definition finish_verify (started n1 n2 n3 : time) (answer : authority_answer) (a : exportAuthorization)
    : exportAuthorization * bool :=
  let '(a, valid) := validLocked n1 a in
  match nextPermission (grant a) answer with
  | None => (cancel a, false)
  | Some (p, nextGrant, renewed) =>
      if negb valid || negb (Permission.Validate p) || negb (matchesIdentity p (identity a)) ||
         negb (bool_decide (Permission.Binding p = Permission.Binding (initial a))) ||
         (negb renewed && negb (Permission.ExpiresAt p =? Permission.ExpiresAt (initial a))) ||
         negb (after (Permission.ExpiresAt p) n2)
      then (cancel a, false)
      else if negb (match observed a with Some o => matches p o | None => true end) then (cancel a, false)
      else if negb (kept (Permission.IncomingDigest (current a)) (Permission.IncomingDigest p) &&
                    kept (Permission.Unclean (current a)) (Permission.Unclean p)) then (cancel a, false)
      else validLocked n3 (setWindow started p (a <| current := p |> <| grant := nextGrant |>))
  end.
End Authority.

(** ** Interleavings *)

(** Where a call of [verify] stands. *)
Inductive stage :=
  | Entering                       (* before the first [needsRefresh] *)
  | Queued                         (* waits for [refreshMu] *)
  | Holding                        (* holds it, before the second [needsRefresh] *)
  | Requesting (started : time).   (* the request is under way *)

(** A call of [check], [refresh] or [observe]: the facts it observed, whether
    it requires a fresh proof, and when it began. *)
Record verification := mkCall { claim : option Observation; force : bool; began : time; at_stage : stage }.

(** An answer that was accepted: when its request started and when it was
    accepted, the grant that was sent and the grant that follows it. *)
Record acceptance := mkAcceptance {
  started_at : time;
  arrived_at : time;
  sent : string;
  permission : NodeExportPermission;
  next : string
}.

Inductive event :=
  | Accepted (x : acceptance)
  | Passed (claim : option Observation) (force : bool) (began at_ : time).

Record connection := mkConnection {
  auth : exportAuthorization;
  clock : time;
  refreshing : option nat;         (* who holds [refreshMu] *)
  calls : gmap nat verification;
  history : list event
}.

Section Steps.
Context (hex_sha256 : list Z → string).

(** The answer of the server that [serve] starts from. *)
Inductive opened (i : Identity) (g : string) : connection → Prop :=
  | opened_intro p started now :
      started ≤ now → Permission.Validate p = true → matchesIdentity p i = true →
      after (Permission.ExpiresAt p) now = true →
      opened i g (mkConnection (newExportAuthorization i g p started) now None ∅ [Accepted (mkAcceptance started now g p g)]).

Definition leave (t : nat) (c : connection) : connection :=
  c <| calls := delete t (calls c) |> <| refreshing := None |>.

Definition move (t : nat) (v : verification) (s : stage) (c : connection) : connection :=
  c <| calls := <[t := mkCall (claim v) (force v) (began v) s]> (calls c) |>.

Definition pass (v : verification) (c : connection) : connection :=
  c <| history := history c ++ [Passed (claim v) (force v) (began v) (clock c)] |>.

Inductive step : connection → connection → Prop :=
  | step_tick c now : clock c ≤ now → step c (c <| clock := now |>)
  | step_cancel c : step c (c <| auth := cancel (auth c) |>)
  | step_watch c : step c (c <| auth := (validLocked (clock c) (auth c)).1 |>)
  | step_check c t force :
      calls c !! t = None → step c (c <| calls := <[t := mkCall None force (clock c) Entering]> (calls c) |>)
  | step_observe c t o force a :
      calls c !! t = None → observe_locked o (auth c) = (a, true) →
      step c (c <| auth := a |> <| calls := <[t := mkCall (Some o) force (clock c) Entering]> (calls c) |>)
  | step_observe_refused c o a :
      observe_locked o (auth c) = (a, false) → step c (c <| auth := a |>)
  | step_first c t v a r :
      calls c !! t = Some v → at_stage v = Entering → needsRefresh (force v) (clock c) (auth c) = (a, r) →
      step c (match r with
              | None => c <| auth := a |> <| calls := delete t (calls c) |>
              | Some false => pass v (c <| auth := a |> <| calls := delete t (calls c) |>)
              | Some true => move t v Queued (c <| auth := a |>)
              end)
  | step_acquire c t v :
      calls c !! t = Some v → at_stage v = Queued → refreshing c = None →
      step c (move t v Holding (c <| refreshing := Some t |>))
  | step_second c t v a r started :
      calls c !! t = Some v → at_stage v = Holding → needsRefresh (force v) (clock c) (auth c) = (a, r) →
      clock c ≤ started →
      step c (match r with
              | None => leave t (c <| auth := a |>)
              | Some false => pass v (leave t (c <| auth := a |>))
              | Some true => move t v (Requesting started) (c <| auth := a |> <| clock := started |>)
              end)
  | step_finish c t v started n1 n2 n3 answer a ok :
      calls c !! t = Some v → at_stage v = Requesting started → clock c ≤ n1 → n1 ≤ n2 → n2 ≤ n3 →
      finish_verify hex_sha256 started n1 n2 n3 answer (auth c) = (a, ok) →
      step c (let c' := leave t (c <| auth := a |> <| clock := n3 |>) in
              if ok then
                pass v (c' <| history := history c ++ [Accepted (mkAcceptance started n3 (grant (auth c)) (current a) (grant a))] |>)
              else c').

Definition reached (i : Identity) (g : string) (c : connection) : Prop := ∃ c0, opened i g c0 ∧ rtc step c0 c.
End Steps.
