(* ===== verification/ExportAuthorizationFacts.v ===== *)
(** * The authorization of an export: what a passed check is worth

    An invariant of the interleavings says that the current window belongs to
    an answer of the server that was accepted, that the facts once observed
    stay, and that every check that passed was covered by such a window. *)

From S2P Require Import Prelude GoText GoTime GoJson.
From S2P Require Import Manifest StartResult Finalization NodeExport ExportStream ExportAuthorization.

Lemma validLocked_true now a a' : validLocked now a = (a', true) → a' = a ∧ cancelled a = false ∧ now < validUntil a.
Proof.
  unfold validLocked, before. destruct (cancelled a); [done|]. cbn [orb].
  destruct (now <? validUntil a) eqn:E; [|done]. intros [= <-]. apply Z.ltb_lt in E. by split_and!.
Qed.

Lemma validLocked_false now a a' : validLocked now a = (a', false) → a' = cancel a.
Proof. unfold validLocked. destruct (_ || _); [by intros [= <-]|done]. Qed.

Lemma needsRefresh_cases force now a a' r :
  needsRefresh force now a = (a', r) →
  match r with
  | None => a' = cancel a
  | Some again => a' = a ∧ cancelled a = false ∧ now < validUntil a ∧ (force = true → again = true)
  end.
Proof.
  unfold needsRefresh. destruct (validLocked now a) as [a1 []] eqn:E; intros [= <- <-].
  - apply validLocked_true in E as (-> & Hc & Hv). split_and!; [done..|]. by intros ->.
  - by apply validLocked_false in E.
Qed.

(** A window lies within the recheck interval and the permission's life. *)
Lemma setWindow_bounds started p a :
  Permission.Validate p = true →
  let a' := setWindow started p a in
  validUntil a' ≤ started + Permission.RecheckSeconds p * second ∧ validUntil a' ≤ Permission.ExpiresAt p.
Proof.
  unfold Permission.Validate. rewrite !andb_true_iff, !Z.leb_le. intros [[[_ H1] H2] _]. cbn.
  rewrite wrap_int64_id by (unfold is_int64, max_int64, second; lia).
  unfold before. destruct (_ <? _) eqn:E; [apply Z.ltb_lt in E|apply Z.ltb_ge in E]; lia.
Qed.

Section Facts.
Context (hex_sha256 : list Z → string).

Lemma finish_false started n1 n2 n3 answer a a' :
  finish_verify hex_sha256 started n1 n2 n3 answer a = (a', false) →
  cancelled a' = true ∧ identity a' = identity a ∧ initial a' = initial a ∧ observed a' = observed a.
Proof.
  unfold finish_verify. destruct (validLocked n1 a) as [a1 valid] eqn:E1.
  assert (H : identity a1 = identity a ∧ initial a1 = initial a ∧ observed a1 = observed a).
  { destruct valid; [by apply validLocked_true in E1 as [-> _]|by apply validLocked_false in E1 as ->]. }
  destruct (nextPermission hex_sha256 (grant a1) answer) as [[[p g] renewed]|]; [|by intros [= <-]].
  destruct (_ || _); [by intros [= <-]|]. destruct (negb (match observed a1 with Some _ => _ | None => _ end)); [by intros [= <-]|].
  destruct (negb (kept _ _ && _)); [by intros [= <-]|]. intros ->%validLocked_false. by cbn.
Qed.

Lemma finish_true started n1 n2 n3 answer a a' :
  finish_verify hex_sha256 started n1 n2 n3 answer a = (a', true) →
  ∃ p g renewed, nextPermission hex_sha256 (grant a) answer = Some (p, g, renewed) ∧
    a' = setWindow started p (a <| current := p |> <| grant := g |>) ∧
    cancelled a = false ∧ n1 < validUntil a ∧ n3 < validUntil a' ∧
    Permission.Validate p = true ∧ matchesIdentity p (identity a) = true ∧
    Permission.Binding p = Permission.Binding (initial a) ∧
    (renewed = false → Permission.ExpiresAt p = Permission.ExpiresAt (initial a)) ∧
    (∀ o, observed a = Some o → matches p o = true) ∧
    kept (Permission.IncomingDigest (current a)) (Permission.IncomingDigest p) = true ∧
    kept (Permission.Unclean (current a)) (Permission.Unclean p) = true.
Proof.
  unfold finish_verify. destruct (validLocked n1 a) as [a1 []] eqn:E1.
  2:{ destruct (nextPermission _ _ _) as [[[p g] renewed]|]; [|done]. by cbn [negb orb]. }
  apply validLocked_true in E1 as (-> & Hc & Hv).
  destruct (nextPermission hex_sha256 (grant a) answer) as [[[p g] renewed]|]; [|done]. cbn [negb orb].
  destruct (_ || _) eqn:E1; [done|]. destruct (negb (match observed a with Some _ => _ | None => _ end)) eqn:E2; [done|].
  destruct (negb (kept _ _ && _)) eqn:E3; [done|]. intros (-> & _ & H3)%validLocked_true.
  rewrite !orb_false_iff, !negb_false_iff in E1. destruct E1 as [[[[Hval Hid] Hb%bool_decide_eq_true] Hexp] _].
  rewrite negb_false_iff in E2. rewrite negb_false_iff, andb_true_iff in E3. destruct E3 as [Hk1 Hk2].
  exists p, g, renewed. split_and!; try done.
  - intros ->. cbn in Hexp. rewrite negb_false_iff in Hexp. by apply Z.eqb_eq.
  - intros o Ho. by rewrite Ho in E2.
Qed.
End Facts.

(** ** The invariant *)

Definition accepted (h : list event) : list acceptance :=
  omap (λ e, match e with Accepted x => Some x | Passed _ _ _ _ => None end) h.

Lemma accepted_app h h' : accepted (h ++ h') = accepted h ++ accepted h'.
Proof. apply omap_app. Qed.

(** The permission is the server's word on this very connection: for its
    identity and original binding, and for a grant that continues the one sent. *)
Definition proper (hex_sha256 : list Z → string) (i : Identity) (p0 : NodeExportPermission) (x : acceptance) : Prop :=
  Permission.Validate (permission x) = true ∧ matchesIdentity (permission x) i = true ∧
  Permission.Binding (permission x) = Permission.Binding p0 ∧ started_at x ≤ arrived_at x ∧
  (next x = sent x ∧ Permission.ExpiresAt (permission x) = Permission.ExpiresAt p0 ∨
   ∃ r, Renewal.MatchPrevious hex_sha256 r (sent x) = true ∧
        Renewal.Grant r = next x ∧ Renewal.Permission_ r = permission x).

(** The window of [x] covers the instant [n]. *)
Definition covers (x : acceptance) (n : time) : Prop :=
  arrived_at x ≤ n ∧ n < started_at x + Permission.RecheckSeconds (permission x) * second ∧
  n < Permission.ExpiresAt (permission x).

(** A check that passed at [n] is worth an acceptance whose window covers it,
    for the facts it observed; a forced one, a request it made itself. *)
Definition worth (p0 : NodeExportPermission) (l : list acceptance) (cl : option Observation) (force : bool) (b n : time) : Prop :=
  b ≤ n ∧ ∃ x, x ∈ l ∧ covers x n ∧ (force = true → b ≤ started_at x) ∧
    ∀ o, cl = Some o → matches p0 o = true ∧ matches (permission x) o = true.

(** A later acceptance: requested after the earlier one was accepted, with
    every fact that was reported before. *)
Definition later (x y : acceptance) : Prop :=
  arrived_at x ≤ started_at y ∧
  kept (Permission.IncomingDigest (permission x)) (Permission.IncomingDigest (permission y)) = true ∧
  kept (Permission.Unclean (permission x)) (Permission.Unclean (permission y)) = true.

Lemma kept_trans {A} `{EqDecision A} (x y z : option A) : kept x y = true → kept y z = true → kept x z = true.
Proof. destruct x; [|done]. cbn. by intros ->%bool_decide_eq_true. Qed.

Lemma kept_refl {A} `{EqDecision A} (x : option A) : kept x x = true.
Proof. destruct x; [|done]. by apply bool_decide_eq_true. Qed.

Section Invariant.
Context (hex_sha256 : list Z → string) (i : Identity) (p0 : NodeExportPermission).

Record auth_ok (l : list acceptance) (a : exportAuthorization) : Prop := {
  ok_identity : identity a = i;
  ok_initial : initial a = p0;
  ok_window : cancelled a = false → ∃ x, list.last l = Some x ∧ permission x = current a ∧ next x = grant a ∧
    validUntil a ≤ started_at x + Permission.RecheckSeconds (current a) * second ∧
    validUntil a ≤ Permission.ExpiresAt (current a);
  ok_observed : ∀ o, observed a = Some o → matches p0 o = true ∧ (cancelled a = false → matches (current a) o = true)
}.

Definition holds (s : stage) : bool := match s with Holding | Requesting _ => true | _ => false end.

Record call_ok (a : exportAuthorization) (now : time) (l : list acceptance) (v : verification) : Prop := {
  ok_began : began v ≤ now;
  ok_claim : ∀ o, claim v = Some o → observed a = Some o;
  ok_request : ∀ s, at_stage v = Requesting s → began v ≤ s ≤ now ∧ ∀ x, x ∈ l → arrived_at x ≤ s
}.

Record history_ok (now : time) (h : list event) : Prop := {
  ok_proper : ∀ x, x ∈ accepted h → proper hex_sha256 i p0 x ∧ arrived_at x ≤ now;
  ok_later : ∀ j k x y, (j < k)%nat → accepted h !! j = Some x → accepted h !! k = Some y → later x y;
  ok_chain : ∀ j x y, accepted h !! j = Some x → accepted h !! S j = Some y → sent y = next x;
  ok_passed : ∀ cl f b n, Passed cl f b n ∈ h → worth p0 (accepted h) cl f b n
}.

Record inv (c : connection) : Prop := {
  inv_auth : auth_ok (accepted (history c)) (auth c);
  inv_calls : ∀ t v, calls c !! t = Some v → call_ok (auth c) (clock c) (accepted (history c)) v;
  inv_lock : ∀ t v, calls c !! t = Some v → holds (at_stage v) = true → refreshing c = Some t;
  inv_history : history_ok (clock c) (history c);
  inv_said : ∀ o f b n, Passed (Some o) f b n ∈ history c → observed (auth c) = Some o
}.

Lemma auth_ok_cancel l a : auth_ok l a → auth_ok l (cancel a).
Proof. intros [H1 H2 H3 H4]. split; [done|done|done|]. intros o Ho. split; [by apply H4|done]. Qed.

Lemma call_ok_weaken a a' now now' l v :
  (∀ o, observed a = Some o → observed a' = Some o) → now ≤ now' → call_ok a now l v → call_ok a' now' l v.
Proof. intros Ho Hn [H1 H2 H3]. split; [lia|auto|]. intros s Hs. destruct (H3 s Hs). split; [lia|done]. Qed.

Lemma history_ok_later now now' h : now ≤ now' → history_ok now h → history_ok now' h.
Proof. intros Hn [H1 H2 H3 H4]. split; [|done..]. intros x Hx. destruct (H1 x Hx). split; [done|lia]. Qed.

(** A change of the authorization or the clock that keeps the calls. *)
Lemma inv_same_calls c a now :
  inv c → auth_ok (accepted (history c)) a → (∀ o, observed (auth c) = Some o → observed a = Some o) →
  clock c ≤ now → inv (c <| auth := a |> <| clock := now |>).
Proof.
  intros [H1 H2 H3 H4 H5] Ha Ho Hn. split; cbn; [done| |done|by eapply history_ok_later|].
  - intros t v Hv. eapply call_ok_weaken; [done|done|by apply (H2 t)].
  - intros o f b n Hin. by apply Ho, (H5 o f b n).
Qed.

(** A call that enters or moves on. *)
Lemma inv_set_call c m t v :
  inv c → m = calls c → call_ok (auth c) (clock c) (accepted (history c)) v →
  (holds (at_stage v) = true → refreshing c = Some t) → inv (c <| calls := <[t := v]> m |>).
Proof.
  intros [H1 H2 H3 H4 H5] -> Hv Hl. split; cbn; [done| | |done|done]; intros t' v' [[<- <-]|[? ?]]%lookup_insert_Some; eauto.
Qed.

(** The end of a call that does not hold the lock, or of the one that does. *)
Lemma inv_drop_call c m t : inv c → m = calls c → inv (c <| calls := delete t m |>).
Proof. intros [H1 H2 H3 H4 H5] ->. split; cbn; [done| | |done|done]; intros t' v' [? ?]%lookup_delete_Some; eauto. Qed.

Lemma inv_leave c t v : inv c → calls c !! t = Some v → holds (at_stage v) = true → inv (leave t c).
Proof.
  intros [H1 H2 H3 H4 H5] Hv Hh. split; cbn; [done| | |done|done]; intros t' v' [Hn Hv']%lookup_delete_Some; [eauto|].
  intros Hh'. pose proof (H3 t' v' Hv' Hh'). pose proof (H3 t v Hv Hh). congruence.
Qed.

Lemma inv_pass c v :
  inv c → worth p0 (accepted (history c)) (claim v) (force v) (began v) (clock c) →
  (∀ o, claim v = Some o → observed (auth c) = Some o) → inv (pass v c).
Proof.
  intros [H1 H2 H3 [H4 H5 H6 H7] H8] Hw Hcl.
  assert (Hacc : accepted (history (pass v c)) = accepted (history c)).
  { cbn. by rewrite accepted_app, app_nil_r. }
  split; rewrite ?Hacc; [done..| |].
  2:{ intros o f b n. cbn. rewrite elem_of_app, list_elem_of_singleton. intros [Hin|[= Ho -> -> ->]]; [by eapply H8|].
      by apply Hcl. }
  split; rewrite ?Hacc; [done..|]. intros cl f b n. cbn. rewrite elem_of_app, list_elem_of_singleton. intros [Hin|[= -> -> -> ->]]; [by apply H7|done].
Qed.

Lemma worth_window c t v :
  inv c → calls c !! t = Some v → cancelled (auth c) = false → clock c < validUntil (auth c) → force v = false →
  worth p0 (accepted (history c)) (claim v) (force v) (began v) (clock c).
Proof.
  intros [H1 H2 H3 [H4 H5 H6 H7] _] Hv Hc Hu Hf. destruct (H2 t v Hv) as [Hb Hcl _]. split; [done|].
  destruct (ok_window _ _ H1 Hc) as (x & Hx & Hp & Hg & Hr & He). rewrite list.last_lookup in Hx.
  apply list_elem_of_lookup_2 in Hx. exists x. split_and!; [done| | |].
  - split_and!; [by apply H4| |]; rewrite Hp; lia.
  - by rewrite Hf.
  - intros o Ho%Hcl. destruct (ok_observed _ _ H1 o Ho) as [Hm0 Hm]. split; [done|]. rewrite Hp. by apply Hm.
Qed.

(** An answer joins the accepted ones. *)
Lemma history_ok_accept now now' h x y :
  history_ok now h → now ≤ now' → list.last (accepted h) = Some x → sent y = next x → proper hex_sha256 i p0 y →
  arrived_at y ≤ now' → (∀ z, z ∈ accepted h → arrived_at z ≤ started_at y) →
  kept (Permission.IncomingDigest (permission x)) (Permission.IncomingDigest (permission y)) = true →
  kept (Permission.Unclean (permission x)) (Permission.Unclean (permission y)) = true →
  history_ok now' (h ++ [Accepted y]).
Proof.
  intros [H1 H2 H3 H4] Hn Hx Hsent Hp Ha Hs Hk1 Hk2. rewrite list.last_lookup in Hx.
  assert (Hacc : accepted (h ++ [Accepted y]) = accepted h ++ [y]) by apply accepted_app.
  assert (Hlen : (0 < length (accepted h))%nat) by (apply lookup_lt_Some in Hx; lia).
  split; rewrite ?Hacc.
  - intros z. rewrite elem_of_app, list_elem_of_singleton. intros [Hz | ->]; [|done]. destruct (H1 z Hz). split; [done|lia].
  - intros j k a b Hjk Hj Hk. apply lookup_app_Some in Hk as [Hk|[Hge Hk]].
    { rewrite lookup_app_l in Hj by (apply lookup_lt_Some in Hk; lia). by apply (H2 j k). }
    apply list_lookup_singleton_Some in Hk as [Hk <-]. rewrite lookup_app_l in Hj by lia.
    assert (Hax : kept (Permission.IncomingDigest (permission a)) (Permission.IncomingDigest (permission x)) = true ∧
                  kept (Permission.Unclean (permission a)) (Permission.Unclean (permission x)) = true).
    { destruct (decide (j = pred (length (accepted h)))) as [->|Hne].
      - rewrite Hx in Hj. injection Hj as <-. split; apply kept_refl.
      - apply (H2 j (pred (length (accepted h))) a x); [apply lookup_lt_Some in Hj; lia|done|done]. }
    split_and!; [by apply Hs; eapply list_elem_of_lookup_2|by eapply kept_trans; [apply Hax|]..].
  - intros j a b Hj Hk. apply lookup_app_Some in Hk as [Hk|[Hge Hk]].
    { rewrite lookup_app_l in Hj by (apply lookup_lt_Some in Hk; lia). by apply (H3 j). }
    apply list_lookup_singleton_Some in Hk as [Hk <-]. rewrite lookup_app_l in Hj by lia.
    replace j with (pred (length (accepted h))) in Hj by lia. congruence.
  - intros cl f b n. rewrite elem_of_app, list_elem_of_singleton. intros [Hin|Heq]; [|done].
    destruct (H4 cl f b n Hin) as (Hb & z & Hz & Hrest). split; [done|]. exists z. split; [|done].
    apply elem_of_app. by left.
Qed.

Lemma inv_finish c t v started n1 n2 n3 answer a :
  inv c → calls c !! t = Some v → at_stage v = Requesting started → clock c ≤ n1 → n1 ≤ n2 → n2 ≤ n3 →
  finish_verify hex_sha256 started n1 n2 n3 answer (auth c) = (a, true) →
  inv (pass v (leave t (c <| auth := a |> <| clock := n3 |>) <| history := history c ++
    [Accepted (mkAcceptance started n3 (grant (auth c)) (current a) (grant a))] |>)).
Proof.
  intros Hinv Hv Hs Hn1 Hn2 Hn3 Hfin. pose proof Hinv as [H1 H2 H3 H4 H5].
  destruct (H2 t v Hv) as [Hb Hcl Hreq]. destruct (Hreq started Hs) as [Hst Harr].
  destruct (finish_true _ _ _ _ _ _ _ _ Hfin)
    as (p & g & renewed & Hnext & Ha & Hc & Hu & Hu' & Hval & Hid & Hbind & Hexp & Hobs & Hk1 & Hk2).
  destruct (ok_window _ _ H1 Hc) as (x & Hx & Hp & Hg & _ & _).
  set (y := mkAcceptance started n3 (grant (auth c)) (current a) (grant a)).
  assert (Hcur : current a = p ∧ grant a = g ∧ identity a = i ∧ initial a = p0 ∧ observed a = observed (auth c) ∧ cancelled a = false).
  { subst a. cbn. split_and!; try done; [apply H1|apply H1]. }
  destruct Hcur as (Hca & Hga & Hia & Hpa & Hoa & Hna).
  assert (Hy : history_ok n3 (history c ++ [Accepted y])).
  { apply (history_ok_accept (clock c) n3 _ x y); [done|lia|done|by cbn; rewrite Hg| |cbn; lia|done| |].
    - split_and!; cbn; rewrite ?Hca, ?Hga; [done| | |lia|].
      + by rewrite <- (ok_identity _ _ H1).
      + by rewrite Hbind, (ok_initial _ _ H1).
      + unfold nextPermission in Hnext. destruct answer as [[r|]|[q|]]; cbn in Hnext; try done.
        * destruct (Renewal.MatchPrevious _ _ _) eqn:Em; [|done]. injection Hnext as <- <- <-. right. by exists r.
        * injection Hnext as <- <- <-. left. split; [done|]. by rewrite Hexp, (ok_initial _ _ H1).
    - cbn. by rewrite Hca, Hp.
    - cbn. by rewrite Hca, Hp. }
  assert (Hlast : accepted (history c ++ [Accepted y]) = accepted (history c) ++ [y]) by apply accepted_app.
  destruct (setWindow_bounds started p ((auth c) <| current := p |> <| grant := g |>) Hval) as [Hw1 Hw2].
  assert (Hinv' : inv (leave t (c <| auth := a |> <| clock := n3 |>) <| history := history c ++ [Accepted y] |>)).
  { assert (Hold : inv (leave t (c <| auth := cancel (auth c) |> <| clock := n3 |>))).
    { eapply (inv_leave _ t v); [|exact Hv|by rewrite Hs].
      apply inv_same_calls; [done|by apply auth_ok_cancel|done|lia]. }
    split; cbn [history auth calls clock refreshing leave set const]; [|intros t' v' Hv'|apply Hold|done|].
    - rewrite Hlast. split; [done|done| |].
      + intros _. exists y. rewrite list.last_snoc. split_and!; [done|done|done| |]; rewrite Hca, Ha; [exact Hw1|exact Hw2].
      + intros o Ho. rewrite Hoa in Ho. rewrite Hca. split; [by apply (ok_observed _ _ H1)|]. intros _. by apply Hobs.
    - pose proof (inv_lock _ Hold t' v' Hv') as Hlock. apply lookup_delete_Some in Hv' as [Hne Hv'].
      destruct (H2 t' v' Hv') as [Hb' Hcl' Hreq']. split; [lia|by rewrite Hoa|].
      rewrite Hlast. intros s Hs'. rewrite Hs' in Hlock. by specialize (Hlock eq_refl).
    - intros o f b n. rewrite elem_of_app, list_elem_of_singleton. intros [Hin|Heq]; [|done].
      rewrite Hoa. by eapply H5. }
  apply inv_pass; [exact Hinv'| |intros o Ho; cbn [auth set leave const]; rewrite Hoa; by apply Hcl]. cbn [history clock set leave const]. rewrite Hlast. split; [lia|].
  exists y. split_and!; [apply elem_of_app; right; by left| |cbn; lia|].
  - split_and!; cbn; rewrite ?Hca; [lia| |]; rewrite Ha in Hu'; lia.
  - intros o Ho%Hcl. cbn. rewrite Hca. split; [by apply (ok_observed _ _ H1)|by apply Hobs].
Qed.

Lemma admit_ok l o a a' ok :
  auth_ok l a → observe_locked o a = (a', ok) →
  auth_ok l a' ∧ (∀ x, observed a = Some x → observed a' = Some x) ∧ (ok = true → observed a' = Some o).
Proof.
  intros Ha. unfold observe_locked. destruct (observed a) as [seen|] eqn:Eo.
  - case_bool_decide as Hs; intros [= <- <-].
    + subst seen. by rewrite Eo.
    + split; [by apply auth_ok_cancel|]. split; [by cbn; rewrite Eo|done].
  - destruct (_ && _) eqn:Em; intros [= <- <-].
    + apply andb_true_iff in Em as [Hm0 Hm]. split_and!; [|done|done].
      destruct Ha as [H1 H2 H3 H4]. split; [done|done|done|]. cbn. intros x [= <-]. by rewrite <- H2.
    + split; [by apply auth_ok_cancel|]. split; [by cbn|done].
Qed.

(** The region at the head of a call keeps the invariant. *)
Lemma inv_needs_refresh c v a r :
  inv c → needsRefresh (force v) (clock c) (auth c) = (a, r) → inv (c <| auth := a |>).
Proof.
  intros Hinv Hr. apply needsRefresh_cases in Hr.
  assert (Ha : a = auth c ∨ a = cancel (auth c)) by (destruct r; [left; apply Hr|by right]).
  apply (inv_same_calls c a (clock c)); [done| | |lia].
  - destruct Ha as [-> | ->]; [apply Hinv|apply auth_ok_cancel, Hinv].
  - by destruct Ha as [-> | ->].
Qed.

Lemma auth_step_inv c c' : inv c → step hex_sha256 c c' → inv c'.
Proof.
  intros Hinv Hstep. pose proof (inv_auth _ Hinv) as Hauth. destruct Hstep.
  - by apply (inv_same_calls c (auth c) now).
  - apply (inv_same_calls c _ (clock c)); [done|by apply auth_ok_cancel|done|lia].
  - apply (inv_same_calls c _ (clock c)); [done| | |lia]; unfold validLocked; destruct (_ || _); try done.
    by apply auth_ok_cancel.
  - apply inv_set_call; [done|done| |done]. split; cbn; [lia|done|done].
  - destruct (admit_ok _ _ _ _ _ Hauth H0) as (Ha & Ho & Hok).
    apply (inv_set_call (c <| auth := a |>)); [apply (inv_same_calls c a (clock c)); [done|done|done|lia]|done| |done].
    split; cbn; [lia| |done]. intros x [= <-]. by apply Hok.
  - destruct (admit_ok _ _ _ _ _ Hauth H) as (Ha & Ho & _). apply (inv_same_calls c a (clock c)); [done|done|done|lia].
  - pose proof (inv_needs_refresh c v a r Hinv H1) as Hinv'. pose proof (inv_calls _ Hinv' t v H) as Hcall.
    apply needsRefresh_cases in H1. destruct r as [[]|].
    + apply (inv_set_call (c <| auth := a |>)); [done|done| |done]. by destruct Hcall as [Hb Hcl _].
    + destruct H1 as (-> & Hc & Hu & Hf). apply inv_pass; [by apply (inv_drop_call (c <| auth := auth c |>))| |apply Hcall].
      apply (worth_window c t v); [done|done|done|done|]. destruct (force v); [|done]. by specialize (Hf eq_refl).
    + by apply (inv_drop_call (c <| auth := a |>)).
  - assert (Hidle : inv (c <| refreshing := Some t |>)).
    { destruct Hinv as [I1 I2 I3 I4 I5]. split; [done|done| |done|done]. intros t' v' Hv' Hh. specialize (I3 t' v' Hv' Hh). congruence. }
    pose proof (inv_calls _ Hinv t v H) as [Hb Hcl _]. by apply (inv_set_call (c <| refreshing := Some t |>)).
  - pose proof (inv_needs_refresh c v a r Hinv H1) as Hinv'. pose proof (inv_calls _ Hinv' t v H) as Hcall.
    apply needsRefresh_cases in H1. destruct r as [[]|].
    + apply (inv_set_call (c <| auth := a |> <| clock := started |>)).
      * apply (inv_same_calls (c <| auth := a |>) a started); [done|apply Hinv'|done|done].
      * done.
      * destruct Hcall as [Hb Hcl _]. cbn in *. split; cbn; [lia|done|]. intros s [= <-]. split; [lia|].
        intros x Hx. pose proof (proj2 (ok_proper _ _ (inv_history _ Hinv) x Hx)). lia.
      * intros _. apply (inv_lock _ Hinv t v H). by rewrite H0.
    + destruct H1 as (-> & Hc & Hu & Hf). apply inv_pass; [eapply inv_leave; [done|exact H|by rewrite H0]| |apply Hcall].
      apply (worth_window c t v); [done|done|done|done|]. destruct (force v); [|done]. by specialize (Hf eq_refl).
    + eapply inv_leave; [done|exact H|by rewrite H0].
  - cbn zeta. destruct ok.
    + eapply inv_finish; [done|exact H|exact H0|exact H1|exact H2|exact H3|exact H4].
    + destruct (finish_false _ _ _ _ _ _ _ _ H4) as (Hc & Hi & Hp & Ho).
      eapply (inv_leave _ t v); [|exact H|by rewrite H0].
      apply inv_same_calls; [done| |by rewrite Ho|lia].
      destruct Hauth as [A1 A2 A3 A4]. split; [by rewrite Hi|by rewrite Hp|by rewrite Hc|].
      intros o Hob. rewrite Ho in Hob. split; [by apply A4|by rewrite Hc].
Qed.
End Invariant.

Lemma opened_inv hex_sha256 i g c :
  opened i g c → inv hex_sha256 i (initial (auth c)) c.
Proof.
  intros [p started now Hs Hv Hi He]. destruct (setWindow_bounds started p (mkAuthorization i g p p None 0 0 false) Hv) as [W1 W2].
  unfold after in He. apply Z.ltb_lt in He. split; cbn.
  - split; [done|done| |done]. intros _. by eexists.
  - done.
  - done.
  - split; cbn.
    + intros x ->%list_elem_of_singleton. split; [|cbn; lia]. split_and!; [done|done|done|done|by left].
    + intros j k x y Hjk Hj%lookup_lt_Some Hk%lookup_lt_Some. cbn in *. lia.
    + intros j x y Hj Hk%lookup_lt_Some. cbn in *. lia.
    + intros cl f b n. rewrite list_elem_of_singleton. done.
  - intros o f b n. rewrite list_elem_of_singleton. done.
Qed.

Lemma reached_inv hex_sha256 i g c :
  reached hex_sha256 i g c → ∃ p0, inv hex_sha256 i p0 c ∧ initial (auth c) = p0.
Proof.
  intros (c0 & Ho & Hsteps). exists (initial (auth c0)).
  assert (H : inv hex_sha256 i (initial (auth c0)) c).
  { apply opened_inv with (hex_sha256 := hex_sha256) in Ho as Hinv. clear Ho. revert Hinv. generalize (initial (auth c0)).
    induction Hsteps as [c|c c1 c2 Hs _ IH]; intros p0 Hinv; [done|]. by apply IH, (auth_step_inv _ _ _ c). }
  split; [done|]. by apply (ok_initial _ _ _ _ (inv_auth _ _ _ _ H)).
Qed.

(** ** Properties *)

Lemma passed_worth hex_sha256 i g c cl f b n :
  reached hex_sha256 i g c → Passed cl f b n ∈ history c →
  b ≤ n ∧ ∃ x, x ∈ accepted (history c) ∧ proper hex_sha256 i (initial (auth c)) x ∧ covers x n ∧
    n < started_at x + 10 * second ∧ (f = true → b ≤ started_at x) ∧
    ∀ o, cl = Some o → observed (auth c) = Some o ∧ matches (initial (auth c)) o = true ∧ matches (permission x) o = true.
Proof.
  intros (p0 & Hinv & Hp0)%reached_inv Hin. rewrite Hp0.
  destruct (ok_passed _ _ _ _ _ (inv_history _ _ _ _ Hinv) _ _ _ _ Hin) as (Hb & x & Hx & Hc & Hf & Ho).
  split; [done|]. exists x.
  destruct (ok_proper _ _ _ _ _ (inv_history _ _ _ _ Hinv) x Hx) as [Hproper _].
  split_and!; [done|done|done| |done|].
  - destruct Hproper as [Hv _]. unfold Permission.Validate in Hv. rewrite !andb_true_iff, !Z.leb_le in Hv.
    destruct Hc as (_ & Hc & _). unfold second in *. lia.
  - intros o Hcl. subst cl. split; [by eapply inv_said|by apply Ho].
Qed.

(** C12: in every interleaving of checks, refreshes and observations with the
    ticker, the expiry watcher and the end of the parent context, a check that
    passes at an instant [n] is covered by an answer of the server that was
    accepted on this connection: valid, for this identity and the original
    binding, requested less than ten seconds before [n] and not expired at [n];
    a check that required a fresh proof is covered by a request made after the
    check began; and the facts a check observed are the facts of the whole
    connection and agree with the covering permission and the original one. *)
Theorem export_check_backed hex_sha256 i g c cl f b n :
  reached hex_sha256 i g c → Passed cl f b n ∈ history c →
  b ≤ n ∧ ∃ x, x ∈ accepted (history c) ∧ proper hex_sha256 i (initial (auth c)) x ∧ covers x n ∧
    n < started_at x + 10 * second ∧ (f = true → b ≤ started_at x) ∧
    ∀ o, cl = Some o → observed (auth c) = Some o ∧ matches (initial (auth c)) o = true ∧ matches (permission x) o = true.
Proof. apply passed_worth. Qed.

Lemma cancelled_step hex_sha256 c c' :
  step hex_sha256 c c' → cancelled (auth c) = true → cancelled (auth c') = true ∧ history c' = history c.
Proof.
  intros Hstep Hc.
  assert (Hnone : ∀ f n a r, needsRefresh f n (auth c) = (a, r) → cancelled a = true ∧ r = None).
  { intros f n a r Hr. unfold needsRefresh, validLocked in Hr. rewrite Hc in Hr. by injection Hr as <- <-. }
  destruct Hstep; cbn; try done.
  - unfold validLocked. by rewrite Hc.
  - split; [|done]. unfold observe_locked in H0. repeat case_match; injection H0 as <-; done.
  - split; [|done]. unfold observe_locked in H. repeat case_match; injection H as <-; done.
  - apply Hnone in H1 as [Ha ->]. done.
  - apply Hnone in H1 as [Ha ->]. done.
  - destruct ok; [apply finish_true in H4 as (? & ? & ? & ? & ? & ? & ?); congruence|].
    by apply finish_false in H4 as [? _].
Qed.

(** C25: the authority of a connection never widens.  The accepted answers
    follow one another: each was requested after the previous one had been
    accepted, with the grant the previous one handed over, and keeps every fact
    the server had reported; all are for the same identity and binding, and
    without a renewal the expiry is the original one.  Once the connection is
    cancelled, it stays so and no check passes any more. *)
Theorem export_authority_kept hex_sha256 i g c :
  reached hex_sha256 i g c →
  (∀ x, x ∈ accepted (history c) → proper hex_sha256 i (initial (auth c)) x) ∧
  (∀ j k x y, (j < k)%nat → accepted (history c) !! j = Some x → accepted (history c) !! k = Some y → later x y) ∧
  (∀ j x y, accepted (history c) !! j = Some x → accepted (history c) !! S j = Some y → sent y = next x) ∧
  (∀ c', rtc (step hex_sha256) c c' → cancelled (auth c) = true →
     cancelled (auth c') = true ∧ history c' = history c).
Proof.
  intros (p0 & Hinv & Hp0)%reached_inv. rewrite Hp0. destruct (inv_history _ _ _ _ Hinv) as [H1 H2 H3 H4].
  split_and!; [intros x Hx; by apply H1|done|done|].
  intros c' Hsteps Hc. clear - Hsteps Hc. induction Hsteps as [c|c c1 c2 Hs _ IH]; [done|].
  destruct (cancelled_step _ _ _ Hs Hc) as [Hc1 Hh1]. destruct (IH Hc1) as [Hc2 Hh2]. split; [done|congruence].
Qed.
