(* ===== verification/RecoveryStream.v ===== *)
(** * The recovery stream
      (src/internal/skillexport/recovery_wire.go, recovery_relay.go,
       src/internal/skillmanager/recovery.go, recovery_content.go)

    Stopped work too large for a manifest is sent as a header with counts and
    an ordered digest, every entry with its content and, behind the content,
    the claims about it, and a footer.  [WriteRecovery] lets a source drive a
    writer that checks each call, [RelayRecovery] copies the stream while it
    recomputes counts and digest.  Both work on the wire of [ExportStream]. *)

From S2P Require Import Prelude GoText GoTime GoJson GoUtf8 GoJsonText GoJsonValue GoJsonDecode GoJsonStruct.
From S2P Require Import Manifest ManifestCodec SkillContent StartResult Ledger DevicePayload Deployment Finalization NodeExport.
From S2P Require Import ExportStream.
From Stdlib.Strings Require Import Ascii.

(** ** Hashing and verification *)

(** What a pass over a tree observed; the private evidence about inodes is
    left out. *)
Record RecoveryObservation := mkRecovered {
  Entries : Z;
  FileBytes : Z;
  FileObjects : Z;
  TreeDigest : string
}.

(** A running hash is the bytes written to it. *)
Record RecoveryHasher := mkHasher { hashed : list Z; entries : Z; bytes : Z; files : Z }.

Definition NewRecoveryHasher : RecoveryHasher :=
  mkHasher (codes (Manifest.writeField "agent-remote-skill-recovery-tree-v1")) 0 0 0.

Definition is_file (e : Manifest.Entry) : bool := String.eqb (Manifest.Kind e) "file".

(** The hash and classification that stand in for the missing ones. *)
Definition shape_digest : string := "0000000000000000000000000000000000000000000000000000000000000000".

Definition with_shape (e : Manifest.Entry) : Manifest.Entry :=
  e <| Manifest.SHA256 := shape_digest |> <| Manifest.ContentKind := "binary" |>.

Section Recovery.
Context (IsNormalString : string → bool) (hex_sha256 : list Z → string).

Definition valid_entry (e : Manifest.Entry) : bool := is_ok (Manifest.validateEntry IsNormalString e).

(** [Add] *)
Definition Add (h : RecoveryHasher) (e : Manifest.Entry) : option RecoveryHasher :=
  if negb (valid_entry e) then None
  else if (entries h =? max_int64) || (max_int64 - bytes h <? Manifest.Size e) then None
  else Some (mkHasher (hashed h ++ concat (map (λ f, codes (Manifest.writeField f)) (Manifest.entry_fields e)))
               (entries h + 1) (bytes h + Manifest.Size e) (if is_file e then files h + 1 else files h)).

(** [Observation] *)
Definition Observation_ (h : RecoveryHasher) : RecoveryObservation :=
  mkRecovered (entries h) (bytes h) (files h) (hex_sha256 (hashed h)).

Definition ValidateRecoveryStart (e : Manifest.Entry) : bool :=
  if is_file e then
    if negb (String.eqb (Manifest.SHA256 e) "") || negb (String.eqb (Manifest.ContentKind e) "") then false
    else valid_entry (with_shape e)
  else valid_entry e.

Definition NewRecoveryFileVerifier (start : Manifest.Entry) : option ContentVerifier :=
  if ValidateRecoveryStart start then
    match NewContentVerifier IsNormalString (with_shape start) with Ok v => Some v | Err _ => None end
  else None.

(** [Complete]: the claims behind the content. *)
Definition Complete (v : ContentVerifier) (sha kind : string) : option Manifest.Entry :=
  let v := v <| entry := (entry v) <| Manifest.SHA256 := sha |> <| Manifest.ContentKind := kind |> |> in
  if valid_entry (entry v) && is_ok (Finish hex_sha256 v) then Some (entry v) else None.
End Recovery.

(** ** Frames *)

Module RecoveryHeader.
Record RecoveryHeader := mk {
  Version : Z;
  Binding : NodeExportBinding;
  RecoveryDigest : string;
  Unclean : bool;
  Entries : Z;
  FileBytes : Z;
  FileObjects : Z
}.

Definition fields : list (field RecoveryHeader) := [
  int_field "version" Version (λ x r, r <| Version := x |>);
  sub_field "binding" Binding (λ x r, r <| Binding := x |>) (encode_struct ExportBinding.fields)
    (λ _ j, ExportBinding.of_json j);
  str_field "recovery_digest" RecoveryDigest (λ x r, r <| RecoveryDigest := x |>);
  bool_field "unclean" Unclean (λ x r, r <| Unclean := x |>);
  int_field "entries" Entries (λ x r, r <| Entries := x |>);
  int_field "file_bytes" FileBytes (λ x r, r <| FileBytes := x |>);
  int_field "file_objects" FileObjects (λ x r, r <| FileObjects := x |>)].

Definition zero : RecoveryHeader := mk 0 ExportBinding.zero "" false 0 0 0.

(** [^[a-f0-9]{64}$] *)
Definition recoveryDigestPattern : string → bool := hex64.

Definition validate (h : RecoveryHeader) : bool :=
  (Version h =? 1) && ExportBinding.Validate (Binding h) && recoveryDigestPattern (RecoveryDigest h) &&
  (0 <=? Entries h) && (0 <=? FileBytes h) && (0 <=? FileObjects h) && (FileObjects h <=? Entries h) &&
  negb ((FileObjects h =? 0) && negb (FileBytes h =? 0)).

Definition observation (h : RecoveryHeader) : Observation := mkObservation (Binding h) (RecoveryDigest h) (Unclean h).

Definition matches (h : RecoveryHeader) (o : RecoveryObservation) : bool :=
  String.eqb (RecoveryDigest h) (TreeDigest o) && (Entries h =? RecoveryStream.Entries o) &&
  (FileBytes h =? RecoveryStream.FileBytes o) && (FileObjects h =? RecoveryStream.FileObjects o).

Definition text (h : RecoveryHeader) : string := print_value compact 0 (encode_struct fields h).
End RecoveryHeader.
Export RecoveryHeader(RecoveryHeader).

Module RecoveryFooter.
Record recoveryCompletion := mk {
  Version : Z;
  RecoveryDigest : string;
  Entries : Z;
  FileBytes : Z;
  FileObjects : Z;
  Complete : bool
}.

#[global] Instance eq_dec : EqDecision recoveryCompletion.
Proof. solve_decision. Defined.

Definition fields : list (field recoveryCompletion) := [
  int_field "version" Version (λ x r, r <| Version := x |>);
  str_field "recovery_digest" RecoveryDigest (λ x r, r <| RecoveryDigest := x |>);
  int_field "entries" Entries (λ x r, r <| Entries := x |>);
  int_field "file_bytes" FileBytes (λ x r, r <| FileBytes := x |>);
  int_field "file_objects" FileObjects (λ x r, r <| FileObjects := x |>);
  bool_field "complete" Complete (λ x r, r <| Complete := x |>)].

Definition zero : recoveryCompletion := mk 0 "" 0 0 0 false.

Definition text (c : recoveryCompletion) : string := print_value compact 0 (encode_struct fields c).

(** [completion] *)
Definition of_header (h : RecoveryHeader) : recoveryCompletion :=
  mk 1 (RecoveryHeader.RecoveryDigest h) (RecoveryHeader.Entries h) (RecoveryHeader.FileBytes h)
    (RecoveryHeader.FileObjects h) true.
End RecoveryFooter.
Export RecoveryFooter(recoveryCompletion).

Module RecoveryContent.
Record recoveryContent := mk { SHA256 : string; ContentKind : string }.

Definition fields : list (field recoveryContent) := [
  str_field "sha256" SHA256 (λ x r, r <| SHA256 := x |>);
  str_field "content_kind" ContentKind (λ x r, r <| ContentKind := x |>)].

Definition zero : recoveryContent := mk "" "".

Definition text (c : recoveryContent) : string := print_value compact 0 (encode_struct fields c).
End RecoveryContent.
Export RecoveryContent(recoveryContent).

Definition start_text (e : Manifest.Entry) : string := print_value compact 0 (manifest_entry_value e).

(** [RecoveryMagic] *)
Definition RecoveryMagic : list Z := codes "ARSKRC" ++ [0; 1].

Definition recoveryEntryBytes : Z := 64 * 2 ^ 10.
Definition recovery_frame_bytes : Z := 4096.

Definition recovery_header_names : list string :=
  ["version"; "binding"; "recovery_digest"; "unclean"; "entries"; "file_bytes"; "file_objects"].
Definition recovery_footer_names : list string :=
  ["version"; "recovery_digest"; "entries"; "file_bytes"; "file_objects"; "complete"].
Definition recovery_content_names : list string := ["sha256"; "content_kind"].

Section Streams.
Context (IsNormalString : string → bool) (hex_sha256 : list Z → string).
Context {W : Type} `{ExportWorld W}.

#[local] Abbreviation Observation_ := (RecoveryStream.Observation_ hex_sha256).
#[local] Abbreviation ValidateRecoveryStart := (RecoveryStream.ValidateRecoveryStart IsNormalString).

(** ** Relaying *)

Definition relayRecoveryFile (start : Manifest.Entry) : stream W Manifest.Entry :=
  verifier ← of_option (NewRecoveryFileVerifier IsNormalString start);
  let size := Z.to_nat (Manifest.Size start) in
  content ← limited size;
  _ ← write content;
  _ ← require_stream (size <=? length content)%nat;
  claims ← readExportFrame (plain_struct RecoveryContent.fields RecoveryContent.zero) recovery_frame_bytes
             recovery_content_names;
  e ← of_option (Complete IsNormalString hex_sha256 (Write verifier content).1
                   (RecoveryContent.SHA256 claims) (RecoveryContent.ContentKind claims));
  _ ← writeFrame (RecoveryContent.text claims) recovery_frame_bytes;
  mret e.

(** What the relay asks of the start of an entry, given what it has seen. *)
Definition start_allowed (h : RecoveryHeader) (seen : RecoveryObservation) (start : Manifest.Entry) : bool :=
  ValidateRecoveryStart start &&
  (Manifest.Size start <=? RecoveryHeader.FileBytes h - FileBytes seen) &&
  negb (is_file start && (RecoveryHeader.FileObjects h <=? FileObjects seen)).

Fixpoint relay_entries (h : RecoveryHeader) (n : nat) (hasher : RecoveryHasher) : stream W RecoveryHasher :=
  match n with
  | O => mret hasher
  | S n =>
      _ ← alive;
      _ ← check (RecoveryHeader.observation h) false;
      start ← readExportFrame (λ text _, entry_of_text text) recoveryEntryBytes ManifestCodec.entry_names;
      _ ← require_stream (start_allowed h (Observation_ hasher) start);
      _ ← writeFrame (start_text start) recoveryEntryBytes;
      e ← (if is_file start then relayRecoveryFile start else mret start);
      hasher ← of_option (Add IsNormalString hasher e);
      _ ← check (RecoveryHeader.observation h) false;
      relay_entries h n hasher
  end.

Definition RelayRecovery : stream W unit :=
  magic ← read_full (length RecoveryMagic);
  _ ← require_stream (bool_decide (magic = RecoveryMagic));
  h ← readExportFrame (plain_struct RecoveryHeader.fields RecoveryHeader.zero) recovery_frame_bytes recovery_header_names;
  _ ← require_stream (RecoveryHeader.validate h);
  _ ← check (RecoveryHeader.observation h) true;
  _ ← write RecoveryMagic;
  _ ← writeFrame (RecoveryHeader.text h) recovery_frame_bytes;
  hasher ← relay_entries h (Z.to_nat (RecoveryHeader.Entries h)) NewRecoveryHasher;
  _ ← require_stream (RecoveryHeader.matches h (Observation_ hasher));
  footer ← readExportFrame (plain_struct RecoveryFooter.fields RecoveryFooter.zero) recovery_frame_bytes
             recovery_footer_names;
  _ ← require_stream (bool_decide (footer = RecoveryFooter.of_header h));
  _ ← at_eof;
  _ ← check (RecoveryHeader.observation h) true;
  _ ← alive;
  writeFrame (RecoveryFooter.text footer) recovery_frame_bytes.

(** ** Writing *)

(** [recoveryWriter]: the entry that was begun, and its verifier if it is a
    file. *)
Record recoveryWriter := mkWriter {
  hasher : RecoveryHasher;
  current : option Manifest.Entry;
  verifier : option ContentVerifier
}.

(** A call of the source on its sink; bytes go to the writer that the last
    [Begin] returned, which is not used behind its [End]. *)
Inductive sink_call :=
  | Begin (e : Manifest.Entry)
  | Bytes (data : list Z)
  | End_ (e : Manifest.Entry).

Definition sink_begin (h : RecoveryHeader) (w : recoveryWriter) (e : Manifest.Entry) : stream W recoveryWriter :=
  _ ← alive;
  let seen := Observation_ (hasher w) in
  _ ← require_stream (negb (is_some (current w)) && ValidateRecoveryStart e && (Entries seen <? RecoveryHeader.Entries h) &&
                      (Manifest.Size e <=? RecoveryHeader.FileBytes h - FileBytes seen));
  _ ← writeFrame (start_text e) recoveryEntryBytes;
  if is_file e then
    v ← of_option (NewRecoveryFileVerifier IsNormalString e);
    mret (mkWriter (hasher w) (Some e) (Some v))
  else mret (mkWriter (hasher w) (Some e) (verifier w)).

(** The multi-writer stops at the verifier's refusal. *)
Definition sink_bytes (w : recoveryWriter) (data : list Z) : stream W recoveryWriter :=
  v ← of_option (verifier w);
  let '(v, ok) := Write v data in
  _ ← require_stream ok;
  _ ← write data;
  mret (w <| verifier := Some v |>).

Definition sink_end (w : recoveryWriter) (e : Manifest.Entry) : stream W recoveryWriter :=
  begun ← of_option (current w);
  _ ← (if is_file e then
         v ← of_option (verifier w);
         actual ← of_option (Complete IsNormalString hex_sha256 v (Manifest.SHA256 e) (Manifest.ContentKind e));
         _ ← require_stream (bool_decide (actual = e));
         writeFrame (RecoveryContent.text (RecoveryContent.mk (Manifest.SHA256 e) (Manifest.ContentKind e)))
           recovery_frame_bytes
       else require_stream (bool_decide (e = begun)));
  hasher ← of_option (Add IsNormalString (hasher w) e);
  _ ← alive;
  mret (mkWriter hasher None None).

Definition sink_step (h : RecoveryHeader) (w : recoveryWriter) (c : sink_call) : stream W recoveryWriter :=
  match c with
  | Begin e => sink_begin h w e
  | Bytes data => sink_bytes w data
  | End_ e => sink_end w e
  end.

Fixpoint sink_calls (h : RecoveryHeader) (w : recoveryWriter) (calls : list sink_call) : stream W recoveryWriter :=
  match calls with
  | [] => mret w
  | c :: rest => w ← sink_step h w c; sink_calls h w rest
  end.

(** What [WriteRecovery] knows of its source: its observation, the calls that
    [Stream] makes (the first refused one ends it) and whether it then succeeds,
    and the final verification. *)
Record recovery_source := mkRecoverySource {
  Observation_of : RecoveryObservation;
  Unclean_of : bool;
  stream_calls : list sink_call;
  stream_ok : bool;
  verify_ok : bool
}.

Definition recovery_header (binding : NodeExportBinding) (source : recovery_source) : RecoveryHeader :=
  let observed := Observation_of source in
  RecoveryHeader.mk 1 binding (TreeDigest observed) (Unclean_of source) (Entries observed) (FileBytes observed)
    (FileObjects observed).

Definition WriteRecovery (binding : NodeExportBinding) (source : recovery_source) : stream W unit :=
  let h := recovery_header binding source in
  _ ← require_stream (RecoveryHeader.validate h);
  _ ← write RecoveryMagic;
  _ ← writeFrame (RecoveryHeader.text h) recovery_frame_bytes;
  w ← sink_calls h (mkWriter NewRecoveryHasher None None) (stream_calls source);
  _ ← require_stream (stream_ok source);
  _ ← require_stream (negb (is_some (current w)) && RecoveryHeader.matches h (Observation_ (hasher w)));
  _ ← require_stream (verify_ok source);
  _ ← alive;
  writeFrame (RecoveryFooter.text (RecoveryFooter.of_header h)) recovery_frame_bytes.
End Streams.
