(* ===== verification/RecoveryFacts.v ===== *)
(** * The recovery stream: what reaches the output

    The relay and the writer of a recovery produce parts of the same canonical
    stream; its footer appears only behind entries whose number, bytes, files
    and ordered digest are those of the header. *)

From S2P Require Import Prelude GoText GoTime GoJson GoUtf8 GoJsonText GoJsonValue GoJsonDecode GoJsonStruct.
From S2P Require Import Manifest ManifestCodec SkillContent StartResult Ledger DevicePayload Deployment Finalization NodeExport.
From S2P Require Import ExportStream ExportStreamFacts RecoveryStream.
From Stdlib.Strings Require Import Ascii.

(** ** The canonical stream *)

(** A complete entry with its content. *)
Definition item : Type := Manifest.Entry * list Z.

(** The entry as it is announced, before its content is known. *)
Definition provisional (e : Manifest.Entry) : Manifest.Entry :=
  if is_file e then e <| Manifest.SHA256 := "" |> <| Manifest.ContentKind := "" |> else e.

Definition claims_text (e : Manifest.Entry) : string :=
  RecoveryContent.text (RecoveryContent.mk (Manifest.SHA256 e) (Manifest.ContentKind e)).

Definition item_bytes (x : item) : list Z :=
  frame (start_text (provisional x.1)) ++ (if is_file x.1 then x.2 ++ frame (claims_text x.1) else []).

Definition items_bytes (items : list item) : list Z := concat (map item_bytes items).

Definition recovery_head (h : RecoveryHeader) : list Z := RecoveryMagic ++ frame (RecoveryHeader.text h).

Definition recovery_bytes (h : RecoveryHeader) (items : list item) : list Z :=
  recovery_head h ++ items_bytes items ++ frame (RecoveryFooter.text (RecoveryFooter.of_header h)).

Lemma items_bytes_snoc items x : items_bytes (items ++ [x]) = items_bytes items ++ item_bytes x.
Proof. unfold items_bytes. rewrite map_app, concat_app. cbn. by rewrite app_nil_r. Qed.

Section Facts.
Context (IsNormalString : string → bool) (hex_sha256 : list Z → string).

#[local] Abbreviation Add := (RecoveryStream.Add IsNormalString).
#[local] Abbreviation Observation_ := (RecoveryStream.Observation_ hex_sha256).
#[local] Abbreviation ValidateRecoveryStart := (RecoveryStream.ValidateRecoveryStart IsNormalString).
#[local] Abbreviation valid_entry := (RecoveryStream.valid_entry IsNormalString).

(** A valid entry whose content is what it claims. *)
Definition recovered (x : item) : Prop :=
  valid_entry x.1 = true ∧
  if is_file x.1 then is_ok (VerifyContent IsNormalString hex_sha256 x.1 x.2) = true else x.2 = [].

Definition add_all (hasher : RecoveryHasher) (items : list item) : option RecoveryHasher :=
  foldl (λ acc x, hasher ← acc; Add hasher x.1) (Some hasher) items.

Lemma add_all_snoc hasher items x : add_all hasher (items ++ [x]) = (hasher ← add_all hasher items; Add hasher x.1).
Proof. unfold add_all. by rewrite foldl_app. Qed.

(** ** Files *)

Lemma is_file_kind e : is_file e = true → Manifest.Kind e = "file".
Proof. apply String.eqb_eq. Qed.

Lemma new_file_verifier start v :
  NewRecoveryFileVerifier IsNormalString start = Some v →
  is_file start = true ∧ provisional start = start ∧ NewContentVerifier IsNormalString (with_shape start) = Ok v.
Proof.
  unfold NewRecoveryFileVerifier, RecoveryStream.ValidateRecoveryStart, provisional.
  destruct (is_file start) eqn:Ef.
  - destruct (_ || _) eqn:Ec; [done|]. destruct (RecoveryStream.valid_entry _ _); [|done].
    destruct (NewContentVerifier _ _) as [v'|] eqn:Ev; [|done]. intros [= <-].
    rewrite orb_false_iff, !negb_false_iff, !String.eqb_eq in Ec. destruct Ec as [Hs Hk].
    split_and!; [done| |done]. destruct start. cbn in *. by subst.
  - destruct (RecoveryStream.valid_entry _ _); [|done]. unfold NewContentVerifier.
    destruct (validateEntry _ _) as [[]|]; [|done]. cbn. unfold is_file in Ef. by rewrite Ef.
Qed.

Lemma consumed_entry e e' v seen :
  Manifest.Size e' = Manifest.Size e → consumed_stream e v seen → consumed_stream e' (v <| entry := e' |>) seen.
Proof. intros Hs [He Hv]. split; [done|]. cbn. by rewrite Hs. Qed.

(** The claims are accepted exactly for the content that was consumed. *)
Lemma complete_recovered start v0 v content sha kind e :
  NewRecoveryFileVerifier IsNormalString start = Some v0 → consumed_stream (with_shape start) v content →
  Complete IsNormalString hex_sha256 v sha kind = Some e →
  is_file e = true ∧ provisional e = start ∧ Manifest.SHA256 e = sha ∧ Manifest.ContentKind e = kind ∧
  recovered (e, content).
Proof.
  intros (Hf & Hp & Hv0)%new_file_verifier Hc. unfold Complete.
  set (e' := (entry v) <| Manifest.SHA256 := sha |> <| Manifest.ContentKind := kind |>).
  change (entry (v <| entry := e' |>)) with e'. destruct (_ && _) eqn:Eok; [|done]. intros [= <-]. apply andb_true_iff in Eok as [Hval Hfin].
  assert (He' : e' = start <| Manifest.SHA256 := sha |> <| Manifest.ContentKind := kind |>).
  { unfold e'. destruct Hc as [-> _]. by destruct start. }
  assert (Hfe : is_file e' = true) by (rewrite He'; exact Hf).
  split_and!; [done| |done|done|].
  - unfold provisional. rewrite Hfe, He'. unfold provisional in Hp. rewrite Hf in Hp. rewrite <- Hp at 2. by destruct start.
  - split; [exact Hval|]. cbn [fst snd]. rewrite Hfe. etransitivity; [symmetry|exact Hfin].
    assert (Hnew : NewContentVerifier IsNormalString e' = Ok (mkVerifier e' [] (mkClassifier [] false) 0 false)).
    { unfold NewContentVerifier. unfold RecoveryStream.valid_entry in Hval.
      destruct (validateEntry IsNormalString e') as [[]|]; [|done]. cbn [mbind result_bind].
      change (String.eqb (Manifest.Kind e') "file") with (is_file e'). by rewrite Hfe. }
    apply (finish_consumed IsNormalString hex_sha256 e' _ (v <| entry := e' |>) content Hnew).
    apply (consumed_entry (with_shape start)); [by rewrite He'|done].
Qed.

Context {W : Type} `{ExportWorld W}.

(** ** The relay *)

#[local] Abbreviation fresh h n := (RecoveryHeader.observation h, true, n%nat).

(** A part of the next item: its announcement with some of its content, or, of
    a verified item, anything. *)
Definition begun_item (part : list Z) : Prop :=
  (∃ start data, ValidateRecoveryStart start = true ∧ (length data ≤ Z.to_nat (Manifest.Size start))%nat ∧
                 part `prefix_of` frame (start_text start) ++ data) ∨
  (∃ x, recovered x ∧ part `prefix_of` item_bytes x).

Definition recovering (h : RecoveryHeader) (w : wire W) : Prop :=
  ∃ items part, Forall recovered items ∧ outgoing w = recovery_head h ++ items_bytes items ++ part ∧
    (part = [] ∨
     (RecoveryHeader.observation h, false, length (recovery_head h ++ items_bytes items)) ∈ granted w ∧ begun_item part).

(** All items of the header were sent, and an authorization proved afresh
    behind the last of them. *)
Definition recovery_closing (h : RecoveryHeader) (items : list item) (w : wire W) : Prop :=
  Forall recovered items ∧ Z.of_nat (length items) = RecoveryHeader.Entries h ∧
  (∃ hasher, add_all NewRecoveryHasher items = Some hasher ∧ RecoveryHeader.matches h (Observation_ hasher) = true) ∧
  fresh h (length (recovery_head h ++ items_bytes items)) ∈ granted w ∧
  outgoing w `prefix_of` recovery_bytes h items.

Definition recovery_gated (w : wire W) : Prop :=
  outgoing w = [] ∨
  ∃ h, RecoveryHeader.validate h = true ∧ fresh h 0 ∈ granted w ∧
    (outgoing w `prefix_of` recovery_head h ∨ recovering h w ∨ ∃ items, recovery_closing h items w).

(** What may follow the announcement of a file. *)
Definition begun_content (start : Manifest.Entry) (part : list Z) : Prop :=
  (length part ≤ Z.to_nat (Manifest.Size start))%nat ∨
  ∃ e data, recovered (e, data) ∧ is_file e = true ∧ provisional e = start ∧ part `prefix_of` data ++ frame (claims_text e).

Lemma triple_relay_file start out gr (E : wire W → Prop) :
  (∀ part w, begun_content start part → standing (out ++ part) gr w → E w) →
  triple (standing out gr) (relayRecoveryFile IsNormalString hex_sha256 start)
    (λ e w, ∃ data, recovered (e, data) ∧ is_file e = true ∧ provisional e = start ∧
                    standing (out ++ data ++ frame (claims_text e)) gr w) E.
Proof.
  intros HE.
  assert (Hshort : ∀ data w, (length data ≤ Z.to_nat (Manifest.Size start))%nat → standing (out ++ data) gr w → E w).
  { intros data w Hl Hw. apply (HE data w); [by left|done]. }
  assert (Hnil : ∀ w, standing out gr w → E w) by (intros w Hw; apply (Hshort [] w); [cbn; lia|by rewrite app_nil_r]).
  unfold relayRecoveryFile. eapply triple_bind; [by apply triple_option|]. intros v0 w [Hw Hv0]. revert w Hw.
  eapply triple_bind; [apply triple_limited|]. intros content w [Hw Hl]. revert w Hw.
  eapply triple_bind.
  { eapply triple_weaken; [apply triple_write|intros ? w Hw; exact Hw|]. intros w [k Hw].
    apply (Hshort (take k content)); [rewrite length_take; lia|exact Hw]. }
  assert (Hcontent : ∀ w, standing (out ++ content) gr w → E w) by (intros; by eapply Hshort).
  intros []. eapply triple_bind; [by apply triple_require|]. intros [] w [Hw _]. revert w Hw.
  eapply triple_bind; [by apply triple_frame|]. intros claims.
  eapply triple_bind; [by apply triple_option|]. intros e w [Hw Hcomplete]. revert w Hw.
  destruct (new_file_verifier _ _ Hv0) as (Hf & _ & Hnew).
  apply (complete_recovered start v0 _ content) in Hcomplete as (Hfe & Hpe & Hsha & Hkind & Hrec); [|done|].
  2:{ apply (Write_consumed _ _ [] content), (new_consumed IsNormalString _ _ Hnew). }
  assert (Hclaims : RecoveryContent.text claims = claims_text e).
  { unfold claims_text. rewrite Hsha, Hkind. by destruct claims. }
  rewrite Hclaims. eapply triple_bind.
  { apply triple_writeFrame. intros w part Hp Hw. apply (HE (content ++ part)).
    - right. exists e, content. split_and!; [done..|]. by apply prefix_app.
    - by rewrite (assoc_L (++)). }
  intros [] w Hw. exists content. split_and!; [done..|]. by rewrite (assoc_L (++)).
Qed.

Lemma begun_announced start part :
  ValidateRecoveryStart start = true → part `prefix_of` frame (start_text start) → begun_item part.
Proof.
  intros Hv Hp. left. exists start, []. split_and!; [done|cbn; lia|by apply prefix_app_r].
Qed.

Lemma begun_file start part :
  ValidateRecoveryStart start = true → begun_content start part → begun_item (frame (start_text start) ++ part).
Proof.
  intros Hv [Hl|(e & data & Hrec & Hf & Hp & Hpre)].
  - left. by exists start, part.
  - right. exists (e, data). split; [done|]. unfold item_bytes. cbn [fst snd]. rewrite Hf, Hp. by apply prefix_app.
Qed.

Lemma triple_relay_entries h n : ∀ items hasher gr,
  add_all NewRecoveryHasher items = Some hasher → Forall recovered items → fresh h 0 ∈ gr →
  triple (standing (recovery_head h ++ items_bytes items) gr) (relay_entries IsNormalString hex_sha256 h n hasher)
    (λ hasher' w, ∃ items', length items' = (length items + n)%nat ∧ Forall recovered items' ∧
       add_all NewRecoveryHasher items' = Some hasher' ∧ outgoing w = recovery_head h ++ items_bytes items' ∧
       fresh h 0 ∈ granted w)
    (λ w, fresh h 0 ∈ granted w ∧ recovering h w).
Proof.
  induction n as [|n IH]; intros items hasher gr Hadd Hrec H0; cbn [relay_entries].
  { intros w [Ho Hg]. exists items. rewrite Nat.add_0_r, Hg. by split_and!. }
  set (out := recovery_head h ++ items_bytes items). set (g := (RecoveryHeader.observation h, false, length out)).
  assert (Hpart : ∀ gr' part w, gr ⊆ gr' → (part = [] ∨ g ∈ gr' ∧ begun_item part) → standing (out ++ part) gr' w →
    fresh h 0 ∈ granted w ∧ recovering h w).
  { intros gr' part w Hsub Hp [Ho Hgw]. split; [rewrite Hgw; by apply Hsub|]. exists items, part.
    rewrite Hgw. split_and!; [done| |done]. rewrite Ho. unfold out. by rewrite <- (assoc_L (++)). }
  assert (Hnil : ∀ gr' w, gr ⊆ gr' → standing out gr' w → fresh h 0 ∈ granted w ∧ recovering h w).
  { intros gr' w Hsub Hw. apply (Hpart gr' []); [done|by left|by rewrite app_nil_r]. }
  eapply triple_bind; [by apply triple_alive; intros; apply (Hnil gr)|]. intros [].
  eapply triple_bind.
  { eapply triple_weaken; [apply triple_check|intros ? w Hw; exact Hw|]. intros w Hw. by apply (Hnil gr). }
  fold g. set (gr' := gr ++ [g]). assert (Hgr : gr ⊆ gr') by set_solver. assert (Hg : g ∈ gr') by set_solver.
  intros []. eapply triple_bind; [by apply triple_frame; intros; apply (Hnil gr')|]. intros start.
  eapply triple_bind; [by apply triple_require; intros; apply (Hnil gr')|]. intros [] w [Hw Hallow]. revert w Hw.
  unfold start_allowed in Hallow. rewrite !andb_true_iff in Hallow. destruct Hallow as [[Hstart _] _].
  eapply triple_bind.
  { apply triple_writeFrame. intros w part Hp Hw. apply (Hpart gr' part); [done| |done]. right.
    split; [done|]. by apply (begun_announced start). }
  intros []. eapply triple_bind.
  { instantiate (1 := λ e w, ∃ data, recovered (e, data) ∧ standing (out ++ item_bytes (e, data)) gr' w).
    destruct (is_file start) eqn:Ef.
    - eapply triple_weaken; [apply triple_relay_file| |intros w Hw; exact Hw].
      + intros part w Hp Hw. apply (Hpart gr' (frame (start_text start) ++ part)); [done| |by rewrite (assoc_L (++))].
        right. split; [done|]. by apply begun_file.
      + intros e w (data & Hr & Hfe & Hpe & Hw). exists data. split; [done|]. unfold item_bytes. cbn [fst snd].
        by rewrite Hfe, Hpe, (assoc_L (++)).
    - intros w Hw. exists []. unfold ValidateRecoveryStart in Hstart. rewrite Ef in Hstart. split.
      + split; [done|]. cbn [fst snd]. by rewrite Ef.
      + unfold item_bytes, provisional. cbn [fst snd]. by rewrite Ef, app_nil_r. }
  intros e w (data & Hr & Hw). revert w Hw.
  assert (Hitem : ∀ gr'' w, gr' ⊆ gr'' → standing (out ++ item_bytes (e, data)) gr'' w →
    fresh h 0 ∈ granted w ∧ recovering h w).
  { intros gr'' w Hsub Hw. apply (Hpart gr'' (item_bytes (e, data))); [set_solver| |done].
    right. split; [set_solver|]. right. by exists (e, data). }
  eapply triple_bind; [by apply triple_option; intros; apply (Hitem gr')|]. intros hasher' w [Hw Hh]. revert w Hw.
  eapply triple_bind.
  { eapply triple_weaken; [apply triple_check|intros ? w Hw; exact Hw|]. intros w Hw. by apply (Hitem gr'). }
  intros []. eapply triple_weaken; [eapply triple_pre; [|apply (IH (items ++ [(e, data)]) hasher')]| |done].
  - intros w [Ho Hgw]. split; [rewrite Ho, items_bytes_snoc; unfold out; by rewrite <- (assoc_L (++))|exact Hgw].
  - rewrite add_all_snoc, Hadd. exact Hh.
  - apply Forall_app. split; [done|by constructor].
  - set_solver.
  - intros hasher'' w (items' & Hlen & Hrest). exists items'. rewrite length_app in Hlen. cbn in Hlen.
    split; [lia|done].
Qed.

Lemma closing_of h items part gr w :
  Forall recovered items → Z.of_nat (length items) = RecoveryHeader.Entries h →
  (∃ hasher, add_all NewRecoveryHasher items = Some hasher ∧ RecoveryHeader.matches h (Observation_ hasher) = true) →
  fresh h (length (recovery_head h ++ items_bytes items)) ∈ gr →
  part `prefix_of` frame (RecoveryFooter.text (RecoveryFooter.of_header h)) →
  standing ((recovery_head h ++ items_bytes items) ++ part) gr w → recovery_closing h items w.
Proof.
  intros H1 H2 H3 H4 H5 [Ho <-]. split_and!; [done..|]. rewrite Ho. unfold recovery_bytes.
  rewrite <- (assoc_L (++)). by do 2 apply prefix_app.
Qed.

(** The relay behind the last entry. *)
Definition recovery_end (h : RecoveryHeader) : stream W unit :=
  footer ← readExportFrame (plain_struct RecoveryFooter.fields RecoveryFooter.zero) recovery_frame_bytes
             recovery_footer_names;
  _ ← require_stream (bool_decide (footer = RecoveryFooter.of_header h));
  _ ← at_eof;
  _ ← check (RecoveryHeader.observation h) true;
  _ ← alive;
  writeFrame (RecoveryFooter.text footer) recovery_frame_bytes.

Lemma triple_recovery_end h items hasher gr :
  RecoveryHeader.validate h = true → Forall recovered items → Z.of_nat (length items) = RecoveryHeader.Entries h →
  add_all NewRecoveryHasher items = Some hasher → RecoveryHeader.matches h (Observation_ hasher) = true →
  fresh h 0 ∈ gr →
  triple (standing (recovery_head h ++ items_bytes items) gr) (recovery_end h)
    (λ _ w, recovery_gated w ∧ recovery_closing h items w ∧ outgoing w = recovery_bytes h items) recovery_gated.
Proof.
  intros Hval Hrec Hlen Hadd Hm H0.
  assert (Hsent : ∀ w, standing (recovery_head h ++ items_bytes items) gr w → recovery_gated w).
  { intros w [Ho Hg]. right. exists h. split_and!; [done|by rewrite Hg|]. right; left.
    exists items, []. rewrite app_nil_r. split_and!; [done|done|by left]. }
  unfold recovery_end. eapply triple_bind; [by apply triple_frame|]. intros footer.
  eapply triple_bind; [by apply triple_require|]. intros [] w [Hw Heq%bool_decide_eq_true]. revert w Hw. subst footer.
  eapply triple_bind.
  { intros w Hw. unfold at_eof. instantiate (1 := λ _, standing (recovery_head h ++ items_bytes items) gr).
    destruct (incoming w); [destruct (torn w)|]; (exact Hw || by apply Hsent). }
  intros []. eapply triple_bind; [eapply triple_weaken; [apply triple_check|intros ? w Hw; exact Hw|exact Hsent]|].
  set (gr' := gr ++ _).
  assert (Hclose : ∀ w part, part `prefix_of` frame (RecoveryFooter.text (RecoveryFooter.of_header h)) →
    standing ((recovery_head h ++ items_bytes items) ++ part) gr' w → recovery_gated w ∧ recovery_closing h items w).
  { intros w part Hp Hw. assert (Hc : recovery_closing h items w).
    { eapply closing_of; [done|done|by exists hasher| |exact Hp|exact Hw]. set_solver. }
    split; [|done]. right. exists h. split_and!; [done|destruct Hw as [_ ->]; set_solver|]. right; right. by exists items. }
  intros []. eapply triple_bind.
  { apply triple_alive. intros w Hw. apply (Hclose w []); [apply prefix_nil|by rewrite app_nil_r]. }
  intros []. eapply triple_weaken; [apply triple_writeFrame|intros [] w Hw|intros w Hw; exact Hw].
  - intros w part Hp Hw. by apply (Hclose w part).
  - destruct (Hclose w _ (reflexivity _) Hw) as [Hg Hc]. split_and!; [done|done|].
    destruct Hw as [-> _]. unfold recovery_bytes. by rewrite <- (assoc_L (++)).
Qed.

Lemma triple_recovery gr :
  triple (standing [] gr) (RelayRecovery IsNormalString hex_sha256)
    (λ _ w', recovery_gated w' ∧ ∃ h items, recovery_closing h items w' ∧ outgoing w' = recovery_bytes h items)
    recovery_gated.
Proof.
  assert (Hnil : ∀ gr' w, standing [] gr' w → recovery_gated w) by (intros gr' w1 [Ho _]; by left).
  unfold RelayRecovery. eapply triple_bind; [by apply triple_read; intros; eapply Hnil|]. intros magic.
  eapply triple_bind; [by apply triple_require; intros; eapply Hnil|]. intros [] w1 [Hw _]. revert w1 Hw.
  eapply triple_bind; [by apply triple_frame; intros; eapply Hnil|]. intros h.
  eapply triple_bind; [by apply triple_require; intros; eapply Hnil|]. intros [] w1 [Hw Hval]. revert w1 Hw.
  eapply triple_bind.
  { eapply triple_weaken; [apply triple_check|intros ? w1 Hw; exact Hw|]. intros w1 Hw. by eapply Hnil. }
  set (gr1 := gr ++ [fresh h 0]). assert (H0 : fresh h 0 ∈ gr1) by set_solver.
  assert (Hhead : ∀ w part, part `prefix_of` recovery_head h → standing part gr1 w → recovery_gated w).
  { intros w1 part Hp [Ho Hg]. right. exists h. split_and!; [done|by rewrite Hg|left; by rewrite Ho]. }
  intros []. eapply triple_bind.
  { eapply triple_weaken; [apply triple_write|intros ? w1 Hw; exact Hw|]. intros w1 [k Hw].
    apply (Hhead w1 (take k RecoveryMagic)); [|exact Hw]. unfold recovery_head. apply prefix_app_r, prefix_take. }
  intros []. eapply triple_bind.
  { apply triple_writeFrame. intros w1 part Hp Hw. apply (Hhead w1 (RecoveryMagic ++ part)); [|exact Hw].
    unfold recovery_head. by apply prefix_app. }
  assert (Hsend : ∀ w, fresh h 0 ∈ granted w ∧ recovering h w → recovery_gated w).
  { intros w1 [Hg Hs]. right. exists h. auto. }
  intros []. eapply triple_bind.
  { eapply triple_weaken; [eapply triple_pre; [|by apply (triple_relay_entries h _ [] NewRecoveryHasher gr1)]| |exact Hsend].
    - intros w1 [Ho Hg]. split; [by rewrite Ho, app_nil_r|exact Hg].
    - intros ? w1 Hw. exact Hw. }
  intros hasher w1 (items & Hlen & Hrec & Hadd & Ho & Hg).
  assert (Hgated : recovery_gated w1).
  { apply Hsend. split; [done|]. exists items, []. rewrite app_nil_r. split_and!; [done|done|by left]. }
  unfold mbind at 1, stream_bind at 1. destruct (RecoveryHeader.matches h _) eqn:Hm; [|exact Hgated].
  assert (Hcount : Z.of_nat (length items) = RecoveryHeader.Entries h).
  { rewrite Hlen. cbn. unfold RecoveryHeader.validate in Hval. rewrite !andb_true_iff, !Z.leb_le in Hval. lia. }
  apply (triple_weaken _ _ _ _ _ _ (triple_recovery_end h items hasher _ Hval Hrec Hcount Hadd Hm Hg)); [|done|by split].
  intros ? w2 (Hg2 & Hc & Ho2). split; [done|]. by exists h, items.
Qed.

Lemma recovery_ends_gated w : outgoing w = [] → recovery_gated (RelayRecovery IsNormalString hex_sha256 w).1.
Proof.
  intros Hempty. specialize (triple_recovery (granted w) w (conj Hempty eq_refl)) as Ht.
  destruct (RelayRecovery _ _ w) as [w' [u|]]; [|exact Ht]. apply Ht.
Qed.

(** C14: the relay of a recovery shows, for every input, authorization and
    output, at most a valid header behind a fresh authorization for its facts,
    then whole verified entries and at most a part of one more, begun under a
    check made at its beginning, whose claims appear only if its content bears
    them out, and any byte of the footer only when the number, bytes and files
    of the entries and their ordered digest are those of the header and another
    fresh authorization was proved behind the last entry.  A relay that
    succeeds has written exactly the complete stream. *)
Theorem recovery_relay_gated w :
  outgoing w = [] →
  let '(w', r) := RelayRecovery IsNormalString hex_sha256 w in
  recovery_gated w' ∧
  (r = Some tt → ∃ h items, recovery_closing h items w' ∧ outgoing w' = recovery_bytes h items).
Proof.
  intros Hempty. specialize (triple_recovery (granted w) w (conj Hempty eq_refl)) as Ht.
  destruct (RelayRecovery _ _ w) as [w' [[]|]]; [|by split]. destruct Ht as [Hg Hs]. by split.
Qed.
End Facts.
