(* ===== verification/RecoveryRoundTrip.v ===== *)
(** * The recovery stream: what is written is relayed

    Whatever calls a source makes, a writer that succeeds has written the
    canonical stream of verified entries, and the relay passes that stream on
    byte for byte. *)

From S2P Require Import Prelude GoText GoTime GoJson GoUtf8 GoJsonText GoJsonValue GoJsonDecode GoJsonStruct GoJsonPrint.
From S2P Require Import Manifest ManifestFacts ManifestCodec SkillContent StartResult Ledger DevicePayload.
From S2P Require Import Deployment DeploymentCodec Finalization FinalizationCodec NodeExport.
From S2P Require Import ExportStream ExportStreamFacts ExportRoundTrip RecoveryStream RecoveryFacts.
From Stdlib.Strings Require Import Ascii.

(** ** Totals *)

Section Totals.
Context (IsNormalString : string → bool).

#[local] Abbreviation add_all := (RecoveryFacts.add_all IsNormalString).
#[local] Abbreviation Add := (RecoveryStream.Add IsNormalString).

(** What the counters of a hasher satisfy. *)
Record counted (h : RecoveryHasher) : Prop := {
  counted_entries : 0 ≤ entries h ≤ max_int64;
  counted_bytes : 0 ≤ bytes h ≤ max_int64;
  counted_files : 0 ≤ files h ≤ entries h
}.

Lemma valid_entry_size e : valid_entry IsNormalString e = true → 0 ≤ Manifest.Size e.
Proof.
  unfold valid_entry. destruct (validateEntry IsNormalString e) as [[]|] eqn:E; [|done]. intros _.
  by apply validateEntry_fields in E as (_ & Hs & _).
Qed.

Lemma Add_counted h e h' :
  Add h e = Some h' → counted h →
  counted h' ∧ entries h' = entries h + 1 ∧ bytes h' = bytes h + Manifest.Size e ∧ 0 ≤ Manifest.Size e ∧
  files h' = (if is_file e then files h + 1 else files h).
Proof.
  unfold RecoveryStream.Add. destruct (valid_entry IsNormalString e) eqn:Ev; [|done]. apply valid_entry_size in Ev.
  cbn [negb]. destruct (_ || _) eqn:Eb; [done|]. apply orb_false_iff in Eb as [E1%Z.eqb_neq E2%Z.ltb_ge].
  intros [= <-] [H1 H2 H3]. cbn. split; [|done]. destruct (is_file e); split; cbn; lia.
Qed.

Lemma add_all_none items : foldl (λ acc (x : item), hasher ← acc; Add hasher x.1) None items = None.
Proof. by induction items. Qed.

Lemma add_all_cons h x items h' :
  add_all h (x :: items) = Some h' → ∃ h1, Add h x.1 = Some h1 ∧ add_all h1 items = Some h'.
Proof.
  unfold RecoveryFacts.add_all. cbn [foldl mbind option_bind]. destruct (Add h x.1) as [h1|]; [by exists h1|].
  by rewrite add_all_none.
Qed.

Lemma add_all_counted items : ∀ h h',
  add_all h items = Some h' → counted h →
  counted h' ∧ entries h' = entries h + Z.of_nat (length items) ∧ bytes h ≤ bytes h' ∧ files h ≤ files h'.
Proof.
  induction items as [|x items IH]; intros h h' Hadd Hc; [injection Hadd as <-; cbn; split_and!; [done|lia..]|].
  apply add_all_cons in Hadd as (h1 & H1 & Hadd). destruct (Add_counted _ _ _ H1 Hc) as (Hc1 & He & Hb & Hs & Hf).
  destruct (IH _ _ Hadd Hc1) as (Hc' & He' & Hb' & Hf'). cbn [length]. destruct (is_file x.1); split_and!; try done; lia.
Qed.

Lemma new_counted : counted NewRecoveryHasher.
Proof. split; cbn; unfold max_int64; lia. Qed.
End Totals.

(** ** Texts *)

Section Texts.
Context (IsNormalString : string → bool).

Lemma valid_entry_texts e :
  valid_entry IsNormalString e = true → 0 ≤ Manifest.Mode e → Manifest.Size e ≤ max_int64 →
  ManifestCodec.entry_text e ∧ entry_numbers e.
Proof.
  unfold valid_entry. destruct (validateEntry IsNormalString e) as [[]|] eqn:E; [|done]. intros _.
  by apply (valid_entry_text IsNormalString).
Qed.

(** The announcement of an entry is read back. *)
Lemma start_read e :
  ValidateRecoveryStart IsNormalString e = true → 0 ≤ Manifest.Mode e → Manifest.Size e ≤ max_int64 →
  exportObject ManifestCodec.entry_names (λ text _, entry_of_text text) (start_text e) = Some e.
Proof.
  intros Hv Hm Hs. assert (Ht : ManifestCodec.entry_text e ∧ entry_numbers e).
  { unfold ValidateRecoveryStart in Hv. destruct (is_file e); [|by apply valid_entry_texts].
    destruct (_ || _) eqn:Ec; [done|]. rewrite orb_false_iff, !negb_false_iff, !String.eqb_eq in Ec.
    destruct Ec as [Hsha Hkind]. apply valid_entry_texts in Hv as [Ht Hn]; [|done|done].
    destruct e. unfold ManifestCodec.entry_text, entry_numbers in *. cbn in *. subst.
    decompose_Forall_hyps. split; [|done]. by repeat constructor. }
  destruct Ht as [Ht Hn]. apply object_read.
  - destruct (entry_carried e Ht Hn) as (Hf & Hd & Hdec). split_and!; [done|done|]. intros v current st d Hst Hsame.
    by apply (Hdec v current).
  - split; [reflexivity|]. not_null.
  - pose proof (entry_height e) as Hh. unfold manifest_entry_value in Hh. unfold max_depth. lia.
Qed.

(** The claims about a verified file are read back. *)
Lemma claims_read e :
  valid_entry IsNormalString e = true →
  exportObject recovery_content_names (plain_struct RecoveryContent.fields RecoveryContent.zero) (claims_text e) =
    Some (RecoveryContent.mk (Manifest.SHA256 e) (Manifest.ContentKind e)).
Proof.
  unfold valid_entry. destruct (validateEntry IsNormalString e) as [[]|] eqn:E; [|done]. intros _.
  apply validateEntry_fields in E as (_ & _ & _ & _ & Hsha & Hck & _).
  apply object_read.
  - apply struct_carried; [solve_disjoint| |done].
    apply Forall_cons_2; [apply carries_str; [done|]|apply Forall_cons_2; [apply carries_str; [done|]|constructor]]; cbn.
    + destruct Hsha as [->|Hsha]; [done|]. apply ascii_utf8. eapply classes_ascii; [|exact Hsha].
      apply list.Forall_replicate. exact hex_ascii.
    + by repeat (apply elem_of_cons in Hck as [->|Hck]; [done|]); apply not_elem_of_nil in Hck.
  - split; [done|]. not_null.
  - transitivity 2%nat; [|unfold max_depth; lia]. apply struct_height. solve_heights.
Qed.

(** The integers of a header are int64. *)
Definition recovery_width (h : RecoveryHeader) : Prop :=
  export_binding_width (RecoveryHeader.Binding h) ∧ RecoveryHeader.Entries h ≤ max_int64 ∧
  RecoveryHeader.FileBytes h ≤ max_int64 ∧ RecoveryHeader.FileObjects h ≤ max_int64.

Lemma validate_fields h :
  RecoveryHeader.validate h = true →
  RecoveryHeader.Version h = 1 ∧ ExportBinding.Validate (RecoveryHeader.Binding h) = true ∧
  valid_utf8 (codes (RecoveryHeader.RecoveryDigest h)) = true ∧
  0 ≤ RecoveryHeader.Entries h ∧ 0 ≤ RecoveryHeader.FileBytes h ∧ 0 ≤ RecoveryHeader.FileObjects h.
Proof.
  unfold RecoveryHeader.validate. rewrite !andb_true_iff, Z.eqb_eq, !Z.leb_le.
  intros [[[[[[[? ?] Hd] ?] ?] ?] ?] ?]. apply DeploymentCodec.digest_text in Hd. by split_and!.
Qed.

Lemma recovery_header_read h :
  RecoveryHeader.validate h = true → recovery_width h →
  exportObject recovery_header_names (plain_struct RecoveryHeader.fields RecoveryHeader.zero) (RecoveryHeader.text h) = Some h.
Proof.
  intros (Hver & Hb & Hd & He & Hf & Ho)%validate_fields (Wb & We & Wf & Wo). apply object_read.
  - apply struct_carried; [solve_disjoint| |by destruct h].
    apply Forall_cons_2; [apply carries_int; [done|unfold max_int64; lia]|].
    apply Forall_cons_2; [apply carries_sub; [done|]|].
    { destruct (export_binding_carried _ Hb Wb) as (Hf' & Hdis & Hdec). split_and!; [done|done|].
      intros v current st d Hst Hs. by apply (Hdec v current). }
    apply Forall_cons_2; [by apply carries_str|]. apply Forall_cons_2; [by apply carries_bool|].
    do 3 (apply Forall_cons_2; [by apply carries_int|]). constructor.
  - split; [by destruct h|]. not_null.
  - transitivity 4%nat; [|unfold max_depth; lia]. apply struct_height.
    repeat (apply Forall_cons_2; [intros v [= <-]|]); try (cbn; lia). constructor.
Qed.

Lemma recovery_footer_read h :
  RecoveryHeader.validate h = true → recovery_width h →
  exportObject recovery_footer_names (plain_struct RecoveryFooter.fields RecoveryFooter.zero)
    (RecoveryFooter.text (RecoveryFooter.of_header h)) = Some (RecoveryFooter.of_header h).
Proof.
  intros (Hver & Hb & Hd & He & Hf & Ho)%validate_fields (Wb & We & Wf & Wo). apply object_read.
  - apply struct_carried; [solve_disjoint| |done].
    apply Forall_cons_2; [apply carries_int; [done|cbn; unfold max_int64; lia]|].
    apply Forall_cons_2; [by apply carries_str|]. do 3 (apply Forall_cons_2; [by apply carries_int|]).
    apply Forall_cons_2; [by apply carries_bool|]. constructor.
  - split; [done|]. not_null.
  - transitivity 2%nat; [|unfold max_depth; lia]. apply struct_height. solve_heights.
Qed.
End Texts.

(** ** The writer *)

Section Writer.
Context (IsNormalString : string → bool) (hex_sha256 : list Z → string).
Context {W : Type} `{ExportWorld W}.

#[local] Abbreviation recovered := (RecoveryFacts.recovered IsNormalString hex_sha256).
#[local] Abbreviation add_all := (RecoveryFacts.add_all IsNormalString).
#[local] Abbreviation ValidateRecoveryStart := (RecoveryStream.ValidateRecoveryStart IsNormalString).

Definition anything : wire W → Prop := λ _, True.

(** A frame that was written whole was within its bound. *)
Lemma triple_fitting text maximum out gr :
  triple (standing out gr) (writeFrame text maximum)
    (λ _ w, standing (out ++ frame text) gr w ∧ 0 < len text ≤ maximum) anything.
Proof.
  intros w Hw. pose proof (triple_writeFrame text maximum out gr anything (λ _ _ _ _, I) w Hw) as Ht.
  unfold writeFrame in *. unfold mbind, stream_bind in *. destruct (require_stream _ w) as [w0 [u|]] eqn:E; [|done].
  unfold require_stream in E. destruct (_ && _) eqn:Eb; [|done]. apply andb_true_iff in Eb as [H1%Z.ltb_lt H2%Z.leb_le].
  destruct (write _ w0) as [w1 [u1|]]; [|done]. by destruct (write _ w1) as [w2 [u2|]].
Qed.

(** The frames of an item are within their bounds, and its start is one a
    source may announce. *)
Definition fits (x : item) : Prop :=
  0 ≤ Manifest.Mode x.1 ∧ ValidateRecoveryStart (provisional x.1) = true ∧
  0 < len (start_text (provisional x.1)) ≤ recoveryEntryBytes ∧
  (is_file x.1 = true → 0 < len (claims_text x.1) ≤ recovery_frame_bytes).

(** What is behind the items that a writer has finished. *)
Definition pending (wr : recoveryWriter) (part : list Z) : Prop :=
  match current wr with
  | None => verifier wr = None ∧ part = []
  | Some start =>
      ValidateRecoveryStart start = true ∧ 0 < len (start_text start) ≤ recoveryEntryBytes ∧
      if is_file start then
        ∃ v v0 data, verifier wr = Some v ∧ NewRecoveryFileVerifier IsNormalString start = Some v0 ∧
          consumed_stream (with_shape start) v data ∧ part = frame (start_text start) ++ data
      else verifier wr = None ∧ part = frame (start_text start)
  end.

(** A writer that has finished the items. *)
Definition writing (h : RecoveryHeader) (wr : recoveryWriter) (w : wire W) : Prop :=
  ∃ items part, Forall (λ x, recovered x ∧ fits x) items ∧ add_all NewRecoveryHasher items = Some (hasher wr) ∧
    pending wr part ∧ outgoing w = recovery_head h ++ items_bytes items ++ part.

Lemma triple_writing {A} h wr (p : stream W A) Q E :
  (∀ items part gr, Forall (λ x, recovered x ∧ fits x) items → add_all NewRecoveryHasher items = Some (hasher wr) →
     pending wr part → triple (standing (recovery_head h ++ items_bytes items ++ part) gr) p Q E) →
  triple (writing h wr) p Q E.
Proof.
  intros Hp w (items & part & Hitems & Hadd & Hpend & Ho). by apply (Hp items part (granted w) Hitems Hadd Hpend w).
Qed.

Lemma triple_begin h wr e :
  triple (writing h wr) (sink_begin IsNormalString hex_sha256 h wr e) (λ wr' w, writing h wr' w) anything.
Proof.
  apply triple_writing. intros items part gr Hitems Hadd Hpend.
  unfold sink_begin. eapply triple_bind; [by apply triple_alive|]. intros [].
  eapply triple_bind; [by apply triple_require|]. intros [] w [Hw Hb]. revert w Hw.
  rewrite !andb_true_iff in Hb. destruct Hb as [[[Hcur Hv] _] _].
  unfold pending in Hpend. destruct (current wr) eqn:Ec; [done|]. destruct Hpend as [Hver ->].
  eapply triple_bind; [apply triple_fitting|]. intros [] w [Hw Hl]. revert w Hw. rewrite app_nil_r.
  assert (Hgo : ∀ wr' part gr' w, hasher wr' = hasher wr → pending wr' part →
    standing ((recovery_head h ++ items_bytes items) ++ part) gr' w → writing h wr' w).
  { intros wr' part gr' w Hh Hp [Ho _]. exists items, part. rewrite Hh. split_and!; [done..|].
    by rewrite Ho, <- (assoc_L (++)). }
  destruct (is_file e) eqn:Ef.
  - eapply triple_bind; [by apply triple_option|]. intros v w [Hw Hnew].
    apply (Hgo _ (frame (start_text e)) gr); [done| |exact Hw]. unfold pending. cbn [current verifier].
    split; [done|split; [done|]]. rewrite Ef. exists v, v, []. rewrite app_nil_r. split_and!; try done.
    apply (new_consumed IsNormalString). by apply new_file_verifier in Hnew as (_ & _ & ?).
  - intros w Hw. apply (Hgo _ (frame (start_text e)) gr); [done| |exact Hw]. unfold pending. cbn [current verifier].
    split; [done|split; [done|]]. by rewrite Ef.
Qed.

Lemma triple_bytes h wr data :
  triple (writing h wr) (sink_bytes wr data) (λ wr' w, writing h wr' w) anything.
Proof.
  apply triple_writing. intros items part gr Hitems Hadd Hpend.
  unfold sink_bytes. eapply triple_bind; [by apply triple_option|]. intros v w [Hw Hver]. revert w Hw.
  destruct (Write v data) as [v' ok] eqn:Ewrite.
  eapply triple_bind; [by apply triple_require|]. intros [] w [Hw _]. revert w Hw.
  eapply triple_bind; [eapply triple_weaken; [apply triple_write|intros ? w Hw; exact Hw|done]|].
  intros [] w [Ho _]. unfold pending in Hpend. destruct (current wr) as [start|] eqn:Ec; [|destruct Hpend; congruence].
  destruct Hpend as (Hv & Hl & Hpend). destruct (is_file start) eqn:Ef; [|destruct Hpend; congruence].
  destruct Hpend as (v1 & v0 & seen & Hv1 & Hv0 & Hc & ->). rewrite Hver in Hv1. injection Hv1 as <-.
  exists items, (frame (start_text start) ++ seen ++ data). split_and!; [done|done| |].
  - unfold pending. cbn [current verifier set]. rewrite Ec. split; [done|split; [done|]]. rewrite Ef.
    exists v', v0, (seen ++ data). split_and!; [done..| |done].
    pose proof (Write_consumed (with_shape start) v seen data Hc) as Hc'. by rewrite Ewrite in Hc'.
  - by rewrite Ho, <- !(assoc_L (++)).
Qed.

Lemma triple_end h wr e :
  0 ≤ Manifest.Mode e →
  triple (writing h wr) (sink_end IsNormalString hex_sha256 wr e) (λ wr' w, writing h wr' w) anything.
Proof.
  intros Hmode. apply triple_writing. intros items part gr Hitems Hadd Hpend.
  unfold sink_end. eapply triple_bind; [by apply triple_option|]. intros begun w [Hw Hcur]. revert w Hw.
  unfold pending in Hpend. rewrite Hcur in Hpend. destruct Hpend as (Hv & Hl & Hpend).
  eapply (triple_bind _ _ (λ _ w, ∃ data, recovered (e, data) ∧ fits (e, data) ∧
            standing ((recovery_head h ++ items_bytes items) ++ item_bytes (e, data)) gr w)).
  - destruct (is_file e) eqn:Ef.
    + eapply triple_bind; [by apply triple_option|]. intros v w [Hw Hver]. revert w Hw.
      destruct (is_file begun) eqn:Efb; [|destruct Hpend; congruence].
      destruct Hpend as (v1 & v0 & data & Hv1 & Hv0 & Hc & ->). rewrite Hver in Hv1. injection Hv1 as <-.
      eapply triple_bind; [by apply triple_option|]. intros actual w [Hw Hcomp]. revert w Hw.
      eapply triple_bind; [by apply triple_require|]. intros [] w [Hw Heq%bool_decide_eq_true]. subst actual. revert w Hw.
      destruct (complete_recovered _ _ _ _ _ _ _ _ _ Hv0 Hc Hcomp) as (_ & Hp & _ & _ & Hrec).
      eapply triple_weaken; [apply triple_fitting| |done]. intros [] w [[Ho Hg] Hcl]. exists data. split_and!; [done| |].
      * unfold fits. cbn [fst]. by rewrite Hp.
      * split; [|done]. unfold item_bytes. cbn [fst snd]. rewrite Ef, Hp, Ho. by rewrite <- !(assoc_L (++)).
    + eapply triple_weaken; [by apply triple_require| |done]. intros [] w [[Ho Hg] Heq%bool_decide_eq_true]. subst begun.
      rewrite Ef in Hpend. destruct Hpend as [_ ->]. exists [].
      assert (Hp : provisional e = e) by (unfold provisional; by rewrite Ef).
      split_and!.
      * unfold ValidateRecoveryStart in Hv. rewrite Ef in Hv. split; [exact Hv|]. cbn [fst snd]. by rewrite Ef.
      * unfold fits. cbn [fst]. by rewrite Hp, Ef.
      * split; [|done]. unfold item_bytes. cbn [fst snd]. by rewrite Ef, Hp, app_nil_r, Ho, <- (assoc_L (++)).
  - intros [] w (data & Hrec & Hfit & Hw). revert w Hw.
    eapply triple_bind; [by apply triple_option|]. intros hasher' w [Hw Hh]. revert w Hw.
    eapply triple_bind; [by apply triple_alive|]. intros [] w [Ho Hg].
    exists (items ++ [(e, data)]), []. split_and!.
    + apply Forall_app. split; [done|by constructor].
    + rewrite add_all_snoc, Hadd. exact Hh.
    + done.
    + by rewrite Ho, items_bytes_snoc, app_nil_r, <- (assoc_L (++)).
Qed.

Lemma triple_calls h calls : ∀ wr,
  (∀ e, End_ e ∈ calls → 0 ≤ Manifest.Mode e) →
  triple (writing h wr) (sink_calls IsNormalString hex_sha256 h wr calls) (λ wr' w, writing h wr' w) anything.
Proof.
  induction calls as [|c calls IH]; intros wr Hm; cbn [sink_calls]; [by intros w Hw|].
  eapply triple_bind; [|intros wr'; apply IH; intros e He; apply Hm; by right].
  destruct c; [apply triple_begin|apply triple_bytes|apply triple_end, Hm; by left].
Qed.

(** The stream a writer has written when it succeeds. *)
Definition whole_recovery (h : RecoveryHeader) (items : list item) : Prop :=
  RecoveryHeader.validate h = true ∧ Forall (λ x, recovered x ∧ fits x) items ∧
  (∃ hasher, add_all NewRecoveryHasher items = Some hasher ∧
     RecoveryHeader.matches h (Observation_ hex_sha256 hasher) = true) ∧
  0 < len (RecoveryHeader.text h) ≤ recovery_frame_bytes ∧
  0 < len (RecoveryFooter.text (RecoveryFooter.of_header h)) ≤ recovery_frame_bytes.

Lemma triple_WriteRecovery binding source gr :
  (∀ e, End_ e ∈ stream_calls source → 0 ≤ Manifest.Mode e) →
  triple (standing [] gr) (WriteRecovery IsNormalString hex_sha256 binding source)
    (λ _ w, ∃ items, whole_recovery (recovery_header binding source) items ∧
                     outgoing w = recovery_bytes (recovery_header binding source) items) anything.
Proof.
  intros Hm. unfold WriteRecovery. set (h := recovery_header binding source). cbv zeta.
  eapply triple_bind; [by apply triple_require|]. intros [] w [Hw Hval]. revert w Hw.
  eapply triple_bind; [eapply triple_weaken; [apply triple_write|intros ? w Hw; exact Hw|done]|].
  intros []. eapply triple_bind; [apply triple_fitting|]. intros [] w [Hw Hhead]. revert w Hw.
  eapply triple_bind.
  { eapply triple_pre; [|by apply (triple_calls h)]. intros w [Ho Hg]. exists [], []. split_and!; [done|done|done|].
    by rewrite Ho, !app_nil_r. }
  intros wr. eapply triple_bind; [by apply triple_require|]. intros [] w [Hw _]. revert w Hw.
  eapply triple_bind; [by apply triple_require|]. intros [] w [Hw Hdone]. revert w Hw.
  apply andb_true_iff in Hdone as [Hcur Hmatch].
  eapply triple_bind; [by apply triple_require|]. intros [] w [Hw _]. revert w Hw.
  apply triple_writing. intros items part gr' Hitems Hadd Hpend. unfold pending in Hpend.
  destruct (current wr); [done|]. destruct Hpend as [_ ->]. rewrite app_nil_r.
  eapply triple_bind; [by apply triple_alive|]. intros [].
  eapply triple_weaken; [apply triple_fitting| |done]. intros [] w [[Ho _] Hfoot]. exists items. split.
  - split; [done|split; [done|split; [by exists (hasher wr)|by split]]].
  - unfold recovery_bytes. by rewrite Ho, <- (assoc_L (++)).
Qed.
End Writer.

(** ** The relay of a whole recovery *)

Section Relay.
Context (IsNormalString : string → bool) (hex_sha256 : list Z → string).
Context {W : Type} `{ExportWorld W}.

#[local] Abbreviation recovered := (RecoveryFacts.recovered IsNormalString hex_sha256).
#[local] Abbreviation fits := (RecoveryRoundTrip.fits IsNormalString).
#[local] Abbreviation add_all := (RecoveryFacts.add_all IsNormalString).
#[local] Abbreviation ValidateRecoveryStart := (RecoveryStream.ValidateRecoveryStart IsNormalString).

Lemma file_verifier_of start :
  ValidateRecoveryStart start = true → is_file start = true →
  ∃ v, NewRecoveryFileVerifier IsNormalString start = Some v ∧ consumed_stream (with_shape start) v [].
Proof.
  intros Hv Hf. unfold NewRecoveryFileVerifier. rewrite Hv.
  unfold ValidateRecoveryStart in Hv. rewrite Hf in Hv. destruct (_ || _); [done|].
  destruct (NewContentVerifier IsNormalString (with_shape start)) as [v|] eqn:Ev.
  - exists v. split; [done|]. by apply (new_consumed IsNormalString).
  - unfold NewContentVerifier, valid_entry in *. destruct (validateEntry _ _) as [[]|]; [|done]. cbn [mbind result_bind] in Ev.
    change (String.eqb (Manifest.Kind (with_shape start)) "file") with (is_file start) in Ev. by rewrite Hf in Ev.
Qed.

(** The claims about verified content are accepted. *)
Lemma complete_of start v e data :
  consumed_stream (with_shape start) v data → provisional e = start → is_file e = true → recovered (e, data) →
  Complete IsNormalString hex_sha256 v (Manifest.SHA256 e) (Manifest.ContentKind e) = Some e.
Proof.
  intros Hc Hp Hf [Hval Hrec]. cbn [fst snd] in *. rewrite Hf in Hrec. unfold Complete.
  set (e' := (entry v) <| Manifest.SHA256 := Manifest.SHA256 e |> <| Manifest.ContentKind := Manifest.ContentKind e |>).
  assert (He : e' = e).
  { unfold e'. destruct Hc as [-> _]. unfold provisional in Hp. rewrite Hf in Hp. subst start. by destruct e. }
  change (entry (v <| entry := e' |>)) with e'. rewrite He, Hval. cbn [andb].
  assert (Hfin : is_ok (Finish hex_sha256 (v <| entry := e |>)) = true); [|by rewrite Hfin].
  rewrite <- Hrec. unfold valid_entry in Hval.
  assert (Hnew : NewContentVerifier IsNormalString e = Ok (mkVerifier e [] (mkClassifier [] false) 0 false)).
  { unfold NewContentVerifier. destruct (validateEntry IsNormalString e) as [[]|]; [|done]. cbn [mbind result_bind].
    change (String.eqb (Manifest.Kind e) "file") with (is_file e). by rewrite Hf. }
  apply (finish_consumed IsNormalString hex_sha256 e _ (v <| entry := e |>) data Hnew).
  apply (consumed_entry (with_shape start)); [|done]. unfold provisional in Hp. rewrite Hf in Hp. subst start. by destruct e.
Qed.

Lemma goes_relay_file e data i o :
  recovered (e, data) → is_file e = true → fits (e, data) →
  goes (W := W) (relayRecoveryFile IsNormalString hex_sha256 (provisional e)) (data ++ frame (claims_text e) ++ i) i o
    (o ++ data ++ frame (claims_text e)) e.
Proof.
  intros Hrec Hf (_ & Hv & _ & Hcl). cbn [fst] in *. specialize (Hcl Hf).
  assert (Hfp : is_file (provisional e) = true) by (unfold provisional; rewrite Hf; exact Hf).
  destruct (file_verifier_of (provisional e) Hv Hfp) as (v & Hnew & Hc).
  assert (Hl : length data = Z.to_nat (Manifest.Size (provisional e))).
  { destruct Hrec as [_ Hrec]. cbn [fst snd] in Hrec. rewrite Hf in Hrec.
    destruct (verified_verifier IsNormalString hex_sha256 e data Hrec) as [Hl _]. rewrite Hl.
    unfold provisional. by rewrite Hf. }
  unfold relayRecoveryFile. eapply goes_bind; [by apply goes_option|]. cbn zeta.
  eapply goes_bind; [by apply goes_limited|]. eapply goes_bind; [apply goes_write|].
  eapply goes_bind; [apply goes_require; by rewrite <- Hl, Nat.leb_refl|].
  eapply goes_bind; [apply goes_readFrame; [done|done|apply (claims_read IsNormalString e), Hrec]|].
  cbn [RecoveryContent.SHA256 RecoveryContent.ContentKind].
  eapply goes_bind; [eapply goes_option, (complete_of (provisional e) _ e data); [|done|done|done]|].
  { apply (Write_consumed (with_shape (provisional e)) v [] data Hc). }
  rewrite (assoc_L (++)). eapply goes_bind; [by apply goes_writeFrame|]. apply goes_ret.
Qed.

(** What is left of the counts allows the next entry. *)
Lemma start_allowed_of h hasher x h1 items final :
  RecoveryStream.Add IsNormalString hasher x.1 = Some h1 → add_all h1 items = Some final → counted hasher →
  RecoveryHeader.matches h (Observation_ hex_sha256 final) = true → fits x →
  start_allowed IsNormalString h (Observation_ hex_sha256 hasher) (provisional x.1) = true ∧
  Manifest.Size (provisional x.1) ≤ max_int64.
Proof.
  intros Hadd Hall Hc Hm (_ & Hv & _). destruct (Add_counted _ _ _ _ Hadd Hc) as (Hc1 & He & Hb & Hs & Hf).
  destruct (add_all_counted _ _ _ _ Hall Hc1) as (Hc' & _ & Hb' & Hf').
  unfold RecoveryHeader.matches, Observation_ in Hm. cbn in Hm. rewrite !andb_true_iff, !Z.eqb_eq in Hm.
  destruct Hm as [[[_ _] Hbytes] Hfiles].
  assert (Hsize : Manifest.Size (provisional x.1) = Manifest.Size x.1) by (unfold provisional; by destruct (is_file x.1)).
  assert (Hfile : is_file (provisional x.1) = is_file x.1) by (unfold provisional; by destruct (is_file x.1) eqn:E).
  destruct Hc' as [_ Hcb _], Hc as [_ Hcb0 _].
  split; [|lia]. unfold start_allowed. rewrite Hv, Hsize, Hfile. cbn [andb Observation_ FileBytes FileObjects].
  apply andb_true_iff. split; [apply Z.leb_le; lia|]. apply negb_true_iff, andb_false_iff.
  destruct (is_file x.1); [right; apply Z.leb_gt; lia|by left].
Qed.

Lemma goes_relay_entries h `{!Calm (RecoveryHeader.observation h)} items : ∀ hasher final i o,
  Forall (λ x, recovered x ∧ fits x) items → counted hasher → add_all hasher items = Some final →
  RecoveryHeader.matches h (Observation_ hex_sha256 final) = true →
  goes (relay_entries IsNormalString hex_sha256 h (length items) hasher) (items_bytes items ++ i) i o
    (o ++ items_bytes items) final.
Proof.
  induction items as [|x items IH]; intros hasher final i o Hitems Hc Hall Hm; cbn [relay_entries length].
  { injection Hall as <-. rewrite app_nil_r. apply goes_ret. }
  apply list.Forall_cons in Hitems as [[Hrec Hfit] Hitems]. apply add_all_cons in Hall as (h1 & Hadd & Hall).
  destruct (start_allowed_of h hasher x h1 items final Hadd Hall Hc Hm Hfit) as [Hallow Hsize].
  destruct (Add_counted _ _ _ _ Hadd Hc) as (Hc1 & _). destruct x as [e data]. cbn [fst] in *.
  pose proof Hfit as (Hmode & Hstart & Hlen & _). cbn [fst] in *.
  change (items_bytes ((e, data) :: items)) with (item_bytes (e, data) ++ items_bytes items).
  unfold item_bytes at 1 2. cbn [fst snd]. rewrite <- !(assoc_L (++)).
  eapply goes_bind; [apply (goes_alive (RecoveryHeader.observation h))|]. eapply goes_bind; [by apply goes_check|].
  eapply goes_bind; [apply goes_readFrame; [done|done|apply (start_read IsNormalString); [done| |done]]|].
  { unfold provisional. by destruct (is_file e). }
  eapply goes_bind; [by apply goes_require|]. eapply goes_bind; [by apply goes_writeFrame|].
  assert (Hfile : is_file (provisional e) = is_file e) by (unfold provisional; by destruct (is_file e) eqn:E).
  rewrite Hfile. eapply (goes_bind _ _ _ (items_bytes items ++ i) _ _
    ((o ++ frame (start_text (provisional e))) ++ (if is_file e then data ++ frame (claims_text e) else []))).
  - destruct (is_file e) eqn:Ef.
    + rewrite <- (assoc_L (++)). by apply goes_relay_file.
    + rewrite app_nil_r. assert (Hp : provisional e = e) by (unfold provisional; by rewrite Ef). rewrite Hp. apply goes_ret.
  - eapply goes_bind; [by apply goes_option|]. eapply goes_bind; [by apply goes_check|].
    rewrite !(assoc_L (++)). rewrite <- (assoc_L (++) o). by apply IH.
Qed.
End Relay.

Lemma goes_RelayRecovery IsNormalString hex_sha256 {W} `{ExportWorld W} h items `{!Calm (RecoveryHeader.observation h)} :
  whole_recovery IsNormalString hex_sha256 h items → recovery_width h →
  goes (RelayRecovery IsNormalString hex_sha256) (recovery_bytes h items) [] [] (recovery_bytes h items) tt.
Proof.
  intros (Hval & Hitems & (final & Hadd & Hm) & Hhead & Hfoot) Hw.
  destruct (add_all_counted _ _ _ _ Hadd new_counted) as (Hc & He & _).
  assert (Hcount : Z.to_nat (RecoveryHeader.Entries h) = length items).
  { unfold RecoveryHeader.matches, Observation_ in Hm. cbn in Hm. rewrite !andb_true_iff, !Z.eqb_eq in Hm.
    destruct Hm as [[[_ ->] _] _]. rewrite He. cbn. lia. }
  assert (Hb : recovery_bytes h items = (((RecoveryMagic ++ frame (RecoveryHeader.text h)) ++ items_bytes items) ++
                 frame (RecoveryFooter.text (RecoveryFooter.of_header h)))).
  { unfold recovery_bytes, recovery_head. by rewrite !(assoc_L (++)). }
  rewrite Hb at 2. unfold recovery_bytes, recovery_head. rewrite <- !(assoc_L (++)).
  unfold RelayRecovery. eapply goes_bind; [by apply goes_read|]. eapply goes_bind; [by apply goes_require, bool_decide_eq_true|].
  eapply goes_bind; [apply goes_readFrame; [done|done|by apply recovery_header_read]|].
  eapply goes_bind; [by apply goes_require|]. eapply goes_bind; [by apply goes_check|].
  eapply goes_bind; [apply goes_write|]. eapply goes_bind; [by apply goes_writeFrame|].
  rewrite Hcount. eapply goes_bind; [by apply goes_relay_entries; [..|apply new_counted|exact Hadd|exact Hm]|].
  eapply goes_bind; [by apply goes_require|].
  rewrite <- (app_nil_r (frame (RecoveryFooter.text _))) at 1.
  eapply goes_bind; [apply goes_readFrame; [done|done|by apply recovery_footer_read]|].
  eapply goes_bind; [by apply goes_require, bool_decide_eq_true|]. eapply goes_bind; [apply goes_eof|].
  eapply goes_bind; [by apply goes_check|]. eapply goes_bind; [apply (goes_alive (RecoveryHeader.observation h))|].
  rewrite !(assoc_L (++)). by apply goes_writeFrame.
Qed.

(** C24: a recovery passes the gateway unchanged.  Whatever calls a source makes
    on the writer, however the content is cut, and wherever the output stops:
    a [WriteRecovery] that succeeds has written exactly the canonical stream of
    entries that are valid and whose content bears out their claims, with the
    counts and the ordered digest of the header; and on that stream, under
    authorizations that hold, [RelayRecovery] reads everything back, passes
    every check and writes the very same bytes. *)
Theorem recovery_relayed IsNormalString hex_sha256 {W} `{ExportWorld W} binding source (w : wire W) :
  outgoing w = [] → (∀ e, End_ e ∈ stream_calls source → 0 ≤ Manifest.Mode e) →
  recovery_width (recovery_header binding source) →
  let '(w', r) := WriteRecovery IsNormalString hex_sha256 binding source w in
  r = Some tt →
  let h := recovery_header binding source in
  ∃ items, whole_recovery IsNormalString hex_sha256 h items ∧ outgoing w' = recovery_bytes h items ∧
    ∀ W' (E : ExportWorld W'), Calm (RecoveryHeader.observation h) →
      goes (W := W') (RelayRecovery IsNormalString hex_sha256) (outgoing w') [] [] (outgoing w') tt.
Proof.
  intros Hempty Hm Hw.
  pose proof (triple_WriteRecovery IsNormalString hex_sha256 binding source (granted w) Hm w (conj Hempty eq_refl)) as Ht.
  destruct (WriteRecovery _ _ _ _ w) as [w' [[]|]]; [|done]. intros _. destruct Ht as (items & Hwhole & Ho).
  exists items. split_and!; [apply Hwhole..|exact Ho|]. intros W' E Hcalm. rewrite Ho. by apply goes_RelayRecovery.
Qed.
