(* ===== verification/ExportSession.v ===== *)
(** * A relay under its authorization

    Checks made one after the other on a connection, as a relay makes them:
    each is a path of the interleavings, so the checks that let the relay write
    are backed by the server's answers. *)

From S2P Require Import Prelude GoText GoTime GoJson.
From S2P Require Import Manifest StartResult Finalization NodeExport ExportStream ExportStreamFacts.
From S2P Require Import RecoveryStream RecoveryFacts ExportAuthorization ExportAuthorizationFacts.

(** What happens around one check: how much time passes before it, before its
    second look, before its request starts and before each of the readings
    behind the answer, and the answer of the authority if it is asked. *)
Record turn := mkTurn { d0 : N; d1 : N; d2 : N; d3 : N; d4 : N; d5 : N; answer : authority_answer }.

Definition wait (d : N) (c : connection) : connection := c <| clock := clock c + Z.of_N d |>.

Section Session.
Context (hex_sha256 : list Z → string).

(** [verify] of a call that has entered; the lock is free. *)
Definition verify_now (v : verification) (t : turn) (c : connection) : connection * bool :=
  let '(a, needed) := needsRefresh (force v) (clock c) (auth c) in
  let c := c <| auth := a |> in
  match needed with
  | None => (c, false)
  | Some false => (pass v c, true)
  | Some true =>
      let c := wait (d1 t) c in
      let '(a, needed) := needsRefresh (force v) (clock c) (auth c) in
      let c := c <| auth := a |> in
      match needed with
      | None => (c, false)
      | Some false => (pass v c, true)
      | Some true =>
          let started := clock c + Z.of_N (d2 t) in
          let n1 := started + Z.of_N (d3 t) in
          let n2 := n1 + Z.of_N (d4 t) in
          let n3 := n2 + Z.of_N (d5 t) in
          let '(a, ok) := finish_verify hex_sha256 started n1 n2 n3 (answer t) (auth c) in
          let sent := grant (auth c) in
          let c := c <| auth := a |> <| clock := n3 |> in
          if ok then
            (pass v (c <| history := history c ++ [Accepted (mkAcceptance started n3 sent (current a) (grant a))] |>), true)
          else (c, false)
      end
  end.

(** [observe] *)
Definition observe (o : Observation) (force : bool) (t : turn) (c : connection) : connection * bool :=
  let c := wait (d0 t) c in
  match observe_locked o (auth c) with
  | (a, true) => verify_now (mkCall (Some o) force (clock c) Entering) t (c <| auth := a |>)
  | (a, false) => (c <| auth := a |>, false)
  end.

(** A check of the ticker ([renew]). *)
Definition tick (c : connection) (t : turn) : connection :=
  let c := wait (d0 t) c in (verify_now (mkCall None false (clock c) Entering) t c).1.

Definition rest (ticks : list turn) (c : connection) : connection := foldl tick c ticks.

(** A check of the relay, and those of the ticker before it. *)
Record moment := mkMoment { ticks : list turn; own : turn }.

(** The next check of a connection with what it meets; a check beyond the
    last moment finds the connection cancelled. *)
Definition session_authorize (o : Observation) (force : bool) (w : connection * list moment)
    : (connection * list moment) * bool :=
  match w.2 with
  | [] => ((w.1 <| auth := cancel (auth w.1) |>, []), false)
  | m :: ms => let '(c, ok) := observe o force (own m) (rest (ticks m) w.1) in ((c, ms), ok)
  end.

(** The world of a relay: the connection and what the coming checks meet. *)
#[export] Instance session_world : ExportWorld (connection * list moment) := {
  ctx_ended w := (w, cancelled (auth w.1));
  authorize := session_authorize
}.

(** The same for a relay that accepts only headers of one binding
    ([verify] in [streamStoppedSource]). *)
Definition bound_world (binding : NodeExportBinding) : ExportWorld (connection * list moment) := {|
  ctx_ended w := (w, cancelled (auth w.1));
  authorize o force w :=
    if negb (bool_decide (ObservedBinding o = binding)) then (w, false) else session_authorize o force w
|}.

(** No call is under way. *)
Definition idle (c : connection) : Prop := calls c = ∅ ∧ refreshing c = None.

#[local] Abbreviation steps := (rtc (step hex_sha256)).

(** A call of thread 0 that enters an idle connection. *)
Definition entered (v : verification) (s : stage) (c : connection) : connection :=
  c <| calls := {[0%nat := mkCall (claim v) (force v) (began v) s]} |>.

(** The same while it holds the lock. *)
Definition locked (v : verification) (s : stage) (c : connection) : connection :=
  entered v s c <| refreshing := Some 0%nat |>.

Lemma call_eta v s : at_stage v = s → mkCall (claim v) (force v) (began v) s = v.
Proof. destruct v. by intros <-. Qed.

Lemma step_enters c o f a :
  idle c → observe_locked o (auth c) = (a, true) →
  step hex_sha256 c (entered (mkCall (Some o) f (clock c) Entering) Entering (c <| auth := a |>)).
Proof.
  intros [Hm Hr] Ha. pose proof (step_observe hex_sha256 c 0 o f a) as Hs. unfold entered. cbn.
  rewrite Hm in Hs. by apply Hs.
Qed.

Lemma step_leaves c v a r :
  idle c → needsRefresh (force v) (clock c) (auth c) = (a, r) →
  step hex_sha256 (entered v Entering c)
    (match r with
     | None => c <| auth := a |>
     | Some false => pass v (c <| auth := a |>)
     | Some true => entered v Queued (c <| auth := a |>)
     end).
Proof.
  intros [Hm Hr] Hn. destruct c as [au cl rf m h]. cbn in *. subst.
  pose proof (step_first hex_sha256 (entered v Entering (mkConnection au cl None ∅ h)) 0
                (mkCall (claim v) (force v) (began v) Entering) a r) as Hs.
  unfold entered, move, pass in *. cbn in *. rewrite lookup_singleton_eq, delete_singleton_eq, insert_singleton_eq in Hs.
  destruct r as [[]|]; by apply Hs.
Qed.

Lemma step_locks c v : idle c → step hex_sha256 (entered v Queued c) (locked v Holding c).
Proof.
  intros [Hm Hr]. destruct c as [au cl rf m h]. cbn in *. subst.
  pose proof (step_acquire hex_sha256 (entered v Queued (mkConnection au cl None ∅ h)) 0
                (mkCall (claim v) (force v) (began v) Queued)) as Hs.
  unfold locked, entered, move in *. cbn in *. rewrite lookup_singleton_eq, insert_singleton_eq in Hs. by apply Hs.
Qed.

Lemma step_waits c v s d : step hex_sha256 (locked v s c) (locked v s (wait d c)).
Proof. apply (step_tick hex_sha256 (locked v s c) (clock c + Z.of_N d)). cbn. lia. Qed.

Lemma step_requests c v a r started :
  idle c → needsRefresh (force v) (clock c) (auth c) = (a, r) → clock c ≤ started →
  step hex_sha256 (locked v Holding c)
    (match r with
     | None => c <| auth := a |>
     | Some false => pass v (c <| auth := a |>)
     | Some true => locked v (Requesting started) (c <| auth := a |> <| clock := started |>)
     end).
Proof.
  intros [Hm Hr] Hn Hc. destruct c as [au cl rf m h]. cbn in *. subst.
  pose proof (step_second hex_sha256 (locked v Holding (mkConnection au cl None ∅ h)) 0
                (mkCall (claim v) (force v) (began v) Holding) a r started) as Hs.
  unfold locked, entered, move, pass, leave in *. cbn in *.
  rewrite lookup_singleton_eq, delete_singleton_eq, insert_singleton_eq in Hs. destruct r as [[]|]; by apply Hs.
Qed.

Lemma step_answers c v started n1 n2 n3 ans a ok :
  idle c → clock c ≤ n1 → n1 ≤ n2 → n2 ≤ n3 →
  finish_verify hex_sha256 started n1 n2 n3 ans (auth c) = (a, ok) →
  step hex_sha256 (locked v (Requesting started) c)
    (let c' := c <| auth := a |> <| clock := n3 |> in
     if ok then
       pass v (c' <| history := history c ++ [Accepted (mkAcceptance started n3 (grant (auth c)) (current a) (grant a))] |>)
     else c').
Proof.
  intros [Hm Hr] H1 H2 H3 Hf. destruct c as [au cl rf m h]. cbn in *. subst.
  pose proof (step_finish hex_sha256 (locked v (Requesting started) (mkConnection au cl None ∅ h)) 0
                (mkCall (claim v) (force v) (began v) (Requesting started)) started n1 n2 n3 ans a ok) as Hs.
  unfold locked, entered, move, pass, leave in *. cbn in *. rewrite lookup_singleton_eq, delete_singleton_eq in Hs.
  destruct ok; by apply Hs.
Qed.

(** What a check comes to: a path, at the end of which the connection is idle,
    and a record of the check if it passed. *)
Definition outcome (v : verification) (c : connection) (r : connection * bool) : Prop :=
  steps c r.1 ∧ idle r.1 ∧ (r.2 = true → ∃ n, Passed (claim v) (force v) (began v) n ∈ history r.1).

Lemma passed_recorded v c : idle c → idle (pass v c) ∧ ∃ n, Passed (claim v) (force v) (began v) n ∈ history (pass v c).
Proof.
  intros Hi. split; [exact Hi|]. exists (clock c). cbn. apply elem_of_app. right. by apply list_elem_of_singleton.
Qed.

Lemma verify_now_path v t c : idle c → outcome v (entered v Entering c) (verify_now v t c).
Proof.
  intros Hi. unfold verify_now. destruct (needsRefresh (force v) (clock c) (auth c)) as [a r] eqn:E1.
  pose proof (step_leaves c v a r Hi E1) as S1. cbn zeta.
  destruct r as [[]|]; [|split; [by apply rtc_once|split; [exact Hi|intros _; by apply passed_recorded]]|
    by split; [apply rtc_once|split]].
  set (c1 := c <| auth := a |>) in *. assert (Hi1 : idle (wait (d1 t) c1)) by exact Hi.
  assert (P1 : steps (entered v Entering c) (locked v Holding (wait (d1 t) c1))).
  { eapply rtc_l; [exact S1|]. eapply rtc_l; [by apply step_locks|]. apply rtc_once, step_waits. }
  destruct (needsRefresh (force v) (clock (wait (d1 t) c1)) (auth (wait (d1 t) c1))) as [a2 r2] eqn:E2.
  set (c2 := (wait (d1 t) c1) <| auth := a2 |>) in *. set (started := clock c2 + Z.of_N (d2 t)) in *.
  pose proof (step_requests _ v a2 r2 started Hi1 E2 ltac:(unfold started; cbn; lia)) as S2.
  assert (P2 := rtc_r _ _ _ P1 S2). clear S1 S2 P1.
  destruct r2 as [[]|]; [|split; [done|split; [exact Hi|intros _; by apply passed_recorded]]|by split].
  cbn zeta. destruct (finish_verify _ _ _ _ _ _ _) as [a3 ok] eqn:E3.
  set (n1 := started + _) in E3. set (n2 := n1 + _) in E3. set (n3 := n2 + _) in E3.
  assert (Hn1 : started ≤ n1) by (unfold n1; lia). assert (Hn2 : n1 ≤ n2) by (unfold n2; lia).
  assert (Hn3 : n2 ≤ n3) by (unfold n3; lia).
  set (c3 := c2 <| clock := started |>) in *.
  pose proof (step_answers c3 v started n1 n2 n3 (answer t) a3 ok Hi Hn1 Hn2 Hn3 E3) as S3.
  assert (P3 := rtc_r _ _ _ P2 S3). clear S3 P2.
  destruct ok; [|by split].
  split; [exact P3|]. split; [exact Hi|]. intros _. by apply passed_recorded.
Qed.

Lemma observe_path o f t c :
  idle c → ∃ b, clock c ≤ b ∧ outcome (mkCall (Some o) f b Entering) c (observe o f t c).
Proof.
  intros Hi. exists (clock c + Z.of_N (d0 t)). split; [lia|]. unfold observe. set (c0 := wait (d0 t) c).
  assert (S0 : step hex_sha256 c c0) by (apply step_tick; lia).
  destruct (observe_locked o (auth c0)) as [a []] eqn:Ea.
  - pose proof (step_enters c0 o f a Hi Ea) as S1.
    match goal with |- outcome _ _ (verify_now ?v t ?c1) => destruct (verify_now_path v t c1 Hi) as (P & Hi' & Hp) end.
    split; [|split; [exact Hi'|exact Hp]]. eapply rtc_l; [exact S0|]. eapply rtc_l; [exact S1|exact P].
  - split; [|by split]. eapply rtc_l; [exact S0|]. apply rtc_once. by eapply step_observe_refused.
Qed.

Lemma step_checks c f : idle c → step hex_sha256 c (entered (mkCall None f (clock c) Entering) Entering c).
Proof.
  intros [Hm Hr]. pose proof (step_check hex_sha256 c 0 f) as Hs. unfold entered. cbn. rewrite Hm in Hs. by apply Hs.
Qed.

Lemma tick_path t c : idle c → steps c (tick c t) ∧ idle (tick c t).
Proof.
  intros Hi. unfold tick. set (c0 := wait (d0 t) c). set (v := mkCall None false (clock c0) Entering).
  destruct (verify_now_path v t c0 Hi) as (Hs & Hi' & _). split; [|exact Hi'].
  eapply rtc_l; [apply (step_tick hex_sha256 c (clock c + Z.of_N (d0 t))); lia|].
  eapply rtc_l; [by apply (step_checks c0 false)|exact Hs].
Qed.

Lemma rest_path ts : ∀ c, idle c → steps c (rest ts c) ∧ idle (rest ts c).
Proof.
  induction ts as [|t ts IH]; intros c Hi; [by split; [apply rtc_refl|]|]. destruct (tick_path t c Hi) as [Hs Hi'].
  destruct (IH _ Hi') as [Hs2 Hi2]. split; [|exact Hi2]. by etransitivity.
Qed.

Lemma step_history c c' : step hex_sha256 c c' → history c `prefix_of` history c'.
Proof.
  intros Hs. destruct Hs; cbn; try reflexivity; repeat case_match; cbn; try reflexivity; try (by apply prefix_app_r);
    rewrite <- ?(assoc_L (++)); by apply prefix_app_r.
Qed.

Lemma steps_history c c' : steps c c' → history c `prefix_of` history c'.
Proof. induction 1 as [c|c c1 c2 Hs _ IH]; [done|]. etransitivity; [by apply step_history|done]. Qed.
End Session.

(** ** The relay's writes are backed *)

Section Relay.
Context (IsNormalString : string → bool) (hex_sha256 : list Z → string) (i : Identity) (g : string).
Context (bound : option NodeExportBinding).

(** The world of a connection, or that of a relay for one binding. *)
#[local] Instance relay_world : ExportWorld (ExportAuthorization.connection * list moment) :=
  match bound with Some b => bound_world hex_sha256 b | None => session_world hex_sha256 end.

(** The connection is one that [serve] can reach, and every grant of the wire
    is a check of these facts that passed on it. *)
Definition backed (w : wire (ExportAuthorization.connection * list moment)) : Prop :=
  reached hex_sha256 i g (world w).1 ∧ idle (world w).1 ∧
  ∀ o f n, (o, f, n) ∈ granted w → ∃ b at_, Passed (Some o) f b at_ ∈ history (world w).1.

Definition keeps {A} (p : stream (ExportAuthorization.connection * list moment) A) : Prop :=
  triple backed p (λ _, backed) backed.

Lemma keeps_bind {A B} (p : stream _ A) (f : A → stream _ B) : keeps p → (∀ a, keeps (f a)) → keeps (p ≫= f).
Proof. intros Hp Hf. eapply triple_bind; [exact Hp|]. intros a. apply Hf. Qed.

Lemma keeps_ret {A} (a : A) : keeps (mret a).
Proof. by intros w Hw. Qed.

Lemma keeps_require b : keeps (require_stream b).
Proof. intros w Hw. by destruct b. Qed.

Lemma keeps_option {A} (x : option A) : keeps (of_option x).
Proof. intros w Hw. by destruct x. Qed.

Lemma keeps_read n : keeps (read_full n).
Proof. intros w Hw. unfold read_full. by destruct (n <=? _)%nat. Qed.

Lemma keeps_limited n : keeps (limited n).
Proof. by intros w Hw. Qed.

Lemma keeps_eof : keeps at_eof.
Proof. intros w Hw. unfold at_eof. destruct (incoming w); [destruct (torn w)|]; done. Qed.

Lemma keeps_write data : keeps (write data).
Proof. intros w Hw. unfold write. destruct (room w); [destruct (_ <=? _)%nat|]; done. Qed.

Lemma keeps_alive : keeps alive.
Proof.
  intros w Hw. unfold alive, relay_world. destruct w as [? ? ? ? ? [c ts]], bound; cbn; by destruct (cancelled _).
Qed.

Lemma reached_steps c c' : reached hex_sha256 i g c → rtc (step hex_sha256) c c' → reached hex_sha256 i g c'.
Proof. intros (c0 & Ho & Hs) Hs'. exists c0. split; [done|]. by etransitivity. Qed.

(** What a check does to a connection that is backed. *)
Definition advances (w : wire (ExportAuthorization.connection * list moment)) (o : option Observation) (f : bool)
    (c' : ExportAuthorization.connection) (ok : bool) : Prop :=
  rtc (step hex_sha256) (world w).1 c' ∧ idle c' ∧ (ok = true → ∃ b at_, Passed o f b at_ ∈ history c').

Lemma backed_advances w o f c' ok ts inc to out ro gr :
  backed w → advances w o f c' ok →
  (∀ o' f' n, (o', f', n) ∈ gr → (o', f', n) ∈ granted w ∨ ok = true ∧ Some o' = o ∧ f' = f) →
  backed (mkWire inc to out ro gr (c', ts)).
Proof.
  intros (Hr & Hi & Hg) (Hs & Hi' & Hp) Hgr. split_and!; cbn; [by eapply reached_steps|done|].
  intros o' f' n [Hin|(-> & <- & ->)]%Hgr; [|by apply Hp].
  destruct (Hg _ _ _ Hin) as (b & at_ & Hin'). exists b, at_.
  destruct (steps_history _ _ _ Hs) as [k ->]. apply elem_of_app. by left.
Qed.

Lemma authorize_advances w o f :
  backed w → let '(s, ok) := session_authorize hex_sha256 o f (world w) in advances w (Some o) f s.1 ok.
Proof.
  intros (Hr & Hi & _). unfold session_authorize, advances. destruct (world w) as [c [|m ms]]; cbn in *.
  { split_and!; [apply rtc_once, step_cancel|exact Hi|done]. }
  destruct (rest_path hex_sha256 (ticks m) c Hi) as [Hs0 Hi0].
  destruct (observe_path hex_sha256 o f (own m) _ Hi0) as (b & _ & Hs & Hi' & Hp). destruct (observe _ _ _ _ _) as [c' ok].
  cbn in *. split_and!; [by etransitivity|exact Hi'|]. intros Hok. destruct (Hp Hok) as [at_ Hin]. by exists b, at_.
Qed.

Lemma keeps_check o f : keeps (check o f).
Proof.
  assert (Hno : ∀ (w : wire (ExportAuthorization.connection * list moment)), backed w →
    backed (mkWire (incoming w) (torn w) (outgoing w) (room w) (granted w ++ []) (world w))).
  { intros w Hw. by rewrite app_nil_r. }
  assert (Hcheck : ∀ w, backed w → let '(s, ok) := session_authorize hex_sha256 o f (world w) in
    backed (mkWire (incoming w) (torn w) (outgoing w) (room w)
      (granted w ++ if ok then [(o, f, length (outgoing w))] else []) s)).
  { intros w Hw. pose proof (authorize_advances w o f Hw) as Ha. destruct (session_authorize _ _ _ _) as [[c' ts] ok].
    eapply backed_advances; [exact Hw|exact Ha|]. intros o' f' n [Hin|Hin]%elem_of_app; [by left|right].
    destruct ok; [|by apply not_elem_of_nil in Hin]. apply list_elem_of_singleton in Hin as [= -> -> ->]. done. }
  intros w Hw. unfold check, relay_world. destruct bound as [b|]; cbn.
  - destruct (negb _); [by apply Hno|]. specialize (Hcheck w Hw). by destruct (session_authorize _ _ _ _) as [s []].
  - specialize (Hcheck w Hw). by destruct (session_authorize _ _ _ _) as [s []].
Qed.

Create HintDb keeps.
#[local] Hint Resolve keeps_bind keeps_ret keeps_require keeps_option keeps_read keeps_limited keeps_eof keeps_write
  keeps_alive keeps_check : keeps.

Ltac keep := repeat (first [apply keeps_bind; [|intros ?]|case_match|solve [auto with keeps]]).

Lemma keeps_copy e src ends : keeps (copyExportObject IsNormalString hex_sha256 e src ends).
Proof. unfold copyExportObject. keep. Qed.

Lemma keeps_readFrame {R} (decode : string → json → option R) maximum names :
  keeps (readExportFrame decode maximum names).
Proof. unfold readExportFrame. keep. Qed.

Lemma keeps_writeFrame text maximum : keeps (ExportStream.writeFrame text maximum).
Proof. unfold ExportStream.writeFrame. keep. Qed.

#[local] Hint Resolve keeps_copy keeps_readFrame keeps_writeFrame : keeps.

Lemma keeps_objects o objects : keeps (relay_objects IsNormalString hex_sha256 o objects).
Proof. induction objects as [|e objects IH]; cbn [relay_objects]; keep; apply IH. Qed.

#[local] Hint Resolve keeps_objects : keeps.

Lemma keeps_relay : keeps (RelaySnapshot IsNormalString hex_sha256).
Proof. unfold RelaySnapshot. keep. Qed.

Lemma keeps_recovery_file start : keeps (relayRecoveryFile IsNormalString hex_sha256 start).
Proof. unfold relayRecoveryFile. keep. Qed.

#[local] Hint Resolve keeps_recovery_file : keeps.

Lemma keeps_entries h n : ∀ hasher, keeps (relay_entries IsNormalString hex_sha256 h n hasher).
Proof. induction n as [|n IH]; intros hasher; cbn [relay_entries]; keep; apply IH. Qed.

#[local] Hint Resolve keeps_entries : keeps.

Lemma keeps_recovery : keeps (RelayRecovery IsNormalString hex_sha256).
Proof. unfold RelayRecovery. keep. Qed.

(** Every check the wire relied on is worth an answer of the server for the
    very facts. *)
Definition justified (w : wire (ExportAuthorization.connection * list moment)) : Prop :=
  ∀ o f n, (o, f, n) ∈ granted w →
    ∃ b at_ x, Passed (Some o) f b at_ ∈ history (world w).1 ∧ x ∈ accepted (history (world w).1) ∧
      proper hex_sha256 i (initial (auth (world w).1)) x ∧ covers x at_ ∧ (f = true → b ≤ started_at x) ∧
      matches (permission x) o = true.

Lemma backed_justified w : backed w → justified w.
Proof.
  intros (Hr & _ & Hg) o f n (b & at_ & Hin)%Hg.
  destruct (passed_worth hex_sha256 i g _ _ _ _ _ Hr Hin) as (_ & x & Hx & Hp & Hc & _ & Hf & Ho).
  destruct (Ho o eq_refl) as (_ & _ & Hm). exists b, at_, x. by split_and!.
Qed.

Lemma keeps_justified {A} (p : stream _ A) c ts input torn_ room_ :
  keeps p → reached hex_sha256 i g c → idle c → justified (p (mkWire input torn_ [] room_ [] (c, ts))).1.
Proof.
  intros Hk Hr Hi. apply backed_justified. specialize (Hk (mkWire input torn_ [] room_ [] (c, ts))).
  destruct (p _) as [w r]. cbn. destruct r; apply Hk; split_and!; try done; intros o f n []%not_elem_of_nil.
Qed.

End Relay.
