(* ===== verification/ExportServe.v ===== *)
(** * Serving an export
      (src/internal/skillexport/stream.go, handshake.go,
       src/internal/runtimehelper/stopped_export.go)

    A connection starts with a request that carries a grant.  With the
    server's permission for it [serve] opens the authorization and sends the
    frozen capture of the session, or, if the helper has none, relays the
    stopped original work.  The helper's answers and the timing of every check
    are inputs. *)

From S2P Require Import Prelude GoText GoTime GoJson GoUtf8 GoJsonText GoJsonValue GoJsonDecode GoJsonStruct.
From S2P Require Import Manifest SkillContent StartResult Finalization NodeExport ExportStream ExportStreamFacts.
From S2P Require Import RecoveryStream RecoveryFacts ExportAuthorization ExportAuthorizationFacts ExportSession.

(** ** The handshake *)

Record exportRequest := mkRequest { request_grant : string; recovery : bool }.

Definition request_names : list string := ["version"; "grant"; "recovery_version"].

(** [grantPattern] is the pattern of [nodeExportGrantPattern]. *)
Definition grantPattern : string → bool := nodeExportGrantPattern.

(** The number 1, as it is written. *)
Definition is_one (j : option json) : bool :=
  match j with Some (JNum literal) => String.eqb literal "1" | _ => false end.

Definition decode_request (text : string) : option exportRequest :=
  j ← parse_json text;
  match j with
  | JObj members =>
      let names := map (λ m, m.1.1) members in
      if negb (forallb (λ n, bool_decide (n ∈ request_names)) names && bool_decide (NoDup names)) then None else
      let member n := snd <$> raw_member j n in
      if negb (is_one (member "version")) then None else
      let recovery := is_some (member "recovery_version") in
      if recovery && negb (is_one (member "recovery_version")) then None else
      match member "grant" with
      | Some (JStr grant) =>
          if (4096 <? len grant) || negb (grantPattern grant) then None else Some (mkRequest grant recovery)
      | _ => None
      end
  | _ => None
  end.

(** The bytes that arrived before the end of the input, and whether reading
    failed or took too long. *)
Definition readGrant (data : list Z) (failed : bool) : option exportRequest :=
  let data := take (Z.to_nat 8193) data in
  if failed || (8192 <? Z.of_nat (length data)) then None else decode_request (text_of data).

(** ** The helper *)

(** An open reader gives for a digest its entry, the file's bytes and whether
    they end in EOF. *)
Definition object_reader : Type := string → option (Manifest.Entry * list Z * bool).

(** What the helper answers in the course of a connection: the readers it
    opens one after the other, what the ticker does before the reader's age is
    looked at and before it is replaced (by the number of the objects left), and
    for stopped work whether it accepts the request. *)
Record export_store := mkStore {
  inspected : option FinalizationRecord;
  held : option FinalizationRecord;
  loaded : option (FinalizationRecord * Manifest.Manifest);
  scan_ended : bool;
  readers : list (option object_reader);
  pauses : nat → list turn * list turn;
  serves_exports : bool;
  serves_recoveries : bool;
  reachable : bool
}.

Definition reader_lifetime : Z := 600 * second.

Section Serve.
Context (IsNormalString : string → bool) (hex_sha256 : list Z → string).

#[local] Abbreviation serving := (stream (connection * list moment)).

(** [check] and [refresh]; the wire notes the facts observed so far. *)
Definition reverify (force : bool) : serving unit := λ w,
  let put s gr := mkWire (incoming w) (torn w) (outgoing w) (room w) (granted w ++ gr) s in
  match world w with
  | (c, []) => (put (c <| auth := cancel (auth c) |>, []) [], None)
  | (c, m :: ms) =>
      let c := wait (d0 (own m)) (rest hex_sha256 (ticks m) c) in
      let '(c', ok) := verify_now hex_sha256 (mkCall (observed (auth c)) force (clock c) Entering) (own m) c in
      if ok then
        (put (c', ms) (match observed (auth c) with Some o => [(o, force, length (outgoing w))] | None => [] end), Some tt)
      else (put (c', ms) [], None)
  end.

(** [time.Now()], behind some checks of the ticker. *)
Definition now (ts : list turn) : serving time :=
  act (λ s, let c := rest hex_sha256 ts s.1 in ((c, s.2), Some (clock c))).

#[local] Instance serve_world : ExportWorld (connection * list moment) := session_world hex_sha256.

Definition sendObject (expected : Manifest.Entry) (opened : option (Manifest.Entry * list Z * bool)) : serving unit :=
  '(entry, content, ends) ← of_option opened;
  _ ← require_stream (is_file entry && String.eqb (Manifest.SHA256 entry) (Manifest.SHA256 expected) &&
                      (Manifest.Size entry =? Manifest.Size expected) &&
                      String.eqb (Manifest.ContentKind entry) (Manifest.ContentKind expected));
  verifier ← of_option (match NewContentVerifier IsNormalString expected with Ok v => Some v | Err _ => None end);
  let size := Z.to_nat (Manifest.Size entry) in
  _ ← write (take size content);
  _ ← require_stream (size <=? length content)%nat;
  _ ← require_stream (Nat.eqb (length (drop size content)) 0 && ends);
  _ ← require_stream (is_ok (Finish hex_sha256 (Write verifier (take size content)).1));
  alive.

(** The loop of [serve]: the current reader, when it was opened, and those to
    come. *)
Fixpoint serve_objects (store : export_store) (reader : object_reader) (opened : time)
    (next : list (option object_reader)) (objects : list Manifest.Entry) : serving unit :=
  match objects with
  | [] => mret tt
  | entry :: rest =>
      let '(before_age, before_open) := pauses store (length rest) in
      _ ← reverify false;
      t ← now before_age;
      '(reader, opened, next) ←
        (if reader_lifetime <=? t - opened then
           match next with
           | Some r :: next => t ← now before_open; mret (r, t, next)
           | _ => refuse
           end
         else mret (reader, opened, next));
      _ ← sendObject entry (reader (Manifest.SHA256 entry));
      _ ← reverify false;
      _ ← write [1];
      serve_objects store reader opened next rest
  end.

(** [streamStoppedSource]: the relay whose checks are for this binding only. *)
Definition streamStoppedSource (binding : NodeExportBinding) (store : export_store) (recovery : bool) : serving unit :=
  _ ← require_stream (ExportBinding.Validate binding && reachable store);
  if recovery then RelayRecovery (H := bound_world hex_sha256 binding) IsNormalString hex_sha256
  else RelaySnapshot (H := bound_world hex_sha256 binding) IsNormalString hex_sha256.

(** The frozen capture. *)
Definition serve_frozen (initial : NodeExportPermission) (store : export_store) (record : FinalizationRecord)
    : serving unit :=
  _ ← require_stream (Permission.MatchCapture initial record);
  _ ← check (mkObservation (Permission.Binding initial) (Capture.TreeDigest record) (Capture.Unclean record)) false;
  held ← of_option (held store);
  _ ← require_stream (SameFinalizationInput held record);
  '(loaded, manifest) ← of_option (loaded store);
  _ ← require_stream (Permission.MatchCapture initial loaded &&
                      String.eqb (Capture.TreeDigest loaded) (Capture.TreeDigest record) &&
                      Bool.eqb (Capture.Unclean loaded) (Capture.Unclean record));
  digest ← of_option (digest_of IsNormalString hex_sha256 manifest);
  _ ← require_stream (String.eqb digest (Capture.TreeDigest record));
  objects ← of_option (exportObjects manifest);
  _ ← require_stream (negb (scan_ended store));
  _ ← reverify true;
  _ ← write Magic;
  let h := Header.mk 1 (Permission.Binding initial) digest (Capture.Unclean record) manifest (Z.of_nat (length objects)) in
  _ ← writeFrame (Header.text h) maxManifestBytes;
  '(reader, next) ← of_option (match readers store with Some r :: next => Some (r, next) | _ => None end);
  opened ← now [];
  _ ← serve_objects store reader opened next objects;
  _ ← reverify true;
  writeFrame (Footer.text (footer_of h objects)) footer_bytes.

(** [serve] behind the handshake and the first answer of the server. *)
Definition serve_authorized_stream (request : exportRequest) (initial : NodeExportPermission) (store : export_store)
    : serving unit :=
  _ ← reverify false;
  match inspected store with
  | None =>
      if recovery request then
        if negb (serves_recoveries store) || is_some (Permission.IncomingDigest initial) then refuse
        else streamStoppedSource (Permission.Binding initial) store true
      else if serves_exports store then streamStoppedSource (Permission.Binding initial) store false
      else refuse
  | Some record => serve_frozen initial store record
  end.

(** [serve]: the request, the server's first answer, which was asked for at
    [started] and has arrived at [arrived], and the wire on which the rest
    happens; without one nothing is sent. *)
Definition serve (i : Identity) (data : list Z) (failed : bool) (started arrived : time)
    (answer : option NodeExportPermission) (moments : list moment) (store : export_store)
    (helper_bytes : list Z) (helper_torn : bool) (output_room : option nat)
    : option (wire (connection * list moment) * option unit) :=
  request ← readGrant data failed;
  initial ← answer;
  if negb (Permission.Validate initial && matchesIdentity initial i && after (Permission.ExpiresAt initial) arrived)
  then None
  else
    let g := request_grant request in
    let c := mkConnection (newExportAuthorization i g initial started) arrived None ∅
               [Accepted (mkAcceptance started arrived g initial g)] in
    Some (serve_authorized_stream request initial store (mkWire helper_bytes helper_torn [] output_room [] (c, moments))).
End Serve.
