(* ===== verification/ExportServeFacts.v ===== *)
(** * Serving an export: what a connection sends

    The two relays and the frozen export obey the same gate: a valid header
    behind a fresh authorization, verified contents, and a footer behind all of
    them and another fresh authorization, where every authorization is an
    answer of the server that covers the check. *)

From S2P Require Import Prelude GoText GoTime GoJson GoUtf8 GoJsonText GoJsonValue GoJsonDecode GoJsonStruct.
From S2P Require Import Manifest SkillContent StartResult Finalization NodeExport ExportStream ExportStreamFacts.
From S2P Require Import RecoveryStream RecoveryFacts ExportAuthorization ExportAuthorizationFacts ExportSession ExportServe.

(** ** The observed facts *)

Section Facts.
Context (hex_sha256 : list Z → string).

Lemma needsRefresh_observed f n a a' r : needsRefresh f n a = (a', r) → observed a' = observed a.
Proof. intros Hr%needsRefresh_cases. destruct r; [by destruct Hr as [-> _]|by rewrite Hr]. Qed.

Lemma finish_observed started n1 n2 n3 answer a a' ok :
  finish_verify hex_sha256 started n1 n2 n3 answer a = (a', ok) → observed a' = observed a.
Proof.
  destruct ok; [|by intros (_ & _ & _ & Ho)%finish_false].
  intros (p & g & renewed & _ & -> & _)%finish_true. done.
Qed.

Lemma verify_now_observed v t c : observed (auth (verify_now hex_sha256 v t c).1) = observed (auth c).
Proof.
  unfold verify_now. destruct (needsRefresh _ _ _) as [a r] eqn:E1. apply needsRefresh_observed in E1.
  destruct r as [[]|]; cbn; [|done|done].
  destruct (needsRefresh _ _ _) as [a2 r2] eqn:E2. apply needsRefresh_observed in E2. cbn in E2.
  destruct r2 as [[]|]; cbn; [|congruence|congruence].
  destruct (finish_verify _ _ _ _ _ _ _) as [a3 ok] eqn:E3. apply finish_observed in E3. destruct ok; cbn; congruence.
Qed.

Lemma rest_observed ts : ∀ c, observed (auth (rest hex_sha256 ts c)) = observed (auth c).
Proof.
  induction ts as [|t ts IH]; intros c; [done|]. cbn [rest foldl]. etransitivity; [apply IH|]. unfold tick. by rewrite verify_now_observed.
Qed.

Lemma observe_observed o f t c : (observe hex_sha256 o f t c).2 = true → observed (auth (observe hex_sha256 o f t c).1) = Some o.
Proof.
  unfold observe. cbn zeta. change (auth (wait (d0 t) c)) with (auth c).
  destruct (observe_locked o (auth c)) as [a []] eqn:Ea; [|done]. intros _. rewrite verify_now_observed. cbn.
  revert Ea. unfold observe_locked. destruct (observed (auth c)) as [seen|] eqn:Eo.
  - case_bool_decide as Hs; [|done]. intros [= <-]. by rewrite Eo, Hs.
  - destruct (_ && _); [|done]. by intros [= <-].
Qed.
End Facts.

(** ** A connection that has observed its facts *)

Section Serve.
Context (IsNormalString : string → bool) (hex_sha256 : list Z → string).

#[local] Abbreviation serving := (stream (connection * list moment)).
#[local] Instance serve_world : ExportWorld (connection * list moment) := session_world hex_sha256.

Definition facing (o : Observation) (w : wire (connection * list moment)) : Prop := observed (auth (world w).1) = Some o.

Definition stays {A} (p : serving A) : Prop := ∀ o w, facing o w → facing o (p w).1.

(** A computation that leaves the facts alone. *)
Lemma triple_facing {A} o P (p : serving A) (Q : A → wire (connection * list moment) → Prop) E :
  stays p → triple P p Q E → triple (λ w, P w ∧ facing o w) p (λ a w, Q a w ∧ facing o w) E.
Proof.
  intros Hs Hp w [Hw Hf]. specialize (Hp w Hw). specialize (Hs o w Hf). destruct (p w) as [w' [a|]]; [by split|done].
Qed.

Lemma stays_bind {A B} (p : serving A) (f : A → serving B) : stays p → (∀ a, stays (f a)) → stays (p ≫= f).
Proof.
  intros Hp Hf o w Hw. specialize (Hp o w Hw). unfold mbind, stream_bind. destruct (p w) as [w' [a|]]; [by apply Hf|done].
Qed.

Lemma stays_world {A} (p : serving A) : (∀ w, world (p w).1 = world w) → stays p.
Proof. intros Hp o w Hw. unfold facing. by rewrite Hp. Qed.

Lemma stays_write data : stays (write data).
Proof. apply stays_world. intros w. unfold write. destruct (room w); [by destruct (_ <=? _)%nat|done]. Qed.

Lemma stays_require b : stays (require_stream b).
Proof. apply stays_world. by destruct b. Qed.

Lemma stays_option {A} (x : option A) : stays (of_option x).
Proof. by apply stays_world. Qed.

Lemma stays_ret {A} (a : A) : stays (mret a).
Proof. by apply stays_world. Qed.

Lemma stays_alive : stays alive.
Proof. apply stays_world. intros w. unfold alive. cbn. by destruct (cancelled (auth (world w).1)). Qed.

Lemma stays_now d : stays (now hex_sha256 d).
Proof. intros o w Hw. unfold facing, now, act. cbn. by rewrite rest_observed. Qed.

Create HintDb stays.
#[local] Hint Resolve stays_bind stays_write stays_require stays_option stays_ret stays_alive stays_now : stays.

Lemma stays_frame text maximum : stays (ExportStream.writeFrame text maximum).
Proof. unfold ExportStream.writeFrame. eauto with stays. Qed.

Lemma stays_content v size src ends : stays (copy_content hex_sha256 v size src ends).
Proof. unfold copy_content. eauto 10 with stays. Qed.

#[local] Hint Resolve stays_frame stays_content : stays.

(** [check] and [refresh] prove the facts that were observed. *)
Lemma triple_reverify o f out gr :
  triple (λ w, standing out gr w ∧ facing o w) (reverify hex_sha256 f)
    (λ _ w, standing out (gr ++ [(o, f, length out)]) w ∧ facing o w) (standing out gr).
Proof.
  intros w [[Ho Hg] Hf]. unfold reverify. unfold facing in Hf. destruct (world w) as [c [|m ms]] eqn:Ew; cbn in *.
  { by split; [|rewrite app_nil_r]. }
  rewrite <- (rest_observed hex_sha256 (ticks m) c) in Hf. set (c1 := rest _ _ _) in *.
  set (v := mkCall _ _ _ _). pose proof (verify_now_observed hex_sha256 v (own m) (wait (d0 (own m)) c1)) as Hv.
  destruct (verify_now _ _ _ _) as [c' ok]. cbn in Hv. rewrite Hf in Hv.
  destruct ok; cbn; [|by split; [|rewrite app_nil_r]].
  rewrite Hf. split; [|exact Hv]. split; [done|]. cbn. by rewrite Hg, Ho.
Qed.

Lemma triple_observe o f out gr :
  triple (standing out gr) (check o f)
    (λ _ w, standing out (gr ++ [(o, f, length out)]) w ∧ facing o w) (standing out gr).
Proof.
  intros w Hw. pose proof (triple_check out gr o f w Hw) as Hc.
  assert (Hf : (check o f w).2 = Some tt → facing o (check o f w).1).
  { unfold check. cbn. unfold session_authorize. destruct (world w) as [c [|m ms]]; cbn; [done|].
    pose proof (observe_observed hex_sha256 o f (own m) (rest hex_sha256 (ticks m) c)) as Hob. destruct (observe _ _ _ _ _) as [c' []]; cbn in *; [|done].
    intros _. by apply Hob. }
  destruct (check o f w) as [w' [[]|]]; [|exact Hc]. split; [exact Hc|by apply Hf].
Qed.

(** ** The frozen contents *)

(** The entry the reader opened is the expected one where it counts. *)
Definition same_file (entry expected : Manifest.Entry) : bool :=
  is_file entry && String.eqb (Manifest.SHA256 entry) (Manifest.SHA256 expected) &&
  (Manifest.Size entry =? Manifest.Size expected) &&
  String.eqb (Manifest.ContentKind entry) (Manifest.ContentKind expected).

Lemma stays_send e opened : stays (sendObject IsNormalString hex_sha256 e opened).
Proof.
  unfold sendObject. apply stays_bind; [auto with stays|]. intros [[entry content] ends].
  apply stays_bind; [auto with stays|]. intros []. apply stays_bind; [auto with stays|]. intros v.
  apply (stays_content v (Z.to_nat (Manifest.Size entry)) content ends).
Qed.

Lemma triple_send e opened out gr E :
  (∀ part w, (length part ≤ Z.to_nat (Manifest.Size e))%nat → standing (out ++ part) gr w → E w) →
  triple (standing out gr) (sendObject IsNormalString hex_sha256 e opened)
    (λ _ w, ∃ src, standing (out ++ src) gr w ∧ length src = Z.to_nat (Manifest.Size e) ∧
                   ExportStreamFacts.verified IsNormalString hex_sha256 e src) E.
Proof.
  intros HE. assert (H0 : ∀ w, standing out gr w → E w).
  { intros w Hw. apply (HE [] w); [cbn; lia|by rewrite app_nil_r]. }
  unfold sendObject. eapply triple_bind; [by apply triple_option|]. intros [[entry content] ends] w [Hw _]. revert w Hw.
  eapply triple_bind; [by apply triple_require|]. intros [] w [Hw Hsame]. revert w Hw.
  assert (Hsize : Manifest.Size entry = Manifest.Size e) by (apply Z.eqb_eq; by repeat (apply andb_true_iff in Hsame as [Hsame ?])).
  eapply triple_bind; [by apply triple_verifier|]. intros v w [Hw Ev]. revert w Hw. rewrite Hsize.
  eapply triple_weaken; [apply (triple_content IsNormalString hex_sha256 e v content ends out gr E Ev)| |done].
  - intros k w. apply HE. rewrite !length_take. lia.
  - intros [] w Hw. by exists content.
Qed.

(** The output and the grants stay as they are. *)
Definition silent {A} (p : serving A) : Prop := ∀ w, outgoing (p w).1 = outgoing w ∧ granted (p w).1 = granted w.

Lemma silent_now d : silent (now hex_sha256 d).
Proof. by intros w. Qed.

Lemma silent_bind {A B} (p : serving A) (f : A → serving B) : silent p → (∀ a, silent (f a)) → silent (p ≫= f).
Proof.
  intros Hp Hf w. specialize (Hp w). unfold mbind, stream_bind. destruct (p w) as [w' [a|]]; [|done].
  destruct (Hf a w') as [-> ->]. exact Hp.
Qed.

Lemma triple_silent {A} o out gr (p : serving A) E :
  silent p → stays p → (∀ w, standing out gr w → E w) →
  triple (λ w, standing out gr w ∧ facing o w) p (λ _ w, standing out gr w ∧ facing o w) E.
Proof.
  intros Hp Hs HE. apply triple_facing; [done|].
  intros w [Ho Hg]. destruct (Hp w) as [Ho' Hg']. destruct (p w) as [w' [a|]]; cbn in *; [|apply HE]; by split; congruence.
Qed.

#[local] Abbreviation verified := (ExportStreamFacts.verified IsNormalString hex_sha256).
#[local] Abbreviation sending := (ExportStreamFacts.sending (W := connection * list moment) IsNormalString hex_sha256).
#[local] Abbreviation first_grant h := (Header.observed h, true, 0%nat).

Lemma triple_serve_objects store h objects rest reader opened next sent contents gr :
  objects = sent ++ rest → Forall2 verified sent contents → first_grant h ∈ gr →
  triple (λ w, standing (head h ++ body contents) gr w ∧ facing (Header.observed h) w)
    (serve_objects IsNormalString hex_sha256 store reader opened next rest)
    (λ _ w, (∃ contents', Forall2 verified objects contents' ∧ outgoing w = head h ++ body contents' ∧
                          first_grant h ∈ granted w) ∧ facing (Header.observed h) w)
    (λ w, first_grant h ∈ granted w ∧ sending h objects w).
Proof.
  revert reader opened next sent contents gr.
  induction rest as [|e rest IH]; intros reader opened next sent contents gr Hobj Hv H0.
  { intros w [[Ho Hg] Hf]. split; [|done]. exists contents. rewrite app_nil_r in Hobj. subst sent. by rewrite Hg. }
  cbn [serve_objects]. destruct (pauses store (length rest)) as [d1 d2].
  set (o := Header.observed h). set (g := (o, false, length (head h ++ body contents))).
  assert (Hpart : ∀ gr' part w, gr ++ [g] ⊆ gr' → (length part ≤ Z.to_nat (Manifest.Size e))%nat →
    standing ((head h ++ body contents) ++ part) gr' w → first_grant h ∈ granted w ∧ sending h objects w).
  { intros gr' part w Hsub Hl Hw.
    apply (sending_part IsNormalString hex_sha256 h objects sent e rest contents part gr'); [done|done|done| | |by rewrite (assoc_L (++))].
    - intros _. apply Hsub, elem_of_app. right. by apply list_elem_of_singleton.
    - apply Hsub, elem_of_app. by left. }
  assert (Hnone : ∀ w, standing (head h ++ body contents) gr w → first_grant h ∈ granted w ∧ sending h objects w).
  { intros w Hw. apply (sending_part IsNormalString hex_sha256 h objects sent e rest contents [] gr);
      [done|done|cbn; lia|done|done|by rewrite app_nil_r]. }
  assert (Hstart : ∀ w, standing (head h ++ body contents) (gr ++ [g]) w → first_grant h ∈ granted w ∧ sending h objects w).
  { intros w Hw. apply (Hpart (gr ++ [g]) []); [done|cbn; lia|by rewrite app_nil_r]. }
  eapply triple_bind; [eapply triple_weaken; [apply triple_reverify|intros ? w Hw; exact Hw|exact Hnone]|].
  intros []. eapply triple_bind; [by apply triple_silent; [apply silent_now|apply stays_now|]|]. intros t.
  eapply triple_bind.
  { apply (triple_silent o (head h ++ body contents) (gr ++ [g])); [..|exact Hstart].
    - destruct (_ <=? _); [|done]. destruct next as [|[r|] next]; [done| |done]. by apply silent_bind; [apply silent_now|].
    - destruct (_ <=? _); [|auto with stays]. destruct next as [|[r|] next]; [by apply stays_world|eauto with stays|by apply stays_world]. }
  intros [[reader' opened'] next']. eapply triple_bind.
  { apply triple_facing; [apply stays_send|]. apply triple_send. intros part w Hl Hw. by apply (Hpart (gr ++ [g]) part). }
  intros [] w [(src & Hw & Hl & Hver) Hf]. generalize (conj Hw Hf). clear Hw Hf. revert w.
  assert (Hsrc : ∀ gr' w, gr ++ [g] ⊆ gr' → standing ((head h ++ body contents) ++ src) gr' w →
    first_grant h ∈ granted w ∧ sending h objects w) by (intros gr' w Hsub Hw; apply (Hpart gr' src); [done|lia|done]).
  set (gr2 := (gr ++ [g]) ++ [(o, false, length ((head h ++ body contents) ++ src))]).
  assert (Hgr2 : gr ++ [g] ⊆ gr2) by (intros x Hx; apply elem_of_app; by left).
  eapply triple_bind; [eapply triple_weaken; [apply triple_reverify|intros ? w Hw; exact Hw|intros w Hw; by apply (Hsrc (gr ++ [g]))]|]. fold gr2.
  intros []. eapply triple_bind.
  { apply triple_facing; [apply stays_write|]. eapply triple_weaken; [apply triple_write|intros ? w Hw; exact Hw|].
    intros w [[|k] Hw]; [rewrite app_nil_r in Hw; by apply (Hsrc gr2)|].
    destruct Hw as [Ho Hg]. cbn [take] in Ho. rewrite take_nil in Ho.
    assert (Hfirst : first_grant h ∈ granted w).
    { rewrite Hg. apply Hgr2, elem_of_app. by left. }
    split; [exact Hfirst|]. exists (sent ++ [e]), rest, (contents ++ [src]), []. split_and!.
    - by rewrite <- (assoc_L (++)).
    - by apply Forall2_app; [|constructor].
    - by rewrite Ho, body_snoc, app_nil_r, <- !(assoc_L (++)).
    - destruct rest; [done|]. split; [cbn; lia|done]. }
  intros []. eapply triple_pre; [|apply (IH reader' opened' next' (sent ++ [e]) (contents ++ [src]) gr2)].
  - intros w [[Ho Hg] Hf]. split; [|exact Hf]. split; [|exact Hg]. by rewrite Ho, body_snoc, <- !(assoc_L (++)).
  - by rewrite <- (assoc_L (++)).
  - by apply Forall2_app; [|constructor].
  - apply Hgr2, elem_of_app. by left.
Qed.

#[local] Abbreviation validateHeader := (ExportStream.validateHeader IsNormalString hex_sha256).
#[local] Abbreviation closing := (ExportStreamFacts.closing (W := connection * list moment) IsNormalString hex_sha256).
#[local] Abbreviation gated := (ExportStreamFacts.gated (W := connection * list moment) IsNormalString hex_sha256).

(** The complete export of a snapshot was sent. *)
Definition whole_snapshot (w : wire (connection * list moment)) : Prop :=
  ∃ h objects contents, validateHeader h = Some objects ∧ first_grant h ∈ granted w ∧
    closing h objects contents w ∧ outgoing w = snapshot_bytes h objects contents.

(** [serve_frozen] once the capture is known. *)
Definition frozen_content (store : export_store) (h : Header) (objects : list Manifest.Entry) : serving unit :=
  _ ← reverify hex_sha256 true;
  _ ← write Magic;
  _ ← ExportStream.writeFrame (Header.text h) maxManifestBytes;
  '(reader, next) ← of_option (match readers store with Some r :: next => Some (r, next) | _ => None end);
  opened ← now hex_sha256 [];
  _ ← serve_objects IsNormalString hex_sha256 store reader opened next objects;
  _ ← reverify hex_sha256 true;
  ExportStream.writeFrame (Footer.text (footer_of h objects)) footer_bytes.

Lemma triple_footer h objects contents gr o :
  o = Header.observed h → validateHeader h = Some objects → Forall2 verified objects contents → first_grant h ∈ gr →
  triple (λ w, standing (head h ++ body contents) gr w ∧ facing o w)
    (_ ← reverify hex_sha256 true; ExportStream.writeFrame (Footer.text (footer_of h objects)) footer_bytes)
    (λ _, whole_snapshot) gated.
Proof.
  intros -> Hval Hv H0.
  assert (Hsent : ∀ w, standing (head h ++ body contents) gr w → gated w).
  { intros w [Ho Hg]. right. exists h, objects. split_and!; [done|by rewrite Hg|]. right; left.
    exists objects, [], contents, []. by rewrite !app_nil_r. }
  eapply triple_bind; [eapply triple_weaken; [apply triple_reverify|intros ? w Hw; exact Hw|exact Hsent]|].
  set (gr' := gr ++ _).
  assert (Hclose : ∀ w part, part `prefix_of` frame (Footer.text (footer_of h objects)) →
    standing ((head h ++ body contents) ++ part) gr' w → first_grant h ∈ granted w ∧ closing h objects contents w).
  { intros w part Hp [Ho Hg]. rewrite Hg. split; [apply elem_of_app; by left|]. split_and!; [done| |].
    - rewrite Hg. apply elem_of_app. right. by apply list_elem_of_singleton.
    - rewrite Ho. unfold snapshot_bytes. rewrite <- (assoc_L (++)). by do 2 apply prefix_app. }
  intros []. eapply triple_pre; [by intros w [Hw _]; exact Hw|].
  eapply triple_weaken; [apply triple_writeFrame| |intros w Hw; exact Hw].
  - intros w part Hp Hw. destruct (Hclose w part Hp Hw) as [Hg Hc]. right. exists h, objects. split_and!; eauto.
  - intros [] w Hw. destruct (Hclose w _ (reflexivity _) Hw) as [Hg Hc]. exists h, objects, contents. split_and!; [done|done|done|].
    destruct Hw as [-> _]. unfold snapshot_bytes. by rewrite <- (assoc_L (++)).
Qed.

Lemma triple_frozen_content store h objects gr :
  validateHeader h = Some objects →
  triple (λ w, standing [] gr w ∧ facing (Header.observed h) w) (frozen_content store h objects)
    (λ _, whole_snapshot) gated.
Proof.
  intros Hval. assert (Hnil : ∀ gr' (w : wire (connection * list moment)), standing [] gr' w → gated w) by (intros gr' w [Ho _]; by left).
  unfold frozen_content. eapply triple_bind.
  { eapply triple_weaken; [apply triple_reverify|intros ? w Hw; exact Hw|]. intros w Hw. by eapply Hnil. }
  cbn [length]. set (gr1 := gr ++ [first_grant h]).
  assert (H0 : first_grant h ∈ gr1) by (apply elem_of_app; right; by apply list_elem_of_singleton).
  assert (Hhead : ∀ (w : wire (connection * list moment)) part, part `prefix_of` head h → standing part gr1 w → gated w).
  { intros w part Hp [Ho Hg]. right. exists h, objects. split_and!; [done|by rewrite Hg|left; by rewrite Ho]. }
  assert (Hsend : ∀ w, first_grant h ∈ granted w ∧ sending h objects w → gated w).
  { intros w [Hg Hs]. right. exists h, objects. auto. }
  intros []. eapply triple_bind.
  { apply triple_facing; [apply stays_write|]. eapply triple_weaken; [apply triple_write|intros ? w Hw; exact Hw|].
    intros w [k Hw]. apply (Hhead w (take k Magic)); [|exact Hw]. unfold head. apply prefix_app_r, prefix_take. }
  intros []. eapply triple_bind.
  { apply triple_facing; [apply stays_frame|]. apply (triple_writeFrame _ _ Magic gr1). intros w part Hp Hw.
    apply (Hhead w (Magic ++ part)); [unfold head; by apply prefix_app|exact Hw]. }
  change (Magic ++ frame (Header.text h)) with (head h). intros [].
  eapply triple_bind.
  { apply triple_facing; [apply stays_option|]. apply triple_option. intros w Hw. by apply (Hhead w (head h)). }
  intros [reader next]. eapply triple_bind.
  { eapply triple_pre; [by intros w [[Hw _] Hf]; exact (conj Hw Hf)|].
    apply (triple_silent _ (head h) gr1); [apply silent_now|apply stays_now|]. intros w Hw. by apply (Hhead w (head h)). }
  intros opened. eapply triple_bind.
  { eapply triple_pre; [|eapply triple_weaken; [by apply (triple_serve_objects store h objects objects reader opened next [] [] gr1)| |exact Hsend]].
    - intros w [[Ho Hg] Hf]. split; [|exact Hf]. split; [by rewrite Ho, app_nil_r|exact Hg].
    - intros ? w Hw. exact Hw. }
  intros [] w [(contents & Hv & Ho & Hg) Hf].
  exact (triple_footer h objects contents (granted w) _ eq_refl Hval Hv Hg w (conj (conj Ho eq_refl) Hf)).
Qed.

Lemma observed_header binding record manifest digest n :
  digest = Capture.TreeDigest record →
  mkObservation binding (Capture.TreeDigest record) (Capture.Unclean record) =
    Header.observed (Header.mk 1 binding digest (Capture.Unclean record) manifest n).
Proof. by intros ->. Qed.

Lemma frozen_valid initial record manifest digest objects :
  Permission.MatchCapture initial record = true → digest_of IsNormalString hex_sha256 manifest = Some digest →
  exportObjects manifest = Some objects →
  validateHeader (Header.mk 1 (Permission.Binding initial) digest (Capture.Unclean record) manifest
                    (Z.of_nat (length objects))) = Some objects.
Proof.
  intros Hmatch Hd Ho. assert (Hm : ExportBinding.Validate (Permission.Binding initial) = true).
  { unfold Permission.MatchCapture, Permission.Validate in Hmatch. by destruct (ExportBinding.Validate _). }
  unfold ExportStream.validateHeader. cbn [Header.Version Header.Binding Header.Manifest_ Header.TreeDigest Header.FileObjects].
  rewrite Hm, Hd, bool_decide_eq_true_2 by done. cbn -[exportObjects]. by rewrite Ho; cbn; rewrite Z.eqb_refl.
Qed.

Lemma triple_frozen initial store record gr :
  triple (standing [] gr) (serve_frozen IsNormalString hex_sha256 initial store record) (λ _, whole_snapshot) gated.
Proof.
  assert (Hnil : ∀ gr' (w : wire (connection * list moment)), standing [] gr' w → gated w) by (intros gr' w [Ho _]; by left).
  set (o := mkObservation (Permission.Binding initial) (Capture.TreeDigest record) (Capture.Unclean record)).
  unfold serve_frozen. eapply triple_bind; [apply triple_require; intros; by eapply Hnil|].
  intros [] w [Hw Hmatch]. revert w Hw. fold o. eapply triple_bind.
  { eapply triple_weaken; [apply triple_observe|intros ? w Hw; exact Hw|]. intros w Hw. by eapply Hnil. }
  set (gr1 := gr ++ _). set (P := λ w : wire (connection * list moment), standing [] gr1 w ∧ facing o w).
  assert (HP : ∀ w, P w → gated w) by (intros w [Hw _]; by eapply Hnil).
  intros []. fold P. eapply triple_bind; [by apply triple_option|]. intros held_ w [Hw _]. revert w Hw.
  eapply triple_bind; [by apply triple_require|]. intros [] w [Hw _]. revert w Hw.
  eapply triple_bind; [by apply triple_option|]. intros [loaded_ manifest] w [Hw _]. revert w Hw.
  eapply triple_bind; [by apply triple_require|]. intros [] w [Hw _]. revert w Hw.
  eapply triple_bind; [by apply triple_option|]. intros digest w [Hw Hd]. revert w Hw.
  eapply triple_bind; [by apply triple_require|]. intros [] w [Hw Heq%String.eqb_eq]. revert w Hw.
  eapply triple_bind; [by apply triple_option|]. intros objects w [Hw Hobj]. revert w Hw.
  eapply triple_bind; [by apply triple_require|]. intros [] w [[Hw Hf] _].
  set (h := Header.mk 1 (Permission.Binding initial) digest (Capture.Unclean record) manifest (Z.of_nat (length objects))).
  assert (Hval : validateHeader h = Some objects) by by apply frozen_valid.
  assert (Ho : o = Header.observed h) by by apply observed_header.
  rewrite Ho in Hf. exact (triple_frozen_content store h objects gr1 Hval w (conj Hw Hf)).
Qed.

(** ** The whole connection *)

#[local] Abbreviation recovery_gated := (RecoveryFacts.recovery_gated (W := connection * list moment) IsNormalString hex_sha256).

Definition whole_stopped (w : wire (connection * list moment)) : Prop :=
  ∃ h items, recovery_closing IsNormalString hex_sha256 h items w ∧ outgoing w = recovery_bytes h items.

(** What was sent is a gated snapshot or a gated recovery. *)
Definition sent_gated (w : wire (connection * list moment)) : Prop := gated w ∨ recovery_gated w.

Definition sent_whole (w : wire (connection * list moment)) : Prop :=
  sent_gated w ∧ (whole_snapshot w ∨ whole_stopped w).

Lemma whole_sent w : whole_snapshot w → gated w.
Proof.
  intros (h & objects & contents & Hval & H0 & Hc & Ho). right. exists h, objects. split_and!; eauto.
Qed.

Lemma triple_stopped binding store rec gr :
  triple (standing [] gr) (streamStoppedSource IsNormalString hex_sha256 binding store rec)
    (λ _, sent_whole) sent_gated.
Proof.
  unfold streamStoppedSource.
  eapply triple_bind; [apply triple_require; intros w [Ho _]; left; by left|]. intros [] w [Hw _]. revert w Hw.
  destruct rec.
  - eapply triple_weaken; [apply (triple_recovery IsNormalString hex_sha256 (H := bound_world hex_sha256 binding))| |].
    + intros [] w [Hg Hc]. split; [by right|by right].
    + intros w Hw. by right.
  - eapply triple_weaken; [apply (triple_relay IsNormalString hex_sha256 (H := bound_world hex_sha256 binding))| |].
    + intros [] w Hw. split; [left; by apply whole_sent|by left].
    + intros w Hw. by left.
Qed.

Lemma triple_serve request initial store gr :
  triple (standing [] gr) (serve_authorized_stream IsNormalString hex_sha256 request initial store)
    (λ _, sent_whole) sent_gated.
Proof.
  assert (Hnil : ∀ gr' (w : wire (connection * list moment)), standing [] gr' w → sent_gated w) by (intros gr' w [Ho _]; left; by left).
  unfold serve_authorized_stream. eapply triple_bind.
  { instantiate (1 := λ _ w, ∃ gr', standing [] gr' w). intros w [Ho Hg]. unfold reverify.
    destruct (world w) as [c [|m ms]]; cbn; [by eapply (Hnil (granted w ++ []))|].
    destruct (verify_now _ _ _ _) as [c' []]; cbn; [by eexists|by eapply (Hnil (granted w ++ []))]. }
  intros [] w [gr' Hw]. clear gr. revert w Hw. change (triple (standing [] gr') (match inspected store with
    | None => if recovery request then
        if negb (serves_recoveries store) || is_some (Permission.IncomingDigest initial) then refuse
        else streamStoppedSource IsNormalString hex_sha256 (Permission.Binding initial) store true
      else if serves_exports store then streamStoppedSource IsNormalString hex_sha256 (Permission.Binding initial) store false
      else refuse
    | Some record => serve_frozen IsNormalString hex_sha256 initial store record end) (λ _, sent_whole) sent_gated).
  assert (Hrefuse : triple (standing [] gr') refuse (λ _ : unit, sent_whole) sent_gated) by (intros w Hw; by eapply Hnil).
  destruct (inspected store) as [record|].
  - eapply triple_weaken; [apply triple_frozen| |intros w Hw; by left].
    intros [] w Hw. split; [left; by apply whole_sent|by left].
  - destruct (recovery request).
    + destruct (negb _ || _); [done|apply triple_stopped].
    + destruct (serves_exports store); [apply triple_stopped|done].
Qed.

(** ** Authorization *)

Section Backed.
Context (i : Identity) (g : string).

#[local] Abbreviation keeps := (ExportSession.keeps hex_sha256 i g).

Lemma keeps_now ts : keeps (now hex_sha256 ts).
Proof.
  intros w (Hr & Hi & Hg). destruct (rest_path hex_sha256 ts _ Hi) as [Hs Hi']. unfold now, act. cbn.
  eapply (backed_advances hex_sha256 i g w None false _ false); [by split_and!|by split_and!|]. intros o' f' n Hin. by left.
Qed.

(** A check enters with the facts observed so far. *)
Lemma enters_observed c f :
  idle c →
  step hex_sha256 c (entered (mkCall (observed (auth c)) f (clock c) Entering) Entering c).
Proof.
  intros Hi. destruct (observed (auth c)) as [o|] eqn:Eo; [|by apply step_checks].
  pose proof (step_enters hex_sha256 c o f (auth c) Hi) as Hs. destruct c as [a cl rf m h]. cbn in *.
  unfold entered in *. cbn in *. apply Hs. unfold observe_locked. by rewrite Eo, bool_decide_eq_true_2.
Qed.

Lemma keeps_reverify f : keeps (reverify hex_sha256 f).
Proof.
  intros w Hw. pose proof Hw as (Hr & Hi & _). unfold reverify. destruct (world w) as [c [|m ms]] eqn:Ew; cbn [fst] in *.
  { eapply (backed_advances hex_sha256 i g w None f _ false); [exact Hw| |].
    - unfold advances. rewrite Ew. split_and!; [apply rtc_once, step_cancel|exact Hi|done].
    - intros o' f' n Hin. rewrite app_nil_r in Hin. by left. }
  destruct (rest_path hex_sha256 (ticks m) c Hi) as [Hs1 Hi1]. set (c1 := rest hex_sha256 (ticks m) c) in *.
  set (t := own m). set (c0 := wait (d0 t) c1). set (v := mkCall (observed (auth c0)) f (clock c0) Entering).
  assert (Hi0 : idle c0) by exact Hi1.
  destruct (verify_now_path hex_sha256 v t c0 Hi0) as (Hs & Hi' & Hp).
  assert (Hadv : advances hex_sha256 w (observed (auth c0)) f (verify_now hex_sha256 v t c0).1 (verify_now hex_sha256 v t c0).2).
  { unfold advances. rewrite Ew. cbn [fst]. split_and!; [|exact Hi'|intros Hok; destruct (Hp Hok) as [n Hin]; by exists (clock c0), n].
    etransitivity; [exact Hs1|]. eapply rtc_l; [by apply (step_tick hex_sha256 c1 (clock c1 + Z.of_N (d0 t))); lia|].
    eapply rtc_l; [by apply (enters_observed c0 f)|exact Hs]. }
  cbn zeta. fold c1 t c0 v. destruct (verify_now hex_sha256 v t c0) as [c' ok]. cbn [fst snd] in Hadv.
  destruct ok; eapply backed_advances; try exact Hw; try exact Hadv; intros o' f' n Hin.
  - apply elem_of_app in Hin as [Hin|Hin]; [by left|right]. destruct (observed (auth c0)) as [o|]; [|by apply not_elem_of_nil in Hin].
    apply list_elem_of_singleton in Hin as [= -> -> ->]. done.
  - rewrite app_nil_r in Hin. by left.
Qed.

Create HintDb serves.
#[local] Hint Resolve keeps_reverify keeps_now : serves.
#[local] Hint Extern 1 (keeps (mret _)) => apply (keeps_ret hex_sha256 i g) : serves.
#[local] Hint Extern 1 (keeps (require_stream _)) => apply (keeps_require hex_sha256 i g) : serves.
#[local] Hint Extern 1 (keeps (of_option _)) => apply (keeps_option hex_sha256 i g) : serves.
#[local] Hint Extern 1 (keeps (write _)) => apply (keeps_write hex_sha256 i g) : serves.
#[local] Hint Extern 1 (keeps alive) => apply (keeps_alive hex_sha256 i g None) : serves.
#[local] Hint Extern 1 (keeps (check _ _)) => apply (keeps_check hex_sha256 i g None) : serves.
#[local] Hint Extern 1 (keeps (ExportStream.writeFrame _ _)) => apply (keeps_writeFrame hex_sha256 i g) : serves.

Ltac keep := repeat (first [solve [auto with serves]|apply (keeps_bind hex_sha256 i g); [|intros ?]|case_match]).

Lemma keeps_refuse {A} : keeps (refuse (A := A)).
Proof. by intros w Hw. Qed.

#[local] Hint Resolve keeps_refuse : serves.

Lemma keeps_send e opened : keeps (sendObject IsNormalString hex_sha256 e opened).
Proof. unfold sendObject. keep. Qed.

#[local] Hint Resolve keeps_send : serves.

Lemma keeps_serve_objects store objects : ∀ reader opened next,
  keeps (serve_objects IsNormalString hex_sha256 store reader opened next objects).
Proof. induction objects as [|e objects IH]; intros reader opened next; cbn [serve_objects]; keep; apply IH. Qed.

#[local] Hint Resolve keeps_serve_objects : serves.

Lemma keeps_frozen initial store record : keeps (serve_frozen IsNormalString hex_sha256 initial store record).
Proof. unfold serve_frozen. keep. Qed.

Lemma keeps_stopped binding store rec : keeps (streamStoppedSource IsNormalString hex_sha256 binding store rec).
Proof.
  unfold streamStoppedSource. apply (keeps_bind hex_sha256 i g); [auto with serves|intros []]. destruct rec.
  - apply (keeps_recovery IsNormalString hex_sha256 i g (Some binding)).
  - apply (keeps_relay IsNormalString hex_sha256 i g (Some binding)).
Qed.

#[local] Hint Resolve keeps_frozen keeps_stopped : serves.

Lemma keeps_serve request initial store : keeps (serve_authorized_stream IsNormalString hex_sha256 request initial store).
Proof. unfold serve_authorized_stream. keep. Qed.
End Backed.

(** C11: an export connection sends only what the server authorized.  Whatever
    arrives as the request, whatever the server and the helper answer, however
    long everything takes, wherever the output stops and however often the
    readers of a capture are replaced: without a valid request and a valid
    permission for this identity [serve] sends nothing; otherwise it has sent,
    of a frozen capture or of stopped work, only what the gate allows, every
    check it relied on is backed by a permission of the server that covers it
    and matches the facts of the header, and if it succeeds the receiver has a
    complete stream. *)
Theorem serve_authorized i data failed started arrived answer moments store input torn_ room_ :
  started ≤ arrived →
  match serve IsNormalString hex_sha256 i data failed started arrived answer moments store input torn_ room_ with
  | None => True
  | Some (w, r) =>
      (∃ request, readGrant data failed = Some request ∧ reached hex_sha256 i (request_grant request) (world w).1) ∧
      sent_gated w ∧ justified hex_sha256 i w ∧ (r = Some tt → sent_whole w)
  end.
Proof.
  intros Hle. unfold serve. destruct (readGrant data failed) as [request|]; [|done]. cbn.
  destruct answer as [initial|]; [|done]. cbn. destruct (negb _) eqn:Eok; [done|].
  apply negb_false_iff, andb_true_iff in Eok as [[Hval Hid]%andb_true_iff Hexp].
  set (g := request_grant request). set (c := mkConnection _ _ _ _ _). set (w0 := mkWire _ _ _ _ _ _).
  assert (Hr : reached hex_sha256 i g c) by (exists c; split; [by constructor|apply rtc_refl]).
  assert (Hb : backed hex_sha256 i g w0).
  { split_and!; [exact Hr|done|]. intros o f n Hin. by apply not_elem_of_nil in Hin. }
  pose proof (keeps_serve i g request initial store w0 Hb) as Hk.
  pose proof (triple_serve request initial store [] w0 (conj eq_refl eq_refl)) as Ht.
  destruct (serve_authorized_stream _ _ _ _ _ w0) as [w [[]|]].
  - split_and!; [by exists request; split; [|apply Hk]|apply Ht|by eapply backed_justified|done].
  - split_and!; [by exists request; split; [|apply Hk]|apply Ht|by eapply backed_justified|done].
Qed.
End Serve.
