(* ===== verification/ExportDemo.v ===== *)
(** * An export at work

    A snapshot of one directory and one file of three bytes: written, relayed
    byte for byte, refused at the object whose content is wrong, and served
    under an authorization that is renewed for ten minutes. *)

From S2P Require Import Prelude GoText GoTime GoJson GoUtf8 GoJsonText GoJsonValue GoJsonDecode GoJsonStruct.
From S2P Require Import Manifest ManifestFacts SkillContent Finalization NodeExport ExportStream ExportStreamFacts ExportRoundTrip.
From S2P Require Import RecoveryStream RecoveryFacts RecoveryRoundTrip ExportAuthorization ExportAuthorizationFacts ExportSession ExportServe ExportServeFacts.
From Stdlib.Strings Require Import Ascii.

Module ExportDemo.

Definition digest : string := "e3b0c44298fc1c149afbf4c8996fb92427ae41e4649b934ca495991b7852b855".
Definition other : string := "ba7816bf8f01cfea414140de5dae2223b00361a396177a9cb410ff61f20015ad".

(** One content has a digest of its own. *)
Definition sha (bs : list Z) : string := if bool_decide (bs = [97; 98; 99]) then other else digest.
Definition normal (_ : string) : bool := true.

Definition uuid (c : string) : string :=
  c +:+ c +:+ c +:+ c +:+ c +:+ c +:+ c +:+ c +:+ "-1111-1111-1111-111111111111".

Definition binding : NodeExportBinding :=
  ExportBinding.mk (uuid "1") (uuid "2") (uuid "3") (uuid "4") (uuid "5") (uuid "6") 2 7 digest.

Definition file : Manifest.Entry := Manifest.mkEntry "alpha/SKILL.md" "file" 420 3 other "" "text" "".

Definition manifest : Manifest.Manifest := Manifest.mkManifest 1 [
  Manifest.mkEntry "alpha" "directory" 493 0 "" "" "" ""; file].

Definition header : Header := Header.mk 1 binding digest false manifest 1.

Definition content (_ : Manifest.Entry) : list Z := [97; 98; 99].

(** The context ends and the authorization is refused as the world says. *)
#[local] Instance demo_world : ExportWorld (bool * bool) := {
  ctx_ended w := (w, w.1);
  authorize _ _ w := (w, negb w.2)
}.

Definition source : export_source (W := unit) := mkSource
  (λ e w, (w, Some (content e, true))) (λ _ w, (w, Some tt)) (λ w, (w, Some tt)).

#[local] Instance calm_world : ExportWorld unit := { ctx_ended w := (w, false); authorize _ _ w := (w, true) }.

Lemma header_valid : validateHeader normal sha header = Some [file].
Proof. vm_compute. reflexivity. Qed.

Lemma sha_digest bs : contentDigestPattern (sha bs) = true.
Proof. unfold sha. by case_bool_decide. Qed.

Lemma header_short : len (Header.text header) ≤ maxManifestBytes.
Proof. vm_compute. congruence. Qed.

Lemma file_verified : ExportStreamFacts.verified normal sha file (content file).
Proof. vm_compute. reflexivity. Qed.

Lemma snapshot_relayed_witness :
  goes (WriteSnapshot normal sha header source) [] [] [] (snapshot_bytes header [file] [[97; 98; 99]]) tt ∧
  goes (RelaySnapshot normal sha) (snapshot_bytes header [file] [[97; 98; 99]]) [] [] (snapshot_bytes header [file] [[97; 98; 99]]) tt.
Proof.
  refine (snapshot_relayed normal sha header [file] source content [] sha_digest header_valid _ _ header_short _ _ _).
  - split; vm_compute; congruence.
  - intros e He. repeat (apply elem_of_cons in He as [->|He]; [cbn; lia|]). by apply not_elem_of_nil in He.
  - by split.
  - constructor; [exact file_verified|constructor].
  - by split.
Defined.

(** A connection that carries [bytes] and then ends. *)
Definition transport (bytes : list Z) (refused : bool) : wire (bool * bool) :=
  mkWire bytes false [] None [] (false, refused).

Definition tampered : list Z := snapshot_bytes header [file] [[97; 98; 100]].

(** The content whose digest differs is sent, but neither its marker nor the
    footer. *)
Example tampered_refused :
  let '(w, r) := RelaySnapshot normal sha (transport tampered false) in
  r = None ∧ outgoing w = head header ++ [97; 98; 100].
Proof. vm_compute. split; reflexivity. Qed.

Example refused_empty :
  let '(w, r) := RelaySnapshot normal sha (transport (snapshot_bytes header [file] [[97; 98; 99]]) true) in
  r = None ∧ outgoing w = [].
Proof. vm_compute. split; reflexivity. Qed.

Lemma relay_gated_witness :
  let '(w, r) := RelaySnapshot normal sha (transport tampered false) in
  gated normal sha w ∧
  (r = Some tt → ∃ h objects contents, validateHeader normal sha h = Some objects ∧
     closing normal sha h objects contents w ∧ outgoing w = snapshot_bytes h objects contents).
Proof. pose proof (relay_gated normal sha (transport tampered false) eq_refl) as Hgated. exact Hgated. Defined.


(** ** Under an authorization *)

Definition identity : Identity := mkIdentity (uuid "5") (uuid "1") (uuid "7") (uuid "8").

Definition start : time := 1700000000 * second.

(** Good for an hour, to be checked every ten seconds. *)
Definition permission : NodeExportPermission :=
  Permission.mk binding (uuid "7") (uuid "8") (start + 3600 * second) 10 None None.

Definition facts : Observation := Header.observed header.

(** The server now reports the digest of the tree. *)
Definition informed : NodeExportPermission :=
  permission <| Permission.IncomingDigest := Some digest |> <| Permission.Unclean := Some false |>.

Definition grant (c : string) : string := c +:+ "." +:+ digest.

(** The server hands over the next grant for the first one; every other digest
    differs. *)
Definition renewed : authority_answer :=
  RenewedAnswer (Some (Renewal.mk digest (grant "next") informed)).

Definition opening : ExportAuthorization.connection :=
  mkConnection (newExportAuthorization identity (grant "first") permission start) (start + 200) None ∅
    [Accepted (mkAcceptance start (start + 200) (grant "first") permission (grant "first"))].

Lemma opening_reached : reached sha identity (grant "first") opening.
Proof. exists opening. split; [|apply rtc_refl]. constructor; vm_compute; congruence. Qed.

Lemma opening_idle : idle opening.
Proof. done. Qed.

(** A forced check that takes a second to be answered. *)
Definition asked : turn := mkTurn 1000000 10 10 1000000000 10 10 renewed.

(** A check in between, and one after the window has run out. *)
Definition quick : turn := mkTurn 1000000 0 0 0 0 0 (VerifiedAnswer None).
Definition tardy : turn := mkTurn 11000000000 0 0 0 0 0 renewed.

Definition checked : ExportAuthorization.connection := (observe sha facts true asked opening).1.

Example forced_check_passes :
  (observe sha facts true asked opening).2 = true ∧ auth checked = (auth checked) <| ExportAuthorization.grant := grant "next" |> ∧
  (observe sha facts true tardy opening).2 = false.
Proof. vm_compute. repeat split. Qed.

Lemma checked_reached : reached sha identity (grant "first") checked.
Proof.
  destruct (observe_path sha facts true asked opening opening_idle) as (b & _ & Hs & _).
  destruct opening_reached as (c0 & Ho & Hs0). exists c0. split; [exact Ho|]. etransitivity; [exact Hs0|exact Hs].
Qed.

Lemma check_passed :
  Passed (Some facts) true (start + 1000200) (start + 1001000240) ∈ history checked.
Proof. vm_compute. right. right. left. Qed.

Lemma export_check_backed_witness :
  start + 1000200 ≤ start + 1001000240 ∧ ∃ x, x ∈ accepted (history checked) ∧
    proper sha identity (initial (auth checked)) x ∧ covers x (start + 1001000240) ∧
    start + 1001000240 < started_at x + 10 * second ∧ (true = true → start + 1000200 ≤ started_at x) ∧
    ∀ o, Some facts = Some o → observed (auth checked) = Some o ∧ matches (initial (auth checked)) o = true ∧
                               matches (ExportAuthorization.permission x) o = true.
Proof.
  exact (export_check_backed sha identity (grant "first") checked (Some facts) true _ _ checked_reached check_passed).
Defined.

Lemma export_authority_kept_witness :
  (∀ x, x ∈ accepted (history checked) → proper sha identity (initial (auth checked)) x) ∧
  (∀ j k x y, (j < k)%nat → accepted (history checked) !! j = Some x → accepted (history checked) !! k = Some y → later x y) ∧
  (∀ j x y, accepted (history checked) !! j = Some x → accepted (history checked) !! S j = Some y → sent y = next x) ∧
  (∀ c', rtc (step sha) checked c' → cancelled (auth checked) = true →
     cancelled (auth c') = true ∧ history c' = history checked).
Proof. exact (export_authority_kept sha identity (grant "first") checked checked_reached). Defined.

(** ** A served connection *)

Definition capture : FinalizationRecord :=
  Capture.mk 1 1
    (Snapshot.mk (uuid "3") (uuid "4") (uuid "5") (uuid "2") (uuid "1") 7 2 digest (uuid "6") digest Pins.zero)
    digest false "local_durable".

Definition reader : object_reader := λ d, if String.eqb d other then Some (file, [97; 98; 99], true) else None.

(** A check of the ticker six seconds later, which asks the server. *)
Definition renewal : turn := mkTurn 6000000000 0 0 1000 0 0 (VerifiedAnswer (Some permission)).

(** The helper has a frozen capture.  Ten minutes pass before the only object,
    so its reader is replaced. *)
Definition frozen_store : export_store :=
  mkStore (Some capture) (Some (capture <| Capture.State := "upload_pending" |>)) (Some (capture, manifest)) false
    [Some (λ _, None); Some reader] (λ _, (replicate 101 renewal, [])) true true true.

(** It has none, and relays the stopped work. *)
Definition stopped_store : export_store := mkStore None None None false [] (λ _, ([], [])) true true true.

Definition request (extra : string) : list Z :=
  codes ("{" +:+ quote "version" +:+ ":1," +:+ quote "grant" +:+ ":" +:+ quote (grant "first") +:+ extra +:+ "}").

Definition soon : moment := mkMoment [] quick.
Definition fresh_check : moment := mkMoment [] renewal.

Definition served (store : export_store) (moments : list moment) (input : list Z) :=
  serve normal sha identity (request "") false start (start + 200) (Some permission) moments store input false None.

Definition served_frozen := served frozen_store [soon; soon; fresh_check; soon; soon; fresh_check] [].

Definition snapshot : list Z := snapshot_bytes header [file] [[97; 98; 99]].

Definition served_stopped := served stopped_store [soon; fresh_check; soon; soon; fresh_check] snapshot.

Definition sent_by (r : option (wire (ExportAuthorization.connection * list moment) * option unit)) : option (list Z * bool) :=
  '(w, r) ← r; Some (outgoing w, is_some r).

Example both_served : sent_by served_frozen = Some (snapshot, true) ∧ sent_by served_stopped = Some (snapshot, true).
Proof. vm_compute. split; reflexivity. Qed.

(** Without the renewals the authorization runs out before the object. *)
Example unrenewed_stops :
  sent_by (served (frozen_store <| pauses := λ _, ([mkTurn 601000000000 0 0 0 0 0 (VerifiedAnswer (Some permission))], []) |>)
             [soon; soon; fresh_check; soon; soon; fresh_check] []) = Some (head header ++ [97; 98; 99], false).
Proof. vm_compute. reflexivity. Qed.

(** A request with another member, with a null version, or too long. *)
Example requests_refused :
  readGrant (request (", " +:+ quote "Grant" +:+ ":1")) false = None ∧
  readGrant (request (", " +:+ quote "version" +:+ ":1")) false = None ∧
  readGrant (request (", " +:+ quote "recovery_version" +:+ ":null")) false = None ∧
  readGrant (request (", " +:+ quote "recovery_version" +:+ ": 1 ")) false = Some (mkRequest (grant "first") true) ∧
  readGrant (request "" ++ replicate (Z.to_nat 9000) 32) false = None.
Proof. vm_compute. repeat split. Qed.

Lemma serve_authorized_witness :
  match served frozen_store [soon; soon; fresh_check; soon; soon; fresh_check] [] with
  | None => True
  | Some (w, r) =>
      (∃ q, readGrant (request "") false = Some q ∧ reached sha identity (request_grant q) (world w).1) ∧
      sent_gated normal sha w ∧ justified sha identity w ∧ (r = Some tt → sent_whole normal sha w)
  end.
Proof.
  apply (serve_authorized normal sha identity (request "") false start (start + 200) (Some permission)
           [soon; soon; fresh_check; soon; soon; fresh_check] frozen_store [] false None).
  lia.
Defined.

(** ** A recovery *)

Definition directory : Manifest.Entry := Manifest.mkEntry "alpha" "directory" 493 0 "" "" "" "".

(** The file's content comes in two pieces. *)
Definition script : list sink_call :=
  [Begin directory; End_ directory; Begin (provisional file); Bytes [97]; Bytes [98; 99]; End_ file].

Definition stopped_work : recovery_source :=
  mkRecoverySource (mkRecovered 2 3 1 digest) true script true true.

Definition blank : wire unit := mkWire [] false [] None [] tt.

Example recovery_written :
  (WriteRecovery normal sha binding stopped_work blank).2 = Some tt ∧
  outgoing (WriteRecovery normal sha binding stopped_work blank).1 =
    recovery_bytes (recovery_header binding stopped_work) [(directory, []); (file, [97; 98; 99])].
Proof. vm_compute. split; reflexivity. Qed.

(** A source that ends the file with other claims is stopped. *)
Example wrong_claims_refused :
  (WriteRecovery normal sha binding
     (mkRecoverySource (mkRecovered 2 3 1 digest) true
        [Begin directory; End_ directory; Begin (provisional file); Bytes [97; 98; 100]; End_ file] true true) blank).2 = None.
Proof. vm_compute. reflexivity. Qed.

Lemma script_modes e : End_ e ∈ script → 0 ≤ Manifest.Mode e.
Proof.
  assert (Hall : Forall (λ c, match c with End_ e => 0 ≤ Manifest.Mode e | _ => True end) script).
  { unfold script. repeat (apply Forall_cons_2; [done|]). constructor. }
  rewrite list.Forall_forall in Hall. apply Hall.
Qed.

Lemma recovery_relayed_witness :
  let '(w', r) := WriteRecovery normal sha binding stopped_work blank in
  r = Some tt →
  let h := recovery_header binding stopped_work in
  ∃ items, whole_recovery normal sha h items ∧ outgoing w' = recovery_bytes h items ∧
    ∀ W' (E : ExportWorld W'), Calm (RecoveryHeader.observation h) →
      goes (W := W') (RelayRecovery normal sha) (outgoing w') [] [] (outgoing w') tt.
Proof.
  pose proof (recovery_relayed normal sha binding stopped_work blank eq_refl) as Hrelay.
  apply Hrelay.
  - exact script_modes.
  - unfold recovery_width, export_binding_width. cbn. unfold max_int64. lia.
Defined.

Lemma recovery_relay_gated_witness :
  let '(w, r) := RelayRecovery normal sha (transport (snapshot_bytes header [file] [[97; 98; 99]]) false) in
  recovery_gated normal sha w ∧
  (r = Some tt → ∃ h items, recovery_closing normal sha h items w ∧ outgoing w = recovery_bytes h items).
Proof.
  pose proof (recovery_relay_gated normal sha (transport (snapshot_bytes header [file] [[97; 98; 99]]) false) eq_refl) as Hgated.
  exact Hgated.
Defined.

End ExportDemo.
