(* ===== verification/SshKeys.v ===== *)
(** * Managed SSH keys (src/internal/sshkeys/sshkeys.go)

    A node keeps the keys of its devices in one block of an authorized_keys
    file, each device between markers of its own, and leaves the rest of the
    file to its owner.  [Sync] splits the file, parses the block, replaces the
    keys of one device and writes the file anew.  Texts are Go strings; the
    outcome of every system call is an input. *)

From S2P Require Import Prelude GoText GoJson GoUtf8 GoJsonText GoJsonValue GoJsonDecode GoJsonStruct.
From S2P Require Import DevicePayload.
From Stdlib.Strings Require Import Ascii.

Definition newline : ascii := "010".
Definition nl : string := String newline "".

Definition beginMarker : string := "# BEGIN agent-remote managed keys".
Definition endMarker : string := "# END agent-remote managed keys".
Definition deviceBeginPrefix : string := "# BEGIN agent-remote device ".
Definition deviceEndPrefix : string := "# END agent-remote device ".

(** ** Payloads *)

Module KeyEntry.
Record Entry := mk { ID : string; PublicKey : string; ForcedCommand : string }.

Definition fields : list (field Entry) := [
  str_field "id" ID (λ x r, r <| ID := x |>);
  str_field "public_key" PublicKey (λ x r, r <| PublicKey := x |>);
  str_field "forced_command" ForcedCommand (λ x r, r <| ForcedCommand := x |>)].

Definition zero : Entry := mk "" "" "".
End KeyEntry.

Module SyncPayload.
Record SyncPayload := mk {
  DeviceID : string;
  SessionID : string;
  SSHUser : string;
  AuthorizedKeysPath : option string;
  SSHKeys : list KeyEntry.Entry
}.

(** Elements that are already there are decoded into. *)
Fixpoint decode_entries (current : list KeyEntry.Entry) (items : list json) : option (list KeyEntry.Entry) :=
  match items with
  | [] => Some []
  | j :: items =>
      e ← decode_struct KeyEntry.fields (hd KeyEntry.zero current) j;
      es ← decode_entries (tl current) items;
      Some (e :: es)
  end.

Definition fields : list (field SyncPayload) := [
  str_field "device_id" DeviceID (λ x r, r <| DeviceID := x |>);
  str_field "session_id" SessionID (λ x r, r <| SessionID := x |>);
  str_field "ssh_user" SSHUser (λ x r, r <| SSHUser := x |>);
  str_pointer_field "authorized_keys_path" AuthorizedKeysPath (λ x r, r <| AuthorizedKeysPath := x |>);
  mkField "ssh_keys" SSHKeys (λ x r, r <| SSHKeys := x |>)
    (λ es, Some (VArr (map (encode_struct KeyEntry.fields) es)))
    (λ current _ j, match j with JNull => Some [] | JArr items => decode_entries current items | _ => None end)].

Definition zero : SyncPayload := mk "" "" "" None [].
End SyncPayload.
Export SyncPayload(SyncPayload).

(** [DecodePayload]: the payload encoded and decoded into the struct. *)
Definition DecodePayload (payload : object) : option SyncPayload :=
  if encodable (VObj payload) then
    j ← parse_json (print_value compact 0 (VObj payload));
    decode_struct SyncPayload.fields SyncPayload.zero j
  else None.

(** ** Texts *)

(** [strings.Index]: what is before and behind the first occurrence. *)
Fixpoint cut (sep s : string) : option (string * string) :=
  match strip_prefix sep s with
  | Some rest => Some ("", rest)
  | None =>
      match s with
      | "" => None
      | String c s' => '(before, after) ← cut sep s'; Some (String c before, after)
      end
  end.

(** [strings.TrimRight] of the newlines. *)
Fixpoint trim_newlines (s : string) : string :=
  match s with
  | "" => ""
  | String c s' =>
      let r := trim_newlines s' in
      if Ascii.eqb c newline && String.eqb r "" then "" else String c r
  end.

(** [strings.ReplaceAll] of a single character. *)
Fixpoint replace_char (c : ascii) (by_ : string) (s : string) : string :=
  match s with
  | "" => ""
  | String d s' => if Ascii.eqb d c then by_ +:+ replace_char c by_ s' else String d (replace_char c by_ s')
  end.

(** The text up to the first character of a set. *)
Fixpoint until_any (set s : string) : string :=
  match s with
  | "" => ""
  | String c s' => if has_char set c then "" else String c (until_any set s')
  end.

Definition validDeviceID (value : string) : bool :=
  non_empty value && all_chars (λ c, is_alnum c || has_char "._:-" c) value.

Definition double_quote : ascii := "034".

Definition deviceIDFromEntry (line : string) : string :=
  match cut " --device " line with
  | Some (_, value) => until_any (String " " (String "009" (String double_quote ""))) value
  | None => ""
  end.

Definition splitManagedBlock (input : string) : string * string :=
  match cut beginMarker input with
  | None => (input, "")
  | Some (before, rest) =>
      match cut endMarker rest with
      | None => (trim_newlines before +:+ nl, rest)
      | Some (managed, after) => (trim_newlines (before +:+ after) +:+ nl, managed)
      end
  end.

(** ** The devices of a block *)

Abbreviation devices := (gmap string (list string)).

(** One line, with the device whose markers enclose it. *)
Definition parse_line (s : devices * string) (rawLine : string) : devices * string :=
  let '(ds, activeDevice) := s in
  let line := trim_space rawLine in
  if has_prefix deviceBeginPrefix line then
    let candidate := trim_space (trim_prefix deviceBeginPrefix line) in
    if validDeviceID candidate then (ds, candidate) else (ds, activeDevice)
  else if has_prefix deviceEndPrefix line then (ds, "")
  else if String.eqb line "" || has_prefix "#" line then (ds, activeDevice)
  else
    let deviceID := if String.eqb activeDevice "" then deviceIDFromEntry line else activeDevice in
    if validDeviceID deviceID then (<[deviceID := default [] (ds !! deviceID) ++ [line]]> ds, activeDevice)
    else (ds, activeDevice).

Definition parseManagedDevices (managed : string) : devices :=
  (foldl parse_line (∅, "") (split_on newline managed)).1.

(** ** Rendering *)

Definition shellWord (value : string) : string :=
  if non_empty value && all_chars (λ c, is_alnum c || has_char "/._-:" c) value then value
  else "'" +:+ replace_char "'" "'\''" value +:+ "'".

Definition commandWithBinary (attachBinary attachConfig forcedCommand : string) : string :=
  if has_prefix "agent-remote-attach " forcedCommand &&
     (negb (String.eqb attachBinary "agent-remote-attach") || non_empty attachConfig) then
    let command := shellWord attachBinary in
    let command := if non_empty attachConfig then command +:+ " --config " +:+ shellWord attachConfig else command in
    command +:+ trim_prefix "agent-remote-attach" forcedCommand
  else forcedCommand.

Definition quote_mark : string := String double_quote "".

Definition RenderEntry (attachBinary attachConfig : string) (key : KeyEntry.Entry) : string :=
  let publicKey := trim_space (KeyEntry.PublicKey key) in
  if String.eqb publicKey "" then ""
  else
    let command := replace_char "\" "\\" (KeyEntry.ForcedCommand key) in
    let command := replace_char double_quote ("\" +:+ quote_mark) command in
    "command=" +:+ quote_mark +:+ commandWithBinary attachBinary attachConfig command +:+ quote_mark +:+
    ",no-X11-forwarding,no-port-forwarding,no-user-rc " +:+ publicKey.

Definition str_le (a b : string) : Prop := str_ltb b a = false.

#[global] Instance str_le_dec : RelDecision str_le.
Proof. unfold str_le. intros a b. apply _. Defined.

Definition device_ids (ds : devices) : list string := merge_sort str_le (map fst (map_to_list ds)).

(** The lines between the two outer markers, each ended by a newline. *)
Definition device_lines (ds : devices) (id : string) : list string :=
  (deviceBeginPrefix +:+ id) :: default [] (ds !! id) ++ [deviceEndPrefix +:+ id].

Definition unlines (ls : list string) : string := foldr (λ l s, l +:+ nl +:+ s) "" ls.

Definition block (ds : devices) : string :=
  beginMarker +:+ nl +:+ unlines (concat (map (device_lines ds) (device_ids ds))) +:+ endMarker +:+ nl.

(** ** Synchronisation *)

Definition rendered (attachBinary attachConfig : string) (keys : list KeyEntry.Entry) : list string :=
  List.filter non_empty (map (RenderEntry attachBinary attachConfig) keys).

Definition update_device (id : string) (entries : list string) (ds : devices) : devices :=
  match entries with [] => delete id ds | _ => <[id := entries]> ds end.

(** The new text of the file. *)
Definition sync_text (attachBinary attachConfig : string) (payload : SyncPayload) (existing : string) : string :=
  let '(base, managed) := splitManagedBlock existing in
  let ds := update_device (SyncPayload.DeviceID payload)
              (rendered attachBinary attachConfig (SyncPayload.SSHKeys payload)) (parseManagedDevices managed) in
  if String.eqb (trim_space base) "" then block ds else trim_newlines base +:+ nl +:+ block ds.

Inductive sync_error := PathRequired | InvalidDevice | DirectoryFailed | ReadFailed | WriteFailed.

(** What the system calls of a synchronisation come to; a file that does not
    exist is no error. *)
Record sync_io := mkIO {
  made_directory : bool;
  readable : bool;
  created : bool;
  chmod_ok : bool;
  written : bool;
  synced : bool;
  closed : bool;
  renamed : bool
}.

(** [writeFileAtomic]: the file afterwards, and whether it succeeded. *)
Definition writeFileAtomic (io : sync_io) (data : string) (file : option string) : option string * bool :=
  if created io && chmod_ok io && written io && synced io && closed io && renamed io then (Some data, true)
  else (file, false).

Definition Sync (io : sync_io) (path attachBinary attachConfig : string) (payload : SyncPayload)
    (file : option string) : option string * result sync_error unit :=
  if String.eqb path "" then (file, Err PathRequired)
  else if negb (validDeviceID (SyncPayload.DeviceID payload)) then (file, Err InvalidDevice)
  else
    let attachBinary := if String.eqb attachBinary "" then "agent-remote-attach" else attachBinary in
    if negb (made_directory io) && negb (String.eqb (Dir path) ".") then (file, Err DirectoryFailed)
    else if negb (readable io) then (file, Err ReadFailed)
    else
      let '(file, ok) := writeFileAtomic io (sync_text attachBinary attachConfig payload (default "" file)) file in
      (file, if ok then Ok tt else Err WriteFailed).

(** ** Its callers *)

(** What [install-ssh] fails with. *)
Inductive install_error := StatFailed | SyncFailed (e : sync_error).

(** [install-ssh] (cmd/agent-remote-node): a failing [os.Stat] is returned
    unless it says that the file is missing; a missing file is prepared. *)
Definition installSSH (io : sync_io) (path attachBinary sourcePath : string) (stat_error : bool) (file : option string)
    : option string * result install_error unit :=
  if stat_error then (file, Err StatFailed) else
  match file with
  | Some _ => (file, Ok tt)
  | None =>
      match Sync io path attachBinary sourcePath SyncPayload.zero file with
      | (file, Ok _) => (file, Ok tt)
      | (file, Err e) => (file, Err (SyncFailed e))
      end
  end.
