(* ===== verification/SshKeysFacts.v ===== *)
(** * The managed block is a map of devices

    What [Sync] writes is read back exactly: a file is the text of its owner
    and a map from devices to lines, and a synchronisation replaces the lines
    of one device and nothing else.  The first part is about Go strings:
    reversal, trimming, occurrences and texts as lists of lines; the last part
    is a concrete history. *)

From S2P Require Import Prelude GoText SshKeys.
From Stdlib.Strings Require Import Ascii.

(** ** Concatenation *)

Lemma app_cons c s t : String c s +:+ t = String c (s +:+ t).
Proof. done. Qed.

Lemma app_empty s : s +:+ "" = s.
Proof. induction s as [|c s IH]; [done|]. by rewrite app_cons, IH. Qed.

Lemma rev_app_spec s t : String.rev_app s t = String.rev s +:+ t.
Proof.
  unfold String.rev. revert t. induction s as [|c s IH]; intros t; [done|]. cbn.
  rewrite (IH (String c t)), (IH (String c "")). by rewrite string_app_assoc.
Qed.

Lemma rev_cons c s : String.rev (String c s) = String.rev s +:+ String c "".
Proof. exact (rev_app_spec s (String c "")). Qed.

Lemma rev_append s t : String.rev (s +:+ t) = String.rev t +:+ String.rev s.
Proof.
  induction s as [|c s IH]; [by rewrite app_empty|]. by rewrite app_cons, !rev_cons, IH, string_app_assoc.
Qed.

Lemma rev_rev s : String.rev (String.rev s) = s.
Proof. induction s as [|c s IH]; [done|]. by rewrite rev_cons, rev_append, IH. Qed.

Lemma all_chars_rev p s : all_chars p (String.rev s) = all_chars p s.
Proof.
  induction s as [|c s IH]; [done|]. rewrite rev_cons, all_chars_app, IH. cbn. by rewrite andb_true_r, andb_comm.
Qed.

(** ** Trimming *)

Lemma trim_left_cons a r1 :
  trim_left (String a r1) =
    if is_space1 a then trim_left r1
    else match r1 with
         | "" => String a r1
         | String b r2 =>
             if is_space2 a b then trim_left r2
             else match r2 with
                  | "" => String a r1
                  | String c r3 => if is_space3 a b c then trim_left r3 else String a r1
                  end
         end.
Proof. by destruct r1 as [|b [|c r3]]. Qed.

Lemma trim_left_rev_cons a r1 :
  trim_left_rev (String a r1) =
    if is_space1 a then trim_left_rev r1
    else match r1 with
         | "" => String a r1
         | String b r2 =>
             if is_space2 b a then trim_left_rev r2
             else match r2 with
                  | "" => String a r1
                  | String c r3 => if is_space3 c b a then trim_left_rev r3 else String a r1
                  end
         end.
Proof. by destruct r1 as [|b [|c r3]]. Qed.

(** Trimming leaves a suffix, on which it does nothing more. *)
Lemma trim_left_suffix s : (∃ p, s = p +:+ trim_left s) ∧ trim_left (trim_left s) = trim_left s.
Proof.
  revert s. fix IH 1. intros [|a r1]; [split; [by exists ""|done]|]. rewrite trim_left_cons.
  destruct (is_space1 a) eqn:E1.
  { destruct (IH r1) as [[p Hp] Hi]. split; [|exact Hi]. exists (String a p). by rewrite app_cons, <- Hp. }
  destruct r1 as [|b r2]; [split; [by exists ""|cbn; by rewrite E1]|]. destruct (is_space2 a b) eqn:E2.
  { destruct (IH r2) as [[p Hp] Hi]. split; [|exact Hi]. exists (String a (String b p)). by rewrite !app_cons, <- Hp. }
  destruct r2 as [|c r3]; [split; [by exists ""|cbn; by rewrite E1, E2]|]. destruct (is_space3 a b c) eqn:E3.
  - destruct (IH r3) as [[p Hp] Hi]. split; [|exact Hi]. exists (String a (String b (String c p))).
    by rewrite !app_cons, <- Hp.
  - split; [by exists ""|]. by rewrite trim_left_cons, E1, E2, E3.
Qed.

Lemma trim_left_rev_suffix s : (∃ p, s = p +:+ trim_left_rev s) ∧ trim_left_rev (trim_left_rev s) = trim_left_rev s.
Proof.
  revert s. fix IH 1. intros [|a r1]; [split; [by exists ""|done]|]. rewrite trim_left_rev_cons.
  destruct (is_space1 a) eqn:E1.
  { destruct (IH r1) as [[p Hp] Hi]. split; [|exact Hi]. exists (String a p). by rewrite app_cons, <- Hp. }
  destruct r1 as [|b r2]; [split; [by exists ""|cbn; by rewrite E1]|]. destruct (is_space2 b a) eqn:E2.
  { destruct (IH r2) as [[p Hp] Hi]. split; [|exact Hi]. exists (String a (String b p)). by rewrite !app_cons, <- Hp. }
  destruct r2 as [|c r3]; [split; [by exists ""|cbn; by rewrite E1, E2]|]. destruct (is_space3 c b a) eqn:E3.
  - destruct (IH r3) as [[p Hp] Hi]. split; [|exact Hi]. exists (String a (String b (String c p))).
    by rewrite !app_cons, <- Hp.
  - split; [by exists ""|]. by rewrite trim_left_rev_cons, E1, E2, E3.
Qed.

(** A text that starts with no white space keeps that when its end is cut. *)
Lemma trim_left_prefix s t : trim_left (s +:+ t) = s +:+ t → trim_left s = s.
Proof.
  assert (Hlen : ∀ s, (String.length (trim_left s) ≤ String.length s)%nat).
  { intros u. destruct (trim_left_suffix u) as [[p Hp] _]. rewrite Hp at 2. rewrite string_length_app. lia. }
  destruct s as [|a r1]; [done|]. rewrite app_cons, !trim_left_cons. destruct (is_space1 a).
  { intros Heq. specialize (Hlen (r1 +:+ t)). rewrite Heq in Hlen. cbn in Hlen. lia. }
  destruct r1 as [|b r2]; [done|]. rewrite app_cons. destruct (is_space2 a b).
  { intros Heq. specialize (Hlen (r2 +:+ t)). rewrite Heq in Hlen. cbn in Hlen. lia. }
  destruct r2 as [|c r3]; [done|]. rewrite app_cons. destruct (is_space3 a b c); [|done].
  intros Heq. specialize (Hlen (r3 +:+ t)). rewrite Heq in Hlen. cbn in Hlen. lia.
Qed.

Lemma trim_space_parts s : ∃ p q, s = p +:+ trim_space s +:+ q.
Proof.
  destruct (trim_left_suffix s) as [[p Hp] _]. destruct (trim_left_rev_suffix (String.rev (trim_left s))) as [[q Hq] _].
  exists p, (String.rev q). unfold trim_space. rewrite <- rev_append, <- Hq, rev_rev. exact Hp.
Qed.

Lemma trim_space_idem s : trim_space (trim_space s) = trim_space s.
Proof.
  destruct (trim_left_suffix s) as [_ Hl]. destruct (trim_left_rev_suffix (String.rev (trim_left s))) as [[q Hq] Hr].
  set (t := trim_space s). assert (Ht : trim_left t = t).
  { apply (trim_left_prefix t (String.rev q)). unfold t, trim_space. rewrite <- rev_append, <- Hq, rev_rev. exact Hl. }
  unfold trim_space at 1. rewrite Ht. unfold t, trim_space. by rewrite rev_rev, Hr.
Qed.

Lemma no_space3_blank c a : is_space3 c " " a = false.
Proof.
  unfold is_space3. change (code " ") with 32. cbn.
  by destruct (code c =? 225), (code c =? 226), (code c =? 227).
Qed.

(** The last characters of a word, behind a blank. *)
Lemma trim_left_rev_blank s t :
  s ≠ "" → trim_left_rev s = s → trim_left_rev (s +:+ String " " t) = s +:+ String " " t.
Proof.
  assert (Hlen : ∀ s, (String.length (trim_left_rev s) ≤ String.length s)%nat).
  { intros u. destruct (trim_left_rev_suffix u) as [[p Hp] _]. rewrite Hp at 2. rewrite string_length_app. lia. }
  destruct s as [|a r1]; [done|]. intros _. rewrite app_cons, !trim_left_rev_cons. destruct (is_space1 a).
  { intros Heq. specialize (Hlen r1). rewrite Heq in Hlen. cbn in Hlen. lia. }
  destruct r1 as [|b r2]; cbn [String.app].
  { intros _. change ("" +:+ String " " t) with (String " " t). destruct t as [|c t]; [done|].
    by rewrite no_space3_blank. }
  rewrite app_cons. destruct (is_space2 b a).
  { intros Heq. specialize (Hlen r2). rewrite Heq in Hlen. cbn in Hlen. lia. }
  destruct r2 as [|c r3]; [done|]. rewrite app_cons. destruct (is_space3 c b a); [|done].
  intros Heq. specialize (Hlen r3). rewrite Heq in Hlen. cbn in Hlen. lia.
Qed.

(** ** Occurrences *)

Lemma has_prefix_app m r : has_prefix m (m +:+ r) = true.
Proof. unfold has_prefix. by rewrite (proj2 (strip_prefix_Some m (m +:+ r) r) eq_refl). Qed.

Lemma has_prefix_spec m s : has_prefix m s = true ↔ ∃ r, s = m +:+ r.
Proof.
  unfold has_prefix. destruct (strip_prefix m s) as [r|] eqn:E.
  - apply strip_prefix_Some in E. split; [by exists r|done].
  - split; [done|]. intros [r ->]. by rewrite (proj2 (strip_prefix_Some m (m +:+ r) r) eq_refl) in E.
Qed.

Lemma contains_spec m s : contains m s = true ↔ ∃ p r, s = p +:+ m +:+ r.
Proof.
  induction s as [|c s IH]; cbn [contains].
  - rewrite orb_false_r, has_prefix_spec. split; [intros [r ->]; by exists "", r|].
    intros (p & r & Hs). destruct p; [by exists r|done].
  - rewrite orb_true_iff, has_prefix_spec, IH. split.
    + intros [[r ->]|(p & r & ->)]; [by exists "", r|by exists (String c p), r].
    + intros ([|d p] & r & Hs); [left; by exists r|]. injection Hs as <- ->. right. by exists p, r.
Qed.

Lemma contains_within m p s q : contains m (p +:+ s +:+ q) = false → contains m s = false.
Proof.
  intros Hc. destruct (contains m s) eqn:E; [|done]. apply contains_spec in E as (a & b & ->).
  rewrite <- Hc. symmetry. apply contains_spec. exists (p +:+ a), (b +:+ q). by rewrite !string_app_assoc.
Qed.

Lemma contains_front m s q : contains m (s +:+ q) = false → contains m s = false.
Proof. apply (contains_within m ""). Qed.

Lemma cut_Some m s a b : cut m s = Some (a, b) → s = a +:+ m +:+ b ∧ (m ≠ "" → contains m a = false).
Proof.
  revert a b. induction s as [|c s IH]; intros a b; cbn [cut].
  - destruct (strip_prefix m "") as [r|] eqn:E; [|done]. apply strip_prefix_Some in E. intros [= <- <-].
    split; [exact E|]. intros Hm. by destruct m.
  - destruct (strip_prefix m (String c s)) as [r|] eqn:E.
    { apply strip_prefix_Some in E. intros [= <- <-]. split; [exact E|]. intros Hm. by destruct m. }
    destruct (cut m s) as [[a' b']|] eqn:Ec; [|done]. cbn. intros [= <- <-]. destruct (IH a' b' eq_refl) as [-> Hn].
    split; [done|]. intros Hm. cbn [contains]. rewrite (Hn Hm), orb_false_r.
    destruct (has_prefix m (String c a')) eqn:Hp; [|done]. apply has_prefix_spec in Hp as [r Hr].
    assert (Hsp : strip_prefix m (String c (a' +:+ m +:+ b')) = Some (r +:+ m +:+ b')).
    { apply strip_prefix_Some. by rewrite <- app_cons, Hr, !string_app_assoc. }
    by rewrite Hsp in E.
Qed.

Lemma cut_None m s : cut m s = None ↔ contains m s = false.
Proof.
  induction s as [|c s IH]; cbn [cut contains]; unfold has_prefix; destruct (strip_prefix _ _); cbn; [done|done|done|].
  destruct (cut m s) as [[a b]|]; cbn; [|exact IH]. split; [done|]. intros Hc. by apply IH in Hc.
Qed.

(** ** Lines *)

Definition no_newline (s : string) : Prop := all_chars (λ c, negb (Ascii.eqb c newline)) s = true.

Lemma no_newline_app s t : no_newline (s +:+ t) ↔ no_newline s ∧ no_newline t.
Proof. unfold no_newline. rewrite all_chars_app. apply andb_true_iff. Qed.

(** A marker without a newline does not reach over one. *)
Lemma prefix_before_newline m s t : no_newline m → has_prefix m (s +:+ nl +:+ t) = true → has_prefix m s = true.
Proof.
  intros Hm [r Hr]%has_prefix_spec. revert s Hr. induction m as [|c m IH]; intros s Hr; [done|].
  unfold no_newline in Hm. cbn in Hm. apply andb_true_iff in Hm as [Hc Hm]. destruct s as [|d s].
  - injection Hr as <- _. by rewrite Ascii.eqb_refl in Hc.
  - rewrite !app_cons in Hr. injection Hr as -> Hr. specialize (IH Hm s Hr). unfold has_prefix in *. cbn.
    by rewrite Ascii.eqb_refl.
Qed.

Lemma cut_line m l t :
  m ≠ "" → no_newline m → contains m l = false →
  cut m (l +:+ nl +:+ t) = match cut m t with Some (a, b) => Some (l +:+ nl +:+ a, b) | None => None end.
Proof.
  intros Hm Hn. induction l as [|c l IH]; intros Hc.
  - change ("" +:+ nl +:+ t) with (String newline t). cbn [cut].
    destruct (strip_prefix m (String newline t)) as [r|] eqn:E; [|by destruct (cut m t) as [[a b]|]].
    assert (Hp : has_prefix m ("" +:+ nl +:+ t) = true).
    { change ("" +:+ nl +:+ t) with (String newline t). unfold has_prefix. by rewrite E. }
    apply (prefix_before_newline m "" t Hn) in Hp as [r' Hr']%has_prefix_spec. by destruct m.
  - cbn [contains] in Hc. apply orb_false_iff in Hc as [Hp Hc]. rewrite app_cons. cbn [cut].
    destruct (strip_prefix m (String c (l +:+ nl +:+ t))) as [r|] eqn:E.
    { assert (Hp' : has_prefix m (String c l +:+ nl +:+ t) = true) by (unfold has_prefix; rewrite app_cons; by rewrite E).
      apply (prefix_before_newline m (String c l) t Hn) in Hp'. congruence. }
    rewrite (IH Hc). by destruct (cut m t) as [[a b]|].
Qed.

Lemma cut_here m r : cut m (m +:+ r) = Some ("", r).
Proof.
  destruct (m +:+ r) as [|c s] eqn:E; cbn [cut]; rewrite <- E, (proj2 (strip_prefix_Some m (m +:+ r) r) eq_refl); done.
Qed.

Lemma cut_lines m ls r :
  m ≠ "" → no_newline m → Forall (λ l, contains m l = false) ls → cut m (unlines ls +:+ m +:+ r) = Some (unlines ls, r).
Proof.
  intros Hm Hn. induction 1 as [|l ls Hl _ IH]; [exact (cut_here m r)|].
  cbn [unlines foldr]. fold (unlines ls). rewrite !string_app_assoc, cut_line by done. by rewrite IH.
Qed.

Lemma split_line l t : no_newline l → split_on newline (l +:+ nl +:+ t) = l :: split_on newline t.
Proof.
  unfold no_newline. induction l as [|c l IH]; [done|]. cbn [all_chars]. intros [Hc Hl]%andb_true_iff.
  rewrite app_cons. cbn [split_on]. apply negb_true_iff in Hc. by rewrite Hc, IH.
Qed.

Lemma split_lines ls : Forall no_newline ls → split_on newline (unlines ls) = ls ++ [""].
Proof.
  induction 1 as [|l ls Hl _ IH]; [done|]. cbn [unlines foldr]. fold (unlines ls). by rewrite split_line, IH.
Qed.

(** The parts of a split are lines of the text. *)
Lemma split_part sep s l : l ∈ split_on sep s →
  all_chars (λ c, negb (Ascii.eqb c sep)) l = true ∧ ∃ p q, s = p +:+ l +:+ q.
Proof.
  revert l. induction s as [|c s IH]; intros l; cbn [split_on].
  { intros ->%list_elem_of_singleton. split; [done|]. by exists "", "". }
  destruct (Ascii.eqb c sep) eqn:Ec.
  - intros [->|Hl]%elem_of_cons; [split; [done|by exists "", (String c s)]|].
    destruct (IH l Hl) as (Hn & p & q & ->). split; [done|]. by exists (String c p), q.
  - destruct (split_on sep s) as [|w ws] eqn:Es; [by destruct (split_on_nonempty sep s)|].
    intros [->|Hl]%elem_of_cons.
    + destruct (IH w (list_elem_of_here _ _)) as (Hn & _). split; [cbn; by rewrite Ec|].
      assert (Hj := join_split_on sep s). rewrite Es in Hj. destruct ws as [|w' ws].
      * cbn in Hj. subst w. exists "", "". change ("" +:+ ?x) with x. by rewrite app_empty.
      * exists "", (String sep (join (String sep "") (w' :: ws))). rewrite <- Hj. done.
    + destruct (IH l (list_elem_of_further _ _ _ Hl)) as (Hn & p & q & ->). split; [done|]. by exists (String c p), q.
Qed.

(** ** Trailing newlines *)

Lemma trim_newlines_end s : trim_newlines (s +:+ nl) = trim_newlines s.
Proof. induction s as [|c s IH]; [done|]. rewrite app_cons. cbn [trim_newlines]. by rewrite IH. Qed.

Lemma trim_newlines_idem s : trim_newlines (trim_newlines s) = trim_newlines s.
Proof.
  induction s as [|c s IH]; [done|]. cbn [trim_newlines].
  destruct (Ascii.eqb c newline && String.eqb (trim_newlines s) "") eqn:E; [done|]. cbn [trim_newlines]. by rewrite IH, E.
Qed.

Lemma trim_newlines_prefix s : ∃ q, s = trim_newlines s +:+ q.
Proof.
  induction s as [|c s [q Hq]]; [by exists ""|]. cbn [trim_newlines]. destruct (_ && _) eqn:E.
  - by exists (String c s).
  - exists q. by rewrite app_cons, <- Hq.
Qed.

Lemma trim_newlines_contains m s : contains m s = false → contains m (trim_newlines s) = false.
Proof. destruct (trim_newlines_prefix s) as [q Hq]. intros Hc. rewrite Hq in Hc. by eapply contains_front. Qed.

(** ** Blank texts *)

(** White space only, as [strings.TrimSpace] reads it. *)
Inductive blank : string → Prop :=
  | blank_nil : blank ""
  | blank_1 a s : is_space1 a = true → blank s → blank (String a s)
  | blank_2 a b s : is_space2 a b = true → blank s → blank (String a (String b s))
  | blank_3 a b c s : is_space3 a b c = true → blank s → blank (String a (String b (String c s))).

Lemma space1_first a : is_space1 a = true → code a < 128.
Proof. unfold is_space1. intros H. reflect_bools. lia. Qed.

Lemma space2_first a b : is_space2 a b = true → is_space1 a = false ∧ 128 ≤ code b ∧ code a = 194.
Proof. unfold is_space2, is_space1. intros H. reflect_bools. split_and!; reflect_bools; lia. Qed.

Lemma space3_first a b c : is_space3 a b c = true → is_space1 a = false ∧ is_space2 a b = false ∧ 128 ≤ code b ∧ 128 ≤ code c.
Proof. unfold is_space3, is_space2, is_space1. intros H. reflect_bools. split_and!; reflect_bools; lia. Qed.

Lemma blank_trim s : blank s ↔ trim_left s = "".
Proof.
  split.
  - induction 1 as [|a s Ha _ IH|a b s Hab _ IH|a b c s Habc _ IH]; [done|..]; rewrite trim_left_cons.
    + by rewrite Ha.
    + by rewrite (proj1 (space2_first a b Hab)), Hab.
    + destruct (space3_first a b c Habc) as (-> & -> & _). by rewrite Habc.
  - revert s. fix IH 1. intros [|a r1]; [constructor|]. rewrite trim_left_cons.
    destruct (is_space1 a) eqn:E1; [intros H; by apply blank_1, IH|].
    destruct r1 as [|b r2]; [done|]. destruct (is_space2 a b) eqn:E2; [intros H; by apply blank_2, IH|].
    destruct r2 as [|c r3]; [done|]. destruct (is_space3 a b c) eqn:E3; [intros H; by apply blank_3, IH|done].
Qed.

Lemma blank_app s t : blank s → blank t → blank (s +:+ t).
Proof. intros Hs Ht. induction Hs; [done|..]; rewrite !app_cons; by constructor. Qed.

Lemma blank_rev u : trim_left_rev u = "" → blank (String.rev u).
Proof.
  revert u. fix IH 1. intros [|a r1]; [constructor|]. rewrite trim_left_rev_cons.
  destruct (is_space1 a) eqn:E1.
  { intros H. rewrite rev_cons. apply blank_app; [by apply IH|]. apply blank_1; [done|constructor]. }
  destruct r1 as [|b r2]; [done|]. destruct (is_space2 b a) eqn:E2.
  { intros H. rewrite !rev_cons, string_app_assoc. apply blank_app; [by apply IH|]. apply blank_2; [done|constructor]. }
  destruct r2 as [|c r3]; [done|]. destruct (is_space3 c b a) eqn:E3; [|done].
  intros H. rewrite !rev_cons, !string_app_assoc. apply blank_app; [by apply IH|]. apply blank_3; [done|constructor].
Qed.

Lemma blank_spec s : blank s ↔ trim_space s = "".
Proof.
  unfold trim_space. split; [by intros ->%blank_trim|]. intros H.
  apply (f_equal String.rev) in H. rewrite rev_rev in H. apply blank_rev in H. rewrite rev_rev in H.
  apply blank_trim in H. rewrite (proj2 (trim_left_suffix s)) in H. by apply blank_trim.
Qed.

(** A newline at the end is a space of its own. *)
Lemma blank_newline s : blank (s +:+ nl) → blank s.
Proof.
  remember (s +:+ nl) as u eqn:Hu. intros Hb. revert s Hu.
  induction Hb as [|a u Ha Hb IH|a b u Hab Hb IH|a b c u Habc Hb IH]; intros [|x s] Hu; try solve [constructor|done].
  - injection Hu as -> Hu. apply blank_1; [done|by apply IH].
  - injection Hu as -> Hu. destruct s as [|y s].
    + injection Hu as -> _. apply space2_first in Hab as (_ & Hc & _). done.
    + injection Hu as -> Hu. apply blank_2; [done|by apply IH].
  - injection Hu as -> Hu. apply space3_first in Habc as H3. destruct H3 as (_ & _ & Hb' & Hc'). destruct s as [|y s].
    + by injection Hu as -> _.
    + injection Hu as -> Hu. destruct s as [|z s]; [by injection Hu as -> _|].
      injection Hu as -> Hu. apply blank_3; [done|by apply IH].
Qed.

Lemma blank_trim_newlines s : blank (trim_newlines s) → blank s.
Proof.
  assert (Hnl : is_space1 newline = true) by done.
  assert (Hall : ∀ t, trim_newlines t = "" → blank t).
  { induction t as [|c t IH]; [constructor|]. cbn [trim_newlines].
    destruct (Ascii.eqb_spec c newline) as [->|]; [|done]. cbn [andb].
    destruct (String.eqb_spec (trim_newlines t) "") as [Ht|]; [|done]. intros _. by apply blank_1; [|apply IH]. }
  intros Hb. assert (Hq : ∃ q, s = trim_newlines s +:+ q ∧ blank q).
  { clear Hb. induction s as [|c s (q & Hq & Hbq)]; [exists ""; split; [done|constructor]|]. cbn [trim_newlines].
    destruct (Ascii.eqb_spec c newline) as [->|]; cbn [andb]; [|by exists q; split; [rewrite app_cons, <- Hq|]].
    destruct (String.eqb_spec (trim_newlines s) "") as [Ht|].
    - exists (String newline s). split; [done|]. apply blank_1; [done|by apply Hall].
    - by exists q; split; [rewrite app_cons, <- Hq|]. }
  destruct Hq as (q & Hs & Hbq). rewrite Hs. by apply blank_app.
Qed.

(** ** What a file says *)

(** A line that can stand in the block. *)
Definition safe_line (l : string) : Prop :=
  no_newline l ∧ contains endMarker l = false ∧ trim_space l = l ∧ l ≠ "" ∧ has_prefix "#" l = false.

Definition wf_devices (ds : devices) : Prop :=
  map_Forall (λ id ls, validDeviceID id = true ∧ ls ≠ [] ∧ Forall safe_line ls) ds.

(** The owner's text, up to newlines at its end and unless it is blank. *)
Definition owner_text (base : string) : string :=
  if String.eqb (trim_space base) "" then "" else trim_newlines base.

Definition view (text : string) : string * devices :=
  let '(base, managed) := splitManagedBlock text in (owner_text base, parseManagedDevices managed).

(** There is no second block. *)
Definition one_block (text : string) : Prop := contains beginMarker (splitManagedBlock text).1 = false.

(** ** Device identifiers *)

Definition id_char (c : ascii) : bool := is_alnum c || has_char "._:-" c.

Lemma id_char_plain c : id_char c = true →
  is_space1 c = false ∧ Ascii.eqb c newline = false ∧ Ascii.eqb c "#" = false ∧ code c < 128.
Proof. destruct c as [[] [] [] [] [] [] [] []]; vm_compute; repeat split; congruence. Qed.

Definition plain (c : ascii) : Prop := is_space1 c = false ∧ code c < 128.

Lemma trim_left_plain c r : plain c → trim_left (String c r) = String c r.
Proof.
  intros [Hs Hc]. rewrite trim_left_cons, Hs. destruct r as [|b r]; [done|].
  assert (H2 : is_space2 c b = false) by (unfold is_space2; reflect_bools; lia). rewrite H2. destruct r as [|e r]; [done|].
  assert (H3 : is_space3 c b e = false) by (unfold is_space3; reflect_bools; lia). by rewrite H3.
Qed.

Lemma trim_left_rev_plain c r : plain c → trim_left_rev (String c r) = String c r.
Proof.
  intros [Hs Hc]. rewrite trim_left_rev_cons, Hs. destruct r as [|b r]; [done|].
  assert (H2 : is_space2 b c = false) by (unfold is_space2; reflect_bools; lia). rewrite H2. destruct r as [|e r]; [done|].
  assert (H3 : is_space3 e b c = false) by (unfold is_space3; reflect_bools; lia). by rewrite H3.
Qed.

(** A text whose first and last characters are plain. *)
Lemma trim_space_plain c s d t :
  plain c → plain d → String.rev (String c s) = String d t → trim_space (String c s) = String c s.
Proof. intros Hc Hd Hr. unfold trim_space. rewrite trim_left_plain, Hr, trim_left_rev_plain, <- Hr by done. apply rev_rev. Qed.

Lemma valid_id_chars id : validDeviceID id = true → id ≠ "" ∧ all_chars id_char id = true.
Proof.
  unfold validDeviceID, non_empty. intros [Hn%negb_true_iff Hc]%andb_true_iff. split; [by destruct id|exact Hc].
Qed.

Lemma id_char_is_plain c : id_char c = true → plain c.
Proof. intros (H1 & _ & _ & H4)%id_char_plain. by split. Qed.

Lemma valid_id_last id : validDeviceID id = true → ∃ d t, String.rev id = String d t ∧ plain d.
Proof.
  intros [Hne Hc]%valid_id_chars. rewrite <- all_chars_rev in Hc. destruct (String.rev id) as [|d t] eqn:E.
  - apply (f_equal String.rev) in E. rewrite rev_rev in E. by subst.
  - exists d, t. split; [done|]. cbn in Hc. apply andb_true_iff in Hc as [Hd _]. by apply id_char_is_plain.
Qed.

(** A marker in front of an identifier is not trimmed. *)
Lemma trim_marked p id : validDeviceID id = true → trim_space (String "#" p +:+ id) = String "#" p +:+ id.
Proof.
  intros (d & t & Hr & Hd)%valid_id_last. rewrite app_cons. eapply trim_space_plain; [by split|exact Hd|].
  by rewrite <- app_cons, rev_append, Hr, app_cons.
Qed.

Lemma trim_id id : validDeviceID id = true → trim_space id = id.
Proof.
  intros Hid. destruct (valid_id_last id Hid) as (d & t & Hr & Hd). destruct (valid_id_chars id Hid) as [Hne Hc].
  destruct id as [|c id]; [done|]. cbn in Hc. apply andb_true_iff in Hc as [Hc _].
  by eapply trim_space_plain; [apply id_char_is_plain|exact Hd|exact Hr].
Qed.

Lemma trim_prefix_app p s : trim_prefix p (p +:+ s) = s.
Proof. unfold trim_prefix. by rewrite (proj2 (strip_prefix_Some p (p +:+ s) s) eq_refl). Qed.

(** ** Reading the block back *)

Lemma parse_begin ds a id : validDeviceID id = true → parse_line (ds, a) (deviceBeginPrefix +:+ id) = (ds, id).
Proof.
  intros Hid. unfold parse_line.
  assert (Ht : trim_space (deviceBeginPrefix +:+ id) = deviceBeginPrefix +:+ id) by exact (trim_marked _ id Hid).
  by rewrite Ht, has_prefix_app, trim_prefix_app, trim_id, Hid.
Qed.

Lemma parse_end ds a id : validDeviceID id = true → parse_line (ds, a) (deviceEndPrefix +:+ id) = (ds, "").
Proof.
  intros Hid. unfold parse_line.
  assert (Ht : trim_space (deviceEndPrefix +:+ id) = deviceEndPrefix +:+ id) by exact (trim_marked _ id Hid).
  rewrite Ht. assert (Hb : has_prefix deviceBeginPrefix (deviceEndPrefix +:+ id) = false) by done.
  by rewrite Hb, has_prefix_app.
Qed.

Lemma no_hash_prefix p l : has_prefix "#" l = false → has_prefix (String "#" p) l = false.
Proof.
  intros H. destruct (has_prefix (String "#" p) l) eqn:E; [|done]. apply has_prefix_spec in E as [r ->].
  rewrite <- H. symmetry. apply has_prefix_spec. by exists (p +:+ r).
Qed.

Lemma parse_safe ds id l :
  validDeviceID id = true → safe_line l → parse_line (ds, id) l = (<[id := default [] (ds !! id) ++ [l]]> ds, id).
Proof.
  intros Hid (_ & _ & Ht & Hne & Hh). unfold parse_line. rewrite Ht.
  unfold deviceBeginPrefix, deviceEndPrefix. rewrite !no_hash_prefix by done. rewrite orb_false_r.
  rewrite (proj2 (String.eqb_neq l "") Hne). destruct (valid_id_chars id Hid) as [Hi _].
  by rewrite (proj2 (String.eqb_neq id "") Hi), Hid.
Qed.

Lemma parse_safes ds id ls :
  validDeviceID id = true → Forall safe_line ls → ls ≠ [] →
  foldl parse_line (ds, id) ls = (<[id := default [] (ds !! id) ++ ls]> ds, id).
Proof.
  intros Hid Hls. revert ds. induction Hls as [|l ls Hl _ IH]; intros ds Hne; [done|]. cbn [foldl].
  rewrite parse_safe by done. destruct ls as [|l' ls]; [done|]. rewrite IH by done.
  rewrite lookup_insert_eq, insert_insert_eq. cbn. by rewrite <- (assoc_L (++)). 
Qed.

Lemma parse_device ds ds' id :
  wf_devices ds → id ∈ dom ds →
  foldl parse_line (ds', "") (device_lines ds id) = (<[id := default [] (ds' !! id) ++ default [] (ds !! id)]> ds', "").
Proof.
  intros Hwf [ls Hls]%elem_of_dom. destruct (Hwf id ls Hls) as (Hid & Hne & Hsafe). unfold device_lines. rewrite Hls.
  cbn [default foldl]. rewrite parse_begin by done. rewrite foldl_app, parse_safes by done. cbn [foldl]. by rewrite parse_end.
Qed.

Lemma parse_blank s : parse_line s "" = s.
Proof. by destruct s. Qed.

Lemma parse_groups ds ids acc :
  wf_devices ds → Forall (λ id, id ∈ dom ds) ids →
  foldl parse_line (acc, "") (concat (map (device_lines ds) ids)) =
    (foldl (λ m id, <[id := default [] (m !! id) ++ default [] (ds !! id)]> m) acc ids, "").
Proof.
  intros Hwf Hids. revert acc. induction Hids as [|id ids Hid _ IH]; intros acc; [done|].
  cbn [map concat foldl]. rewrite foldl_app, parse_device by done. apply IH.
Qed.

Lemma device_ids_elem ds id : id ∈ device_ids ds ↔ id ∈ dom ds.
Proof.
  unfold device_ids. rewrite (merge_sort_Permutation str_le). rewrite list_elem_of_fmap, elem_of_dom. split.
  - intros ([i ls] & -> & Hi). exists ls. by apply elem_of_map_to_list.
  - intros [ls Hls]. exists (id, ls). split; [done|]. by apply elem_of_map_to_list.
Qed.

Lemma device_ids_NoDup ds : NoDup (device_ids ds).
Proof. unfold device_ids. rewrite (merge_sort_Permutation str_le). apply NoDup_fst_map_to_list. Qed.

(** Putting the devices in one after the other gives the map. *)
Lemma insert_groups (ds : devices) ids (acc : devices) k :
  NoDup ids → (∀ id, id ∈ ids → acc !! id = None ∧ id ∈ dom ds) →
  foldl (λ m id, <[id := default [] (m !! id) ++ default [] (ds !! id)]> m) acc ids !! k =
    if bool_decide (k ∈ ids) then ds !! k else acc !! k.
Proof.
  intros Hn. revert acc. induction Hn as [|id ids Hid Hn IH]; intros acc Hacc; [done|]. cbn [foldl].
  destruct (Hacc id (list_elem_of_here _ _)) as [Hnone [ls Hls]%elem_of_dom].
  rewrite Hnone, Hls. cbn [default app]. rewrite IH.
  - case_bool_decide as H1; [by rewrite bool_decide_eq_true_2 by by right|].
    destruct (decide (k = id)) as [->|Hk].
    + rewrite bool_decide_eq_true_2 by by left. by rewrite lookup_insert_eq.
    + rewrite bool_decide_eq_false_2 by (by intros [?|?]%elem_of_cons). by rewrite lookup_insert_ne.
  - intros id' Hid'. destruct (Hacc id') as [? ?]; [by right|]. split; [|done].
    rewrite lookup_insert_ne; [done|]. intros ->. done.
Qed.

Lemma parse_all ds :
  wf_devices ds → foldl parse_line (∅, "") (concat (map (device_lines ds) (device_ids ds))) = (ds, "").
Proof.
  intros Hwf. rewrite parse_groups; [|done|].
  2: { apply list.Forall_forall. intros id Hid. by apply device_ids_elem. }
  f_equal. apply map_eq. intros k. rewrite insert_groups.
  - case_bool_decide as Hk; [done|]. rewrite lookup_empty. symmetry. apply not_elem_of_dom. by rewrite <- device_ids_elem.
  - apply device_ids_NoDup.
  - intros id Hid. split; [apply lookup_empty|by apply device_ids_elem].
Qed.

(** The lines of the block have no newline and no outer marker. *)
Lemma id_no_char c id : id_char c = false → validDeviceID id = true → all_chars (λ d, negb (Ascii.eqb d c)) id = true.
Proof.
  intros Hc [_ Hid]%valid_id_chars. eapply all_chars_impl; [|exact Hid]. intros d Hd. apply negb_true_iff.
  destruct (Ascii.eqb_spec d c) as [->|]; [congruence|done].
Qed.

Lemma id_no_newline id : validDeviceID id = true → no_newline id.
Proof. by apply id_no_char. Qed.

(** A marker occurs only where its first character does. *)
Lemma contains_only_front m s :
  all_chars (λ d, negb (Ascii.eqb d "#")) s = true → contains (String "#" m) s = false.
Proof.
  induction s as [|c s IH]; [done|]. cbn [all_chars]. intros [Hc Hs]%andb_true_iff. cbn [contains].
  rewrite (IH Hs), orb_false_r. destruct (has_prefix (String "#" m) (String c s)) eqn:E; [|done].
  apply has_prefix_spec in E as [r [= -> _]]. by rewrite Ascii.eqb_refl in Hc.
Qed.

Lemma end_in_marker p id :
  validDeviceID id = true → all_chars (λ d, negb (Ascii.eqb d "#")) p = true →
  has_prefix endMarker (String "#" p +:+ id) = false → contains endMarker (String "#" p +:+ id) = false.
Proof.
  intros Hid Hp Hh. rewrite app_cons in *. cbn [contains]. rewrite Hh. cbn [orb].
  apply (contains_only_front " END agent-remote managed keys"). rewrite all_chars_app, Hp. by apply id_no_char.
Qed.

(** ** Writing and splitting *)

Definition block_lines (ds : devices) : list string := concat (map (device_lines ds) (device_ids ds)).

Definition file_text (base : string) (ds : devices) : string :=
  if String.eqb (trim_space base) "" then block ds else trim_newlines base +:+ nl +:+ block ds.

Lemma device_lines_safe ds id :
  wf_devices ds → id ∈ dom ds → Forall (λ l, no_newline l ∧ contains endMarker l = false) (device_lines ds id).
Proof.
  intros Hwf [ls Hls]%elem_of_dom. destruct (Hwf id ls Hls) as (Hid & _ & Hsafe). unfold device_lines. rewrite Hls. cbn [default].
  assert (Hm : ∀ p, no_newline p → no_newline (p +:+ id)).
  { intros p Hp. apply no_newline_app. split; [done|by apply id_no_newline]. }
  constructor; [|apply Forall_app; split; [|constructor; [|constructor]]].
  - split; [by apply Hm|]. by apply (end_in_marker " BEGIN agent-remote device " id Hid).
  - eapply Forall_impl; [|exact Hsafe]. intros l (H1 & H2 & _). by split.
  - split; [by apply Hm|]. by apply (end_in_marker " END agent-remote device " id Hid).
Qed.

Lemma block_lines_safe ds :
  wf_devices ds → Forall no_newline (block_lines ds) ∧ Forall (λ l, contains endMarker l = false) (block_lines ds).
Proof.
  intros Hwf. assert (H : Forall (λ l, no_newline l ∧ contains endMarker l = false) (block_lines ds)).
  { apply Forall_concat, Forall_map, list.Forall_forall. intros id Hid%device_ids_elem. by apply device_lines_safe. }
  split; (eapply Forall_impl; [|exact H]); intros l Hl; apply Hl.
Qed.

Lemma cut_block ds :
  wf_devices ds →
  cut endMarker (nl +:+ unlines (block_lines ds) +:+ endMarker +:+ nl) = Some (nl +:+ unlines (block_lines ds), nl).
Proof.
  intros Hwf. pose proof (cut_line endMarker "" (unlines (block_lines ds) +:+ endMarker +:+ nl)) as Hc.
  change ("" +:+ nl +:+ ?x) with (nl +:+ x) in Hc. rewrite Hc; [|done|done|done].
  by rewrite cut_lines; [|done|done|apply block_lines_safe].
Qed.

Lemma parse_block ds : wf_devices ds → parseManagedDevices (nl +:+ unlines (block_lines ds)) = ds.
Proof.
  intros Hwf. unfold parseManagedDevices. pose proof (split_line "" (unlines (block_lines ds)) eq_refl) as Hs.
  change ("" +:+ ?x) with x in Hs. rewrite Hs, split_lines by by apply block_lines_safe.
  cbn [foldl]. rewrite parse_blank, foldl_app. unfold block_lines. by rewrite parse_all.
Qed.

(** What was written is split into the owner's text and the block. *)
Lemma split_file base ds :
  wf_devices ds → contains beginMarker base = false →
  splitManagedBlock (file_text base ds) =
    (if String.eqb (trim_space base) "" then nl else trim_newlines base +:+ nl, nl +:+ unlines (block_lines ds)).
Proof.
  intros Hwf Hb. unfold file_text. destruct (String.eqb (trim_space base) ""); unfold splitManagedBlock, block.
  - rewrite cut_here. fold (block_lines ds). by rewrite cut_block.
  - rewrite cut_line; [|done|done|by apply trim_newlines_contains]. rewrite cut_here. fold (block_lines ds).
    rewrite cut_block by done. f_equal. rewrite app_empty, trim_newlines_end.
    by rewrite trim_newlines_end, trim_newlines_idem.
Qed.

Lemma owner_kept base : owner_text (if String.eqb (trim_space base) "" then nl else trim_newlines base +:+ nl) = owner_text base.
Proof.
  unfold owner_text. destruct (String.eqb_spec (trim_space base) "") as [_|Hne]; [done|].
  destruct (String.eqb_spec (trim_space (trim_newlines base +:+ nl)) "") as [H|_].
  - exfalso. apply Hne, blank_spec, blank_trim_newlines, blank_newline. by apply blank_spec.
  - by rewrite trim_newlines_end, trim_newlines_idem.
Qed.

Lemma view_file base ds :
  wf_devices ds → contains beginMarker base = false →
  view (file_text base ds) = (owner_text base, ds) ∧ one_block (file_text base ds).
Proof.
  intros Hwf Hb. unfold view, one_block. rewrite split_file by done. split; [by rewrite owner_kept, parse_block|].
  cbn [fst]. destruct (String.eqb _ _); [done|].
  apply cut_None. pose proof (cut_line beginMarker (trim_newlines base) "") as Hc. rewrite app_empty in Hc.
  by rewrite Hc; [|done|done|apply trim_newlines_contains].
Qed.

(** Whatever is parsed from a block is well formed. *)
Lemma trimmed_safe raw :
  no_newline raw → contains endMarker raw = false → trim_space raw ≠ "" → has_prefix "#" (trim_space raw) = false →
  safe_line (trim_space raw).
Proof.
  intros Hn Hc Hne Hh. destruct (trim_space_parts raw) as (p & q & Hr). split_and!; [| |by apply trim_space_idem|done|done].
  - rewrite Hr in Hn. by apply no_newline_app in Hn as [_ [Hn _]%no_newline_app].
  - rewrite Hr in Hc. by eapply contains_within.
Qed.

Lemma parse_line_wf ds a raw :
  wf_devices ds → no_newline raw → contains endMarker raw = false → wf_devices (parse_line (ds, a) raw).1.
Proof.
  intros Hwf Hn Hc. unfold parse_line. destruct (has_prefix deviceBeginPrefix _); [by destruct (validDeviceID _)|].
  destruct (has_prefix deviceEndPrefix _); [done|].
  destruct (String.eqb_spec (trim_space raw) "") as [|Hne]; [done|]. cbn [orb].
  destruct (has_prefix "#" (trim_space raw)) eqn:Hh; [done|].
  assert (Hsafe : safe_line (trim_space raw)) by by apply trimmed_safe.
  set (id := if String.eqb a "" then _ else a). destruct (validDeviceID id) eqn:Hid; [|done]. cbn [fst].
  apply map_Forall_insert_2; [|done]. split; [done|]. split; [by destruct (default [] _)|].
  apply Forall_app. split; [|by constructor]. destruct (ds !! id) as [ls|] eqn:Els; [|constructor].
  by destruct (Hwf id ls Els) as (_ & _ & Hls).
Qed.

Lemma parse_wf managed : contains endMarker managed = false → wf_devices (parseManagedDevices managed).
Proof.
  intros Hc. unfold parseManagedDevices.
  assert (Hparts : Forall (λ l, no_newline l ∧ contains endMarker l = false) (split_on newline managed)).
  { apply list.Forall_forall. intros l Hl. destruct (split_part newline managed l Hl) as (Hn & p & q & Hm).
    split; [done|]. rewrite Hm in Hc. by eapply contains_within. }
  assert (Hinit : wf_devices (∅, "").1) by apply map_Forall_empty.
  revert Hinit. generalize (∅ : devices, ""). induction Hparts as [|l ls [Hn Hl] _ IH]; intros [ds a] Hwf; [done|].
  cbn [foldl]. apply IH. by apply parse_line_wf.
Qed.

Lemma managed_wf text : wf_devices (parseManagedDevices (splitManagedBlock text).2).
Proof.
  apply parse_wf. unfold splitManagedBlock. destruct (cut beginMarker text) as [[b rest]|]; [|done].
  destruct (cut endMarker rest) as [[managed after]|] eqn:E; cbn [snd].
  - by apply cut_Some in E as [_ E]; apply E.
  - by apply cut_None.
Qed.

(** ** Synchronisation *)

(** The text fits a line of the block. *)
Definition one_line (l : string) : Prop := no_newline l ∧ contains endMarker l = false.

Lemma trim_space_word x : trim_left_rev (String.rev (trim_space x)) = String.rev (trim_space x).
Proof. unfold trim_space. rewrite rev_rev. apply trim_left_rev_suffix. Qed.

(** A rendered entry starts with its option and ends with the trimmed key. *)
Lemma render_trimmed bin conf key :
  RenderEntry bin conf key ≠ "" →
  trim_space (RenderEntry bin conf key) = RenderEntry bin conf key ∧ has_prefix "#" (RenderEntry bin conf key) = false.
Proof.
  unfold RenderEntry. destruct (String.eqb_spec (trim_space (KeyEntry.PublicKey key)) "") as [|Hne]; [done|]. intros _.
  set (key' := trim_space (KeyEntry.PublicKey key)) in *. cbv zeta. set (cmd := commandWithBinary _ _ _).
  set (front := quote_mark +:+ cmd +:+ quote_mark +:+ ",no-X11-forwarding,no-port-forwarding,no-user-rc").
  assert (Hform : "command=" +:+ quote_mark +:+ cmd +:+ quote_mark +:+ ",no-X11-forwarding,no-port-forwarding,no-user-rc " +:+ key' =
    ("command=" +:+ front) +:+ " " +:+ key') by (unfold front; by rewrite !string_app_assoc).
  rewrite Hform. clear Hform. split; [|done]. unfold trim_space.
  rewrite !app_cons, trim_left_plain by done. rewrite <- !app_cons.
  change (String "c" ("ommand=" +:+ front) +:+ " " +:+ key') with (("command=" +:+ front) +:+ " " +:+ key').
  generalize ("command=" +:+ front). intros A. rewrite !rev_append, string_app_assoc.
  change (String.rev " " +:+ String.rev A) with (String " " (String.rev A)). rewrite trim_left_rev_blank.
  - by rewrite rev_append, rev_cons, !rev_rev, string_app_assoc.
  - intros H. apply (f_equal String.rev) in H. by rewrite rev_rev in H.
  - apply trim_space_word.
Qed.

Lemma rendered_safe bin conf keys :
  Forall one_line (rendered bin conf keys) → Forall safe_line (rendered bin conf keys).
Proof.
  intros H. apply list.Forall_forall. intros l Hl. rewrite list.Forall_forall in H. destruct (H l Hl) as [Hn Hc].
  unfold rendered in Hl. apply list_elem_of_In, List.filter_In in Hl as [Hl Hne].
  apply in_map_iff in Hl as (key & <- & _). apply negb_true_iff, String.eqb_neq in Hne.
  destruct (render_trimmed bin conf key Hne) as [Ht Hh]. by split_and!.
Qed.

Lemma update_wf id entries ds :
  validDeviceID id = true → Forall safe_line entries → wf_devices ds → wf_devices (update_device id entries ds).
Proof.
  intros Hid He Hwf. unfold update_device. destruct entries as [|e es]; [by apply map_Forall_delete|].
  by apply map_Forall_insert_2.
Qed.

(** A synchronisation replaces one device and keeps everything else. *)
Lemma sync_view bin conf p text :
  validDeviceID (SyncPayload.DeviceID p) = true → Forall one_line (rendered bin conf (SyncPayload.SSHKeys p)) →
  one_block text →
  view (sync_text bin conf p text) =
    ((view text).1, update_device (SyncPayload.DeviceID p) (rendered bin conf (SyncPayload.SSHKeys p)) (view text).2) ∧
  one_block (sync_text bin conf p text).
Proof.
  intros Hid Hl Hone. pose proof (managed_wf text) as Hwf. unfold view, one_block in *. unfold sync_text.
  destruct (splitManagedBlock text) as [base managed]. cbn [fst snd] in *.
  apply (view_file base (update_device _ _ (parseManagedDevices managed))); [|done].
  by apply update_wf; [|apply rendered_safe|].
Qed.

(** ** Histories *)

(** The requests for one file, with what the system calls come to. *)
Definition request : Type := sync_io * SyncPayload.

Section History.
Context (path attachBinary attachConfig : string).

Definition binary : string := if String.eqb attachBinary "" then "agent-remote-attach" else attachBinary.

Definition entries_of (p : SyncPayload) : list string := rendered binary attachConfig (SyncPayload.SSHKeys p).

(** The request reaches the file and the file is replaced. *)
Definition goes_through (r : request) : bool :=
  let '(io, p) := r in
  non_empty path && validDeviceID (SyncPayload.DeviceID p) && (made_directory io || String.eqb (Dir path) ".") &&
  readable io && (created io && chmod_ok io && written io && synced io && closed io && renamed io).

Definition run (file : option string) (r : request) : option string :=
  (Sync r.1 path attachBinary attachConfig r.2 file).1.

(** The specification: the lines of one device are replaced. *)
Definition specified (v : string * devices) (r : request) : string * devices :=
  if goes_through r then (v.1, update_device (SyncPayload.DeviceID r.2) (entries_of r.2) v.2) else v.

Lemma Sync_cases r file :
  Sync r.1 path attachBinary attachConfig r.2 file =
    if goes_through r then (Some (sync_text binary attachConfig r.2 (default "" file)), Ok tt)
    else (file, Err match Sync r.1 path attachBinary attachConfig r.2 file with (_, Err e) => e | _ => PathRequired end).
Proof.
  destruct r as [io p]. unfold goes_through, Sync, writeFileAtomic, non_empty, binary. cbn [fst snd].
  destruct (String.eqb path ""); [done|]. destruct (validDeviceID _); [|done]. cbn [negb andb].
  destruct (made_directory io), (String.eqb (Dir path) "."); cbn [negb andb orb]; try done;
    (destruct (readable io); [|done]); cbn [negb andb]; by destruct (_ && renamed io).
Qed.

(** C21: a managed authorized_keys file is its owner's text and a map from
    devices to lines.  Whatever the file says at first, as long as it has no
    second block, and whichever requests follow, of any devices and with any
    failure of a system call in between: afterwards the file reads as the
    owner's text at first, with the lines of every device as its last
    successful request rendered them, and a request that fails leaves the very
    same text.  The requests that go through render every key to one line of
    the block: without a newline and without the text of the end marker
    ([newline_key_reaches_device] shows what a key with newlines does). *)
Theorem sync_history_exact file requests :
  one_block (default "" file) →
  Forall (λ r, goes_through r = true → Forall one_line (entries_of r.2)) requests →
  view (default "" (foldl run file requests)) = foldl specified (view (default "" file)) requests ∧
  one_block (default "" (foldl run file requests)) ∧
  ∀ r, goes_through r = false → run (foldl run file requests) r = foldl run file requests.
Proof.
  intros Hone Hl. assert (Hfail : ∀ f r, goes_through r = false → run f r = f).
  { intros f r Hr. unfold run. by rewrite Sync_cases, Hr. }
  revert file Hone. induction Hl as [|r requests Hr _ IH]; intros file Hone; [by split_and!; [done|done|intros; apply Hfail]|].
  cbn [foldl]. assert (Hstep : view (default "" (run file r)) = specified (view (default "" file)) r ∧
    one_block (default "" (run file r))).
  { unfold specified. destruct (goes_through r) eqn:E; [|by rewrite Hfail].
    assert (Hid : validDeviceID (SyncPayload.DeviceID r.2) = true).
    { destruct r as [io p]. unfold goes_through in E. cbn in *. by destruct (validDeviceID _); [|destruct (non_empty path)]. }
    unfold run. rewrite Sync_cases, E. cbn [fst default]. apply sync_view; [done|by apply Hr|done]. }
  destruct Hstep as [<- Hone']. by apply IH.
Qed.
End History.

(** [install-ssh] never prepares a missing file: the payload it synchronises
    has no device, which every synchronisation refuses, so on a node without an
    authorized_keys file the command fails and writes nothing, whatever the
    system calls come to. *)
Lemma install_ssh_unprepared io path attachBinary sourcePath stat_error :
  installSSH io path attachBinary sourcePath stat_error None =
    (None, Err (if stat_error then StatFailed
                else SyncFailed (if String.eqb path "" then PathRequired else InvalidDevice))).
Proof. unfold installSSH, Sync. destruct stat_error, (String.eqb path ""); reflexivity. Qed.

(** ** Managed keys at work

    The keys of two devices beside a key of the owner, a rotation, a removal,
    and a key whose text reaches into the block of another device. *)

Module SshDemo.

Definition path : string := "/var/lib/agent-remote/authorized_keys".
Definition bin : string := "/usr/local/bin/agent-remote-attach".
Definition conf : string := "/etc/agent-remote-node/config.json".

Definition owner : string := "ssh-ed25519 AAAAEXISTING existing@test" +:+ nl.

Definition works : sync_io := mkIO true true true true true true true true.
Definition disk_full : sync_io := mkIO true true true true false true true true.

Definition payload (id : string) (keys : list string) : SyncPayload :=
  SyncPayload.mk id "" "" None
    (map (λ k, KeyEntry.mk "" k ("agent-remote-attach --device " +:+ id)) keys).

Definition requests : list request :=
  [(works, payload "dev_2" ["ssh-ed25519 AAAADEV2 "]);
   (works, payload "dev_1" ["ssh-ed25519 AAAAOLD"; " "]);
   (disk_full, payload "dev_2" []);
   (works, payload "dev_1" ["ssh-ed25519 AAAANEW"])].

Definition line (id key : string) : string :=
  "command=" +:+ quote_mark +:+ bin +:+ " --config " +:+ conf +:+ " --device " +:+ id +:+ quote_mark +:+
  ",no-X11-forwarding,no-port-forwarding,no-user-rc " +:+ key.

Example final_file :
  foldl (run path bin conf) (Some owner) requests =
  Some (owner +:+ unlines [beginMarker;
    deviceBeginPrefix +:+ "dev_1"; line "dev_1" "ssh-ed25519 AAAANEW"; deviceEndPrefix +:+ "dev_1";
    deviceBeginPrefix +:+ "dev_2"; line "dev_2" "ssh-ed25519 AAAADEV2"; deviceEndPrefix +:+ "dev_2";
    endMarker]).
Proof. vm_compute. reflexivity. Qed.

Lemma requests_fit :
  Forall (λ r : request, goes_through path r = true → Forall one_line (entries_of bin conf r.2)) requests.
Proof. unfold requests. repeat constructor; intros _; vm_compute; repeat constructor. Qed.

Lemma sync_history_exact_witness :
  view (default "" (foldl (run path bin conf) (Some owner) requests)) =
    foldl (specified path bin conf) (view owner) requests ∧
  one_block (default "" (foldl (run path bin conf) (Some owner) requests)) ∧
  ∀ r, goes_through path r = false →
    run path bin conf (foldl (run path bin conf) (Some owner) requests) r = foldl (run path bin conf) (Some owner) requests.
Proof.
  apply (sync_history_exact path bin conf (Some owner) requests).
  - vm_compute. reflexivity.
  - exact requests_fit.
Defined.

(** A key with newlines ends its device and goes on in the block of another
    one: that device gets a line without the forced command. *)
Lemma newline_key_reaches_device :
  let key := "ssh-ed25519 A" +:+ nl +:+ deviceEndPrefix +:+ "dev_1" +:+ nl +:+ deviceBeginPrefix +:+ "dev_2" +:+ nl +:+ "ssh-ed25519 B" in
  let file := foldl (run path bin conf) (Some owner) requests in
  (view (default "" (run path bin conf file (works, payload "dev_1" [key])))).2 !! "dev_2" =
    Some ["ssh-ed25519 B"; line "dev_2" "ssh-ed25519 AAAADEV2"].
Proof. vm_compute. reflexivity. Qed.

End SshDemo.
