(* ===== verification/Attachments.v ===== *)
(** * Attachment transfers (src/internal/claudeattachments/transfer.go)

    A gateway serves one lease over an SSH stream: an offer, then frames that
    open the transfer, upload files and clean up, each a line of JSON, an upload
    followed by its bytes.  However the stream ends, the lease's directory is
    removed and a receipt published.  Files live in a map from path elements
    below the account's attachments to contents; the outcome of every system
    call, the clock and the control plane's answer to a receipt are inputs. *)

From S2P Require Import Prelude GoText GoTime GoJson GoUtf8 GoJsonText GoJsonValue GoJsonDecode GoJsonStruct.
From S2P Require Import Ledger DevicePayload ExportStream.
From Stdlib.Strings Require Import Ascii.

Definition AttachmentProtocolVersion : Z := 1.
Definition MaxAttachmentHeaderBytes : Z := 64 * 1024.
Definition MaxAttachmentBatchBytes : Z := 256 * 1024 * 1024.
Definition MaxAttachmentEntries : Z := 32.
Definition MaxAttachmentNameBytes : Z := 255.

Definition nil_uuid : string := "00000000-0000-0000-0000-000000000000".

Definition canonicalUUID (value : string) : bool :=
  match_classes (replicate 8 is_hex ++ [is_dash] ++ replicate 4 is_hex ++ [is_dash] ++ replicate 4 is_hex ++ [is_dash] ++
                 replicate 4 is_hex ++ [is_dash] ++ replicate 12 is_hex) value && negb (String.eqb value nil_uuid).

(** A decoded name is valid UTF-8. *)
Definition validLeafName (name : string) : bool :=
  non_empty name && (len name <=? MaxAttachmentNameBytes) && negb (String.eqb name ".") && negb (String.eqb name "..") &&
  negb (contains_any "/\" name) && all_runes (λ r, negb (is_control r)) 0 (codes name).

(** ** Frames *)

Record TransferIdentity := mkTransfer {
  NodeID : string;
  SessionID : string;
  ExpectedDeviceID : string;
  SSHKeyID : string;
  LeaseID : string
}.

Definition valid_identity (i : TransferIdentity) : bool :=
  forallb canonicalUUID [NodeID i; SessionID i; ExpectedDeviceID i; SSHKeyID i; LeaseID i].

(** Opening and cleaning up have the same fields. *)
Module LeaseFrame.
Record LeaseFrame := mk {
  Version : Z;
  Operation : string;
  SessionID : string;
  ExpectedDeviceID : string;
  LeaseID : string
}.

Definition fields : list (field LeaseFrame) := [
  int_field "version" Version (λ x r, r <| Version := x |>);
  str_field "operation" Operation (λ x r, r <| Operation := x |>);
  str_field "session_id" SessionID (λ x r, r <| SessionID := x |>);
  str_field "expected_device_id" ExpectedDeviceID (λ x r, r <| ExpectedDeviceID := x |>);
  str_field "lease_id" LeaseID (λ x r, r <| LeaseID := x |>)].

Definition zero : LeaseFrame := mk 0 "" "" "" "".

Definition Validate (operation : string) (f : LeaseFrame) (i : TransferIdentity) : bool :=
  (Version f =? AttachmentProtocolVersion) && String.eqb (Operation f) operation && valid_identity i &&
  String.eqb (SessionID f) (Attachments.SessionID i) &&
  String.eqb (ExpectedDeviceID f) (Attachments.ExpectedDeviceID i) && String.eqb (LeaseID f) (Attachments.LeaseID i).
End LeaseFrame.
Export LeaseFrame(LeaseFrame).

Module UploadFrame.
Record UploadFrame := mk {
  Version : Z;
  Operation : string;
  SessionID : string;
  ExpectedDeviceID : string;
  LeaseID : string;
  BatchID : string;
  Kind : string;
  Name : string;
  Size : Z;
  SHA256 : string
}.

Definition fields : list (field UploadFrame) := [
  int_field "version" Version (λ x r, r <| Version := x |>);
  str_field "operation" Operation (λ x r, r <| Operation := x |>);
  str_field "session_id" SessionID (λ x r, r <| SessionID := x |>);
  str_field "expected_device_id" ExpectedDeviceID (λ x r, r <| ExpectedDeviceID := x |>);
  str_field "lease_id" LeaseID (λ x r, r <| LeaseID := x |>);
  str_field "batch_id" BatchID (λ x r, r <| BatchID := x |>);
  str_field "kind" Kind (λ x r, r <| Kind := x |>);
  str_field "name" Name (λ x r, r <| Name := x |>);
  int_field "size" Size (λ x r, r <| Size := x |>);
  str_field "sha256" SHA256 (λ x r, r <| SHA256 := x |>)].

Definition zero : UploadFrame := mk 0 "" "" "" "" "" "" "" 0 "".

Definition Validate (f : UploadFrame) (i : TransferIdentity) (maxBytes maxEntries : Z) : bool :=
  (Version f =? AttachmentProtocolVersion) && String.eqb (Operation f) "upload" && valid_identity i &&
  String.eqb (SessionID f) (Attachments.SessionID i) &&
  String.eqb (ExpectedDeviceID f) (Attachments.ExpectedDeviceID i) && String.eqb (LeaseID f) (Attachments.LeaseID i) &&
  canonicalUUID (BatchID f) &&
  (String.eqb (Kind f) "file" || String.eqb (Kind f) "image") &&
  validLeafName (Name f) && (0 <? Size f) && (Size f <=? MaxAttachmentBatchBytes) &&
  negb ((0 <? maxBytes) && (maxBytes <? Size f)) && (0 <? maxEntries) && (maxEntries <=? MaxAttachmentEntries) &&
  hex64 (SHA256 f).
End UploadFrame.
Export UploadFrame(UploadFrame).

(** ** Receipts *)

Inductive CleanupStatus := Cleaned | Pending | Unknown | Rejected.

#[global] Instance status_eq_dec : EqDecision CleanupStatus.
Proof. solve_decision. Defined.

Definition status_text (s : CleanupStatus) : string :=
  match s with Cleaned => "cleaned" | Pending => "pending" | Unknown => "unknown" | Rejected => "rejected" end.

Record CleanupReceipt := mkReceipt {
  For : TransferIdentity;
  Status : CleanupStatus;
  RemovedBatches : Z;
  ReceiptID : string
}.

Definition identity_members (i : TransferIdentity) : list (string * value) := [
  ("node_id", VStr (NodeID i)); ("session_id", VStr (SessionID i)); ("expected_device_id", VStr (ExpectedDeviceID i));
  ("ssh_key_id", VStr (SSHKeyID i)); ("lease_id", VStr (LeaseID i))].

Definition receipt_value (r : CleanupReceipt) : value :=
  VObj ([("version", VNum (itoa AttachmentProtocolVersion)); ("operation", VStr "cleanup_receipt")] ++
        identity_members (For r) ++
        [("status", VStr (status_text (Status r))); ("removed_batches", VNum (itoa (RemovedBatches r)));
         ("receipt_id", VStr (ReceiptID r))]).

(** ** The gateway *)

Record Gateway := mkGateway {
  Identity : TransferIdentity;
  AccountPath : string;
  LeaseExpiresAt : time;
  MaxBytes : Z;
  MaxEntries : Z;
  ReceiptRoot : string;
  CleanupHook : bool
}.

(** A path below the attachments of the account: session, lease, batch and
    name. *)
Definition location : Type := list string.

(** What the system calls of one upload come to: the directories, creating the
    file, how many bytes the disk takes, closing it, and removing it again. *)
Record upload_io := mkUploadIO {
  tree_ok : bool;
  create_ok : bool;
  disk : option nat;
  close_ok : bool;
  remove_ok : bool
}.

(** What a cleanup meets: the removal fails and keeps some files, the
    receipt's identifier, storing it, what the hook answers, and storing it once
    more. *)
Record cleanup_io := mkCleanupIO {
  remains : option (location → bool);
  receipt_id : string;
  stored : bool;
  hook_ok : bool;
  stored_again : bool
}.

Record environment := mkEnv {
  now_at : nat → time;               (* by the number of frames handled *)
  ended_at : nat → bool;
  upload_at : nat → upload_io;
  cleaning : cleanup_io
}.

(** The variables of [Serve], what it leaves behind, and the uploads it
    accepted. *)
Record session := mkSession {
  handled : nat;
  opened : bool;
  finished : bool;
  seen : gset string;
  bytesTotal : Z;
  attachments : gmap location (list Z);
  receipts : gmap string CleanupReceipt;
  told : list CleanupReceipt;
  received : list (UploadFrame * list Z)
}.

Definition started (files : gmap location (list Z)) (receipts : gmap string CleanupReceipt) : session :=
  mkSession 0 false false ∅ 0 files receipts [] [].

Section Gateway.
Context (hex_sha256 : list Z → string) (env : environment) (g : Gateway).

#[local] Abbreviation serving := (stream session).

Definition lease_root : location := [SessionID (Identity g); LeaseID (Identity g)].

Definition place (f : UploadFrame) : location := lease_root ++ [UploadFrame.BatchID f; UploadFrame.Name f].

(** [filepath.Join] of several elements. *)
Definition Join (parts : list string) : string := Clean (join "/" (List.filter non_empty parts)).

Definition upload_root (f : UploadFrame) : string :=
  Join [AccountPath g; ".agent-remote-attachments"; SessionID (Identity g); LeaseID (Identity g); UploadFrame.BatchID f].

Definition upload_path (f : UploadFrame) : string := Join2 (upload_root f) (UploadFrame.Name f).

(** The current session. *)
Definition get : serving session := act (λ s, (s, Some s)).

Definition modify (f : session → session) : serving unit := act (λ s, (f s, Some tt)).

Definition writeJSONLine (v : value) : serving unit :=
  let text := print_value compact 0 v in
  _ ← require_stream (len text <=? MaxAttachmentHeaderBytes);
  write (codes (text +:+ String "010" "")).

Definition offer : value :=
  let i := Identity g in
  VObj ([("version", VNum (itoa AttachmentProtocolVersion)); ("operation", VStr "lease_offer")] ++ identity_members i ++
        [("expires_at", VStr (format_rfc3339 (LeaseExpiresAt g))); ("max_bytes", VNum (itoa (MaxBytes g)));
         ("max_entries", VNum (itoa (MaxEntries g)))]).

Definition open_ack : value :=
  VObj [("operation", VStr "open_ack"); ("version", VNum (itoa AttachmentProtocolVersion))].

Definition upload_ack (f : UploadFrame) : value :=
  VObj [("batch_id", VStr (UploadFrame.BatchID f)); ("operation", VStr "upload_ack"); ("path", VStr (upload_path f));
        ("version", VNum (itoa AttachmentProtocolVersion))].

(** [receiveUpload]: the file, from the bytes that follow the frame. *)
Definition receiveUpload (f : UploadFrame) (io : upload_io) : serving (list Z) :=
  _ ← require_stream (tree_ok io);
  _ ← require_stream (String.eqb (Base (upload_path f)) (UploadFrame.Name f));
  s ← get;
  _ ← require_stream (create_ok io && negb (is_some (attachments s !! place f)));
  let size := Z.to_nat (UploadFrame.Size f) in
  data ← limited size;
  let copied := match disk io with Some n => take n data | None => data end in
  let sound := (size <=? length copied)%nat && close_ok io && String.eqb (hex_sha256 data) (UploadFrame.SHA256 f) in
  (* a file that is not sound is removed again, if that works *)
  _ ← modify (λ s, if sound || negb (remove_ok io) then s <| attachments := <[place f := copied]> (attachments s) |>
                   else s);
  _ ← require_stream sound;
  mret data.

(** [cleanup]: the session afterwards and the receipt that is returned. *)
Definition cleanup (s : session) : session * CleanupReceipt :=
  let io := cleaning env in
  let outside (kv : location * list Z) := negb (bool_decide (lease_root `prefix_of` kv.1)) in
  let keep (kv : location * list Z) := match remains io with Some k => outside kv || k kv.1 | None => outside kv end in
  let files := filter (λ kv, keep kv = true) (attachments s) in
  let '(status, removed) := match remains io with
                            | None => (Cleaned, Z.of_nat (size (seen s)))
                            | Some _ => (Pending, 0)
                            end in
  let receipt := mkReceipt (Identity g) status removed (receipt_id io) in
  let persist (ok : bool) (r : CleanupReceipt) (m : gmap string CleanupReceipt) :=
    if ok then <[LeaseID (Identity g) := r]> m else m in
  let kept := persist (stored io) receipt (receipts s) in
  let receipt := if negb (stored io) && bool_decide (Status receipt = Cleaned) then receipt <| Status := Pending |>
                 else receipt in
  let s := s <| attachments := files |> <| receipts := kept |> <| finished := true |> in
  if CleanupHook g then
    let s := s <| told := told s ++ [receipt] |> in
    if hook_ok io then (s, receipt)
    else
      let receipt := if bool_decide (Status receipt = Rejected) then receipt else receipt <| Status := Unknown |> in
      (s <| receipts := persist (stored_again io) receipt (receipts s) |>, receipt)
  else (s, receipt).

(** ** Reading frames *)

(** [ReadBytes('\n')]: a line, or nothing at the end of the stream. *)
Fixpoint until_newline (l : list Z) : option (list Z * list Z) :=
  match l with
  | [] => None
  | b :: rest => if b =? 10 then Some ([], rest) else '(line, rest) ← until_newline rest; Some (b :: line, rest)
  end.

Definition read_line : serving (option (list Z)) := λ w,
  match until_newline (incoming w) with
  | Some (line, rest) => (mkWire rest (torn w) (outgoing w) (room w) (granted w) (world w), Some (Some line))
  | None =>
      let w' := mkWire [] (torn w) (outgoing w) (room w) (granted w) (world w) in
      match incoming w with
      | [] => if torn w then (w', None) else (w', Some None)
      | _ => (w', None)
      end
  end.

(** [rejectDuplicateKeys] and the operation of the envelope. *)
Definition frame_of (line : list Z) : option (json * string) :=
  j ← parse_json (text_of line);
  if negb (no_duplicate_keys j) then None else
  match j with
  | JObj _ =>
      '(_, v) ← raw_member j "operation";
      match v with JStr operation => Some (j, operation) | JNull => Some (j, "") | _ => None end
  | _ => None
  end.

(** [decodeStrict] behind that check. *)
Definition decode_frame {R} (fields : list (field R)) (zero : R) (j : json) : option R := decode_known fields zero j.

Definition handle_open (first : bool) (j : json) : serving bool :=
  s ← get;
  _ ← require_stream (first && negb (opened s));
  f ← of_option (decode_frame LeaseFrame.fields LeaseFrame.zero j);
  _ ← require_stream (LeaseFrame.Validate "open" f (Identity g));
  _ ← modify (λ s, s <| opened := true |>);
  _ ← writeJSONLine open_ack;
  mret true.

Definition handle_upload (first : bool) (j : json) : serving bool :=
  s ← get;
  _ ← require_stream (opened s && negb first);
  f ← of_option (decode_frame UploadFrame.fields UploadFrame.zero j);
  _ ← require_stream (UploadFrame.Validate f (Identity g) (MaxBytes g - bytesTotal s)
                        (MaxEntries g - Z.of_nat (size (seen s))));
  _ ← require_stream (negb (bool_decide (UploadFrame.BatchID f ∈ seen s)));
  _ ← require_stream (Z.of_nat (size (seen s)) <? MaxEntries g);
  data ← receiveUpload f (upload_at env (handled s));
  _ ← modify (λ s, s <| seen := {[UploadFrame.BatchID f]} ∪ seen s |>
                     <| bytesTotal := wrap_int64 (bytesTotal s + UploadFrame.Size f) |>
                     <| received := received s ++ [(f, data)] |>);
  _ ← writeJSONLine (upload_ack f);
  mret true.

(** [false]: the transfer is over. *)
Definition handle_cleanup (first : bool) (j : json) : serving bool :=
  s ← get;
  _ ← require_stream (opened s && negb first);
  f ← of_option (decode_frame LeaseFrame.fields LeaseFrame.zero j);
  _ ← require_stream (LeaseFrame.Validate "cleanup" f (Identity g));
  receipt ← act (λ s, let '(s, r) := cleanup s in (s, Some r));
  _ ← writeJSONLine (receipt_value receipt);
  mret false.

(** One turn of the loop: whether it goes on. *)
Definition serve_turn : serving bool :=
  s ← get;
  _ ← require_stream (negb (after (now_at env (handled s)) (LeaseExpiresAt g)));
  line ← read_line;
  match line with
  | None => mret false
  | Some line =>
      _ ← require_stream (Z.of_nat (length line) + 1 <=? MaxAttachmentHeaderBytes);
      '(j, operation) ← of_option (frame_of line);
      let first := Nat.eqb (handled s) 0 in
      more ← (if String.eqb operation "open" then handle_open first j
              else if String.eqb operation "upload" then handle_upload first j
              else if String.eqb operation "cleanup" then handle_cleanup first j
              else refuse);
      match more with
      | true =>
          _ ← modify (λ s, s <| handled := S (handled s) |>);
          _ ← require_stream (negb (ended_at env (handled s)));
          mret true
      | false => mret false
      end
  end.

(** Every turn reads a line, so the length of the input is fuel enough. *)
Fixpoint serve_loop (fuel : nat) : serving unit :=
  match fuel with
  | O => refuse
  | S fuel => more ← serve_turn; match more with true => serve_loop fuel | false => mret tt end
  end.

Definition authorized_gateway : bool :=
  valid_identity (Identity g) && non_empty (AccountPath g) && non_empty (ReceiptRoot g) &&
  negb (LeaseExpiresAt g =? zero_time) && (0 <? MaxBytes g) && (MaxBytes g <=? MaxAttachmentBatchBytes) &&
  (0 <? MaxEntries g) && (MaxEntries g <=? MaxAttachmentEntries).

(** The frames, and the deferred cleanup: a lease that was not cleaned up on
    request is cleaned up when the loop ends. *)
Definition serve_frames : serving unit := λ w,
  let '(w, r) := serve_loop (S (length (incoming w))) w in
  if finished (world w) then (w, r)
  else (mkWire (incoming w) (torn w) (outgoing w) (room w) (granted w) (cleanup (world w)).1, r).

Definition Serve : serving unit :=
  _ ← require_stream authorized_gateway;
  _ ← writeJSONLine offer;
  serve_frames.
End Gateway.
