(* ===== verification/AttachmentsFacts.v ===== *)
(** * Attachment transfers: what a client can make a gateway do

    The triples of [ExportStreamFacts] over the session of a gateway: what was
    answered tells exactly what was accepted, an accepted upload is stored with
    the announced digest until the cleanup, and however the stream ends the
    cleanup happened, inside the directory of the lease. *)

From S2P Require Import Prelude GoText GoTime GoJson GoUtf8 GoJsonText GoJsonValue GoJsonDecode GoJsonStruct.
From S2P Require Import Ledger DevicePayload ExportStream ExportStreamFacts Attachments.
From Stdlib.Strings Require Import Ascii.

#[local] Arguments place : simpl never.

(** The bytes of some answers, a line each. *)
Definition line (v : value) : list Z := codes (print_value compact 0 v +:+ String "010" "").

Definition lines (vs : list value) : list Z := concat (map line vs).

Lemma lines_app vs vs' : lines (vs ++ vs') = lines vs ++ lines vs'.
Proof. unfold lines. by rewrite map_app, concat_app. Qed.

Definition total (l : list (UploadFrame * list Z)) : Z := foldr (λ x acc, UploadFrame.Size x.1 + acc) 0 l.

Lemma total_app l l' : total (l ++ l') = total l + total l'.
Proof. unfold total. induction l as [|x l IH]; cbn; lia. Qed.

Definition batches (l : list (UploadFrame * list Z)) : list string := map (λ x, UploadFrame.BatchID x.1) l.

(** ** Predicates on the output and the session *)

Section Rules.
Context (R : list Z → session → Prop).

Definition on (w : wire session) : Prop := R (outgoing w) (world w).

Lemma triple_get E : triple on get (λ s w, on w ∧ world w = s) E.
Proof. intros w Hw. unfold get, act, on in *. cbn. by split. Qed.

Lemma triple_update (R' : list Z → session → Prop) f E :
  (∀ out s, R out s → R' out (f s)) →
  triple on (modify f) (λ _ w, R' (outgoing w) (world w)) E.
Proof. intros Hf w Hw. unfold modify, act. cbn. by apply Hf. Qed.

Lemma triple_read_line : triple on read_line (λ _, on) on.
Proof.
  intros w Hw. unfold read_line. destruct (until_newline _) as [[l rest]|]; [done|].
  destruct (incoming w); [destruct (torn w)|]; done.
Qed.

Lemma triple_limited_on n E : triple on (limited n) (λ data w, on w ∧ (length data ≤ n)%nat) E.
Proof. intros w Hw. cbn. split; [done|]. rewrite length_take. lia. Qed.

Lemma triple_refuse {A} Q : triple on (refuse (A:=A)) Q on.
Proof. by intros w Hw. Qed.

Lemma triple_ret {A} (a : A) (Q : A → wire session → Prop) E :
  (∀ w, on w → Q a w) → triple on (mret a) Q E.
Proof. intros HQ w Hw. by apply HQ. Qed.
End Rules.

Lemma triple_line (P : session → Prop) out v :
  triple (on (λ o s, o = out ∧ P s)) (writeJSONLine v)
    (λ _, on (λ o s, o = out ++ line v ∧ P s))
    (on (λ o s, o `prefix_of` out ++ line v ∧ P s)).
Proof.
  unfold writeJSONLine. intros w [Ho Hp].
  assert (Hnone : on (λ o s, o `prefix_of` out ++ line v ∧ P s) w).
  { split; [|exact Hp]. rewrite Ho. by apply prefix_app_r. }
  unfold mbind, stream_bind, require_stream.
  destruct (_ <=? _); [|exact Hnone]. cbn. unfold write. fold (line v).
  destruct (room w) as [n|]; [destruct (_ <=? _)%nat|]; unfold on; cbn; rewrite Ho; (split; [|exact Hp]); try done.
  apply prefix_app, prefix_take.
Qed.

(** A line that is not written is cut short. *)
Lemma line_cut v w w' :
  writeJSONLine v w = (w', None) →
  world w' = world w ∧ ∃ k, (k < length (line v))%nat ∧ outgoing w' = outgoing w ++ take k (line v).
Proof.
  unfold writeJSONLine, require_stream, mbind, stream_bind, mret, stream_ret, refuse.
  assert (Hpos : (0 < length (line v))%nat) by (unfold line; rewrite codes_app, length_app; cbn; lia).
  destruct (_ <=? _); [|intros [= <-]; split; [done|]; exists 0%nat; by rewrite app_nil_r].
  unfold write. fold (line v). destruct (room w) as [n|]; [|done].
  destruct (_ <=? _)%nat eqn:E; [done|]. apply Nat.leb_gt in E. intros [= <-]. split; [done|]. by exists n.
Qed.

(** ** What holds while frames are served *)

Section Serving.
Context (hex_sha256 : list Z → string) (env : environment) (g : Gateway).
Context (files : gmap location (list Z)) (receipts0 : gmap string CleanupReceipt).

Definition below (l : location) : Prop := lease_root g `prefix_of` l.

(** An accepted upload: announced for this lease, and all its bytes are there
    with the announced digest. *)
Definition accepted (x : UploadFrame * list Z) : Prop :=
  UploadFrame.SessionID x.1 = SessionID (Identity g) ∧
  UploadFrame.ExpectedDeviceID x.1 = ExpectedDeviceID (Identity g) ∧
  UploadFrame.LeaseID x.1 = LeaseID (Identity g) ∧
  canonicalUUID (UploadFrame.BatchID x.1) = true ∧ validLeafName (UploadFrame.Name x.1) = true ∧
  0 < UploadFrame.Size x.1 ≤ MaxAttachmentBatchBytes ∧
  Z.of_nat (length x.2) = UploadFrame.Size x.1 ∧ hex_sha256 x.2 = UploadFrame.SHA256 x.1.

(** The bytes stay within the limit, unless some uploads met it exactly. *)
Definition within (l : list (UploadFrame * list Z)) : Prop :=
  total l ≤ MaxBytes g ∨ ∃ l1 l2, l = l1 ++ l2 ∧ l2 ≠ [] ∧ total l1 = MaxBytes g.

Record serving_ok (s : session) : Prop := {
  ok_accepted : Forall accepted (received s);
  ok_batches : NoDup (batches (received s));
  ok_entries : Z.of_nat (length (received s)) ≤ MaxEntries g;
  ok_within : within (received s);
  ok_seen : seen s = list_to_set (batches (received s));
  ok_total : bytesTotal s = total (received s);
  ok_stored : Forall (λ x, attachments s !! place g x.1 = Some x.2) (received s);
  ok_outside : ∀ l, ¬ below l → attachments s !! l = files !! l;
  ok_opened : opened s = false → received s = [];
  ok_running : finished s = false;
  ok_receipts : receipts s = receipts0;
  ok_told : told s = []
}.

(** What was answered so far. *)
Definition answers (s : session) : list value :=
  offer g :: (if opened s then [open_ack] else []) ++ map (λ x, upload_ack g x.1) (received s).

Lemma seen_size s : serving_ok s → Z.of_nat (size (seen s)) = Z.of_nat (length (received s)).
Proof.
  intros Hs. rewrite (ok_seen _ Hs). rewrite size_list_to_set by apply (ok_batches _ Hs).
  unfold batches. by rewrite length_map.
Qed.

Lemma place_below f : below (place g f).
Proof. unfold below, place. by exists [UploadFrame.BatchID f; UploadFrame.Name f]. Qed.

Lemma total_bound l : Forall accepted l → 0 ≤ total l ≤ Z.of_nat (length l) * MaxAttachmentBatchBytes.
Proof.
  unfold total. induction 1 as [|x l (_ & _ & _ & _ & _ & Hx & _) _ IH]; cbn; [lia|].
  unfold MaxAttachmentBatchBytes in *. lia.
Qed.

Hypothesis gateway_ok : authorized_gateway g = true.

Lemma limits : 0 < MaxBytes g ≤ MaxAttachmentBatchBytes ∧ 0 < MaxEntries g ≤ MaxAttachmentEntries.
Proof. unfold authorized_gateway in gateway_ok. rewrite !andb_true_iff in gateway_ok. lia. Qed.

(** A validated frame, with what is left of the lease's limits. *)
Lemma validated f left entries :
  UploadFrame.Validate f (Identity g) left entries = true →
  UploadFrame.SessionID f = SessionID (Identity g) ∧
  UploadFrame.ExpectedDeviceID f = ExpectedDeviceID (Identity g) ∧
  UploadFrame.LeaseID f = LeaseID (Identity g) ∧
  canonicalUUID (UploadFrame.BatchID f) = true ∧ validLeafName (UploadFrame.Name f) = true ∧
  0 < UploadFrame.Size f ≤ MaxAttachmentBatchBytes ∧ (UploadFrame.Size f ≤ left ∨ left ≤ 0).
Proof.
  unfold UploadFrame.Validate. rewrite !andb_true_iff, !String.eqb_eq, negb_true_iff, andb_false_iff. intuition lia.
Qed.

Lemma within_snoc l x :
  within l → UploadFrame.Size x.1 ≤ MaxBytes g - total l ∨ MaxBytes g - total l ≤ 0 → within (l ++ [x]).
Proof.
  intros Hl Hx. unfold within in *. rewrite total_app. cbn [total foldr].
  destruct Hl as [Hl|(l1 & l2 & -> & Hne & Heq)].
  - destruct Hx as [Hx|Hx]; [left; lia|]. right. exists l, [x]. split_and!; [done|done|lia].
  - right. exists l1, (l2 ++ [x]). rewrite (assoc_L (++)). split_and!; [done|by destruct l2|done].
Qed.

(** ** Receiving *)

(** Only the file of the upload changes, and only while it is not there. *)
Definition changed_at (f : UploadFrame) (s0 s : session) : Prop :=
  attachments s0 !! place g f = None ∧ ∃ m, s = s0 <| attachments := m |> ∧ ∀ l, l ≠ place g f → m !! l = attachments s0 !! l.

Lemma same_place f s0 : attachments s0 !! place g f = None → changed_at f s0 s0.
Proof. intros Hn. split; [done|]. exists (attachments s0). split; [by destruct s0|done]. Qed.

Lemma changed_ok f s0 s : serving_ok s0 → changed_at f s0 s → serving_ok s.
Proof.
  intros Hs [Hn (m & -> & Hm)]. destruct Hs. constructor; cbn; try done.
  - rewrite list.Forall_forall in *. intros x Hx. rewrite Hm; [by apply ok_stored0|].
    intros Heq. specialize (ok_stored0 x Hx). congruence.
  - intros l Hl. rewrite Hm; [by apply ok_outside0|]. intros ->. apply Hl, place_below.
Qed.

Lemma triple_upload f io out s0 :
  triple (on (λ o s, o = out ∧ s = s0)) (receiveUpload hex_sha256 g f io)
    (λ data, on (λ o s, o = out ∧ attachments s0 !! place g f = None ∧
       s = s0 <| attachments := <[place g f := data]> (attachments s0) |> ∧
       (Z.to_nat (UploadFrame.Size f) ≤ length data)%nat ∧ (length data ≤ Z.to_nat (UploadFrame.Size f))%nat ∧
       hex_sha256 data = UploadFrame.SHA256 f))
    (on (λ o s, o = out ∧ (s = s0 ∨ changed_at f s0 s))).
Proof.
  intros w [Ho Hs]. unfold receiveUpload, require_stream, modify, act, get, limited, mbind, stream_bind, mret, stream_ret.
  assert (Hstay : on (λ o s, o = out ∧ (s = s0 ∨ changed_at f s0 s)) w) by (split; auto).
  destruct (tree_ok io); [|exact Hstay]. destruct (String.eqb _ (UploadFrame.Name f)); [|exact Hstay].
  cbn. rewrite Hs. destruct (create_ok io); cbn [andb]; [|by split; [|left]].
  destruct (attachments s0 !! place g f) as [?|] eqn:Hn; cbn; [by split; [|left]|].
  set (data := take _ (incoming w)). set (copied := match disk io with Some n => take n data | None => data end).
  assert (Hcl : (length copied ≤ length data)%nat).
  { unfold copied. destruct (disk io); [rewrite length_take|]; lia. }
  assert (Hdl : (length data ≤ Z.to_nat (UploadFrame.Size f))%nat) by (unfold data; rewrite length_take; lia).
  destruct (_ && _) eqn:Hsound; cbn.
  - rewrite !andb_true_iff, Nat.leb_le, String.eqb_eq in Hsound. destruct Hsound as [[Hl _] Hd].
    assert (copied = data) as ->.
    { unfold copied in *. destruct (disk io) as [n|]; [|done]. rewrite length_take in Hl. apply take_ge. lia. }
    unfold on. cbn. split_and!; try done; lia.
  - unfold on. cbn. split; [done|]. right. destruct (remove_ok io); cbn; [by apply same_place|].
    split; [done|].
    exists (<[place g f := copied]> (attachments s0)). split; [done|]. intros l Hl. by apply lookup_insert_ne.
Qed.

(** An accepted upload. *)
Lemma upload_kept s f data :
  serving_ok s → opened s = true → attachments s !! place g f = None →
  UploadFrame.Validate f (Identity g) (MaxBytes g - bytesTotal s) (MaxEntries g - Z.of_nat (size (seen s))) = true →
  UploadFrame.BatchID f ∉ seen s → Z.of_nat (size (seen s)) < MaxEntries g →
  Z.of_nat (length data) = UploadFrame.Size f → hex_sha256 data = UploadFrame.SHA256 f →
  serving_ok (s <| attachments := <[place g f := data]> (attachments s) |>
                <| seen := {[UploadFrame.BatchID f]} ∪ seen s |>
                <| bytesTotal := wrap_int64 (bytesTotal s + UploadFrame.Size f) |>
                <| received := received s ++ [(f, data)] |>).
Proof.
  intros Hs Hopen Hn Hv Hnew Hroom Hlen Hsha. rewrite (seen_size _ Hs) in Hroom.
  destruct (validated _ _ _ Hv) as (H1 & H2 & H3 & H4 & H5 & H6 & Hleft).
  pose proof (total_bound _ (ok_accepted _ Hs)) as Hb. pose proof limits as [Hl1 Hl2].
  destruct Hs. rewrite ok_total0 in Hleft. constructor; cbn; try done.
  - apply Forall_app. split; [done|]. by constructor.
  - unfold batches. rewrite map_app. apply list.NoDup_app. split_and!; [done| |apply list.NoDup_singleton].
    intros b Hb' ->%list_elem_of_singleton. cbn in *. subst. set_solver.
  - rewrite length_app. cbn. lia.
  - by apply within_snoc.
  - rewrite ok_seen0. unfold batches. rewrite map_app, list_to_set_app_L. cbn. set_solver.
  - rewrite total_app, ok_total0. cbn [total foldr fst]. rewrite wrap_int64_id; [lia|].
    unfold is_int64, MaxAttachmentBatchBytes, MaxAttachmentEntries, max_int64 in *. lia.
  - apply Forall_app. split.
    + rewrite list.Forall_forall in *. intros x Hx. rewrite lookup_insert_ne; [by apply ok_stored0|].
      intros Heq. specialize (ok_stored0 x Hx). congruence.
    + constructor; [|done]. cbn. apply lookup_insert_eq.
  - intros l Hl. rewrite lookup_insert_ne; [by apply ok_outside0|]. intros <-. apply Hl, place_below.
  - congruence.
Qed.

(** ** One turn *)

Context (out0 : list Z).

(** Between two turns: everything is answered. *)
Definition served : wire session → Prop := on (λ o s, o = out0 ++ lines (answers s) ∧ serving_ok s).

(** Stopped in a turn: the last answer may be missing or cut. *)
Definition stopped : wire session → Prop := on (λ o s, o `prefix_of` out0 ++ lines (answers s) ∧ serving_ok s).

(** The answers up to the receipt of a cleanup. *)
Definition closing_answers (s0 : session) : list value := answers s0 ++ [receipt_value (cleanup env g s0).2].

(** Cleaned up on request, with the answers sent as far as said. *)
Definition cleaned (sent : list Z → list Z → Prop) : wire session → Prop := on (λ o s, ∃ s0,
  serving_ok s0 ∧ s = (cleanup env g s0).1 ∧ sent o (out0 ++ lines (closing_answers s0))).

Lemma served_stopped w : served w → stopped w.
Proof. intros [Ho Hs]. split; [by rewrite Ho|done]. Qed.

(** A line that answers what brought the session about. *)
Lemma answered s s' v w :
  outgoing w = out0 ++ lines (answers s) → world w = s' → answers s' = answers s ++ [v] → serving_ok s' →
  let '(w', r) := writeJSONLine v w in match r with Some _ => served w' | None => stopped w' end.
Proof.
  intros Ho Hw Hans Hok. pose proof (triple_line (λ s0, s0 = s') _ v w (conj Ho Hw)) as Hl.
  assert (Heq : (out0 ++ lines (answers s)) ++ line v = out0 ++ lines (answers s')).
  { rewrite Hans, lines_app, (assoc_L (++)). f_equal. unfold lines. cbn [map concat]. by rewrite app_nil_r. }
  rewrite Heq in Hl. destruct (writeJSONLine v w) as [w' [[]|]]; destruct Hl as [Ho' Hw']; split; by rewrite Hw'.
Qed.

Definition turn_end (w : wire session) : Prop := stopped w ∨ cleaned prefix w.

#[local] Arguments writeJSONLine : simpl never.
#[local] Arguments receiveUpload : simpl never.
#[local] Arguments cleanup : simpl never.
#[local] Arguments LeaseFrame.Validate : simpl never.
#[local] Arguments UploadFrame.Validate : simpl never.
#[local] Arguments decode_frame : simpl never.
#[local] Arguments lines : simpl never.
#[local] Arguments answers : simpl never.

#[local] Ltac run := unfold require_stream, of_option, refuse, get, modify, act, mbind, stream_bind, mret, stream_ret; cbn.

Lemma triple_open first j :
  triple served (handle_open g first j) (λ more w, more = true ∧ served w) turn_end.
Proof.
  intros w Hw. unfold handle_open. run.
  assert (Hstop : turn_end w) by (left; by apply served_stopped).
  destruct w as [inc tn out rm gr s]. destruct Hw as [Ho Hs]. cbn in Ho, Hs |- *.
  destruct (first && negb (opened s)) eqn:Hfirst; [|exact Hstop].
  apply andb_true_iff in Hfirst as [_ Hclosed%negb_true_iff].
  destruct (decode_frame _ _ j) as [f|]; [|exact Hstop].
  destruct (LeaseFrame.Validate _ _ _); [|exact Hstop]. cbn.
  set (s' := s <| opened := true |>).
  match goal with |- context [writeJSONLine _ ?x] => set (w' := x) end.
  assert (Hok : serving_ok s') by (destruct Hs; by constructor).
  assert (Hans : answers s' = answers s ++ [open_ack]).
  { unfold answers. cbn. by rewrite Hclosed, (ok_opened _ Hs). }
  pose proof (answered s s' open_ack w' Ho eq_refl Hans Hok) as Hl.
  destruct (writeJSONLine open_ack w') as [w2 [[]|]]; [by split|by left].
Qed.

Lemma triple_upload_turn first j :
  triple served (handle_upload hex_sha256 env g first j) (λ more w, more = true ∧ served w) turn_end.
Proof.
  intros w Hw. unfold handle_upload. run.
  assert (Hstop : turn_end w) by (left; by apply served_stopped).
  destruct w as [inc tn out rm gr s]. destruct Hw as [Ho Hs]. cbn in Ho, Hs |- *.
  destruct (opened s) eqn:Hopen; cbn; [|exact Hstop]. destruct (negb first); [|exact Hstop].
  destruct (decode_frame _ _ j) as [f|]; [|exact Hstop].
  destruct (UploadFrame.Validate _ _ _ _) eqn:Hv; [|exact Hstop].
  destruct (bool_decide (_ ∈ seen s)) eqn:Hnew; [exact Hstop|]. apply bool_decide_eq_false in Hnew. cbn.
  destruct (_ <? MaxEntries g) eqn:Hroom; [|exact Hstop]. apply Z.ltb_lt in Hroom.
  set (w1 := mkWire _ _ _ _ _ _).
  pose proof (triple_upload f (upload_at env (handled s)) out s w1 (conj eq_refl eq_refl)) as Hup.
  destruct (receiveUpload _ _ _ _ w1) as [w2 [data|]]; cbn in Hup.
  - destruct Hup as (Ho2 & Hn & Hw2 & Hge & Hle & Hsha). rewrite Hw2. cbn.
    destruct (validated _ _ _ Hv) as (_ & _ & _ & _ & _ & Hsize & _).
    match goal with |- context [writeJSONLine _ (mkWire _ _ _ _ _ ?x)] => set (s' := x) end.
    match goal with |- context [writeJSONLine _ ?x] => set (w3 := x) end.
    assert (Hok : serving_ok s') by (apply upload_kept; try done; lia).
    assert (Hans : answers s' = answers s ++ [upload_ack g f]).
    { unfold answers. cbn. rewrite Hopen, map_app. cbn. done. }
    pose proof (answered s s' (upload_ack g f) w3) as Hl.
    specialize (Hl (eq_trans Ho2 Ho) eq_refl Hans Hok).
    destruct (writeJSONLine (upload_ack g f) w3) as [w4 [[]|]]; [by split|by left].
  - destruct Hup as [Ho2 Hch]. left. split.
    + rewrite Ho2, Ho. destruct Hch as [->|[_ (m & -> & _)]]; done.
    + destruct Hch as [->|Hch]; [done|by eapply changed_ok].
Qed.

Lemma triple_cleanup_turn first j :
  triple served (handle_cleanup env g first j) (λ more w, more = false ∧ cleaned eq w) turn_end.
Proof.
  intros w Hw. unfold handle_cleanup. run.
  assert (Hstop : turn_end w) by (left; by apply served_stopped).
  destruct w as [inc tn out rm gr s]. destruct Hw as [Ho Hs]. cbn in Ho, Hs |- *.
  destruct (opened s) eqn:Hopen; cbn; [|exact Hstop]. destruct (negb first); [|exact Hstop].
  destruct (decode_frame _ _ j) as [f|]; [|exact Hstop].
  destruct (LeaseFrame.Validate _ _ _); [|exact Hstop]. cbn.
  destruct (cleanup env g s) as [s' receipt] eqn:Hc. cbn.
  match goal with |- context [writeJSONLine _ ?x] => set (w' := x) end.
  pose proof (triple_line (λ s0, s0 = s') _ (receipt_value receipt) w' (conj Ho eq_refl)) as Hl.
  assert (Heq : (out0 ++ lines (answers s)) ++ line (receipt_value receipt) = out0 ++ lines (closing_answers s)).
  { unfold closing_answers. rewrite Hc, lines_app, (assoc_L (++)). f_equal. unfold lines. cbn [map concat snd].
    by rewrite app_nil_r. }
  rewrite Heq in Hl. assert (Hs' : (cleanup env g s).1 = s') by by rewrite Hc.
  destruct (writeJSONLine _ w') as [w2 [[]|]]; destruct Hl as [Ho' Hw2]; unfold turn_end, cleaned, on; rewrite Hw2.
  - split; [done|]. exists s. rewrite Ho'. by split_and!.
  - right. exists s. by split_and!.
Qed.

Lemma triple_turn :
  triple served (serve_turn hex_sha256 env g)
    (λ more w, if more : bool then served w else served w ∨ cleaned eq w) turn_end.
Proof.
  assert (Hstop : ∀ w, served w → turn_end w) by (intros w Hw; left; by apply served_stopped).
  unfold serve_turn. eapply triple_bind; [apply triple_get|]. intros s.
  eapply triple_bind; [apply triple_require; intros w [Hw _]; by apply Hstop|]. intros [].
  eapply triple_pre; [intros w [[Hw Hs] _]; exact (conj Hw Hs)|].
  intros w [Hw Hs]. revert w Hw Hs.
  enough (triple served
    (line ← read_line;
     match line with
     | Some line =>
         _ ← require_stream (Z.of_nat (length line) + 1 <=? MaxAttachmentHeaderBytes);
         '(j, operation) ← of_option (frame_of line);
         let first := Nat.eqb (handled s) 0 in
         more ← (if String.eqb operation "open" then handle_open g first j
                 else if String.eqb operation "upload" then handle_upload hex_sha256 env g first j
                 else if String.eqb operation "cleanup" then handle_cleanup env g first j
                 else refuse);
         match more with
         | true =>
             _ ← modify (λ s, s <| handled := S (handled s) |>);
             _ ← require_stream (negb (ended_at env (handled s)));
             mret true
         | false => mret false
         end
     | None => mret false
     end) (λ more w, if more : bool then served w else served w ∨ cleaned eq w) turn_end) as H by (intros w Hw _; by apply H).
  eapply triple_bind; [eapply triple_weaken; [apply triple_read_line|intros ? w Hw; exact Hw|exact Hstop]|].
  intros [l|]; [|by apply triple_ret; left].
  eapply triple_bind; [by apply triple_require|]. intros [].
  eapply triple_bind; [apply triple_option; intros w [Hw _]; by apply Hstop|]. intros [j operation].
  eapply triple_pre; [intros w [[Hw _] _]; exact Hw|].
  eapply triple_bind with (R := λ more w, if more : bool then served w else cleaned eq w).
  { repeat case_match; first
      [ eapply triple_weaken; [apply triple_open|intros ? w [-> Hw]; exact Hw|done]
      | eapply triple_weaken; [apply triple_upload_turn|intros ? w [-> Hw]; exact Hw|done]
      | eapply triple_weaken; [apply triple_cleanup_turn|intros ? w [-> Hw]; exact Hw|done]
      | intros w Hw; by apply Hstop ]. }
  intros []; [|intros w Hw; by right].
  eapply triple_bind; [apply (triple_update _ (λ o s, o = out0 ++ lines (answers s) ∧ serving_ok s))|].
  { intros o s' [Ho Hs]. split; [exact Ho|]. destruct Hs. by constructor. }
  intros []. eapply triple_bind; [by apply triple_require|]. intros [] w [Hw _]. exact Hw.
Qed.
Lemma triple_loop fuel :
  triple served (serve_loop hex_sha256 env g fuel) (λ _ w, served w ∨ cleaned eq w) turn_end.
Proof.
  induction fuel as [|fuel IH]; [intros w Hw; left; by apply served_stopped|].
  cbn. eapply triple_bind; [apply triple_turn|]. intros []; [exact IH|]. by intros w Hw.
Qed.

(** ** The cleanup *)

(** What a receipt says of a session: cleaned up only without a file of the
    lease left, and with the uploads counted. *)
Definition honest (s : session) (r : CleanupReceipt) : Prop :=
  For r = Identity g ∧
  (Status r = Cleaned → (∀ l, below l → attachments s !! l = None) ∧
                        RemovedBatches r = Z.of_nat (length (received s))).

(** A session behind its cleanup: other files, other leases' receipts and the
    uploads are as before, and whoever was told something was told the truth. *)
Record cleanup_ok (s0 s : session) (r : CleanupReceipt) : Prop := {
  clean_same : received s = received s0 ∧ opened s = opened s0;
  clean_finished : finished s = true;
  clean_outside : ∀ l, ¬ below l → attachments s !! l = files !! l;
  clean_gone : remains (cleaning env) = None → ∀ l, below l → attachments s !! l = None;
  clean_kept : ∀ keep, remains (cleaning env) = Some keep →
    Forall (λ x, keep (place g x.1) = true → attachments s !! place g x.1 = Some x.2) (received s);
  clean_others : ∀ id, id ≠ LeaseID (Identity g) → receipts s !! id = receipts0 !! id;
  clean_stored : ∀ k, receipts s !! LeaseID (Identity g) = Some k →
                 receipts0 !! LeaseID (Identity g) = Some k ∨ honest s k;
  clean_persisted : stored (cleaning env) = true → ∃ k, receipts s !! LeaseID (Identity g) = Some k ∧ honest s k;
  clean_told : CleanupHook g = true → ∃ k, told s = [k] ∧ honest s k;
  clean_untold : CleanupHook g = false → told s = [];
  clean_honest : honest s r
}.

(** What is left of the files. *)
Definition left_files (s0 : session) : gmap location (list Z) :=
  filter (λ kv : location * list Z,
    match remains (cleaning env) with
    | Some k => negb (bool_decide (lease_root g `prefix_of` kv.1)) || k kv.1
    | None => negb (bool_decide (lease_root g `prefix_of` kv.1))
    end = true) (attachments s0).

Lemma left_outside s0 l : serving_ok s0 → ¬ below l → left_files s0 !! l = files !! l.
Proof.
  intros Hs Hl. rewrite <- (ok_outside _ Hs l Hl). unfold left_files. rewrite map_lookup_filter.
  destruct (attachments s0 !! l) as [x|]; cbn; [|done].
  rewrite (bool_decide_eq_false_2 (lease_root g `prefix_of` l)) by exact Hl. cbn.
  rewrite option_guard_True; [done|by destruct (remains _)].
Qed.

Lemma left_below s0 l : remains (cleaning env) = None → below l → left_files s0 !! l = None.
Proof.
  intros Hr Hl. unfold left_files. rewrite map_lookup_filter, Hr. destruct (attachments s0 !! l) as [x|]; cbn; [|done].
  rewrite (bool_decide_eq_true_2 (lease_root g `prefix_of` l)) by exact Hl. by rewrite option_guard_False.
Qed.

Lemma left_kept s0 keep :
  serving_ok s0 → remains (cleaning env) = Some keep →
  Forall (λ x, keep (place g x.1) = true → left_files s0 !! place g x.1 = Some x.2) (received s0).
Proof.
  intros Hs Hr. pose proof (ok_stored _ Hs) as Hst. rewrite list.Forall_forall in *. intros x Hx Hk.
  unfold left_files. rewrite map_lookup_filter, Hr, (Hst x Hx). cbn. rewrite option_guard_True; [done|].
  rewrite Hk. apply orb_true_r.
Qed.

Lemma cleanup_spec s0 : serving_ok s0 → cleanup_ok s0 (cleanup env g s0).1 (cleanup env g s0).2.
Proof.
  intros Hs. pose proof (seen_size _ Hs) as Hsize. pose proof (left_outside s0) as Hout. pose proof (left_below s0) as Hin.
  pose proof (left_kept s0) as Hkeep.
  pose proof (ok_receipts _ Hs) as Hr. pose proof (ok_told _ Hs) as Ht.
  unfold cleanup. fold (left_files s0). set (io := cleaning env) in *.
  destruct (remains io) as [k|] eqn:Hk; destruct (stored io) eqn:Hsto, (CleanupHook g) eqn:Hhook, (hook_ok io), (stored_again io);
    cbn; (constructor; cbn; [done|done|auto|auto|..]);
    rewrite ?Hr, ?Ht; unfold honest; cbn; rewrite ?Hsize;
    try (intros id Hid; rewrite ?lookup_insert_ne; done);
    try (intros k' Hk'; rewrite ?lookup_insert_eq in Hk';
         first [left; exact Hk' | injection Hk' as <-; right; cbn; auto]);
    try (intros _; eexists; split; [done|]; cbn; auto); auto; try done;
    first [congruence | unfold io in Hk; rewrite Hk; auto; done
          |unfold io in Hsto; intros Hyes; congruence
          |intros _; eexists; rewrite lookup_insert_eq; split; [reflexivity|];
           repeat (rewrite (bool_decide_eq_false_2 (_ = Rejected)) by done); cbn; split; [done|];
           intros ?; first [discriminate | auto]].
Qed.

(** The frames and the deferred cleanup. *)
Lemma serve_frames_ends w :
  served w →
  let '(w', r) := serve_frames hex_sha256 env g w in
  ∃ s0, serving_ok s0 ∧ world w' = (cleanup env g s0).1 ∧
    (outgoing w' `prefix_of` out0 ++ lines (answers s0) ∨ outgoing w' `prefix_of` out0 ++ lines (closing_answers s0)) ∧
    (r = Some tt → outgoing w' = out0 ++ lines (answers s0) ∨ outgoing w' = out0 ++ lines (closing_answers s0)).
Proof.
  intros Hw. unfold serve_frames. pose proof (triple_loop (S (length (incoming w))) w Hw) as Hl.
  assert (Hend : ∀ s0, serving_ok s0 → finished (cleanup env g s0).1 = true).
  { intros s0 Hs. by apply (clean_finished _ _ _ (cleanup_spec s0 Hs)). }
  destruct (serve_loop _ _ _ _ w) as [w1 [u|]].
  - destruct Hl as [[Ho Hs]|(s0 & Hs & Hw1 & Ho)].
    + rewrite (ok_running _ Hs). exists (world w1). cbn. rewrite Ho. split_and!; auto.
    + rewrite Hw1, (Hend s0 Hs). exists s0. rewrite Ho. split_and!; auto.
  - destruct Hl as [[Ho Hs]|(s0 & Hs & Hw1 & Ho)].
    + rewrite (ok_running _ Hs). exists (world w1). cbn. split_and!; [done|done|by left|done].
    + rewrite Hw1, (Hend s0 Hs). exists s0. split_and!; [done|done|by right|done].
Qed.
End Serving.

(** ** The loop ends *)

(** A computation that does not lengthen its input. *)
Definition shrinks {A} (p : stream session A) : Prop := ∀ w, (length (incoming (p w).1) ≤ length (incoming w))%nat.

Lemma shrinks_bind {A B} (p : stream session A) (f : A → stream session B) :
  shrinks p → (∀ a, shrinks (f a)) → shrinks (p ≫= f).
Proof.
  intros Hp Hf w. specialize (Hp w). unfold mbind, stream_bind. destruct (p w) as [w1 [a|]]; cbn in *; [|done].
  specialize (Hf a w1). lia.
Qed.

Lemma shrinks_same {A} (p : stream session A) : (∀ w, incoming (p w).1 = incoming w) → shrinks p.
Proof. intros Hp w. by rewrite Hp. Qed.

Lemma shrinks_ret {A} (a : A) : shrinks (mret a).
Proof. by apply shrinks_same. Qed.

Lemma shrinks_refuse {A} : shrinks (refuse (A:=A)).
Proof. by apply shrinks_same. Qed.

Lemma shrinks_require b : shrinks (require_stream b).
Proof. apply shrinks_same. by destruct b. Qed.

Lemma shrinks_option {A} (x : option A) : shrinks (of_option x).
Proof. by apply shrinks_same. Qed.

Lemma shrinks_act {A} (f : session → session * option A) : shrinks (act f).
Proof. apply shrinks_same. intros w. unfold act. by destruct (f (world w)). Qed.

Lemma shrinks_write data : shrinks (write data).
Proof.
  apply shrinks_same. intros w. unfold write. destruct (room w) as [n|]; [|done]. by destruct (length data <=? n)%nat.
Qed.

Lemma shrinks_limited n : shrinks (limited n).
Proof. intros w. cbn. rewrite length_drop. lia. Qed.

Lemma shrinks_get : shrinks get.
Proof. apply shrinks_act. Qed.

Lemma shrinks_update f : shrinks (modify f).
Proof. apply shrinks_act. Qed.

Create HintDb shrinks.
#[local] Hint Resolve shrinks_ret shrinks_refuse shrinks_require shrinks_option shrinks_act shrinks_get shrinks_update shrinks_write
  shrinks_limited : shrinks.

Section Ends.
Context (hex_sha256 : list Z → string) (env : environment) (g : Gateway).

#[local] Ltac shrink :=
  repeat first [ solve [auto with shrinks] | apply shrinks_bind; [|intros ?] | progress case_match ].

Lemma shrinks_line v : shrinks (writeJSONLine v).
Proof. unfold writeJSONLine. cbv zeta. shrink. Qed.

#[local] Hint Resolve shrinks_line : shrinks.

Lemma shrinks_upload f io : shrinks (receiveUpload hex_sha256 g f io).
Proof. unfold receiveUpload. cbv zeta. shrink. Qed.

#[local] Hint Resolve shrinks_upload : shrinks.

Lemma shrinks_open first j : shrinks (handle_open g first j).
Proof. unfold handle_open. shrink. Qed.

Lemma shrinks_handle_upload first j : shrinks (handle_upload hex_sha256 env g first j).
Proof. unfold handle_upload. shrink. Qed.

Lemma shrinks_cleanup first j : shrinks (handle_cleanup env g first j).
Proof. unfold handle_cleanup. shrink. Qed.

#[local] Hint Resolve shrinks_open shrinks_handle_upload shrinks_cleanup : shrinks.

Lemma until_newline_shorter l x rest : until_newline l = Some (x, rest) → (length rest < length l)%nat.
Proof.
  revert x. induction l as [|b l IH]; intros x; cbn; [done|]. case_match; [intros [= _ <-]; lia|].
  destruct (until_newline l) as [[y r]|] eqn:E; cbn; [|done]. intros [= _ <-]. specialize (IH y eq_refl). lia.
Qed.

(** What a turn does with its frame. *)
Definition frame_turn (frame : list Z) : stream session bool :=
  _ ← require_stream (Z.of_nat (length frame) + 1 <=? MaxAttachmentHeaderBytes);
  '(j, operation) ← of_option (frame_of frame);
  s ← get;
  let first := Nat.eqb (handled s) 0 in
  more ← (if String.eqb operation "open" then handle_open g first j
          else if String.eqb operation "upload" then handle_upload hex_sha256 env g first j
          else if String.eqb operation "cleanup" then handle_cleanup env g first j
          else refuse);
  match more with
  | true =>
      _ ← modify (λ s, s <| handled := S (handled s) |>);
      _ ← require_stream (negb (ended_at env (handled s)));
      mret true
  | false => mret false
  end.

Lemma turn_frame w :
  serve_turn hex_sha256 env g w =
  if after (now_at env (handled (world w))) (LeaseExpiresAt g) then (w, None) else
  match read_line w with
  | (w', Some (Some frame)) => frame_turn frame w'
  | (w', Some None) => (w', Some false)
  | (w', None) => (w', None)
  end.
Proof.
  destruct w as [inc tn out rm gr s].
  unfold serve_turn, frame_turn, get, act, require_stream, refuse, of_option, mbind, stream_bind, mret, stream_ret. cbn.
  destruct (after _ _); cbn; [done|]. unfold read_line. cbn.
  destruct (until_newline inc) as [[l rest]|]; cbn; [|by destruct inc; [destruct tn|]].
  destruct (_ <=? _); [|done]. destruct (frame_of l) as [[j operation]|]; done.
Qed.

Lemma shrinks_frame frame : shrinks (frame_turn frame).
Proof. unfold frame_turn. cbv zeta. shrink. Qed.

(** A turn that goes on has read a line. *)
Lemma turn_shorter w w' :
  serve_turn hex_sha256 env g w = (w', Some true) → (length (incoming w') < length (incoming w))%nat.
Proof.
  rewrite turn_frame. destruct (after _ _); [done|]. unfold read_line.
  destruct (until_newline _) as [[l rest]|] eqn:Hl.
  - intros Heq. apply until_newline_shorter in Hl. pose proof (shrinks_frame l) as Hs.
    match type of Heq with frame_turn l ?x = _ => specialize (Hs x) end. rewrite Heq in Hs. cbn in Hs. lia.
  - by destruct (incoming w); [destruct (torn w)|].
Qed.

(** the gateway always answers in the end: the loop over the frames stops
    by itself, whatever the client sends and the system calls come to, as
    every turn that goes on has read a line; the fuel given to it is never
    used up, so that more of it changes nothing. *)
Theorem attachments_end w extra :
  serve_loop hex_sha256 env g (S (length (incoming w)) + extra) w =
  serve_loop hex_sha256 env g (S (length (incoming w))) w.
Proof.
  enough (∀ n m w, (length (incoming w) < n)%nat → (length (incoming w) < m)%nat →
            serve_loop hex_sha256 env g n w = serve_loop hex_sha256 env g m w) as H by (apply H; lia).
  clear w extra. induction n as [|n IH]; intros m w Hn Hm; [lia|]. destruct m as [|m]; [lia|].
  cbn. unfold mbind, stream_bind. destruct (serve_turn _ _ _ w) as [w' [[]|]] eqn:E; [|done|done].
  apply turn_shorter in E. apply IH; lia.
Qed.
End Ends.

(** ** Serving a stream *)

Section Serve.
Context (hex_sha256 : list Z → string) (env : environment) (g : Gateway).
Context (files : gmap location (list Z)) (receipts0 : gmap string CleanupReceipt).

#[local] Abbreviation Serve := (Attachments.Serve hex_sha256 env g).
#[local] Abbreviation serving_ok := (serving_ok hex_sha256 g files receipts0).

Lemma started_ok : authorized_gateway g = true → serving_ok (started files receipts0).
Proof.
  intros [? ?]%limits. constructor; cbn; try done.
  - apply NoDup_nil_2.
  - lia.
  - left. cbn. lia.
Qed.

(** Nothing happens before the offer is sent; then the lease is served and
    cleaned up. *)
Lemma serve_ends w :
  world w = started files receipts0 →
  let '(w', r) := Serve w in
  (r = None ∧ world w' = world w ∧
   ∃ k, (k < length (line (offer g)))%nat ∧ outgoing w' = outgoing w ++ take k (line (offer g))) ∨
  ∃ s0, authorized_gateway g = true ∧ serving_ok s0 ∧ world w' = (cleanup env g s0).1 ∧
    (outgoing w' `prefix_of` outgoing w ++ lines (answers g s0) ∨
     outgoing w' `prefix_of` outgoing w ++ lines (closing_answers env g s0)) ∧
    (r = Some tt → outgoing w' = outgoing w ++ lines (answers g s0) ∨
                   outgoing w' = outgoing w ++ lines (closing_answers env g s0)).
Proof.
  intros Hw. unfold Attachments.Serve, require_stream, refuse, mbind, stream_bind.
  destruct (authorized_gateway g) eqn:Hg; cbn.
  2:{ left. split_and!; [done|done|]. exists 0%nat. rewrite app_nil_r. split; [|done].
      unfold line. rewrite codes_app, length_app. cbn. lia. }
  pose proof (triple_line (λ s, s = world w) (outgoing w) (offer g) w (conj eq_refl eq_refl)) as Hl.
  destruct (writeJSONLine (offer g) w) as [w1 [[]|]] eqn:Hline; destruct Hl as [Ho Hw1].
  2:{ left. apply line_cut in Hline as [_ Hcut]. by split_and!. }
  assert (Hserved : served hex_sha256 g files receipts0 (outgoing w) w1).
  { split; rewrite Hw1, Hw; [|by apply started_ok]. rewrite Ho. f_equal. unfold lines, answers. cbn [map concat started
      opened received app]. by rewrite app_nil_r. }
  pose proof (serve_frames_ends hex_sha256 env g files receipts0 Hg (outgoing w) w1 Hserved) as He.
  destruct (serve_frames _ _ _ w1) as [w' r]. destruct He as (s0 & H1 & H2 & H3 & H4). right. by exists s0.
Qed.
(** What [attachments_accepted] says of the end of a stream. *)
Lemma untouched_accepted s :
  s = started files receipts0 → received s = [] ∧ opened s = false ∧ answers g s = [offer g].
Proof. by intros ->. Qed.

(** C16: a transfer stays inside the directory of its lease and is cleaned up,
    for every gateway, every client, every outcome of the system calls and
    wherever the output stops: files outside the lease's directory and the
    receipts of other leases never change; unless sending the offer failed, in
    which case a proper part of it was sent at most, the lease's files are gone
    at the end, if only removing them works, a receipt is stored, if only
    storing it works, and the control plane was told exactly one receipt;
    and a receipt that was told or stored says "cleaned" only when no file of
    the lease is left, with the number of uploads accepted. *)
Theorem attachments_cleaned w :
  world w = started files receipts0 →
  let '(w', r) := Serve w in
  let s := world w' in
  (∀ l, ¬ below g l → attachments s !! l = files !! l) ∧
  (∀ id, id ≠ LeaseID (Identity g) → receipts s !! id = receipts0 !! id) ∧
  (∀ k, receipts s !! LeaseID (Identity g) = Some k →
        receipts0 !! LeaseID (Identity g) = Some k ∨ honest g s k) ∧
  ((r = None ∧ s = started files receipts0 ∧
    ∃ k, (k < length (line (offer g)))%nat ∧ outgoing w' = outgoing w ++ take k (line (offer g))) ∨
   (remains (cleaning env) = None → ∀ l, below g l → attachments s !! l = None) ∧
   (stored (cleaning env) = true → ∃ k, receipts s !! LeaseID (Identity g) = Some k ∧ honest g s k) ∧
   (if CleanupHook g then ∃ k, told s = [k] ∧ honest g s k else told s = [])).
Proof.
  intros Hw. pose proof (serve_ends w Hw) as He. destruct (Serve w) as [w' r].
  destruct He as [(-> & Hsame & Ho)|(s0 & Hg & Hs & Hw' & _)]; cbn.
  - rewrite Hsame, Hw. split_and!; auto.
  - rewrite Hw'. destruct (cleanup_spec hex_sha256 env g files receipts0 s0 Hs). split_and!; auto.
    right. split_and!; [done|done|]. destruct (CleanupHook g); auto.
Qed.

(** C17: an acknowledgement is never wrong, for every client and wherever the
    stream ends: the output is a part of one line for the offer, one for the
    opening, one per accepted upload in their order and perhaps a truthful
    receipt, all of it when the gateway succeeds.  Every accepted upload was
    announced for this lease and carries exactly the announced bytes, batches
    are distinct and at most as many as allowed, and a file that the cleanup
    could not remove still has the accepted bytes.  Their sum stays within the
    limit of the lease, unless some first uploads met the limit exactly: from
    then on the limit is not enforced. *)
Theorem attachments_accepted w :
  world w = started files receipts0 →
  let '(w', r) := Serve w in
  let s := world w' in
  Forall (accepted hex_sha256 g) (received s) ∧ NoDup (batches (received s)) ∧
  (received s = [] ∨ Z.of_nat (length (received s)) ≤ MaxEntries g ∧ within g (received s)) ∧
  (∀ keep, remains (cleaning env) = Some keep →
     Forall (λ x, keep (place g x.1) = true → attachments s !! place g x.1 = Some x.2) (received s)) ∧
  ∃ sent, (sent = answers g s ∨ ∃ k, honest g s k ∧ sent = answers g s ++ [receipt_value k]) ∧
    outgoing w' `prefix_of` outgoing w ++ lines sent ∧ (r = Some tt → outgoing w' = outgoing w ++ lines sent).
Proof.
  intros Hw. pose proof (serve_ends w Hw) as He. destruct (Serve w) as [w' r].
  destruct He as [(-> & Hsame & Ho)|(s0 & Hg & Hs & Hw' & Ho & Hr)]; cbv zeta.
  - destruct (untouched_accepted (world w')) as (-> & _ & Ha); [by rewrite Hsame|]. split_and!; [done|apply NoDup_nil_2|by left|done|].
    exists (answers g (world w')). split_and!; [by left| |done]. rewrite Ha. unfold lines. cbn [map concat].
    destruct Ho as (k & _ & ->). rewrite app_nil_r. apply prefix_app, prefix_take.
  - pose proof (cleanup_spec hex_sha256 env g files receipts0 s0 Hs) as Hc. rewrite <- Hw' in Hc.
    assert (Ha : answers g (world w') = answers g s0).
    { unfold answers. by destruct (clean_same _ _ _ _ _ _ _ Hc) as [-> ->]. }
    rewrite Ha. destruct (clean_same _ _ _ _ _ _ _ Hc) as [Hrec _]. rewrite Hrec.
    split_and!; [apply Hs|apply Hs|right; split; apply Hs| |].
    + intros keep Hk. rewrite <- Hrec. by apply (clean_kept _ _ _ _ _ _ _ Hc).
    + assert (Hk : honest g (world w') (cleanup env g s0).2) by apply Hc.
      destruct r as [[]|]; [destruct (Hr eq_refl) as [Heq|Heq]|destruct Ho as [Hp|Hp]].
      * exists (answers g s0). rewrite Heq. split_and!; auto.
      * exists (closing_answers env g s0). rewrite Heq. split_and!; [right; by exists (cleanup env g s0).2|done|done].
      * exists (answers g s0). split_and!; auto. done.
      * exists (closing_answers env g s0). split_and!; [right; by exists (cleanup env g s0).2|done|done].
Qed.
End Serve.

(** ** A concrete transfer *)

Module AttachmentsDemo.

Definition uuid (n : string) : string := "00000000-0000-4000-8000-00000000000" +:+ n.

Definition identity : TransferIdentity := mkTransfer (uuid "1") (uuid "2") (uuid "3") (uuid "4") (uuid "5").

Definition gateway (limit : Z) : Gateway := mkGateway identity "/home/u" 5000000000 limit 3 "/var/receipts" true.

(** A digest of its own for every sum of bytes up to fifteen. *)
Definition sha (bytes : list Z) : string :=
  String.concat "" (replicate 63 "0" ++ [String.substring (Z.to_nat (foldr Z.add 0 bytes)) 1 "0123456789abcdef"]).

Definition sent {R} (fields : list (field R)) (r : R) : list Z := line (encode_struct fields r).

Definition lease_frame (operation : string) : list Z :=
  sent LeaseFrame.fields (LeaseFrame.mk 1 operation (uuid "2") (uuid "3") (uuid "5")).

Definition upload (batch name : string) (data : list Z) : UploadFrame :=
  UploadFrame.mk 1 "upload" (uuid "2") (uuid "3") (uuid "5") (uuid batch) "file" name (Z.of_nat (length data)) (sha data).

Definition upload_frame (batch name : string) (data : list Z) : list Z :=
  sent UploadFrame.fields (upload batch name data) ++ data.

Definition works (remaining : option (location → bool)) (hook : bool) : environment :=
  mkEnv (λ n, Z.of_nat n) (λ _, false) (λ _, mkUploadIO true true None true true)
    (mkCleanupIO remaining (uuid "9") true hook true).

Definition other_files : gmap location (list Z) :=
  {[ [uuid "2"; uuid "8"; uuid "a"; "kept"] := [1; 2]; [uuid "2"; uuid "5"; uuid "b"; "stale"] := [3] ]}.

Definition before (input : list Z) : wire session :=
  mkWire input false [] None [] (started other_files ∅).

Definition transfer : list Z :=
  lease_frame "open" ++ upload_frame "6" "a.txt" [1; 2; 3] ++ upload_frame "7" "b.txt" [4] ++ lease_frame "cleanup".

Definition run (env : environment) (limit : Z) (input : list Z) : wire session * option unit :=
  Serve sha env (gateway limit) (before input).

(** How a run ended, the receipts told, the files left. *)
Definition outcome (x : wire session * option unit) : option unit * list CleanupReceipt * list (location * list Z) :=
  (x.2, told (world x.1), map_to_list (attachments (world x.1))).

(** The receipt says two batches, and only the other lease's file is left. *)
Example transfer_runs :
  outcome (run (works None true) 1000 transfer) =
  (Some tt, [mkReceipt identity Cleaned 2 (uuid "9")], [([uuid "2"; uuid "8"; uuid "a"; "kept"], [1; 2])]).
Proof. vm_compute. reflexivity. Qed.

Example transfer_answers :
  outgoing (run (works None true) 1000 transfer).1 =
  lines [offer (gateway 1000); open_ack; upload_ack (gateway 1000) (upload "6" "a.txt" [1; 2; 3]);
                      upload_ack (gateway 1000) (upload "7" "b.txt" [4]);
                      receipt_value (mkReceipt identity Cleaned 2 (uuid "9"))].
Proof. vm_compute. reflexivity. Qed.

(** The connection breaks inside an upload: the lease is cleaned up. *)
Example torn_transfer :
  outcome (run (works None true) 1000 (take 700 transfer)) =
  (None, [mkReceipt identity Cleaned 1 (uuid "9")], [([uuid "2"; uuid "8"; uuid "a"; "kept"], [1; 2])]).
Proof. vm_compute. reflexivity. Qed.

(** Two uploads, of three and of seven bytes, against a limit. *)
Definition quota_run (limit : Z) : option unit * list (list Z) * Z :=
  let x := run (works None true) limit
    (lease_frame "open" ++ upload_frame "6" "a.txt" [1; 2; 3] ++ upload_frame "7" "b.txt" [0; 0; 0; 0; 0; 0; 1]) in
  (x.2, map snd (received (world x.1)), bytesTotal (world x.1)).

(** The limit of the lease is not enforced once it is met exactly: three
    bytes are allowed, and ten are accepted. *)
Lemma quota_not_enforced :
  quota_run 3 = (Some tt, [[1; 2; 3]; [0; 0; 0; 0; 0; 0; 1]], 10).
Proof. vm_compute. reflexivity. Qed.

(** With one byte of the limit left the same upload is refused. *)
Example quota_enforced :
  quota_run 4 = (None, [[1; 2; 3]], 3).
Proof. vm_compute. reflexivity. Qed.

(** A file of another lease survives a transfer, and the control plane hears
    of it once. *)
Lemma attachments_cleaned_witness :
  let s := world (run (works None true) 1000 transfer).1 in
  attachments s !! [uuid "2"; uuid "8"; uuid "a"; "kept"] = Some [1; 2] ∧
  ((run (works None true) 1000 transfer).2 = None ∨ ∃ k, told s = [k] ∧ honest (gateway 1000) s k).
Proof.
  pose proof (attachments_cleaned sha (works None true) (gateway 1000) other_files ∅ (before transfer) eq_refl) as H.
  unfold run. destruct (Serve _ _ _ _) as [w' r]. cbn [fst snd]. destruct H as (Hout & _ & _ & Hend). split.
  - rewrite Hout; [vm_compute; reflexivity|]. unfold below. apply (bool_decide_eq_false_1 _). vm_compute. reflexivity.
  - destruct Hend as [(-> & _)|(_ & _ & Hk)]; [by left|right; exact Hk].
Defined.

(** A cleanup that fails keeps the accepted bytes of the files it keeps. *)
Lemma attachments_accepted_witness :
  let s := world (run (works (Some (λ _, true)) true) 1000 transfer).1 in
  Forall (accepted sha (gateway 1000)) (received s) ∧
  Forall (λ x, attachments s !! place (gateway 1000) x.1 = Some x.2) (received s).
Proof.
  pose proof (attachments_accepted sha (works (Some (λ _, true)) true) (gateway 1000) other_files ∅ (before transfer)
    eq_refl) as H.
  unfold run. destruct (Serve _ _ _ _) as [w' r]. cbn [fst snd]. destruct H as (Hacc & _ & _ & Hkept & _). split; [exact Hacc|].
  eapply list.Forall_impl; [exact (Hkept _ eq_refl)|]. cbn. auto.
Defined.

End AttachmentsDemo.
