(* ===== verification/AttachmentsRoundTrip.v ===== *)
(** * Attachment transfers: a client that keeps to the rules is served

    What a client prints for its frames is read back, a leaf name stays a leaf
    below the directory of its batch, and with that a whole transfer by the
    rules is computed: the opening, every upload, the cleanup. *)

From S2P Require Import Prelude GoText GoTime GoJson GoUtf8 GoJsonText GoJsonValue GoJsonDecode GoJsonStruct GoJsonPrint.
From S2P Require Import Ledger DevicePayload DeviceCodec ExportStream ExportStreamFacts ExportRoundTrip SshKeysFacts.
From S2P Require Import Attachments AttachmentsFacts.
From Stdlib.Strings Require Import Ascii.

#[local] Arguments place : simpl never.

(** ** A leaf name below a directory *)

Lemma split_on_single sep s : all_chars (λ c, negb (Ascii.eqb c sep)) s = true → split_on sep s = [s].
Proof.
  induction s as [|c s IH]; cbn; [done|]. intros [Hc%negb_true_iff Hs]%andb_true_iff. by rewrite Hc, IH.
Qed.

Lemma split_on_snoc sep a b :
  all_chars (λ c, negb (Ascii.eqb c sep)) b = true → split_on sep (a +:+ String sep b) = split_on sep a ++ [b].
Proof.
  intros Hb. induction a as [|c a IH].
  - change ("" +:+ ?x) with x. cbn. by rewrite Ascii.eqb_refl, split_on_single.
  - change (String c a +:+ ?x) with (String c (a +:+ x)). cbn [split_on]. rewrite IH. destruct (Ascii.eqb c sep); [done|].
    destruct (split_on sep a) as [|w ws] eqn:E; [by destruct (split_on_nonempty sep a)|done].
Qed.

Lemma split_on_join sep l :
  l ≠ [] → Forall (λ s, all_chars (λ c, negb (Ascii.eqb c sep)) s = true) l →
  split_on sep (join (String sep "") l) = l.
Proof.
  intros Hl Hall. induction Hall as [|x l Hx Hall IH]; [done|]. destruct l as [|y l]; [by apply split_on_single|].
  rewrite join_cons2. specialize (IH ltac:(done)). revert IH. generalize (join (String sep "") (y :: l)) as t. intros t Ht.
  change (String sep "" +:+ t) with (String sep t). clear Hall. induction x as [|c x IHx].
  - change ("" +:+ ?z) with z. cbn. by rewrite Ascii.eqb_refl, Ht.
  - cbn in Hx. apply andb_true_iff in Hx as [Hc%negb_true_iff Hx].
    change (String c x +:+ ?z) with (String c (x +:+ z)). cbn [split_on]. by rewrite Hc, (IHx ltac:(done) Hx).
Qed.

Definition plain_part (s : string) : Prop :=
  all_chars (λ c, negb (Ascii.eqb c "/")) s = true ∧ s ≠ "" ∧ s ≠ "." ∧ s ≠ "..".

Lemma clean_stack rooted parts stack :
  Forall (λ s, all_chars (λ c, negb (Ascii.eqb c "/")) s = true) parts →
  Forall (λ s, all_chars (λ c, negb (Ascii.eqb c "/")) s = true) stack →
  Forall (λ s, all_chars (λ c, negb (Ascii.eqb c "/")) s = true) (foldl (clean_step rooted) stack parts).
Proof.
  intros Hp. revert stack. induction Hp as [|x l Hx _ IH]; intros stack Hs; cbn; [done|]. apply IH.
  unfold clean_step. destruct (_ || _); [done|]. destruct (String.eqb x ".."); [|by constructor].
  destruct Hs as [|top rest Ht Hr]; [destruct rooted; by repeat constructor|].
  destruct (String.eqb top ".."); by repeat constructor.
Qed.

(** The base of a leaf joined to a directory is the leaf. *)
Lemma Base_Join2 root name : root ≠ "" → plain_part name → Base (Join2 root name) = name.
Proof.
  intros Hr (Hn & H0 & H1 & H2). unfold Join2.
  destruct (String.eqb_spec root ""); [done|]. destruct (String.eqb_spec name ""); [done|]. clear n n0.
  unfold Clean. set (rooted := IsAbs _). unfold clean_parts. rewrite split_on_snoc, foldl_app by done.
  cbn [foldl]. set (stack := foldl (clean_step rooted) [] _).
  assert (clean_step rooted stack name = name :: stack) as ->.
  { unfold clean_step. by rewrite !(proj2 (String.eqb_neq name _)). }
  cbn [rev].
  assert (Hst : Forall (λ s, all_chars (λ c, negb (Ascii.eqb c "/")) s = true) (rev stack ++ [name])).
  { apply Forall_app. split; [|by constructor]. apply List.Forall_rev. apply clean_stack; [|constructor].
    apply list.Forall_forall. intros s Hs. by apply split_part in Hs as [? _]. }
  assert (Hne : rev stack ++ [name] ≠ []) by by destruct (rev stack).
  pose proof (split_on_join "/" _ Hne Hst) as Hsplit.
  set (text := join "/" (rev stack ++ [name])) in *. change (join (String "/" "") ?l) with (join "/" l) in Hsplit.
  fold text in Hsplit.
  assert (Hlast : ∀ t l, split_on "/" t = l ++ [name] → t ≠ "" → Base t = name).
  { intros t l Ht Hne'. unfold Base. destruct (String.eqb_spec t ""); [done|]. rewrite Ht, rev_app_distr. cbn.
    unfold non_empty. destruct (String.eqb_spec name ""); done. }
  assert (Htext : text ≠ "").
  { intros Heq. rewrite Heq in Hsplit. cbn in Hsplit. destruct (rev stack) as [|a l]; [|destruct l; done]. injection Hsplit. congruence. }
  destruct rooted; cbv zeta.
  - apply (Hlast _ ("" :: rev stack)); [|done]. cbn [split_on app]. by rewrite Ascii.eqb_refl, Hsplit.
  - destruct (String.eqb_spec text ""); [done|]. by apply (Hlast _ (rev stack)).
Qed.

Lemma leaf_plain name : validLeafName name = true → plain_part name ∧ valid_utf8 (codes name) = true.
Proof.
  unfold validLeafName. rewrite !andb_true_iff. intros [[[[[H1 _] H2] H3] H4] H5]. split.
  - unfold plain_part, non_empty in *. repeat (rewrite negb_true_iff in * || rewrite String.eqb_neq in * ).
    split_and!; [|done|done|done]. unfold contains_any in H4. rewrite negb_false_iff in H4.
    eapply all_chars_impl; [|exact H4]. intros c. cbn. intros Hc. apply negb_true_iff in Hc.
    apply orb_false_iff in Hc as [Hc _]. by rewrite Hc.
  - unfold valid_utf8. eapply all_runes_impl; [|exact H5]. done.
Qed.

(** ** Lines *)

Definition no_byte (s : string) : Prop := 10 ∉ codes s.

Lemma no_byte_app a b : no_byte a → no_byte b → no_byte (a +:+ b).
Proof. unfold no_byte. rewrite codes_app, elem_of_app. tauto. Qed.

Lemma escape_char_line c : no_byte (escape_char c).
Proof.
  unfold no_byte. apply (bool_decide_eq_false_1 _).
  by destruct c as [[] [] [] [] [] [] [] []]; vm_compute.
Qed.

Lemma escape_text_line s skip :
  (∀ i, (i < skip)%nat → codes s !! i ≠ Some 10) → no_byte (escape_text skip s).
Proof.
  remember (String.length s) as n eqn:Hn. revert s skip Hn.
  induction n as [n IH] using lt_wf_ind. intros [|c s] skip -> Hskip; [apply not_elem_of_nil|].
  assert (Hrest : no_byte (escape_text 0 s)) by (apply (IH (String.length s)); [cbn; lia|done|lia]).
  destruct skip as [|skip]; cbn [escape_text].
  2:{ apply (no_byte_app (String c "")).
      - specialize (Hskip 0%nat ltac:(lia)). cbn in Hskip. unfold no_byte. cbn.
        rewrite list_elem_of_singleton. congruence.
      - apply (IH (String.length s)); [cbn; lia|done|]. intros i Hi. apply (Hskip (S i)). lia. }
  rewrite utf8_size_head. destruct (utf8_size (codes (String c s))) as [|[|more]] eqn:Es.
  - apply (no_byte_app "\ufffd"); [|done]. by apply (bool_decide_eq_false_1 _).
  - apply no_byte_app; [apply escape_char_line|done].
  - assert (Hplain : no_byte (String c (escape_text (S more) s))).
    { apply (no_byte_app (String c "")).
      - unfold no_byte. cbn. rewrite list_elem_of_singleton. intros Hc. cbn [codes utf8_size] in Es.
        rewrite <- Hc in Es. done.
      - apply (IH (String.length s)); [cbn; lia|done|]. intros i Hi Hx.
        cbn [codes utf8_size] in Es. unfold in_Z, is_cont in *.
        repeat case_match; simplify_eq; try lia;
          destruct i as [|[|[|i]]]; cbn in Hx; simplify_eq; reflect_bools; unfold in_Z in *;
          repeat case_match; reflect_bools; try lia. }
    destruct s as [|b [|d s]]; [exact Hplain|exact Hplain|].
    destruct (is_line_separator c b d); [|exact Hplain]. apply no_byte_app.
    + destruct (code d =? 168); by apply (bool_decide_eq_false_1 _).
    + apply (IH (String.length s)); [cbn; lia|done|lia].
Qed.

Lemma number_line l : number_text l → no_byte l.
Proof.
  intros Hl%number_chars. unfold no_byte. induction l as [|c l IH]; [apply not_elem_of_nil|].
  cbn in Hl |- *. apply andb_true_iff in Hl as [Hc Hl]. apply not_elem_of_cons. split; [|by apply IH].
  intros Heq. rewrite <- (chr_code c), <- Heq in Hc. vm_compute in Hc. done.
Qed.

(** A printed value is one line. *)
Lemma print_one_line v : faithful v → no_byte (print_value compact 0 v).
Proof.
  apply print_value_pieces; try (intros; by apply (bool_decide_eq_false_1 _)).
  - apply no_byte_app.
  - intros s Hs. apply (bool_decide_eq_false_1 _). repeat (apply elem_of_cons in Hs as [->|Hs]; [done|]). by apply not_elem_of_nil in Hs.
  - apply number_line.
  - intros s _. apply (no_byte_app (String quote_char "")); [by apply (bool_decide_eq_false_1 _)|].
    apply no_byte_app; [|by apply (bool_decide_eq_false_1 _)]. apply escape_text_line. lia.
Qed.

Lemma until_newline_line l rest : 10 ∉ l → until_newline (l ++ 10 :: rest) = Some (l, rest).
Proof.
  induction l as [|b l IH]; intros Hl; [done|]. apply not_elem_of_cons in Hl as [Hb Hl]. cbn.
  destruct (Z.eqb_spec b 10); [lia|]. by rewrite IH.
Qed.

(** ** Frames are read back *)

Lemma frame_read {R} (fields : list (field R)) zero r operation :
  carried (encode_struct fields r) (λ _ _, decode_known fields zero) r →
  (height (encode_struct fields r) ≤ 1)%nat →
  ("operation", VStr operation) ∈ flat_map (encode_field r) fields →
  ∃ j, frame_of (codes (print_value compact 0 (encode_struct fields r))) = Some (j, operation) ∧
       decode_frame fields zero j = Some r.
Proof.
  intros (Hf & Hd & Hdec) Hh Hop. exists (tree compact 0 (encode_struct fields r)). split.
  - unfold frame_of. rewrite text_of_codes, parse_printed; [|apply compact_white|done|unfold max_depth; lia].
    cbn [mbind option_bind]. rewrite distinct_tree by done. cbn [negb]. apply distinct_obj in Hd as [Hn _].
    unfold encode_struct. rewrite (raw_member_tree compact 0 _ "operation" (VStr operation)) by done. done.
  - apply (Hdec _ zero compact 0%nat); [apply compact_white|constructor].
Qed.

Lemma lease_carried f :
  valid_utf8 (codes (LeaseFrame.Operation f)) = true → valid_utf8 (codes (LeaseFrame.SessionID f)) = true →
  valid_utf8 (codes (LeaseFrame.ExpectedDeviceID f)) = true → valid_utf8 (codes (LeaseFrame.LeaseID f)) = true →
  LeaseFrame.Version f = 1 →
  carried (encode_struct LeaseFrame.fields f) (λ _ _, decode_known LeaseFrame.fields LeaseFrame.zero) f.
Proof.
  intros H1 H2 H3 H4 H5. apply known_carried, struct_carried; [solve_disjoint| |by destruct f].
  repeat (apply Forall_cons_2; [first [by apply carries_str|apply carries_int; [done|rewrite H5; unfold max_int64; lia]]|]).
  constructor.
Qed.

Lemma upload_carried f :
  Forall (λ s, valid_utf8 (codes s) = true)
    [UploadFrame.Operation f; UploadFrame.SessionID f; UploadFrame.ExpectedDeviceID f; UploadFrame.LeaseID f;
     UploadFrame.BatchID f; UploadFrame.Kind f; UploadFrame.Name f; UploadFrame.SHA256 f] →
  UploadFrame.Version f = 1 → 0 ≤ UploadFrame.Size f ≤ max_int64 →
  carried (encode_struct UploadFrame.fields f) (λ _ _, decode_known UploadFrame.fields UploadFrame.zero) f.
Proof.
  intros Hs Hv Hz. decompose_Forall_hyps. apply known_carried, struct_carried; [solve_disjoint| |by destruct f].
  repeat (apply Forall_cons_2; [first [by apply carries_str|apply carries_int; [done|try rewrite Hv; unfold max_int64 in *; lia]]|]).
  constructor.
Qed.

(** ** A client that keeps to the protocol *)

Definition fits (v : value) : bool := len (print_value compact 0 v) <? MaxAttachmentHeaderBytes.

Lemma line_codes v : line v = codes (print_value compact 0 v) ++ [10].
Proof. unfold line. by rewrite codes_app. Qed.

Lemma write_fits v w :
  fits v = true → room w = None →
  writeJSONLine v w = (mkWire (incoming w) (torn w) (outgoing w ++ line v) None (granted w) (world w), Some tt).
Proof.
  unfold fits. intros Hf Hr. unfold writeJSONLine, require_stream, mbind, stream_bind, mret, stream_ret.
  destruct (_ <=? _) eqn:E; [|lia]. unfold write. by rewrite Hr.
Qed.

Section Complete.
Context (hex_sha256 : list Z → string) (env : environment) (g : Gateway).
Context (files : gmap location (list Z)) (receipts0 : gmap string CleanupReceipt).

Definition lease_request (operation : string) : LeaseFrame :=
  LeaseFrame.mk 1 operation (SessionID (Identity g)) (ExpectedDeviceID (Identity g)) (LeaseID (Identity g)).

Definition lease_value (operation : string) : value := encode_struct LeaseFrame.fields (lease_request operation).

Definition upload_value (x : UploadFrame * list Z) : value := encode_struct UploadFrame.fields x.1.

(** What the client sends: the opening, each upload with its bytes, and the
    request for the cleanup. *)
Definition client_input (us : list (UploadFrame * list Z)) : list Z :=
  line (lease_value "open") ++ concat (map (λ x, line (upload_value x) ++ x.2) us) ++ line (lease_value "cleanup").

Record honest_upload (x : UploadFrame * list Z) : Prop := {
  up_valid : UploadFrame.Validate x.1 (Identity g) (MaxBytes g) (MaxEntries g) = true;
  up_size : Z.of_nat (length x.2) = UploadFrame.Size x.1;
  up_digest : hex_sha256 x.2 = UploadFrame.SHA256 x.1;
  up_free : files !! place g x.1 = None;
  up_fits : fits (upload_value x) = true;
  up_answer : fits (upload_ack g x.1) = true
}.

(** Nothing goes wrong on the host, and the lease is long enough. *)
Record smooth : Prop := {
  in_time : ∀ n, after (now_at env n) (LeaseExpiresAt g) = false;
  not_ended : ∀ n, ended_at env n = false;
  uploads_work : ∀ n, let io := upload_at env n in
    tree_ok io = true ∧ create_ok io = true ∧ disk io = None ∧ close_ok io = true;
  removal_works : remains (cleaning env) = None;
  receipt_stored : stored (cleaning env) = true;
  hook_works : hook_ok (cleaning env) = true
}.

Hypothesis gateway_ok : authorized_gateway g = true.

#[local] Abbreviation serving_ok := (serving_ok hex_sha256 g files receipts0).

Lemma canonical_uuid_utf8 s : canonicalUUID s = true → valid_utf8 (codes s) = true.
Proof.
  unfold canonicalUUID. intros [Hs _]%andb_true_iff. apply ascii_utf8. eapply classes_ascii; [|exact Hs].
  assert (Hd : ∀ c, is_dash c = true → is_ascii c = true) by (intros c; by destruct c as [[] [] [] [] [] [] [] []]).
  repeat (apply Forall_app; split); try (apply list.Forall_forall; intros p Hp%elem_of_replicate_inv; subst p; exact hex_ascii);
    try (constructor; [exact Hd|constructor]).
Qed.

Lemma identity_ok : valid_identity (Identity g) = true.
Proof. unfold authorized_gateway in gateway_ok. rewrite !andb_true_iff in gateway_ok. tauto. Qed.

Lemma account_ok : AccountPath g ≠ "".
Proof.
  unfold authorized_gateway, non_empty in gateway_ok. rewrite !andb_true_iff, !negb_true_iff, !String.eqb_neq in gateway_ok. tauto.
Qed.

Lemma identity_utf8 :
  valid_utf8 (codes (SessionID (Identity g))) = true ∧ valid_utf8 (codes (ExpectedDeviceID (Identity g))) = true ∧
  valid_utf8 (codes (LeaseID (Identity g))) = true.
Proof.
  pose proof identity_ok as H. unfold valid_identity in H. cbn [forallb] in H. rewrite !andb_true_iff in H.
  split_and!; apply canonical_uuid_utf8; tauto.
Qed.

Lemma lease_read operation :
  valid_utf8 (codes operation) = true →
  faithful (lease_value operation) ∧
  ∃ j, frame_of (codes (print_value compact 0 (lease_value operation))) = Some (j, operation) ∧
       decode_frame LeaseFrame.fields LeaseFrame.zero j = Some (lease_request operation).
Proof.
  intros Hop. destruct identity_utf8 as (H1 & H2 & H3).
  pose proof (lease_carried (lease_request operation) Hop H1 H2 H3 eq_refl) as Hc. split; [apply Hc|].
  apply frame_read; [exact Hc| |set_solver]. apply struct_height. solve_heights.
Qed.

Lemma lease_valid operation : LeaseFrame.Validate operation (lease_request operation) (Identity g) = true.
Proof. unfold LeaseFrame.Validate. rewrite identity_ok. cbn. by rewrite !String.eqb_refl. Qed.

Lemma upload_read x :
  honest_upload x →
  faithful (upload_value x) ∧
  ∃ j, frame_of (codes (print_value compact 0 (upload_value x))) = Some (j, "upload") ∧
       decode_frame UploadFrame.fields UploadFrame.zero j = Some x.1.
Proof.
  intros [Hv _ _ _ _ _]. destruct identity_utf8 as (H1 & H2 & H3).
  unfold UploadFrame.Validate in Hv. rewrite !andb_true_iff, !String.eqb_eq in Hv.
  destruct Hv as [[[[[[[[[[[[[[Hver Hop] _] Hs] Hd] Hl] Hb] Hk] Hn] Hz] Hz'] _] _] _] Hsha].
  apply canonical_uuid_utf8 in Hb. apply leaf_plain in Hn as [_ Hn].
  assert (Hkind : valid_utf8 (codes (UploadFrame.Kind x.1)) = true).
  { apply orb_true_iff in Hk as [->%String.eqb_eq| ->%String.eqb_eq]; done. }
  assert (Hdigest : valid_utf8 (codes (UploadFrame.SHA256 x.1)) = true).
  { apply ascii_utf8. eapply classes_ascii; [|exact Hsha]. apply list.Forall_forall.
    intros p Hp%elem_of_replicate_inv. subst p. exact hex_ascii. }
  assert (Hc : carried (encode_struct UploadFrame.fields x.1) (λ _ _, decode_known UploadFrame.fields UploadFrame.zero) x.1).
  { apply upload_carried.
    - rewrite Hop, Hs, Hd, Hl. by repeat constructor.
    - unfold AttachmentProtocolVersion in Hver. lia.
    - unfold max_int64, MaxAttachmentBatchBytes in *. lia. }
  split; [apply Hc|]. apply frame_read; [exact Hc|apply struct_height; solve_heights|].
  cbn. rewrite Hop. set_solver.
Qed.

(** The remaining limits of a lease do not matter as long as they suffice. *)
Lemma validate_left f left entries :
  UploadFrame.Validate f (Identity g) (MaxBytes g) (MaxEntries g) = true →
  UploadFrame.Size f ≤ left → 0 < entries ≤ MaxEntries g →
  UploadFrame.Validate f (Identity g) left entries = true.
Proof.
  intros Hv Hl He. pose proof (limits g gateway_ok) as [_ Hm]. unfold UploadFrame.Validate in *.
  rewrite !andb_true_iff in *. unfold MaxAttachmentEntries in *.
  destruct Hv as [[[[? ?] ?] ?] ?]. split_and!; try tauto; try lia.
Qed.

Hypothesis smooth_run : smooth.

Lemma fits_length v : fits v = true → Z.of_nat (length (codes (print_value compact 0 v))) + 1 ≤ MaxAttachmentHeaderBytes.
Proof. unfold fits, len. rewrite codes_length. lia. Qed.

(** The handler of an operation. *)
Definition handler (operation : string) (first : bool) (j : json) : stream session bool :=
  if String.eqb operation "open" then handle_open g first j
  else if String.eqb operation "upload" then handle_upload hex_sha256 env g first j
  else if String.eqb operation "cleanup" then handle_cleanup env g first j
  else refuse.

(** A turn that finds a frame on the wire. *)
Lemma turn_reads v operation j rest tn out gr s :
  faithful v → fits v = true → frame_of (codes (print_value compact 0 v)) = Some (j, operation) →
  serve_turn hex_sha256 env g (mkWire (line v ++ rest) tn out None gr s) =
  match handler operation (Nat.eqb (handled s) 0) j (mkWire rest tn out None gr s) with
  | (w, Some true) => (mkWire (incoming w) (torn w) (outgoing w) (room w) (granted w)
                         ((world w) <| handled := S (handled (world w)) |>), Some true)
  | (w, r) => (w, r)
  end.
Proof.
  intros Hf Hlen%fits_length Hj. rewrite turn_frame, (in_time smooth_run). unfold read_line. cbn [incoming].
  rewrite line_codes, <- (assoc_L (++)). cbn [app]. rewrite until_newline_line by by apply print_one_line.
  revert Hlen Hj. generalize (codes (print_value compact 0 v)) as text. intros text Hlen Hj. cbn [torn outgoing room granted world].
  unfold frame_turn, require_stream, of_option, get, modify, act, mbind, stream_bind, mret, stream_ret.
  rewrite (proj2 (Z.leb_le _ _) Hlen), Hj. cbn [world incoming torn outgoing room granted]. fold (handler operation (Nat.eqb (handled s) 0) j).
  destruct (handler _ _ _ _) as [w [[]|]]; [|done|done]. cbn. by rewrite (not_ended smooth_run).
Qed.

#[local] Arguments writeJSONLine : simpl never.
#[local] Arguments receiveUpload : simpl never.
#[local] Arguments cleanup : simpl never.
#[local] Arguments LeaseFrame.Validate : simpl never.
#[local] Arguments UploadFrame.Validate : simpl never.
#[local] Arguments decode_frame : simpl never.
#[local] Arguments frame_of : simpl never.

#[local] Ltac run := unfold require_stream, of_option, refuse, get, modify, act, mbind, stream_bind, mret, stream_ret; cbn.

Lemma open_turn rest tn out gr s :
  fits (lease_value "open") = true → fits open_ack = true → handled s = 0%nat → opened s = false →
  serve_turn hex_sha256 env g (mkWire (line (lease_value "open") ++ rest) tn out None gr s) =
  (mkWire rest tn (out ++ line open_ack) None gr (s <| opened := true |> <| handled := 1%nat |>), Some true).
Proof.
  intros Hfit Hack Hh Ho. destruct (lease_read "open" eq_refl) as (Hf & j & Hj & Hd).
  rewrite (turn_reads _ "open" j) by done. change (handler "open") with (handle_open g). unfold handle_open. run.
  rewrite Hh, Ho. cbn. rewrite Hd, lease_valid. cbn. rewrite write_fits by done. cbn. by rewrite Hh.
Qed.

Lemma Clean_nonempty path : Clean path ≠ "".
Proof. unfold Clean. destruct (IsAbs path); [done|]. by destruct (String.eqb_spec (join "/" (clean_parts false (split_on "/" path))) ""). Qed.

Lemma upload_bytes x io rest tn out gr s :
  honest_upload x → tree_ok io = true → create_ok io = true → disk io = None → close_ok io = true →
  attachments s !! place g x.1 = None →
  receiveUpload hex_sha256 g x.1 io (mkWire (x.2 ++ rest) tn out None gr s) =
  (mkWire rest tn out None gr (s <| attachments := <[place g x.1 := x.2]> (attachments s) |>), Some x.2).
Proof.
  intros [Hv Hsize Hsha _ _ _] H1 H2 H3 H4 Hn. unfold receiveUpload. run. rewrite H1.
  assert (Hleaf : validLeafName (UploadFrame.Name x.1) = true).
  { unfold UploadFrame.Validate in Hv. rewrite !andb_true_iff in Hv. tauto. }
  unfold upload_path. rewrite Base_Join2, String.eqb_refl by (apply Clean_nonempty || by apply leaf_plain).
  cbn. rewrite H2, Hn. cbn. rewrite H3, H4.
  assert (Hl : Z.to_nat (UploadFrame.Size x.1) = length x.2) by lia.
  rewrite Hl, take_app_length, drop_app_length, Hsha, String.eqb_refl, (proj2 (Nat.leb_le _ _)) by done. done.
Qed.
(** The session after an upload. *)
Definition uploaded (s : session) (x : UploadFrame * list Z) : session :=
  s <| attachments := <[place g x.1 := x.2]> (attachments s) |>
    <| seen := {[UploadFrame.BatchID x.1]} ∪ seen s |>
    <| bytesTotal := wrap_int64 (bytesTotal s + UploadFrame.Size x.1) |>
    <| received := received s ++ [(x.1, x.2)] |> <| handled := S (handled s) |>.

(** There is room for an upload. *)
Record welcome (s : session) (x : UploadFrame * list Z) : Prop := {
  wel_free : attachments s !! place g x.1 = None;
  wel_new : UploadFrame.BatchID x.1 ∉ seen s;
  wel_bytes : total (received s) + UploadFrame.Size x.1 ≤ MaxBytes g;
  wel_entries : Z.of_nat (length (received s)) < MaxEntries g
}.

Lemma welcome_valid s x :
  serving_ok s → honest_upload x → welcome s x →
  UploadFrame.Validate x.1 (Identity g) (MaxBytes g - bytesTotal s) (MaxEntries g - Z.of_nat (size (seen s))) = true.
Proof.
  intros Hs Hx [_ _ Hb He]. apply validate_left; [apply Hx| |].
  - rewrite (ok_total _ _ _ _ _ Hs). lia.
  - rewrite (seen_size _ _ _ _ _ Hs). lia.
Qed.

Lemma upload_turn x rest tn out gr s :
  serving_ok s → opened s = true → handled s ≠ 0%nat → honest_upload x → welcome s x →
  serve_turn hex_sha256 env g (mkWire (line (upload_value x) ++ x.2 ++ rest) tn out None gr s) =
  (mkWire rest tn (out ++ line (upload_ack g x.1)) None gr (uploaded s x), Some true).
Proof.
  intros Hs Ho Hh Hx Hw. destruct (upload_read x Hx) as (Hf & j & Hj & Hd).
  rewrite (turn_reads _ "upload" j) by (done || apply Hx). apply Nat.eqb_neq in Hh. rewrite Hh.
  change (handler "upload") with (handle_upload hex_sha256 env g). unfold handle_upload. run.
  rewrite Ho. cbn. rewrite Hd, (welcome_valid _ _ Hs Hx Hw), (bool_decide_eq_false_2 _ (wel_new _ _ Hw)). cbn.
  rewrite (proj2 (Z.ltb_lt _ _)) by (rewrite (seen_size _ _ _ _ _ Hs); apply Hw).
  destruct (uploads_work smooth_run (handled s)) as (H1 & H2 & H3 & H4).
  rewrite (upload_bytes x) by (done || apply Hw). cbn. by rewrite write_fits by (done || apply Hx).
Qed.

Lemma uploaded_ok s x :
  serving_ok s → opened s = true → honest_upload x → welcome s x → serving_ok (uploaded s x).
Proof.
  intros Hs Ho Hx Hw. assert (Hroom : Z.of_nat (size (seen s)) < MaxEntries g) by (rewrite (seen_size _ _ _ _ _ Hs); apply Hw).
  pose proof (upload_kept hex_sha256 g files receipts0 gateway_ok s x.1 x.2 Hs Ho (wel_free _ _ Hw) (welcome_valid _ _ Hs Hx Hw)
    (wel_new _ _ Hw) Hroom (up_size _ Hx) (up_digest _ Hx)) as Hk.
  destruct Hk. by constructor.
Qed.

(** The rest of the uploads is welcome too. *)
Definition all_welcome (s : session) (us : list (UploadFrame * list Z)) : Prop :=
  NoDup (batches us) ∧ (∀ x, x ∈ us → UploadFrame.BatchID x.1 ∉ seen s ∧ attachments s !! place g x.1 = None) ∧
  total (received s) + total us ≤ MaxBytes g ∧ Z.of_nat (length (received s) + length us) ≤ MaxEntries g.

Lemma all_welcome_first s x us : Forall honest_upload us → all_welcome s (x :: us) → welcome s x.
Proof.
  intros Hh (_ & Hx & Hb & He). destruct (Hx x (list_elem_of_here _ _)) as [Hn Hf].
  assert (0 ≤ total us).
  { unfold total. clear -Hh. induction Hh as [|y l Hy _ IH]; cbn; [lia|]. pose proof (up_size _ Hy). lia. }
  constructor; [done|done| |].
  - change (total (x :: us)) with (UploadFrame.Size x.1 + total us) in Hb. lia.
  - cbn in He. lia.
Qed.

Lemma all_welcome_next s x us : all_welcome s (x :: us) → all_welcome (uploaded s x) us.
Proof.
  intros (Hn & Hx & Hb & He). apply list.NoDup_cons in Hn as [Hnew Hn]. split_and!; [done| | |].
  - intros y Hy. destruct (Hx y (list_elem_of_further _ _ _ Hy)) as [Hs Hf].
    assert (Hne : UploadFrame.BatchID y.1 ≠ UploadFrame.BatchID x.1).
    { intros Heq. apply Hnew. unfold batches in *. rewrite <- Heq.
      by apply (list_elem_of_fmap_2 (λ z : UploadFrame * list Z, UploadFrame.BatchID z.1) us y). }
    split; [cbn; set_solver|]. change (attachments (uploaded s x)) with (<[place g x.1 := x.2]> (attachments s)).
    rewrite lookup_insert_ne; [exact Hf|]. unfold place, lease_root. cbn. congruence.
  - change (received (uploaded s x)) with (received s ++ [(x.1, x.2)]). rewrite total_app.
    change (total [(x.1, x.2)]) with (UploadFrame.Size x.1 + 0).
    change (total (x :: us)) with (UploadFrame.Size x.1 + total us) in Hb. lia.
  - unfold uploaded. cbn. rewrite length_app. cbn in *. lia.
Qed.
Lemma loop_fuel n m w :
  (length (incoming w) < n)%nat → (length (incoming w) < m)%nat →
  serve_loop hex_sha256 env g n w = serve_loop hex_sha256 env g m w.
Proof.
  revert m w. induction n as [|n IH]; intros m w Hn Hm; [lia|]. destruct m as [|m]; [lia|].
  cbn. unfold mbind, stream_bind. destruct (serve_turn _ _ _ w) as [w' [[]|]] eqn:E; [|done|done].
  apply turn_shorter in E. apply IH; lia.
Qed.

Definition full_loop (w : wire session) : wire session * option unit :=
  serve_loop hex_sha256 env g (S (length (incoming w))) w.

Lemma full_loop_next w w' : serve_turn hex_sha256 env g w = (w', Some true) → full_loop w = full_loop w'.
Proof.
  intros Ht. pose proof (turn_shorter hex_sha256 env g w w' Ht). transitivity (serve_loop hex_sha256 env g (length (incoming w)) w'); [|apply loop_fuel; lia].
  unfold full_loop. cbn [serve_loop]. unfold mbind, stream_bind. by rewrite Ht.
Qed.

Lemma full_loop_last w w' : serve_turn hex_sha256 env g w = (w', Some false) → full_loop w = (w', Some tt).
Proof. intros Ht. unfold full_loop. cbn. unfold mbind, stream_bind. by rewrite Ht. Qed.

Lemma uploads_loop us rest tn out gr s :
  serving_ok s → opened s = true → handled s ≠ 0%nat → Forall honest_upload us → all_welcome s us →
  ∃ s', serving_ok s' ∧ opened s' = true ∧ handled s' ≠ 0%nat ∧ received s' = received s ++ us ∧
    full_loop (mkWire (concat (map (λ x, line (upload_value x) ++ x.2) us) ++ rest) tn out None gr s) =
    full_loop (mkWire rest tn (out ++ lines (map (λ x, upload_ack g x.1) us)) None gr s').
Proof.
  intros Hs Ho Hh Hus. revert out s Hs Ho Hh. induction Hus as [|x us Hx Hus IH]; intros out s Hs Ho Hh Hw.
  { exists s. unfold lines. cbn. by rewrite !app_nil_r. }
  pose proof (all_welcome_first s x us Hus Hw) as Hfirst.
  destruct (IH (out ++ line (upload_ack g x.1)) (uploaded s x)) as (s' & H1 & H2 & H3 & H4 & H5);
    [by apply uploaded_ok|done|done|by apply all_welcome_next|].
  exists s'. split_and!; [done|done|done| |].
  - rewrite H4. change (received (uploaded s x)) with (received s ++ [(x.1, x.2)]).
    rewrite <- (assoc_L (++)). by destruct x.
  - cbn [map concat]. rewrite <- !(assoc_L (++)). erewrite full_loop_next by by apply upload_turn.
    rewrite H5. do 2 f_equal. unfold lines. cbn [map concat]. by rewrite (assoc_L (++)).
Qed.

Lemma cleanup_turn rest tn out gr s :
  fits (lease_value "cleanup") = true → fits (receipt_value (cleanup env g s).2) = true →
  opened s = true → handled s ≠ 0%nat →
  serve_turn hex_sha256 env g (mkWire (line (lease_value "cleanup") ++ rest) tn out None gr s) =
  (mkWire rest tn (out ++ line (receipt_value (cleanup env g s).2)) None gr (cleanup env g s).1, Some false).
Proof.
  intros Hfit Hack Ho Hh. destruct (lease_read "cleanup" eq_refl) as (Hf & j & Hj & Hd).
  rewrite (turn_reads _ "cleanup" j) by done. apply Nat.eqb_neq in Hh. rewrite Hh.
  change (handler "cleanup") with (handle_cleanup env g). unfold handle_cleanup. run.
  rewrite Ho. cbn. rewrite Hd, lease_valid. cbn. destruct (cleanup env g s) as [s' r]. cbn in Hack |- *.
  by rewrite write_fits.
Qed.

Definition final_receipt (us : list (UploadFrame * list Z)) : CleanupReceipt :=
  mkReceipt (Identity g) Cleaned (Z.of_nat (length us)) (receipt_id (cleaning env)).

Lemma smooth_cleanup s :
  serving_ok s → (cleanup env g s).2 = final_receipt (received s) ∧
  told (cleanup env g s).1 = (if CleanupHook g then [final_receipt (received s)] else []).
Proof.
  intros Hs. unfold cleanup. rewrite (removal_works smooth_run), (receipt_stored smooth_run), (hook_works smooth_run).
  cbn. rewrite (seen_size _ _ _ _ _ Hs), (ok_told _ _ _ _ _ Hs). by destruct (CleanupHook g).
Qed.

(** C18: a transfer by the rules goes through: when the client opens the lease,
    sends uploads with their digests within the limits, and asks for the
    cleanup, and no system call fails, then the gateway succeeds: every upload
    is accepted and acknowledged with its path, in order, and the receipt that
    is answered and told says that all of them were cleaned up, as they were. *)
Theorem attachments_complete us rest w :
  Forall honest_upload us → NoDup (batches us) → total us ≤ MaxBytes g → Z.of_nat (length us) ≤ MaxEntries g →
  Forall (λ v, fits v = true) [offer g; lease_value "open"; lease_value "cleanup"; receipt_value (final_receipt us)] →
  world w = started files receipts0 → room w = None → incoming w = client_input us ++ rest →
  let '(w', r) := Serve hex_sha256 env g w in
  let s := world w' in
  r = Some tt ∧ received s = us ∧
  outgoing w' = outgoing w ++ lines (offer g :: open_ack :: map (λ x, upload_ack g x.1) us ++ [receipt_value (final_receipt us)]) ∧
  told s = (if CleanupHook g then [final_receipt us] else []) ∧
  (∀ l, below g l → attachments s !! l = None) ∧ (∀ l, ¬ below g l → attachments s !! l = files !! l).
Proof.
  intros Hus Hn Hb He Hfits Hw Hroom Hin.
  rewrite !list.Forall_cons in Hfits. destruct Hfits as (Hf1 & Hf2 & Hf3 & Hf4 & _).
  unfold Serve, require_stream, mbind, stream_bind, mret, stream_ret. rewrite gateway_ok, write_fits by done.
  unfold serve_frames. rewrite Hin, Hw. unfold client_input. rewrite <- !(assoc_L (++)).
  match goal with |- context [serve_loop _ _ _ (S (length (incoming ?x))) ?x] => change (serve_loop _ _ _ _ x) with (full_loop x) end.
  set (s1 := (started files receipts0) <| opened := true |> <| handled := 1%nat |>).
  assert (Hs1 : serving_ok s1).
  { destruct (started_ok hex_sha256 g files receipts0 gateway_ok). by constructor. }
  erewrite full_loop_next by by apply open_turn. fold s1.
  destruct (uploads_loop us (line (lease_value "cleanup") ++ rest) (torn w) ((outgoing w ++ line (offer g)) ++ line open_ack)
    (granted w) s1) as (s' & Hs' & Ho' & Hh' & Hr' & Hl'); [done|done|done|done| |].
  { split_and!; [done| |by cbn|by cbn]. intros x Hx. split; [cbn; set_solver|].
    rewrite list.Forall_forall in Hus. apply (up_free _ (Hus x Hx)). }
  rewrite Hl'. cbn in Hr'. destruct (smooth_cleanup s' Hs') as [Hrec Htold]. rewrite Hr' in Hrec, Htold.
  erewrite full_loop_last by (apply cleanup_turn; by rewrite ?Hrec).
  pose proof (cleanup_spec hex_sha256 env g files receipts0 s' Hs') as Hc.
  cbn [world]. rewrite (clean_finished _ _ _ _ _ _ _ Hc). cbn [world outgoing].
  split_and!; [done| | |exact Htold| |].
  - by rewrite (proj1 (clean_same _ _ _ _ _ _ _ Hc)).
  - rewrite Hrec. unfold lines. cbn [map concat]. rewrite map_app, concat_app. cbn [map concat].
    by rewrite app_nil_r, <- !(assoc_L (++)).
  - apply (clean_gone _ _ _ _ _ _ _ Hc), smooth_run.
  - apply (clean_outside _ _ _ _ _ _ _ Hc).
Qed.
End Complete.

(** ** A concrete transfer *)

Module CompleteDemo.
Import AttachmentsDemo.

Definition steady : environment :=
  mkEnv (λ _, 0) (λ _, false) (λ _, mkUploadIO true true None true true) (mkCleanupIO None (uuid "9") true true true).

Definition uploads : list (UploadFrame * list Z) :=
  [(upload "6" "a.txt" [1; 2; 3], [1; 2; 3]); (upload "7" "b.txt" [4], [4])].

Lemma uploads_honest : Forall (honest_upload sha (gateway 1000) other_files) uploads.
Proof. repeat constructor; vm_compute; reflexivity. Qed.

Lemma steady_smooth : smooth steady (gateway 1000).
Proof. constructor; intros; (reflexivity || (cbv zeta; split_and!; reflexivity)). Qed.

Lemma gateway_authorized : authorized_gateway (gateway 1000) = true.
Proof. vm_compute. reflexivity. Qed.

Lemma uploads_distinct : NoDup (batches uploads).
Proof.
  change (batches uploads) with [uuid "6"; uuid "7"]. apply list.NoDup_cons. split; [|apply list.NoDup_singleton].
  by intros Heq%list_elem_of_singleton.
Qed.

Lemma attachments_complete_witness :
  let x := Serve sha steady (gateway 1000) (before (client_input (gateway 1000) uploads)) in
  x.2 = Some tt ∧ received (world x.1) = uploads ∧ told (world x.1) = [mkReceipt identity Cleaned 2 (uuid "9")].
Proof.
  pose proof (attachments_complete sha steady (gateway 1000) other_files ∅) as H.
  specialize (H gateway_authorized steady_smooth uploads [] (before (client_input (gateway 1000) uploads))).
  specialize (H uploads_honest uploads_distinct ltac:(by cbn) ltac:(by cbn)).
  specialize (H ltac:(repeat constructor; vm_compute; reflexivity) eq_refl eq_refl ltac:(by rewrite app_nil_r)).
  destruct (Serve _ _ _ _) as [w' r]. destruct H as (H1 & H2 & _ & H4 & _). split; [exact H1|]. split; [exact H2|exact H4].
Defined.

End CompleteDemo.
